(* ===== verification/_CoqProject ===== *)
-Q . S2P
Prelude.v
Common.v
Gorm.v
Json.v
GoLib.v
RunnerProto.v
RunStore.v
PipelineStore.v
TargetStore.v
EditStore.v
OrgStore.v
SiteStore.v
PermStore.v
RateLimit.v
World.v
Admin.v
Catalog.v
Artifacts.v
Permissions.v
Middleware.v
WorldLogic.v
RunParams.v
RunSpec.v
RunDispatch.v
RunTrigger.v
RunControl.v
RunSweeps.v
Frames.v
Gateway.v
Instances.v
DispatchTheory.v
TriggerTheory.v
SpecTheory.v
DispatchInterleaving.v
HubEvents.v
ApprovalTheory.v
SweepTheory.v
ApprovalSweepTheory.v
DispatchProperties.v
TriggerProperties.v
GatewayTheory.v
ControlProperties.v
CronExpr.v
PipelineTriggers.v
AgentOps.v
PipelineVersions.v
ConfigVersions.v
Environments.v
Credentials.v
Settings.v
LocalStorage.v
Identity.v
Sessions.v
Directory.v
ClusterAccess.v
PipelineEdit.v
RunHandlers.v
ConsoleHandlers.v
Upkeep.v
AdminLogic.v
PermTheory.v
AuthzProperties.v
CascadeTheory.v
CatalogProperties.v
ArtifactProperties.v
VersionTheory.v
AgentOpProperties.v
VersionProperties.v
ConfigTheory.v
ConfigProperties.v
CredentialProperties.v
PlatformProperties.v
LocalStorageProperties.v
OrgProperties.v
SweepProperties.v
CronTheory.v
PortalProperties.v
ClusterProperties.v
HandlerProperties.v
UpkeepProperties.v
