(* ===== verification/Prelude.v ===== *)
(** * Software Distribution Platform Hub: a verification development

    The hub (src/cmd/hub, src/internal) stores delivery pipelines, turns a
    trigger into a run, and drives it through Runners: agents on the target
    clusters, each holding one WebSocket connection to the hub.  A run is
    compiled into a spec, queued as a dispatch job, delivered when its target
    is connected, and then followed through status reports, log chunks and
    approvals coming back over the same connection.

    ** Parts and files

    - Shared: [Prelude] (results, the state monad and its weakest-precondition
      rules, record update, loops), [Common] (internal/common: error values,
      kinds and codes, pagination), [Json] (encoding/json as the hub uses it),
      [Gorm] (gorm and Postgres as a class of statements with laws, and the
      list-backed instance [ListGorm]), [GoLib] (SHA-256, hexadecimal, base64
      and the string functions of the standard library).
    - Rows and repositories, a file per group of tables: [RunStore]
      (internal/run), [PipelineStore] and [EditStore] (internal/pipeline:
      definitions, versions, triggers; also the ledger of agent operations),
      [TargetStore] (internal/target), [OrgStore] (organizations, service tree, services,
      components, dependencies, configuration, environments, artifacts),
      [SiteStore] (configuration snapshots, variable groups, environment
      groups, credentials), [PermStore] (internal/permission).
      [RunnerProto] is the wire protocol (internal/runnerproto).
    - State: [World] is the state of the run subsystem, a table per model, the
      Runner link, the clock and the optional collaborators of
      [PipelineRunService]; [Admin] is the state of the administrative side
      (its tables, the object store, the rate limiter).  A handler is a
      computation [M World A] or [M Admin A].
    - Run subsystem (internal/run/service): [RunParams]
      (pipeline_run_params.go), [RunSpec] (selectTarget, buildSpec, the
      production guard), [RunDispatch] (the job queue of pipeline_run.go),
      [RunTrigger] (Trigger, createRun, run_concurrency.go), [RunControl]
      (ApplyStatus, Approve, CancelRun, Redispatch, logs), [RunSweeps]
      (timeouts, queue promotion, approval timeouts, views).
    - [Gateway] (internal/gateway/gateway.go): authentication of a dial, the
      registry, sends, routing; [gateway_dispatcher] implements the
      [Dispatcher] class the run service is written against, [gateway_laws]
      proves its laws.
    - Pipelines (internal/pipeline): [CronExpr] (cronexpr/cron.go),
      [PipelineTriggers] (service/trigger.go), [PipelineVersions]
      (service/version.go, models/version.go), [PipelineEdit] (the other
      services).  [AgentOps]: target/service/agent_op.go and op_stream.go.
    - Access (internal/permission, internal/middleware): [Permissions] (the
      services), [RateLimit], [Middleware] (each middleware as a transformer
      of handlers, and the chains cmd/hub/main.go mounts).
    - Administration: [Catalog] (internal/cascade/deleter.go; the component,
      catalog and dependency services), [Artifacts]
      (internal/artifact/service: registration, collector, reconciliation),
      [LocalStorage] (artifact/storage/local.go: signed URLs and the disk
      backend, an instance of [ObjectStore]), [ConfigVersions] (component
      configuration, its versions, variable groups), [Environments]
      (internal/environment, internal/environmentgroup), [Credentials]
      (internal/credentials: the envelope and the service; and
      cmd/hub/agentop_dispatcher.go, which sends a credential to a Runner),
      [Settings] (internal/platform and auth/loginmode.go: the change window,
      its gate, the login mode), [Identity] (internal/keycloak over one HTTP
      exchange, internal/org/service).
    - The portal: [Sessions] (internal/session: cookies and the session table;
      internal/auth/handler/handler.go: log-in, callback, forced change of a
      password, log-out; cmd/hub/auth_setup.go: the verifier the middleware is
      given), [Directory] (permission/handler/keycloak_directory.go,
      realmsettings/handler.go and the identity providers of
      keycloak/directory.go, against the class [KeycloakDirectory], which
      [client_directory] implements), [ClusterAccess] (internal/k8srbac: role
      templates, rows, the client over the API server [KubeAPI], the service
      against the class [ClusterClient], the handlers, and the resolver of
      cmd/hub/main.go).
    - HTTP: [RunHandlers] (internal/run/handler, with the live log of a run as
      the events it writes; what every handler shares; rows as documents),
      [ConsoleHandlers] (internal/pipeline/handler, internal/target/handler
      with the event stream of an agent operation, target/service/joinbundle.go
      and the generic handlers of common/handler.go against the class
      [CRUDService]).
    - Around the core: [Upkeep] (internal/retention, the job that deletes old
      rows; internal/notification, notices, read marks and subscriptions;
      internal/search against the class [SearchStore], which the repository
      implements).
    - Reasoning: [WorldLogic] (statement rules, read-only computations),
      [Frames] (what a handler leaves alone, tables with unique keys),
      [AdminLogic]; then a theory per part: [DispatchTheory],
      [TriggerTheory], [SpecTheory], [ApprovalTheory] (approvals and status
      reports), [SweepTheory], [ApprovalSweepTheory], [HubEvents]
      (every entry point as queue events), [DispatchInterleaving] (a delivery
      attempt cut into its statements, for races), [VersionTheory],
      [PermTheory], [CascadeTheory], [ConfigTheory].
    - Guarantees: [DispatchProperties], [TriggerProperties],
      [ControlProperties], [SweepProperties], [GatewayTheory],
      [CronTheory], [VersionProperties], [AgentOpProperties],
      [AuthzProperties], [CatalogProperties], [ArtifactProperties],
      [ConfigProperties], [CredentialProperties], [PlatformProperties],
      [LocalStorageProperties], [OrgProperties], [PortalProperties],
      [ClusterProperties], [HandlerProperties], [UpkeepProperties]; [Instances] is the concrete
      hub on which each of them is evaluated.

    ** What is shown

    - Queue: one delivery attempt on every branch, the backoff schedule, that
      draining delivers every waiting job in order, that over any history of
      entry points each job is sent to its own target at most once with the
      payload stored at enqueue time, that interleaved attempts exclude each
      other, and that the interleaving model refines to the handler.
    - Triggering: what a successful trigger checked and wrote, the concurrency
      policies as an invariant of every trigger, the refusals, the production
      approval guard, the shape and order of the built spec, and the
      expansion of [${KEY}] against a token semantics.
    - Operating: decided approvals are final over any history, approvals,
      cancellation, redelivery and the sweeps by case, status reports stay
      within the reporting target.
    - Gateway: enroll tokens are single-use, authentication is sound, sends go
      to the registered connection, late disconnects do not take a newer
      connection down.
    - Pipelines: which triggers a tick fires, the least next fire time and
      where its search hangs, the snapshot round trip, comparison of
      snapshots, rollback.  Agent operations settle, and only an approval
      dispatches an upgrade.
    - Access: a guarded route runs its handler only for a subject that holds
      the permission and belongs to an admitted organization, what the
      permission check decides, the life of a personal access token, and what
      a request meets before the limiter.
    - Administration: a component is deleted whole or not at all and never
      with a run in progress, the dependency graph stays acyclic, the artifact
      collector drops a row only after its object, drains the expired ones
      while the store obeys and starves when it refuses a whole batch.
    - Configuration: recorded versions are numbered without gaps and never
      change, a comparison reports exactly the differing keys, a rollback
      rewrites the scope to the recorded entries.
    - Secrets: the credential store refines a map from identifiers to secrets
      under authenticated encryption, and the dispatcher sends an
      environment's secret to the operation's own target only.
    - Environments: what a connection test's verdict means.  Signed URLs: what
      a minted URL opens, until when, and that nothing else is opened.
    - Settings: the change window as a set of minutes of the week and the gate
      in front of every trigger; what is saved is what is read back; the
      cached login mode stands for the stored one.
    - Portal: the state of a log-in is good once, a log-in opens the session
      its cookie is read back as, for eight hours, a log-out ends it, a forced
      change of a password is vouched for by the old one, generated passwords
      satisfy every class, which groups the directory's guard protects, and
      what deleting a principal leaves behind.
    - Clusters: creation as all or nothing, and what a revocation changes on
      the cluster and in the row.
    - HTTP: the live log of a run shows its history whole, once and in order,
      a decision counts for whom its body names, an update of a target locks
      its Runner out, and what a page of the operations' ledger holds.
    - Around the core: what a search finds, against a semantics of LIKE
      patterns; who changes a subscription and what is mailed; what the
      retention job may delete.
    - Identity: two defects, that an edit of a user disables the account and
      that a refused organization cleans up another one's groups.

    ** Conventions and limits

    Code outside the repository is a parameter: gorm and Postgres
    ([GormLaws]: reads are ordered selections, a failing statement writes
    nothing), transactions over several tables ([Transactions]: a failed body
    leaves the state as it was), the object store ([ObjectStore]), the OIDC
    verifier, the WebSocket library, the metav1 time formats, UUID generation
    and printing, random bytes, the order of a map [range], AES-GCM
    ([AESGCM]: what is sealed opens to itself), the printing and reading of
    JSON text ([JSONText], [JSONReader]), the files of the disk ([OSFiles]),
    an HTTP exchange with Keycloak ([HTTP]), a Kubernetes API server
    ([KubeAPI]; [KubeLaws]: it stores what it accepts, and a refused call
    changes nothing), tables keyed by a subject with their upsert
    ([SubjectTables]), lower() and the collation of the database ([SqlText];
    [SqlTextLaws]: lower() leaves LIKE's own characters alone).  Every statement
    may fail unless its table is [healthy]; theorems that need it say so.  The
    clock stands still inside one handler.  Handlers run one at a time except
    in [DispatchInterleaving].  Durations and the approval timeout wrap at 64
    bits.  Loops that range over lists are structural; the unbounded ones run
    on [loop] with a bound: [next_fuel] minutes for a cron search (more than
    the eight years the code allows), [search_fuel] steps for the cycle search
    (every edge is pushed at most once, [closesCycle_reaches]); out of bound
    they answer [Hangs], and theorems show when they do not.  The wait for a
    certificate runs [poll_rounds] rounds of half a second, more than its
    thirty seconds allow, and [waitForCertificate_returns] shows that it
    always ends.  The loop over
    the pages of organizations takes its fuel as an argument and answers
    whether it ended; the replay of a run's log has one round for every chunk
    of the table and one more, each round but the last shows a new chunk, and
    [log_stream_shows_history] shows that it ends.

    Not modelled: Gin itself, which routes a request and hands its parameters
    over, and the Gin handlers of the catalog, of components and their
    configuration, of artifacts, environments and credentials and of the
    permission tables, which parse a request, call the service and write the
    reply; the tickers that call the sweeps, the S3 and mail clients,
    configuration from the environment, and metrics. *)
From stdpp Require Import base list strings gmap sorting.
From Stdlib Require Import ZArith Lia.

(** * Scopes and notations *)

Declare Scope hub_scope.
Delimit Scope hub_scope with hub.

(** * Go scalars *)

(** [uuid.UUID] is a 128-bit value; only equality, the zero value [uuid.Nil]
    and the primary-key order matter to the code. *)
Definition UUID : Type := Z.
Definition uuid_Nil : UUID := 0%Z.

(** [time.Time] is an instant in nanoseconds since the epoch and
    [time.Duration] a signed count of nanoseconds. *)
Definition Time : Type := Z.
Definition Duration : Type := Z.
Definition Nanosecond : Duration := 1%Z.
Definition Second : Duration := 1000000000%Z.
Definition Minute : Duration := (60 * Second)%Z.
Definition Hour : Duration := (60 * Minute)%Z.

#[global] Instance UUID_eq_dec : EqDecision UUID := Z.eq_dec.
#[global] Instance Time_eq_dec : EqDecision Time := Z.eq_dec.

(** Signed 64-bit wrap-around, the arithmetic of Go's [int], [int64] and
    [time.Duration] on the platforms the hub runs on. *)
Definition wrap64 (z : Z) : Z := ((z + 2 ^ 63) mod 2 ^ 64 - 2 ^ 63)%Z.

Lemma wrap64_id z : (- 2 ^ 63 <= z < 2 ^ 63)%Z -> wrap64 z = z.
Proof. intros H. unfold wrap64. rewrite Z.mod_small; lia. Qed.

Lemma wrap64_range z : (- 2 ^ 63 <= wrap64 z < 2 ^ 63)%Z.
Proof.
  unfold wrap64. pose proof (Z.mod_pos_bound (z + 2 ^ 63) (2 ^ 64)). lia.
Qed.

(** * Record field update

    [r <| f := v |>] rebuilds a record with one projection replaced.  A record
    type opts in with an [Eta] instance that spells out its constructor. *)

Class Eta (R : Type) := eta : R -> R.
Class Setter {R T : Type} (proj : R -> T) := set_field : (T -> T) -> R -> R.
Arguments set_field {R T} proj {Setter} _ _.

Ltac head_of t := match t with ?f _ => head_of f | _ => t end.

Ltac solve_setter proj :=
  match type of proj with
  | ?R -> ?T =>
      match constr:(@eta R _) with
      | @eta _ ?inst =>
          let h := head_of inst in
          let body := eval cbv beta delta [h] in inst in
          match eval pattern proj in body with
          | ?abs _ => exact (fun (upd : T -> T) => abs (fun r => upd (proj r)))
          end
      end
  end.

#[export] Hint Extern 1 (Setter ?proj) => (solve_setter proj) : typeclass_instances.

Notation "r <| f := v |>" := (set_field f (fun _ => v) r)
  (at level 1, left associativity, format "r  <| f  :=  v |>") : hub_scope.
Open Scope hub_scope.

(** * Fallible results

    A Go function returning [(T, error)] returns [Ok] with the value or [Err]
    with the error. *)

Inductive Res (E A : Type) : Type :=
| Ok (a : A)
| Err (e : E).
Arguments Ok {E A} a.
Arguments Err {E A} e.

Definition is_ok {E A} (r : Res E A) : bool := match r with Ok _ => true | Err _ => false end.
Definition ok_or {E A} (d : A) (r : Res E A) : A := match r with Ok a => a | Err _ => d end.

Definition bind_res {E A B} (r : Res E A) (k : A -> Res E B) : Res E B :=
  match r with Ok a => k a | Err e => Err e end.

(** [for _, x := range xs] with an early [return nil, err]. *)
Fixpoint map_res {E A B} (f : A -> Res E B) (l : list A) : Res E (list B) :=
  match l with
  | [] => Ok []
  | x :: l' => bind_res (f x) (fun y => bind_res (map_res f l') (fun ys => Ok (y :: ys)))
  end.

Lemma bind_res_Ok {E A B} (r : Res E A) (k : A -> Res E B) b :
  bind_res r k = Ok b <-> exists a, r = Ok a /\ k a = Ok b.
Proof.
  destruct r as [a|e]; simpl; split; intros H.
  - eauto.
  - destruct H as (a' & [= ->] & H). exact H.
  - discriminate.
  - destruct H as (a' & H & _). discriminate.
Qed.

Lemma map_res_Ok {E A B} (f : A -> Res E B) l ys :
  map_res f l = Ok ys <-> Forall2 (fun x y => f x = Ok y) l ys.
Proof.
  revert ys. induction l as [|x l IH]; intros ys; simpl.
  - split; intros H; [injection H as <-; constructor | by inversion H].
  - rewrite bind_res_Ok. split.
    + intros (y & Hy & H). apply bind_res_Ok in H as (ys' & H & [= <-]).
      constructor; [done | by apply IH].
    + intros H. inversion H as [|? y ? ys' Hy Hr]; subst. exists y. split; [done|].
      apply bind_res_Ok. exists ys'. split; [by apply IH | done].
Qed.

(** * State-passing computations

    A handler that reads and writes the state [S] and returns an [A]. *)

Definition M (S A : Type) : Type := S -> A * S.

Definition ret {S A} (a : A) : M S A := fun s => (a, s).
Definition bind {S A B} (m : M S A) (k : A -> M S B) : M S B :=
  fun s => let '(a, s') := m s in k a s'.
Definition get {S} : M S S := fun s => (s, s).
Definition put {S} (s : S) : M S unit := fun _ => (tt, s).
Definition modify {S} (f : S -> S) : M S unit := fun s => (tt, f s).

(** [x, err := m; if err != nil { return ..., err }]. *)
Definition try_bind {S E A B} (m : M S (Res E A)) (k : A -> M S (Res E B)) : M S (Res E B) :=
  bind m (fun r => match r with Ok a => k a | Err e => ret (Err e) end).

Notation "'let*' x := m 'in' k" := (bind m (fun x => k))
  (at level 10, x pattern, m at level 100, k at level 200) : hub_scope.
Notation "'try*' x := m 'in' k" := (try_bind m (fun x => k))
  (at level 10, x pattern, m at level 100, k at level 200) : hub_scope.
Notation "'ok*' x := r 'in' k" := (bind_res r (fun x => k))
  (at level 10, x pattern, r at level 100, k at level 200) : hub_scope.
Notation "m ';;;' k" := (bind m (fun _ => k))
  (at level 199, right associativity) : hub_scope.

(** [for _, x := range xs { body }] without an early return. *)
Fixpoint for_each {S A} (l : list A) (body : A -> M S unit) : M S unit :=
  match l with
  | [] => ret tt
  | x :: l' => body x ;;; for_each l' body
  end.

(** The same loop whose body may [return err]. *)
Fixpoint for_each_err {S E A} (l : list A) (body : A -> M S (Res E unit)) : M S (Res E unit) :=
  match l with
  | [] => ret (Ok tt)
  | x :: l' => try* _ := body x in for_each_err l' body
  end.

(** A loop that threads an accumulator and may [return err]. *)
Fixpoint fold_err {S E A B} (l : list A) (acc : B) (body : B -> A -> M S (Res E B))
  : M S (Res E B) :=
  match l with
  | [] => ret (Ok acc)
  | x :: l' => try* acc' := body acc x in fold_err l' acc' body
  end.

(** ** Weakest preconditions *)

Definition wp {S A} (m : M S A) (Q : A -> S -> Prop) (s : S) : Prop :=
  Q (m s).1 (m s).2.

Lemma wp_run {S A} (m : M S A) (Q : A -> S -> Prop) s :
  wp m Q s <-> forall a s', m s = (a, s') -> Q a s'.
Proof.
  unfold wp. destruct (m s) as [a s'] eqn:E. simpl. split.
  - by intros H ? ? [= <- <-].
  - intros H. by apply H.
Qed.

Lemma wp_ret {S A} (a : A) (Q : A -> S -> Prop) s : Q a s -> wp (ret a) Q s.
Proof. done. Qed.

Lemma wp_get {S} (Q : S -> S -> Prop) s : Q s s -> wp get Q s.
Proof. done. Qed.

Lemma wp_modify {S} (f : S -> S) (Q : unit -> S -> Prop) s : Q tt (f s) -> wp (modify f) Q s.
Proof. done. Qed.

Lemma wp_bind {S A B} (m : M S A) (k : A -> M S B) (Q : B -> S -> Prop) s :
  wp m (fun a s' => wp (k a) Q s') s -> wp (bind m k) Q s.
Proof. unfold wp, bind. by destruct (m s) as [a s']. Qed.

Lemma wp_mono {S A} (m : M S A) (Q Q' : A -> S -> Prop) s :
  wp m Q s -> (forall a s', Q a s' -> Q' a s') -> wp m Q' s.
Proof. unfold wp. auto. Qed.

Lemma wp_and {S A} (m : M S A) (R : S -> Prop) (Q : A -> S -> Prop) s :
  R (m s).2 -> wp m Q s -> wp m (fun a s' => R s' /\ Q a s') s.
Proof. done. Qed.

Lemma wp_try {S E A B} (m : M S (Res E A)) (k : A -> M S (Res E B)) Q s :
  wp m (fun r s' => match r with Ok a => wp (k a) Q s' | Err e => Q (Err e) s' end) s ->
  wp (try_bind m k) Q s.
Proof.
  intros H. unfold try_bind. apply wp_bind. eapply wp_mono; [exact H|].
  intros [a|e] s' H'; [exact H' | exact H'].
Qed.

(** Loop rule: an invariant on the visited prefix and the state. *)
Lemma wp_for_each {S A} (I : list A -> S -> Prop) (l : list A) (body : A -> M S unit)
    (Q : unit -> S -> Prop) s :
  I [] s ->
  (forall pre x post s', l = pre ++ x :: post -> I pre s' ->
     wp (body x) (fun _ s'' => I (pre ++ [x]) s'') s') ->
  (forall s', I l s' -> Q tt s') ->
  wp (for_each l body) Q s.
Proof.
  intros H0 Hstep HQ.
  cut (forall l2 l1 s1, l = l1 ++ l2 -> I l1 s1 -> wp (for_each l2 body) Q s1).
  { intros H. by apply (H l []). }
  induction l2 as [|x l2 IH]; intros l1 s1 -> HI; simpl.
  - rewrite app_nil_r in HQ. apply wp_ret. by apply HQ.
  - apply wp_bind. eapply wp_mono; [by eapply Hstep|]. intros [] s2 H2. simpl in H2.
    apply (IH (l1 ++ [x])); [by rewrite <- app_assoc | exact H2].
Qed.

(** A body that preserves a state predicate makes the loop preserve it. *)
Lemma wp_for_each_inv {S A} (I : S -> Prop) (l : list A) (body : A -> M S unit) s :
  I s -> (forall x s', x ∈ l -> I s' -> wp (body x) (fun _ => I) s') ->
  wp (for_each l body) (fun _ => I) s.
Proof.
  intros H0 H. apply (wp_for_each (fun _ => I)); [done| |done].
  intros pre x post s' -> HI. apply H; [set_solver|done].
Qed.

Lemma wp_for_each_err {S E A} (I : list A -> S -> Prop) (l : list A)
    (body : A -> M S (Res E unit)) (Q : Res E unit -> S -> Prop) s :
  I [] s ->
  (forall pre x post s', l = pre ++ x :: post -> I pre s' ->
     wp (body x) (fun r s'' => match r with Ok _ => I (pre ++ [x]) s'' | Err e => Q (Err e) s'' end) s') ->
  (forall s', I l s' -> Q (Ok tt) s') ->
  wp (for_each_err l body) Q s.
Proof.
  intros H0 Hstep HQ.
  cut (forall l2 l1 s1, l = l1 ++ l2 -> I l1 s1 -> wp (for_each_err l2 body) Q s1).
  { intros H. by apply (H l []). }
  induction l2 as [|x l2 IH]; intros l1 s1 -> HI; simpl.
  - rewrite app_nil_r in HQ. apply wp_ret. by apply HQ.
  - apply wp_try. eapply wp_mono; [by eapply Hstep|]. intros [[]|e] s2 H2; simpl in H2; [|done].
    apply (IH (l1 ++ [x])); [by rewrite <- app_assoc | exact H2].
Qed.

(** The same for a loop that threads an accumulator. *)
Lemma wp_fold_err {S E A B} (I : list A -> B -> S -> Prop) (l : list A) (b : B)
    (body : B -> A -> M S (Res E B)) (Q : Res E B -> S -> Prop) s :
  I [] b s ->
  (forall pre x post acc s', l = pre ++ x :: post -> I pre acc s' ->
     wp (body acc x) (fun r s'' =>
       match r with Ok acc' => I (pre ++ [x]) acc' s'' | Err e => Q (Err e) s'' end) s') ->
  (forall acc s', I l acc s' -> Q (Ok acc) s') ->
  wp (fold_err l b body) Q s.
Proof.
  intros H0 Hstep HQ.
  cut (forall l2 l1 b1 s1, l = l1 ++ l2 -> I l1 b1 s1 -> wp (fold_err l2 b1 body) Q s1).
  { intros H. by apply (H l []). }
  induction l2 as [|x l2 IH]; intros l1 b1 s1 -> HI; simpl.
  - rewrite app_nil_r in HQ. apply wp_ret. by apply HQ.
  - apply wp_try. eapply wp_mono; [by eapply Hstep|]. intros [b2|e] s2 H2; simpl in H2; [|done].
    apply (IH (l1 ++ [x])); [by rewrite <- app_assoc | exact H2].
Qed.

Lemma wp_for_each_err_inv {S E A} (I : S -> Prop) (l : list A)
    (body : A -> M S (Res E unit)) s :
  I s -> (forall x s', x ∈ l -> I s' -> wp (body x) (fun _ => I) s') ->
  wp (for_each_err l body) (fun _ => I) s.
Proof.
  revert s. induction l as [|x l IH]; intros s H0 H; simpl; [by apply wp_ret|].
  apply wp_try. eapply wp_mono; [apply H; [set_solver|done]|].
  intros [[]|e] s' Hs; [|done]. apply IH; [done|]. intros y s'' Hy. apply H. set_solver.
Qed.

(** ** Focusing on a component of the state *)

(** Runs a computation on one field of the state. *)
Definition zoom {R T A} (proj : R -> T) {S : Setter proj} (m : M T A) : M R A :=
  fun s => let '(a, t') := m (proj s) in (a, set_field proj (fun _ => t') s).

Lemma wp_zoom {R T A} (proj : R -> T) {S : Setter proj} (m : M T A) Q s :
  wp m (fun a t' => Q a (set_field proj (fun _ => t') s)) (proj s) -> wp (zoom proj m) Q s.
Proof. unfold wp, zoom. by destruct (m (proj s)). Qed.

Create HintDb wp.
#[export] Hint Resolve wp_ret wp_get wp_modify : wp.

(** Decomposes a handler into its statements. *)
Ltac wp_step :=
  first [ apply wp_bind | apply wp_try | apply wp_get | apply wp_modify | apply wp_ret ].

(** ** What a computation leaves alone *)

Definition Unchanged {S V A} (f : S -> V) (m : M S A) : Prop := forall s, f (m s).2 = f s.

Section Unchanged.
Context {S V : Type} (f : S -> V).

Lemma un_ret {A} (a : A) : Unchanged f (ret a).
Proof. done. Qed.
Lemma un_bind {A B} (m : M S A) (k : A -> M S B) :
  Unchanged f m -> (forall a, Unchanged f (k a)) -> Unchanged f (bind m k).
Proof. intros Hm Hk s. unfold bind. specialize (Hm s). destruct (m s) as [a s']. simpl in Hm. by rewrite Hk. Qed.
Lemma un_try {E A B} (m : M S (Res E A)) (k : A -> M S (Res E B)) :
  Unchanged f m -> (forall a, Unchanged f (k a)) -> Unchanged f (try_bind m k).
Proof. intros Hm Hk. apply un_bind; [done|]. intros [a|e]; [apply Hk|apply un_ret]. Qed.
Lemma un_zoom {T A} (proj : S -> T) {I : Setter proj} (m : M T A) :
  (forall s t, f (set_field proj (fun _ => t) s) = f s) -> Unchanged f (zoom proj m).
Proof. intros H s. unfold zoom. destruct (m (proj s)) as [a t]. apply H. Qed.
(** The watched value lies inside the field. *)
Lemma un_zoom_in {T A} (proj : S -> T) {I : Setter proj} (g : T -> V) (m : M T A) :
  (forall s t, f (set_field proj (fun _ => t) s) = g t) -> (forall s, f s = g (proj s)) ->
  Unchanged g m -> Unchanged f (zoom proj m).
Proof.
  intros H1 H2 Hm s. unfold zoom. specialize (Hm (proj s)). destruct (m (proj s)) as [a t]. simpl in *.
  by rewrite H1, Hm, H2.
Qed.
End Unchanged.

Create HintDb unchanged.
Ltac unchanged_step :=
  match goal with
  | |- Unchanged _ (ret _) => apply un_ret
  | |- Unchanged _ (bind _ _) => apply un_bind; [|intros ?]
  | |- Unchanged _ (try_bind _ _) => apply un_try; [|intros ?]
  | |- Unchanged _ (match ?x with _ => _ end) => destruct x
  | |- Unchanged _ (zoom _ _) => solve [apply un_zoom; intros; reflexivity]
  | |- Unchanged _ (let _ := _ in _) => cbv zeta
  | |- Unchanged ?f ?m => first [solve [auto with unchanged] | let h := head_of m in progress unfold h]
  end.
Ltac unchanged := repeat unchanged_step.

(** * Strings *)

Lemma string_append_assoc (s1 s2 s3 : string) : (s1 +:+ s2) +:+ s3 = s1 +:+ s2 +:+ s3.
Proof. induction s1 as [|c s1 IH]; [done|]. exact (f_equal (String c) IH). Qed.

Lemma string_length_append (s1 s2 : string) :
  String.length (s1 +:+ s2) = (String.length s1 + String.length s2)%nat.
Proof. induction s1 as [|c s1 IH]; [done|]. exact (f_equal S IH). Qed.
