(* ===== verification/Common.v ===== *)
(** Shared plumbing of [internal/common]: coded API errors ([errors.go]), the
    Go error values the services compare with [errors.Is], and pagination
    ([pagination.go]).

    An error is [EApi] for a [*APIError], [ESentinel] for a package-level
    [errors.New] variable (compared by identity, so by name here), [EFmt] and
    [EWrap] for [fmt.Errorf] without and with [%w], and [ELib] for an error
    value produced by a library call. *)
From Stdlib Require Import Ascii.
From stdpp Require Import base list strings pretty.
From Stdlib Require Import ZArith Lia.
From S2P Require Import Prelude.

Open Scope Z_scope.

(** * Formatting: the subset of [fmt.Sprintf] the hub uses *)

Inductive Arg : Type :=
| AStr (s : string)
| AInt (z : Z).

#[global] Instance Arg_eq_dec : EqDecision Arg.
Proof. solve_decision. Defined.

Definition arg_text (a : Arg) : string :=
  match a with AStr s => s | AInt z => pretty z end.

Definition dquote : string := String (Ascii.ascii_of_nat 34) "".

(** Each [%v]-like verb consumes one argument; [%q] adds the quotes. *)
Fixpoint Sprintf (format : string) (args : list Arg) : string :=
  match format with
  | "" => ""
  | String "%"%char (String verb rest) =>
      match args with
      | a :: args' =>
          (if Ascii.eqb verb "q"%char then dquote +:+ arg_text a +:+ dquote else arg_text a)
            +:+ Sprintf rest args'
      | [] => String "%"%char (String verb (Sprintf rest []))
      end
  | String c rest => String c (Sprintf rest args)
  end.

Fixpoint zeros (n : nat) : string := match n with O => "" | S n' => String "0"%char (zeros n') end.

(** [%03d] *)
Definition pad3 (z : Z) : string :=
  let s := pretty z in zeros (3 - String.length s) +:+ s.

(** * Coded errors *)

Inductive Kind : Type :=
| KindBase | KindAuth | KindOrg | KindCatalog | KindService | KindComponent | KindTarget
| KindEnv | KindPipeline | KindRun | KindPermission | KindArtifact | KindCredential.

#[global] Instance Kind_eq_dec : EqDecision Kind.
Proof. solve_decision. Defined.

Definition kindModule (k : Kind) : string :=
  match k with
  | KindBase => "01" | KindAuth => "02" | KindOrg => "03" | KindCatalog => "04"
  | KindService => "04" | KindComponent => "05" | KindTarget => "06" | KindEnv => "07"
  | KindPipeline => "08" | KindRun => "09" | KindPermission => "10" | KindArtifact => "11"
  | KindCredential => "12"
  end.

Inductive Status : Type := StatusSuccess | StatusFailure.

#[global] Instance Status_eq_dec : EqDecision Status.
Proof. solve_decision. Defined.

Record APIError : Type := mkAPIError {
  ae_Kind : Kind;
  ae_APIVersion : string;
  ae_Status : Status;
  ae_Code : Z;
  ae_ErrorCode : string;
  ae_ErrorMessage : string;
  ae_Message : string;
  ae_Reasons : list string;
}.
#[global] Instance APIError_eta : Eta APIError := fun r =>
  mkAPIError (ae_Kind r) (ae_APIVersion r) (ae_Status r) (ae_Code r) (ae_ErrorCode r)
    (ae_ErrorMessage r) (ae_Message r) (ae_Reasons r).
#[global] Instance APIError_eq_dec : EqDecision APIError.
Proof. solve_decision. Defined.

Definition APIVersionV1 : string := "v1".

Definition NewAPIError (kind : Kind) (httpCode seq : Z) (msg : string) : APIError :=
  let errorCode := "ERR." +:+ kindModule kind +:+ pad3 httpCode +:+ pad3 seq in
  mkAPIError kind APIVersionV1 StatusFailure httpCode errorCode msg "" [].

Definition DomainError := NewAPIError.

Definition DomainErrorWithReasons (kind : Kind) (httpCode seq : Z) (msg : string)
    (reasons : list string) : APIError :=
  let ae := NewAPIError kind httpCode seq msg in
  match reasons with [] => ae | _ => ae <| ae_Reasons := reasons |> end.

Definition WithMessage (e : APIError) (msg : string) : APIError := e <| ae_Message := msg |>.
Definition WithReasons (e : APIError) (reasons : list string) : APIError :=
  e <| ae_Reasons := ae_Reasons e ++ reasons |>.

(** [(e *APIError) Error()]. *)
Definition APIError_Error (e : APIError) : string :=
  if decide (ae_Message e = "") then ae_ErrorMessage e else ae_Message e.

Definition StatusOK : Z := 200.
Definition StatusCreated : Z := 201.
Definition StatusBadRequest : Z := 400.
Definition StatusUnauthorized : Z := 401.
Definition StatusForbidden : Z := 403.
Definition StatusNotFound : Z := 404.
Definition StatusConflict : Z := 409.
Definition StatusInternalServerError : Z := 500.

Definition ErrInternal := NewAPIError KindBase StatusInternalServerError 1 "Internal Server Error".
Definition ErrBadRequest := NewAPIError KindBase StatusBadRequest 1 "Invalid Parameter".
Definition ErrForbidden := NewAPIError KindBase StatusForbidden 1 "Forbidden".
Definition ErrUnauthorized := NewAPIError KindBase StatusUnauthorized 1 "Unauthorized".
Definition ErrNotFound := NewAPIError KindBase StatusNotFound 1 "Not Found".

(** * Error values *)

Inductive GoError : Type :=
| EApi (e : APIError)
| ESentinel (text : string)
| EFmt (format : string) (args : list Arg)
| EWrap (format : string) (args : list Arg) (inner : GoError)
| ELib (text : string).

#[global] Instance GoError_eq_dec : EqDecision GoError.
Proof. solve_decision. Defined.

Abbreviation Result A := (Res GoError A).

(** [err.Error()]; [%w] is always the last verb of the hub's formats. *)
Fixpoint Error (e : GoError) : string :=
  match e with
  | EApi a => APIError_Error a
  | ESentinel t => t
  | EFmt f args => Sprintf f args
  | EWrap f args inner => Sprintf f (args ++ [AStr (Error inner)])
  | ELib t => t
  end.

(** [errors.Is]: equality with the target anywhere along the [Unwrap] chain. *)
Fixpoint errors_Is (e target : GoError) : bool :=
  bool_decide (e = target) ||
  match e with EWrap _ _ inner => errors_Is inner target | _ => false end.

Lemma errors_Is_refl e : errors_Is e e = true.
Proof. destruct e; simpl; by rewrite bool_decide_eq_true_2. Qed.

Lemma errors_Is_wrap f args e t : errors_Is e t = true -> errors_Is (EWrap f args e) t = true.
Proof. intros H. simpl. rewrite H. apply orb_true_r. Qed.

(** [gorm.ErrRecordNotFound]. *)
Definition ErrRecordNotFound : GoError := ESentinel "record not found".
(** [common.ErrResourceNotFound]. *)
Definition ErrResourceNotFound : GoError := ESentinel "resource not found".

Definition WithError (e : APIError) (err : option GoError) : APIError :=
  match err with Some x => e <| ae_Message := Error x |> | None => e end.

(** [toAPIError]: what the HTTP layer answers for any error value. *)
Definition toAPIError (err : option GoError) : option APIError :=
  match err with
  | None => None
  | Some (EApi ae) => Some ae
  | Some e =>
      if errors_Is e ErrRecordNotFound then Some (WithError ErrNotFound (Some e))
      else Some (WithError ErrInternal (Some e))
  end.

(** * Pagination *)

Record Pagination : Type := mkPagination { Page : Z; PageSize : Z }.

(** In Go's [int]; [Page] has any positive value that parses. *)
Definition Offset (p : Pagination) : Z := wrap64 ((Page p - 1) * PageSize p).
Definition Limit (p : Pagination) : Z := PageSize p.

(** [ParsePagination] after [strconv.Atoi] of the two query parameters, [None]
    when the parameter does not parse. *)
Definition ParsePagination (page_q pageSize_q : option Z) : Pagination :=
  let page := match page_q with Some n => if n <? 1 then 1 else n | None => 1 end in
  let pageSize := match pageSize_q with Some n => if n <? 1 then 20 else n | None => 20 end in
  let pageSize := if 100 <? pageSize then 100 else pageSize in
  mkPagination page pageSize.

Example NewAPIError_code : ae_ErrorCode (NewAPIError KindPipeline 400 2 "x") = "ERR.08400002".
Proof. vm_compute. reflexivity. Qed.
