(* ===== verification/Gorm.v ===== *)
(** The persistence library as the repositories use it.

    gorm and Postgres are outside the repository, so a table is an abstract
    type and every statement a parameter; [GormLaws] states the documented
    behaviour the repositories rely on, in terms of the rows a table holds:
    a SELECT returns the matching rows ordered by the requested keys, a
    statement that fails changes nothing, INSERT fills the default primary
    key, UPDATE rewrites exactly the rows its WHERE clause selects.  Any
    statement may fail unless the table is [healthy].

    [ListGorm] is a concrete instance with a schedule of failing statements;
    it is what the witnesses run on. *)
From stdpp Require Import base list strings sorting sets.
From Stdlib Require Import ZArith Lia.
From S2P Require Import Prelude Common.

Open Scope Z_scope.

(** * Row types *)

(** What gorm reads off a model struct: its primary key, the columns stamped
    by INSERT and UPDATE, whether the default scope sees the row
    ([deleted_at IS NULL]) and which rows a unique index puts in conflict. *)
Class Model (R : Type) : Type := {
  pk : R -> UUID;
  created : UUID -> Time -> R -> R;
  updated : Time -> R -> R;
  alive : R -> bool;
  deleted : Time -> R -> option R;
  clash : R -> R -> bool;
}.

Class ModelLaws (R : Type) `{Model R} : Prop := {
  pk_created : forall id now r, pk (created id now r) = id;
  pk_updated : forall now r, pk (updated now r) = pk r;
}.

(** * Queries *)

(** [ORDER BY] over a list of ascending integer keys; [desc] negates its key. *)
Fixpoint keys_le (ks ks' : list Z) : bool :=
  match ks, ks' with
  | k :: ks1, k' :: ks1' => (k <? k') || ((k =? k') && keys_le ks1 ks1')
  | _, _ => true
  end.

Definition by_keys {R} (order : list (R -> Z)) (a b : R) : Prop :=
  keys_le ((fun f => f a) <$> order) ((fun f => f b) <$> order) = true.

#[global] Instance by_keys_dec {R} (order : list (R -> Z)) : RelDecision (by_keys order).
Proof. intros a b. unfold by_keys. apply _. Defined.

#[global] Instance by_keys_total {R} (order : list (R -> Z)) : Total (by_keys order).
Proof.
  intros a b. unfold by_keys. induction order as [|f order IH]; simpl; [by left|].
  destruct (Z.ltb_spec (f a) (f b)); [by left|].
  destruct (Z.ltb_spec (f b) (f a)); [by right|].
  assert (f a = f b) as -> by lia. rewrite Z.eqb_refl. simpl. exact IH.
Qed.

#[global] Instance by_keys_trans {R} (order : list (R -> Z)) : Transitive (by_keys order).
Proof.
  intros a b c. unfold by_keys. induction order as [|f order IH]; simpl; [done|].
  rewrite !orb_true_iff, !andb_true_iff, !Z.ltb_lt, !Z.eqb_eq. intros [?|[? ?]] [?|[? ?]]; [left; lia..|].
  right. split; [lia|auto].
Qed.

Record Query (R : Type) : Type := mkQuery {
  q_where : R -> bool;
  q_order : list (R -> Z);
  q_offset : nat;
  q_limit : option nat;
}.
Arguments mkQuery {R}. Arguments q_where {R}. Arguments q_order {R}.
Arguments q_offset {R}. Arguments q_limit {R}.

Definition Where {R} (p : R -> bool) : Query R := mkQuery p [] 0 None.
Definition Order {R} (ks : list (R -> Z)) (q : Query R) : Query R :=
  mkQuery (q_where q) ks (q_offset q) (q_limit q).
(** [if limit > 0 { q = q.Limit(limit) }] *)
Definition LimitQ {R} (n : Z) (q : Query R) : Query R :=
  if 0 <? n then mkQuery (q_where q) (q_order q) (q_offset q) (Some (Z.to_nat n)) else q.
Definition OffsetQ {R} (n : Z) (q : Query R) : Query R :=
  mkQuery (q_where q) (q_order q) (Z.to_nat n) (q_limit q).

Definition limit_rows {R} (q : Query R) (l : list R) : list R :=
  let l := drop (q_offset q) l in
  match q_limit q with Some n => take n l | None => l end.

Section Matching.
Context {R : Type} `{Model R}.

(** The rows a statement with this WHERE clause ranges over. *)
Definition selected (p : R -> bool) (l : list R) : list R :=
  filter (fun r => (alive r && p r) = true) l.

Definition query_result (q : Query R) (l res : list R) : Prop :=
  exists l', (l' ≡ₚ selected (q_where q) l) /\ Sorted (by_keys (q_order q)) l' /\
             res = limit_rows q l'.

(** [First] orders by the requested keys, then by primary key. *)
Definition first_query (q : Query R) : Query R :=
  mkQuery (q_where q) (q_order q ++ [pk]) 0 None.

Lemma elem_of_selected p l r : r ∈ selected p l <-> alive r = true /\ p r = true /\ r ∈ l.
Proof. unfold selected. rewrite list_elem_of_filter, andb_true_iff. tauto. Qed.

Lemma query_result_elem q l res r :
  query_result q l res -> r ∈ res -> alive r = true /\ q_where q r = true /\ r ∈ l.
Proof.
  intros (l' & Hp & _ & ->) Hr. rewrite <- elem_of_selected.
  assert (r ∈ l') as Hr'.
  { assert (Hd : r ∈ drop (q_offset q) l').
    { unfold limit_rows in Hr. destruct (q_limit q); [|done].
      by eapply elem_of_take in Hr as (? & ? & _); eapply list_elem_of_lookup_2. }
    rewrite <- (take_drop (q_offset q) l'). set_solver. }
  by rewrite <- Hp.
Qed.

Lemma query_result_nolimit q l res :
  q_limit q = None -> q_offset q = 0%nat -> query_result q l res ->
  (res ≡ₚ selected (q_where q) l) /\ Sorted (by_keys (q_order q)) res.
Proof. intros HL HO (l' & Hp & Hs & ->). unfold limit_rows. by rewrite HL, HO. Qed.

(** UPDATE ... SET on the rows selected by [p]. *)
Definition update_rows (now : Time) (p : R -> bool) (f : R -> R) (l : list R) : list R :=
  (fun r => if alive r && p r then updated now (f r) else r) <$> l.

(** [tx.Save]: rewrite the row with this primary key. *)
Definition save_rows (now : Time) (r : R) (l : list R) : list R :=
  (fun x => if bool_decide (pk x = pk r) then updated now r else x) <$> l.

(** DELETE, soft when the model has a [deleted_at] column. *)
Definition delete_rows (now : Time) (p : R -> bool) (l : list R) : list R :=
  omap (fun r => if alive r && p r then deleted now r else Some r) l.
End Matching.

(** * The library *)

Class Gorm : Type := {
  Table : Type -> Type;
  rows : forall {R : Type}, Table R -> list R;
  healthy : forall {R : Type}, Table R -> Prop;
  db_Find : forall {R : Type} `{Model R}, Query R -> Table R -> Result (list R) * Table R;
  db_First : forall {R : Type} `{Model R}, Query R -> Table R -> Result R * Table R;
  db_Count : forall {R : Type} `{Model R}, (R -> bool) -> Table R -> Result Z * Table R;
  db_Create : forall {R : Type} `{Model R}, Time -> R -> Table R -> Result R * Table R;
  db_Save : forall {R : Type} `{Model R}, Time -> R -> Table R -> Result R * Table R;
  db_Updates : forall {R : Type} `{Model R},
    Time -> (R -> bool) -> (R -> R) -> Table R -> Result Z * Table R;
  db_Delete : forall {R : Type} `{Model R}, Time -> (R -> bool) -> Table R -> Result Z * Table R;
  db_Transaction : forall {R A : Type},
    (Table R -> Result A * Table R) -> Table R -> Result A * Table R;
}.

(** Outcome of a statement that only reads. *)
Definition read_spec `{Gorm} {R A} (t : Table R) (ok : A -> Prop) (res : Result A) (t' : Table R)
  : Prop :=
  rows t' = rows t /\ (healthy t -> healthy t') /\
  match res with
  | Ok a => ok a
  | Err e => errors_Is e ErrRecordNotFound = false /\ (~ healthy t)
  end.

(** The row [INSERT] stores and hands back. *)
Definition inserted `{Model R} (now : Time) (l : list R) (r r' : R) : Prop :=
  exists id, id <> uuid_Nil /\ id ∉ (pk <$> l) /\ (pk r = uuid_Nil \/ pk r = id) /\
             r' = created id now r.

Class GormLaws (G : Gorm) : Prop := {
  Find_spec : forall {R} `{Model R} (q : Query R) (t : Table R) res t',
    db_Find q t = (res, t') -> read_spec t (query_result q (rows t)) res t';
  Count_spec : forall {R} `{Model R} (p : R -> bool) (t : Table R) res t',
    db_Count p t = (res, t') ->
    read_spec t (fun n => n = Z.of_nat (length (selected p (rows t)))) res t';
  First_spec : forall {R} `{Model R} (q : Query R) (t : Table R) res t',
    db_First q t = (res, t') ->
    rows t' = rows t /\ (healthy t -> healthy t') /\
    match res with
    | Ok r => exists l', query_result (first_query q) (rows t) (r :: l')
    | Err e => (e = ErrRecordNotFound /\ selected (q_where q) (rows t) = []) \/
               (errors_Is e ErrRecordNotFound = false /\ (~ healthy t))
    end;
  Create_spec : forall {R} `{Model R} now (r : R) (t : Table R) res t',
    db_Create now r t = (res, t') ->
    (healthy t -> healthy t') /\
    match res with
    | Ok r' => inserted now (rows t) r r' /\ rows t' = rows t ++ [r'] /\
               Forall (fun x => clash x r = false) (rows t)
    | Err e => rows t' = rows t /\ errors_Is e ErrRecordNotFound = false /\
               (~ healthy t \/ Exists (fun x => clash x r = true) (rows t) \/
                pk r ∈ (pk <$> rows t))
    end;
  Save_spec : forall {R} `{Model R} now (r : R) (t : Table R) res t',
    db_Save now r t = (res, t') ->
    (healthy t -> healthy t') /\
    match res with
    | Ok r' =>
        (pk r ∈ (pk <$> rows t) /\ r' = updated now r /\ rows t' = save_rows now r (rows t)) \/
        (pk r ∉ (pk <$> rows t) /\ inserted now (rows t) r r' /\ rows t' = rows t ++ [r'])
    | Err e => rows t' = rows t /\ errors_Is e ErrRecordNotFound = false /\
               (~ healthy t \/ Exists (fun x => pk x <> pk r /\ clash x r = true) (rows t))
    end;
  Updates_spec : forall {R} `{Model R} now p f (t : Table R) res t',
    db_Updates now p f t = (res, t') ->
    (healthy t -> healthy t') /\
    match res with
    | Ok n => n = Z.of_nat (length (selected p (rows t))) /\
              rows t' = update_rows now p f (rows t)
    | Err e => rows t' = rows t /\ errors_Is e ErrRecordNotFound = false /\ ~ healthy t
    end;
  Delete_spec : forall {R} `{Model R} now p (t : Table R) res t',
    db_Delete now p t = (res, t') ->
    (healthy t -> healthy t') /\
    match res with
    | Ok n => n = Z.of_nat (length (selected p (rows t))) /\
              rows t' = delete_rows now p (rows t)
    | Err e => rows t' = rows t /\ errors_Is e ErrRecordNotFound = false /\ ~ healthy t
    end;
  (** BEGIN, the body, then COMMIT; an error of the body rolls back. *)
  Transaction_spec : forall {R A} (body : Table R -> Result A * Table R) (t : Table R) res t',
    db_Transaction body t = (res, t') ->
    (exists e, res = Err e /\ rows t' = rows t /\ ~ healthy t) \/
    (exists t0 r t1, rows t0 = rows t /\ (healthy t -> healthy t0) /\ body t0 = (r, t1) /\
      (healthy t1 -> healthy t') /\
      match r with
      | Err e => res = Err e /\ rows t' = rows t
      | Ok a => (res = Ok a /\ rows t' = rows t1) \/
                (exists e, res = Err e /\ rows t' = rows t /\ ~ healthy t1)
      end);
}.

(** ** Consequences shared by the repositories *)

Section Consequences.
Context `{G : Gorm} {GL : GormLaws G} {R : Type} `{Model R}.

(** [First] under a condition on the primary key or a unique column. *)
Lemma First_Ok q (t t' : Table R) r :
  db_First q t = (Ok r, t') ->
  rows t' = rows t /\ alive r = true /\ q_where q r = true /\ r ∈ rows t.
Proof.
  intros E. apply First_spec in E as (HR & _ & l' & Hq). split; [done|].
  eapply (query_result_elem _ _ _ r) in Hq; [exact Hq | set_solver].
Qed.

Lemma First_Err q (t t' : Table R) e :
  db_First q t = (Err e, t') ->
  rows t' = rows t /\ (healthy t -> selected (q_where q) (rows t) = []).
Proof. intros E. apply First_spec in E as (HR & _ & HE). split; [done|]. intuition. Qed.

(** Whatever [First] answers, the rows are untouched. *)
Lemma First_rows q (t t' : Table R) res : db_First q t = (res, t') -> rows t' = rows t.
Proof. intros E. by apply First_spec in E as [? _]. Qed.
Lemma Find_rows q (t t' : Table R) res : db_Find q t = (res, t') -> rows t' = rows t.
Proof. intros E. by apply Find_spec in E as [? _]. Qed.
Lemma Count_rows p (t t' : Table R) res : db_Count p t = (res, t') -> rows t' = rows t.
Proof. intros E. by apply Count_spec in E as [? _]. Qed.

Lemma elem_of_update_rows now p f (l : list R) r :
  r ∈ update_rows now p f l ->
  (exists r0, r0 ∈ l /\ alive r0 = true /\ p r0 = true /\ r = updated now (f r0)) \/
  (r ∈ l /\ (alive r && p r) = false).
Proof.
  unfold update_rows. intros (r0 & -> & Hr)%list_elem_of_fmap.
  destruct (alive r0 && p r0) eqn:E; [|by right].
  left. exists r0. apply andb_true_iff in E as [??]. done.
Qed.

Lemma update_rows_none now p f (l : list R) :
  selected p l = [] -> update_rows now p f l = l.
Proof.
  unfold selected, update_rows. induction l as [|r l IH]; [done|].
  rewrite filter_cons, fmap_cons. case_decide as Hd; [done|]. intros HS. rewrite (IH HS).
  by destruct (alive r && p r).
Qed.

Context {ML : ModelLaws R}.

Lemma pks_update_rows now p f (l : list R) :
  (forall r, pk (f r) = pk r) -> pk <$> update_rows now p f l = pk <$> l.
Proof.
  intros Hf. unfold update_rows. rewrite <- list_fmap_compose. apply list_fmap_ext.
  intros i r _. simpl. destruct (alive r && p r); [|done]. by rewrite pk_updated, Hf.
Qed.

Lemma pks_save_rows now r (l : list R) : pk <$> save_rows now r l = pk <$> l.
Proof.
  unfold save_rows. rewrite <- list_fmap_compose. apply list_fmap_ext.
  intros i x _. simpl. case_bool_decide; [|done]. by rewrite pk_updated.
Qed.
End Consequences.

(** * A concrete instance: a list of rows and a schedule of failing statements *)

Module ListGorm.
Record T (R : Type) : Type := mk { data : list R; faults : list bool }.
Arguments mk {R}. Arguments data {R}. Arguments faults {R}.

Definition db_error : GoError := ELib "driver: bad connection".

Definition pop {R} (t : T R) : bool * T R :=
  match faults t with
  | [] => (false, t)
  | b :: fs => (b, mk (data t) fs)
  end.

Definition guarded {R A} (t : T R) (k : T R -> Result A * T R) : Result A * T R :=
  let '(b, t') := pop t in if b then (Err db_error, t') else k t'.

Definition answer {R} `{Model R} (q : Query R) (l : list R) : list R :=
  limit_rows q (merge_sort (by_keys (q_order q)) (selected (q_where q) l)).

Definition fresh {R} `{Model R} (l : list R) : UUID :=
  1 + foldr (fun r m => Z.max (pk r) m) 0 l.

Definition insert_row {R} `{Model R} (now : Time) (r : R) (t : T R) : Result R * T R :=
  if existsb (fun x => clash x r) (data t) || bool_decide (pk r ∈ (pk <$> data t))
  then (Err (ELib "duplicate key value violates unique constraint"), t)
  else
    let r' := created (if decide (pk r = uuid_Nil) then fresh (data t) else pk r) now r in
    (Ok r', mk (data t ++ [r']) (faults t)).

#[export] Instance gorm : Gorm := {|
  Table := T;
  rows := @data;
  healthy := fun R t => Forall (fun b => b = false) (faults t);
  db_Find := fun R _ q t => guarded t (fun t' => (Ok (answer q (data t')), t'));
  db_First := fun R _ q t => guarded t (fun t' =>
    match answer (first_query q) (data t') with
    | [] => (Err ErrRecordNotFound, t') | r :: _ => (Ok r, t') end);
  db_Count := fun R _ p t => guarded t (fun t' =>
    (Ok (Z.of_nat (length (selected p (data t')))), t'));
  db_Create := fun R _ now r t => guarded t (insert_row now r);
  db_Save := fun R _ now r t => guarded t (fun t' =>
    if bool_decide (pk r ∈ (pk <$> data t'))
    then if existsb (fun x => bool_decide (pk x <> pk r) && clash x r) (data t')
         then (Err (ELib "duplicate key value violates unique constraint"), t')
         else (Ok (updated now r), mk (save_rows now r (data t')) (faults t'))
    else if existsb (fun x => bool_decide (pk x <> pk r) && clash x r) (data t')
         then (Err (ELib "duplicate key value violates unique constraint"), t')
         else let r' := created (if decide (pk r = uuid_Nil) then fresh (data t') else pk r) now r in
              (Ok r', mk (data t' ++ [r']) (faults t')));
  db_Updates := fun R _ now p f t => guarded t (fun t' =>
    (Ok (Z.of_nat (length (selected p (data t')))),
     mk (update_rows now p f (data t')) (faults t')));
  db_Delete := fun R _ now p t => guarded t (fun t' =>
    (Ok (Z.of_nat (length (selected p (data t')))),
     mk (delete_rows now p (data t')) (faults t')));
  db_Transaction := fun R A body t => guarded t (fun t0 =>
    match body t0 with
    | (Err e, t1) => (Err e, mk (data t) (faults t1))
    | (Ok a, t1) =>
        let '(b, t2) := pop t1 in
        if b then (Err db_error, mk (data t) (faults t2)) else (Ok a, t2)
    end);
|}.

Lemma guarded_cases {R A} (t t' : T R) (k : T R -> Result A * T R) res :
  guarded t k = (res, t') ->
  (res = Err db_error /\ data t' = data t /\ ~ Forall (fun b => b = false) (faults t)) \/
  (exists t1, k t1 = (res, t') /\ data t1 = data t /\
     (Forall (fun b => b = false) (faults t) -> Forall (fun b => b = false) (faults t1))).
Proof.
  unfold guarded, pop. destruct (faults t) as [|[] fs] eqn:E.
  - intros Hk. right. exists t. rewrite E. auto.
  - intros [= <- <-]. left. split; [done|]. split; [done|]. by inversion 1.
  - intros Hk. right. exists (mk (data t) fs). split; [done|]. split; [done|].
    by inversion 1.
Qed.

Lemma answer_query {R} `{Model R} (q : Query R) l : query_result q l (answer q l).
Proof.
  exists (merge_sort (by_keys (q_order q)) (selected (q_where q) l)).
  split; [apply merge_sort_Permutation|]. split; [|done].
  apply (Sorted_merge_sort _).
Qed.

Lemma answer_nil {R} `{Model R} (q : Query R) l :
  q_limit q = None -> q_offset q = 0%nat -> answer q l = [] -> selected (q_where q) l = [].
Proof.
  unfold answer, limit_rows. intros -> -> E. apply Permutation_nil.
  rewrite <- E. apply (merge_sort_Permutation (by_keys (q_order q))).
Qed.

Lemma fresh_notin {R} `{Model R} (l : list R) : fresh l ∉ (pk <$> l) /\ fresh l <> uuid_Nil.
Proof.
  unfold fresh.
  assert (Hmax : forall r, r ∈ l -> pk r <= foldr (fun r m => Z.max (pk r) m) 0 l).
  { induction l as [|x l IH]; intros r Hr; [set_solver|]. simpl.
    apply elem_of_cons in Hr as [->|Hr]; [lia|]. specialize (IH r Hr). lia. }
  assert (0 <= foldr (fun r m => Z.max (pk r) m) 0 l) by (clear; induction l; simpl; lia).
  split; [|unfold uuid_Nil; lia].
  intros (r & E & Hr)%list_elem_of_fmap. apply Hmax in Hr. lia.
Qed.

Lemma inserted_fresh {R} `{Model R} now (l : list R) r :
  pk r ∉ (pk <$> l) ->
  inserted now l r
    (created (if decide (pk r = uuid_Nil) then fresh l else pk r) now r).
Proof.
  intros Hn. destruct (fresh_notin l). eexists.
  split; [|split; [|split; [|reflexivity]]]; case_decide; auto.
Qed.

#[export] Instance gorm_laws : GormLaws gorm.
Proof.
  assert (Hex : forall {A} (f : A -> bool) l, existsb f l = false -> Forall (fun x => f x = false) l).
  { intros A f l. induction l; simpl; [constructor|]. intros [??]%orb_false_iff. auto. }
  assert (Hex' : forall {A} (f : A -> bool) l, existsb f l = true -> Exists (fun x => f x = true) l).
  { intros A f l. induction l; simpl; [done|]. intros [?|?]%orb_true_iff; [by left|right; auto]. }
  split; intros R M.
  - intros q t res t' [(-> & Hd & Hh)|(t1 & [= <- <-] & Hd & Hf)]%guarded_cases;
      repeat split; simpl; auto; try done; rewrite <- Hd; apply answer_query.
  - intros p t res t' [(-> & Hd & Hh)|(t1 & [= <- <-] & Hd & Hf)]%guarded_cases;
      repeat split; simpl; auto; try done; by rewrite <- Hd.
  - intros q t res t' [(-> & Hd & Hh)|(t1 & E & Hd & Hf)]%guarded_cases.
    + repeat split; simpl; auto; try done; by right.
    + destruct (answer (first_query q) (data t1)) as [|r l'] eqn:Ea; injection E as <- <-;
        repeat split; simpl; auto.
      * left. split; [done|]. rewrite <- Hd.
        by apply (answer_nil (first_query q) (data t1)).
      * exists l'. rewrite <- Hd, <- Ea. apply answer_query.
  - intros now r t res t' [(-> & Hd & Hh)|(t1 & E & Hd & Hf)]%guarded_cases.
    { repeat split; simpl; auto; done. }
    unfold insert_row in E. destruct (existsb _ _) eqn:Ec; simpl in E.
    { injection E as <- <-. simpl. rewrite <- Hd. auto 10. }
    case_bool_decide as Hp; injection E as <- <-; simpl; rewrite <- Hd; [by auto 10|].
    split; [done|]. split; [by apply inserted_fresh|]. auto.
  - intros now r t res t' [(-> & Hd & Hh)|(t1 & E & Hd & Hf)]%guarded_cases.
    { repeat split; simpl; auto; done. }
    assert (Hcl : existsb (fun x => bool_decide (pk x <> pk r) && clash x r) (data t1) = true ->
      Exists (fun x => pk x <> pk r /\ clash x r = true) (data t1)).
    { intros HE%Hex'. eapply Exists_impl; [exact HE|]. simpl. intros x.
      rewrite andb_true_iff, bool_decide_eq_true. auto. }
    case_bool_decide as Hp; destruct (existsb _ _) eqn:Ec; injection E as <- <-;
      simpl; rewrite <- Hd; auto 10.
    split; [done|]. right. split; [done|]. split; [by apply inserted_fresh|done].
  - intros now p f t res t' [(-> & Hd & Hh)|(t1 & [= <- <-] & Hd & Hf)]%guarded_cases;
      repeat split; simpl; auto; try done; by rewrite <- Hd.
  - intros now p t res t' [(-> & Hd & Hh)|(t1 & [= <- <-] & Hd & Hf)]%guarded_cases;
      repeat split; simpl; auto; try done; by rewrite <- Hd.
  - intros body t res t' [(-> & Hd & Hh)|(t0 & E & Hd & Hf)]%guarded_cases; [by left; eauto|].
    right. destruct (body t0) as [r t1] eqn:Eb. exists t0, r, t1.
    destruct r as [a|e]; [|injection E as <- <-; done].
    unfold pop in E. destruct (faults t1) as [|[] fs] eqn:Ef; injection E as <- <-; simpl.
    + rewrite Ef. auto 10.
    + rewrite Ef. do 4 (split; [done || by inversion 1|]). right. exists db_error.
      do 2 (split; [done|]). by inversion 1.
    + rewrite Ef. do 3 (split; [done|]). split; [by inversion 1|]. by left.
Qed.
End ListGorm.
