(* ===== verification/Json.v ===== *)
(** What the hub uses of [encoding/json]: documents as values, the raw JSON
    columns ([datatypes.JSON]) and struct encoding / decoding.

    A raw column is empty, not a document, or a document up to insignificant
    white space.  Decoding follows [json.Unmarshal]: a mismatched value is
    skipped and reported at the end, [null] leaves the destination alone,
    object keys match a field case-insensitively, unknown keys are ignored and
    the last occurrence of a key wins. *)
From Stdlib Require Import Ascii.
From stdpp Require Import base list strings gmap sorting.
From Stdlib Require Import ZArith Lia.
From S2P Require Import Prelude Common.

Open Scope Z_scope.

(** * Documents *)

Inductive json : Type :=
| JNull
| JBool (b : bool)
| JNum (z : Z)
| JFloat (literal : string)
| JStr (s : string)
| JArr (l : list json)
| JObj (kvs : list (string * json)).

(** The contents of a [datatypes.JSON] / [json.RawMessage] value. *)
Inductive RawJSON : Type :=
| RawEmpty
| RawBad (text : string)
| RawDoc (v : json).

Definition raw_len0 (r : RawJSON) : bool := match r with RawEmpty => true | _ => false end.
Definition raw_is_null (r : RawJSON) : bool := match r with RawDoc JNull => true | _ => false end.

Definition err_json_syntax : GoError := ELib "json: invalid input".
Definition err_json_type : GoError := ELib "json: cannot unmarshal value into Go value".

(** * Codecs *)

(** [dec] returns the decoded value and whether every part of it fitted;
    [wf] bounds the machine integers inside a value. *)
Class Codec (A : Type) : Type := {
  zero : A;
  enc : A -> json;
  dec : json -> A * bool;
  wf : A -> Prop;
}.

Class CodecLaws (A : Type) {C : Codec A} : Prop := {
  roundtrip : forall a : A, wf a -> dec (enc a) = (a, true);
  dec_null : dec JNull = (zero, true);
}.

Definition Unmarshal {A} {C : Codec A} (raw : RawJSON) : A * option GoError :=
  match raw with
  | RawEmpty | RawBad _ => (zero, Some err_json_syntax)
  | RawDoc v => let '(a, ok) := dec v in (a, if ok then None else Some err_json_type)
  end.

Definition UnmarshalE {A} {C : Codec A} (raw : RawJSON) : Result A :=
  match Unmarshal raw with (a, None) => Ok a | (_, Some e) => Err e end.

Definition Marshal {A} {C : Codec A} (a : A) : RawJSON := RawDoc (enc a).

Lemma UnmarshalE_Marshal {A} {C : Codec A} {L : CodecLaws A} (a : A) :
  wf a -> UnmarshalE (Marshal a) = Ok a.
Proof. intros H. unfold UnmarshalE, Marshal, Unmarshal. by rewrite roundtrip. Qed.

(** ** Scalars *)

#[global] Instance Codec_string : Codec string := {|
  zero := "";
  enc := JStr;
  dec := fun v => match v with JStr s => (s, true) | JNull => ("", true) | _ => ("", false) end;
  wf := fun _ => True;
|}.
#[global] Instance CodecLaws_string : CodecLaws string.
Proof. by split. Qed.

#[global] Instance Codec_bool : Codec bool := {|
  zero := false;
  enc := JBool;
  dec := fun v => match v with JBool b => (b, true) | JNull => (false, true) | _ => (false, false) end;
  wf := fun _ => True;
|}.
#[global] Instance CodecLaws_bool : CodecLaws bool.
Proof. by split. Qed.

(** An integer of [bits] bits; the field type says which. *)
Definition in_range (bits z : Z) : bool := (- 2 ^ (bits - 1) <=? z) && (z <? 2 ^ (bits - 1)).

Definition Codec_int (bits : Z) : Codec Z := {|
  zero := 0;
  enc := JNum;
  dec := fun v => match v with
    | JNum z => if in_range bits z then (z, true) else (0, false)
    | JNull => (0, true) | _ => (0, false) end;
  wf := fun z => in_range bits z = true;
|}.
Definition int32 : Codec Z := Codec_int 32.
Definition int64 : Codec Z := Codec_int 64.

Lemma CodecLaws_int bits : @CodecLaws Z (Codec_int bits).
Proof. split; [|done]. intros z Hz. simpl in *. by rewrite Hz. Qed.
#[export] Instance CodecLaws_int32 : @CodecLaws Z int32 := CodecLaws_int 32.
#[export] Instance CodecLaws_int64 : @CodecLaws Z int64 := CodecLaws_int 64.

(** ** Slices, pointers, string maps *)

Definition dec_list {A} {C : Codec A} (v : json) : list A * bool :=
  match v with
  | JArr l => (fst <$> (dec <$> l), forallb snd (dec <$> l))
  | JNull => ([], true)
  | _ => ([], false)
  end.

#[global] Instance Codec_list {A} {C : Codec A} : Codec (list A) := {|
  zero := [];
  enc := fun l => JArr (enc <$> l);
  dec := dec_list;
  wf := Forall wf;
|}.
#[global] Instance CodecLaws_list {A} {C : Codec A} {L : CodecLaws A} : CodecLaws (list A).
Proof.
  split; [|done]. intros l Hl. simpl. unfold dec_list. induction Hl as [|a l Ha Hl IH]; [done|].
  injection IH as IH1 IH2. rewrite !fmap_cons, roundtrip by done. simpl. by rewrite IH1, IH2.
Qed.

Definition Codec_ptr {A} (C : Codec A) : Codec (option A) := {|
  zero := None;
  enc := fun o => match o with Some a => enc a | None => JNull end;
  dec := fun v => match v with JNull => (None, true)
                  | _ => let '(a, ok) := dec v in (Some a, ok) end;
  wf := fun o => match o with Some a => wf a /\ enc a <> JNull | None => True end;
|}.
#[export] Instance CodecLaws_ptr {A} (C : Codec A) {L : CodecLaws A} : @CodecLaws _ (Codec_ptr C).
Proof.
  split; [|done]. intros [a|]; [|done]. simpl. intros [Ha Hn].
  destruct (enc a) eqn:E; (done || (rewrite <- E, roundtrip by done; done)).
Qed.

Definition dec_map (v : json) : gmap string string * bool :=
  match v with
  | JObj kvs => (list_to_map (rev ((fun kv => (kv.1, (@dec string _ kv.2).1)) <$> kvs)),
                 forallb (fun kv => (@dec string _ kv.2).2) kvs)
  | JNull => (∅, true)
  | _ => (∅, false)
  end.

Definition key_le (a b : string * string) : Prop := String.le a.1 b.1.
#[global] Instance key_le_dec : RelDecision key_le.
Proof. intros a b. unfold key_le. apply _. Defined.

(** [map[string]string]; the encoder sorts the keys. *)
#[global] Instance Codec_map : Codec (gmap string string) := {|
  zero := ∅;
  enc := fun m => JObj ((fun kv => (kv.1, JStr kv.2)) <$> merge_sort key_le (map_to_list m));
  dec := dec_map;
  wf := fun _ => True;
|}.
#[global] Instance CodecLaws_map : CodecLaws (gmap string string).
Proof.
  split; [|done]. intros m _. simpl. unfold dec_map. f_equal.
  - rewrite <- list_fmap_compose.
    rewrite (list_fmap_ext _ id _) by (by intros i [k v]). rewrite list_fmap_id.
    transitivity (list_to_map (map_to_list m) : gmap string string);
      [|apply list_to_map_to_list].
    assert (HP : rev (merge_sort key_le (map_to_list m)) ≡ₚ map_to_list m).
    { rewrite <- Permutation_rev. apply merge_sort_Permutation. }
    apply list_to_map_proper; [|exact HP].
    rewrite HP. apply NoDup_fst_map_to_list.
  - apply forallb_forall. intros [k v] Hin.
    apply list_elem_of_In, list_elem_of_fmap in Hin as ([k' v'] & [= -> ->] & _). done.
Qed.

(** ** Byte slices: standard base64 with padding *)

Definition byte_of (c : ascii) : Z := Z.of_nat (nat_of_ascii c).
Definition char_of (z : Z) : ascii := ascii_of_nat (Z.to_nat z).

(** The alphabet A-Z a-z 0-9 + /. *)
Definition b64_char (n : Z) : ascii :=
  if n <? 26 then char_of (65 + n)
  else if n <? 52 then char_of (97 + (n - 26))
  else if n <? 62 then char_of (48 + (n - 52))
  else if n =? 62 then "+"%char else "/"%char.

Definition b64_value (c : ascii) : option Z :=
  let b := byte_of c in
  if (65 <=? b) && (b <=? 90) then Some (b - 65)
  else if (97 <=? b) && (b <=? 122) then Some (b - 97 + 26)
  else if (48 <=? b) && (b <=? 57) then Some (b - 48 + 52)
  else if b =? 43 then Some 62 else if b =? 47 then Some 63 else None.

Definition b64_pad : ascii := "="%char.

Fixpoint b64_encode (s : string) : string :=
  match s with
  | "" => ""
  | String a "" =>
      let x := byte_of a in
      String (b64_char (x / 4)) (String (b64_char (x mod 4 * 16))
        (String b64_pad (String b64_pad "")))
  | String a (String b "") =>
      let x := byte_of a in let y := byte_of b in
      String (b64_char (x / 4)) (String (b64_char (x mod 4 * 16 + y / 16))
        (String (b64_char (y mod 16 * 4)) (String b64_pad "")))
  | String a (String b (String c s')) =>
      let x := byte_of a in let y := byte_of b in let z := byte_of c in
      String (b64_char (x / 4)) (String (b64_char (x mod 4 * 16 + y / 16))
        (String (b64_char (y mod 16 * 4 + z / 64)) (String (b64_char (z mod 64)) (b64_encode s'))))
  end.

(** [base64.StdEncoding.Decode]; the padding bits are not checked. *)
Fixpoint b64_decode (s : string) : option string :=
  match s with
  | "" => Some ""
  | String a (String b (String c (String d s'))) =>
      match b64_value a, b64_value b with
      | Some x, Some y =>
          let b1 := char_of (x * 4 + y / 16) in
          match b64_value c with
          | None =>
              if Ascii.eqb c b64_pad && Ascii.eqb d b64_pad && String.eqb s' ""
              then Some (String b1 "") else None
          | Some z =>
              let b2 := char_of (y mod 16 * 16 + z / 4) in
              match b64_value d with
              | None => if Ascii.eqb d b64_pad && String.eqb s' ""
                        then Some (String b1 (String b2 "")) else None
              | Some w =>
                  match b64_decode s' with
                  | Some r => Some (String b1 (String b2 (String (char_of (z mod 4 * 64 + w)) r)))
                  | None => None
                  end
              end
          end
      | _, _ => None
      end
  | _ => None
  end.

Lemma byte_range c : 0 <= byte_of c < 256.
Proof. unfold byte_of. pose proof (nat_ascii_bounded c). lia. Qed.

Lemma char_of_byte c : char_of (byte_of c) = c.
Proof. unfold char_of, byte_of. rewrite Nat2Z.id. apply ascii_nat_embedding. Qed.

Lemma b64_value_char n : 0 <= n < 64 -> b64_value (b64_char n) = Some n.
Proof.
  intros H. assert (Hn : n = Z.of_nat (Z.to_nat n)) by lia. rewrite Hn.
  assert (Hk : (Z.to_nat n < 64)%nat) by lia. revert Hk.
  generalize (Z.to_nat n) as k. clear n H Hn. intros k Hk.
  do 64 (destruct k as [|k]; [reflexivity|]). lia.
Qed.

Ltac bits_lia := Z.div_mod_to_equations; lia.

Lemma b64_roundtrip s : b64_decode (b64_encode s) = Some s.
Proof.
  assert (HC : forall c z, z = byte_of c -> char_of z = c)
    by (intros c z ->; apply char_of_byte).
  revert s. fix IH 1. intros [|a [|b [|c s]]]; simpl; [done| | |];
    pose proof (byte_range a);
    try pose proof (byte_range b); try pose proof (byte_range c);
    rewrite !b64_value_char by bits_lia; simpl; try rewrite IH;
    repeat f_equal; apply HC; bits_lia.
Qed.

(** [[]byte]: a nil slice is [null]; the hub never tells nil from empty. *)
Definition bytes : Codec string := {|
  zero := "";
  enc := fun s => JStr (b64_encode s);
  dec := fun v => match v with
    | JStr s => match b64_decode s with Some b => (b, true) | None => ("", false) end
    | JNull => ("", true) | _ => ("", false) end;
  wf := fun _ => True;
|}.
#[export] Instance CodecLaws_bytes : @CodecLaws string bytes.
Proof. split; [|done]. intros s _. simpl. by rewrite b64_roundtrip. Qed.

(** ** Structs *)

Definition lower_char (c : ascii) : ascii :=
  let n := nat_of_ascii c in
  if ((65 <=? n) && (n <=? 90))%nat then ascii_of_nat (n + 32) else c.

Fixpoint lower (s : string) : string :=
  match s with "" => "" | String c s' => String (lower_char c) (lower s') end.

Definition key_match (name key : string) : bool := String.eqb (lower name) (lower key).

Definition not_null (v : json) : bool := match v with JNull => false | _ => true end.

(** The value a struct decoder assigns to the field [name]. *)
Definition get_key (name : string) (kvs : list (string * json)) : option json :=
  foldl (fun acc kv => if key_match name kv.1 && not_null kv.2 then Some kv.2 else acc) None kvs.

Definition dec_field {A} (C : Codec A) (name : string) (kvs : list (string * json)) : A * bool :=
  match get_key name kvs with Some v => dec v | None => (zero, true) end.

(** [`json:"name"`] and [`json:"name,omitempty"`]. *)
Definition field {A} (C : Codec A) (name : string) (a : A) : list (string * json) :=
  [(name, enc a)].
Definition field_opt {A} (C : Codec A) (name : string) (empty : A -> bool) (a : A)
  : list (string * json) := if empty a then [] else [(name, enc a)].

Definition empty_string (s : string) : bool := String.eqb s "".
Definition empty_Z (z : Z) : bool := z =? 0.
Definition empty_bool (b : bool) : bool := negb b.
Definition empty_list {A} (l : list A) : bool := match l with [] => true | _ => false end.
Definition empty_ptr {A} (o : option A) : bool := match o with None => true | _ => false end.
Definition empty_map (m : gmap string string) : bool := bool_decide (m = ∅).

(** Decoding a struct: [null] leaves it zero, a non-object is a mismatch. *)
Definition dec_struct {A} (z : A) (fields : list (string * json) -> A * bool) (v : json)
  : A * bool :=
  match v with JObj kvs => fields kvs | JNull => (z, true) | _ => (z, false) end.

Lemma get_key_app name l1 l2 :
  get_key name (l1 ++ l2) =
  match get_key name l2 with Some v => Some v | None => get_key name l1 end.
Proof.
  unfold get_key. rewrite foldl_app.
  generalize (foldl (fun acc kv => if key_match name kv.1 && not_null kv.2
     then Some kv.2 else acc) None l1) as a.
  induction l2 as [|kv l2 IH] using rev_ind; intros a; [done|].
  rewrite !foldl_app. simpl. destruct (key_match name kv.1 && not_null kv.2); auto.
Qed.

Lemma get_key_field_ne {A} (C : Codec A) name name' a :
  key_match name name' = false -> get_key name (field C name' a) = None.
Proof. intros H. unfold get_key, field. simpl. by rewrite H. Qed.

Lemma get_key_field_opt_ne {A} (C : Codec A) name name' e a :
  key_match name name' = false -> get_key name (field_opt C name' e a) = None.
Proof. intros H. unfold field_opt. destruct (e a); [done|]. by apply get_key_field_ne. Qed.

Lemma key_match_refl name : key_match name name = true.
Proof. apply String.eqb_refl. Qed.

Lemma get_key_skip {A} (C : Codec A) name name' a l :
  key_match name name' = false -> get_key name (field C name' a ++ l) = get_key name l.
Proof. intros H. rewrite get_key_app, get_key_field_ne by done. by destruct (get_key name l). Qed.

Lemma get_key_skip_opt {A} (C : Codec A) name name' e a l :
  key_match name name' = false -> get_key name (field_opt C name' e a ++ l) = get_key name l.
Proof.
  intros H. rewrite get_key_app, get_key_field_opt_ne by done. by destruct (get_key name l).
Qed.

(** A field whose key does not reappear decodes to itself, present or omitted. *)
Lemma dec_own_field {A} (C : Codec A) {L : CodecLaws A} name a l :
  get_key name l = None -> wf a -> dec_field C name (field C name a ++ l) = (a, true).
Proof.
  intros Hl Ha. unfold dec_field. rewrite get_key_app, Hl. unfold get_key, field. simpl.
  rewrite key_match_refl. simpl. pose proof (roundtrip a Ha) as E.
  destruct (enc a); simpl; try exact E. by rewrite <- dec_null, E.
Qed.

Lemma dec_own_field_opt {A} (C : Codec A) {L : CodecLaws A} name e a l :
  get_key name l = None -> wf a -> (e a = true -> a = zero) ->
  dec_field C name (field_opt C name e a ++ l) = (a, true).
Proof.
  intros Hl Ha He. unfold field_opt. destruct (e a) eqn:E.
  - rewrite (He eq_refl). unfold dec_field. simpl. by rewrite Hl.
  - by apply (dec_own_field C).
Qed.

Lemma empty_string_zero s : empty_string s = true -> s = "".
Proof. apply String.eqb_eq. Qed.
Lemma empty_Z_zero z : empty_Z z = true -> z = 0.
Proof. apply Z.eqb_eq. Qed.
Lemma empty_bool_zero b : empty_bool b = true -> b = false.
Proof. by destruct b. Qed.
Lemma empty_list_zero {A} (l : list A) : empty_list l = true -> l = [].
Proof. by destruct l. Qed.
Lemma empty_ptr_zero {A} (o : option A) : empty_ptr o = true -> o = None.
Proof. by destruct o. Qed.
Lemma empty_map_zero m : empty_map m = true -> m = ∅.
Proof. apply bool_decide_eq_true. Qed.

Create HintDb json.
#[export] Hint Resolve empty_string_zero empty_Z_zero empty_bool_zero empty_list_zero
  empty_ptr_zero empty_map_zero : json.

(** Decoding the fields of a struct in sequence. *)
Definition Fields (A : Type) : Type := list (string * json) -> A * bool.
Definition fields_ret {A} (a : A) : Fields A := fun _ => (a, true).
Definition fields_ap {A B} (f : Fields (A -> B)) (x : Fields A) : Fields B :=
  fun kvs => let '(g, ok1) := f kvs in let '(a, ok2) := x kvs in (g a, ok1 && ok2).
Notation "f <@> x" := (fields_ap f x) (at level 61, left associativity) : hub_scope.

Lemma fields_ap_ok {A B} (f : Fields (A -> B)) (x : Fields A) kvs g a :
  f kvs = (g, true) -> x kvs = (a, true) -> fields_ap f x kvs = (g a, true).
Proof. intros Hf Hx. unfold fields_ap. by rewrite Hf, Hx. Qed.

(** Closes the round trip of a struct from the round trips of its fields. *)
Ltac struct_none :=
  repeat (first [rewrite get_key_skip by reflexivity | rewrite get_key_skip_opt by reflexivity]);
  reflexivity.
Ltac struct_wf :=
  simpl in *;
  repeat match goal with H : _ /\ _ |- _ => destruct H end;
  first [ done
        | apply Forall_true; intros; exact I
        | match goal with
          | |- match ?o with Some _ => _ | None => _ end => destruct o; naive_solver
          end ].
Ltac struct_field :=
  unfold dec_field;
  repeat (first [rewrite get_key_skip by reflexivity | rewrite get_key_skip_opt by reflexivity]);
  first [ apply dec_own_field | apply dec_own_field_opt ];
  [ apply _ | struct_none | struct_wf | try (simpl; auto with json; fail) .. ].
Ltac struct_roundtrip :=
  match goal with |- @dec _ ?C _ = _ => let h := head_of C in unfold h end;
  cbn [dec enc dec_struct concat];
  repeat (first [ apply fields_ap_ok; [| struct_field ] ]); reflexivity.
