(* ===== verification/GoLib.v ===== *)
(** What the hub uses of Go's [strings], [strconv], [time], [encoding/hex] and
    [crypto/sha256] packages.

    Strings are byte strings.  [TrimSpace] and [Fields] know the Unicode white
    space in its UTF-8 form; [Atoi] keeps the 64-bit range of [int].  A call
    that can panic or run forever answers [Panics] or [Hangs].  Times are instants; a [Location] is the
    time zone database's lookup for one zone, and [Date] resolves a civil time
    in it the way [time.Date] does.  Years are those of the proleptic Gregorian
    calendar, without the overflow of [int] (hundreds of billions of years). *)
From Stdlib Require Import Ascii.
From stdpp Require Import base list strings pretty.
From Stdlib Require Import ZArith Lia.
From S2P Require Import Prelude Common Json.

Open Scope Z_scope.

(** * Panics and loops *)

Inductive Go (A : Type) : Type :=
| Returns (a : A)
| Panics (message : string)
| Hangs.
Arguments Returns {A}. Arguments Panics {A}. Arguments Hangs {A}.

Definition go_bind {A B} (m : Go A) (k : A -> Go B) : Go B :=
  match m with Returns a => k a | Panics s => Panics s | Hangs => Hangs end.

(** A loop that must leave with a result. *)
Definition run_loop {S R : Type} (r : S + Go R) : Go R :=
  match r with inr r => r | inl _ => Hangs end.

(** A loop whose body either goes on with a new state or leaves with a result,
    run for at most [fuel] rounds; the count is binary so that millions of
    rounds are cheap to grant. *)
Fixpoint loop {S R : Type} (fuel : positive) (step : S -> S + R) (s : S) : S + R :=
  match fuel with
  | xH => step s
  | xO p => match loop p step s with inl s' => loop p step s' | inr r => inr r end
  | xI p =>
      match step s with
      | inl s' => match loop p step s' with inl s'' => loop p step s'' | inr r => inr r end
      | inr r => inr r
      end
  end.

(** An invariant and a measure that drops in every round. *)
Lemma loop_rule {S R} (I : S -> Prop) (m : S -> Z) (Q : R -> Prop) (step : S -> S + R) :
  (forall s, I s -> match step s with inl s' => I s' /\ 0 <= m s' < m s | inr r => Q r end) ->
  forall fuel s, I s ->
    match loop fuel step s with
    | inl s' => I s' /\ 0 <= m s' <= m s - Zpos fuel
    | inr r => Q r
    end.
Proof.
  intros Hstep. induction fuel as [p IH|p IH|]; intros s Hs; simpl.
  - pose proof (Hstep s Hs) as H0. destruct (step s) as [s0|]; [|done]. destruct H0 as [H0 H0m].
    pose proof (IH s0 H0) as H1. destruct (loop p step s0) as [s1|]; [|done]. destruct H1 as [H1 H1m].
    pose proof (IH s1 H1) as H2. destruct (loop p step s1) as [s2|]; [|done]. split; [tauto|lia].
  - pose proof (IH s Hs) as H1. destruct (loop p step s) as [s1|]; [|done]. destruct H1 as [H1 H1m].
    pose proof (IH s1 H1) as H2. destruct (loop p step s1) as [s2|]; [|done]. split; [tauto|lia].
  - pose proof (Hstep s Hs) as H0. destruct (step s); [|done]. split; [tauto|lia].
Qed.

(** Enough fuel for the measure: the loop leaves with a result. *)
Lemma loop_result {S R} (I : S -> Prop) (m : S -> Z) (Q : R -> Prop) (step : S -> S + R) fuel s :
  (forall s, I s -> match step s with inl s' => I s' /\ 0 <= m s' < m s | inr r => Q r end) ->
  I s -> m s < Zpos fuel -> exists r, loop fuel step s = inr r /\ Q r.
Proof.
  intros Hstep Hs Hf. pose proof (loop_rule I m Q step Hstep fuel s Hs) as H.
  destruct (loop fuel step s) as [s'|r]; [lia|]. by exists r.
Qed.

(** A state the body goes back to is never left. *)
Lemma loop_stuck {S R} (step : S -> S + R) fuel s : step s = inl s -> loop fuel step s = inl s.
Proof. intros H. induction fuel as [p IH|p IH|]; simpl; rewrite ?H, ?IH; done. Qed.

Lemma loop_gets_stuck {S R} (step : S -> S + R) fuel s s' :
  step s = inl s' -> step s' = inl s' -> loop fuel step s = inl s'.
Proof. intros H H'. induction fuel as [p IH|p IH|]; simpl; rewrite ?H, ?IH, ?(loop_stuck step); done. Qed.

(** * Strings *)

(** White space as [unicode.IsSpace] sees it, by the length of its encoding. *)
Definition space1 (a : ascii) : bool :=
  let b := byte_of a in (9 <=? b) && (b <=? 13) || (b =? 32).
Definition space2 (a b : ascii) : bool :=
  (byte_of a =? 194) && ((byte_of b =? 133) || (byte_of b =? 160)).
Definition space3 (a b c : ascii) : bool :=
  let '(x, y, z) := (byte_of a, byte_of b, byte_of c) in
  (x =? 225) && (y =? 154) && (z =? 128) ||
  (x =? 226) && (y =? 128) && ((128 <=? z) && (z <=? 138) || (z =? 168) || (z =? 169) || (z =? 175)) ||
  (x =? 226) && (y =? 129) && (z =? 159) ||
  (x =? 227) && (y =? 128) && (z =? 128).

(** A string cut into white space runes and other bytes. *)
Inductive piece : Type := Space (s : string) | Char (c : ascii).

Fixpoint pieces (s : string) : list piece :=
  match s with
  | "" => []
  | String a s1 =>
      if space1 a then Space (String a "") :: pieces s1
      else match s1 with
      | "" => Char a :: pieces s1
      | String b s2 =>
          if space2 a b then Space (String a (String b "")) :: pieces s2
          else match s2 with
          | "" => Char a :: pieces s1
          | String c s3 =>
              if space3 a b c then Space (String a (String b (String c ""))) :: pieces s3
              else Char a :: pieces s1
          end
      end
  end.

Definition is_space (p : piece) : bool := match p with Space _ => true | Char _ => false end.
Definition piece_text (p : piece) : string := match p with Space s => s | Char c => String c "" end.

Fixpoint drop_spaces (l : list piece) : list piece :=
  match l with p :: l' => if is_space p then drop_spaces l' else l | [] => [] end.

(** [strings.TrimSpace] *)
Definition TrimSpace (s : string) : string :=
  foldr (fun p t => piece_text p +:+ t) "" (rev (drop_spaces (rev (drop_spaces (pieces s))))).

(** [strings.Fields]: [acc] is the field being read. *)
Fixpoint fields_of (l : list piece) (acc : string) : list string :=
  match l with
  | [] => if empty_string acc then [] else [acc]
  | Char c :: l' => fields_of l' (acc +:+ String c "")
  | Space _ :: l' => if empty_string acc then fields_of l' "" else acc :: fields_of l' ""
  end.
Definition StringsFields (s : string) : list string := fields_of (pieces s) "".

(** The text before and after the first [sep]. *)
Fixpoint cut (sep : ascii) (s : string) : option (string * string) :=
  match s with
  | "" => None
  | String c s' =>
      if Ascii.eqb c sep then Some ("", s')
      else match cut sep s' with Some (a, b) => Some (String c a, b) | None => None end
  end.

(** [strings.Split] by a one-byte separator. *)
Fixpoint Split (sep : ascii) (s : string) : list string :=
  match s with
  | "" => [""]
  | String c s' =>
      if Ascii.eqb c sep then "" :: Split sep s'
      else match Split sep s' with x :: l => String c x :: l | [] => [String c ""] end
  end.

(** * [strconv.Atoi] *)

Definition digit_of (c : ascii) : option Z :=
  let b := byte_of c in if (48 <=? b) && (b <=? 57) then Some (b - 48) else None.

Fixpoint digits_value (s : string) (acc : Z) : option Z :=
  match s with
  | "" => Some acc
  | String c s' => match digit_of c with Some d => digits_value s' (10 * acc + d) | None => None end
  end.

Definition unsigned_value (s : string) : option Z :=
  match s with "" => None | _ => digits_value s 0 end.

Definition Atoi (s : string) : option Z :=
  let v := match s with
           | String "-"%char s' => Z.opp <$> unsigned_value s'
           | String "+"%char s' => unsigned_value s'
           | _ => unsigned_value s
           end in
  match v with
  | Some z => if in_range 64 z then Some z else None
  | None => None
  end.

Example Atoi_ok : Atoi "-42" = Some (-42) /\ Atoi "+7" = Some 7 /\ Atoi "" = None /\ Atoi "1_0" = None /\
  Atoi "9223372036854775807" = Some (2 ^ 63 - 1) /\ Atoi "9223372036854775808" = None.
Proof. vm_compute. repeat split. Qed.

Example Fields_ok : StringsFields " a  bc 	d " = ["a"; "bc"; "d"] /\ Split ","%char "a,,b" = ["a"; ""; "b"] /\
  TrimSpace "  a b  " = "a b".
Proof. vm_compute. repeat split. Qed.

(** * The calendar *)

(** Months are counted from January of the year 0; days from 1970-01-01.  The
    first day of a month: years start in March, so that the leap day is the
    last day of its year. *)
Definition month_first (k : Z) : Z :=
  let y := (k - 2) / 12 in
  let m := (k - 2) mod 12 in
  365 * y + y / 4 - y / 100 + y / 400 + (153 * m + 2) / 5 - 719468.

(** The month a day is in: the average length of a month finds it up to one. *)
Definition month_of (n : Z) : Z :=
  let k := 4800 * (n + 719468) / 146097 + 2 in
  if n <? month_first k then k - 1
  else if month_first (k + 1) <=? n then k + 1 else k.
Definition day_of (n : Z) : Z := n - month_first (month_of n) + 1.

(** Year, month and day of the month. *)
Definition civil_from_days (n : Z) : Z * Z * Z :=
  (month_of n / 12, month_of n mod 12 + 1, day_of n).
Definition days_from_civil (y m d : Z) : Z := month_first (12 * y + m - 1) + d - 1.

Example civil_ok : civil_from_days 0 = (1970, 1, 1) /\ civil_from_days 11016 = (2000, 2, 29) /\
  civil_from_days 19782 = (2024, 2, 29) /\ civil_from_days (-25509) = (1900, 2, 28) /\
  civil_from_days (-25508) = (1900, 3, 1) /\ days_from_civil 2024 2 29 = 19782.
Proof. vm_compute. repeat split. Qed.

Lemma month_first_lt k : 28 <= month_first (k + 1) - month_first k <= 31.
Proof. unfold month_first. Z.to_euclidean_division_equations. lia. Qed.

(** A month starts within four days of where the average length puts it. *)
Lemma month_first_average k :
  146097 * (k - 2) - 4 * 4800 <= 4800 * (month_first k + 719468) <= 146097 * (k - 2) + 4 * 4800.
Proof. unfold month_first. Z.to_euclidean_division_equations. lia. Qed.

Lemma month_first_mono j k : j <= k -> month_first j <= month_first k.
Proof.
  intros H. replace k with (j + Z.of_nat (Z.to_nat (k - j))) by lia.
  induction (Z.to_nat (k - j)) as [|n IH]; [by rewrite Z.add_0_r|].
  pose proof (month_first_lt (j + Z.of_nat n)).
  replace (j + Z.of_nat (S n)) with (j + Z.of_nat n + 1) by lia. lia.
Qed.

(** Every day lies in its month, and in no other. *)
Lemma month_of_spec n : month_first (month_of n) <= n < month_first (month_of n + 1).
Proof.
  unfold month_of. set (k := 4800 * (n + 719468) / 146097 + 2).
  assert (Hk : 146097 * (k - 2) <= 4800 * (n + 719468) < 146097 * (k - 1))
    by (unfold k; Z.to_euclidean_division_equations; lia).
  pose proof (month_first_average (k - 1)). pose proof (month_first_average (k + 2)).
  destruct (Z.ltb_spec n (month_first k)); [replace (k - 1 + 1) with k by lia; lia|].
  destruct (Z.leb_spec (month_first (k + 1)) n); [replace (k + 1 + 1) with (k + 2) by lia|]; lia.
Qed.

Lemma month_of_unique n k : month_first k <= n < month_first (k + 1) -> month_of n = k.
Proof.
  intros H. pose proof (month_of_spec n) as Hn. destruct (Z.lt_trichotomy (month_of n) k) as [Hlt|[?|Hlt]]; [|done|].
  - pose proof (month_first_mono (month_of n + 1) k). lia.
  - pose proof (month_first_mono (k + 1) (month_of n)). lia.
Qed.

Lemma month_of_first k : month_of (month_first k) = k.
Proof. apply month_of_unique. pose proof (month_first_lt k). lia. Qed.

Lemma day_of_range n : 1 <= day_of n <= 31.
Proof. unfold day_of. pose proof (month_of_spec n). pose proof (month_first_lt (month_of n)). lia. Qed.

(** * Civil times in a location *)

(** The lookup of the zone in effect at an instant (in seconds): its offset
    east of UTC and the instants its validity starts and ends. *)
Record Location := mkLocation { zone_lookup : Z -> Z * Z * Z }.

Definition zone_offset (loc : Location) (sec : Z) : Z := (zone_lookup loc sec).1.1.

Definition fixed_zone (offset : Z) : Location :=
  mkLocation (fun _ => (offset, - 2 ^ 63, 2 ^ 63 - 1)).

Definition unix_sec (t : Time) : Z := t / Second.
(** The seconds a clock in [loc] would have counted. *)
Definition local_sec (loc : Location) (t : Time) : Z := unix_sec t + zone_offset loc (unix_sec t).
Definition local_day (loc : Location) (t : Time) : Z := local_sec loc t / 86400.

Definition Year (loc : Location) (t : Time) : Z := (civil_from_days (local_day loc t)).1.1.
Definition Month (loc : Location) (t : Time) : Z := (civil_from_days (local_day loc t)).1.2.
Definition Day (loc : Location) (t : Time) : Z := (civil_from_days (local_day loc t)).2.
Definition HourOf (loc : Location) (t : Time) : Z := local_sec loc t mod 86400 / 3600.
Definition MinuteOf (loc : Location) (t : Time) : Z := local_sec loc t mod 3600 / 60.
Definition SecondOf (loc : Location) (t : Time) : Z := local_sec loc t mod 60.
(** [0] is Sunday. *)
Definition Weekday (loc : Location) (t : Time) : Z := (local_day loc t + 4) mod 7.

(** [time.Date]: the month is normalized into the year, everything below it
    adds up, and the offset found first is corrected when the time it gives
    lies outside that zone's validity. *)
Definition Date (year month day hour min sec nsec : Z) (loc : Location) : Time :=
  let sec := sec + nsec / Second in
  let unix := (month_first (12 * year + (month - 1)) + (day - 1)) * 86400 + hour * 3600 + min * 60 + sec in
  let '(offset, start, end_) := zone_lookup loc unix in
  let unix :=
    if offset =? 0 then unix
    else
      let utc := unix - offset in
      if (utc <? start) || (end_ <=? utc) then unix - zone_offset loc utc else utc in
  unix * Second + nsec mod Second.

(** [t.AddDate] *)
Definition AddDate (loc : Location) (t : Time) (years months days : Z) : Time :=
  Date (Year loc t + years) (Month loc t + months) (Day loc t + days)
    (HourOf loc t) (MinuteOf loc t) (SecondOf loc t) (t mod Second) loc.

(** [t.Truncate(d)]: down to a multiple of [d] since the year 1 (for the
    minutes and hours used here, since the epoch as well). *)
Definition Truncate (t : Time) (d : Duration) : Time := t - (t + 62135596800 * Second) mod d.

(** * Durations *)

(** The decimals of [v / 10^prec] below one, trailing zeros dropped. *)
Fixpoint decimals (prec : nat) (v : Z) : string :=
  match prec with
  | O => ""
  | S p =>
      if v =? 0 then ""
      else String (char_of (48 + v / 10 ^ Z.of_nat p)) (decimals p (v mod 10 ^ Z.of_nat p))
  end.
Definition scaled (prec : nat) (v : Z) : string :=
  let frac := decimals prec (v mod 10 ^ Z.of_nat prec) in
  pretty (v / 10 ^ Z.of_nat prec) +:+ (if empty_string frac then "" else "." +:+ frac).

(** [d.String()] *)
Definition Duration_String (d : Duration) : string :=
  let u := Z.abs d in
  let sign := if d <? 0 then "-" else "" in
  if u =? 0 then "0s"
  else if u <? 1000 then sign +:+ pretty u +:+ "ns"
  else if u <? 1000000 then sign +:+ scaled 3 u +:+ "µs"
  else if u <? Second then sign +:+ scaled 6 u +:+ "ms"
  else
    let secs := u / Second in
    let frac := decimals 9 (u mod Second) in
    let s := pretty (secs mod 60) +:+ (if empty_string frac then "" else "." +:+ frac) +:+ "s" in
    if secs <? 60 then sign +:+ s
    else
      let ms := pretty (secs / 60 mod 60) +:+ "m" +:+ s in
      if secs <? 3600 then sign +:+ ms else sign +:+ pretty (secs / 3600) +:+ "h" +:+ ms.

Example Duration_String_ok :
  Duration_String (24 * Hour) = "24h0m0s" /\ Duration_String (15 * Minute) = "15m0s" /\
  Duration_String 1500000 = "1.5ms" /\ Duration_String (90 * Second + 5) = "1m30.000000005s".
Proof. vm_compute. repeat split. Qed.

(** * Letter case *)

Definition lower_ascii (c : ascii) : ascii :=
  let n := nat_of_ascii c in
  if (65 <=? n)%nat && (n <=? 90)%nat then ascii_of_nat (n + 32) else c.

(** [strings.ToLower], exact where the result is ASCII: besides A to Z only the
    Kelvin sign and the dotted capital I have an ASCII lower case.  Other
    characters keep their (non-ASCII) bytes. *)
Fixpoint ToLower (s : string) : string :=
  match s with
  | String "226"%char (String "132"%char (String "170"%char s')) => String "k"%char (ToLower s')
  | String "196"%char (String "176"%char s') => String "i"%char (ToLower s')
  | String c s' => String (lower_ascii c) (ToLower s')
  | "" => ""
  end.

(** * Prefixes *)

Definition HasPrefix (s p : string) : bool := String.prefix p s.
Definition TrimPrefix (s p : string) : string :=
  if HasPrefix s p then String.substring (String.length p) (String.length s - String.length p) s else s.
Definition HasSuffix (s p : string) : bool :=
  (String.length p <=? String.length s)%nat &&
  String.eqb (String.substring (String.length s - String.length p) (String.length p) s) p.

(** * [encoding/hex] *)

Definition hex_digit (n : Z) : ascii := char_of (if n <? 10 then 48 + n else 87 + n).
Fixpoint hex_encode (b : list Z) : string :=
  match b with
  | [] => ""
  | x :: b' => String (hex_digit (x / 16)) (String (hex_digit (x mod 16)) (hex_encode b'))
  end.

(** * [crypto/sha256] *)

Module Sha256.
Definition w32 (z : Z) : Z := z mod 2 ^ 32.
Definition rotr (n x : Z) : Z := Z.lor (Z.shiftr x n) (w32 (Z.shiftl x (32 - n))).

Definition K : list Z := [
  1116352408; 1899447441; 3049323471; 3921009573; 961987163; 1508970993; 2453635748; 2870763221;
  3624381080; 310598401; 607225278; 1426881987; 1925078388; 2162078206; 2614888103; 3248222580;
  3835390401; 4022224774; 264347078; 604807628; 770255983; 1249150122; 1555081692; 1996064986;
  2554220882; 2821834349; 2952996808; 3210313671; 3336571891; 3584528711; 113926993; 338241895;
  666307205; 773529912; 1294757372; 1396182291; 1695183700; 1986661051; 2177026350; 2456956037;
  2730485921; 2820302411; 3259730800; 3345764771; 3516065817; 3600352804; 4094571909; 275423344;
  430227734; 506948616; 659060556; 883997877; 958139571; 1322822218; 1537002063; 1747873779;
  1955562222; 2024104815; 2227730452; 2361852424; 2428436474; 2756734187; 3204031479; 3329325298].

Definition init : list Z := [
  1779033703; 3144134277; 1013904242; 2773480762; 1359893119; 2600822924; 528734635; 1541459225].

Fixpoint bytes_of (s : string) : list Z :=
  match s with "" => [] | String c s' => byte_of c :: bytes_of s' end.

(** The message, a one bit, zeros, and the bit length in eight bytes. *)
Definition pad (m : list Z) : list Z :=
  let n := Z.of_nat (length m) in
  let z := (55 - n) mod 64 in
  m ++ [128] ++ repeat 0 (Z.to_nat z) ++
  map (fun i => Z.land (Z.shiftr (8 * n) (8 * i)) 255) [7; 6; 5; 4; 3; 2; 1; 0].

Fixpoint words (b : list Z) : list Z :=
  match b with
  | b0 :: b1 :: b2 :: b3 :: b' => (b0 * 2 ^ 24 + b1 * 2 ^ 16 + b2 * 2 ^ 8 + b3) :: words b'
  | _ => []
  end.

Definition sigma0 (x : Z) : Z := Z.lxor (Z.lxor (rotr 7 x) (rotr 18 x)) (Z.shiftr x 3).
Definition sigma1 (x : Z) : Z := Z.lxor (Z.lxor (rotr 17 x) (rotr 19 x)) (Z.shiftr x 10).
Definition Sigma0 (x : Z) : Z := Z.lxor (Z.lxor (rotr 2 x) (rotr 13 x)) (rotr 22 x).
Definition Sigma1 (x : Z) : Z := Z.lxor (Z.lxor (rotr 6 x) (rotr 11 x)) (rotr 25 x).
Definition ch (x y z : Z) : Z := Z.lxor (Z.land x y) (Z.land (Z.ldiff z x) (2 ^ 32 - 1)).
Definition maj (x y z : Z) : Z := Z.lxor (Z.lxor (Z.land x y) (Z.land x z)) (Z.land y z).

(** The message schedule, latest word first. *)
Fixpoint schedule (n : nat) (w : list Z) : list Z :=
  match n with
  | O => w
  | S n' => schedule n' (w32 (sigma1 (nth 1 w 0) + nth 6 w 0 + sigma0 (nth 14 w 0) + nth 15 w 0) :: w)
  end.

Definition round (s : list Z) (kw : Z * Z) : list Z :=
  match s with
  | [a; b; c; d; e; f; g; h] =>
      let t1 := h + Sigma1 e + ch e f g + kw.1 + kw.2 in
      let t2 := Sigma0 a + maj a b c in
      [w32 (t1 + t2); a; b; c; w32 (d + t1); e; f; g]
  | _ => s
  end.

Definition block (s w : list Z) : list Z :=
  let ws := rev (schedule 48 (rev w)) in
  zip_with (fun x y => w32 (x + y)) s (foldl round s (zip K ws)).

Fixpoint blocks (n : nat) (s w : list Z) : list Z :=
  match n with O => s | S n' => blocks n' (block s (take 16 w)) (drop 16 w) end.

Definition Sum256 (m : string) : list Z :=
  let w := words (pad (bytes_of m)) in
  flat_map (fun x => map (fun i => Z.land (Z.shiftr x i) 255) [24; 16; 8; 0])
    (blocks (length w / 16) init w).

Example Sum256_abc : hex_encode (Sum256 "abc") =
  "ba7816bf8f01cfea414140de5dae2223b00361a396177a9cb410ff61f20015ad".
Proof. vm_compute. reflexivity. Qed.
Example Sum256_two_blocks :
  hex_encode (Sum256 "abcdbcdecdefdefgefghfghighijhijkijkljklmklmnlmnomnopnopq") =
  "248d6a61d20638b8e5c026930c3e6039a33ce45964ff2167f6ecedd419db06c1".
Proof. vm_compute. reflexivity. Qed.
End Sha256.
