(* ===== verification/RunnerProto.v ===== *)
(** The hub-to-runner wire types of [internal/runnerproto] ([phase.go],
    [spec.go], [payload.go], [status.go], [message.go], [param.go]) with their
    JSON encoding, and the round trip of every payload the hub sends.

    Go's phases and task types are open string types, so they are strings here
    too.  [metav1.Duration] belongs to k8s: its textual form is a parameter. *)
From stdpp Require Import base list strings gmap.
From Stdlib Require Import ZArith Lia.
From S2P Require Import Prelude Common Json.

Open Scope Z_scope.

(** * Phases and enumerations *)

Definition PipelineRunPhase := string.
Definition PipelineRunPending : PipelineRunPhase := "Pending".
Definition PipelineRunRunning : PipelineRunPhase := "Running".
Definition PipelineRunWaitingApproval : PipelineRunPhase := "WaitingApproval".
Definition PipelineRunPendingQueue : PipelineRunPhase := "PendingQueue".
Definition PipelineRunSucceeded : PipelineRunPhase := "Succeeded".
Definition PipelineRunFailed : PipelineRunPhase := "Failed".
Definition PipelineRunCancelled : PipelineRunPhase := "Cancelled".

Definition TaskRunPhase := string.
Definition TaskRunPending : TaskRunPhase := "Pending".
Definition TaskRunRunning : TaskRunPhase := "Running".
Definition TaskRunSucceeded : TaskRunPhase := "Succeeded".
Definition TaskRunFailed : TaskRunPhase := "Failed".
Definition TaskRunSkipped : TaskRunPhase := "Skipped".

Definition RolloutPhase := string.
Definition RolloutProgressing : RolloutPhase := "Progressing".
Definition RolloutPaused : RolloutPhase := "Paused".
Definition RolloutHealthy : RolloutPhase := "Healthy".
Definition RolloutDegraded : RolloutPhase := "Degraded".
Definition RolloutRollingBack : RolloutPhase := "RollingBack".
Definition RolloutFailed : RolloutPhase := "Failed".
Definition RolloutRolledBack : RolloutPhase := "RolledBack".

Definition PipelineTaskType := string.
Definition TaskTypeBuild : PipelineTaskType := "Build".
Definition TaskTypeRelease : PipelineTaskType := "Release".
Definition TaskTypeApproval : PipelineTaskType := "Approval".
Definition TaskTypeTest : PipelineTaskType := "Test".

Definition RolloutAction := string.
Definition RolloutActionPause : RolloutAction := "pause".
Definition RolloutActionPromote : RolloutAction := "promote".
Definition RolloutActionRollback : RolloutAction := "rollback".

(** [metav1.Duration] and [metav1.Time]: [MarshalJSON] writes a text,
    [UnmarshalJSON] parses it back. *)
Class MetaV1 : Type := {
  duration_String : Duration -> string;
  ParseDuration : string -> option Duration;
  time_String : Time -> string;
  ParseTime : string -> option Time;
}.
(** [metav1.Time] keeps whole seconds only. *)
Class MetaV1Laws (X : MetaV1) : Prop := {
  ParseDuration_String : forall d, ParseDuration (duration_String d) = Some d;
  ParseTime_String : forall t, t mod Second = 0 -> ParseTime (time_String t) = Some t;
}.

(** * Types *)

Record Param := mkParam { param_Name : string; param_Value : string }.

Record RepoSource := mkRepoSource {
  repo_URL : string; repo_Ref : string; repo_Path : string; repo_SecretRef : string }.

Record RetryPolicy := mkRetryPolicy { rp_MaxRetries : Z; rp_Backoff : Duration }.

Record ApprovalConfig := mkApprovalConfig {
  ac_RequiredApprovals : Z; ac_AllowedApprovers : list string; ac_TimeoutSeconds : Z }.

Record ChartSource := mkChartSource {
  chart_RepoURL : string; chart_Name : string; chart_Version : string }.

Record ManifestSource := mkManifestSource { manifest_Content : string }.
#[global] Instance ManifestSource_eta : Eta ManifestSource := fun r =>
  mkManifestSource (manifest_Content r).
#[global] Instance ChartSource_eta : Eta ChartSource := fun r =>
  mkChartSource (chart_RepoURL r) (chart_Name r) (chart_Version r).

Record PauseStep := mkPauseStep { pause_Duration : option Duration }.

Record CanaryStep := mkCanaryStep { step_SetWeight : option Z; step_Pause : option PauseStep }.

Record HealthCheckSpec := mkHealthCheckSpec {
  hc_Type : string; hc_IntervalSeconds : Z; hc_FailureThreshold : Z; hc_HTTPPath : string;
  hc_PrometheusQueryExpr : string; hc_PrometheusThreshold : string }.

Record TrafficRoutingSpec := mkTrafficRoutingSpec { tr_Type : string; tr_IngressRef : string }.

Record RolloutSpec := mkRolloutSpec {
  ro_WorkloadRef : string; ro_Replicas : option Z; ro_StableImage : string;
  ro_CanaryImage : string; ro_Steps : list CanaryStep; ro_HealthCheck : HealthCheckSpec;
  ro_TrafficRouting : TrafficRoutingSpec; ro_AutoRollback : bool }.

Record ReleaseSpec := mkReleaseSpec {
  rel_Source : string; rel_Chart : option ChartSource; rel_Manifest : option ManifestSource;
  rel_Values : gmap string string; rel_TargetNamespace : string;
  rel_Canary : option RolloutSpec }.
#[global] Instance ReleaseSpec_eta : Eta ReleaseSpec := fun r =>
  mkReleaseSpec (rel_Source r) (rel_Chart r) (rel_Manifest r) (rel_Values r)
    (rel_TargetNamespace r) (rel_Canary r).

Record PipelineTaskSpec := mkPipelineTaskSpec {
  ts_Name : string; ts_Type : PipelineTaskType; ts_Stage : string; ts_ExecutionMode : string;
  ts_Image : string; ts_ScriptPath : string; ts_ScriptArgs : list string;
  ts_Command : list string; ts_Args : list string; ts_Repo : option RepoSource;
  ts_Produces : list string; ts_Consumes : list string; ts_DependsOn : list string;
  ts_Privileged : bool; ts_RetryPolicy : option RetryPolicy; ts_TimeoutSeconds : Z;
  ts_ApprovalConfig : option ApprovalConfig; ts_RolloutSpec : option RolloutSpec;
  ts_ReleaseSpec : option ReleaseSpec }.
#[global] Instance PipelineTaskSpec_eta : Eta PipelineTaskSpec := fun r =>
  mkPipelineTaskSpec (ts_Name r) (ts_Type r) (ts_Stage r) (ts_ExecutionMode r) (ts_Image r)
    (ts_ScriptPath r) (ts_ScriptArgs r) (ts_Command r) (ts_Args r) (ts_Repo r) (ts_Produces r)
    (ts_Consumes r) (ts_DependsOn r) (ts_Privileged r) (ts_RetryPolicy r) (ts_TimeoutSeconds r)
    (ts_ApprovalConfig r) (ts_RolloutSpec r) (ts_ReleaseSpec r).

Record PipelineRunSpec := mkPipelineRunSpec {
  prs_PipelineRef : string; prs_Tasks : list PipelineTaskSpec; prs_Repo : option RepoSource;
  prs_Params : list Param; prs_TenantID : string; prs_ProjectID : string;
  prs_EnvironmentID : string; prs_TargetNamespace : string; prs_ServiceAccountName : string;
  prs_TimeoutSeconds : Z; prs_TriggeredBy : string }.
#[global] Instance PipelineRunSpec_eta : Eta PipelineRunSpec := fun r =>
  mkPipelineRunSpec (prs_PipelineRef r) (prs_Tasks r) (prs_Repo r) (prs_Params r)
    (prs_TenantID r) (prs_ProjectID r) (prs_EnvironmentID r) (prs_TargetNamespace r)
    (prs_ServiceAccountName r) (prs_TimeoutSeconds r) (prs_TriggeredBy r).

Record ApplyPipelineRunPayload := mkApply {
  apply_Name : string; apply_Namespace : string; apply_Spec : PipelineRunSpec;
  apply_PublishVersion : string }.

Record ApproveTaskPayload := mkApprove {
  approve_PipelineRunName : string; approve_TaskName : string; approve_Approver : string;
  approve_Rejected : bool }.

Record RolloutControlPayload := mkRolloutControl {
  rc_PipelineRunName : string; rc_TaskName : string; rc_Action : RolloutAction;
  rc_Operator : string }.

Record RerunTaskPayload := mkRerun {
  rerun_PipelineRunName : string; rerun_TaskName : string; rerun_Operator : string }.

Record CancelPipelineRunPayload := mkCancel {
  cancel_PipelineRunName : string; cancel_Namespace : string; cancel_Operator : string }.

Record AgentOpDispatchPayload := mkAgentOpDispatch {
  aod_OpID : string; aod_TargetID : string; aod_EnvID : string; aod_OpType : string;
  aod_Detail : string; aod_Namespace : string; aod_Kubeconfig : string }.

Record AgentOpStatusPayload := mkAgentOpStatus {
  aos_OpID : string; aos_Status : string; aos_Message : string }.

Record AgentOpLogPayload := mkAgentOpLog {
  aol_OpID : string; aol_Stream : string; aol_Chunk : string }.

Record AgentInfoPayload := mkAgentInfo {
  ai_AgentVersion : string; ai_OS : string; ai_Arch : string; ai_Capabilities : list string;
  ai_TargetName : string; ai_GoVersion : string }.

Record RolloutStatusSummary := mkRolloutStatus {
  rs_Phase : RolloutPhase; rs_CurrentStepIndex : Z; rs_CurrentWeight : Z;
  rs_WorkloadRef : string; rs_Message : string }.

Record TaskRunStatusSummary := mkTaskStatus {
  tss_Name : string; tss_TaskRunRef : string; tss_Phase : TaskRunPhase; tss_RetryCount : Z;
  tss_StartTime : option Time; tss_CompletionTime : option Time; tss_Message : string;
  tss_Rollout : option RolloutStatusSummary }.

Record StatusUpdatePayload := mkStatusUpdate {
  su_TargetID : string; su_PipelineRunName : string; su_PipelineRunNamespace : string;
  su_Phase : PipelineRunPhase; su_Message : string; su_StartTime : option Time;
  su_CompletionTime : option Time; su_Tasks : list TaskRunStatusSummary }.

Record LogChunkPayload := mkLogChunk {
  lc_TargetID : string; lc_PipelineRunName : string; lc_TaskName : string;
  lc_Stream : string; lc_Chunk : string }.

(** The Hub -> Runner frames. *)
Inductive HubMessage : Type :=
| MessageApplyPipelineRun (p : ApplyPipelineRunPayload)
| MessageApproveTask (p : ApproveTaskPayload)
| MessageRerunTask (p : RerunTaskPayload)
| MessageCancelPipelineRun (p : CancelPipelineRunPayload)
| MessageRolloutControl (p : RolloutControlPayload)
| MessageAgentOp (p : AgentOpDispatchPayload).

(** The Runner -> Hub frames. *)
Inductive RunnerMessage : Type :=
| MessageStatusUpdate (p : StatusUpdatePayload)
| MessageLogChunk (p : LogChunkPayload)
| MessageHeartbeat
| MessageAgentOpStatus (p : AgentOpStatusPayload)
| MessageAgentOpLog (p : AgentOpLogPayload)
| MessageAgentInfo (p : AgentInfoPayload).

(** The [type] discriminant of a frame. *)
Definition MessageType (m : HubMessage) : string :=
  match m with
  | MessageApplyPipelineRun _ => "apply_pipeline_run"
  | MessageApproveTask _ => "approve_task"
  | MessageRerunTask _ => "rerun_task"
  | MessageCancelPipelineRun _ => "cancel_pipeline_run"
  | MessageRolloutControl _ => "rollout_control"
  | MessageAgentOp _ => "agent_op"
  end.

(** * JSON encoding *)

Section Encoding.
Context {X : MetaV1} {XL : MetaV1Laws X}.

Definition metaDuration : Codec Duration := {|
  zero := 0;
  enc := fun d => JStr (duration_String d);
  dec := fun v => match v with
    | JStr s => match ParseDuration s with Some d => (d, true) | None => (0, false) end
    | JNull => (0, true) | _ => (0, false) end;
  wf := fun _ => True;
|}.
#[local] Instance CodecLaws_metaDuration : @CodecLaws _ metaDuration.
Proof. split; [|done]. intros d _. simpl. by rewrite ParseDuration_String. Qed.
#[global] Instance Codec_Param : Codec Param := {|
  zero := mkParam zero zero;
  enc := fun p => JObj (concat [
    field _ "name" (param_Name p); field _ "value" (param_Value p)]);
  dec := dec_struct (mkParam zero zero)
    (fields_ret mkParam <@> dec_field _ "name" <@> dec_field _ "value");
  wf := fun p => True;
|}.
#[global] Instance CodecLaws_Param : CodecLaws Param.
Proof. split; [|done]. intros []; cbn [wf]; intros. struct_roundtrip. Qed.

#[global] Instance Codec_RepoSource : Codec RepoSource := {|
  zero := mkRepoSource zero zero zero zero;
  enc := fun p => JObj (concat [
    field _ "url" (repo_URL p); field _ "ref" (repo_Ref p);
    field_opt _ "path" empty_string (repo_Path p);
    field_opt _ "secretRef" empty_string (repo_SecretRef p)]);
  dec := dec_struct (mkRepoSource zero zero zero zero)
    (fields_ret mkRepoSource <@> dec_field _ "url" <@> dec_field _ "ref" <@> dec_field _ "path" <@>
      dec_field _ "secretRef");
  wf := fun p => True;
|}.
#[global] Instance CodecLaws_RepoSource : CodecLaws RepoSource.
Proof. split; [|done]. intros []; cbn [wf]; intros. struct_roundtrip. Qed.

#[global] Instance Codec_RetryPolicy : Codec RetryPolicy := {|
  zero := mkRetryPolicy (@zero _ int32) (@zero _ metaDuration);
  enc := fun p => JObj (concat [
    field_opt int32 "maxRetries" empty_Z (rp_MaxRetries p);
    field metaDuration "backoff" (rp_Backoff p)]);
  dec := dec_struct (mkRetryPolicy (@zero _ int32) (@zero _ metaDuration))
    (fields_ret mkRetryPolicy <@> dec_field int32 "maxRetries" <@> dec_field metaDuration "backoff");
  wf := fun p => @wf _ int32 (rp_MaxRetries p);
|}.
#[global] Instance CodecLaws_RetryPolicy : CodecLaws RetryPolicy.
Proof. split; [|done]. intros []; cbn [wf]; intros. struct_roundtrip. Qed.

#[global] Instance Codec_ApprovalConfig : Codec ApprovalConfig := {|
  zero := mkApprovalConfig (@zero _ int32) zero (@zero _ int64);
  enc := fun p => JObj (concat [
    field int32 "requiredApprovals" (ac_RequiredApprovals p);
    field_opt _ "allowedApprovers" empty_list (ac_AllowedApprovers p);
    field_opt int64 "timeoutSeconds" empty_Z (ac_TimeoutSeconds p)]);
  dec := dec_struct (mkApprovalConfig (@zero _ int32) zero (@zero _ int64))
    (fields_ret mkApprovalConfig <@> dec_field int32 "requiredApprovals" <@> dec_field _ "allowedApprovers" <@>
      dec_field int64 "timeoutSeconds");
  wf := fun p => @wf _ int32 (ac_RequiredApprovals p) /\ @wf _ int64 (ac_TimeoutSeconds p);
|}.
#[global] Instance CodecLaws_ApprovalConfig : CodecLaws ApprovalConfig.
Proof. split; [|done]. intros []; cbn [wf]; intros. struct_roundtrip. Qed.

#[global] Instance Codec_ChartSource : Codec ChartSource := {|
  zero := mkChartSource zero zero zero;
  enc := fun p => JObj (concat [
    field_opt _ "repoURL" empty_string (chart_RepoURL p); field _ "name" (chart_Name p);
    field_opt _ "version" empty_string (chart_Version p)]);
  dec := dec_struct (mkChartSource zero zero zero)
    (fields_ret mkChartSource <@> dec_field _ "repoURL" <@> dec_field _ "name" <@> dec_field _ "version");
  wf := fun p => True;
|}.
#[global] Instance CodecLaws_ChartSource : CodecLaws ChartSource.
Proof. split; [|done]. intros []; cbn [wf]; intros. struct_roundtrip. Qed.

#[global] Instance Codec_ManifestSource : Codec ManifestSource := {|
  zero := mkManifestSource zero;
  enc := fun p => JObj (concat [
    field _ "content" (manifest_Content p)]);
  dec := dec_struct (mkManifestSource zero)
    (fields_ret mkManifestSource <@> dec_field _ "content");
  wf := fun p => True;
|}.
#[global] Instance CodecLaws_ManifestSource : CodecLaws ManifestSource.
Proof. split; [|done]. intros []; cbn [wf]; intros. struct_roundtrip. Qed.

#[global] Instance Codec_PauseStep : Codec PauseStep := {|
  zero := mkPauseStep (@zero _ (Codec_ptr metaDuration));
  enc := fun p => JObj (concat [
    field_opt (Codec_ptr metaDuration) "duration" empty_ptr (pause_Duration p)]);
  dec := dec_struct (mkPauseStep (@zero _ (Codec_ptr metaDuration)))
    (fields_ret mkPauseStep <@> dec_field (Codec_ptr metaDuration) "duration");
  wf := fun p => True;
|}.
#[global] Instance CodecLaws_PauseStep : CodecLaws PauseStep.
Proof. split; [|done]. intros []; cbn [wf]; intros. struct_roundtrip. Qed.

#[global] Instance Codec_CanaryStep : Codec CanaryStep := {|
  zero := mkCanaryStep (@zero _ (Codec_ptr int32)) (@zero _ (Codec_ptr _));
  enc := fun p => JObj (concat [
    field_opt (Codec_ptr int32) "setWeight" empty_ptr (step_SetWeight p);
    field_opt (Codec_ptr _) "pause" empty_ptr (step_Pause p)]);
  dec := dec_struct (mkCanaryStep (@zero _ (Codec_ptr int32)) (@zero _ (Codec_ptr _)))
    (fields_ret mkCanaryStep <@> dec_field (Codec_ptr int32) "setWeight" <@> dec_field (Codec_ptr _) "pause");
  wf := fun p => @wf _ (Codec_ptr int32) (step_SetWeight p);
|}.
#[global] Instance CodecLaws_CanaryStep : CodecLaws CanaryStep.
Proof. split; [|done]. intros []; cbn [wf]; intros. struct_roundtrip. Qed.

#[global] Instance Codec_HealthCheckSpec : Codec HealthCheckSpec := {|
  zero := mkHealthCheckSpec zero (@zero _ int64) (@zero _ int32) zero zero zero;
  enc := fun p => JObj (concat [
    field _ "type" (hc_Type p);
    field_opt int64 "intervalSeconds" empty_Z (hc_IntervalSeconds p);
    field_opt int32 "failureThreshold" empty_Z (hc_FailureThreshold p);
    field_opt _ "httpPath" empty_string (hc_HTTPPath p);
    field_opt _ "prometheusQueryExpr" empty_string (hc_PrometheusQueryExpr p);
    field_opt _ "prometheusThreshold" empty_string (hc_PrometheusThreshold p)]);
  dec := dec_struct (mkHealthCheckSpec zero (@zero _ int64) (@zero _ int32) zero zero zero)
    (fields_ret mkHealthCheckSpec <@> dec_field _ "type" <@> dec_field int64 "intervalSeconds" <@>
      dec_field int32 "failureThreshold" <@> dec_field _ "httpPath" <@>
      dec_field _ "prometheusQueryExpr" <@> dec_field _ "prometheusThreshold");
  wf := fun p => @wf _ int64 (hc_IntervalSeconds p) /\ @wf _ int32 (hc_FailureThreshold p);
|}.
#[global] Instance CodecLaws_HealthCheckSpec : CodecLaws HealthCheckSpec.
Proof. split; [|done]. intros []; cbn [wf]; intros. struct_roundtrip. Qed.

#[global] Instance Codec_TrafficRoutingSpec : Codec TrafficRoutingSpec := {|
  zero := mkTrafficRoutingSpec zero zero;
  enc := fun p => JObj (concat [
    field _ "type" (tr_Type p); field_opt _ "ingressRef" empty_string (tr_IngressRef p)]);
  dec := dec_struct (mkTrafficRoutingSpec zero zero)
    (fields_ret mkTrafficRoutingSpec <@> dec_field _ "type" <@> dec_field _ "ingressRef");
  wf := fun p => True;
|}.
#[global] Instance CodecLaws_TrafficRoutingSpec : CodecLaws TrafficRoutingSpec.
Proof. split; [|done]. intros []; cbn [wf]; intros. struct_roundtrip. Qed.

#[global] Instance Codec_RolloutSpec : Codec RolloutSpec := {|
  zero := mkRolloutSpec zero (@zero _ (Codec_ptr int32)) zero zero zero zero zero zero;
  enc := fun p => JObj (concat [
    field _ "workloadRef" (ro_WorkloadRef p);
    field_opt (Codec_ptr int32) "replicas" empty_ptr (ro_Replicas p);
    field _ "stableImage" (ro_StableImage p); field _ "canaryImage" (ro_CanaryImage p);
    field _ "steps" (ro_Steps p); field _ "healthCheck" (ro_HealthCheck p);
    field _ "trafficRouting" (ro_TrafficRouting p);
    field_opt _ "autoRollback" empty_bool (ro_AutoRollback p)]);
  dec := dec_struct (mkRolloutSpec zero (@zero _ (Codec_ptr int32)) zero zero zero zero zero zero)
    (fields_ret mkRolloutSpec <@> dec_field _ "workloadRef" <@> dec_field (Codec_ptr int32) "replicas" <@>
      dec_field _ "stableImage" <@> dec_field _ "canaryImage" <@> dec_field _ "steps" <@>
      dec_field _ "healthCheck" <@> dec_field _ "trafficRouting" <@>
      dec_field _ "autoRollback");
  wf := fun p => @wf _ (Codec_ptr int32) (ro_Replicas p) /\ wf (ro_Steps p) /\ wf (ro_HealthCheck p);
|}.
#[global] Instance CodecLaws_RolloutSpec : CodecLaws RolloutSpec.
Proof. split; [|done]. intros []; cbn [wf]; intros. struct_roundtrip. Qed.

#[global] Instance Codec_ReleaseSpec : Codec ReleaseSpec := {|
  zero := mkReleaseSpec zero (@zero _ (Codec_ptr _)) (@zero _ (Codec_ptr _)) zero zero (@zero _ (Codec_ptr _));
  enc := fun p => JObj (concat [
    field _ "source" (rel_Source p);
    field_opt (Codec_ptr _) "chart" empty_ptr (rel_Chart p);
    field_opt (Codec_ptr _) "manifest" empty_ptr (rel_Manifest p);
    field_opt _ "values" empty_map (rel_Values p);
    field_opt _ "targetNamespace" empty_string (rel_TargetNamespace p);
    field_opt (Codec_ptr _) "canary" empty_ptr (rel_Canary p)]);
  dec := dec_struct (mkReleaseSpec zero (@zero _ (Codec_ptr _)) (@zero _ (Codec_ptr _)) zero zero (@zero _ (Codec_ptr _)))
    (fields_ret mkReleaseSpec <@> dec_field _ "source" <@> dec_field (Codec_ptr _) "chart" <@>
      dec_field (Codec_ptr _) "manifest" <@> dec_field _ "values" <@>
      dec_field _ "targetNamespace" <@> dec_field (Codec_ptr _) "canary");
  wf := fun p => @wf _ (Codec_ptr _) (rel_Canary p);
|}.
#[global] Instance CodecLaws_ReleaseSpec : CodecLaws ReleaseSpec.
Proof. split; [|done]. intros []; cbn [wf]; intros. struct_roundtrip. Qed.

#[global] Instance Codec_PipelineTaskSpec : Codec PipelineTaskSpec := {|
  zero := mkPipelineTaskSpec zero zero zero zero zero zero zero zero zero (@zero _ (Codec_ptr _)) zero zero zero zero
    (@zero _ (Codec_ptr _)) (@zero _ int64) (@zero _ (Codec_ptr _)) (@zero _ (Codec_ptr _))
    (@zero _ (Codec_ptr _));
  enc := fun p => JObj (concat [
    field _ "name" (ts_Name p); field _ "type" (ts_Type p);
    field_opt _ "stage" empty_string (ts_Stage p);
    field_opt _ "executionMode" empty_string (ts_ExecutionMode p);
    field_opt _ "image" empty_string (ts_Image p);
    field_opt _ "scriptPath" empty_string (ts_ScriptPath p);
    field_opt _ "scriptArgs" empty_list (ts_ScriptArgs p);
    field_opt _ "command" empty_list (ts_Command p);
    field_opt _ "args" empty_list (ts_Args p);
    field_opt (Codec_ptr _) "repo" empty_ptr (ts_Repo p);
    field_opt _ "produces" empty_list (ts_Produces p);
    field_opt _ "consumes" empty_list (ts_Consumes p);
    field_opt _ "dependsOn" empty_list (ts_DependsOn p);
    field_opt _ "privileged" empty_bool (ts_Privileged p);
    field_opt (Codec_ptr _) "retryPolicy" empty_ptr (ts_RetryPolicy p);
    field_opt int64 "timeoutSeconds" empty_Z (ts_TimeoutSeconds p);
    field_opt (Codec_ptr _) "approvalConfig" empty_ptr (ts_ApprovalConfig p);
    field_opt (Codec_ptr _) "rolloutSpec" empty_ptr (ts_RolloutSpec p);
    field_opt (Codec_ptr _) "releaseSpec" empty_ptr (ts_ReleaseSpec p)]);
  dec := dec_struct (mkPipelineTaskSpec zero zero zero zero zero zero zero zero zero (@zero _ (Codec_ptr _)) zero zero zero zero
    (@zero _ (Codec_ptr _)) (@zero _ int64) (@zero _ (Codec_ptr _)) (@zero _ (Codec_ptr _))
    (@zero _ (Codec_ptr _)))
    (fields_ret mkPipelineTaskSpec <@> dec_field _ "name" <@> dec_field _ "type" <@> dec_field _ "stage" <@>
      dec_field _ "executionMode" <@> dec_field _ "image" <@> dec_field _ "scriptPath" <@>
      dec_field _ "scriptArgs" <@> dec_field _ "command" <@> dec_field _ "args" <@>
      dec_field (Codec_ptr _) "repo" <@> dec_field _ "produces" <@>
      dec_field _ "consumes" <@> dec_field _ "dependsOn" <@> dec_field _ "privileged" <@>
      dec_field (Codec_ptr _) "retryPolicy" <@> dec_field int64 "timeoutSeconds" <@>
      dec_field (Codec_ptr _) "approvalConfig" <@> dec_field (Codec_ptr _) "rolloutSpec" <@>
      dec_field (Codec_ptr _) "releaseSpec");
  wf := fun p => @wf _ (Codec_ptr _) (ts_RetryPolicy p) /\ @wf _ int64 (ts_TimeoutSeconds p) /\
    @wf _ (Codec_ptr _) (ts_ApprovalConfig p) /\ @wf _ (Codec_ptr _) (ts_RolloutSpec p) /\
    @wf _ (Codec_ptr _) (ts_ReleaseSpec p);
|}.
#[global] Instance CodecLaws_PipelineTaskSpec : CodecLaws PipelineTaskSpec.
Proof. split; [|done]. intros []; cbn [wf]; intros. struct_roundtrip. Qed.

#[global] Instance Codec_PipelineRunSpec : Codec PipelineRunSpec := {|
  zero := mkPipelineRunSpec zero zero (@zero _ (Codec_ptr _)) zero zero zero zero zero zero (@zero _ int64) zero;
  enc := fun p => JObj (concat [
    field_opt _ "pipelineRef" empty_string (prs_PipelineRef p);
    field _ "tasks" (prs_Tasks p); field_opt (Codec_ptr _) "repo" empty_ptr (prs_Repo p);
    field_opt _ "params" empty_list (prs_Params p); field _ "tenantID" (prs_TenantID p);
    field _ "projectID" (prs_ProjectID p); field _ "environmentID" (prs_EnvironmentID p);
    field _ "targetNamespace" (prs_TargetNamespace p);
    field_opt _ "serviceAccountName" empty_string (prs_ServiceAccountName p);
    field_opt int64 "timeoutSeconds" empty_Z (prs_TimeoutSeconds p);
    field_opt _ "triggeredBy" empty_string (prs_TriggeredBy p)]);
  dec := dec_struct (mkPipelineRunSpec zero zero (@zero _ (Codec_ptr _)) zero zero zero zero zero zero (@zero _ int64) zero)
    (fields_ret mkPipelineRunSpec <@> dec_field _ "pipelineRef" <@> dec_field _ "tasks" <@>
      dec_field (Codec_ptr _) "repo" <@> dec_field _ "params" <@> dec_field _ "tenantID" <@>
      dec_field _ "projectID" <@> dec_field _ "environmentID" <@>
      dec_field _ "targetNamespace" <@> dec_field _ "serviceAccountName" <@>
      dec_field int64 "timeoutSeconds" <@> dec_field _ "triggeredBy");
  wf := fun p => wf (prs_Tasks p) /\ @wf _ int64 (prs_TimeoutSeconds p);
|}.
#[global] Instance CodecLaws_PipelineRunSpec : CodecLaws PipelineRunSpec.
Proof. split; [|done]. intros []; cbn [wf]; intros. struct_roundtrip. Qed.

#[global] Instance Codec_ApplyPipelineRunPayload : Codec ApplyPipelineRunPayload := {|
  zero := mkApply zero zero zero zero;
  enc := fun p => JObj (concat [
    field _ "name" (apply_Name p); field _ "namespace" (apply_Namespace p);
    field _ "spec" (apply_Spec p);
    field_opt _ "publishVersion" empty_string (apply_PublishVersion p)]);
  dec := dec_struct (mkApply zero zero zero zero)
    (fields_ret mkApply <@> dec_field _ "name" <@> dec_field _ "namespace" <@> dec_field _ "spec" <@>
      dec_field _ "publishVersion");
  wf := fun p => wf (apply_Spec p);
|}.
#[global] Instance CodecLaws_ApplyPipelineRunPayload : CodecLaws ApplyPipelineRunPayload.
Proof. split; [|done]. intros []; cbn [wf]; intros. struct_roundtrip. Qed.

#[global] Instance Codec_ApproveTaskPayload : Codec ApproveTaskPayload := {|
  zero := mkApprove zero zero zero zero;
  enc := fun p => JObj (concat [
    field _ "pipelineRunName" (approve_PipelineRunName p);
    field _ "taskName" (approve_TaskName p); field _ "approver" (approve_Approver p);
    field_opt _ "rejected" empty_bool (approve_Rejected p)]);
  dec := dec_struct (mkApprove zero zero zero zero)
    (fields_ret mkApprove <@> dec_field _ "pipelineRunName" <@> dec_field _ "taskName" <@>
      dec_field _ "approver" <@> dec_field _ "rejected");
  wf := fun p => True;
|}.
#[global] Instance CodecLaws_ApproveTaskPayload : CodecLaws ApproveTaskPayload.
Proof. split; [|done]. intros []; cbn [wf]; intros. struct_roundtrip. Qed.

#[global] Instance Codec_RolloutControlPayload : Codec RolloutControlPayload := {|
  zero := mkRolloutControl zero zero zero zero;
  enc := fun p => JObj (concat [
    field _ "pipelineRunName" (rc_PipelineRunName p); field _ "taskName" (rc_TaskName p);
    field _ "action" (rc_Action p); field_opt _ "operator" empty_string (rc_Operator p)]);
  dec := dec_struct (mkRolloutControl zero zero zero zero)
    (fields_ret mkRolloutControl <@> dec_field _ "pipelineRunName" <@> dec_field _ "taskName" <@> dec_field _ "action" <@>
      dec_field _ "operator");
  wf := fun p => True;
|}.
#[global] Instance CodecLaws_RolloutControlPayload : CodecLaws RolloutControlPayload.
Proof. split; [|done]. intros []; cbn [wf]; intros. struct_roundtrip. Qed.

#[global] Instance Codec_RerunTaskPayload : Codec RerunTaskPayload := {|
  zero := mkRerun zero zero zero;
  enc := fun p => JObj (concat [
    field _ "pipelineRunName" (rerun_PipelineRunName p);
    field _ "taskName" (rerun_TaskName p);
    field_opt _ "operator" empty_string (rerun_Operator p)]);
  dec := dec_struct (mkRerun zero zero zero)
    (fields_ret mkRerun <@> dec_field _ "pipelineRunName" <@> dec_field _ "taskName" <@> dec_field _ "operator");
  wf := fun p => True;
|}.
#[global] Instance CodecLaws_RerunTaskPayload : CodecLaws RerunTaskPayload.
Proof. split; [|done]. intros []; cbn [wf]; intros. struct_roundtrip. Qed.

#[global] Instance Codec_CancelPipelineRunPayload : Codec CancelPipelineRunPayload := {|
  zero := mkCancel zero zero zero;
  enc := fun p => JObj (concat [
    field _ "pipelineRunName" (cancel_PipelineRunName p);
    field _ "namespace" (cancel_Namespace p);
    field_opt _ "operator" empty_string (cancel_Operator p)]);
  dec := dec_struct (mkCancel zero zero zero)
    (fields_ret mkCancel <@> dec_field _ "pipelineRunName" <@> dec_field _ "namespace" <@> dec_field _ "operator");
  wf := fun p => True;
|}.
#[global] Instance CodecLaws_CancelPipelineRunPayload : CodecLaws CancelPipelineRunPayload.
Proof. split; [|done]. intros []; cbn [wf]; intros. struct_roundtrip. Qed.

Definition metaTime : Codec Time := {|
  zero := 0;
  enc := fun t => JStr (time_String t);
  dec := fun v => match v with
    | JStr s => match ParseTime s with Some t => (t, true) | None => (0, false) end
    | JNull => (0, true) | _ => (0, false) end;
  wf := fun t => t mod Second = 0;
|}.
#[local] Instance CodecLaws_metaTime : @CodecLaws _ metaTime.
Proof. split; [|done]. intros t Ht. simpl in *. by rewrite ParseTime_String. Qed.

#[global] Instance Codec_AgentOpDispatchPayload : Codec AgentOpDispatchPayload := {|
  zero := mkAgentOpDispatch zero zero zero zero zero zero (@zero _ bytes);
  enc := fun p => JObj (concat [
    field _ "opID" (aod_OpID p);
    field _ "targetID" (aod_TargetID p);
    field_opt _ "envID" empty_string (aod_EnvID p);
    field _ "opType" (aod_OpType p);
    field _ "detail" (aod_Detail p);
    field_opt _ "namespace" empty_string (aod_Namespace p);
    field_opt bytes "kubeconfig" empty_string (aod_Kubeconfig p)]);
  dec := dec_struct (mkAgentOpDispatch zero zero zero zero zero zero (@zero _ bytes))
    (fields_ret mkAgentOpDispatch <@>
      dec_field _ "opID" <@>
      dec_field _ "targetID" <@>
      dec_field _ "envID" <@>
      dec_field _ "opType" <@>
      dec_field _ "detail" <@>
      dec_field _ "namespace" <@>
      dec_field bytes "kubeconfig");
  wf := fun p => True;
|}.
#[global] Instance CodecLaws_AgentOpDispatchPayload : CodecLaws AgentOpDispatchPayload.
Proof. split; [|done]. intros []; cbn [wf]; intros. struct_roundtrip. Qed.

#[global] Instance Codec_AgentOpStatusPayload : Codec AgentOpStatusPayload := {|
  zero := mkAgentOpStatus zero zero zero;
  enc := fun p => JObj (concat [
    field _ "opID" (aos_OpID p);
    field _ "status" (aos_Status p);
    field_opt _ "message" empty_string (aos_Message p)]);
  dec := dec_struct (mkAgentOpStatus zero zero zero)
    (fields_ret mkAgentOpStatus <@>
      dec_field _ "opID" <@>
      dec_field _ "status" <@>
      dec_field _ "message");
  wf := fun p => True;
|}.
#[global] Instance CodecLaws_AgentOpStatusPayload : CodecLaws AgentOpStatusPayload.
Proof. split; [|done]. intros []; cbn [wf]; intros. struct_roundtrip. Qed.

#[global] Instance Codec_AgentOpLogPayload : Codec AgentOpLogPayload := {|
  zero := mkAgentOpLog zero zero zero;
  enc := fun p => JObj (concat [
    field _ "opID" (aol_OpID p);
    field_opt _ "stream" empty_string (aol_Stream p);
    field _ "chunk" (aol_Chunk p)]);
  dec := dec_struct (mkAgentOpLog zero zero zero)
    (fields_ret mkAgentOpLog <@>
      dec_field _ "opID" <@>
      dec_field _ "stream" <@>
      dec_field _ "chunk");
  wf := fun p => True;
|}.
#[global] Instance CodecLaws_AgentOpLogPayload : CodecLaws AgentOpLogPayload.
Proof. split; [|done]. intros []; cbn [wf]; intros. struct_roundtrip. Qed.

#[global] Instance Codec_AgentInfoPayload : Codec AgentInfoPayload := {|
  zero := mkAgentInfo zero zero zero zero zero zero;
  enc := fun p => JObj (concat [
    field _ "agentVersion" (ai_AgentVersion p);
    field _ "os" (ai_OS p);
    field _ "arch" (ai_Arch p);
    field_opt _ "capabilities" empty_list (ai_Capabilities p);
    field_opt _ "targetName" empty_string (ai_TargetName p);
    field_opt _ "goVersion" empty_string (ai_GoVersion p)]);
  dec := dec_struct (mkAgentInfo zero zero zero zero zero zero)
    (fields_ret mkAgentInfo <@>
      dec_field _ "agentVersion" <@>
      dec_field _ "os" <@>
      dec_field _ "arch" <@>
      dec_field _ "capabilities" <@>
      dec_field _ "targetName" <@>
      dec_field _ "goVersion");
  wf := fun p => True;
|}.
#[global] Instance CodecLaws_AgentInfoPayload : CodecLaws AgentInfoPayload.
Proof. split; [|done]. intros []; cbn [wf]; intros. struct_roundtrip. Qed.

#[global] Instance Codec_RolloutStatusSummary : Codec RolloutStatusSummary := {|
  zero := mkRolloutStatus zero (@zero _ int64) (@zero _ int64) zero zero;
  enc := fun p => JObj (concat [
    field _ "phase" (rs_Phase p);
    field int64 "currentStepIndex" (rs_CurrentStepIndex p);
    field int64 "currentWeight" (rs_CurrentWeight p);
    field_opt _ "workloadRef" empty_string (rs_WorkloadRef p);
    field_opt _ "message" empty_string (rs_Message p)]);
  dec := dec_struct (mkRolloutStatus zero (@zero _ int64) (@zero _ int64) zero zero)
    (fields_ret mkRolloutStatus <@>
      dec_field _ "phase" <@>
      dec_field int64 "currentStepIndex" <@>
      dec_field int64 "currentWeight" <@>
      dec_field _ "workloadRef" <@>
      dec_field _ "message");
  wf := fun p => @wf _ int64 (rs_CurrentStepIndex p) /\ @wf _ int64 (rs_CurrentWeight p);
|}.
#[global] Instance CodecLaws_RolloutStatusSummary : CodecLaws RolloutStatusSummary.
Proof. split; [|done]. intros []; cbn [wf]; intros. struct_roundtrip. Qed.

#[global] Instance Codec_TaskRunStatusSummary : Codec TaskRunStatusSummary := {|
  zero := mkTaskStatus zero zero zero (@zero _ int32) (@zero _ (Codec_ptr metaTime)) (@zero _ (Codec_ptr metaTime)) zero (@zero _ (Codec_ptr _));
  enc := fun p => JObj (concat [
    field _ "name" (tss_Name p);
    field_opt _ "taskRunRef" empty_string (tss_TaskRunRef p);
    field _ "phase" (tss_Phase p);
    field_opt int32 "retryCount" empty_Z (tss_RetryCount p);
    field_opt (Codec_ptr metaTime) "startTime" empty_ptr (tss_StartTime p);
    field_opt (Codec_ptr metaTime) "completionTime" empty_ptr (tss_CompletionTime p);
    field_opt _ "message" empty_string (tss_Message p);
    field_opt (Codec_ptr _) "rollout" empty_ptr (tss_Rollout p)]);
  dec := dec_struct (mkTaskStatus zero zero zero (@zero _ int32) (@zero _ (Codec_ptr metaTime)) (@zero _ (Codec_ptr metaTime)) zero (@zero _ (Codec_ptr _)))
    (fields_ret mkTaskStatus <@>
      dec_field _ "name" <@>
      dec_field _ "taskRunRef" <@>
      dec_field _ "phase" <@>
      dec_field int32 "retryCount" <@>
      dec_field (Codec_ptr metaTime) "startTime" <@>
      dec_field (Codec_ptr metaTime) "completionTime" <@>
      dec_field _ "message" <@>
      dec_field (Codec_ptr _) "rollout");
  wf := fun p => @wf _ int32 (tss_RetryCount p) /\ @wf _ (Codec_ptr metaTime) (tss_StartTime p) /\
    @wf _ (Codec_ptr metaTime) (tss_CompletionTime p) /\ @wf _ (Codec_ptr _) (tss_Rollout p);
|}.
#[global] Instance CodecLaws_TaskRunStatusSummary : CodecLaws TaskRunStatusSummary.
Proof. split; [|done]. intros []; cbn [wf]; intros. struct_roundtrip. Qed.

#[global] Instance Codec_StatusUpdatePayload : Codec StatusUpdatePayload := {|
  zero := mkStatusUpdate zero zero zero zero zero (@zero _ (Codec_ptr metaTime)) (@zero _ (Codec_ptr metaTime)) zero;
  enc := fun p => JObj (concat [
    field _ "targetID" (su_TargetID p);
    field _ "pipelineRunName" (su_PipelineRunName p);
    field _ "pipelineRunNamespace" (su_PipelineRunNamespace p);
    field _ "phase" (su_Phase p);
    field_opt _ "message" empty_string (su_Message p);
    field_opt (Codec_ptr metaTime) "startTime" empty_ptr (su_StartTime p);
    field_opt (Codec_ptr metaTime) "completionTime" empty_ptr (su_CompletionTime p);
    field_opt _ "tasks" empty_list (su_Tasks p)]);
  dec := dec_struct (mkStatusUpdate zero zero zero zero zero (@zero _ (Codec_ptr metaTime)) (@zero _ (Codec_ptr metaTime)) zero)
    (fields_ret mkStatusUpdate <@>
      dec_field _ "targetID" <@>
      dec_field _ "pipelineRunName" <@>
      dec_field _ "pipelineRunNamespace" <@>
      dec_field _ "phase" <@>
      dec_field _ "message" <@>
      dec_field (Codec_ptr metaTime) "startTime" <@>
      dec_field (Codec_ptr metaTime) "completionTime" <@>
      dec_field _ "tasks");
  wf := fun p => @wf _ (Codec_ptr metaTime) (su_StartTime p) /\
    @wf _ (Codec_ptr metaTime) (su_CompletionTime p) /\ wf (su_Tasks p);
|}.
#[global] Instance CodecLaws_StatusUpdatePayload : CodecLaws StatusUpdatePayload.
Proof. split; [|done]. intros []; cbn [wf]; intros. struct_roundtrip. Qed.

#[global] Instance Codec_LogChunkPayload : Codec LogChunkPayload := {|
  zero := mkLogChunk zero zero zero zero zero;
  enc := fun p => JObj (concat [
    field _ "targetID" (lc_TargetID p);
    field _ "pipelineRunName" (lc_PipelineRunName p);
    field_opt _ "taskName" empty_string (lc_TaskName p);
    field_opt _ "stream" empty_string (lc_Stream p);
    field _ "chunk" (lc_Chunk p)]);
  dec := dec_struct (mkLogChunk zero zero zero zero zero)
    (fields_ret mkLogChunk <@>
      dec_field _ "targetID" <@>
      dec_field _ "pipelineRunName" <@>
      dec_field _ "taskName" <@>
      dec_field _ "stream" <@>
      dec_field _ "chunk");
  wf := fun p => True;
|}.
#[global] Instance CodecLaws_LogChunkPayload : CodecLaws LogChunkPayload.
Proof. split; [|done]. intros []; cbn [wf]; intros. struct_roundtrip. Qed.

End Encoding.
