(* ===== verification/RunStore.v ===== *)
(** The persisted records of the run subsystem ([internal/run/models]) and
    their repositories ([internal/run/repository]).

    A repository method is a computation on the table it queries; the column
    defaults and timestamps gorm applies on INSERT and UPDATE are the [Model]
    instances. *)
From stdpp Require Import base list strings gmap sorting.
From Stdlib Require Import ZArith Lia Ascii.
From S2P Require Import Prelude Common Gorm Json RunnerProto.

Open Scope Z_scope.

(** * Models *)

(** The zero [time.Time]; gorm stamps a timestamp column only when it is zero. *)
Definition time_Zero : Time := -62135596800 * Second.
Definition stamp (now t : Time) : Time := if t =? time_Zero then now else t.
Definition default_str (d s : string) : string := if empty_string s then d else s.

Record PipelineRun := mkPipelineRun {
  run_ID : UUID; run_PipelineID : UUID; run_TargetID : UUID;
  run_OrgID : option UUID; run_EnvironmentID : option UUID;
  run_CRName : string; run_CRNamespace : string;
  run_CommitSHA : string; run_Params : RawJSON; run_PipelineVersion : Z;
  run_Phase : PipelineRunPhase; run_TimeoutSeconds : Z; run_TriggeredBy : string;
  run_TriggerSource : string; run_StartTime : option Time; run_CompletionTime : option Time;
  run_Message : string; run_CreatedAt : Time; run_UpdatedAt : Time }.
#[global] Instance PipelineRun_eta : Eta PipelineRun := fun r =>
  mkPipelineRun (run_ID r) (run_PipelineID r) (run_TargetID r) (run_OrgID r)
    (run_EnvironmentID r) (run_CRName r) (run_CRNamespace r) (run_CommitSHA r) (run_Params r)
    (run_PipelineVersion r) (run_Phase r) (run_TimeoutSeconds r) (run_TriggeredBy r)
    (run_TriggerSource r) (run_StartTime r) (run_CompletionTime r) (run_Message r)
    (run_CreatedAt r) (run_UpdatedAt r).

#[global] Instance PipelineRun_model : Model PipelineRun := {|
  pk := run_ID;
  created := fun id now r => r <| run_ID := id |>
    <| run_Params := if raw_len0 (run_Params r) then RawDoc (JObj []) else run_Params r |>
    <| run_Phase := default_str PipelineRunPending (run_Phase r) |>
    <| run_TriggerSource := default_str "manual" (run_TriggerSource r) |>
    <| run_CreatedAt := stamp now (run_CreatedAt r) |>
    <| run_UpdatedAt := stamp now (run_UpdatedAt r) |>;
  updated := fun now r => r <| run_UpdatedAt := now |>;
  alive := fun _ => true;
  deleted := fun _ _ => None;
  (* create unique index idx_pipeline_runs_cr on (target_id, cr_namespace, cr_name) *)
  clash := fun x r => (run_TargetID x =? run_TargetID r) &&
    String.eqb (run_CRNamespace x) (run_CRNamespace r) &&
    String.eqb (run_CRName x) (run_CRName r);
|}.
#[global] Instance PipelineRun_laws : ModelLaws PipelineRun.
Proof. by split. Qed.

Record TaskRun := mkTaskRun {
  task_ID : UUID; task_PipelineRunID : UUID; task_TaskTemplateID : option UUID;
  task_CRName : string; task_TaskName : string; task_StageName : string;
  task_Type : PipelineTaskType; task_Phase : TaskRunPhase; task_RetryCount : Z;
  task_ExitCode : option Z; task_StartTime : option Time; task_CompletionTime : option Time;
  task_LogsRef : string; task_Message : string; task_CreatedAt : Time; task_UpdatedAt : Time }.
#[global] Instance TaskRun_eta : Eta TaskRun := fun r =>
  mkTaskRun (task_ID r) (task_PipelineRunID r) (task_TaskTemplateID r) (task_CRName r)
    (task_TaskName r) (task_StageName r) (task_Type r) (task_Phase r) (task_RetryCount r)
    (task_ExitCode r) (task_StartTime r) (task_CompletionTime r) (task_LogsRef r)
    (task_Message r) (task_CreatedAt r) (task_UpdatedAt r).

#[global] Instance TaskRun_model : Model TaskRun := {|
  pk := task_ID;
  created := fun id now r => r <| task_ID := id |>
    <| task_Phase := default_str TaskRunPending (task_Phase r) |>
    <| task_CreatedAt := stamp now (task_CreatedAt r) |>
    <| task_UpdatedAt := stamp now (task_UpdatedAt r) |>;
  updated := fun now r => r <| task_UpdatedAt := now |>;
  alive := fun _ => true;
  deleted := fun _ _ => None;
  clash := fun _ _ => false;
|}.
#[global] Instance TaskRun_laws : ModelLaws TaskRun.
Proof. by split. Qed.

Definition DispatchJobState := string.
Definition DispatchJobPending : DispatchJobState := "pending".
Definition DispatchJobDispatching : DispatchJobState := "dispatching".
Definition DispatchJobDispatched : DispatchJobState := "dispatched".
Definition DispatchJobFailed : DispatchJobState := "failed".
Definition DispatchJobDead : DispatchJobState := "dead".
Definition DispatchJobHeld : DispatchJobState := "held".

Record DispatchJob := mkDispatchJob {
  job_ID : UUID; job_PipelineRunID : UUID; job_TargetID : UUID; job_Payload : RawJSON;
  job_State : DispatchJobState; job_Attempts : Z; job_LastError : string;
  job_NextRetryAt : option Time; job_CreatedAt : Time; job_UpdatedAt : Time }.
#[global] Instance DispatchJob_eta : Eta DispatchJob := fun r =>
  mkDispatchJob (job_ID r) (job_PipelineRunID r) (job_TargetID r) (job_Payload r)
    (job_State r) (job_Attempts r) (job_LastError r) (job_NextRetryAt r) (job_CreatedAt r)
    (job_UpdatedAt r).

#[global] Instance DispatchJob_model : Model DispatchJob := {|
  pk := job_ID;
  created := fun id now r => r <| job_ID := id |>
    <| job_State := default_str DispatchJobPending (job_State r) |>
    <| job_CreatedAt := stamp now (job_CreatedAt r) |>
    <| job_UpdatedAt := stamp now (job_UpdatedAt r) |>;
  updated := fun now r => r <| job_UpdatedAt := now |>;
  alive := fun _ => true;
  deleted := fun _ _ => None;
  clash := fun _ _ => false;
|}.
#[global] Instance DispatchJob_laws : ModelLaws DispatchJob.
Proof. by split. Qed.

Record PipelineApproval := mkPipelineApproval {
  appr_ID : UUID; appr_OrgID : UUID; appr_RunID : UUID; appr_TaskRunID : option UUID;
  appr_ComponentID : UUID; appr_PipelineID : UUID; appr_Status : string;
  appr_RequestedBy : string; appr_Approver : string; appr_Assignee : string;
  appr_DecisionComment : string; appr_CreatedAt : Time; appr_DecidedAt : option Time }.
#[global] Instance PipelineApproval_eta : Eta PipelineApproval := fun r =>
  mkPipelineApproval (appr_ID r) (appr_OrgID r) (appr_RunID r) (appr_TaskRunID r)
    (appr_ComponentID r) (appr_PipelineID r) (appr_Status r) (appr_RequestedBy r)
    (appr_Approver r) (appr_Assignee r) (appr_DecisionComment r) (appr_CreatedAt r)
    (appr_DecidedAt r).

#[global] Instance PipelineApproval_model : Model PipelineApproval := {|
  pk := appr_ID;
  created := fun id now r => r <| appr_ID := id |>
    <| appr_CreatedAt := stamp now (appr_CreatedAt r) |>;
  updated := fun _ r => r;
  alive := fun _ => true;
  deleted := fun _ _ => None;
  clash := fun _ _ => false;
|}.
#[global] Instance PipelineApproval_laws : ModelLaws PipelineApproval.
Proof. by split. Qed.

Record ApprovalPolicy := mkApprovalPolicy {
  pol_ID : UUID; pol_ComponentID : UUID; pol_EnvironmentID : option UUID; pol_Mode : string;
  pol_MinApprovals : Z; pol_Assignees : string; pol_TimeoutSeconds : Z;
  pol_CreatedBy : string; pol_CreatedAt : Time; pol_UpdatedAt : Time }.
#[global] Instance ApprovalPolicy_eta : Eta ApprovalPolicy := fun r =>
  mkApprovalPolicy (pol_ID r) (pol_ComponentID r) (pol_EnvironmentID r) (pol_Mode r)
    (pol_MinApprovals r) (pol_Assignees r) (pol_TimeoutSeconds r) (pol_CreatedBy r)
    (pol_CreatedAt r) (pol_UpdatedAt r).

#[global] Instance ApprovalPolicy_model : Model ApprovalPolicy := {|
  pk := pol_ID;
  created := fun id now r => r <| pol_ID := id |>
    <| pol_Mode := default_str "any" (pol_Mode r) |>
    <| pol_MinApprovals := if pol_MinApprovals r =? 0 then 1 else pol_MinApprovals r |>
    <| pol_CreatedAt := stamp now (pol_CreatedAt r) |>
    <| pol_UpdatedAt := stamp now (pol_UpdatedAt r) |>;
  updated := fun now r => r <| pol_UpdatedAt := now |>;
  alive := fun _ => true;
  deleted := fun _ _ => None;
  clash := fun _ _ => false;
|}.
#[global] Instance ApprovalPolicy_laws : ModelLaws ApprovalPolicy.
Proof. by split. Qed.

(** [ValidApprovalMode]. *)
Definition ValidApprovalMode (m : string) : bool :=
  String.eqb m "any" || String.eqb m "all" || String.eqb m "n".

Record RolloutRun := mkRolloutRun {
  rr_ID : UUID; rr_TaskRunID : UUID; rr_WorkloadRef : string; rr_Phase : RolloutPhase;
  rr_CurrentStepIndex : Z; rr_CurrentWeight : Z; rr_StepHistory : RawJSON;
  rr_StartTime : option Time; rr_CompletionTime : option Time }.
#[global] Instance RolloutRun_eta : Eta RolloutRun := fun r =>
  mkRolloutRun (rr_ID r) (rr_TaskRunID r) (rr_WorkloadRef r) (rr_Phase r)
    (rr_CurrentStepIndex r) (rr_CurrentWeight r) (rr_StepHistory r) (rr_StartTime r)
    (rr_CompletionTime r).

#[global] Instance RolloutRun_model : Model RolloutRun := {|
  pk := rr_ID;
  created := fun id _ r => r <| rr_ID := id |>
    <| rr_Phase := default_str RolloutProgressing (rr_Phase r) |>;
  updated := fun _ r => r;
  alive := fun _ => true;
  deleted := fun _ _ => None;
  clash := fun _ _ => false;
|}.
#[global] Instance RolloutRun_laws : ModelLaws RolloutRun.
Proof. by split. Qed.

Record TaskRunLog := mkTaskRunLog {
  log_ID : UUID; log_PipelineRunID : UUID; log_TaskName : string; log_Stream : string;
  log_Chunk : string; log_CreatedAt : Time }.
#[global] Instance TaskRunLog_eta : Eta TaskRunLog := fun r =>
  mkTaskRunLog (log_ID r) (log_PipelineRunID r) (log_TaskName r) (log_Stream r) (log_Chunk r)
    (log_CreatedAt r).

#[global] Instance TaskRunLog_model : Model TaskRunLog := {|
  pk := log_ID;
  created := fun id now r => r <| log_ID := id |>
    <| log_CreatedAt := stamp now (log_CreatedAt r) |>;
  updated := fun _ r => r;
  alive := fun _ => true;
  deleted := fun _ _ => None;
  clash := fun _ _ => false;
|}.
#[global] Instance TaskRunLog_laws : ModelLaws TaskRunLog.
Proof. by split. Qed.

(** [datatypes.JSON([]byte("[]"))]. *)
Definition empty_array_doc : RawJSON := RawDoc (JArr []).

Definition RunLevelLogBucket : string := "__run__".

(** [models.TriggerRequest], the body of POST /pipelines/:id/runs. *)
Record TriggerRequest := mkTriggerRequest {
  tq_TargetID : option UUID; tq_TargetIDs : list UUID; tq_TargetNamespace : string;
  tq_RepoURL : string; tq_RepoRef : string; tq_RepoPath : string; tq_Params : list Param;
  tq_CommitSHA : string; tq_TimeoutSeconds : Z; tq_TriggeredBy : string;
  tq_TriggerSource : string }.
#[global] Instance TriggerRequest_eta : Eta TriggerRequest := fun r =>
  mkTriggerRequest (tq_TargetID r) (tq_TargetIDs r) (tq_TargetNamespace r) (tq_RepoURL r)
    (tq_RepoRef r) (tq_RepoPath r) (tq_Params r) (tq_CommitSHA r) (tq_TimeoutSeconds r)
    (tq_TriggeredBy r) (tq_TriggerSource r).

(** * Repositories *)

Section Repository.
Context `{G : Gorm}.

(** A gorm error value: [err] when the statement failed, [nil] otherwise. *)
Definition err_of {A} (r : Result A) : option GoError :=
  match r with Ok _ => None | Err e => Some e end.

(** [common.Repository[T].List] under a scope. *)
Definition Repository_List {R} `{Model R} (p : Pagination) (q : Query R)
  : M (Table R) (Result (list R * Z)) :=
  try* total := db_Count (q_where q) in
  try* entities := db_Find (OffsetQ (Offset p) (LimitQ (Limit p) q)) in
  ret (Ok (entities, total)).

(** [common.Repository[T].GetByID]. *)
Definition Repository_GetByID {R} `{Model R} (id : UUID) : M (Table R) (Result R) :=
  db_First (Where (fun r => pk r =? id)).
End Repository.

Module PipelineRunRepository.
Section Repo.
Context `{G : Gorm}.

Definition Create (now : Time) (r : PipelineRun) : M (Table PipelineRun) (Result PipelineRun) :=
  db_Create now r.
Definition GetByID (id : UUID) : M (Table PipelineRun) (Result PipelineRun) :=
  Repository_GetByID id.
Definition Update (now : Time) (r : PipelineRun) : M (Table PipelineRun) (Result PipelineRun) :=
  db_Save now r.

Definition FindByPipelineID (pipelineID : UUID) (p : Pagination)
  : M (Table PipelineRun) (Result (list PipelineRun * Z)) :=
  Repository_List p (Order [fun r => - run_CreatedAt r]
    (Where (fun r => run_PipelineID r =? pipelineID))).

(** [Scan(&pid)] leaves [pid] zero when no row matches. *)
Definition PipelineIDOf (runID : UUID) : M (Table PipelineRun) (Result UUID) :=
  try* l := db_Find (Where (fun r => run_ID r =? runID)) in
  ret (Ok (match l with r :: _ => run_PipelineID r | [] => uuid_Nil end)).

Definition GetByCRNameTarget (crName : string) (targetID : UUID)
  : M (Table PipelineRun) (Result PipelineRun) :=
  db_First (Where (fun r => String.eqb (run_CRName r) crName && (run_TargetID r =? targetID))).

Definition CountByPipeline (pipelineID : UUID) : M (Table PipelineRun) (Result Z) :=
  db_Count (fun r => run_PipelineID r =? pipelineID).

Definition CountActiveByPipeline (pipelineID : UUID) (phases : list string)
  : M (Table PipelineRun) (Result Z) :=
  match phases with
  | [] => ret (Ok 0)
  | _ => db_Count (fun r => (run_PipelineID r =? pipelineID) &&
                            bool_decide (run_Phase r ∈ phases))
  end.

Definition timeout_terminal : list string :=
  ["Succeeded"; "Failed"; "Error"; "Cancelled"; "Canceled"].

(** The WHERE clause of [FindTimedOut]. *)
Definition timed_out (now : Time) (r : PipelineRun) : bool :=
  (0 <? run_TimeoutSeconds r) && negb (bool_decide (run_Phase r ∈ timeout_terminal)) &&
  (default (run_CreatedAt r) (run_StartTime r) + run_TimeoutSeconds r * Second <? now).

Definition FindTimedOut (now : Time) : M (Table PipelineRun) (Result (list PipelineRun)) :=
  db_Find (Where (timed_out now)).

Definition FindQueued (limit : Z) : M (Table PipelineRun) (Result (list PipelineRun)) :=
  db_Find (LimitQ limit (Order [run_CreatedAt]
    (Where (fun r => String.eqb (run_Phase r) "PendingQueue")))).
End Repo.
End PipelineRunRepository.

Module DispatchJobRepository.
Section Repo.
Context `{G : Gorm}.

Definition awaiting (j : DispatchJob) : bool :=
  String.eqb (job_State j) DispatchJobPending || String.eqb (job_State j) DispatchJobFailed.

Definition Create (now : Time) (j : DispatchJob) : M (Table DispatchJob) (Result DispatchJob) :=
  db_Create now j.
Definition GetByID (id : UUID) : M (Table DispatchJob) (Result DispatchJob) :=
  db_First (Where (fun j => job_ID j =? id)).

Definition ListPendingByTarget (targetID : UUID)
  : M (Table DispatchJob) (Result (list DispatchJob)) :=
  db_Find (Order [job_CreatedAt] (Where (fun j => (job_TargetID j =? targetID) && awaiting j))).

(** The SET clauses. *)
Definition claimed (j : DispatchJob) : DispatchJob :=
  j <| job_State := DispatchJobDispatching |> <| job_Attempts := job_Attempts j + 1 |>.
Definition dispatched (j : DispatchJob) : DispatchJob :=
  j <| job_State := DispatchJobDispatched |> <| job_LastError := "" |>
    <| job_NextRetryAt := None |>.
Definition failed (lastErr : string) (nextRetryAt : Time) (j : DispatchJob) : DispatchJob :=
  j <| job_State := DispatchJobFailed |> <| job_LastError := lastErr |>
    <| job_NextRetryAt := Some nextRetryAt |>.
Definition dead (lastErr : string) (j : DispatchJob) : DispatchJob :=
  j <| job_State := DispatchJobDead |> <| job_LastError := lastErr |>
    <| job_NextRetryAt := None |>.

Definition has_id (id : UUID) (j : DispatchJob) : bool := job_ID j =? id.
Definition claimable (id : UUID) (j : DispatchJob) : bool := has_id id j && awaiting j.

(** The claim: a conditional UPDATE whose affected-row count says who won. *)
Definition MarkDispatching (now : Time) (id : UUID) : M (Table DispatchJob) (Result Z) :=
  db_Updates now (claimable id) claimed.

Definition MarkDispatched (now : Time) (id : UUID) : M (Table DispatchJob) (Result Z) :=
  db_Updates now (has_id id) dispatched.

Definition MarkFailed (now : Time) (id : UUID) (lastErr : string) (nextRetryAt : Time)
  : M (Table DispatchJob) (Result Z) :=
  db_Updates now (has_id id) (failed lastErr nextRetryAt).

(** Retires a job whose retries are exhausted. *)
Definition MarkDead (now : Time) (id : UUID) (lastErr : string)
  : M (Table DispatchJob) (Result Z) :=
  db_Updates now (has_id id) (dead lastErr).

(** [next_retry_at <= ?] is not true of NULL. *)
Definition due (now : Time) (j : DispatchJob) : bool :=
  String.eqb (job_State j) DispatchJobFailed &&
  match job_NextRetryAt j with Some t => t <=? now | None => false end.

Definition ListDueRetry (now : Time) : M (Table DispatchJob) (Result (list DispatchJob)) :=
  db_Find (Order [fun j => default 0 (job_NextRetryAt j)] (Where (due now))).

Definition LatestByRun (pipelineRunID : UUID) : M (Table DispatchJob) (Result DispatchJob) :=
  db_First (Order [fun j => - job_CreatedAt j]
    (Where (fun j => job_PipelineRunID j =? pipelineRunID))).

Definition held_of (pipelineRunID : UUID) (j : DispatchJob) : bool :=
  (job_PipelineRunID j =? pipelineRunID) && String.eqb (job_State j) DispatchJobHeld.
Definition released (j : DispatchJob) : DispatchJob := j <| job_State := DispatchJobPending |>.

Definition ReleaseHeld (now : Time) (pipelineRunID : UUID) : M (Table DispatchJob) (Result Z) :=
  db_Updates now (held_of pipelineRunID) released.
End Repo.
End DispatchJobRepository.

Module TaskRunRepository.
Section Repo.
Context `{G : Gorm}.

Definition Upsert (now : Time) (t : TaskRun) : M (Table TaskRun) (Result TaskRun) :=
  db_Save now t.

Definition ListByPipelineRunID (runID : UUID) : M (Table TaskRun) (Result (list TaskRun)) :=
  db_Find (Order [task_CreatedAt] (Where (fun t => task_PipelineRunID t =? runID))).

Definition of_node (runID : UUID) (name : string) (t : TaskRun) : bool :=
  (task_PipelineRunID t =? runID) && String.eqb (task_TaskName t) name.

Definition GetByRunAndTaskName (runID : UUID) (taskName : string)
  : M (Table TaskRun) (Result TaskRun) :=
  db_First (Where (of_node runID taskName)).

Definition keep_time (new old : option Time) : option Time :=
  match new with Some t => Some t | None => old end.

(** The row [SaveStatus] inserts for a node seen for the first time. *)
Definition first_status (runID : UUID) (ts : TaskRunStatusSummary) : TaskRun :=
  mkTaskRun uuid_Nil runID None (tss_TaskRunRef ts) (tss_Name ts) "" "" (tss_Phase ts)
    (tss_RetryCount ts) None (keep_time (tss_StartTime ts) None)
    (keep_time (tss_CompletionTime ts) None) "" (tss_Message ts) time_Zero time_Zero.

(** The row it saves for a known node. *)
Definition merge_status (existing : TaskRun) (ts : TaskRunStatusSummary) : TaskRun :=
  existing <| task_CRName := tss_TaskRunRef ts |>
    <| task_Phase := tss_Phase ts |>
    <| task_RetryCount := tss_RetryCount ts |>
    <| task_Message := tss_Message ts |>
    <| task_StartTime := keep_time (tss_StartTime ts) (task_StartTime existing) |>
    <| task_CompletionTime := keep_time (tss_CompletionTime ts) (task_CompletionTime existing) |>.

(** Any error of the lookup, not only "not found", leads to the INSERT. *)
Definition SaveStatus (now : Time) (runID : UUID) (ts : TaskRunStatusSummary)
  : M (Table TaskRun) (option GoError) :=
  let* r := db_First (Where (of_node runID (tss_Name ts))) in
  match r with
  | Err _ => let* c := db_Create now (first_status runID ts) in ret (err_of c)
  | Ok existing => let* c := db_Save now (merge_status existing ts) in ret (err_of c)
  end.
End Repo.
End TaskRunRepository.

Module TaskRunLogRepository.
Section Repo.
Context `{G : Gorm}.

Definition Append (now : Time) (l : TaskRunLog) : M (Table TaskRunLog) (Result TaskRunLog) :=
  db_Create now l.

Definition ListByRunTask (runID : UUID) (taskName : string) (p : Pagination)
  : M (Table TaskRunLog) (Result (list TaskRunLog * Z)) :=
  Repository_List p (Order [log_CreatedAt; log_ID]
    (Where (fun l => (log_PipelineRunID l =? runID) && String.eqb (log_TaskName l) taskName))).

Definition ListRunTail (runID : UUID) (since : Time) (limit : Z)
  : M (Table TaskRunLog) (Result (list TaskRunLog)) :=
  db_Find (LimitQ limit (Order [log_CreatedAt; log_ID]
    (Where (fun l => (log_PipelineRunID l =? runID) && (since <=? log_CreatedAt l))))).
End Repo.
End TaskRunLogRepository.

(** ** SQL [LIKE] with its default escape character *)

(** Some suffix of [s] satisfies [f]. *)
Fixpoint any_suffix (f : string -> bool) (s : string) : bool :=
  f s || match s with String _ s' => any_suffix f s' | "" => false end.

Definition percent : ascii := "%"%char.
Definition underscore : ascii := "_"%char.
Definition backslash : ascii := "\"%char.

Fixpoint like (pattern s : string) {struct pattern} : bool :=
  match pattern with
  | "" => empty_string s
  | String c p =>
      if Ascii.eqb c percent then any_suffix (like p) s
      else if Ascii.eqb c backslash then
        match p, s with
        | String c' p', String d s' => Ascii.eqb c' d && like p' s'
        | _, _ => false
        end
      else match s with
           | String d s' => (Ascii.eqb c underscore || Ascii.eqb c d) && like p s'
           | "" => false
           end
  end.

Module PipelineApprovalRepository.
Section Repo.
Context `{G : Gorm}.

Definition Create (now : Time) (a : PipelineApproval)
  : M (Table PipelineApproval) (Result PipelineApproval) := db_Create now a.

Definition Update (now : Time) (a : PipelineApproval)
  : M (Table PipelineApproval) (Result PipelineApproval) := db_Save now a.

Definition is_uuid (o : option UUID) (id : UUID) : bool :=
  match o with Some x => x =? id | None => false end.

Definition GetByRunAndTask (runID taskRunID : UUID)
  : M (Table PipelineApproval) (Result PipelineApproval) :=
  db_First (Where (fun a => (appr_RunID a =? runID) && is_uuid (appr_TaskRunID a) taskRunID)).

Definition ListByRun (runID : UUID) : M (Table PipelineApproval) (Result (list PipelineApproval)) :=
  db_Find (Order [appr_CreatedAt] (Where (fun a => appr_RunID a =? runID))).

Definition ListPending (limit : Z) : M (Table PipelineApproval) (Result (list PipelineApproval)) :=
  db_Find (LimitQ limit (Order [appr_CreatedAt]
    (Where (fun a => String.eqb (appr_Status a) "Pending")))).

(** The rows of one approval-center view. *)
Definition in_view (view subject : string) (a : PipelineApproval) : bool :=
  if String.eqb view "pending" then
    String.eqb (appr_Status a) "Pending" &&
    (empty_string subject || empty_string (appr_Assignee a) ||
     like ("%" +:+ dquote +:+ subject +:+ dquote +:+ "%") (appr_Assignee a))
  else if String.eqb view "initiated" then String.eqb (appr_RequestedBy a) subject
  else if String.eqb view "decided" then
    String.eqb (appr_Approver a) subject && negb (String.eqb (appr_Status a) "Pending")
  else true.

Definition ListCenter (view subject : string) (limit : Z)
  : M (Table PipelineApproval) (Result (list PipelineApproval)) :=
  db_Find (LimitQ limit (Order [fun a => - appr_CreatedAt a] (Where (in_view view subject)))).

(** ** Policies *)

Definition in_scope (componentID : UUID) (env : option UUID) (p : ApprovalPolicy) : bool :=
  (pol_ComponentID p =? componentID) &&
  match env with
  | None => match pol_EnvironmentID p with None => true | Some _ => false end
  | Some e => is_uuid (pol_EnvironmentID p) e
  end.

(** [p] as the call leaves it: the inserted row, or untouched when the scope's
    row was there and took its columns. *)
Definition UpsertPolicy (now : Time) (p : ApprovalPolicy)
  : M (Table ApprovalPolicy) (Result ApprovalPolicy) :=
  let* r := db_First (Where (in_scope (pol_ComponentID p) (pol_EnvironmentID p))) in
  match r with
  | Ok existing =>
      try* _ := db_Save now (existing <| pol_Mode := pol_Mode p |>
        <| pol_MinApprovals := pol_MinApprovals p |> <| pol_Assignees := pol_Assignees p |>
        <| pol_TimeoutSeconds := pol_TimeoutSeconds p |>) in
      ret (Ok p)
  | Err e =>
      if decide (e = ErrRecordNotFound) then db_Create now p else ret (Err e)
  end.

(** [ORDER BY environment_id asc]: Postgres puts NULL last. *)
Definition ListPolicies (componentID : UUID)
  : M (Table ApprovalPolicy) (Result (list ApprovalPolicy)) :=
  db_Find (Order [fun p => default (2 ^ 128) (pol_EnvironmentID p)]
    (Where (fun p => pol_ComponentID p =? componentID))).

Definition PolicyFor (componentID environmentID : UUID)
  : M (Table ApprovalPolicy) (Result ApprovalPolicy) :=
  let* r := db_First (Where (in_scope componentID (Some environmentID))) in
  match r with
  | Ok p => ret (Ok p)
  | Err e =>
      if decide (e = ErrRecordNotFound)
      then db_First (Where (in_scope componentID None))
      else ret (Err e)
  end.
End Repo.
End PipelineApprovalRepository.

Module RolloutRunRepository.
Section Repo.
Context `{G : Gorm}.

Definition Create (now : Time) (m : RolloutRun) : M (Table RolloutRun) (Result RolloutRun) :=
  db_Create now m.
Definition GetByID (id : UUID) : M (Table RolloutRun) (Result RolloutRun) :=
  db_First (Where (fun m => rr_ID m =? id)).
Definition Update (now : Time) (m : RolloutRun) : M (Table RolloutRun) (Result RolloutRun) :=
  db_Save now m.
Definition Delete (now : Time) (id : UUID) : M (Table RolloutRun) (Result Z) :=
  db_Delete now (fun m => rr_ID m =? id).

(** [task_run_id IN (SELECT id FROM task_runs WHERE pipeline_run_id = ?)];
    [tasks] are the rows of [task_runs] the statement sees. *)
Definition of_run (tasks : list TaskRun) (pipelineRunID : option UUID) (m : RolloutRun) : bool :=
  match pipelineRunID with
  | None => true
  | Some rid => existsb (fun t => (task_PipelineRunID t =? rid) && (task_ID t =? rr_TaskRunID m))
                  tasks
  end.

Definition List (tasks : list TaskRun) (p : Pagination) (pipelineRunID : option UUID)
    (phase : string) : M (Table RolloutRun) (Result (list RolloutRun * Z)) :=
  Repository_List p (Order [fun m => - rr_ID m]
    (Where (fun m => of_run tasks pipelineRunID m &&
                     (empty_string phase || String.eqb (rr_Phase m) phase)))).

Definition isTerminalRolloutPhase (p : RolloutPhase) : bool :=
  String.eqb p RolloutHealthy || String.eqb p RolloutDegraded || String.eqb p RolloutRollingBack.

(** ** The step history, a JSON array of objects read through [any] *)

(** A number read into [any] is a float64: integers of at most 53 bits are
    exact, larger ones are rounded to even. *)
Definition float64_of_Z (z : Z) : Z :=
  let a := Z.abs z in
  if a <? 2 ^ 53 then z
  else let e := Z.log2 a - 52 in
       let q := a / 2 ^ e in
       let r := a mod 2 ^ e in
       let q := if (2 ^ (e - 1) <? r) || ((r =? 2 ^ (e - 1)) && Z.odd q) then q + 1 else q in
       Z.sgn z * (q * 2 ^ e).

(** Map keys are unique and come out sorted. *)
Definition any_keys (kvs : list (string * json)) : list (string * json) :=
  merge_sort (fun a b => String.le a.1 b.1)
    (map_to_list (list_to_map (rev kvs) : gmap string json)).

Fixpoint any_value (v : json) : json :=
  match v with
  | JNum z => JNum (float64_of_Z z)
  | JArr l => JArr (any_value <$> l)
  | JObj kvs => JObj (any_keys ((fun kv => (kv.1, any_value kv.2)) <$> kvs))
  | v => v
  end.

(** [json.Unmarshal(row.StepHistory, &hist)] with its error dropped: an entry
    that is not an object stays a nil map. *)
Definition decode_history (raw : RawJSON) : list json :=
  match raw with
  | RawDoc (JArr l) => (fun v => match v with JObj _ => any_value v | _ => JNull end) <$> l
  | _ => []
  end.

(** The appended entry; [at_text] is [at.Format(time.RFC3339)]. *)
Definition history_entry (at_text : string) (ts : RolloutStatusSummary) : json :=
  JObj [("at", JStr at_text); ("phase", JStr (rs_Phase ts)); ("weight", JNum (rs_CurrentWeight ts))].

Definition append_history (at_text : string) (ts : RolloutStatusSummary) (raw : RawJSON) : RawJSON :=
  RawDoc (JArr (decode_history raw ++ [history_entry at_text ts])).

Definition first_snapshot (taskRunID : UUID) (ts : RolloutStatusSummary) (at_ : Time) : RolloutRun :=
  mkRolloutRun uuid_Nil taskRunID (rs_WorkloadRef ts) (rs_Phase ts) (rs_CurrentStepIndex ts)
    (rs_CurrentWeight ts) empty_array_doc (Some at_) None.

Definition merge_snapshot (row : RolloutRun) (ts : RolloutStatusSummary) (at_ : Time) : RolloutRun :=
  let row := row <| rr_Phase := rs_Phase ts |>
    <| rr_CurrentStepIndex := rs_CurrentStepIndex ts |>
    <| rr_CurrentWeight := rs_CurrentWeight ts |> in
  let row := if empty_string (rs_WorkloadRef ts) then row
             else row <| rr_WorkloadRef := rs_WorkloadRef ts |> in
  if isTerminalRolloutPhase (rs_Phase ts) &&
     match rr_CompletionTime row with None => true | Some _ => false end
  then row <| rr_CompletionTime := Some at_ |> else row.

Definition UpsertSnapshot (now : Time) (at_text : string) (taskRunID : UUID)
    (ts : RolloutStatusSummary) (at_ : Time) : M (Table RolloutRun) (Result unit) :=
  db_Transaction (
    let* r := db_First (Where (fun m => rr_TaskRunID m =? taskRunID)) in
    try* row := match r with
      | Ok row => db_Save now (merge_snapshot row ts at_)
      | Err e => if errors_Is e ErrRecordNotFound
                 then db_Create now (first_snapshot taskRunID ts at_)
                 else ret (Err e)
      end in
    try* _ := db_Updates now (fun m => rr_ID m =? rr_ID row)
      (fun m => m <| rr_StepHistory := append_history at_text ts (rr_StepHistory row) |>) in
    ret (Ok tt)).
End Repo.
End RolloutRunRepository.
