(* ===== verification/PipelineStore.v ===== *)
(** Pipeline definitions: the persisted records of [internal/pipeline/models]
    and their repositories ([internal/pipeline/repository]).

    The three definition tables embed [common.Base] and are soft-deleted; their
    unique indexes only see live rows.  A row with several tags for the same
    index conflicts when all the columns agree. *)
From stdpp Require Import base list strings gmap sorting.
From Stdlib Require Import ZArith Lia Ascii.
From S2P Require Import Prelude Common Gorm Json RunnerProto RunStore.

Open Scope Z_scope.

(** * Models *)

Record Pipeline := mkPipeline {
  pl_ID : UUID; pl_CreatedAt : Time; pl_UpdatedAt : Time; pl_DeletedAt : option Time;
  pl_ComponentID : UUID; pl_Name : string; pl_Kind : string; pl_Description : string;
  pl_CreatedBy : string; pl_Version : Z; pl_ConcurrencyPolicy : string; pl_Params : RawJSON }.
#[global] Instance Pipeline_eta : Eta Pipeline := fun r =>
  mkPipeline (pl_ID r) (pl_CreatedAt r) (pl_UpdatedAt r) (pl_DeletedAt r) (pl_ComponentID r)
    (pl_Name r) (pl_Kind r) (pl_Description r) (pl_CreatedBy r) (pl_Version r)
    (pl_ConcurrencyPolicy r) (pl_Params r).

Definition ConcurrencyAllow : string := "allow".
Definition ConcurrencyQueue : string := "queue".
Definition ConcurrencyForbid : string := "forbid".

Definition live (d : option Time) : bool := match d with None => true | Some _ => false end.
Definition default_Z (d z : Z) : Z := if z =? 0 then d else z.

#[global] Instance Pipeline_model : Model Pipeline := {|
  pk := pl_ID;
  created := fun id now r => r <| pl_ID := id |>
    <| pl_Kind := default_str "custom" (pl_Kind r) |>
    <| pl_Version := default_Z 1 (pl_Version r) |>
    <| pl_ConcurrencyPolicy := default_str ConcurrencyAllow (pl_ConcurrencyPolicy r) |>
    <| pl_CreatedAt := stamp now (pl_CreatedAt r) |>
    <| pl_UpdatedAt := stamp now (pl_UpdatedAt r) |>;
  updated := fun now r => r <| pl_UpdatedAt := now |>;
  alive := fun r => live (pl_DeletedAt r);
  deleted := fun now r => Some (r <| pl_DeletedAt := Some now |>);
  clash := fun x r => live (pl_DeletedAt x) && live (pl_DeletedAt r) &&
    (pl_ComponentID x =? pl_ComponentID r) && String.eqb (pl_Name x) (pl_Name r);
|}.
#[global] Instance Pipeline_laws : ModelLaws Pipeline.
Proof. by split. Qed.

(** [models.ParamDecl]. *)
Record ParamDecl := mkParamDecl {
  pd_Name : string; pd_Type : string; pd_Default : string; pd_Required : bool;
  pd_Options : list string; pd_Description : string }.

#[global] Instance Codec_ParamDecl : Codec ParamDecl := {|
  zero := mkParamDecl "" "" "" false [] "";
  enc := fun p => JObj (concat [
    field _ "name" (pd_Name p); field _ "type" (pd_Type p);
    field_opt _ "default" empty_string (pd_Default p);
    field_opt _ "required" empty_bool (pd_Required p);
    field_opt _ "options" empty_list (pd_Options p);
    field_opt _ "description" empty_string (pd_Description p)]);
  dec := dec_struct (mkParamDecl "" "" "" false [] "")
    (fields_ret mkParamDecl <@> dec_field _ "name" <@> dec_field _ "type" <@>
      dec_field _ "default" <@> dec_field _ "required" <@> dec_field _ "options" <@>
      dec_field _ "description");
  wf := fun _ => True;
|}.
#[global] Instance CodecLaws_ParamDecl : CodecLaws ParamDecl.
Proof. split; [|done]. intros [] _. struct_roundtrip. Qed.

(** [DecodeParamDecls]: the error of [json.Unmarshal] is dropped, what it
    decoded before is kept. *)
Definition DecodeParamDecls (raw : RawJSON) : list ParamDecl :=
  if raw_len0 raw then [] else (Unmarshal raw).1.

Definition ExecutionModeParallel : string := "parallel".
Definition ExecutionModeSerial : string := "serial".
Definition IsValidExecutionMode (m : string) : bool :=
  String.eqb m ExecutionModeParallel || String.eqb m ExecutionModeSerial.

Record PipelineStage := mkPipelineStage {
  st_ID : UUID; st_CreatedAt : Time; st_UpdatedAt : Time; st_DeletedAt : option Time;
  st_PipelineID : UUID; st_Name : string; st_Sequence : Z; st_ExecutionMode : string }.
#[global] Instance PipelineStage_eta : Eta PipelineStage := fun r =>
  mkPipelineStage (st_ID r) (st_CreatedAt r) (st_UpdatedAt r) (st_DeletedAt r)
    (st_PipelineID r) (st_Name r) (st_Sequence r) (st_ExecutionMode r).

#[global] Instance PipelineStage_model : Model PipelineStage := {|
  pk := st_ID;
  created := fun id now r => r <| st_ID := id |>
    <| st_ExecutionMode := default_str ExecutionModeParallel (st_ExecutionMode r) |>
    <| st_CreatedAt := stamp now (st_CreatedAt r) |>
    <| st_UpdatedAt := stamp now (st_UpdatedAt r) |>;
  updated := fun now r => r <| st_UpdatedAt := now |>;
  alive := fun r => live (st_DeletedAt r);
  deleted := fun now r => Some (r <| st_DeletedAt := Some now |>);
  clash := fun x r => live (st_DeletedAt x) && live (st_DeletedAt r) &&
    (st_PipelineID x =? st_PipelineID r) && (st_Sequence x =? st_Sequence r);
|}.
#[global] Instance PipelineStage_laws : ModelLaws PipelineStage.
Proof. by split. Qed.

Record PipelineTaskTemplate := mkPipelineTaskTemplate {
  tpl_ID : UUID; tpl_CreatedAt : Time; tpl_UpdatedAt : Time; tpl_DeletedAt : option Time;
  tpl_StageID : UUID; tpl_Name : string; tpl_Type : PipelineTaskType; tpl_DisplayOrder : Z;
  tpl_Image : string; tpl_ScriptPath : string; tpl_ScriptArgs : RawJSON; tpl_Command : RawJSON;
  tpl_Args : RawJSON; tpl_Produces : RawJSON; tpl_Consumes : RawJSON;
  tpl_ReleaseConfig : RawJSON; tpl_RolloutConfig : RawJSON; tpl_ApprovalConfig : RawJSON;
  tpl_RetryPolicy : RawJSON; tpl_TimeoutSeconds : Z; tpl_Privileged : bool }.
#[global] Instance PipelineTaskTemplate_eta : Eta PipelineTaskTemplate := fun r =>
  mkPipelineTaskTemplate (tpl_ID r) (tpl_CreatedAt r) (tpl_UpdatedAt r) (tpl_DeletedAt r)
    (tpl_StageID r) (tpl_Name r) (tpl_Type r) (tpl_DisplayOrder r) (tpl_Image r)
    (tpl_ScriptPath r) (tpl_ScriptArgs r) (tpl_Command r) (tpl_Args r) (tpl_Produces r)
    (tpl_Consumes r) (tpl_ReleaseConfig r) (tpl_RolloutConfig r) (tpl_ApprovalConfig r)
    (tpl_RetryPolicy r) (tpl_TimeoutSeconds r) (tpl_Privileged r).

Definition empty_array : RawJSON := RawDoc (JArr []).
Definition default_retry : RawJSON := RawDoc (JObj [("maxRetries", JNum 0)]).
Definition default_raw (d r : RawJSON) : RawJSON := if raw_len0 r then d else r.

#[global] Instance PipelineTaskTemplate_model : Model PipelineTaskTemplate := {|
  pk := tpl_ID;
  created := fun id now r => r <| tpl_ID := id |>
    <| tpl_ScriptArgs := default_raw empty_array (tpl_ScriptArgs r) |>
    <| tpl_Command := default_raw empty_array (tpl_Command r) |>
    <| tpl_Args := default_raw empty_array (tpl_Args r) |>
    <| tpl_Produces := default_raw empty_array (tpl_Produces r) |>
    <| tpl_Consumes := default_raw empty_array (tpl_Consumes r) |>
    <| tpl_RetryPolicy := default_raw default_retry (tpl_RetryPolicy r) |>
    <| tpl_CreatedAt := stamp now (tpl_CreatedAt r) |>
    <| tpl_UpdatedAt := stamp now (tpl_UpdatedAt r) |>;
  updated := fun now r => r <| tpl_UpdatedAt := now |>;
  alive := fun r => live (tpl_DeletedAt r);
  deleted := fun now r => Some (r <| tpl_DeletedAt := Some now |>);
  clash := fun x r => live (tpl_DeletedAt x) && live (tpl_DeletedAt r) &&
    (tpl_StageID x =? tpl_StageID r) && String.eqb (tpl_Name x) (tpl_Name r);
|}.
#[global] Instance PipelineTaskTemplate_laws : ModelLaws PipelineTaskTemplate.
Proof. by split. Qed.

(** * Repositories *)

Module PipelineRepository.
Section Repo.
Context `{G : Gorm}.

Definition GetByID (id : UUID) : M (Table Pipeline) (Result Pipeline) := Repository_GetByID id.
Definition Create (now : Time) (p : Pipeline) : M (Table Pipeline) (Result Pipeline) :=
  db_Create now p.
Definition Update (now : Time) (p : Pipeline) : M (Table Pipeline) (Result Pipeline) :=
  db_Save now p.
Definition Delete (now : Time) (id : UUID) : M (Table Pipeline) (Result Z) :=
  db_Delete now (fun p => pl_ID p =? id).

Definition FindByComponentID (componentID : UUID) (p : Pagination)
  : M (Table Pipeline) (Result (list Pipeline * Z)) :=
  Repository_List p (Where (fun r => pl_ComponentID r =? componentID)).
End Repo.
End PipelineRepository.

Module StageRepository.
Section Repo.
Context `{G : Gorm}.

Definition GetByID (id : UUID) : M (Table PipelineStage) (Result PipelineStage) :=
  Repository_GetByID id.
Definition Create (now : Time) (s : PipelineStage)
  : M (Table PipelineStage) (Result PipelineStage) := db_Create now s.
Definition Update (now : Time) (s : PipelineStage)
  : M (Table PipelineStage) (Result PipelineStage) := db_Save now s.
Definition Delete (now : Time) (id : UUID) : M (Table PipelineStage) (Result Z) :=
  db_Delete now (fun s => st_ID s =? id).
Definition ListByPipelineID (pipelineID : UUID)
  : M (Table PipelineStage) (Result (list PipelineStage)) :=
  db_Find (Order [st_Sequence] (Where (fun s => st_PipelineID s =? pipelineID))).
End Repo.
End StageRepository.

Module TaskTemplateRepository.
Section Repo.
Context `{G : Gorm}.

Definition GetByID (id : UUID) : M (Table PipelineTaskTemplate) (Result PipelineTaskTemplate) :=
  Repository_GetByID id.
Definition Create (now : Time) (t : PipelineTaskTemplate)
  : M (Table PipelineTaskTemplate) (Result PipelineTaskTemplate) := db_Create now t.
Definition Update (now : Time) (t : PipelineTaskTemplate)
  : M (Table PipelineTaskTemplate) (Result PipelineTaskTemplate) := db_Save now t.
Definition Delete (now : Time) (id : UUID) : M (Table PipelineTaskTemplate) (Result Z) :=
  db_Delete now (fun t => tpl_ID t =? id).
Definition ListByStageID (stageID : UUID)
  : M (Table PipelineTaskTemplate) (Result (list PipelineTaskTemplate)) :=
  db_Find (Order [tpl_DisplayOrder] (Where (fun t => tpl_StageID t =? stageID))).
Definition DeleteByStageID (now : Time) (stageID : UUID)
  : M (Table PipelineTaskTemplate) (Result Z) :=
  db_Delete now (fun t => tpl_StageID t =? stageID).
End Repo.
End TaskTemplateRepository.
