(* ===== verification/TargetStore.v ===== *)
(** The target registry ([internal/target/models/target.go],
    [internal/target/repository/target.go], [internal/target/service/target.go],
    [internal/target/service/credential.go]): registration, heartbeats and the
    one-time enrollment tokens the gateway authenticates Runners with.

    [crypto/rand] is outside the repository: the bytes a call obtains, already
    hex-encoded, are an argument. *)
From stdpp Require Import base list strings gmap sorting.
From Stdlib Require Import ZArith Lia Ascii.
From S2P Require Import Prelude Common Gorm Json RunnerProto RunStore.

Open Scope Z_scope.

Record Target := mkTarget {
  tg_ID : UUID; tg_CreatedAt : Time; tg_UpdatedAt : Time; tg_Name : string;
  tg_Vendor : string; tg_Region : string; tg_TargetKind : string; tg_Status : string;
  tg_AgentVersion : string; tg_LastHeartbeatAt : option Time; tg_EnrollToken : option string;
  tg_EnrollTokenExpireAt : option Time; tg_RunnerCredential : option string;
  tg_AccessMode : string; tg_CredentialRef : option string }.
#[global] Instance Target_eta : Eta Target := fun r =>
  mkTarget (tg_ID r) (tg_CreatedAt r) (tg_UpdatedAt r) (tg_Name r) (tg_Vendor r)
    (tg_Region r) (tg_TargetKind r) (tg_Status r) (tg_AgentVersion r) (tg_LastHeartbeatAt r)
    (tg_EnrollToken r) (tg_EnrollTokenExpireAt r) (tg_RunnerCredential r) (tg_AccessMode r)
    (tg_CredentialRef r).

Definition TargetStatusOnline : string := "online".
Definition TargetStatusOffline : string := "offline".
Definition TargetKindK8s : string := "k8s".
Definition TargetKindHost : string := "host".
Definition TargetAccessModeAgent : string := "agent".
Definition TargetAccessModeKubeconfig : string := "kubeconfig".
Definition TargetAccessModeSSH : string := "ssh".

(** Hard-deleted ([common.BaseNoSoftDelete]); the name is unique. *)
#[global] Instance Target_model : Model Target := {|
  pk := tg_ID;
  created := fun id now r => r <| tg_ID := id |>
    <| tg_TargetKind := default_str TargetKindK8s (tg_TargetKind r) |>
    <| tg_Status := default_str TargetStatusOffline (tg_Status r) |>
    <| tg_AccessMode := default_str TargetAccessModeAgent (tg_AccessMode r) |>
    <| tg_CreatedAt := stamp now (tg_CreatedAt r) |>
    <| tg_UpdatedAt := stamp now (tg_UpdatedAt r) |>;
  updated := fun now r => r <| tg_UpdatedAt := now |>;
  alive := fun _ => true;
  deleted := fun _ _ => None;
  clash := fun x r => String.eqb (tg_Name x) (tg_Name r);
|}.
#[global] Instance Target_laws : ModelLaws Target.
Proof. by split. Qed.

(** [repository.ErrEnrollTokenInvalid] and [service.ErrEnrollTokenInvalid] are
    distinct values with the same text; only the service's one is returned. *)
Definition ErrEnrollTokenInvalid : GoError :=
  ESentinel "enroll token invalid or already used".

Module TargetRepository.
Section Repo.
Context `{G : Gorm}.

Definition GetByID (id : UUID) : M (Table Target) (Result Target) := Repository_GetByID id.
Definition Create (now : Time) (t : Target) : M (Table Target) (Result Target) := db_Create now t.
Definition Update (now : Time) (t : Target) : M (Table Target) (Result Target) := db_Save now t.
Definition List (p : Pagination) : M (Table Target) (Result (list Target * Z)) :=
  Repository_List p (Where (fun _ => true)).

Definition GetByName (name : string) : M (Table Target) (Result Target) :=
  db_First (Where (fun t => String.eqb (tg_Name t) name)).

(** [column = ?] on a nullable column. *)
Definition eq_col (c : option string) (s : string) : bool :=
  match c with Some x => String.eqb x s | None => false end.

Definition GetByCredential (cred : string) : M (Table Target) (Result Target) :=
  db_First (Where (fun t => eq_col (tg_RunnerCredential t) cred)).

(** The WHERE clause of the burning UPDATE. *)
Definition burnable (now : Time) (id : UUID) (token expectName : string) (t : Target) : bool :=
  (tg_ID t =? id) && eq_col (tg_EnrollToken t) token &&
  match tg_EnrollTokenExpireAt t with Some e => now <? e | None => false end &&
  (empty_string expectName || String.eqb (tg_Name t) expectName).

Definition burn (credential : string) (t : Target) : Target :=
  t <| tg_EnrollToken := None |> <| tg_EnrollTokenExpireAt := None |>
    <| tg_RunnerCredential := Some credential |>.

Definition BurnEnrollToken (now : Time) (token credential expectName : string)
  : M (Table Target) (Result Target) :=
  db_Transaction (
    try* tg := db_First (Where (fun t => eq_col (tg_EnrollToken t) token)) in
    try* affected := db_Updates now (burnable now (tg_ID tg) token expectName)
                       (burn credential) in
    if affected =? 0 then ret (Err ErrEnrollTokenInvalid)
    else db_First (Where (fun t => tg_ID t =? tg_ID tg))).
End Repo.
End TargetRepository.

Module TargetService.
Section Service.
Context `{G : Gorm}.

(** The access-mode contract; also the default it writes into the row. *)
Definition validateAccessMode (tg : Target) : Result Target :=
  let tg := if empty_string (tg_AccessMode tg)
            then tg <| tg_AccessMode := TargetAccessModeAgent |> else tg in
  let m := tg_AccessMode tg in
  if negb (String.eqb m TargetAccessModeAgent || String.eqb m TargetAccessModeKubeconfig ||
           String.eqb m TargetAccessModeSSH)
  then Err (EApi (WithError ErrBadRequest
         (Some (EFmt "invalid access_mode %q (want agent|kubeconfig|ssh)" [AStr m]))))
  else if String.eqb m TargetAccessModeAgent then Ok tg
  else match tg_CredentialRef tg with
       | None | Some "" => Err (EApi (WithError ErrBadRequest
           (Some (EFmt "access_mode %q requires credentialRef" [AStr m]))))
       | Some _ => Ok tg
       end.

Definition Create (now : Time) (tg : Target) : M (Table Target) (Result Target) :=
  match validateAccessMode tg with
  | Err e => ret (Err e)
  | Ok tg => TargetRepository.Create now tg
  end.

Definition Get (id : UUID) : M (Table Target) (Result Target) := TargetRepository.GetByID id.
Definition List (p : Pagination) : M (Table Target) (Result (list Target * Z)) :=
  TargetRepository.List p.

Definition Update (now : Time) (id : UUID) (tg : Target) : M (Table Target) (Result Target) :=
  match validateAccessMode (tg <| tg_ID := id |>) with
  | Err e => ret (Err e)
  | Ok tg => TargetRepository.Update now tg
  end.

Definition Delete (now : Time) (id : UUID) : M (Table Target) (Result Z) :=
  db_Delete now (fun t => tg_ID t =? id).

Definition GetByName (name : string) : M (Table Target) (Result Target) :=
  TargetRepository.GetByName name.

(** Get-or-create; a lost race on the unique name re-reads the winner. *)
Definition Enroll (now : Time) (name vendor region : string) : M (Table Target) (Result Target) :=
  let* r := TargetRepository.GetByName name in
  match r with
  | Ok tg => ret (Ok tg)
  | Err _ =>
      let tg := mkTarget uuid_Nil time_Zero time_Zero name vendor region TargetKindK8s
                  TargetStatusOffline "" None None None None "" None in
      let* c := TargetRepository.Create now tg in
      match c with
      | Ok tg => ret (Ok tg)
      | Err err =>
          let* again := TargetRepository.GetByName name in
          match again with Ok tg => ret (Ok tg) | Err _ => ret (Err err) end
      end
  end.

Definition Heartbeat (now : Time) (id : UUID) (online : bool) : M (Table Target) (Result Target) :=
  try* tg := TargetRepository.GetByID id in
  TargetRepository.Update now
    (tg <| tg_Status := if online then TargetStatusOnline else TargetStatusOffline |>
        <| tg_LastHeartbeatAt := Some now |>).

Definition RecordAgentInfo (now : Time) (id : UUID) (agentVersion : string)
  : M (Table Target) (Result Target) :=
  try* tg := TargetRepository.GetByID id in
  TargetRepository.Update now
    ((if empty_string agentVersion then tg else tg <| tg_AgentVersion := agentVersion |>)
       <| tg_LastHeartbeatAt := Some now |>).

(** [entropy]: what [rand.Read] and [hex.EncodeToString] give. *)
Definition GenerateEnrollToken (now : Time) (entropy : Result string) (id : UUID)
  : M (Table Target) (Result string) :=
  try* tg := TargetRepository.GetByID id in
  match entropy with
  | Err e => ret (Err (EApi (WithError ErrInternal (Some e))))
  | Ok token =>
      try* _ := TargetRepository.Update now
        (tg <| tg_EnrollToken := Some token |>
            <| tg_EnrollTokenExpireAt := Some (now + 24 * Hour) |>) in
      ret (Ok token)
  end.

Definition ConsumeEnrollToken (now : Time) (entropy : Result string) (token expectName : string)
  : M (Table Target) (Result (Target * string)) :=
  if empty_string token then ret (Err ErrEnrollTokenInvalid)
  else match entropy with
  | Err e => ret (Err (EApi (WithError ErrInternal (Some e))))
  | Ok cred =>
      let* r := TargetRepository.BurnEnrollToken now token cred expectName in
      match r with
      | Err _ => ret (Err ErrEnrollTokenInvalid)
      | Ok tg => ret (Ok (tg, cred))
      end
  end.

Definition GetByCredential (cred : string) : M (Table Target) (Result Target) :=
  if empty_string cred then ret (Err ErrEnrollTokenInvalid)
  else TargetRepository.GetByCredential cred.
End Service.
End TargetService.
