(* ===== verification/EditStore.v ===== *)
(** Rows around a pipeline definition and around a target: the recorded
    versions ([internal/pipeline/models/version.go], [repository/version.go])
    and triggers ([models/trigger.go], [repository/trigger.go]) of a pipeline,
    and the ledger of what the hub asked a Runner's agent to do
    ([internal/target/models/agent_op.go], [repository/agent_op.go]). *)
From stdpp Require Import base list strings gmap sorting.
From Stdlib Require Import ZArith Lia Ascii.
From S2P Require Import Prelude Common Gorm Json RunnerProto RunStore PipelineStore.

Open Scope Z_scope.

(** * Versions *)

Record PipelineVersion := mkPipelineVersion {
  ver_ID : UUID; ver_PipelineID : UUID; ver_Version : Z; ver_Snapshot : RawJSON;
  ver_CreatedBy : string; ver_CreatedAt : Time }.
#[global] Instance PipelineVersion_eta : Eta PipelineVersion := fun r =>
  mkPipelineVersion (ver_ID r) (ver_PipelineID r) (ver_Version r) (ver_Snapshot r)
    (ver_CreatedBy r) (ver_CreatedAt r).

#[global] Instance PipelineVersion_model : Model PipelineVersion := {|
  pk := ver_ID;
  created := fun id now r => r <| ver_ID := id |>
    <| ver_CreatedAt := stamp now (ver_CreatedAt r) |>;
  updated := fun _ r => r;
  alive := fun _ => true;
  deleted := fun _ _ => None;
  clash := fun x r => (ver_PipelineID x =? ver_PipelineID r) && (ver_Version x =? ver_Version r);
|}.
#[global] Instance PipelineVersion_laws : ModelLaws PipelineVersion.
Proof. by split. Qed.

Module VersionRepository.
Section Repo.
Context `{G : Gorm}.

Definition Create (now : Time) (v : PipelineVersion)
  : M (Table PipelineVersion) (Result PipelineVersion) := db_Create now v.

Definition ListByPipelineID (pipelineID : UUID) (limit : Z)
  : M (Table PipelineVersion) (Result (list PipelineVersion)) :=
  db_Find (LimitQ limit (Order [fun v => - ver_Version v] (Where (fun v => ver_PipelineID v =? pipelineID)))).

Definition GetByVersion (pipelineID : UUID) (version : Z)
  : M (Table PipelineVersion) (Result PipelineVersion) :=
  db_First (Where (fun v => (ver_PipelineID v =? pipelineID) && (ver_Version v =? version))).

Definition Latest (pipelineID : UUID) : M (Table PipelineVersion) (Result PipelineVersion) :=
  db_First (Order [fun v => - ver_Version v] (Where (fun v => ver_PipelineID v =? pipelineID))).
End Repo.
End VersionRepository.

(** * Triggers *)

Definition TriggerTypeCron : string := "cron".
Definition TriggerTypeWebhook : string := "webhook".
Definition TriggerTypeEvent : string := "event".

Record PipelineTrigger := mkPipelineTrigger {
  trig_ID : UUID; trig_PipelineID : UUID; trig_Name : string; trig_Type : string;
  trig_Enabled : bool; trig_Spec : RawJSON; trig_Token : string;
  trig_LastTriggeredAt : option Time; trig_CreatedBy : string;
  trig_CreatedAt : Time; trig_UpdatedAt : Time }.
#[global] Instance PipelineTrigger_eta : Eta PipelineTrigger := fun r =>
  mkPipelineTrigger (trig_ID r) (trig_PipelineID r) (trig_Name r) (trig_Type r) (trig_Enabled r)
    (trig_Spec r) (trig_Token r) (trig_LastTriggeredAt r) (trig_CreatedBy r) (trig_CreatedAt r)
    (trig_UpdatedAt r).

(** An INSERT leaves columns with a default and a zero value to the database:
    [enabled] is tagged [default:true]. *)
#[global] Instance PipelineTrigger_model : Model PipelineTrigger := {|
  pk := trig_ID;
  created := fun id now r => r <| trig_ID := id |>
    <| trig_Enabled := true |>
    <| trig_Spec := default_raw (RawDoc (JObj [])) (trig_Spec r) |>
    <| trig_CreatedAt := stamp now (trig_CreatedAt r) |>
    <| trig_UpdatedAt := stamp now (trig_UpdatedAt r) |>;
  updated := fun now r => r <| trig_UpdatedAt := now |>;
  alive := fun _ => true;
  deleted := fun _ _ => None;
  clash := fun _ _ => false;
|}.
#[global] Instance PipelineTrigger_laws : ModelLaws PipelineTrigger.
Proof. by split. Qed.

Module TriggerRepository.
Section Repo.
Context `{G : Gorm}.

Definition Create (now : Time) (t : PipelineTrigger)
  : M (Table PipelineTrigger) (Result PipelineTrigger) := db_Create now t.
Definition GetByID (id : UUID) : M (Table PipelineTrigger) (Result PipelineTrigger) :=
  Repository_GetByID id.
Definition Update (now : Time) (t : PipelineTrigger)
  : M (Table PipelineTrigger) (Result PipelineTrigger) := db_Save now t.
Definition Delete (now : Time) (id : UUID) : M (Table PipelineTrigger) (Result Z) :=
  db_Delete now (fun t => trig_ID t =? id).

Definition FindByPipeline (pipelineID : UUID) (p : Pagination)
  : M (Table PipelineTrigger) (Result (list PipelineTrigger * Z)) :=
  Repository_List p (Order [trig_CreatedAt] (Where (fun t => trig_PipelineID t =? pipelineID))).

Definition enabled_type (type : string) (t : PipelineTrigger) : bool :=
  String.eqb (trig_Type t) type && trig_Enabled t.

Definition FindEnabledByType (type : string) : M (Table PipelineTrigger) (Result (list PipelineTrigger)) :=
  db_Find (Where (enabled_type type)).

(** The scheduler's SELECT ... FOR UPDATE SKIP LOCKED.  It runs on [s.db], in a
    transaction of its own, so the rows are unlocked again when it returns. *)
Definition ClaimDueCron : M (Table PipelineTrigger) (Result (list PipelineTrigger)) :=
  db_Find (Where (enabled_type TriggerTypeCron)).

Definition has_trigger_id (id : UUID) (t : PipelineTrigger) : bool := trig_ID t =? id.

Definition UpdateLastTriggered (now : Time) (id : UUID) (at_ : Time)
  : M (Table PipelineTrigger) (option GoError) :=
  let* r := db_Updates now (has_trigger_id id) (fun t => t <| trig_LastTriggeredAt := Some at_ |>) in
  ret (err_of r).
End Repo.
End TriggerRepository.

(** * The ledger of agent operations ([internal/target]) *)

Definition AgentOpExec : string := "exec".
Definition AgentOpInstall : string := "install".
Definition AgentOpUpgrade : string := "upgrade".

Definition AgentOpQueued : string := "queued".
Definition AgentOpPendingApproval : string := "pending_approval".
Definition AgentOpRunning : string := "running".
Definition AgentOpSucceeded : string := "succeeded".
Definition AgentOpFailed : string := "failed".

Definition IsValidAgentOpType (t : string) : bool :=
  String.eqb t AgentOpExec || String.eqb t AgentOpInstall || String.eqb t AgentOpUpgrade.

Definition IsValidAgentOpTransition (from to : string) : bool :=
  if String.eqb from AgentOpPendingApproval then
    String.eqb to AgentOpQueued || String.eqb to AgentOpFailed
  else if String.eqb from AgentOpQueued then
    String.eqb to AgentOpRunning || String.eqb to AgentOpSucceeded || String.eqb to AgentOpFailed
  else if String.eqb from AgentOpRunning then
    String.eqb to AgentOpSucceeded || String.eqb to AgentOpFailed
  else false.

Definition IsTerminalAgentOpStatus (s : string) : bool :=
  String.eqb s AgentOpSucceeded || String.eqb s AgentOpFailed.

Definition IsValidAgentOpStatus (s : string) : bool :=
  String.eqb s AgentOpRunning || String.eqb s AgentOpSucceeded || String.eqb s AgentOpFailed.

Record AgentOp := mkAgentOp {
  op_ID : UUID; op_TargetID : UUID; op_EnvID : option UUID; op_OpType : string; op_Status : string;
  op_Detail : string; op_Message : string;
  op_CreatedAt : Time; op_UpdatedAt : Time; op_DeletedAt : option Time }.
#[global] Instance AgentOp_eta : Eta AgentOp := fun r =>
  mkAgentOp (op_ID r) (op_TargetID r) (op_EnvID r) (op_OpType r) (op_Status r) (op_Detail r)
    (op_Message r) (op_CreatedAt r) (op_UpdatedAt r) (op_DeletedAt r).

#[global] Instance AgentOp_model : Model AgentOp := {|
  pk := op_ID;
  created := fun id now r => r <| op_ID := id |>
    <| op_Status := default_str AgentOpQueued (op_Status r) |>
    <| op_CreatedAt := stamp now (op_CreatedAt r) |>
    <| op_UpdatedAt := stamp now (op_UpdatedAt r) |>;
  updated := fun now r => r <| op_UpdatedAt := now |>;
  alive := fun r => live (op_DeletedAt r);
  deleted := fun now r => Some (r <| op_DeletedAt := Some now |>);
  clash := fun _ _ => false;
|}.
#[global] Instance AgentOp_laws : ModelLaws AgentOp.
Proof. by split. Qed.

Record AgentOpLog := mkAgentOpLog {
  ol_ID : UUID; ol_OpID : UUID; ol_Seq : Z; ol_Stream : string; ol_Chunk : string;
  ol_CreatedAt : Time }.
#[global] Instance AgentOpLog_eta : Eta AgentOpLog := fun r =>
  mkAgentOpLog (ol_ID r) (ol_OpID r) (ol_Seq r) (ol_Stream r) (ol_Chunk r) (ol_CreatedAt r).

#[global] Instance AgentOpLog_model : Model AgentOpLog := {|
  pk := ol_ID;
  created := fun id now r => r <| ol_ID := id |> <| ol_CreatedAt := stamp now (ol_CreatedAt r) |>;
  updated := fun _ r => r;
  alive := fun _ => true;
  deleted := fun _ _ => None;
  clash := fun _ _ => false;
|}.
#[global] Instance AgentOpLog_laws : ModelLaws AgentOpLog.
Proof. by split. Qed.

Module AgentOpRepository.
Section Repo.
Context `{G : Gorm}.

Definition Create (now : Time) (op : AgentOp) : M (Table AgentOp) (Result AgentOp) := db_Create now op.
Definition GetByID (id : UUID) : M (Table AgentOp) (Result AgentOp) :=
  db_First (Where (fun op => op_ID op =? id)).

Definition ListByTarget (targetID : UUID) (p : Pagination)
  : M (Table AgentOp) (Result (list AgentOp * Z)) :=
  try* total := db_Count (fun op => op_TargetID op =? targetID) in
  try* items := db_Find (OffsetQ (wrap64 ((Page p - 1) * PageSize p)) (LimitQ (PageSize p)
    (Order [fun op => - op_CreatedAt op] (Where (fun op => op_TargetID op =? targetID))))) in
  ret (Ok (items, total)).

Definition in_status (id : UUID) (from : string) (op : AgentOp) : bool :=
  (op_ID op =? id) && String.eqb (op_Status op) from.

(** A late report whose [from] no longer holds updates no row and is no error. *)
Definition UpdateStatus (now : Time) (id : UUID) (from to message : string)
  : M (Table AgentOp) (option GoError) :=
  let* r := db_Updates now (in_status id from)
    (fun op => op <| op_Status := to |> <| op_Message := message |>) in
  ret (err_of r).

(** SELECT COALESCE(MAX(seq), 0) over the rows of the op. *)
Definition max_seq (logs : list AgentOpLog) : Z :=
  match logs with
  | [] => 0
  | l :: logs => foldr (fun l m => Z.max (ol_Seq l) m) (ol_Seq l) logs
  end.

Definition AppendLog (now : Time) (opID : UUID) (stream chunk : string)
  : M (Table AgentOpLog) (Result AgentOpLog) :=
  try* logs := db_Find (Where (fun l => ol_OpID l =? opID)) in
  db_Create now (mkAgentOpLog uuid_Nil opID (max_seq logs + 1) stream chunk time_Zero).

Definition ListLogs (opID : UUID) : M (Table AgentOpLog) (Result (list AgentOpLog)) :=
  db_Find (Order [ol_Seq] (Where (fun l => ol_OpID l =? opID))).

Definition of_kind (targetID : UUID) (status opType : string) (op : AgentOp) : bool :=
  (op_TargetID op =? targetID) && String.eqb (op_Status op) status && String.eqb (op_OpType op) opType.

Definition ListQueuedByTarget (targetID : UUID) : M (Table AgentOp) (Result (list AgentOp)) :=
  db_Find (Order [op_CreatedAt] (Where (of_kind targetID AgentOpQueued AgentOpExec))).

Definition ListByTargetStatusType (targetID : UUID) (status opType : string)
  : M (Table AgentOp) (Result (list AgentOp)) :=
  db_Find (Order [op_CreatedAt] (Where (of_kind targetID status opType))).

(** The distinct targets, in the order of their first row. *)
Definition ListTargetsWithRunningUpgrades : M (Table AgentOp) (Result (list UUID)) :=
  try* ops := db_Find (Where (fun op =>
    String.eqb (op_Status op) AgentOpRunning && String.eqb (op_OpType op) AgentOpUpgrade)) in
  ret (Ok (remove_dups (op_TargetID <$> ops))).

Definition ListByStatus (status : string) : M (Table AgentOp) (Result (list AgentOp)) :=
  db_Find (Order [op_CreatedAt] (Where (fun op => String.eqb (op_Status op) status))).
End Repo.
End AgentOpRepository.
