(* ===== verification/OrgStore.v ===== *)
(** The service tree and what hangs off it: organizations, services,
    components and their dependency edges, environments, configuration rows
    and artifacts ([internal/org], [catalog], [component], [environment],
    [artifact]: models and repository).

    The unique indexes are those the models declare, since the tables are
    created from the models; the composite keys of services, components,
    environments and configuration rows exist only in databases built from the
    historical SQL. *)
From stdpp Require Import base list strings gmap sorting.
From Stdlib Require Import ZArith Lia Ascii.
From S2P Require Import Prelude Common Gorm Json GoLib RunnerProto RunStore PipelineStore.

Open Scope Z_scope.

(** * Models *)

Record Org := mkOrg {
  org_ID : UUID; org_CreatedAt : Time; org_UpdatedAt : Time; org_DeletedAt : option Time;
  org_Name : string; org_Slug : string; org_Annotations : RawJSON; org_Quotas : RawJSON }.
#[global] Instance Org_eta : Eta Org := fun r =>
  mkOrg (org_ID r) (org_CreatedAt r) (org_UpdatedAt r) (org_DeletedAt r) (org_Name r)
    (org_Slug r) (org_Annotations r) (org_Quotas r).

(** The index on [slug] also sees deleted rows. *)
#[global] Instance Org_model : Model Org := {|
  pk := org_ID;
  created := fun id now r => r <| org_ID := id |>
    <| org_CreatedAt := stamp now (org_CreatedAt r) |>
    <| org_UpdatedAt := stamp now (org_UpdatedAt r) |>;
  updated := fun now r => r <| org_UpdatedAt := now |>;
  alive := fun r => live (org_DeletedAt r);
  deleted := fun now r => Some (r <| org_DeletedAt := Some now |>);
  clash := fun x r => String.eqb (org_Slug x) (org_Slug r);
|}.
#[global] Instance Org_laws : ModelLaws Org.
Proof. by split. Qed.

Record ServiceTree := mkServiceTree {
  tree_ID : UUID; tree_CreatedAt : Time; tree_UpdatedAt : Time; tree_OrgID : UUID;
  tree_Name : string }.
#[global] Instance ServiceTree_eta : Eta ServiceTree := fun r =>
  mkServiceTree (tree_ID r) (tree_CreatedAt r) (tree_UpdatedAt r) (tree_OrgID r) (tree_Name r).

#[global] Instance ServiceTree_model : Model ServiceTree := {|
  pk := tree_ID;
  created := fun id now r => r <| tree_ID := id |>
    <| tree_Name := default_str "default" (tree_Name r) |>
    <| tree_CreatedAt := stamp now (tree_CreatedAt r) |>
    <| tree_UpdatedAt := stamp now (tree_UpdatedAt r) |>;
  updated := fun now r => r <| tree_UpdatedAt := now |>;
  alive := fun _ => true;
  deleted := fun _ _ => None;
  clash := fun x r => tree_OrgID x =? tree_OrgID r;
|}.
#[global] Instance ServiceTree_laws : ModelLaws ServiceTree.
Proof. by split. Qed.

Record Service := mkService {
  svc_ID : UUID; svc_CreatedAt : Time; svc_UpdatedAt : Time; svc_DeletedAt : option Time;
  svc_ServiceTreeID : UUID; svc_Key : string; svc_Name : string; svc_Description : string;
  svc_OwnerTeam : string }.
#[global] Instance Service_eta : Eta Service := fun r =>
  mkService (svc_ID r) (svc_CreatedAt r) (svc_UpdatedAt r) (svc_DeletedAt r)
    (svc_ServiceTreeID r) (svc_Key r) (svc_Name r) (svc_Description r) (svc_OwnerTeam r).

#[global] Instance Service_model : Model Service := {|
  pk := svc_ID;
  created := fun id now r => r <| svc_ID := id |>
    <| svc_CreatedAt := stamp now (svc_CreatedAt r) |>
    <| svc_UpdatedAt := stamp now (svc_UpdatedAt r) |>;
  updated := fun now r => r <| svc_UpdatedAt := now |>;
  alive := fun r => live (svc_DeletedAt r);
  deleted := fun now r => Some (r <| svc_DeletedAt := Some now |>);
  clash := fun _ _ => false;
|}.
#[global] Instance Service_laws : ModelLaws Service.
Proof. by split. Qed.

Record Component := mkComponent {
  cmp_ID : UUID; cmp_CreatedAt : Time; cmp_UpdatedAt : Time; cmp_DeletedAt : option Time;
  cmp_ServiceID : UUID; cmp_Key : string; cmp_Name : string; cmp_RepoURL : string;
  cmp_DefaultBranch : string; cmp_RepoSecretRef : string; cmp_Language : string;
  cmp_Description : string; cmp_OwnerSub : option string; cmp_OwnerGroup : option string;
  cmp_Tags : string; cmp_Lifecycle : string }.
#[global] Instance Component_eta : Eta Component := fun r =>
  mkComponent (cmp_ID r) (cmp_CreatedAt r) (cmp_UpdatedAt r) (cmp_DeletedAt r) (cmp_ServiceID r)
    (cmp_Key r) (cmp_Name r) (cmp_RepoURL r) (cmp_DefaultBranch r) (cmp_RepoSecretRef r)
    (cmp_Language r) (cmp_Description r) (cmp_OwnerSub r) (cmp_OwnerGroup r) (cmp_Tags r)
    (cmp_Lifecycle r).

Definition LifecycleActive : string := "active".
Definition LifecycleFrozen : string := "frozen".
Definition LifecycleDeprecated : string := "deprecated".

Definition ValidLifecycle (s : string) : bool :=
  String.eqb s LifecycleActive || String.eqb s LifecycleFrozen || String.eqb s LifecycleDeprecated.

#[global] Instance Component_model : Model Component := {|
  pk := cmp_ID;
  created := fun id now r => r <| cmp_ID := id |>
    <| cmp_DefaultBranch := default_str "main" (cmp_DefaultBranch r) |>
    <| cmp_Lifecycle := default_str LifecycleActive (cmp_Lifecycle r) |>
    <| cmp_CreatedAt := stamp now (cmp_CreatedAt r) |>
    <| cmp_UpdatedAt := stamp now (cmp_UpdatedAt r) |>;
  updated := fun now r => r <| cmp_UpdatedAt := now |>;
  alive := fun r => live (cmp_DeletedAt r);
  deleted := fun now r => Some (r <| cmp_DeletedAt := Some now |>);
  clash := fun _ _ => false;
|}.
#[global] Instance Component_laws : ModelLaws Component.
Proof. by split. Qed.

(** [A depends on B]. *)
Record ComponentDependency := mkComponentDependency {
  dep_ID : UUID; dep_ComponentID : UUID; dep_DependsOnID : UUID; dep_CreatedAt : Time }.
#[global] Instance ComponentDependency_eta : Eta ComponentDependency := fun r =>
  mkComponentDependency (dep_ID r) (dep_ComponentID r) (dep_DependsOnID r) (dep_CreatedAt r).

#[global] Instance ComponentDependency_model : Model ComponentDependency := {|
  pk := dep_ID;
  created := fun id now r => r <| dep_ID := id |> <| dep_CreatedAt := stamp now (dep_CreatedAt r) |>;
  updated := fun _ r => r;
  alive := fun _ => true;
  deleted := fun _ _ => None;
  clash := fun x r => (dep_ComponentID x =? dep_ComponentID r) && (dep_DependsOnID x =? dep_DependsOnID r);
|}.
#[global] Instance ComponentDependency_laws : ModelLaws ComponentDependency.
Proof. by split. Qed.

(** ** Environments *)

Record SSHEntry := mkSSHEntry {
  ssh_Host : string; ssh_Port : Z; ssh_User : string; ssh_AuthType : string;
  ssh_SecretRef : string; ssh_Bastion : string }.

Record EnvAccessConfig := mkEnvAccessConfig {
  ac_KubeSource : string; ac_KubeCredRef : string; ac_KubeServer : string;
  ac_KubeInsecureSkipTLS : bool; ac_KubeCurrentContext : string; ac_KubeDefaultNS : string;
  ac_SSHSecretRef : string; ac_SSHSudo : bool; ac_SSHTargets : list SSHEntry }.

Record Environment := mkEnvironment {
  env_ID : UUID; env_CreatedAt : Time; env_UpdatedAt : Time; env_ComponentID : UUID;
  env_Key : string; env_Name : string; env_TargetID : UUID; env_EnvType : string;
  env_Namespace : string; env_Access : string; env_GroupID : option UUID;
  env_AccessConfig : EnvAccessConfig; env_Status : string; env_LastTestAt : option Time;
  env_LastTestResult : string }.
#[global] Instance Environment_eta : Eta Environment := fun r =>
  mkEnvironment (env_ID r) (env_CreatedAt r) (env_UpdatedAt r) (env_ComponentID r) (env_Key r)
    (env_Name r) (env_TargetID r) (env_EnvType r) (env_Namespace r) (env_Access r) (env_GroupID r)
    (env_AccessConfig r) (env_Status r) (env_LastTestAt r) (env_LastTestResult r).

Definition EnvTypeTest : string := "test".
Definition EnvTypeProduction : string := "production".
Definition EnvAccessAgent : string := "agent".
Definition EnvAccessKubeconfig : string := "kubeconfig".
Definition EnvAccessSSH : string := "ssh".
Definition EnvStatusUnconfigured : string := "unconfigured".
Definition EnvStatusConfiguredUnverified : string := "configured_unverified".
Definition EnvStatusVerified : string := "verified".
Definition EnvStatusFailed : string := "failed".

#[global] Instance Environment_model : Model Environment := {|
  pk := env_ID;
  created := fun id now r => r <| env_ID := id |>
    <| env_EnvType := default_str EnvTypeTest (env_EnvType r) |>
    <| env_Access := default_str EnvAccessAgent (env_Access r) |>
    <| env_Status := default_str EnvStatusUnconfigured (env_Status r) |>
    <| env_CreatedAt := stamp now (env_CreatedAt r) |>
    <| env_UpdatedAt := stamp now (env_UpdatedAt r) |>;
  updated := fun now r => r <| env_UpdatedAt := now |>;
  alive := fun _ => true;
  deleted := fun _ _ => None;
  clash := fun _ _ => false;
|}.
#[global] Instance Environment_laws : ModelLaws Environment.
Proof. by split. Qed.

(** ** Configuration rows *)

Record ComponentConfig := mkComponentConfig {
  cfg_ID : UUID; cfg_ComponentID : UUID; cfg_EnvironmentID : option UUID; cfg_Key : string;
  cfg_Value : string; cfg_IsSecret : bool; cfg_SecretRef : string; cfg_Description : string;
  cfg_CreatedBy : option string; cfg_UpdatedBy : option string; cfg_CreatedAt : Time;
  cfg_UpdatedAt : Time }.
#[global] Instance ComponentConfig_eta : Eta ComponentConfig := fun r =>
  mkComponentConfig (cfg_ID r) (cfg_ComponentID r) (cfg_EnvironmentID r) (cfg_Key r) (cfg_Value r)
    (cfg_IsSecret r) (cfg_SecretRef r) (cfg_Description r) (cfg_CreatedBy r) (cfg_UpdatedBy r)
    (cfg_CreatedAt r) (cfg_UpdatedAt r).

#[global] Instance ComponentConfig_model : Model ComponentConfig := {|
  pk := cfg_ID;
  created := fun id now r => r <| cfg_ID := id |>
    <| cfg_CreatedAt := stamp now (cfg_CreatedAt r) |>
    <| cfg_UpdatedAt := stamp now (cfg_UpdatedAt r) |>;
  updated := fun now r => r <| cfg_UpdatedAt := now |>;
  alive := fun _ => true;
  deleted := fun _ _ => None;
  clash := fun _ _ => false;
|}.
#[global] Instance ComponentConfig_laws : ModelLaws ComponentConfig.
Proof. by split. Qed.

Record ComponentConfigHistory := mkComponentConfigHistory {
  cch_ID : UUID; cch_ComponentID : UUID; cch_EnvironmentID : option UUID;
  cch_EnvironmentKey : string; cch_Key : string; cch_Action : string; cch_OldValue : string;
  cch_NewValue : string; cch_ChangedBy : option string; cch_ChangedAt : Time }.
#[global] Instance ComponentConfigHistory_eta : Eta ComponentConfigHistory := fun r =>
  mkComponentConfigHistory (cch_ID r) (cch_ComponentID r) (cch_EnvironmentID r)
    (cch_EnvironmentKey r) (cch_Key r) (cch_Action r) (cch_OldValue r) (cch_NewValue r)
    (cch_ChangedBy r) (cch_ChangedAt r).

#[global] Instance ComponentConfigHistory_model : Model ComponentConfigHistory := {|
  pk := cch_ID;
  created := fun id now r => r <| cch_ID := id |> <| cch_ChangedAt := stamp now (cch_ChangedAt r) |>;
  updated := fun _ r => r;
  alive := fun _ => true;
  deleted := fun _ _ => None;
  clash := fun _ _ => false;
|}.
#[global] Instance ComponentConfigHistory_laws : ModelLaws ComponentConfigHistory.
Proof. by split. Qed.

(** ** Artifacts *)

Record Artifact := mkArtifact {
  art_ID : UUID; art_ComponentID : UUID; art_PipelineRunID : option UUID;
  art_TaskRunID : option UUID; art_Version : string; art_ArtifactType : string;
  art_StorageKey : string; art_SizeBytes : option Z; art_Checksum : string; art_CommitSHA : string;
  art_ExpiresAt : option Time; art_CleanupState : string; art_CreatedAt : Time;
  art_ScanStatus : string; art_Signed : bool; art_Signature : string; art_SbomSummary : string;
  art_SevCritical : Z; art_SevHigh : Z; art_SevMedium : Z; art_SevLow : Z }.
#[global] Instance Artifact_eta : Eta Artifact := fun r =>
  mkArtifact (art_ID r) (art_ComponentID r) (art_PipelineRunID r) (art_TaskRunID r)
    (art_Version r) (art_ArtifactType r) (art_StorageKey r) (art_SizeBytes r) (art_Checksum r)
    (art_CommitSHA r) (art_ExpiresAt r) (art_CleanupState r) (art_CreatedAt r) (art_ScanStatus r)
    (art_Signed r) (art_Signature r) (art_SbomSummary r) (art_SevCritical r) (art_SevHigh r)
    (art_SevMedium r) (art_SevLow r).

Definition ScanUnscanned : string := "unscanned".
Definition ScanScanning : string := "scanning".
Definition ScanScanned : string := "scanned".
Definition CleanupStateActive : string := "active".
Definition CleanupStatePendingDeletion : string := "pending_deletion".

#[global] Instance Artifact_model : Model Artifact := {|
  pk := art_ID;
  created := fun id now r => r <| art_ID := id |>
    <| art_ArtifactType := default_str "generic" (art_ArtifactType r) |>
    <| art_CleanupState := default_str CleanupStateActive (art_CleanupState r) |>
    <| art_ScanStatus := default_str ScanUnscanned (art_ScanStatus r) |>
    <| art_CreatedAt := stamp now (art_CreatedAt r) |>;
  updated := fun _ r => r;
  alive := fun _ => true;
  deleted := fun _ _ => None;
  clash := fun _ _ => false;
|}.
#[global] Instance Artifact_laws : ModelLaws Artifact.
Proof. by split. Qed.

(** * Repositories *)

(** [name ILIKE '%' || name || '%'], letter case as in ASCII. *)
Fixpoint lower_text (s : string) : string :=
  match s with "" => "" | String c s' => String (lower_ascii c) (lower_text s') end.
Definition ilike (pattern s : string) : bool := like (lower_text pattern) (lower_text s).

Section Repository.
Context `{G : Gorm} {R : Type} `{Model R}.

(** The rest of [common.Repository[T]]. *)
Definition Repository_Create (now : Time) (r : R) : M (Table R) (Result R) := db_Create now r.
Definition Repository_Update (now : Time) (r : R) : M (Table R) (Result R) := db_Save now r.
Definition Repository_Delete (now : Time) (id : UUID) : M (Table R) (Result Z) :=
  db_Delete now (fun r => pk r =? id).
Definition Repository_ListWhere (p : R -> bool) : M (Table R) (Result (list R)) := db_Find (Where p).
End Repository.

Module OrgRepository.
Section Repo.
Context `{G : Gorm}.

(** The result map, later rows last. *)
Definition IDsBySlugs (slugs : list string) : M (Table Org) (Result (gmap string UUID)) :=
  match slugs with
  | [] => ret (Ok ∅)
  | _ =>
      try* orgs := Repository_ListWhere (fun o => bool_decide (org_Slug o ∈ slugs)) in
      ret (Ok (foldl (fun out o => <[org_Slug o := org_ID o]> out) ∅ orgs))
  end.
End Repo.
End OrgRepository.

Module ServiceTreeRepository.
Section Repo.
Context `{G : Gorm}.

Definition GetByOrgID (orgID : UUID) : M (Table ServiceTree) (Result ServiceTree) :=
  db_First (Where (fun t => tree_OrgID t =? orgID)).

Definition ServiceTreeIDByOrg (orgID : UUID) : M (Table ServiceTree) (Result UUID) :=
  try* st := GetByOrgID orgID in ret (Ok (tree_ID st)).

Definition ServiceTreeExists (treeID : UUID) : M (Table ServiceTree) (Result bool) :=
  let* r := db_First (Where (fun t => tree_ID t =? treeID)) in
  ret (match r with
       | Ok _ => Ok true
       | Err e => if errors_Is e ErrRecordNotFound then Ok false else Err e
       end).
End Repo.
End ServiceTreeRepository.

Module ServiceRepository.
Definition FindByServiceTreeID `{G : Gorm} (treeID : UUID) (p : Pagination)
  : M (Table Service) (Result (list Service * Z)) :=
  Repository_List p (Where (fun s => svc_ServiceTreeID s =? treeID)).
End ServiceRepository.

Module ComponentRepository.
Definition FindByServiceID `{G : Gorm} (serviceID : UUID) (p : Pagination)
  : M (Table Component) (Result (list Component * Z)) :=
  Repository_List p (Where (fun c => cmp_ServiceID c =? serviceID)).
End ComponentRepository.

Module DependencyRepository.
Section Repo.
Context `{G : Gorm}.

Definition edge (componentID dependsOnID : UUID) (d : ComponentDependency) : bool :=
  (dep_ComponentID d =? componentID) && (dep_DependsOnID d =? dependsOnID).

Definition ListByComponent (id : UUID) (upstream : bool)
  : M (Table ComponentDependency) (Result (list ComponentDependency)) :=
  db_Find (Where (fun d => (if upstream then dep_ComponentID d else dep_DependsOnID d) =? id)).

Definition Delete (now : Time) (componentID dependsOnID : UUID)
  : M (Table ComponentDependency) (Result Z) := db_Delete now (edge componentID dependsOnID).

Definition Exists (componentID dependsOnID : UUID) : M (Table ComponentDependency) (Result bool) :=
  try* n := db_Count (edge componentID dependsOnID) in ret (Ok (0 <? n)).

Definition All : M (Table ComponentDependency) (Result (list ComponentDependency)) :=
  db_Find (Where (fun _ => true)).
End Repo.
End DependencyRepository.

Module EnvironmentRepository.
Section Repo.
Context `{G : Gorm}.

Definition FindByComponentID (componentID : UUID) (p : Pagination)
  : M (Table Environment) (Result (list Environment * Z)) :=
  Repository_List p (Where (fun e => env_ComponentID e =? componentID)).

Definition ProductionTargets (targetIDs : list UUID) : M (Table Environment) (Result (list UUID)) :=
  match targetIDs with
  | [] => ret (Ok [])
  | _ =>
      try* rows := db_Find (Where (fun e =>
        String.eqb (env_EnvType e) EnvTypeProduction && bool_decide (env_TargetID e ∈ targetIDs))) in
      ret (Ok (remove_dups (env_TargetID <$> rows)))
  end.

Definition ResolveKey (envID : UUID) : M (Table Environment) (Result string) :=
  try* env := Repository_GetByID envID in ret (Ok (env_Key env)).

Definition placed (componentID targetID : UUID) (namespace : string) (e : Environment) : bool :=
  (env_ComponentID e =? componentID) && (env_TargetID e =? targetID) &&
  String.eqb (env_Namespace e) namespace.

Definition UniqueForComponentTargetNamespace (componentID targetID : UUID) (namespace : string)
  : M (Table Environment) (Result (option UUID)) :=
  try* rows := db_Find (LimitQ 2 (Where (placed componentID targetID namespace))) in
  ret (Ok (match rows with [e] => Some (env_ID e) | _ => None end)).
End Repo.
End EnvironmentRepository.

Module ComponentConfigRepository.
Section Repo.
Context `{G : Gorm}.

(** The rows of one scope: the global ones, or those of an environment. *)
Definition in_scope (componentID : UUID) (environmentID : option UUID) (c : ComponentConfig) : bool :=
  (cfg_ComponentID c =? componentID) && bool_decide (cfg_EnvironmentID c = environmentID).

Definition FindByComponentID (componentID : UUID) (environmentID : option UUID) (p : Pagination)
  : M (Table ComponentConfig) (Result (list ComponentConfig * Z)) :=
  Repository_List p (Where (in_scope componentID environmentID)).

Definition GetByKey (componentID : UUID) (key : string) (environmentID : option UUID)
  : M (Table ComponentConfig) (Result ComponentConfig) :=
  db_First (Where (fun c => in_scope componentID environmentID c && String.eqb (cfg_Key c) key)).

Definition LogHistory (now : Time) (h : ComponentConfigHistory)
  : M (Table ComponentConfigHistory) (Result ComponentConfigHistory) := db_Create now h.

Definition CountByEnvironment (envID : UUID) : M (Table ComponentConfig) (Result Z) :=
  db_Count (fun c => bool_decide (cfg_EnvironmentID c = Some envID)).
End Repo.
End ComponentConfigRepository.

Record ArtifactSearchFilter := mkArtifactSearchFilter {
  asf_Name : string; asf_Version : string; asf_ComponentID : UUID; asf_ArtifactType : string;
  asf_Since : option Time; asf_Until : option Time; asf_ScanStatus : string;
  asf_Signed : option bool }.

Module ArtifactRepository.
Section Repo.
Context `{G : Gorm}.

Definition not_pending (a : Artifact) : bool :=
  negb (String.eqb (art_CleanupState a) CleanupStatePendingDeletion).

Definition liveForComponent (componentID : UUID) : Query Artifact :=
  Order [fun a => - art_CreatedAt a]
    (Where (fun a => (art_ComponentID a =? componentID) && not_pending a)).

Definition FindByComponentID (componentID : UUID) (p : Pagination)
  : M (Table Artifact) (Result (list Artifact * Z)) :=
  Repository_List p (liveForComponent componentID).

Definition defaultDeployableVersionFetchCap : Z := 2000.

(** The first row of each version, [limit] of them. *)
Fixpoint distinct_versions (rows : list Artifact) (seen : list string) (n : nat) : list Artifact :=
  match rows, n with
  | [], _ | _, O => []
  | a :: rows, S n' =>
      if bool_decide (art_Version a ∈ seen) then distinct_versions rows seen n
      else a :: distinct_versions rows (art_Version a :: seen) n'
  end.

Definition ListDeployableVersions (componentID : UUID) (limit : Z)
  : M (Table Artifact) (Result (list Artifact)) :=
  let limit := if limit <=? 0 then 50 else limit in
  try* rows := db_Find (LimitQ defaultDeployableVersionFetchCap (liveForComponent componentID)) in
  ret (Ok (distinct_versions rows [] (Z.to_nat limit))).

Definition matches (f : ArtifactSearchFilter) (a : Artifact) : bool :=
  not_pending a &&
  (empty_string (asf_Name f) || ilike ("%" +:+ asf_Name f +:+ "%") (art_StorageKey a)) &&
  (empty_string (asf_Version f) || ilike ("%" +:+ asf_Version f +:+ "%") (art_Version a)) &&
  ((asf_ComponentID f =? uuid_Nil) || (art_ComponentID a =? asf_ComponentID f)) &&
  (empty_string (asf_ArtifactType f) || String.eqb (art_ArtifactType a) (asf_ArtifactType f)) &&
  match asf_Since f with Some t => t <=? art_CreatedAt a | None => true end &&
  match asf_Until f with Some t => art_CreatedAt a <=? t | None => true end &&
  (empty_string (asf_ScanStatus f) || String.eqb (art_ScanStatus a) (asf_ScanStatus f)) &&
  match asf_Signed f with Some b => Bool.eqb (art_Signed a) b | None => true end.

Definition Search (f : ArtifactSearchFilter) (p : Pagination)
  : M (Table Artifact) (Result (list Artifact * Z)) :=
  Repository_List p (Order [fun a => - art_CreatedAt a] (Where (matches f))).

(** [up]: the columns of the update. *)
Definition ApplyScanResult (now : Time) (id : UUID) (up : Artifact -> Artifact)
  : M (Table Artifact) (Result Z) := db_Updates now (fun a => art_ID a =? id) up.

Definition ExistsByComponentAndKey (componentID : UUID) (key : string)
  : M (Table Artifact) (Result bool) :=
  try* n := db_Count (fun a => (art_ComponentID a =? componentID) && String.eqb (art_StorageKey a) key) in
  ret (Ok (0 <? n)).

Definition expired (now : Time) (a : Artifact) : bool :=
  match art_ExpiresAt a with Some t => t <? now | None => false end.

Definition expiredQuery (now : Time) (limit : Z) : Query Artifact :=
  LimitQ limit (Order [fun a => default 0 (art_ExpiresAt a)] (Where (expired now))).

Definition FindExpired (now : Time) (limit : Z) : M (Table Artifact) (Result (list Artifact)) :=
  db_Find (expiredQuery now limit).

Definition MarkCleanupPending (now : Time) (id : UUID) : M (Table Artifact) (Result Z) :=
  db_Updates now (fun a => art_ID a =? id) (fun a => a <| art_CleanupState := CleanupStatePendingDeletion |>).

(** In the database's collation order, which the comparison forgets. *)
Definition ListStorageKeys : M (Table Artifact) (Result (list string)) :=
  try* rows := db_Find (Where (fun _ => true)) in ret (Ok (art_StorageKey <$> rows)).
End Repo.
End ArtifactRepository.
