(* ===== verification/SiteStore.v ===== *)
(** Configuration versions, shared variable groups, environment groups and
    credentials ([internal/component], [environmentgroup], [credentials]:
    models and repository). *)
From stdpp Require Import base list strings gmap sorting.
From Stdlib Require Import ZArith Lia Ascii.
From S2P Require Import Prelude Common Gorm Json GoLib RunnerProto RunStore PipelineStore OrgStore.

Open Scope Z_scope.

(** * Models *)

Record ConfigSnapshot := mkConfigSnapshot {
  snap_ID : UUID; snap_ComponentID : UUID; snap_EnvironmentID : option UUID;
  snap_ScopeKey : string; snap_Version : Z; snap_Comment : string; snap_Snapshot : RawJSON;
  snap_CreatedBy : option string; snap_CreatedAt : Time }.
#[global] Instance ConfigSnapshot_eta : Eta ConfigSnapshot := fun r =>
  mkConfigSnapshot (snap_ID r) (snap_ComponentID r) (snap_EnvironmentID r) (snap_ScopeKey r)
    (snap_Version r) (snap_Comment r) (snap_Snapshot r) (snap_CreatedBy r) (snap_CreatedAt r).

#[global] Instance ConfigSnapshot_model : Model ConfigSnapshot := {|
  pk := snap_ID;
  created := fun id now r => r <| snap_ID := id |> <| snap_CreatedAt := stamp now (snap_CreatedAt r) |>;
  updated := fun _ r => r;
  alive := fun _ => true;
  deleted := fun _ _ => None;
  clash := fun x r => (snap_ComponentID x =? snap_ComponentID r) &&
    String.eqb (snap_ScopeKey x) (snap_ScopeKey r) && (snap_Version x =? snap_Version r);
|}.
#[global] Instance ConfigSnapshot_laws : ModelLaws ConfigSnapshot.
Proof. by split. Qed.

Record VariableGroup := mkVariableGroup {
  vg_ID : UUID; vg_OrgID : UUID; vg_Name : string; vg_Description : string;
  vg_Variables : RawJSON; vg_CreatedBy : string; vg_CreatedAt : Time; vg_UpdatedAt : Time }.
#[global] Instance VariableGroup_eta : Eta VariableGroup := fun r =>
  mkVariableGroup (vg_ID r) (vg_OrgID r) (vg_Name r) (vg_Description r) (vg_Variables r)
    (vg_CreatedBy r) (vg_CreatedAt r) (vg_UpdatedAt r).

#[global] Instance VariableGroup_model : Model VariableGroup := {|
  pk := vg_ID;
  created := fun id now r => r <| vg_ID := id |>
    <| vg_CreatedAt := stamp now (vg_CreatedAt r) |> <| vg_UpdatedAt := stamp now (vg_UpdatedAt r) |>;
  updated := fun now r => r <| vg_UpdatedAt := now |>;
  alive := fun _ => true;
  deleted := fun _ _ => None;
  (* the unique index carries the name only *)
  clash := fun x r => String.eqb (vg_Name x) (vg_Name r);
|}.
#[global] Instance VariableGroup_laws : ModelLaws VariableGroup.
Proof. by split. Qed.

Record ComponentVariableGroupBinding := mkComponentVariableGroupBinding {
  vb_ID : UUID; vb_ComponentID : UUID; vb_GroupID : UUID; vb_Priority : Z; vb_CreatedBy : string;
  vb_CreatedAt : Time }.
#[global] Instance ComponentVariableGroupBinding_eta : Eta ComponentVariableGroupBinding := fun r =>
  mkComponentVariableGroupBinding (vb_ID r) (vb_ComponentID r) (vb_GroupID r) (vb_Priority r)
    (vb_CreatedBy r) (vb_CreatedAt r).

#[global] Instance ComponentVariableGroupBinding_model : Model ComponentVariableGroupBinding := {|
  pk := vb_ID;
  created := fun id now r => r <| vb_ID := id |>
    <| vb_Priority := if vb_Priority r =? 0 then 100 else vb_Priority r |>
    <| vb_CreatedAt := stamp now (vb_CreatedAt r) |>;
  updated := fun _ r => r;
  alive := fun _ => true;
  deleted := fun _ _ => None;
  clash := fun x r => (vb_ComponentID x =? vb_ComponentID r) && (vb_GroupID x =? vb_GroupID r);
|}.
#[global] Instance ComponentVariableGroupBinding_laws : ModelLaws ComponentVariableGroupBinding.
Proof. by split. Qed.

Record EnvironmentGroup := mkEnvironmentGroup {
  eg_ID : UUID; eg_CreatedAt : Time; eg_UpdatedAt : Time; eg_ComponentID : UUID;
  eg_Name : string; eg_Description : string; eg_OrderIndex : Z }.
#[global] Instance EnvironmentGroup_eta : Eta EnvironmentGroup := fun r =>
  mkEnvironmentGroup (eg_ID r) (eg_CreatedAt r) (eg_UpdatedAt r) (eg_ComponentID r) (eg_Name r)
    (eg_Description r) (eg_OrderIndex r).

#[global] Instance EnvironmentGroup_model : Model EnvironmentGroup := {|
  pk := eg_ID;
  created := fun id now r => r <| eg_ID := id |>
    <| eg_CreatedAt := stamp now (eg_CreatedAt r) |> <| eg_UpdatedAt := stamp now (eg_UpdatedAt r) |>;
  updated := fun now r => r <| eg_UpdatedAt := now |>;
  alive := fun _ => true;
  deleted := fun _ _ => None;
  clash := fun _ _ => false;
|}.
#[global] Instance EnvironmentGroup_laws : ModelLaws EnvironmentGroup.
Proof. by split. Qed.

Record Credential := mkCredential {
  cred_ID : UUID; cred_CreatedAt : Time; cred_UpdatedAt : Time; cred_DeletedAt : option Time;
  cred_Name : string; cred_Type : string; cred_Scope : string; cred_ScopeID : string;
  cred_Value : string }.
#[global] Instance Credential_eta : Eta Credential := fun r =>
  mkCredential (cred_ID r) (cred_CreatedAt r) (cred_UpdatedAt r) (cred_DeletedAt r) (cred_Name r)
    (cred_Type r) (cred_Scope r) (cred_ScopeID r) (cred_Value r).

#[global] Instance Credential_model : Model Credential := {|
  pk := cred_ID;
  created := fun id now r => r <| cred_ID := id |>
    <| cred_CreatedAt := stamp now (cred_CreatedAt r) |>
    <| cred_UpdatedAt := stamp now (cred_UpdatedAt r) |>;
  updated := fun now r => r <| cred_UpdatedAt := now |>;
  alive := fun r => live (cred_DeletedAt r);
  deleted := fun now r => Some (r <| cred_DeletedAt := Some now |>);
  clash := fun _ _ => false;
|}.
#[global] Instance Credential_laws : ModelLaws Credential.
Proof. by split. Qed.

(** * Repositories *)

Module ConfigSnapshotRepository.
Section Repo.
Context `{G : Gorm}.

Definition in_scope (componentID : UUID) (scopeKey : string) (s : ConfigSnapshot) : bool :=
  (snap_ComponentID s =? componentID) && String.eqb (snap_ScopeKey s) scopeKey.

Definition newest (componentID : UUID) (scopeKey : string) : Query ConfigSnapshot :=
  Order [fun s => - snap_Version s] (Where (in_scope componentID scopeKey)).

Definition LatestVersion (componentID : UUID) (scopeKey : string) : M (Table ConfigSnapshot) (Result Z) :=
  let* r := db_First (newest componentID scopeKey) in
  ret (match r with
       | Ok row => Ok (snap_Version row)
       | Err e => if bool_decide (e = ErrRecordNotFound) then Ok 0 else Err e
       end).

Definition Create (now : Time) (s : ConfigSnapshot) : M (Table ConfigSnapshot) (Result ConfigSnapshot) :=
  db_Create now s.

Definition List (componentID : UUID) (scopeKey : string) (limit : Z)
  : M (Table ConfigSnapshot) (Result (list ConfigSnapshot)) :=
  db_Find (LimitQ limit (newest componentID scopeKey)).

Definition GetByVersion (componentID : UUID) (scopeKey : string) (version : Z)
  : M (Table ConfigSnapshot) (Result ConfigSnapshot) :=
  db_First (Where (fun s => in_scope componentID scopeKey s && (snap_Version s =? version))).

(** The row lock is the transaction's. *)
Definition LockLatest (componentID : UUID) (scopeKey : string) : M (Table ConfigSnapshot) (Result Z) :=
  try* rows := db_Find (LimitQ 1 (newest componentID scopeKey)) in
  ret (Ok (match rows with row :: _ => snap_Version row | [] => 0 end)).
End Repo.
End ConfigSnapshotRepository.

Module VariableGroupRepository.
Section Repo.
Context `{G : Gorm}.

(** In the database's collation order of the names. *)
Definition ListByOrg (orgID : UUID) : M (Table VariableGroup) (Result (list VariableGroup)) :=
  db_Find (Where (fun g => vg_OrgID g =? orgID)).

Definition Get (id : UUID) : M (Table VariableGroup) (Result VariableGroup) :=
  db_First (Where (fun g => vg_ID g =? id)).

Definition Create (now : Time) (g : VariableGroup) : M (Table VariableGroup) (Result VariableGroup) :=
  db_Create now g.
Definition Update (now : Time) (g : VariableGroup) : M (Table VariableGroup) (Result VariableGroup) :=
  db_Save now g.

Definition ListBindings (componentID : UUID)
  : M (Table ComponentVariableGroupBinding) (Result (list ComponentVariableGroupBinding)) :=
  db_Find (Order [vb_Priority] (Where (fun b => vb_ComponentID b =? componentID))).

Definition CreateBinding (now : Time) (b : ComponentVariableGroupBinding)
  : M (Table ComponentVariableGroupBinding) (Result ComponentVariableGroupBinding) := db_Create now b.

Definition DeleteBinding (now : Time) (id : UUID)
  : M (Table ComponentVariableGroupBinding) (Result Z) := db_Delete now (fun b => vb_ID b =? id).
End Repo.
End VariableGroupRepository.

Module EnvironmentGroupRepository.
Section Repo.
Context `{G : Gorm}.

Definition FindByComponent (componentID : UUID) (p : Pagination)
  : M (Table EnvironmentGroup) (Result (list EnvironmentGroup * Z)) :=
  Repository_List p (Order [eg_OrderIndex; eg_CreatedAt] (Where (fun g => eg_ComponentID g =? componentID))).

Definition CountEnvironments (groupID : UUID) : M (Table Environment) (Result Z) :=
  db_Count (fun e => bool_decide (env_GroupID e = Some groupID)).
End Repo.
End EnvironmentGroupRepository.

Module CredentialRepository.
Definition ListByScope `{G : Gorm} (scope scopeID : string) (p : Pagination)
  : M (Table Credential) (Result (list Credential * Z)) :=
  Repository_List p (Where (fun c =>
    (empty_string scope || String.eqb (cred_Scope c) scope) &&
    (empty_string scopeID || String.eqb (cred_ScopeID c) scopeID))).
End CredentialRepository.
