(* ===== verification/PermStore.v ===== *)
(** The permission tables ([internal/permission/models]) and their repositories
    ([internal/permission/repository]): role definitions, the bindings that
    grant them to subjects, the role-to-action registry, resource ownership,
    permission requests and personal access tokens.

    None of these tables is soft-deleted. *)
From stdpp Require Import base list strings gmap sorting.
From Stdlib Require Import ZArith Lia Ascii.
From S2P Require Import Prelude Common Gorm Json GoLib RunnerProto RunStore PipelineStore OrgStore.

Open Scope Z_scope.

(** * Models *)

Definition SubjectTypeUser : string := "user".
Definition SubjectTypeGroup : string := "group".

Record ComponentRoleBinding := mkComponentRoleBinding {
  crb_ID : UUID; crb_ComponentID : UUID; crb_OrgID : option UUID; crb_SubjectType : string;
  crb_SubjectID : string; crb_ComponentRoleID : option UUID; crb_GrantedBy : option string;
  crb_GrantedAt : Time; crb_ExpiresAt : option Time }.
#[global] Instance ComponentRoleBinding_eta : Eta ComponentRoleBinding := fun r =>
  mkComponentRoleBinding (crb_ID r) (crb_ComponentID r) (crb_OrgID r) (crb_SubjectType r)
    (crb_SubjectID r) (crb_ComponentRoleID r) (crb_GrantedBy r) (crb_GrantedAt r) (crb_ExpiresAt r).

#[global] Instance ComponentRoleBinding_model : Model ComponentRoleBinding := {|
  pk := crb_ID;
  created := fun id now r => r <| crb_ID := id |> <| crb_GrantedAt := stamp now (crb_GrantedAt r) |>;
  updated := fun _ r => r;
  alive := fun _ => true;
  deleted := fun _ _ => None;
  clash := fun _ _ => false;
|}.
#[global] Instance ComponentRoleBinding_laws : ModelLaws ComponentRoleBinding.
Proof. by split. Qed.

Record ComponentRole := mkComponentRole {
  cr_ID : UUID; cr_OrgID : option UUID; cr_Name : string; cr_Description : string;
  cr_Actions : RawJSON; cr_IsSystem : bool; cr_CreatedAt : Time }.
#[global] Instance ComponentRole_eta : Eta ComponentRole := fun r =>
  mkComponentRole (cr_ID r) (cr_OrgID r) (cr_Name r) (cr_Description r) (cr_Actions r)
    (cr_IsSystem r) (cr_CreatedAt r).

Definition actions_or_empty (raw : RawJSON) : RawJSON := if raw_len0 raw then RawDoc (JArr []) else raw.

#[global] Instance ComponentRole_model : Model ComponentRole := {|
  pk := cr_ID;
  created := fun id now r => r <| cr_ID := id |>
    <| cr_Actions := actions_or_empty (cr_Actions r) |>
    <| cr_CreatedAt := stamp now (cr_CreatedAt r) |>;
  updated := fun _ r => r;
  alive := fun _ => true;
  deleted := fun _ _ => None;
  (* one name per organization, and one among the built-in roles *)
  clash := fun x r => bool_decide (cr_OrgID x = cr_OrgID r) && String.eqb (cr_Name x) (cr_Name r);
|}.
#[global] Instance ComponentRole_laws : ModelLaws ComponentRole.
Proof. by split. Qed.

Record PlatformRole := mkPlatformRole {
  pr_ID : UUID; pr_OrgID : option UUID; pr_Name : string; pr_Description : string;
  pr_Actions : RawJSON; pr_IsSystem : bool; pr_CreatedAt : Time }.
#[global] Instance PlatformRole_eta : Eta PlatformRole := fun r =>
  mkPlatformRole (pr_ID r) (pr_OrgID r) (pr_Name r) (pr_Description r) (pr_Actions r)
    (pr_IsSystem r) (pr_CreatedAt r).

#[global] Instance PlatformRole_model : Model PlatformRole := {|
  pk := pr_ID;
  created := fun id now r => r <| pr_ID := id |>
    <| pr_Actions := actions_or_empty (pr_Actions r) |>
    <| pr_CreatedAt := stamp now (pr_CreatedAt r) |>;
  updated := fun _ r => r;
  alive := fun _ => true;
  deleted := fun _ _ => None;
  clash := fun _ _ => false;
|}.
#[global] Instance PlatformRole_laws : ModelLaws PlatformRole.
Proof. by split. Qed.

Record PlatformRoleBinding := mkPlatformRoleBinding {
  prb_ID : UUID; prb_OrgID : option UUID; prb_SubjectType : string; prb_SubjectID : string;
  prb_PlatformRoleID : UUID; prb_ExpiresAt : option Time; prb_CreatedAt : Time }.
#[global] Instance PlatformRoleBinding_eta : Eta PlatformRoleBinding := fun r =>
  mkPlatformRoleBinding (prb_ID r) (prb_OrgID r) (prb_SubjectType r) (prb_SubjectID r)
    (prb_PlatformRoleID r) (prb_ExpiresAt r) (prb_CreatedAt r).

#[global] Instance PlatformRoleBinding_model : Model PlatformRoleBinding := {|
  pk := prb_ID;
  created := fun id now r => r <| prb_ID := id |> <| prb_CreatedAt := stamp now (prb_CreatedAt r) |>;
  updated := fun _ r => r;
  alive := fun _ => true;
  deleted := fun _ _ => None;
  clash := fun _ _ => false;
|}.
#[global] Instance PlatformRoleBinding_laws : ModelLaws PlatformRoleBinding.
Proof. by split. Qed.

Record ResourceOwnership := mkResourceOwnership {
  ro_ID : UUID; ro_ResourceType : string; ro_ResourceID : UUID; ro_OwnerOrg : UUID;
  ro_AllowedOrgs : RawJSON; ro_CreatedAt : Time }.
#[global] Instance ResourceOwnership_eta : Eta ResourceOwnership := fun r =>
  mkResourceOwnership (ro_ID r) (ro_ResourceType r) (ro_ResourceID r) (ro_OwnerOrg r)
    (ro_AllowedOrgs r) (ro_CreatedAt r).

#[global] Instance ResourceOwnership_model : Model ResourceOwnership := {|
  pk := ro_ID;
  created := fun id now r => r <| ro_ID := id |> <| ro_CreatedAt := stamp now (ro_CreatedAt r) |>;
  updated := fun _ r => r;
  alive := fun _ => true;
  deleted := fun _ _ => None;
  clash := fun x r => String.eqb (ro_ResourceType x) (ro_ResourceType r) &&
                      (ro_ResourceID x =? ro_ResourceID r);
|}.
#[global] Instance ResourceOwnership_laws : ModelLaws ResourceOwnership.
Proof. by split. Qed.

Record RoleAPIMapping := mkRoleAPIMapping {
  ram_ID : UUID; ram_RoleKind : string; ram_RoleID : UUID; ram_Action : string;
  ram_Description : string }.
#[global] Instance RoleAPIMapping_eta : Eta RoleAPIMapping := fun r =>
  mkRoleAPIMapping (ram_ID r) (ram_RoleKind r) (ram_RoleID r) (ram_Action r) (ram_Description r).

#[global] Instance RoleAPIMapping_model : Model RoleAPIMapping := {|
  pk := ram_ID;
  created := fun id _ r => r <| ram_ID := id |>;
  updated := fun _ r => r;
  alive := fun _ => true;
  deleted := fun _ _ => None;
  clash := fun x r => String.eqb (ram_RoleKind x) (ram_RoleKind r) &&
    (ram_RoleID x =? ram_RoleID r) && String.eqb (ram_Action x) (ram_Action r);
|}.
#[global] Instance RoleAPIMapping_laws : ModelLaws RoleAPIMapping.
Proof. by split. Qed.

Definition PermRequestPending : string := "Pending".
Definition PermRequestApproved : string := "Approved".
Definition PermRequestRejected : string := "Rejected".

Record PermissionRequest := mkPermissionRequest {
  preq_ID : UUID; preq_Requester : string; preq_RequestedRoleID : UUID;
  preq_RequestedRoleKind : string; preq_RequestedResourceType : string;
  preq_RequestedResourceID : UUID; preq_Reason : string; preq_Approver : string;
  preq_Status : string; preq_EffectiveAt : option Time; preq_ExpiresAt : option Time;
  preq_CreatedAt : Time; preq_DecidedAt : option Time }.
#[global] Instance PermissionRequest_eta : Eta PermissionRequest := fun r =>
  mkPermissionRequest (preq_ID r) (preq_Requester r) (preq_RequestedRoleID r)
    (preq_RequestedRoleKind r) (preq_RequestedResourceType r) (preq_RequestedResourceID r)
    (preq_Reason r) (preq_Approver r) (preq_Status r) (preq_EffectiveAt r) (preq_ExpiresAt r)
    (preq_CreatedAt r) (preq_DecidedAt r).

#[global] Instance PermissionRequest_model : Model PermissionRequest := {|
  pk := preq_ID;
  created := fun id now r => r <| preq_ID := id |>
    <| preq_Status := default_str PermRequestPending (preq_Status r) |>
    <| preq_CreatedAt := stamp now (preq_CreatedAt r) |>;
  updated := fun _ r => r;
  alive := fun _ => true;
  deleted := fun _ _ => None;
  clash := fun _ _ => false;
|}.
#[global] Instance PermissionRequest_laws : ModelLaws PermissionRequest.
Proof. by split. Qed.

Definition PATScopeRead : string := "read".
Definition PATScopeWrite : string := "write".

Record PersonalAccessToken := mkPersonalAccessToken {
  pat_ID : UUID; pat_Subject : string; pat_Name : string; pat_Prefix : string;
  pat_TokenHash : string; pat_Scopes : string; pat_ExpiresAt : option Time;
  pat_RevokedAt : option Time; pat_LastUsedAt : option Time; pat_CreatedAt : Time }.
#[global] Instance PersonalAccessToken_eta : Eta PersonalAccessToken := fun r =>
  mkPersonalAccessToken (pat_ID r) (pat_Subject r) (pat_Name r) (pat_Prefix r) (pat_TokenHash r)
    (pat_Scopes r) (pat_ExpiresAt r) (pat_RevokedAt r) (pat_LastUsedAt r) (pat_CreatedAt r).

#[global] Instance PersonalAccessToken_model : Model PersonalAccessToken := {|
  pk := pat_ID;
  created := fun id now r => r <| pat_ID := id |>
    <| pat_Scopes := default_str PATScopeWrite (pat_Scopes r) |>
    <| pat_CreatedAt := stamp now (pat_CreatedAt r) |>;
  updated := fun _ r => r;
  alive := fun _ => true;
  deleted := fun _ _ => None;
  clash := fun x r => String.eqb (pat_TokenHash x) (pat_TokenHash r);
|}.
#[global] Instance PersonalAccessToken_laws : ModelLaws PersonalAccessToken.
Proof. by split. Qed.

(** ** Ownership: the shared set of a row *)

Section Ownership.
Context {C : Codec (list UUID)}.

Definition SetAllowedOrgs (o : ResourceOwnership) (orgs : list UUID) : ResourceOwnership :=
  o <| ro_AllowedOrgs := match orgs with [] => RawDoc (JArr []) | _ => Marshal orgs end |>.

Definition AllowedOrgsSlice (o : ResourceOwnership) : list UUID :=
  if raw_len0 (ro_AllowedOrgs o) then []
  else match UnmarshalE (ro_AllowedOrgs o) with Ok orgs => orgs | Err _ => [] end.

Definition IsAllowed (o : ResourceOwnership) (org : UUID) : bool :=
  if org =? uuid_Nil then false
  else (ro_OwnerOrg o =? org) || existsb (fun a => a =? org) (AllowedOrgsSlice o).
End Ownership.

(** * Repositories *)

(** [subject_type = 'user' AND subject_id = ?], or one of the groups. *)
Definition names_subject (ty id : string) (subject : string) (groups : list string) : bool :=
  (String.eqb ty "user" && String.eqb id subject) ||
  (String.eqb ty "group" && bool_decide (id ∈ groups)).

Definition withActiveGrant (now : Time) (expiresAt : option Time) : bool :=
  match expiresAt with None => true | Some t => now <? t end.

Definition expiredScope (now : Time) (expiresAt : option Time) : bool :=
  match expiresAt with None => false | Some t => t <? now end.

Module BindingRepository.
Section Repo.
Context `{G : Gorm}.

Definition Create (now : Time) (b : ComponentRoleBinding)
  : M (Table ComponentRoleBinding) (Result ComponentRoleBinding) := db_Create now b.

Definition ListByComponentID (componentID : UUID)
  : M (Table ComponentRoleBinding) (Result (list ComponentRoleBinding)) :=
  db_Find (Where (fun b => crb_ComponentID b =? componentID)).

Definition Delete (now : Time) (id : UUID) : M (Table ComponentRoleBinding) (Result Z) :=
  db_Delete now (fun b => crb_ID b =? id).

Definition DeleteBySubject (now : Time) (subjectType subjectID : string)
  : M (Table ComponentRoleBinding) (Result Z) :=
  db_Delete now (fun b => String.eqb (crb_SubjectType b) subjectType &&
                          String.eqb (crb_SubjectID b) subjectID).

Definition DeleteExpired (now : Time) : M (Table ComponentRoleBinding) (Result Z) :=
  db_Delete now (fun b => expiredScope now (crb_ExpiresAt b)).

(** The WHERE clause of [ListMatching]. *)
Definition matching (now : Time) (componentID : UUID) (subject : string) (groups : list string)
  (b : ComponentRoleBinding) : bool :=
  (crb_ComponentID b =? componentID) &&
  names_subject (crb_SubjectType b) (crb_SubjectID b) subject groups &&
  withActiveGrant now (crb_ExpiresAt b).

Definition ListMatching (now : Time) (componentID : UUID) (subject : string) (groups : list string)
  : M (Table ComponentRoleBinding) (Result (list ComponentRoleBinding)) :=
  db_Find (Where (matching now componentID subject groups)).
End Repo.
End BindingRepository.

Module ComponentRoleRepository.
Section Repo.
Context `{G : Gorm}.

Definition List : M (Table ComponentRole) (Result (list ComponentRole)) :=
  db_Find (Where (fun _ => true)).
Definition GetByID (id : UUID) : M (Table ComponentRole) (Result ComponentRole) :=
  db_First (Where (fun r => cr_ID r =? id)).
Definition GetByName (name : string) : M (Table ComponentRole) (Result ComponentRole) :=
  db_First (Where (fun r => String.eqb (cr_Name r) name)).
Definition GetByNameInOrg (orgID : option UUID) (name : string)
  : M (Table ComponentRole) (Result ComponentRole) :=
  db_First (Where (fun r => String.eqb (cr_Name r) name && bool_decide (cr_OrgID r = orgID))).
Definition Create (now : Time) (r : ComponentRole) : M (Table ComponentRole) (Result ComponentRole) :=
  db_Create now r.
Definition Update (now : Time) (r : ComponentRole) : M (Table ComponentRole) (Result ComponentRole) :=
  db_Save now r.
Definition Delete (now : Time) (id : UUID) : M (Table ComponentRole) (Result Z) :=
  db_Delete now (fun r => cr_ID r =? id).
Definition CountBindings (roleID : UUID) : M (Table ComponentRoleBinding) (Result Z) :=
  db_Count (fun b => bool_decide (crb_ComponentRoleID b = Some roleID)).
End Repo.
End ComponentRoleRepository.

Module PlatformRoleRepository.
Section Repo.
Context `{G : Gorm}.

Definition List : M (Table PlatformRole) (Result (list PlatformRole)) :=
  db_Find (Where (fun _ => true)).
Definition GetByID (id : UUID) : M (Table PlatformRole) (Result PlatformRole) :=
  db_First (Where (fun r => pr_ID r =? id)).
Definition GetByName (name : string) : M (Table PlatformRole) (Result PlatformRole) :=
  db_First (Where (fun r => String.eqb (pr_Name r) name)).
Definition Create (now : Time) (r : PlatformRole) : M (Table PlatformRole) (Result PlatformRole) :=
  db_Create now r.
Definition Update (now : Time) (r : PlatformRole) : M (Table PlatformRole) (Result PlatformRole) :=
  db_Save now r.
Definition Delete (now : Time) (id : UUID) : M (Table PlatformRole) (Result Z) :=
  db_Delete now (fun r => pr_ID r =? id).
Definition CountBindings (id : UUID) : M (Table PlatformRoleBinding) (Result Z) :=
  db_Count (fun b => prb_PlatformRoleID b =? id).
End Repo.
End PlatformRoleRepository.

Module PlatformRoleBindingRepository.
Section Repo.
Context `{G : Gorm}.

Definition matching (now : Time) (orgID : option UUID) (subject : string) (groups : list string)
  (b : PlatformRoleBinding) : bool :=
  names_subject (prb_SubjectType b) (prb_SubjectID b) subject groups &&
  match orgID with
  | Some org => bool_decide (prb_OrgID b = None) || bool_decide (prb_OrgID b = Some org)
  | None => bool_decide (prb_OrgID b = None)
  end &&
  withActiveGrant now (prb_ExpiresAt b).

Definition ListMatching (now : Time) (orgID : option UUID) (subject : string) (groups : list string)
  : M (Table PlatformRoleBinding) (Result (list PlatformRoleBinding)) :=
  db_Find (Where (matching now orgID subject groups)).

Definition listed (orgID : option UUID) (subjectType subjectID : string) (b : PlatformRoleBinding)
  : bool :=
  match orgID with Some _ => bool_decide (prb_OrgID b = orgID) | None => true end &&
  (empty_string subjectType || String.eqb (prb_SubjectType b) subjectType) &&
  (empty_string subjectID || String.eqb (prb_SubjectID b) subjectID).

Definition List (orgID : option UUID) (subjectType subjectID : string)
  : M (Table PlatformRoleBinding) (Result (list PlatformRoleBinding)) :=
  db_Find (Order [fun b => - prb_CreatedAt b] (Where (listed orgID subjectType subjectID))).

Definition GetByID (id : UUID) : M (Table PlatformRoleBinding) (Result PlatformRoleBinding) :=
  db_First (Where (fun b => prb_ID b =? id)).
Definition Create (now : Time) (b : PlatformRoleBinding)
  : M (Table PlatformRoleBinding) (Result PlatformRoleBinding) := db_Create now b.
Definition Delete (now : Time) (id : UUID) : M (Table PlatformRoleBinding) (Result Z) :=
  db_Delete now (fun b => prb_ID b =? id).
Definition DeleteBySubject (now : Time) (subjectType subjectID : string)
  : M (Table PlatformRoleBinding) (Result Z) :=
  db_Delete now (fun b => String.eqb (prb_SubjectType b) subjectType &&
                          String.eqb (prb_SubjectID b) subjectID).
Definition DeleteExpired (now : Time) : M (Table PlatformRoleBinding) (Result Z) :=
  db_Delete now (fun b => expiredScope now (prb_ExpiresAt b)).

(** An unexpired grant of the same role to the same subject. *)
Definition same_grant (now : Time) (orgID : option UUID) (subjectType subjectID : string)
  (roleID : UUID) (b : PlatformRoleBinding) : bool :=
  String.eqb (prb_SubjectType b) subjectType && String.eqb (prb_SubjectID b) subjectID &&
  (prb_PlatformRoleID b =? roleID) && bool_decide (prb_OrgID b = orgID) &&
  withActiveGrant now (prb_ExpiresAt b).

Definition ExistsActive (now : Time) (orgID : option UUID) (subjectType subjectID : string)
  (roleID : UUID) : M (Table PlatformRoleBinding) (Result bool) :=
  try* n := db_Count (same_grant now orgID subjectType subjectID roleID) in ret (Ok (0 <? n)).
End Repo.
End PlatformRoleBindingRepository.

Module ResourceOwnershipRepository.
Section Repo.
Context `{G : Gorm}.

Definition owns (resourceType : string) (resourceID : UUID) (o : ResourceOwnership) : bool :=
  String.eqb (ro_ResourceType o) resourceType && (ro_ResourceID o =? resourceID).

Definition Get (resourceType : string) (resourceID : UUID)
  : M (Table ResourceOwnership) (Result ResourceOwnership) :=
  db_First (Where (owns resourceType resourceID)).

Definition Upsert (now : Time) (o : ResourceOwnership)
  : M (Table ResourceOwnership) (Result ResourceOwnership) :=
  let* existing := db_First (Where (owns (ro_ResourceType o) (ro_ResourceID o))) in
  match existing with
  | Err e => if bool_decide (e = ErrRecordNotFound) then db_Create now o else ret (Err e)
  | Ok existing => db_Save now (o <| ro_ID := ro_ID existing |>)
  end.

Definition Delete (now : Time) (id : UUID) : M (Table ResourceOwnership) (Result Z) :=
  db_Delete now (fun o => ro_ID o =? id).
End Repo.
End ResourceOwnershipRepository.

Module RoleAPIMappingRepository.
Section Repo.
Context `{G : Gorm}.

Definition of_role (kind : string) (roleID : UUID) (m : RoleAPIMapping) : bool :=
  String.eqb (ram_RoleKind m) kind && (ram_RoleID m =? roleID).

Definition ListByRole (kind : string) (roleID : UUID)
  : M (Table RoleAPIMapping) (Result (list RoleAPIMapping)) :=
  db_Find (Where (of_role kind roleID)).

Definition DeleteByRole (now : Time) (kind : string) (roleID : UUID)
  : M (Table RoleAPIMapping) (Result Z) := db_Delete now (of_role kind roleID).

Definition Create (now : Time) (m : RoleAPIMapping)
  : M (Table RoleAPIMapping) (Result RoleAPIMapping) := db_Create now m.
End Repo.
End RoleAPIMappingRepository.

Module PermissionRequestRepository.
Section Repo.
Context `{G : Gorm}.

Definition ListByStatus (status : string)
  : M (Table PermissionRequest) (Result (list PermissionRequest)) :=
  Repository_ListWhere (fun r => String.eqb (preq_Status r) status).
Definition ListAll : M (Table PermissionRequest) (Result (list PermissionRequest)) :=
  db_Find (Order [fun r => - preq_CreatedAt r] (Where (fun _ => true))).
Definition ListByRequester (sub : string)
  : M (Table PermissionRequest) (Result (list PermissionRequest)) :=
  Repository_ListWhere (fun r => String.eqb (preq_Requester r) sub).
End Repo.
End PermissionRequestRepository.

Module PATRepository.
Section Repo.
Context `{G : Gorm}.

Definition Create (now : Time) (t : PersonalAccessToken)
  : M (Table PersonalAccessToken) (Result PersonalAccessToken) := db_Create now t.
Definition FindByHash (hash : string) : M (Table PersonalAccessToken) (Result PersonalAccessToken) :=
  db_First (Where (fun t => String.eqb (pat_TokenHash t) hash)).

Definition unrevoked (t : PersonalAccessToken) : bool := empty_ptr (pat_RevokedAt t).

Definition ListBySubject (subject : string)
  : M (Table PersonalAccessToken) (Result (list PersonalAccessToken)) :=
  db_Find (Order [fun t => - pat_CreatedAt t]
    (Where (fun t => String.eqb (pat_Subject t) subject && unrevoked t))).
Definition Revoke (now : Time) (subject : string) (id : UUID) (at_ : Time)
  : M (Table PersonalAccessToken) (Result Z) :=
  db_Updates now (fun t => (pat_ID t =? id) && String.eqb (pat_Subject t) subject && unrevoked t)
    (fun t => t <| pat_RevokedAt := Some at_ |>).
Definition TouchLastUsed (now : Time) (id : UUID) (at_ : Time)
  : M (Table PersonalAccessToken) unit :=
  let* _ := db_Updates now (fun t => pat_ID t =? id) (fun t => t <| pat_LastUsedAt := Some at_ |>) in
  ret tt.
End Repo.
End PATRepository.

(** * The audit log *)

Record AuditLog := mkAuditLog {
  al_ID : UUID; al_Timestamp : Time; al_SubjectType : string; al_Subject : string;
  al_Roles : string; al_SourceIP : string; al_Action : string; al_ResourceType : string;
  al_ResourceID : string; al_Result : string; al_StatusCode : Z; al_ComponentID : option UUID;
  al_Detail : string; al_Reason : string; al_Ticket : string }.
#[global] Instance AuditLog_eta : Eta AuditLog := fun r =>
  mkAuditLog (al_ID r) (al_Timestamp r) (al_SubjectType r) (al_Subject r) (al_Roles r)
    (al_SourceIP r) (al_Action r) (al_ResourceType r) (al_ResourceID r) (al_Result r)
    (al_StatusCode r) (al_ComponentID r) (al_Detail r) (al_Reason r) (al_Ticket r).

#[global] Instance AuditLog_model : Model AuditLog := {|
  pk := al_ID;
  created := fun id _ r => r <| al_ID := id |>;
  updated := fun _ r => r;
  alive := fun _ => true;
  deleted := fun _ _ => None;
  clash := fun _ _ => false;
|}.
#[global] Instance AuditLog_laws : ModelLaws AuditLog.
Proof. by split. Qed.

Record AuditQuery := mkAuditQuery {
  aq_Subject : string; aq_ActionPrefix : string; aq_ResourceType : string; aq_ResourceID : string;
  aq_Since : Time; aq_Until : Time; aq_Limit : Z; aq_Ticket : string; aq_ReasonContains : string;
  aq_ComponentID : option UUID }.

Module AuditLogRepository.
Section Repo.
Context `{G : Gorm}.

Definition Append (now : Time) (entry : AuditLog) : M (Table AuditLog) (Result AuditLog) :=
  db_Create now (entry <| al_Timestamp := stamp now (al_Timestamp entry) |>).

Definition Recent (limit : Z) : M (Table AuditLog) (Result (list AuditLog)) :=
  db_Find (LimitQ limit (Order [fun a => - al_Timestamp a] (Where (fun _ => true)))).

Definition asked (v s : string) : bool := empty_string v || String.eqb s v.

Definition matches (q : AuditQuery) (a : AuditLog) : bool :=
  asked (aq_Subject q) (al_Subject a) &&
  (empty_string (aq_ActionPrefix q) || like (aq_ActionPrefix q +:+ "%") (al_Action a)) &&
  asked (aq_ResourceType q) (al_ResourceType a) && asked (aq_ResourceID q) (al_ResourceID a) &&
  ((aq_Since q =? time_Zero) || (aq_Since q <=? al_Timestamp a)) &&
  ((aq_Until q =? time_Zero) || (al_Timestamp a <=? aq_Until q)) &&
  asked (aq_Ticket q) (al_Ticket a) &&
  (empty_string (aq_ReasonContains q) || ilike ("%" +:+ aq_ReasonContains q +:+ "%") (al_Reason a)) &&
  match aq_ComponentID q with Some _ => bool_decide (al_ComponentID a = aq_ComponentID q) | None => true end.

Definition clamp (limit : Z) : Z :=
  let limit := if limit <=? 0 then 100 else limit in
  if 500 <? limit then 500 else limit.

Definition Query (q : AuditQuery) : M (Table AuditLog) (Result (list AuditLog)) :=
  db_Find (LimitQ (clamp (aq_Limit q)) (Order [fun a => - al_Timestamp a] (Where (matches q)))).
End Repo.
End AuditLogRepository.
