(* ===== verification/RateLimit.v ===== *)
(** The in-memory token bucket of [internal/middleware/ratelimit.go]: the
    limiter itself, its sweeper and the address a request is counted under.

    Tokens are [float64] values; the arithmetic is IEEE 754's, as specified by
    the Standard Library's [SpecFloat]. *)
From stdpp Require Import base list strings gmap.
From Stdlib Require Import ZArith Lia Ascii.
From Stdlib Require Import SpecFloat.
From S2P Require Import Prelude Common Json GoLib.

Open Scope Z_scope.

(** * [float64] *)

Definition float64 : Type := spec_float.
Definition f64_of_Z (z : Z) : float64 := binary_normalize 53 1024 z 0 false.
Definition f64_add : float64 -> float64 -> float64 := SFadd 53 1024.
Definition f64_sub : float64 -> float64 -> float64 := SFsub 53 1024.
Definition f64_mul : float64 -> float64 -> float64 := SFmul 53 1024.
Definition f64_div : float64 -> float64 -> float64 := SFdiv 53 1024.

(** [d.Seconds()] *)
Definition Seconds (d : Duration) : float64 :=
  f64_add (f64_of_Z (Z.quot d Second)) (f64_div (f64_of_Z (Z.rem d Second)) (f64_of_Z Second)).

(** [t.Sub(u)] saturates. *)
Definition Sub (t u : Time) : Duration := Z.max (- 2 ^ 63) (Z.min (2 ^ 63 - 1) (t - u)).

(** * The limiter *)

Record bucket := mkBucket { bk_tokens : float64; bk_last : Time; bk_maxBurst : Z }.

(** The configuration, and the two maps under the mutex. *)
Record RateLimit := mkRateLimit { rl_rps : float64; rl_burst : Z }.
Record Limits := mkLimits { buckets : gmap string bucket; lastSeen : gmap string Time }.

Definition NewRateLimit (rps : float64) (burst : Z) : RateLimit :=
  mkRateLimit rps (if burst <? 1 then 1 else burst).

(** [rl == nil || rl.rps <= 0] *)
Definition disabled (rl : option RateLimit) : bool :=
  match rl with None => true | Some rl => SFleb (rl_rps rl) (f64_of_Z 0) end.

(** The tokens after the time since the last request was credited. *)
Definition refill (rl : RateLimit) (b : bucket) (now : Time) : float64 :=
  let elapsed := Seconds (Sub now (bk_last b)) in
  let tokens := f64_add (bk_tokens b) (f64_mul elapsed (rl_rps rl)) in
  if SFltb (f64_of_Z (bk_maxBurst b)) tokens then f64_of_Z (bk_maxBurst b) else tokens.

Definition allow (rl : RateLimit) (ip : string) (now : Time) (s : Limits) : bool * Limits :=
  match buckets s !! ip with
  | None =>
      (true, mkLimits (<[ip := mkBucket (f64_of_Z (rl_burst rl)) now (rl_burst rl)]> (buckets s))
                      (<[ip := now]> (lastSeen s)))
  | Some b =>
      let tokens := refill rl b now in
      let granted := SFleb (f64_of_Z 1) tokens in
      let tokens := if granted then f64_sub tokens (f64_of_Z 1) else tokens in
      (granted, mkLimits (<[ip := mkBucket tokens now (bk_maxBurst b)]> (buckets s))
                         (<[ip := now]> (lastSeen s)))
  end.

(** One tick of [StartSweeper]. *)
Definition sweep (stale : Duration) (now : Time) (s : Limits) : Limits :=
  let idle (ip : string) : bool :=
    match lastSeen s !! ip with Some t => t <? now - stale | None => false end in
  mkLimits (filter (fun '(ip, _) => idle ip = false) (buckets s))
           (filter (fun '(ip, _) => idle ip = false) (lastSeen s)).

(** * The client's address *)

(** [-1] when there is none. *)
Fixpoint lastComma (s : string) : Z :=
  match s with
  | "" => -1
  | String c s' =>
      let i := lastComma s' in
      if 0 <=? i then i + 1 else if Ascii.eqb c ","%char then 0 else -1
  end.

Definition blank (c : ascii) : bool := Ascii.eqb c " "%char || Ascii.eqb c "009"%char.

Fixpoint trim_left (s : string) : string :=
  match s with
  | String c s' => if blank c then trim_left s' else s
  | "" => ""
  end.

Fixpoint trim_right (s : string) : string :=
  match s with
  | "" => ""
  | String c s' =>
      let t := trim_right s' in
      if String.eqb t "" && blank c then "" else String c t
  end.

Definition trimSpace (s : string) : string := trim_right (trim_left s).

(** [ClientIP] is gin's own answer, for a request without the two headers. *)
Definition clientIP (GetHeader : string -> string) (ClientIP : string) : string :=
  let xff := GetHeader "X-Forwarded-For" in
  if negb (empty_string xff) then
    let idx := lastComma xff in
    if 0 <=? idx
    then trimSpace (String.substring (Z.to_nat (idx + 1)) (String.length xff - Z.to_nat (idx + 1)) xff)
    else trimSpace xff
  else
    let rip := GetHeader "X-Real-IP" in
    if negb (empty_string rip) then trimSpace rip else ClientIP.

Example clientIP_last_hop :
  clientIP (fun h => if String.eqb h "X-Forwarded-For" then "10.0.0.1, 203.0.113.7 " else "") "x"
  = "203.0.113.7".
Proof. vm_compute. reflexivity. Qed.
