(* ===== verification/World.v ===== *)
(** The state the run subsystem works on: the tables behind its repositories,
    the link to the Runners and the state of the optional collaborators.

    The clock [w_now] stands still while a handler runs.  [Platform] gathers
    what the code takes from outside the repository's sources: [uuid.New],
    [UUID.String], [Time.Format(time.RFC3339)] in the process's time zone, the
    order Go's [range] visits a map in, and the collaborators' own state. *)
From stdpp Require Import base list strings gmap sorting.
From Stdlib Require Import ZArith Lia.
From S2P Require Import Prelude Common Gorm Json GoLib RunnerProto RunStore PipelineStore TargetStore.
From S2P Require Import EditStore.

Open Scope Z_scope.

(** * The outside world *)

Class Platform : Type := {
  Env : Type;
  uuid_New : nat -> UUID;
  uuid_String : UUID -> string;
  uuid_Parse : string -> option UUID;
  rand_Read : nat -> Result (list Z);
  Local : Location;
  FormatRFC3339 : Time -> string;
  map_range : list UUID -> list UUID;
}.

Class PlatformLaws (P : Platform) : Prop := {
  map_range_perm : forall l, map_range l ≡ₚ l;
}.

Section Text.
Context {P : Platform}.

(** [uuid.UUID] in a document: its text, or [null] for the zero value. *)
Definition Codec_UUID : Codec UUID := {|
  zero := uuid_Nil;
  enc := fun id => JStr (uuid_String id);
  dec := fun v => match v with
    | JStr s => match uuid_Parse s with Some id => (id, true) | None => (uuid_Nil, false) end
    | JNull => (uuid_Nil, true)
    | _ => (uuid_Nil, false)
    end;
  wf := fun id => uuid_Parse (uuid_String id) = Some id;
|}.

Lemma CodecLaws_UUID : @CodecLaws UUID Codec_UUID.
Proof. split; [|done]. intros id Hid. simpl in *. by rewrite Hid. Qed.
End Text.

(** One frame on a Runner connection: the [type] and the marshalled payload. *)
Record Frame := mkFrame { frame_Type : string; frame_Payload : RawJSON }.

Section Frames.
Context {X : MetaV1}.

Definition frame_of (m : HubMessage) : Frame :=
  mkFrame (MessageType m)
    (match m with
     | MessageApplyPipelineRun p => Marshal p
     | MessageApproveTask p => Marshal p
     | MessageRerunTask p => Marshal p
     | MessageCancelPipelineRun p => Marshal p
     | MessageRolloutControl p => Marshal p
     | MessageAgentOp p => Marshal p
     end).
End Frames.

(** [gateway.ErrNoRunner]. *)
Definition ErrNoRunner : GoError := ESentinel "gateway: no runner connected for target".

(** The [Dispatcher] interface of the run service: every method sends one
    payload to the Runner of a target.  [delivered] lists the frames handed to
    a connection, oldest first. *)
Class Dispatcher : Type := {
  Link : Type;
  delivered : Link -> list (UUID * HubMessage);
  connected : UUID -> Link -> bool;
  d_send : UUID -> HubMessage -> Link -> option GoError * Link;
}.

Class DispatcherLaws (D : Dispatcher) : Prop := {
  send_ok : forall t m l l', d_send t m l = (None, l') ->
    delivered l' = delivered l ++ [(t, m)] /\ connected t l = true;
  send_err : forall t m l e l', d_send t m l = (Some e, l') -> delivered l' = delivered l;
  send_offline : forall t m l, connected t l = false -> d_send t m l = (Some ErrNoRunner, l);
  send_connected : forall t m l r l', d_send t m l = (r, l') ->
    forall t', connected t' l' = connected t' l;
}.

(** * The state *)

Section World.
Context {G : Gorm} {P : Platform} {D : Dispatcher}.

Record World := mkWorld {
  w_now : Time;
  w_uuids : nat;
  w_pipelines : Table Pipeline;
  w_stages : Table PipelineStage;
  w_templates : Table PipelineTaskTemplate;
  w_targets : Table Target;
  w_runs : Table PipelineRun;
  w_tasks : Table TaskRun;
  w_jobs : Table DispatchJob;
  w_logs : Table TaskRunLog;
  w_approvals : Table PipelineApproval;
  w_policies : Table ApprovalPolicy;
  w_rollouts : Table RolloutRun;
  w_link : Link;
  w_env : Env;
  w_versions : Table PipelineVersion;
  w_triggers : Table PipelineTrigger;
  w_agent_ops : Table AgentOp;
  w_agent_op_logs : Table AgentOpLog;
}.

#[global] Instance World_eta : Eta World := fun w =>
  mkWorld (w_now w) (w_uuids w) (w_pipelines w) (w_stages w) (w_templates w) (w_targets w)
    (w_runs w) (w_tasks w) (w_jobs w) (w_logs w) (w_approvals w) (w_policies w) (w_rollouts w)
    (w_link w) (w_env w) (w_versions w) (w_triggers w) (w_agent_ops w) (w_agent_op_logs w).

(** [time.Now()] *)
Definition time_Now : M World Time := fun w => (w_now w, w).

(** [uuid.New()] *)
Definition uuid_new : M World UUID :=
  fun w => (uuid_New (w_uuids w), w <| w_uuids := S (w_uuids w) |>).

(** [rand.Read] of sixteen bytes. *)
Definition rand_read : M World (Result (list Z)) :=
  fun w => (rand_Read (w_uuids w), w <| w_uuids := S (w_uuids w) |>).

(** A statement on one table, given the current time. *)
Definition stmt {T A} (proj : World -> T) {S : Setter proj} (m : Time -> M T A) : M World A :=
  let* now := time_Now in zoom proj (m now).

Definition send (t : UUID) (m : HubMessage) : M World (option GoError) :=
  zoom w_link (d_send t m).

(** ** The service's optional collaborators

    The nil-able fields of [PipelineRunService]: [None] (or [false] for a store
    whose table is part of the state) when [main] did not wire them. *)
Record VarSource := mkVarSource {
  ComponentParams : UUID -> M World (list Param);
  GroupParams : UUID -> M World (list Param);
}.

Record PipelineRunService := mkPipelineRunService {
  varSource : option VarSource;
  approvalRepo : bool;
  componentMeta : option (UUID -> M World (Result (UUID * UUID)));
  environmentMeta : option (UUID -> UUID -> string -> M World (option UUID));
  runConcurrencyLimit : Z;
  productionPolicy : option (list UUID -> M World (Result (list UUID)));
  finishedHook : option (UUID -> string -> M World unit);
  notifySink : option (string -> string -> string -> string -> M World unit);
  changeWindowGuard : option (M World (option GoError));
  componentGuard : option (UUID -> M World (Result string));
  approvalPolicyStore : bool;
  artifactRegistry : option (UUID -> UUID -> UUID -> string -> string -> list string -> M World unit);
  jobServiceAccount : string;
  rolloutStore : bool;
}.
#[global] Instance PipelineRunService_eta : Eta PipelineRunService := fun s =>
  mkPipelineRunService (varSource s) (approvalRepo s) (componentMeta s) (environmentMeta s)
    (runConcurrencyLimit s) (productionPolicy s) (finishedHook s) (notifySink s)
    (changeWindowGuard s) (componentGuard s) (approvalPolicyStore s) (artifactRegistry s)
    (jobServiceAccount s) (rolloutStore s).

(** A best-effort collaborator: absent, nothing happens; its panics are
    recovered, so it always hands control back. *)
Definition call_opt {A} (f : option A) (k : A -> M World unit) : M World unit :=
  match f with Some g => k g | None => ret tt end.
End World.
