(* ===== verification/Admin.v ===== *)
(** The state of the administrative part of the hub: permissions, the service
    tree, environments, configuration and artifacts, with the object store and
    the rate limiter of the process.  It is the same database as [World]'s;
    the tables both parts use (pipelines, stages, templates, runs, targets,
    agent operations) appear in each.

    [Transactions] is gorm's [DB.Transaction] over several tables: the body's
    statements take effect together or not at all. *)
From stdpp Require Import base list strings gmap sorting.
From Stdlib Require Import ZArith Lia.
From S2P Require Import Prelude Common Gorm Json GoLib RunnerProto RunStore PipelineStore TargetStore.
From S2P Require Import EditStore OrgStore SiteStore PermStore RateLimit World.

Open Scope Z_scope.

(** The object store behind the artifacts, as the hub sees it: the keys it
    holds, and operations that may fail. *)
Class ObjectStore : Type := {
  Bucket : Type;
  bucket_keys : Bucket -> list string;
  store_Delete : string -> Bucket -> option GoError * Bucket;
  store_ListObjects : string -> Z -> Bucket -> Result (list string * bool) * Bucket;
  store_PresignDownload : string -> Duration -> Bucket -> Result string * Bucket;
  store_PresignUpload : string -> Duration -> Bucket -> Result string * Bucket;
}.

Class Transactions : Type := {
  db_Tx : forall {S A : Type}, M S (Result A) -> M S (Result A);
}.

(** BEGIN, the body on an unchanged state, then COMMIT; an error of the body, of
    BEGIN or of COMMIT leaves everything as it was. *)
Class TransactionsLaws (T : Transactions) : Prop := {
  Tx_spec : forall {S A : Type} (body : M S (Result A)) s res s',
    db_Tx body s = (res, s') ->
    (exists a, res = Ok a /\ body s = (Ok a, s')) \/ (exists e, res = Err e /\ s' = s);
}.

Section Admin.
Context {G : Gorm} {P : Platform} {O : ObjectStore}.

Record Admin := mkAdmin {
  a_now : Time;
  a_uuids : nat;
  a_orgs : Table Org;
  a_trees : Table ServiceTree;
  a_services : Table Service;
  a_components : Table Component;
  a_deps : Table ComponentDependency;
  a_environments : Table Environment;
  a_configs : Table ComponentConfig;
  a_config_history : Table ComponentConfigHistory;
  a_artifacts : Table Artifact;
  a_pipelines : Table Pipeline;
  a_stages : Table PipelineStage;
  a_templates : Table PipelineTaskTemplate;
  a_runs : Table PipelineRun;
  a_targets : Table Target;
  a_agent_ops : Table AgentOp;
  a_bindings : Table ComponentRoleBinding;
  a_component_roles : Table ComponentRole;
  a_platform_roles : Table PlatformRole;
  a_platform_bindings : Table PlatformRoleBinding;
  a_ownership : Table ResourceOwnership;
  a_mappings : Table RoleAPIMapping;
  a_requests : Table PermissionRequest;
  a_tokens : Table PersonalAccessToken;
  a_audit : Table AuditLog;
  a_snapshots : Table ConfigSnapshot;
  a_var_groups : Table VariableGroup;
  a_var_bindings : Table ComponentVariableGroupBinding;
  a_env_groups : Table EnvironmentGroup;
  a_credentials : Table Credential;

  a_bucket : Bucket;
  a_limits : Limits;
}.

#[global] Instance Admin_eta : Eta Admin := fun s =>
  mkAdmin (a_now s) (a_uuids s) (a_orgs s) (a_trees s) (a_services s) (a_components s) (a_deps s)
    (a_environments s) (a_configs s) (a_config_history s) (a_artifacts s) (a_pipelines s)
    (a_stages s) (a_templates s) (a_runs s) (a_targets s) (a_agent_ops s) (a_bindings s)
    (a_component_roles s) (a_platform_roles s) (a_platform_bindings s) (a_ownership s)
    (a_mappings s) (a_requests s) (a_tokens s) (a_audit s)
    (a_snapshots s) (a_var_groups s) (a_var_bindings s) (a_env_groups s) (a_credentials s)
    (a_bucket s) (a_limits s).

(** [time.Now()] *)
Definition now_ : M Admin Time := fun s => (a_now s, s).

(** [rand.Read] of sixteen bytes. *)
Definition random_ : M Admin (Result (list Z)) :=
  fun s => (rand_Read (a_uuids s), s <| a_uuids := S (a_uuids s) |>).

(** A statement on one table, given the current time. *)
Definition on {T A} (proj : Admin -> T) {S : Setter proj} (m : Time -> M T A) : M Admin A :=
  let* now := now_ in zoom proj (m now).

(** A statement on one table with a subquery over others. *)
Definition on_sub {B T A} (proj : Admin -> T) {S : Setter proj} (sub : Admin -> B)
    (m : Time -> B -> M T A) : M Admin A :=
  let* s := get in zoom proj (m (a_now s) (sub s)).
End Admin.

(** [return s.repo.X(...)] where only the error is handed back. *)
Definition void {S A} (m : M S (Result A)) : M S (Result unit) := try* _ := m in ret (Ok tt).
