(* ===== verification/Catalog.v ===== *)
(** The service tree.  First, deleting a component or a service together with
    what it contains ([internal/cascade/deleter.go]), and the counts of active
    runs that guard the deletion ([internal/run/repository/pipeline_run.go]);
    a subquery built with [tx.Table] reads all rows of its table, deleted ones
    too.  Then components, services and the dependency graph
    ([internal/component/service/component.go], [dependency.go],
    [deployable_version.go], [internal/catalog/service/service.go]). *)
From stdpp Require Import base list strings gmap.
From Stdlib Require Import ZArith Lia.
From S2P Require Import Prelude Common Gorm Json GoLib RunnerProto RunStore PipelineStore TargetStore.
From S2P Require Import EditStore OrgStore SiteStore PermStore RateLimit World Admin.

Open Scope Z_scope.

(** [activePhases] of the component and catalog services. *)
Definition activePhases : list string := ["Pending"; "Running"; "WaitingApproval"].

(** [SELECT id FROM components WHERE ...] *)
Definition component_ids (scope : Component -> bool) (l : list Component) : list UUID :=
  cmp_ID <$> filter (fun c => scope c = true) l.
(** [SELECT id FROM pipelines WHERE component_id IN ids] *)
Definition pipeline_ids (ids : list UUID) (l : list Pipeline) : list UUID :=
  pl_ID <$> filter (fun p => pl_ComponentID p ∈ ids) l.
(** [SELECT id FROM pipeline_stages WHERE pipeline_id IN ids] *)
Definition stage_ids (ids : list UUID) (l : list PipelineStage) : list UUID :=
  st_ID <$> filter (fun st => st_PipelineID st ∈ ids) l.

Section Cascade.
Context {G : Gorm} {P : Platform} {O : ObjectStore} {X : Transactions}.

(** ** Active runs: [pipeline_runs JOIN pipelines JOIN components] *)

Definition run_under (pipelines : list UUID) (phases : list string) (r : PipelineRun) : bool :=
  bool_decide (run_PipelineID r ∈ pipelines) && bool_decide (run_Phase r ∈ phases).

Definition countActiveByComponent (componentID : UUID) (phases : list string) : M Admin (Result Z) :=
  match phases with
  | [] => ret (Ok 0)
  | _ => on_sub a_runs (fun s => pipeline_ids [componentID] (rows (a_pipelines s)))
           (fun _ pipelines => db_Count (run_under pipelines phases))
  end.

Definition countActiveByService (serviceID : UUID) (phases : list string) : M Admin (Result Z) :=
  match phases with
  | [] => ret (Ok 0)
  | _ => on_sub a_runs
           (fun s => pipeline_ids (component_ids (fun c => cmp_ServiceID c =? serviceID)
                                     (rows (a_components s))) (rows (a_pipelines s)))
           (fun _ pipelines => db_Count (run_under pipelines phases))
  end.

Definition CountActiveByComponent := countActiveByComponent.
Definition CountActiveByComponentTx := countActiveByComponent.
Definition CountActiveByService := countActiveByService.
Definition CountActiveByServiceTx := countActiveByService.

(** ** [deleteComponents] *)

Definition ids_of (scope : Component -> bool) (s : Admin) : list UUID :=
  component_ids scope (rows (a_components s)).
Definition pipelines_of (scope : Component -> bool) (s : Admin) : list UUID :=
  pipeline_ids (ids_of scope s) (rows (a_pipelines s)).
Definition stages_of (scope : Component -> bool) (s : Admin) : list UUID :=
  stage_ids (pipelines_of scope s) (rows (a_stages s)).

(** The update of the artifacts: [Table] without a model, so no soft-delete
    scope and no update stamp. *)
Definition mark_artifact (now : Time) (a : Artifact) : Artifact :=
  a <| art_CleanupState := CleanupStatePendingDeletion |> <| art_ExpiresAt := Some now |>.

Definition steps (scope : Component -> bool) : list (M Admin (Result Z)) := [
  on_sub a_templates (stages_of scope) (fun now ids =>
    db_Delete now (fun t => bool_decide (tpl_StageID t ∈ ids)));
  on_sub a_stages (pipelines_of scope) (fun now ids =>
    db_Delete now (fun st => bool_decide (st_PipelineID st ∈ ids)));
  on_sub a_pipelines (ids_of scope) (fun now ids =>
    db_Delete now (fun p => bool_decide (pl_ComponentID p ∈ ids)));
  on_sub a_environments (ids_of scope) (fun now ids =>
    db_Delete now (fun e => bool_decide (env_ComponentID e ∈ ids)));
  on_sub a_configs (ids_of scope) (fun now ids =>
    db_Delete now (fun c => bool_decide (cfg_ComponentID c ∈ ids)));
  on_sub a_bindings (ids_of scope) (fun now ids =>
    db_Delete now (fun b => bool_decide (crb_ComponentID b ∈ ids)));
  on_sub a_artifacts (ids_of scope) (fun now ids =>
    db_Updates now (fun a => bool_decide (art_ComponentID a ∈ ids) &&
      negb (String.eqb (art_CleanupState a) CleanupStatePendingDeletion)) (mark_artifact now));
  on_sub a_components (ids_of scope) (fun now ids =>
    db_Delete now (fun c => bool_decide (cmp_ID c ∈ ids)))].

Definition deleteComponents (scope : Component -> bool) : M Admin (Result unit) :=
  for_each_err (steps scope) (fun step => void step).

Definition run_guard (guard : option (M Admin (Result unit))) : M Admin (Result unit) :=
  match guard with Some g => g | None => ret (Ok tt) end.

Definition DeleteComponentSubtree (componentID : UUID) (guard : option (M Admin (Result unit)))
  : M Admin (Result unit) :=
  db_Tx (try* _ := run_guard guard in deleteComponents (fun c => cmp_ID c =? componentID)).

Definition DeleteServiceSubtree (serviceID : UUID) (guard : option (M Admin (Result unit)))
  : M Admin (Result unit) :=
  db_Tx (
    try* _ := run_guard guard in
    try* _ := deleteComponents (fun c => cmp_ServiceID c =? serviceID) in
    void (on a_services (fun now => db_Delete now (fun svc => svc_ID svc =? serviceID)))).
End Cascade.

(** * Components, services and the dependency graph *)

(** A nil pointer met inside a transaction: the panic rolls it back and the
    recovery middleware answers the request with an error. *)
Definition nil_dereference : GoError :=
  ELib "runtime error: invalid memory address or nil pointer dereference".

(** [sql.ErrNoRows] *)
Definition ErrNoRows : GoError := ESentinel "sql: no rows in result set".

(** * Components *)

Module ComponentService.
(** Which collaborators are wired in. *)
Record Config := mkConfig {
  cs_bindings : bool;
  cs_runCounter : bool;
  cs_cascader : bool;
  cs_artifactSource : bool }.

(** The service as [main] builds it. *)
Definition wired : Config := mkConfig true true true true.

Record DeployableVersion := mkDeployableVersion {
  dv_Version : string; dv_PublishedAt : Time; dv_Source : string; dv_ArtifactRef : string }.

Definition still_active (n : Z) : GoError :=
  EApi (DomainErrorWithReasons KindComponent StatusConflict 1
    "component still has in-progress runs; terminate them before deleting"
    [Sprintf "%d 条运行仍在进行中（Pending/Running/WaitingApproval），请先终止相关流水线运行" [AInt n]]).

Section Service.
Context {G : Gorm} {P : Platform} {O : ObjectStore} {X : Transactions}.

(** [components JOIN services JOIN service_trees], by primary keys. *)
Definition GetOrgID (componentID : UUID) : M Admin (Result UUID) :=
  let* r := on_sub a_trees
    (fun s => svc_ServiceTreeID <$> filter (fun svc => svc_ID svc ∈
       (cmp_ServiceID <$> filter (fun c => cmp_ID c = componentID) (rows (a_components s))))
       (rows (a_services s)))
    (fun _ trees => db_First (Where (fun t => bool_decide (tree_ID t ∈ trees)))) in
  ret (match r with
       | Ok t => Ok (tree_OrgID t)
       | Err e => if errors_Is e ErrRecordNotFound then Err ErrNoRows else Err e
       end).

Definition orgIDPtr (orgID : UUID) : option UUID := if orgID =? uuid_Nil then None else Some orgID.

Definition owner_of (c : Component) : option (string * string) :=
  match cmp_OwnerSub c, cmp_OwnerGroup c with
  | Some sub, _ => Some ("user", sub)
  | None, Some group => Some ("group", group)
  | None, None => None
  end.

Definition bindOwner (s : Config) (c : Component) : M Admin (Result unit) :=
  if negb (cs_bindings s) then ret (Ok tt)
  else match owner_of c with
  | None => ret (Ok tt)
  | Some (subjectType, subjectID) =>
      try* admin := zoom a_component_roles (ComponentRoleRepository.GetByName "component-admin") in
      let* orgID := GetOrgID (cmp_ID c) in
      void (on a_bindings (fun now => BindingRepository.Create now
        (mkComponentRoleBinding uuid_Nil (cmp_ID c) (orgIDPtr (ok_or uuid_Nil orgID)) subjectType
           subjectID (Some (cr_ID admin)) None 0 None)))
  end.

(** The created row is handed back through the pointer. *)
Definition Create (s : Config) (c : Component) : M Admin (Result Component) :=
  try* c := on a_components (fun now => Repository_Create now c) in
  let* _ := bindOwner s c in
  ret (Ok c).

Definition Get (id : UUID) : M Admin (Result Component) := zoom a_components (Repository_GetByID id).

Definition ListByService (serviceID : UUID) (p : Pagination) : M Admin (Result (list Component * Z)) :=
  zoom a_components (ComponentRepository.FindByServiceID serviceID p).

Definition invalid_lifecycle (l : string) : GoError :=
  EApi (DomainErrorWithReasons KindComponent StatusBadRequest 4 "invalid lifecycle"
    [Sprintf "lifecycle %q 非法（可选 active/frozen/deprecated）" [AStr l]]).

Definition Update (id : UUID) (c : Component) : M Admin (Result Component) :=
  let c := c <| cmp_Lifecycle := default_str LifecycleActive (cmp_Lifecycle c) |> in
  if negb (ValidLifecycle (cmp_Lifecycle c)) then ret (Err (invalid_lifecycle (cmp_Lifecycle c)))
  else on a_components (fun now => Repository_Update now (c <| cmp_ID := id |>)).

(** The count inside the cascade's transaction. *)
Definition guard (s : Config) (id : UUID) : M Admin (Result unit) :=
  if negb (cs_runCounter s) then ret (Err nil_dereference)
  else
    try* n := CountActiveByComponentTx id activePhases in
    ret (if 0 <? n then Err (still_active n) else Ok tt).

Definition fast_path (s : Config) (id : UUID) : M Admin (Result unit) :=
  if negb (cs_runCounter s) then ret (Ok tt)
  else
    try* n := CountActiveByComponent id activePhases in
    ret (if 0 <? n then Err (still_active n) else Ok tt).

Definition Delete (s : Config) (id : UUID) : M Admin (Result unit) :=
  try* _ := fast_path s id in
  if cs_cascader s then DeleteComponentSubtree id (Some (guard s id))
  else void (on a_components (fun now => Repository_Delete now id)).

Definition ListDeployableVersions (s : Config) (componentID : UUID) (limit : Z)
  : M Admin (Result (list DeployableVersion)) :=
  if negb (cs_artifactSource s) then ret (Ok [])
  else
    try* arts := zoom a_artifacts (ArtifactRepository.ListDeployableVersions componentID limit) in
    ret (Ok ((fun a => mkDeployableVersion (art_Version a) (art_CreatedAt a) "artifact"
                         (uuid_String (art_ID a))) <$> arts)).
End Service.
End ComponentService.

(** * Services of the catalog *)

Module ServiceService.
Record Config := mkConfig { ss_runCounter : bool; ss_treeLookup : bool; ss_cascader : bool }.
Definition wired : Config := mkConfig true true true.

Definition still_active (n : Z) : GoError :=
  EApi (DomainErrorWithReasons KindService StatusConflict 1
    "service still has in-progress runs; terminate them before deleting"
    [Sprintf "%d 条运行仍在进行中（Pending/Running/WaitingApproval），请先终止服务下相关组件的运行" [AInt n]]).

Section Service.
Context {G : Gorm} {P : Platform} {O : ObjectStore} {X : Transactions}.

Definition Create (s : Config) (svc : Service) : M Admin (Result Service) :=
  if svc_ServiceTreeID svc =? uuid_Nil
  then ret (Err (EApi (DomainError KindService StatusBadRequest 2 "serviceTreeId is required")))
  else
    try* ok := (if ss_treeLookup s
                then zoom a_trees (ServiceTreeRepository.ServiceTreeExists (svc_ServiceTreeID svc))
                else ret (Ok true)) in
    if negb ok
    then ret (Err (EApi (DomainError KindService StatusBadRequest 3 "serviceTreeId does not exist")))
    else on a_services (fun now => Repository_Create now svc).

Definition Get (id : UUID) : M Admin (Result Service) := zoom a_services (Repository_GetByID id).

Definition ListByServiceTree (treeID : UUID) (p : Pagination) : M Admin (Result (list Service * Z)) :=
  zoom a_services (ServiceRepository.FindByServiceTreeID treeID p).

Definition ListByOrg (s : Config) (orgID : UUID) (p : Pagination) : M Admin (Result (list Service * Z)) :=
  if negb (ss_treeLookup s)
  then ret (Err (EApi (DomainError KindCatalog StatusInternalServerError 3
                         "catalog: service-tree lookup is not configured")))
  else
    try* treeID := zoom a_trees (ServiceTreeRepository.ServiceTreeIDByOrg orgID) in
    zoom a_services (ServiceRepository.FindByServiceTreeID treeID p).

Definition Update (id : UUID) (svc : Service) : M Admin (Result Service) :=
  on a_services (fun now => Repository_Update now (svc <| svc_ID := id |>)).

Definition guard (s : Config) (id : UUID) : M Admin (Result unit) :=
  if negb (ss_runCounter s) then ret (Err nil_dereference)
  else
    try* n := CountActiveByServiceTx id activePhases in
    ret (if 0 <? n then Err (still_active n) else Ok tt).

Definition fast_path (s : Config) (id : UUID) : M Admin (Result unit) :=
  if negb (ss_runCounter s) then ret (Ok tt)
  else
    try* n := CountActiveByService id activePhases in
    ret (if 0 <? n then Err (still_active n) else Ok tt).

Definition Delete (s : Config) (id : UUID) : M Admin (Result unit) :=
  try* _ := fast_path s id in
  if ss_cascader s then DeleteServiceSubtree id (Some (guard s id))
  else void (on a_services (fun now => Repository_Delete now id)).
End Service.
End ServiceService.

(** * Dependencies *)

(** One round of the search in [closesCycle]: pop the top of the stack, then
    push its unseen successors; [seen] is the map of nodes ever pushed. *)
Definition push_next (acc : list UUID * list UUID) (next : UUID) : list UUID * list UUID :=
  let '(seen, stack) := acc in
  if bool_decide (next ∈ seen) then acc else (next :: seen, next :: stack).

Definition adj (edges : list ComponentDependency) (cur : UUID) : list UUID :=
  dep_DependsOnID <$> filter (fun e => dep_ComponentID e = cur) edges.

Definition search_step (edges : list ComponentDependency) (from : UUID)
    (st : list UUID * list UUID) : (list UUID * list UUID) + bool :=
  let '(seen, stack) := st in
  match stack with
  | [] => inr false
  | cur :: stack =>
      if cur =? from then inr true
      else inl (foldl push_next (seen, stack) (adj edges cur))
  end.

(** Every node is pushed once and is [to] or the end of an edge. *)
Definition search_fuel (edges : list ComponentDependency) : positive :=
  Pos.of_succ_nat (S (length edges)).

Definition closesCycle (edges : list ComponentDependency) (from to : UUID) : Go bool :=
  match loop (search_fuel edges) (search_step edges from) ([to], [to]) with
  | inl _ => Hangs
  | inr b => Returns b
  end.

Module DependencyService.
Section Service.
Context {G : Gorm} {P : Platform} {O : ObjectStore}.

Definition short (id : UUID) : string := String.substring 0 8 (uuid_String id).

Definition List (componentID : UUID) (upstream : bool) : M Admin (Result (list ComponentDependency)) :=
  zoom a_deps (DependencyRepository.ListByComponent componentID upstream).

Definition self_dependency : GoError :=
  EApi (DomainErrorWithReasons KindComponent StatusBadRequest 1 "self dependency" ["组件不能依赖自身"]).
Definition duplicate_dependency : GoError :=
  EApi (DomainErrorWithReasons KindComponent StatusConflict 2 "duplicate dependency" ["该依赖关系已存在"]).
Definition circular_dependency (componentID dependsOnID : UUID) : GoError :=
  EApi (DomainErrorWithReasons KindComponent StatusConflict 3 "circular dependency"
    [Sprintf "加入 %s → %s 会形成环状依赖，已被拒绝" [AStr (short componentID); AStr (short dependsOnID)]]).

Definition Add (componentID dependsOnID : UUID) : M Admin (Go (Result ComponentDependency)) :=
  if componentID =? dependsOnID then ret (Returns (Err self_dependency))
  else
    let* c := zoom a_components (Repository_GetByID componentID) in
    match c with
    | Err e => ret (Returns (Err e))
    | Ok _ =>
        let* d := zoom a_components (Repository_GetByID dependsOnID) in
        match d with
        | Err e => ret (Returns (Err (EWrap "被依赖组件不存在: %w" [] e)))
        | Ok _ =>
            let* dup := zoom a_deps (DependencyRepository.Exists componentID dependsOnID) in
            if ok_or false dup then ret (Returns (Err duplicate_dependency))
            else
              let* all := zoom a_deps DependencyRepository.All in
              match all with
              | Err e => ret (Returns (Err e))
              | Ok all =>
                  match closesCycle all componentID dependsOnID with
                  | Hangs => ret Hangs
                  | Panics m => ret (Panics m)
                  | Returns true => ret (Returns (Err (circular_dependency componentID dependsOnID)))
                  | Returns false =>
                      let* r := on a_deps (fun now => db_Create now
                        (mkComponentDependency uuid_Nil componentID dependsOnID 0)) in
                      ret (Returns r)
                  end
              end
        end
    end.

Definition Remove (componentID dependsOnID : UUID) : M Admin (Result unit) :=
  void (on a_deps (fun now => DependencyRepository.Delete now componentID dependsOnID)).
End Service.
End DependencyService.
