(* ===== verification/Artifacts.v ===== *)
(** Artifacts: the service, the retention collector and the reconciliation
    with the object store ([internal/artifact/service]), and the rules for
    storage keys ([internal/artifact/storage/storage.go]). *)
From stdpp Require Import base list strings gmap sorting.
From Stdlib Require Import ZArith Lia Ascii.
From S2P Require Import Prelude Common Gorm Json GoLib RunnerProto RunStore PipelineStore TargetStore.
From S2P Require Import EditStore OrgStore SiteStore PermStore RateLimit World Admin.

Open Scope Z_scope.

(** * Storage keys *)

Definition ErrNotConfigured : GoError :=
  ESentinel "storage: object storage not configured (set ARTIFACT_STORE_DRIVER)".
Definition ErrBadKey : GoError := ESentinel "storage: invalid storage key".

Definition splitPath (key : string) : list string := Split "/"%char key.

Definition bad_part (part : string) : bool :=
  empty_string part || String.eqb part "." || String.eqb part "..".

Definition ValidateKey (key : string) : option GoError :=
  if empty_string key || (512 <? Z.of_nat (String.length key)) then Some ErrBadKey
  else if HasPrefix key "/" then Some ErrBadKey
  else if existsb bad_part (splitPath key) then Some ErrBadKey
  else None.

(** * The service *)

Module ArtifactService.
(** [as_store]: an object store is configured. *)
Record Config := mkConfig { as_store : bool; as_urlExpiry : Duration }.

Definition NewArtifactService (store : bool) (urlExpiry : Duration) : Config :=
  mkConfig store (if urlExpiry <=? 0 then 15 * Minute else urlExpiry).

Definition suffix_in (key : string) (l : list string) : bool := existsb (HasSuffix key) l.

Definition classifyArtifact (key : string) : string :=
  if suffix_in key [".tgz"; ".tar.gz"; ".tar"] then "archive"
  else if suffix_in key [".whl"; ".jar"; ".bin"] then "binary"
  else if suffix_in key [".img"; ".image"] then "image"
  else "generic".

Record ScanResultInput := mkScanResultInput {
  in_ScanStatus : string; in_Signed : option bool; in_Signature : string; in_SbomSummary : string;
  in_SevCritical : Z; in_SevHigh : Z; in_SevMedium : Z; in_SevLow : Z }.
#[export] Instance ScanResultInput_eta : Eta ScanResultInput := fun r =>
  mkScanResultInput (in_ScanStatus r) (in_Signed r) (in_Signature r) (in_SbomSummary r)
    (in_SevCritical r) (in_SevHigh r) (in_SevMedium r) (in_SevLow r).

Definition invalid_scan_status : GoError :=
  EApi (DomainErrorWithReasons KindArtifact StatusBadRequest 1 "invalid scan status"
    ["scanStatus 须为 unscanned/scanning/scanned"]).

(** The columns of the update. *)
Definition scan_columns (in_ : ScanResultInput) (a : Artifact) : Artifact :=
  let a := a <| art_ScanStatus := in_ScanStatus in_ |>
    <| art_SevCritical := in_SevCritical in_ |> <| art_SevHigh := in_SevHigh in_ |>
    <| art_SevMedium := in_SevMedium in_ |> <| art_SevLow := in_SevLow in_ |> in
  let a := match in_Signed in_ with Some b => a <| art_Signed := b |> | None => a end in
  let a := if empty_string (in_Signature in_) then a else a <| art_Signature := in_Signature in_ |> in
  if empty_string (in_SbomSummary in_) then a else a <| art_SbomSummary := in_SbomSummary in_ |>.

Section Service.
Context {G : Gorm} {P : Platform} {O : ObjectStore}.

Definition Register (a : Artifact) : M Admin (Result Artifact) :=
  on a_artifacts (fun now => Repository_Create now a).

Definition produced (componentID runID taskRunID : UUID) (version key : string) : Artifact :=
  mkArtifact uuid_Nil componentID (Some runID) (Some taskRunID) version (classifyArtifact key) key
    None "" "" None "" 0 "" false "" "" 0 0 0 0.

(** One key of the loop; failures are logged. *)
Definition register_key (componentID runID taskRunID : UUID) (version key : string) : M Admin unit :=
  if empty_string key then ret tt
  else
    let* exists_ := zoom a_artifacts (ArtifactRepository.ExistsByComponentAndKey componentID key) in
    if ok_or false exists_ then ret tt
    else let* _ := Register (produced componentID runID taskRunID version key) in ret tt.

Definition RegisterProduced (componentID runID taskRunID : UUID) (taskName version : string)
    (storageKeys : list string) : M Admin unit :=
  for_each storageKeys (register_key componentID runID taskRunID version).

Definition KeyDownloadURL (s : Config) (key : string) : M Admin (Result string) :=
  if negb (as_store s) then ret (Err ErrNotConfigured)
  else zoom a_bucket (store_PresignDownload key (as_urlExpiry s)).

Definition Get (id : UUID) : M Admin (Result Artifact) := zoom a_artifacts (Repository_GetByID id).

Definition ListByComponent (componentID : UUID) (p : Pagination) : M Admin (Result (list Artifact * Z)) :=
  zoom a_artifacts (ArtifactRepository.FindByComponentID componentID p).

Definition Search (f : ArtifactSearchFilter) (p : Pagination) : M Admin (Result (list Artifact * Z)) :=
  zoom a_artifacts (ArtifactRepository.Search f p).

Definition ApplyScanResult (id : UUID) (in_ : ScanResultInput) : M Admin (Result unit) :=
  let in_ := in_ <| in_ScanStatus := default_str ScanScanned (in_ScanStatus in_) |> in
  if negb (existsb (String.eqb (in_ScanStatus in_)) [ScanUnscanned; ScanScanning; ScanScanned])
  then ret (Err invalid_scan_status)
  else void (on a_artifacts (fun now => ArtifactRepository.ApplyScanResult now id (scan_columns in_))).

Definition Delete (s : Config) (id : UUID) : M Admin (Result unit) :=
  try* a := zoom a_artifacts (Repository_GetByID id) in
  try* _ := on a_artifacts (fun now => Repository_Delete now id) in
  if negb (as_store s) then ret (Ok tt)
  else
    let* _ := zoom a_bucket (store_Delete (art_StorageKey a)) in
    ret (Ok tt).

Definition DownloadURL (s : Config) (id : UUID) : M Admin (Result string) :=
  if negb (as_store s) then ret (Err ErrNotConfigured)
  else
    try* a := zoom a_artifacts (Repository_GetByID id) in
    zoom a_bucket (store_PresignDownload (art_StorageKey a) (as_urlExpiry s)).

Definition UploadURL (s : Config) (key : string) : M Admin (Result string) :=
  if negb (as_store s) then ret (Err ErrNotConfigured)
  else zoom a_bucket (store_PresignUpload key (as_urlExpiry s)).
End Service.
End ArtifactService.

(** * Retention *)

Module ArtifactGC.
Record Config := mkConfig { gc_store : bool; gc_batch : Z }.

Definition DefaultArtifactGCBatch : Z := 100.
Definition NewArtifactGC (store : bool) (batch : Z) : Config :=
  mkConfig store (if batch <=? 0 then DefaultArtifactGCBatch else batch).

Record GCReport := mkGCReport {
  rep_CalledAt : Time; rep_Batch : Z; rep_Scanned : Z; rep_Deleted : Z; rep_ObjectsFailed : Z;
  rep_RowsFailed : Z; rep_PendingSample : list string }.
#[export] Instance GCReport_eta : Eta GCReport := fun r =>
  mkGCReport (rep_CalledAt r) (rep_Batch r) (rep_Scanned r) (rep_Deleted r) (rep_ObjectsFailed r)
    (rep_RowsFailed r) (rep_PendingSample r).

Definition MaxGCSample : Z := 20.

Definition Failed (r : GCReport) : bool := (0 <? rep_ObjectsFailed r) || (0 <? rep_RowsFailed r).

Definition object_failed (key : string) (rep : GCReport) : GCReport :=
  let rep := rep <| rep_ObjectsFailed := rep_ObjectsFailed rep + 1 |> in
  if Z.of_nat (length (rep_PendingSample rep)) <? MaxGCSample
  then rep <| rep_PendingSample := rep_PendingSample rep ++ [key] |> else rep.

Section Collector.
Context {G : Gorm} {P : Platform} {O : ObjectStore}.

Definition delete_object (g : Config) (key : string) : M Admin (option GoError) :=
  if gc_store g then zoom a_bucket (store_Delete key) else ret None.

(** One row of the batch: the object first, then the row. *)
Definition collect_row (g : Config) (rep : GCReport) (a : Artifact) : M Admin GCReport :=
  let* derr := delete_object g (art_StorageKey a) in
  match derr with
  | Some _ =>
      let* _ := on a_artifacts (fun now => ArtifactRepository.MarkCleanupPending now (art_ID a)) in
      ret (object_failed (art_StorageKey a) rep)
  | None =>
      let* r := on a_artifacts (fun now => Repository_Delete now (art_ID a)) in
      ret (match r with
           | Err _ => rep <| rep_RowsFailed := rep_RowsFailed rep + 1 |>
           | Ok _ => rep <| rep_Deleted := rep_Deleted rep + 1 |>
           end)
  end.

Fixpoint collect_rows (g : Config) (rep : GCReport) (l : list Artifact) : M Admin GCReport :=
  match l with
  | [] => ret rep
  | a :: l' => let* rep' := collect_row g rep a in collect_rows g rep' l'
  end.

Definition RunOnce (g : Config) (now : Time) : M Admin (Result GCReport) :=
  try* expired := zoom a_artifacts (ArtifactRepository.FindExpired now (gc_batch g)) in
  let* rep := collect_rows g (mkGCReport now (gc_batch g) (Z.of_nat (length expired)) 0 0 0 []) expired in
  ret (Ok rep).

(** One tick of the loop: the report is logged. *)
Definition collectOnce (g : Config) (now : Time) : M Admin unit := let* _ := RunOnce g now in ret tt.
End Collector.
End ArtifactGC.

(** * Reconciliation *)

Module ArtifactReconciler.
Definition DefaultMaxObjects : Z := 100000.
Definition DefaultMaxSample : Z := 100.

Record Config := mkConfig { ar_prefix : string; ar_maxObjects : Z; ar_maxSample : Z }.
Definition NewArtifactReconciler (prefix : string) : Config :=
  mkConfig prefix DefaultMaxObjects DefaultMaxSample.

Record ReconciliationReport := mkReconciliationReport {
  rr_CheckedAt : Time; rr_Prefix : string; rr_DBKeys : Z; rr_ObjectKeys : Z;
  rr_MissingObjects : Z; rr_OrphanObjects : Z; rr_MissingSample : list string;
  rr_OrphanSample : list string; rr_Truncated : bool }.

Definition Clean (r : ReconciliationReport) : bool :=
  (rr_MissingObjects r =? 0) && (rr_OrphanObjects r =? 0).

(** The set of the non-empty keys, a map without values. *)
Definition key_set (keys : list string) : gset string :=
  foldl (fun s k => if empty_string k then s else {[k]} ∪ s) ∅ keys.

(** The order of the two [range] loops is lost in the sort. *)
Definition DiffStorageKeys (dbKeys objectKeys : list string) : list string * list string :=
  let inDB := key_set dbKeys in
  let inStore := key_set objectKeys in
  (merge_sort String.le (filter (fun k => k ∉ inStore) (elements inDB)),
   merge_sort String.le (filter (fun k => k ∉ inDB) (elements inStore))).

Definition capList (l : list string) (n : Z) : list string :=
  if Z.of_nat (length l) <=? n then l else take (Z.to_nat n) l.

Definition positive_or (n default_ : Z) : Z := if n <=? 0 then default_ else n.

Definition RunOnce {G : Gorm} {P : Platform} {O : ObjectStore} (r : Config) (now : Time)
  : M Admin (Result ReconciliationReport) :=
  let limit := positive_or (ar_maxObjects r) DefaultMaxObjects in
  try* listed := zoom a_bucket (store_ListObjects (ar_prefix r) limit) in
  let '(objectKeys, truncated) := listed in
  try* dbKeys := zoom a_artifacts ArtifactRepository.ListStorageKeys in
  let '(missing, orphan) := DiffStorageKeys dbKeys objectKeys in
  let sample := positive_or (ar_maxSample r) DefaultMaxSample in
  ret (Ok (mkReconciliationReport now (ar_prefix r) (Z.of_nat (length dbKeys))
    (Z.of_nat (length objectKeys)) (Z.of_nat (length missing)) (Z.of_nat (length orphan))
    (capList missing sample) (capList orphan sample) truncated)).
End ArtifactReconciler.
