(* ===== verification/Permissions.v ===== *)
(** The permission services ([internal/permission/service]): who may do what.

    A role carries actions in a JSON column and in a registry of its own; a
    binding grants a role to a user or a group, on one component or on the
    platform, possibly until a deadline; the owner of a component holds its
    administrator role anyway.  Access to a component further depends on the
    organizations that own it. *)
From stdpp Require Import base list strings gmap sorting.
From Stdlib Require Import ZArith Lia Ascii.
From S2P Require Import Prelude Common Gorm Json GoLib RunnerProto RunStore PipelineStore TargetStore.
From S2P Require Import EditStore OrgStore PermStore World Admin.

Open Scope Z_scope.

(** * Subjects *)

Definition OrgGroupPrefix : string := "/org:".

Definition permError (httpCode seq : Z) (msg : string) : GoError :=
  EApi (DomainError KindPermission httpCode seq msg).

Definition errSubjectTypeInvalid := permError StatusBadRequest 20 "subjectType must be user or group".
Definition errSubjectIDRequired := permError StatusBadRequest 21 "subjectId is required".
Definition errGroupSubjectNeedsSlash := permError StatusBadRequest 22
  "group subjectId must match the token claim verbatim — with full.path=true every group starts with '/'".
Definition errOrgGroupNotASubject := permError StatusBadRequest 23
  "groups under the reserved '/org:' namespace identify an organization and cannot be an RBAC subject".
Definition errPlatformRoleIDRequired := permError StatusBadRequest 24 "platformRoleId is required".
Definition errExpiryNotFuture := permError StatusBadRequest 25 "expiresAt must be in the future".
Definition errPlatformBindingExists := permError StatusConflict 5 "Platform Role Binding Already Exists".
Definition errPlatformBindingNotFound := permError StatusNotFound 2 "Platform Role Binding Not Found".

Definition NormalizeSubject (subjectType subjectID : string) : Result (string * string) :=
  let st := TrimSpace subjectType in
  let id := TrimSpace subjectID in
  if String.eqb st SubjectTypeUser then
    if empty_string id then Err errSubjectIDRequired else Ok (st, id)
  else if String.eqb st SubjectTypeGroup then
    if empty_string id then Err errSubjectIDRequired
    else if negb (HasPrefix id "/") then Err errGroupSubjectNeedsSlash
    else if HasPrefix id OrgGroupPrefix then Err errOrgGroupNotASubject
    else Ok (st, id)
  else Err errSubjectTypeInvalid.

Definition orgSlugFromGroup (g : string) : string :=
  if HasPrefix g OrgGroupPrefix then TrimPrefix g OrgGroupPrefix
  else
    let t := TrimPrefix g "/" in
    match cut "/"%char t with Some (slug, _) => slug | None => t end.

Definition OrgsFromGroups (groups : list string) : list string :=
  foldl (fun out g =>
    let slug := orgSlugFromGroup g in
    if empty_string slug || bool_decide (slug ∈ out) then out else out ++ [slug]) [] groups.

(** * Actions of a role *)

Definition unmarshalActions (raw : RawJSON) : list string :=
  if raw_len0 raw then [] else (Unmarshal (A := list string) raw).1.

Definition validActions (raw : RawJSON) : bool :=
  if raw_len0 raw then false
  else match UnmarshalE (A := list string) raw with
       | Err _ => false
       | Ok acts => existsb (fun a => negb (empty_string (TrimSpace a))) acts
       end.

Section Services.
Context {G : Gorm} {P : Platform} {O : ObjectStore}.

(** [RoleActionLookup]: the registry as the binding service sees it. *)
Definition RoleActionLookup : Type := option (string -> UUID -> M Admin (Result (list string))).

Record BindingService := mkBindingService {
  roleActions : RoleActionLookup;
  componentRepo : bool;
}.

Definition mappedActions (s : BindingService) (kind : string) (roleID : UUID) : M Admin (list string) :=
  match roleActions s with
  | None => ret []
  | Some lookup => let* acts := lookup kind roleID in ret (ok_or [] acts)
  end.

(** [add]: append what is not there yet. *)
Definition add_actions (actions a : list string) : list string :=
  foldl (fun acc x => if bool_decide (x ∈ acc) then acc else acc ++ [x]) actions a.

Definition ownerActions (s : BindingService) (componentID : UUID) (subject : string)
    (groups : list string) : M Admin (Result (list string)) :=
  if negb (componentRepo s) then ret (Ok [])
  else
    try* c := zoom a_components (Repository_GetByID componentID) in
    let isOwner := match cmp_OwnerSub c with Some o => String.eqb o subject | None => false end ||
                   match cmp_OwnerGroup c with Some g => bool_decide (g ∈ groups) | None => false end in
    if negb isOwner then ret (Ok [])
    else
      try* admin := zoom a_component_roles (ComponentRoleRepository.GetByName "component-admin") in
      ret (Ok (unmarshalActions (cr_Actions admin))).

(** The actions one binding contributes. *)
Definition binding_actions (s : BindingService) (actions : list string) (b : ComponentRoleBinding)
  : M Admin (list string) :=
  match crb_ComponentRoleID b with
  | None => ret actions
  | Some roleID =>
      let* cr := zoom a_component_roles (ComponentRoleRepository.GetByID roleID) in
      match cr with
      | Err _ => ret actions
      | Ok cr =>
          let actions := add_actions actions (unmarshalActions (cr_Actions cr)) in
          let* mapped := mappedActions s "component" roleID in
          ret (add_actions actions mapped)
      end
  end.

Fixpoint bindings_actions (s : BindingService) (bs : list ComponentRoleBinding) (actions : list string)
  : M Admin (list string) :=
  match bs with
  | [] => ret actions
  | b :: bs => let* actions := binding_actions s actions b in bindings_actions s bs actions
  end.

Definition ResolveComponentActions (s : BindingService) (componentID : UUID) (subject : string)
    (groups : list string) : M Admin (Result (list string)) :=
  try* bindings := on a_bindings (fun now =>
    BindingRepository.ListMatching now componentID subject groups) in
  let* actions := bindings_actions s bindings [] in
  let* owner := ownerActions s componentID subject groups in
  ret (Ok (match owner with Ok acts => add_actions actions acts | Err _ => actions end)).

Definition HasPermission (s : BindingService) (componentID : UUID) (subject : string)
    (groups : list string) (permission : string) : M Admin (Result bool) :=
  try* actions := ResolveComponentActions s componentID subject groups in
  ret (Ok (existsb (fun a => String.eqb a permission) actions)).

(** The loop of [HasPlatformPermission], which stops at the first grant. *)
Fixpoint platform_grants (s : BindingService) (permission : string) (bs : list PlatformRoleBinding)
  : M Admin bool :=
  match bs with
  | [] => ret false
  | b :: bs =>
      let* pr := zoom a_platform_roles (PlatformRoleRepository.GetByID (prb_PlatformRoleID b)) in
      match pr with
      | Err _ => platform_grants s permission bs
      | Ok pr =>
          if existsb (fun a => String.eqb a permission) (unmarshalActions (pr_Actions pr)) then ret true
          else
            let* mapped := mappedActions s "platform" (prb_PlatformRoleID b) in
            if existsb (fun a => String.eqb a permission) mapped then ret true
            else platform_grants s permission bs
      end
  end.

Definition HasPlatformPermission (s : BindingService) (orgID : option UUID) (subject : string)
    (groups : list string) (permission : string) : M Admin (Result bool) :=
  try* bindings := on a_platform_bindings (fun now =>
    PlatformRoleBindingRepository.ListMatching now orgID subject groups) in
  let* granted := platform_grants s permission bindings in
  ret (Ok granted).

Definition BindingService_Create (b : ComponentRoleBinding) : M Admin (Result ComponentRoleBinding) :=
  on a_bindings (fun now => BindingRepository.Create now b).
Definition BindingService_ListByComponent (componentID : UUID)
  : M Admin (Result (list ComponentRoleBinding)) :=
  zoom a_bindings (BindingRepository.ListByComponentID componentID).
Definition BindingService_Delete (id : UUID) : M Admin (Result unit) :=
  void (on a_bindings (fun now => BindingRepository.Delete now id)).

End Services.

(** * The role-to-action registry *)

Module RoleAPIMappingService.
Section Service.
Context {G : Gorm} {P : Platform} {O : ObjectStore}.

Definition ActionsForRole (kind : string) (roleID : UUID) : M Admin (Result (list string)) :=
  try* rows := zoom a_mappings (RoleAPIMappingRepository.ListByRole kind roleID) in
  ret (Ok (ram_Action <$> rows)).

Definition SetActions (kind : string) (roleID : UUID) (actions : list string)
  : M Admin (Result unit) :=
  try* _ := on a_mappings (fun now => RoleAPIMappingRepository.DeleteByRole now kind roleID) in
  for_each_err actions (fun a =>
    void (on a_mappings (fun now =>
      RoleAPIMappingRepository.Create now (mkRoleAPIMapping uuid_Nil kind roleID a "")))).

Definition SyncFromRoles : M Admin (Result unit) :=
  try* platformRoles := zoom a_platform_roles PlatformRoleRepository.List in
  try* _ := for_each_err platformRoles (fun r =>
    SetActions "platform" (pr_ID r) (unmarshalActions (pr_Actions r))) in
  try* componentRoles := zoom a_component_roles ComponentRoleRepository.List in
  for_each_err componentRoles (fun r =>
    SetActions "component" (cr_ID r) (unmarshalActions (cr_Actions r))).
End Service.
End RoleAPIMappingService.

(** The binding service as [main] wires it. *)
Definition bindingSvc {G : Gorm} {P : Platform} {O : ObjectStore} : BindingService :=
  mkBindingService (Some RoleAPIMappingService.ActionsForRole) true.

(** * Role definitions *)

Definition errComponentRoleNameRequired := permError StatusBadRequest 20 "name is required".
Definition errComponentRoleActionsRequired :=
  permError StatusBadRequest 21 "actions must be a non-empty JSON array of strings".
Definition errComponentRoleExists :=
  permError StatusConflict 22 "Component Role Name Already Exists In This Org".
Definition errComponentRoleNotFound := permError StatusNotFound 23 "Component Role Not Found".
Definition errComponentRoleImmutable := permError StatusConflict 24 "Built-in Component Role Is Immutable".
Definition errComponentRoleInUse (n : Z) : GoError :=
  EApi (DomainErrorWithReasons KindPermission StatusConflict 25 "Component Role Is In Use"
    ["仍有 " +:+ Sprintf "%d" [AInt n] +:+ " 条组件级绑定引用该角色，请先删除绑定"]).

Module ComponentRoleService.
Section Service.
Context {G : Gorm} {P : Platform} {O : ObjectStore}.

Definition Get (id : UUID) : M Admin (Result ComponentRole) :=
  let* item := zoom a_component_roles (ComponentRoleRepository.GetByID id) in
  ret (match item with Ok item => Ok item | Err _ => Err errComponentRoleNotFound end).

Definition Create (role : ComponentRole) : M Admin (Result ComponentRole) :=
  let role := role <| cr_Name := TrimSpace (cr_Name role) |> in
  if empty_string (cr_Name role) then ret (Err errComponentRoleNameRequired)
  else if negb (validActions (cr_Actions role)) then ret (Err errComponentRoleActionsRequired)
  else
    let* existing := zoom a_component_roles
      (ComponentRoleRepository.GetByNameInOrg (cr_OrgID role) (cr_Name role)) in
    if is_ok existing then ret (Err errComponentRoleExists)
    else on a_component_roles (fun now =>
           ComponentRoleRepository.Create now (role <| cr_IsSystem := false |>)).

Definition Update (id : UUID) (role : ComponentRole) : M Admin (Result ComponentRole) :=
  let* cur := zoom a_component_roles (ComponentRoleRepository.GetByID id) in
  match cur with
  | Err _ => ret (Err errComponentRoleNotFound)
  | Ok cur =>
      let name := TrimSpace (cr_Name role) in
      if cr_IsSystem cur then ret (Err errComponentRoleImmutable)
      else if empty_string name then ret (Err errComponentRoleNameRequired)
      else if negb (validActions (cr_Actions role)) then ret (Err errComponentRoleActionsRequired)
      else
        let* other := zoom a_component_roles
          (ComponentRoleRepository.GetByNameInOrg (cr_OrgID cur) name) in
        if match other with Ok other => negb (cr_ID other =? id) | Err _ => false end
        then ret (Err errComponentRoleExists)
        else on a_component_roles (fun now => ComponentRoleRepository.Update now
               (cur <| cr_Name := name |> <| cr_Description := cr_Description role |>
                    <| cr_Actions := cr_Actions role |>))
  end.

Definition Delete (id : UUID) : M Admin (Result unit) :=
  let* cur := zoom a_component_roles (ComponentRoleRepository.GetByID id) in
  match cur with
  | Err _ => ret (Err errComponentRoleNotFound)
  | Ok cur =>
      if cr_IsSystem cur then ret (Err errComponentRoleImmutable)
      else
        try* n := zoom a_bindings (ComponentRoleRepository.CountBindings id) in
        if 0 <? n then ret (Err (errComponentRoleInUse n))
        else void (on a_component_roles (fun now => ComponentRoleRepository.Delete now id))
  end.
End Service.
End ComponentRoleService.

Definition errPlatformRoleNameRequired := permError StatusBadRequest 10 "name is required".
Definition errPlatformRoleActionsRequired :=
  permError StatusBadRequest 11 "actions must be a non-empty JSON array of strings".
Definition errPlatformRoleExists := permError StatusConflict 2 "Platform Role Name Already Exists".
Definition errPlatformRoleNotFound := permError StatusNotFound 1 "Platform Role Not Found".
Definition errPlatformRoleImmutable := permError StatusConflict 3 "Built-in Platform Role Is Immutable".
Definition errPlatformRoleInUse (n : Z) : GoError :=
  EApi (DomainErrorWithReasons KindPermission StatusConflict 4 "Platform Role Is In Use"
    ["仍有 " +:+ Sprintf "%d" [AInt n] +:+ " 条平台级绑定引用该角色，请先删除绑定"]).

Module PlatformRoleService.
Section Service.
Context {G : Gorm} {P : Platform} {O : ObjectStore}.

Definition Get (id : UUID) : M Admin (Result PlatformRole) :=
  let* item := zoom a_platform_roles (PlatformRoleRepository.GetByID id) in
  ret (match item with Ok item => Ok item | Err _ => Err errPlatformRoleNotFound end).

Definition Create (role : PlatformRole) : M Admin (Result PlatformRole) :=
  let role := role <| pr_Name := TrimSpace (pr_Name role) |> in
  if empty_string (pr_Name role) then ret (Err errPlatformRoleNameRequired)
  else if negb (validActions (pr_Actions role)) then ret (Err errPlatformRoleActionsRequired)
  else
    let* existing := zoom a_platform_roles (PlatformRoleRepository.GetByName (pr_Name role)) in
    if is_ok existing then ret (Err errPlatformRoleExists)
    else on a_platform_roles (fun now =>
           PlatformRoleRepository.Create now (role <| pr_IsSystem := false |>)).

Definition Update (id : UUID) (role : PlatformRole) : M Admin (Result PlatformRole) :=
  let* cur := zoom a_platform_roles (PlatformRoleRepository.GetByID id) in
  match cur with
  | Err _ => ret (Err errPlatformRoleNotFound)
  | Ok cur =>
      let name := TrimSpace (pr_Name role) in
      if pr_IsSystem cur then ret (Err errPlatformRoleImmutable)
      else if empty_string name then ret (Err errPlatformRoleNameRequired)
      else if negb (validActions (pr_Actions role)) then ret (Err errPlatformRoleActionsRequired)
      else
        let* other := zoom a_platform_roles (PlatformRoleRepository.GetByName name) in
        if match other with Ok other => negb (pr_ID other =? id) | Err _ => false end
        then ret (Err errPlatformRoleExists)
        else on a_platform_roles (fun now => PlatformRoleRepository.Update now
               (cur <| pr_Name := name |> <| pr_Description := pr_Description role |>
                    <| pr_Actions := pr_Actions role |>))
  end.

Definition Delete (id : UUID) : M Admin (Result unit) :=
  let* cur := zoom a_platform_roles (PlatformRoleRepository.GetByID id) in
  match cur with
  | Err _ => ret (Err errPlatformRoleNotFound)
  | Ok cur =>
      if pr_IsSystem cur then ret (Err errPlatformRoleImmutable)
      else
        try* n := zoom a_platform_bindings (PlatformRoleRepository.CountBindings id) in
        if 0 <? n then ret (Err (errPlatformRoleInUse n))
        else void (on a_platform_roles (fun now => PlatformRoleRepository.Delete now id))
  end.
End Service.
End PlatformRoleService.

(** * Platform grants *)

Module PlatformBindingService.
Section Service.
Context {G : Gorm} {P : Platform} {O : ObjectStore}.

Definition List (orgID : option UUID) (subjectType subjectID : string)
  : M Admin (Result (list PlatformRoleBinding)) :=
  let st := TrimSpace subjectType in
  if negb (empty_string st) && negb (String.eqb st SubjectTypeUser) && negb (String.eqb st SubjectTypeGroup)
  then ret (Err errSubjectTypeInvalid)
  else zoom a_platform_bindings (PlatformRoleBindingRepository.List orgID st (TrimSpace subjectID)).

(** [ExpiresAt != nil && !ExpiresAt.After(now)] *)
Definition born_expired (now : Time) (expiresAt : option Time) : bool :=
  match expiresAt with Some t => negb (now <? t) | None => false end.

Definition Create (b : PlatformRoleBinding) : M Admin (Result PlatformRoleBinding) :=
  match NormalizeSubject (prb_SubjectType b) (prb_SubjectID b) with
  | Err e => ret (Err e)
  | Ok (st, id) =>
      let b := b <| prb_SubjectType := st |> <| prb_SubjectID := id |> in
      if prb_PlatformRoleID b =? uuid_Nil then ret (Err errPlatformRoleIDRequired)
      else
        let* role := zoom a_platform_roles (PlatformRoleRepository.GetByID (prb_PlatformRoleID b)) in
        if negb (is_ok role) then ret (Err errPlatformRoleNotFound)
        else
          let* now := now_ in
          if born_expired now (prb_ExpiresAt b) then ret (Err errExpiryNotFuture)
          else
            try* exists_ := zoom a_platform_bindings (PlatformRoleBindingRepository.ExistsActive now
              (prb_OrgID b) (prb_SubjectType b) (prb_SubjectID b) (prb_PlatformRoleID b)) in
            if (exists_ : bool) then ret (Err errPlatformBindingExists)
            else on a_platform_bindings (fun now => PlatformRoleBindingRepository.Create now b)
  end.

Definition Delete (id : UUID) : M Admin (Result unit) :=
  let* b := zoom a_platform_bindings (PlatformRoleBindingRepository.GetByID id) in
  if negb (is_ok b) then ret (Err errPlatformBindingNotFound)
  else void (on a_platform_bindings (fun now => PlatformRoleBindingRepository.Delete now id)).
End Service.
End PlatformBindingService.

(** [BindingReaper.ReapOnce]: how many expired grants each table dropped. *)
Definition ReapOnce {G : Gorm} {P : Platform} {O : ObjectStore} (now : Time)
  : M Admin (Z * Z * option GoError) :=
  let* component := zoom a_bindings (BindingRepository.DeleteExpired now) in
  match component with
  | Err e => ret (0, 0, Some e)
  | Ok component =>
      let* platform := zoom a_platform_bindings (PlatformRoleBindingRepository.DeleteExpired now) in
      ret (match platform with
           | Err e => (component, 0, Some e)
           | Ok platform => (component, platform, None)
           end)
  end.

(** * Ownership and the components behind pipelines and runs *)

Definition ResourceTypeComponent : string := "component".

Module ResourceOwnershipService.
Section Service.
Context {G : Gorm} {P : Platform} {O : ObjectStore}.
#[local] Existing Instance Codec_UUID.

Definition Set_ (resourceType : string) (resourceID ownerOrg : UUID) (allowedOrgs : list UUID)
  : M Admin (Result ResourceOwnership) :=
  let o := SetAllowedOrgs
    (mkResourceOwnership uuid_Nil resourceType resourceID ownerOrg RawEmpty time_Zero) allowedOrgs in
  on a_ownership (fun now => ResourceOwnershipRepository.Upsert now o).

Definition Get (resourceType : string) (resourceID : UUID) : M Admin (Result ResourceOwnership) :=
  zoom a_ownership (ResourceOwnershipRepository.Get resourceType resourceID).

Definition IsAllowed (resourceType : string) (resourceID org : UUID) : M Admin (Result bool) :=
  try* o := Get resourceType resourceID in ret (Ok (PermStore.IsAllowed o org)).

Definition AllowsComponent (componentID : UUID) (orgIDs : list UUID) : M Admin (Result bool) :=
  let* row := Get ResourceTypeComponent componentID in
  ret (match row with
       | Err e => if errors_Is e ErrRecordNotFound then Ok true else Err e
       | Ok row => Ok (existsb (PermStore.IsAllowed row) orgIDs)
       end).

Definition Delete (resourceType : string) (resourceID : UUID) : M Admin (Result unit) :=
  try* o := Get resourceType resourceID in
  void (on a_ownership (fun now => ResourceOwnershipRepository.Delete now (ro_ID o))).
End Service.
End ResourceOwnershipService.

Module ComponentLocator.
Section Service.
Context {G : Gorm} {P : Platform} {O : ObjectStore}.

Definition resourceMissing (e : GoError) : GoError :=
  if errors_Is e ErrRecordNotFound then ErrResourceNotFound else e.

Definition ComponentOfPipeline (pipelineID : UUID) : M Admin (Result UUID) :=
  let* p := zoom a_pipelines (PipelineRepository.GetByID pipelineID) in
  ret (match p with Ok p => Ok (pl_ComponentID p) | Err e => Err (resourceMissing e) end).

Definition ComponentOfRun (runID : UUID) : M Admin (Result UUID) :=
  let* run := zoom a_runs (PipelineRunRepository.GetByID runID) in
  match run with
  | Err e => ret (Err (resourceMissing e))
  | Ok run => ComponentOfPipeline (run_PipelineID run)
  end.
End Service.
End ComponentLocator.

(** * Permission requests *)

Definition bad_request_msg (msg : string) : GoError := EApi (WithMessage ErrBadRequest msg).

(** [GrantWriterImpl.GrantFromRequest] *)
Definition GrantFromRequest {G : Gorm} {P : Platform} {O : ObjectStore} (req : PermissionRequest)
  : M Admin (Result unit) :=
  if String.eqb (preq_RequestedRoleKind req) "component" then
    if preq_RequestedResourceID req =? uuid_Nil
    then ret (Err (bad_request_msg "component grant needs requestedResourceId"))
    else void (on a_bindings (fun now => BindingRepository.Create now
           (mkComponentRoleBinding uuid_Nil (preq_RequestedResourceID req) None "user"
              (preq_Requester req) (Some (preq_RequestedRoleID req)) None time_Zero
              (preq_ExpiresAt req))))
  else void (on a_platform_bindings (fun now => PlatformRoleBindingRepository.Create now
         (mkPlatformRoleBinding uuid_Nil None "user" (preq_Requester req)
            (preq_RequestedRoleID req) (preq_ExpiresAt req) time_Zero))).

Module PermissionRequestService.
Section Service.
Context {G : Gorm} {P : Platform} {O : ObjectStore}.
Context (grant : option (PermissionRequest -> M Admin (Result unit))).

Definition Create (req : PermissionRequest) : M Admin (Result PermissionRequest) :=
  if empty_string (preq_Requester req) || (preq_RequestedRoleID req =? uuid_Nil)
  then ret (Err (bad_request_msg "requester and requestedRoleId are required"))
  else if empty_string (preq_Reason req) then ret (Err (bad_request_msg "reason is required (audit)"))
  else
    let req := req <| preq_Status := default_str PermRequestPending (preq_Status req) |> in
    on a_requests (fun now => Repository_Create now (req <| preq_CreatedAt := now |>)).

Definition Get (id : UUID) : M Admin (Result PermissionRequest) :=
  zoom a_requests (Repository_GetByID id).

Definition List (status : string) : M Admin (Result (list PermissionRequest)) :=
  if empty_string status then zoom a_requests PermissionRequestRepository.ListAll
  else zoom a_requests (PermissionRequestRepository.ListByStatus status).

Definition Approve (id : UUID) (approver : string) (effectiveAt expiresAt : option Time)
  : M Admin (Result unit) :=
  try* req := Get id in
  if negb (String.eqb (preq_Status req) PermRequestPending)
  then ret (Err (bad_request_msg "only Pending requests can be approved"))
  else
    let* now := now_ in
    let req := req <| preq_Status := PermRequestApproved |> <| preq_Approver := approver |>
      <| preq_DecidedAt := Some now |> <| preq_EffectiveAt := effectiveAt |>
      <| preq_ExpiresAt := expiresAt |> in
    try* _ := on a_requests (fun now => Repository_Update now req) in
    match grant with
    | Some GrantFromRequest => GrantFromRequest req
    | None => ret (Ok tt)
    end.

Definition Reject (id : UUID) (approver reason : string) : M Admin (Result unit) :=
  try* req := Get id in
  if negb (String.eqb (preq_Status req) PermRequestPending)
  then ret (Err (bad_request_msg "only Pending requests can be rejected"))
  else
    let* now := now_ in
    let req := req <| preq_Status := PermRequestRejected |> <| preq_Approver := approver |>
      <| preq_DecidedAt := Some now |> in
    void (on a_requests (fun now => Repository_Update now req)).
End Service.
End PermissionRequestService.

(** * Personal access tokens *)

Definition PATPrefix : string := "sdp_pat_".

Record CreateTokenInput := mkCreateTokenInput {
  cti_Name : string; cti_Scopes : string; cti_ExpiresAt : option Time }.

Module PATService.
Section Service.
Context {G : Gorm} {P : Platform} {O : ObjectStore}.

Definition generatePAT : M Admin (Result string) :=
  let* b := random_ in
  ret (match b with
       | Ok b => Ok (PATPrefix +:+ hex_encode b)
       | Err e => Err (EWrap "generate pat: %w" [] e)
       end).

Definition token_hash (plaintext : string) : string := hex_encode (Sha256.Sum256 plaintext).

Definition Create (subject : string) (input : CreateTokenInput)
  : M Admin (Result (PersonalAccessToken * string)) :=
  let scopes := default_str PATScopeWrite (cti_Scopes input) in
  if negb (String.eqb scopes PATScopeRead) && negb (String.eqb scopes PATScopeWrite)
  then ret (Err (EApi (DomainErrorWithReasons KindAuth 400 1 "invalid scope" ["scopes 须为 read 或 write"])))
  else if (128 <? String.length (cti_Name input))%nat
  then ret (Err (EApi (DomainErrorWithReasons KindAuth 400 2 "name too long" ["令牌名称过长（≤128 字符）"])))
  else
    try* plaintext := generatePAT in
    try* row := on a_tokens (fun now => PATRepository.Create now
      (mkPersonalAccessToken uuid_Nil subject (cti_Name input)
         (String.substring 0 (String.length PATPrefix + 8) plaintext) (token_hash plaintext) scopes
         (cti_ExpiresAt input) None None time_Zero)) in
    ret (Ok (row, plaintext)).

Definition Verify (plaintext : string) : M Admin (Result PersonalAccessToken) :=
  let* row := zoom a_tokens (PATRepository.FindByHash (token_hash plaintext)) in
  match row with
  | Err _ => ret (Err (EFmt "token 无效" []))
  | Ok row =>
      match pat_RevokedAt row with
      | Some _ => ret (Err (EFmt "token 已吊销" []))
      | None =>
          let* now := now_ in
          if match pat_ExpiresAt row with Some t => t <? now | None => false end
          then ret (Err (EFmt "token 已过期" []))
          else
            on a_tokens (fun now => PATRepository.TouchLastUsed now (pat_ID row) now) ;;;
            ret (Ok row)
      end
  end.

Definition List (subject : string) : M Admin (Result (list PersonalAccessToken)) :=
  zoom a_tokens (PATRepository.ListBySubject subject).

Definition Revoke (subject : string) (id : UUID) : M Admin (Result unit) :=
  void (on a_tokens (fun now => PATRepository.Revoke now subject id now)).
End Service.
End PATService.
