(* ===== verification/Middleware.v ===== *)
(** The request pipeline in front of the handlers ([internal/middleware]):
    authentication, the identity it puts on the context, auditing, the
    ownership and permission checks, rate limiting and CORS; and the API as
    [main] puts it together ([src/cmd/hub/main.go]).

    A gin handler answers a request on a context; a middleware turns the rest
    of the chain into a handler, running it where the code calls [c.Next()].
    The middlewares are generic in the state [S] their collaborators work on;
    OIDC verification and the session cookie are two of them. *)
From stdpp Require Import base list strings gmap sorting.
From Stdlib Require Import ZArith Lia Ascii.
From S2P Require Import Prelude Common Gorm Json GoLib RunnerProto RunStore PipelineStore TargetStore.
From S2P Require Import EditStore OrgStore PermStore RateLimit World Admin Permissions.

Open Scope Z_scope.

(** * Requests, contexts, responses *)

Record Request := mkRequest {
  rq_Method : string;
  rq_FullPath : string;
  rq_Param : string -> string;
  rq_Query : string -> string;
  rq_Header : string -> string;
  rq_ClientIP : string;
}.

Record keycloakClaims := mkClaims {
  kc_Subject : string; kc_PreferredUsername : string; kc_Groups : list string;
  kc_OrgAdmins : list string; kc_AuthorizedParty : string }.

(** The keys of the gin context. *)
Record Context_ := mkContext {
  c_claims : option keycloakClaims;
  c_subject : option string;
  c_preferredUsername : option string;
  c_groups : option (list string);
  c_orgs : option (list string);
  c_orgAdmins : option (list string);
  c_platformScope : bool;
  c_reason : string;
  c_ticket : string;
}.
#[global] Instance Context_eta : Eta Context_ := fun c =>
  mkContext (c_claims c) (c_subject c) (c_preferredUsername c) (c_groups c) (c_orgs c)
    (c_orgAdmins c) (c_platformScope c) (c_reason c) (c_ticket c).

Definition empty_context : Context_ := mkContext None None None None None None false "" "".

(** [common.Envelope]. *)
Record Envelope := mkEnvelope {
  en_Data : RawJSON; en_Error : string; en_ErrorCode : string; en_Reasons : list string }.
Inductive Body : Type :=
| NoBody
| Enveloped (e : Envelope)
| Plain (fields : list (string * string))
| Document (v : json).

Record Response := mkResponse {
  rs_Code : Z; rs_Headers : list (string * string); rs_Body : Body }.
#[global] Instance Response_eta : Eta Response := fun r =>
  mkResponse (rs_Code r) (rs_Headers r) (rs_Body r).

Definition Reply (code : Z) (e : Envelope) : Response := mkResponse code [] (Enveloped e).

Definition Fail (status : Z) (err : GoError) : Response :=
  let '(code, reasons) := match err with
    | EApi ae => (ae_ErrorCode ae, ae_Reasons ae) | _ => ("", []) end in
  Reply status (mkEnvelope RawEmpty (Error err) code reasons).
Definition OK_ (data : RawJSON) : Response := Reply StatusOK (mkEnvelope data "" "" []).
Definition Created_ (data : RawJSON) : Response :=
  Reply StatusCreated (mkEnvelope data "" "" []).
Definition AbortWithError (err : option GoError) : Response :=
  match toAPIError err with
  | Some ae => Reply (ae_Code ae)
      (mkEnvelope RawEmpty (APIError_Error ae) (ae_ErrorCode ae) (ae_Reasons ae))
  | None => mkResponse StatusOK [] NoBody
  end.

Section Handlers.
Context {S : Type}.

(** The response, and the context as the handler left it. *)
Definition Handler : Type := Request -> Context_ -> M S (Response * Context_).
Definition HandlerFunc : Type := Handler -> Handler.

Definition abort (c : Context_) (status : Z) (err : GoError) : M S (Response * Context_) :=
  ret (Fail status err, c).

(** * Authentication ([auth.go]) *)

Definition patTokenPrefix : string := "sdp_pat_".
Definition errMissingBearer : GoError := ESentinel "missing bearer token".
Definition errWrongClient : GoError := ESentinel "token was not issued for this client".

Record SessionIdentity := mkSessionIdentity {
  si_Subject : string; si_Username : string; si_Groups : list string; si_OrgAdmins : list string }.

Record Authenticator := mkAuthenticator {
  verifier : string -> M S (Result keycloakClaims);
  clientID : string;
  patVerifier : option (string -> M S (Result string));
  sessionVerifier : option (Request -> M S (Result SessionIdentity));
}.

Definition BearerToken (header : string) : option string :=
  if HasPrefix header "Bearer " then Some (TrimPrefix header "Bearer ") else None.

(** The bearer and PAT paths. *)
Definition bearer (a : Authenticator) (next : Handler) : Handler := fun rq c =>
  match BearerToken (rq_Header rq "Authorization") with
  | None | Some "" => abort c StatusUnauthorized errMissingBearer
  | Some rawToken =>
      match patVerifier a, HasPrefix rawToken patTokenPrefix with
      | Some verify, true =>
          let* subject := verify rawToken in
          match subject with
          | Err verr => abort c StatusUnauthorized verr
          | Ok subject => next rq (c <| c_claims := Some (mkClaims subject "" [] [] (clientID a)) |>)
          end
      | _, _ =>
          let* claims := verifier a rawToken in
          match claims with
          | Err err => abort c StatusUnauthorized err
          | Ok claims =>
              if negb (String.eqb (kc_AuthorizedParty claims) (clientID a))
              then abort c StatusUnauthorized errWrongClient
              else next rq (c <| c_claims := Some claims |>)
          end
      end
  end.

Definition Authenticate (a : Authenticator) : HandlerFunc := fun next rq c =>
  match sessionVerifier a with
  | None => bearer a next rq c
  | Some verify =>
      let* id := verify rq in
      match id with
      | Ok id => next rq (c <| c_claims := Some (mkClaims (si_Subject id) (si_Username id)
                                (si_Groups id) (si_OrgAdmins id) (clientID a)) |>)
      | Err _ => bearer a next rq c
      end
  end.

(** * Identity ([user_context.go]) *)

Definition DevSubject : string := "dev".

Definition UserContext : HandlerFunc := fun next rq c =>
  next rq (match c_claims c with
    | None => c <| c_subject := Some DevSubject |> <| c_preferredUsername := Some "Dev User" |>
                <| c_orgs := Some [] |>
    | Some claims =>
        c <| c_subject := Some (kc_Subject claims) |>
          <| c_preferredUsername := Some (kc_PreferredUsername claims) |>
          <| c_groups := Some (kc_Groups claims) |>
          <| c_orgs := Some (OrgsFromGroups (kc_Groups claims)) |>
          <| c_orgAdmins := Some (kc_OrgAdmins claims) |>
    end).

Definition CurrentSubject (c : Context_) : option string :=
  match c_subject c with Some s => if empty_string s then None else Some s | None => None end.
Definition CurrentPreferredUsername (c : Context_) : string := default "" (c_preferredUsername c).
Definition CurrentGroups (c : Context_) : list string := default [] (c_groups c).
Definition CurrentOrgs (c : Context_) : list string := default [] (c_orgs c).
Definition CurrentOrgAdmins (c : Context_) : list string := default [] (c_orgAdmins c).
End Handlers.

(** * Authorization ([rbac.go], [ownership.go]) *)

Definition errNoSubject : GoError := ESentinel "no RBAC subject on context".
Definition errForbidden : GoError := ESentinel "insufficient permission".
Definition errNoParam : GoError := ESentinel "route has no resource id path parameter".
Definition errNoLocator : GoError :=
  ESentinel "route carries a non-component id but no Locator is wired".
Definition errOutOfOrg : GoError :=
  ESentinel "resource is not owned by any of the subject's organizations".
Definition errBadUUID : GoError := ELib "invalid UUID".

Inductive Resource : Type := ResourceComponent | ResourcePipeline | ResourceRun.
Record Requirement := mkRequirement {
  rr_Resource : Resource; rr_Param : string; rr_Permission : string }.

Section Authorization.
Context {P : Platform} {S : Type}.

(** [Locator]: the components of pipelines and runs. *)
Record Locator := mkLocator {
  ComponentOfPipeline : UUID -> M S (Result UUID);
  ComponentOfRun : UUID -> M S (Result UUID);
}.

Definition parse_uuid (s : string) : Result UUID :=
  match uuid_Parse s with Some id => Ok id | None => Err errBadUUID end.

Definition resourceID (rq : Request) (param : string) : Result UUID :=
  let raw := rq_Param rq param in
  if empty_string raw then Err errNoParam else parse_uuid raw.

Definition locateComponent (loc : option Locator) (res : Resource) (id : UUID) : M S (Result UUID) :=
  match res with
  | ResourceComponent => ret (Ok id)
  | ResourcePipeline =>
      match loc with None => ret (Err errNoLocator) | Some loc => ComponentOfPipeline loc id end
  | ResourceRun =>
      match loc with None => ret (Err errNoLocator) | Some loc => ComponentOfRun loc id end
  end.

Definition locateStatus (err : GoError) : Z :=
  if errors_Is err ErrResourceNotFound then StatusNotFound else StatusInternalServerError.

Definition PermissionChecker : Type :=
  UUID -> string -> list string -> string -> M S (Result bool).
Definition PlatformPermissionChecker : Type :=
  option UUID -> string -> list string -> string -> M S (Result bool).
Definition OwnershipChecker : Type := UUID -> list UUID -> M S (Result bool).
Definition OrgAliasResolver : Type := option (list string -> M S (Result (gmap string UUID))).

(** What both checks answer to a lookup's verdict. *)
Definition decide_access (allowed : Result bool) (denial : GoError) (next : Handler (S := S)) : Handler (S := S) :=
  fun rq c => match allowed with
  | Err err => abort c StatusInternalServerError err
  | Ok false => abort c StatusForbidden denial
  | Ok true => next rq c
  end.

Definition RequirePermission (checker : PermissionChecker) (loc : option Locator) (req : Requirement)
  : HandlerFunc (S := S) := fun next rq c =>
  match CurrentSubject c with
  | None => abort c StatusUnauthorized errNoSubject
  | Some subject =>
      match resourceID rq (rr_Param req) with
      | Err err => abort c StatusBadRequest err
      | Ok id =>
          let* located := locateComponent loc (rr_Resource req) id in
          match located with
          | Err err => abort c (locateStatus err) err
          | Ok componentID =>
              let* allowed := checker componentID subject (CurrentGroups c) (rr_Permission req) in
              decide_access allowed errForbidden next rq c
          end
      end
  end.

Definition RequirePlatformPermission (checker : PlatformPermissionChecker) (permission : string)
  : HandlerFunc (S := S) := fun next rq c =>
  match CurrentSubject c with
  | None => abort c StatusUnauthorized errNoSubject
  | Some subject =>
      let* allowed := checker None subject (CurrentGroups c) permission in
      decide_access allowed errForbidden next rq c
  end.

Definition resolveOrgIDs (orgs : OrgAliasResolver) (aliases : list string)
  : M S (Result (list UUID)) :=
  match orgs, aliases with
  | None, _ | _, [] => ret (Ok [])
  | Some resolve, _ =>
      try* bySlug := resolve aliases in
      ret (Ok (omap (fun alias => bySlug !! alias) aliases))
  end.

Definition RequireResourceOwnership (checker : OwnershipChecker) (orgs : OrgAliasResolver)
    (loc : option Locator) (req : Requirement) : HandlerFunc (S := S) := fun next rq c =>
  match resourceID rq (rr_Param req) with
  | Err err => abort c StatusBadRequest err
  | Ok id =>
      let* located := locateComponent loc (rr_Resource req) id in
      match located with
      | Err err => abort c (locateStatus err) err
      | Ok componentID =>
          let* orgIDs := resolveOrgIDs orgs (CurrentOrgs c) in
          match orgIDs with
          | Err err => abort c StatusInternalServerError err
          | Ok orgIDs =>
              let* allowed := checker componentID orgIDs in
              decide_access allowed errOutOfOrg next rq c
          end
      end
  end.
End Authorization.

(** * Auditing ([audit.go]) *)

Definition isMutating (method : string) : bool :=
  String.eqb method "POST" || String.eqb method "PUT" || String.eqb method "PATCH" ||
  String.eqb method "DELETE".

(** The first segment that is neither empty nor a parameter. *)
Definition first_segment (fullPath : string) : option string :=
  head (filter (fun s => (empty_string s || HasPrefix s ":") = false)
          (Split "/"%char (TrimPrefix fullPath "/api/v1/"))).

Definition verb_of (method : string) : string :=
  if String.eqb method "POST" then "create"
  else if String.eqb method "PUT" || String.eqb method "PATCH" then "update"
  else if String.eqb method "DELETE" then "delete" else "".

Definition deriveAction (method fullPath : string) : string :=
  default "unknown" (first_segment fullPath) +:+ ":" +:+ verb_of method.

Definition resourceTypeOf (fullPath : string) : string := default "" (first_segment fullPath).

Example deriveAction_create : deriveAction "POST" "/api/v1/pipelines/:id/runs" = "pipelines:create".
Proof. vm_compute. reflexivity. Qed.

Definition SetAuditReason (c : Context_) (reason ticket : string) : Context_ :=
  let c := if empty_string reason then c else c <| c_reason := reason |> in
  if empty_string ticket then c else c <| c_ticket := ticket |>.

Section Auditing.
Context {P : Platform} {S : Type}.

Definition auditComponentOf (loc : option (Locator (S := S))) (resourceType resourceID : string)
  : M S (option UUID) :=
  match loc, parse_uuid resourceID with
  | Some loc, Ok id =>
      if empty_string resourceID then ret None
      else
        let owner (located : Result UUID) : option UUID :=
          match located with
          | Ok componentID => if componentID =? uuid_Nil then None else Some componentID
          | Err _ => None
          end in
        if String.eqb resourceType "components" then ret (owner (Ok id))
        else if String.eqb resourceType "pipelines" then
          let* located := ComponentOfPipeline loc id in ret (owner located)
        else if String.eqb resourceType "runs" then
          let* located := ComponentOfRun loc id in ret (owner located)
        else ret None
  | _, _ => ret None
  end.

Definition audit_entry (now : Time) (rq : Request) (c : Context_) (r : Response)
    (componentID : option UUID) : AuditLog :=
  mkAuditLog uuid_Nil now "user" (default "" (CurrentSubject c)) (CurrentPreferredUsername c)
    (rq_ClientIP rq) (deriveAction (rq_Method rq) (rq_FullPath rq))
    (resourceTypeOf (rq_FullPath rq)) (rq_Param rq "id")
    (if StatusBadRequest <=? rs_Code r then "failure" else "success") (rs_Code r) componentID ""
    (c_reason c) (c_ticket c).

(** [sink] records an entry; [clock] is [time.Now]. *)
Definition AuditMiddleware (sink : option (AuditLog -> M S unit)) (loc : option (Locator (S := S)))
    (clock : M S Time) : HandlerFunc (S := S) := fun next rq c =>
  let* (r, c) := next rq c in
  match sink with
  | Some record =>
      if negb (isMutating (rq_Method rq)) then ret (r, c)
      else
        let* componentID := auditComponentOf loc (resourceTypeOf (rq_FullPath rq)) (rq_Param rq "id") in
        let* now := clock in
        record (audit_entry now rq c r componentID) ;;;
        ret (r, c)
  | None => ret (r, c)
  end.

Definition ActionUserManage : string := "user:manage".
Definition ActionComponentManage : string := "component:manage".
Definition errAuditNeedsComponent : GoError := ELib "组件级审计须携带 componentId 查询参数".
Definition errAuditComponentUUID : GoError := ELib "componentId 必须是 UUID".

Definition RequireAuditAccess (platformChecker : PlatformPermissionChecker)
    (checker : PermissionChecker) : HandlerFunc (S := S) := fun next rq c =>
  match CurrentSubject c with
  | None => abort c StatusUnauthorized errNoSubject
  | Some subject =>
      let* allowed := platformChecker None subject (CurrentGroups c) ActionUserManage in
      match allowed with
      | Err err => abort c StatusInternalServerError err
      | Ok true => next rq (c <| c_platformScope := true |>)
      | Ok false =>
          let raw := rq_Query rq "componentId" in
          if empty_string raw then abort c StatusForbidden errAuditNeedsComponent
          else match parse_uuid raw with
          | Err _ => abort c StatusBadRequest errAuditComponentUUID
          | Ok componentID =>
              let* okComp := checker componentID subject (CurrentGroups c) ActionComponentManage in
              decide_access okComp errForbidden next rq c
          end
      end
  end.

(** * Rate limiting, CORS, security headers *)

Definition add_headers (hs : list (string * string)) (r : Response) : Response :=
  r <| rs_Headers := hs ++ rs_Headers r |>.

(** [allow] runs the limiter on the clock and the buckets of the state. *)
Definition RateLimitHandler (rl : option RateLimit) (allow : RateLimit -> string -> M S bool)
  : HandlerFunc (S := S) := fun next rq c =>
  match rl with
  | Some limiter =>
      if disabled rl then next rq c
      else
        let* granted := allow limiter (clientIP (rq_Header rq) (rq_ClientIP rq)) in
        if (granted : bool) then next rq c
        else ret (mkResponse 429 [] (Plain [("error", "rate limit exceeded");
                    ("message", "too many requests, retry later")]), c)
  | None => next rq c
  end.

Definition cors_headers (origin : string) : list (string * string) := [
  ("Access-Control-Allow-Origin", origin); ("Vary", "Origin");
  ("Access-Control-Allow-Methods", "GET, POST, PUT, DELETE, PATCH, OPTIONS");
  ("Access-Control-Allow-Headers", "Authorization, Content-Type, X-Requested-With");
  ("Access-Control-Max-Age", "600")].

Definition CORS (allowedOrigins : list string) : HandlerFunc (S := S) := fun next rq c =>
  let normalized := filter (fun o => empty_string o = false) (TrimSpace <$> allowedOrigins) in
  match normalized with
  | [] => next rq c
  | _ =>
      let origin := rq_Header rq "Origin" in
      let hs := if negb (empty_string origin) && bool_decide (origin ∈ normalized)
                then cors_headers origin else [] in
      if String.eqb (rq_Method rq) "OPTIONS" then ret (mkResponse 204 hs NoBody, c)
      else let* (r, c) := next rq c in ret (add_headers hs r, c)
  end.

Definition security_headers : list (string * string) := [
  ("X-Content-Type-Options", "nosniff"); ("X-Frame-Options", "DENY");
  ("Content-Security-Policy",
   "default-src 'self'; script-src 'self'; style-src 'self' 'unsafe-inline'; img-src 'self' data:; connect-src 'self'");
  ("X-XSS-Protection", "1; mode=block"); ("Referrer-Policy", "strict-origin-when-cross-origin")].

Definition SecurityHeaders : HandlerFunc (S := S) := fun next rq c =>
  let* (r, c) := next rq c in ret (add_headers security_headers r, c).
End Auditing.

(** * The API as [main] puts it together

    The services behind the checks, the middlewares in the order they are
    mounted, and the two guards of a component-scoped route.  The metrics
    middleware, which only counts, is left out. *)

Section Api.
Context {G : Gorm} {P : Platform} {O : ObjectStore}.

(** A personal access token stands for its owner. *)
Definition verifyPAT (rawToken : string) : M Admin (Result string) :=
  try* row := PATService.Verify rawToken in ret (Ok (pat_Subject row)).

Definition permLocator : Locator (S := Admin) :=
  mkLocator ComponentLocator.ComponentOfPipeline ComponentLocator.ComponentOfRun.

Definition orgRepo : OrgAliasResolver (S := Admin) :=
  Some (fun slugs => zoom a_orgs (OrgRepository.IDsBySlugs slugs)).

(** [AuditReporter.Record]: a failure is only logged. *)
Definition auditReporter (entry : AuditLog) : M Admin unit :=
  let* _ := on a_audit (fun now => AuditLogRepository.Append now entry) in ret tt.

Definition limit_allow (rl : RateLimit) (ip : string) : M Admin bool :=
  let* now := now_ in zoom a_limits (RateLimit.allow rl ip now).

Record Config := mkConfig {
  auth : option (Authenticator (S := Admin));
  limiter : option RateLimit;
  origins : string;
}.

(** The chain behind the authenticator: identity, audit, rate limit, CORS. *)
Definition authenticated (cfg : Config) (h : Handler (S := Admin)) : Handler (S := Admin) :=
  let h := if empty_string (origins cfg) then h else CORS (Split ","%char (origins cfg)) h in
  let h := match limiter cfg with
           | Some rl => RateLimitHandler (Some rl) limit_allow h
           | None => h
           end in
  UserContext (AuditMiddleware (Some auditReporter) (Some permLocator) now_ h).

(** What every request of the API group passes through. *)
Definition api (cfg : Config) (h : Handler (S := Admin)) : Handler (S := Admin) :=
  let h := authenticated cfg h in
  SecurityHeaders (match auth cfg with Some a => Authenticate a h | None => h end).

(** The guards of a component-scoped route, none in development mode. *)
Definition wrap (cfg : Config) (res : Resource) (param perm : string) (h : Handler (S := Admin))
  : Handler (S := Admin) :=
  match auth cfg with
  | None => h
  | Some _ =>
      let req := mkRequirement res param perm in
      RequireResourceOwnership ResourceOwnershipService.AllowsComponent orgRepo (Some permLocator) req
        (RequirePermission (HasPermission bindingSvc) (Some permLocator) req h)
  end.

(** The guard of the platform management routes. *)
Definition platformGroup (cfg : Config) (permission : string) (h : Handler (S := Admin))
  : Handler (S := Admin) :=
  match auth cfg with
  | None => h
  | Some _ => RequirePlatformPermission (HasPlatformPermission bindingSvc) permission h
  end.

Definition auditGroup (cfg : Config) (h : Handler (S := Admin)) : Handler (S := Admin) :=
  match auth cfg with
  | None => h
  | Some _ => RequireAuditAccess (HasPlatformPermission bindingSvc) (HasPermission bindingSvc) h
  end.
End Api.
