(* ===== verification/WorldLogic.v ===== *)
(** Reasoning about handlers over [World].

    [same w w'] says that a computation only read: every table keeps its rows,
    nothing was delivered, the clock did not move.  [Quiet] computations are
    those that only read from any state; the hint database [quiet] composes
    them, and [wp_quiet] steps over one in a proof. *)
From stdpp Require Import base list strings gmap.
From Stdlib Require Import ZArith Lia.
From S2P Require Import Prelude Common Gorm Json RunnerProto RunStore PipelineStore TargetStore.
From S2P Require Import GoLib EditStore World.

Open Scope Z_scope.

(** * Statements on one table *)

Section Tables.
Context {G : Gorm} {GL : GormLaws G}.

(** Same rows, still healthy if it was. *)
Definition tsame {R} (t t' : Table R) : Prop := rows t' = rows t /\ (healthy t -> healthy t').

Lemma tsame_refl {R} (t : Table R) : tsame t t.
Proof. by split. Qed.
Lemma tsame_trans {R} (t1 t2 t3 : Table R) : tsame t1 t2 -> tsame t2 t3 -> tsame t1 t3.
Proof. intros [E1 H1] [E2 H2]. split; [congruence|auto]. Qed.

(** Only reads. *)
Definition TRead {R A} (m : M (Table R) A) : Prop := forall t, tsame t (m t).2.

Context {R : Type} `{Model R}.

Lemma read_First q : TRead (db_First q).
Proof.
  intros t. destruct (db_First q t) as [r t'] eqn:E. apply First_spec in E as (?&?&_). by split.
Qed.
Lemma read_Find q : TRead (db_Find q).
Proof.
  intros t. destruct (db_Find q t) as [r t'] eqn:E. apply Find_spec in E as (?&?&_). by split.
Qed.
Lemma read_Count p : TRead (db_Count p).
Proof.
  intros t. destruct (db_Count p t) as [r t'] eqn:E. apply Count_spec in E as (?&?&_). by split.
Qed.

Lemma read_ret {A} (a : A) : TRead (R := R) (ret a).
Proof. intros t. apply tsame_refl. Qed.
Lemma read_bind {A B} (m : M (Table R) A) (k : A -> M (Table R) B) :
  TRead m -> (forall a, TRead (k a)) -> TRead (bind m k).
Proof.
  intros Hm Hk t. unfold bind. specialize (Hm t). destruct (m t) as [a t']. simpl in Hm.
  eapply tsame_trans; [exact Hm|apply Hk].
Qed.
Lemma read_try {E A B} (m : M (Table R) (Res E A)) (k : A -> M (Table R) (Res E B)) :
  TRead m -> (forall a, TRead (k a)) -> TRead (try_bind m k).
Proof. intros Hm Hk. apply read_bind; [done|]. intros [a|e]; [apply Hk|apply read_ret]. Qed.

(** ** Statement rules *)

Lemma wp_First q (Q : Result R -> Table R -> Prop) t :
  (forall r t', tsame t t' -> alive r = true -> q_where q r = true -> r ∈ rows t -> Q (Ok r) t') ->
  (forall e t', tsame t t' -> (healthy t -> e = ErrRecordNotFound) ->
     (e = ErrRecordNotFound -> selected (q_where q) (rows t) = []) ->
     (errors_Is e ErrRecordNotFound = true -> e = ErrRecordNotFound) -> Q (Err e) t') ->
  wp (db_First q) Q t.
Proof.
  intros HO HE. apply wp_run. intros res t' E.
  pose proof (read_First q t) as Hs. rewrite E in Hs. simpl in Hs.
  destruct res as [r|e].
  - apply First_Ok in E as (_ & ? & ? & ?). by apply HO.
  - apply First_spec in E as (_ & _ & [[-> HS]|[Hn Hh]]).
    + by apply HE.
    + apply HE; [done|by intros ?| |congruence].
      intros ->. by rewrite errors_Is_refl in Hn.
Qed.

Lemma wp_Find q (Q : Result (list R) -> Table R -> Prop) t :
  (forall l t', tsame t t' -> query_result q (rows t) l -> Q (Ok l) t') ->
  (forall e t', tsame t t' -> (~ healthy t) -> Q (Err e) t') ->
  wp (db_Find q) Q t.
Proof.
  intros HO HE. apply wp_run. intros res t' E. apply Find_spec in E as (Hr & Hh & Hres).
  destruct res as [l|e]; [by apply HO|]. apply HE; [done|apply Hres].
Qed.

Lemma wp_Count p (Q : Result Z -> Table R -> Prop) t :
  (forall t', tsame t t' -> Q (Ok (Z.of_nat (length (selected p (rows t))))) t') ->
  (forall e t', tsame t t' -> (~ healthy t) -> Q (Err e) t') ->
  wp (db_Count p) Q t.
Proof.
  intros HO HE. apply wp_run. intros res t' E. apply Count_spec in E as (Hr & Hh & Hres).
  destruct res as [n|e]; [subst; by apply HO|]. apply HE; [done|apply Hres].
Qed.

Lemma wp_Create now r (Q : Result R -> Table R -> Prop) t :
  (forall r' t', (healthy t -> healthy t') -> inserted now (rows t) r r' ->
     rows t' = rows t ++ [r'] -> Q (Ok r') t') ->
  (forall e t', tsame t t' -> Q (Err e) t') ->
  wp (db_Create now r) Q t.
Proof.
  intros HO HE. apply wp_run. intros res t' E. apply Create_spec in E as (Hh & Hres).
  destruct res as [r'|e]; [destruct Hres as (? & ? & _); by apply HO|].
  destruct Hres as (? & _). apply HE. by split.
Qed.

Lemma wp_Updates now p f (Q : Result Z -> Table R -> Prop) t :
  (forall t', (healthy t -> healthy t') -> rows t' = update_rows now p f (rows t) ->
     Q (Ok (Z.of_nat (length (selected p (rows t))))) t') ->
  (forall e t', tsame t t' -> (~ healthy t) -> Q (Err e) t') ->
  wp (db_Updates now p f) Q t.
Proof.
  intros HO HE. apply wp_run. intros res t' E. apply Updates_spec in E as (Hh & Hres).
  destruct res as [n|e]; [destruct Hres as [-> ?]; by apply HO|].
  destruct Hres as (? & ? & ?). apply HE; [by split|done].
Qed.

Lemma wp_Delete now p (Q : Result Z -> Table R -> Prop) t :
  (forall t', (healthy t -> healthy t') -> rows t' = delete_rows now p (rows t) ->
     Q (Ok (Z.of_nat (length (selected p (rows t))))) t') ->
  (forall e t', tsame t t' -> (~ healthy t) -> Q (Err e) t') ->
  wp (db_Delete now p) Q t.
Proof.
  intros HO HE. apply wp_run. intros res t' E. apply Delete_spec in E as (Hh & Hres).
  destruct res as [n|e]; [destruct Hres as [-> ?]; by apply HO|].
  destruct Hres as (? & ? & ?). apply HE; [by split|done].
Qed.

(** An INSERT that nothing stands in the way of. *)
Lemma wp_Create_fresh now r (Q : Result R -> Table R -> Prop) t :
  healthy t -> pk r ∉ (pk <$> rows t) -> Forall (fun x => clash x r = false) (rows t) ->
  (forall r' t', healthy t' -> inserted now (rows t) r r' -> rows t' = rows t ++ [r'] -> Q (Ok r') t') ->
  wp (db_Create now r) Q t.
Proof.
  intros Hh Hp Hc HQ. apply wp_run. intros res t' E. apply Create_spec in E as (Hh' & Hres).
  destruct res as [r'|e]; [destruct Hres as (? & ? & _); apply HQ; auto|].
  destruct Hres as (_ & _ & [Hn|[Hcl|Hin]]); [done| |done].
  exfalso. apply Exists_exists in Hcl as (x & Hx & Hcl). rewrite Forall_forall in Hc.
  specialize (Hc x Hx). congruence.
Qed.

(** Saving a row that is in the table. *)
Lemma wp_Save_known now r (Q : Result R -> Table R -> Prop) t :
  pk r ∈ (pk <$> rows t) ->
  (forall t', (healthy t -> healthy t') -> rows t' = save_rows now r (rows t) ->
     Q (Ok (updated now r)) t') ->
  (forall e t', tsame t t' ->
     (~ healthy t \/ Exists (fun x => pk x <> pk r /\ clash x r = true) (rows t)) -> Q (Err e) t') ->
  wp (db_Save now r) Q t.
Proof.
  intros Hin HO HE. apply wp_run. intros res t' E. apply Save_spec in E as (Hh & Hres).
  destruct res as [r'|e].
  - destruct Hres as [(_ & -> & ?)|(? & _)]; [by apply HO|done].
  - destruct Hres as (? & _ & ?). apply HE; [by split|done].
Qed.

(** Saving a row with a fresh key is an INSERT. *)
Lemma wp_Save_new now r (Q : Result R -> Table R -> Prop) t :
  pk r ∉ (pk <$> rows t) ->
  (forall r' t', (healthy t -> healthy t') -> inserted now (rows t) r r' ->
     rows t' = rows t ++ [r'] -> Q (Ok r') t') ->
  (forall e t', tsame t t' -> Q (Err e) t') ->
  wp (db_Save now r) Q t.
Proof.
  intros Hin HO HE. apply wp_run. intros res t' E. apply Save_spec in E as (Hh & Hres).
  destruct res as [r'|e].
  - destruct Hres as [(? & _)|(_ & ? & ?)]; [done|by apply HO].
  - destruct Hres as (? & _ & ?). apply HE. by split.
Qed.
End Tables.

Create HintDb quiet.

(** * Whole states *)

Section Worlds.
Context {G : Gorm} {GL : GormLaws G} {P : Platform} {D : Dispatcher}.

Record same (w w' : World) : Prop := mkSame {
  same_now : w_now w' = w_now w;
  same_pipelines : tsame (w_pipelines w) (w_pipelines w');
  same_stages : tsame (w_stages w) (w_stages w');
  same_templates : tsame (w_templates w) (w_templates w');
  same_targets : tsame (w_targets w) (w_targets w');
  same_runs : tsame (w_runs w) (w_runs w');
  same_tasks : tsame (w_tasks w) (w_tasks w');
  same_jobs : tsame (w_jobs w) (w_jobs w');
  same_logs : tsame (w_logs w) (w_logs w');
  same_approvals : tsame (w_approvals w) (w_approvals w');
  same_policies : tsame (w_policies w) (w_policies w');
  same_rollouts : tsame (w_rollouts w) (w_rollouts w');
  same_link : w_link w' = w_link w;
  same_versions : tsame (w_versions w) (w_versions w');
  same_triggers : tsame (w_triggers w) (w_triggers w');
  same_agent_ops : tsame (w_agent_ops w) (w_agent_ops w');
  same_agent_op_logs : tsame (w_agent_op_logs w) (w_agent_op_logs w');
}.

#[global] Instance same_refl : Reflexive same.
Proof. intros w. split; (done || apply tsame_refl). Qed.
#[global] Instance same_trans : Transitive same.
Proof.
  intros w1 w2 w3 [] []. split; solve [congruence | eapply tsame_trans; eassumption].
Qed.

(** A field holding a table: replacing it by the same rows changes nothing. *)
Class TableField {R} (proj : World -> Table R) {S : Setter proj} : Prop := {
  field_get : forall w t, proj (set_field proj (fun _ => t) w) = t;
  field_same : forall w t, tsame (proj w) t -> same w (set_field proj (fun _ => t) w);
}.

Ltac table_field :=
  split; [done|]; intros w t Ht; split; first [exact Ht | done | apply tsame_refl].
#[global] Instance pipelines_field : TableField w_pipelines. Proof. table_field. Qed.
#[global] Instance stages_field : TableField w_stages. Proof. table_field. Qed.
#[global] Instance templates_field : TableField w_templates. Proof. table_field. Qed.
#[global] Instance targets_field : TableField w_targets. Proof. table_field. Qed.
#[global] Instance runs_field : TableField w_runs. Proof. table_field. Qed.
#[global] Instance tasks_field : TableField w_tasks. Proof. table_field. Qed.
#[global] Instance jobs_field : TableField w_jobs. Proof. table_field. Qed.
#[global] Instance logs_field : TableField w_logs. Proof. table_field. Qed.
#[global] Instance approvals_field : TableField w_approvals. Proof. table_field. Qed.
#[global] Instance policies_field : TableField w_policies. Proof. table_field. Qed.
#[global] Instance versions_field : TableField w_versions. Proof. table_field. Qed.
#[global] Instance triggers_field : TableField w_triggers. Proof. table_field. Qed.
#[global] Instance agent_ops_field : TableField w_agent_ops. Proof. table_field. Qed.
#[global] Instance agent_op_logs_field : TableField w_agent_op_logs. Proof. table_field. Qed.
#[global] Instance rollouts_field : TableField w_rollouts. Proof. table_field. Qed.

Definition Quiet {A} (m : M World A) : Prop := forall w, same w (m w).2.

Lemma quiet_ret {A} (a : A) : Quiet (ret a).
Proof. intros w. reflexivity. Qed.
Lemma quiet_get : Quiet get.
Proof. intros w. reflexivity. Qed.
Lemma quiet_now : Quiet time_Now.
Proof. intros w. reflexivity. Qed.
Lemma quiet_uuid : Quiet uuid_new.
Proof. intros w. split; (done || apply tsame_refl). Qed.
Lemma quiet_rand : Quiet rand_read.
Proof. intros w. split; (done || apply tsame_refl). Qed.
Lemma quiet_bind {A B} (m : M World A) (k : A -> M World B) :
  Quiet m -> (forall a, Quiet (k a)) -> Quiet (bind m k).
Proof.
  intros Hm Hk w. unfold bind. specialize (Hm w). destruct (m w) as [a w']. simpl in Hm.
  etransitivity; [exact Hm|apply Hk].
Qed.
Lemma quiet_try {E A B} (m : M World (Res E A)) (k : A -> M World (Res E B)) :
  Quiet m -> (forall a, Quiet (k a)) -> Quiet (try_bind m k).
Proof. intros Hm Hk. apply quiet_bind; [done|]. intros [a|e]; [apply Hk|apply quiet_ret]. Qed.
Lemma quiet_zoom {R A} (proj : World -> Table R) {S : Setter proj} {F : TableField proj}
    (m : M (Table R) A) : TRead m -> Quiet (zoom proj m).
Proof.
  intros Hm w. unfold zoom. specialize (Hm (proj w)). destruct (m (proj w)) as [a t].
  by apply field_same.
Qed.
Lemma quiet_stmt {R A} (proj : World -> Table R) {S : Setter proj} {F : TableField proj}
    (m : Time -> M (Table R) A) : (forall now, TRead (m now)) -> Quiet (stmt proj m).
Proof. intros Hm. apply quiet_bind; [apply quiet_now|]. intros now. by apply quiet_zoom. Qed.
Lemma quiet_fold {A B E} (l : list A) (body : B -> A -> M World (Res E B)) acc :
  (forall b a, Quiet (body b a)) -> Quiet (fold_err l acc body).
Proof.
  intros Hb. revert acc. induction l as [|a l IH]; intros acc; [apply quiet_ret|].
  apply quiet_try; [apply Hb|]. intros. apply IH.
Qed.
Lemma quiet_for_each_err {A E} (l : list A) (body : A -> M World (Res E unit)) :
  (forall a, Quiet (body a)) -> Quiet (for_each_err l body).
Proof.
  intros Hb. induction l as [|a l IH]; [apply quiet_ret|].
  apply quiet_try; [apply Hb|]. intros. apply IH.
Qed.

(** ** Rules *)

Lemma wp_quiet {A} (m : M World A) (Q : A -> World -> Prop) w :
  Quiet m -> (forall a w', m w = (a, w') -> same w w' -> Q a w') -> wp m Q w.
Proof.
  intros Hm HQ. apply wp_run. intros a w' E. apply HQ; [done|]. specialize (Hm w).
  by rewrite E in Hm.
Qed.

Lemma wp_quiet_and {A} (m : M World A) (Q : A -> World -> Prop) w :
  Quiet m -> wp m Q w -> wp m (fun r w' => same w w' /\ Q r w') w.
Proof. intros Hm HQ. split; [apply Hm|exact HQ]. Qed.

Lemma wp_stmt {R A} (proj : World -> R) {S : Setter proj} (m : Time -> M R A) Q w :
  wp (m (w_now w)) (fun a t' => Q a (set_field proj (fun _ => t') w)) (proj w) ->
  wp (stmt proj m) Q w.
Proof. intros H. unfold stmt. apply wp_bind. apply (wp_zoom proj). exact H. Qed.
End Worlds.

(** Solves a [Quiet] or [TRead] goal by following the text of the handler. *)
Ltac quiet_step :=
  match goal with
  | |- TableField _ => apply _
  | |- Quiet (ret _) => apply quiet_ret
  | |- Quiet (bind _ _) => apply quiet_bind; [|intros ?]
  | |- Quiet (try_bind _ _) => apply quiet_try; [|intros ?]
  | |- Quiet (zoom _ _) => apply quiet_zoom
  | |- Quiet (stmt _ _) => apply quiet_stmt; [|intros ?]
  | |- Quiet (fold_err _ _ _) => apply quiet_fold; intros ? ?
  | |- Quiet (for_each_err _ _) => apply quiet_for_each_err; intros ?
  | |- Quiet (match ?x with _ => _ end) => destruct x
  | |- Quiet time_Now => apply quiet_now
  | |- Quiet uuid_new => apply quiet_uuid
  | |- Quiet rand_read => apply quiet_rand
  | |- Quiet get => apply quiet_get
  | |- TRead (db_First _) => apply read_First
  | |- TRead (db_Find _) => apply read_Find
  | |- TRead (db_Count _) => apply read_Count
  | |- TRead (ret _) => apply read_ret
  | |- TRead (bind _ _) => apply read_bind; [|intros ?]
  | |- TRead (try_bind _ _) => apply read_try; [|intros ?]
  | |- TRead (match ?x with _ => _ end) => destruct x
  | |- TRead ?m => let h := head_of m in progress unfold h
  end.
Ltac quiet := repeat first [quiet_step | solve [auto with quiet]].
