(* ===== verification/RunParams.v ===== *)
(** Run parameters ([internal/run/service/pipeline_run_params.go]): the
    precedence of the four sources at trigger time and the [${KEY}] expansion
    of the task templates. *)
From stdpp Require Import base list strings gmap.
From Stdlib Require Import ZArith Lia Ascii.
From S2P Require Import Prelude Common Gorm Json RunnerProto RunStore PipelineStore TargetStore.
From S2P Require Import World.

Open Scope Z_scope.

(** * Precedence *)

(** The closure state of [add]: the list built so far and the index of each
    name in it. *)
Definition Acc : Type := list Param * gmap string nat.

Definition add (st : Acc) (name value : string) : Acc :=
  let '(out, idx) := st in
  if empty_string name then st
  else match idx !! name with
       | Some i => (alter (fun p => mkParam (param_Name p) value) i out, idx)
       | None => (out ++ [mkParam name value], <[name := length out]> idx)
       end.

Definition add_params (st : Acc) (ps : list Param) : Acc :=
  foldl (fun st p => add st (param_Name p) (param_Value p)) st ps.

(** Tier 1: the declarations that carry a default. *)
Definition add_defaults (st : Acc) (ds : list ParamDecl) : Acc :=
  foldl (fun st d => if empty_string (pd_Default d) then st else add st (pd_Name d) (pd_Default d))
    st ds.

Section Trigger.
Context {G : Gorm} {P : Platform} {D : Dispatcher}.

Definition triggerParams (s : PipelineRunService) (p : Pipeline) (runParams : list Param)
  : M World (list Param) :=
  let st := add_defaults ([], ∅) (DecodeParamDecls (pl_Params p)) in
  let* st := match varSource s with
    | None => ret st
    | Some v =>
        let* gs := GroupParams v (pl_ComponentID p) in
        let* cs := ComponentParams v (pl_ComponentID p) in
        ret (add_params (add_params st gs) cs)
    end in
  ret (add_params st runParams).1.
End Trigger.

(** * Expansion of [${KEY}] *)

Definition between (lo hi : Z) (c : ascii) : bool :=
  let b := byte_of c in (lo <=? b) && (b <=? hi).
(** [[A-Za-z_]] and [[A-Za-z0-9_]]. *)
Definition ident_start (c : ascii) : bool :=
  between 65 90 c || between 97 122 c || Ascii.eqb c "_"%char.
Definition ident_char (c : ascii) : bool := ident_start c || between 48 57 c.

(** The rest of an identifier and the closing brace. *)
Fixpoint match_tail (s : string) : option string :=
  match s with
  | String c s' =>
      if Ascii.eqb c "}"%char then Some ""
      else if ident_char c then String c <$> match_tail s' else None
  | "" => None
  end.

(** A match of [paramSubst] at the start of [s]; the captured key. *)
Definition match_key (s : string) : option string :=
  match s with
  | String d (String b (String c s')) =>
      if Ascii.eqb d "$"%char && Ascii.eqb b "{"%char && ident_start c
      then String c <$> match_tail s' else None
  | _ => None
  end.

(** [ReplaceAllStringFunc]: leftmost matches, the replacement is not
    rescanned.  [skip] counts the characters of the current match left. *)
Fixpoint replace_all (f : string -> string -> string) (s : string) (skip : nat) : string :=
  match s with
  | "" => ""
  | String c s' =>
      match skip with
      | S n => replace_all f s' n
      | O => match match_key s with
             | Some key => f key ("${" +:+ key +:+ "}") +:+
                           replace_all f s' (String.length key + 2)
             | None => String c (replace_all f s' 0)
             end
      end
  end.

(** [strings.Contains(s, "${")]. *)
Fixpoint contains_open (s : string) : bool :=
  match s with
  | String d ((String b _) as s') => (Ascii.eqb d "$"%char && Ascii.eqb b "{"%char) || contains_open s'
  | _ => false
  end.

Definition substituteParams (s : string) (params : gmap string string) : string :=
  if bool_decide (params = ∅) || negb (contains_open s) then s
  else replace_all (fun key m => default m (params !! key)) s 0.

Definition substituteParamsSlice (ss : list string) (params : gmap string string) : list string :=
  (fun s => substituteParams s params) <$> ss.

(** The nil map of an empty list behaves like the empty one. *)
Definition paramsMap (params : list Param) : gmap string string :=
  foldl (fun m p => if empty_string (param_Name p) then m
                    else <[param_Name p := param_Value p]> m) ∅ params.

Definition substituteReleaseSpec (rs : ReleaseSpec) (params : gmap string string) : ReleaseSpec :=
  if bool_decide (params = ∅) then rs
  else
    rs <| rel_Manifest := (fun m => mkManifestSource (substituteParams (manifest_Content m) params))
                          <$> rel_Manifest rs |>
       <| rel_Chart := (fun c => mkChartSource (chart_RepoURL c) (chart_Name c)
                          (substituteParams (chart_Version c) params)) <$> rel_Chart rs |>
       <| rel_Values := (fun v => substituteParams v params) <$> rel_Values rs |>
       <| rel_TargetNamespace := substituteParams (rel_TargetNamespace rs) params |>.

(** [uuid[:8]] *)
Definition prefix8 (s : string) : string := String.substring 0 8 s.

(** The best-effort decoding of a run's params column. *)
Definition decode_params (raw : RawJSON) : list Param :=
  if raw_len0 raw then [] else (Unmarshal raw).1.

(** [runVersion]. *)
Definition version_of (P : Platform) (run : PipelineRun) : string :=
  match find (fun p => String.eqb (param_Name p) "VERSION" && negb (empty_string (param_Value p)))
          (decode_params (run_Params run)) with
  | Some p => param_Value p
  | None => "run-" +:+ prefix8 (uuid_String (run_ID run))
  end.

(** * Properties of the precedence *)

(** What a list of assignments means: the last non-anonymous one wins. *)
Definition last_value (name : string) (ps : list Param) : option string :=
  foldl (fun acc p => if String.eqb (param_Name p) name then Some (param_Value p) else acc) None ps.

Definition declared (ds : list ParamDecl) : list Param :=
  (fun d => mkParam (pd_Name d) (pd_Default d)) <$>
    filter (fun d => empty_string (pd_Default d) = false) ds.

(** [idx] maps every name of [out] to its only position. *)
Definition acc_ok (st : Acc) : Prop :=
  NoDup (param_Name <$> st.1) /\ "" ∉ (param_Name <$> st.1) /\
  forall name i, st.2 !! name = Some i <-> exists v, st.1 !! i = Some (mkParam name v).

Definition acc_value (st : Acc) (name : string) : option string :=
  match st.2 !! name with Some i => param_Value <$> st.1 !! i | None => None end.

Lemma last_value_app name l1 l2 :
  last_value name (l1 ++ l2) =
  match last_value name l2 with Some v => Some v | None => last_value name l1 end.
Proof.
  unfold last_value. rewrite foldl_app. generalize (foldl (fun acc p =>
    if String.eqb (param_Name p) name then Some (param_Value p) else acc) None l1) as a.
  induction l2 as [|p l2 IH] using rev_ind; intros a; [done|].
  rewrite !foldl_app. simpl. by destruct (String.eqb (param_Name p) name).
Qed.

Lemma last_value_snoc name l p :
  last_value name (l ++ [p]) =
  if String.eqb (param_Name p) name then Some (param_Value p) else last_value name l.
Proof. rewrite last_value_app. unfold last_value at 1. simpl. by destruct (String.eqb _ _). Qed.

Lemma last_value_None name l : name ∉ (param_Name <$> l) -> last_value name l = None.
Proof.
  induction l as [|p l IH] using rev_ind; [done|]. rewrite fmap_app, last_value_snoc.
  intros Hn. destruct (String.eqb_spec (param_Name p) name) as [<-|]; [set_solver|].
  apply IH. set_solver.
Qed.

Lemma last_value_lookup l i p :
  NoDup (param_Name <$> l) -> l !! i = Some p -> last_value (param_Name p) l = Some (param_Value p).
Proof.
  intros Hnd Hi. apply list_elem_of_split_length in Hi as (l1 & l2 & -> & _).
  rewrite fmap_app, fmap_cons in Hnd. apply NoDup_app in Hnd as (_ & _ & Hnd).
  apply NoDup_cons in Hnd as [Hn _]. rewrite (cons_middle p l1 l2), app_assoc.
  rewrite last_value_app, (last_value_None _ l2) by done.
  rewrite last_value_snoc. by rewrite String.eqb_refl.
Qed.

Lemma acc_value_last st name : acc_ok st -> last_value name st.1 = acc_value st name.
Proof.
  intros (Hnd & _ & Hidx). unfold acc_value. destruct (st.2 !! name) as [i|] eqn:E.
  - apply Hidx in E as (v & Hv). rewrite Hv. simpl. by apply (last_value_lookup _ i (mkParam name v)).
  - apply last_value_None. intros ([n v] & -> & (i & Hi)%list_elem_of_lookup)%list_elem_of_fmap.
    simpl in E. assert (st.2 !! n = Some i) as HE by (apply Hidx; eauto). congruence.
Qed.

Lemma names_alter (out : list Param) i value :
  param_Name <$> alter (fun p => mkParam (param_Name p) value) i out = param_Name <$> out.
Proof.
  revert i. induction out as [|p out IH]; intros [|i]; simpl; try done. f_equal. apply IH.
Qed.

Lemma add_ok st name value : acc_ok st -> acc_ok (add st name value).
Proof.
  destruct st as [out idx]. intros (Hnd & Hne & Hidx). unfold add, acc_ok in *. simpl in *.
  destruct (empty_string name) eqn:En; [done|].
  assert (name <> "") as Hname by (intros ->; done).
  destruct (idx !! name) as [i|] eqn:E; simpl.
  - rewrite names_alter. split; [done|]. split; [done|]. intros n j. rewrite Hidx.
    split; intros [v Hv].
    + destruct (decide (i = j)) as [<-|].
      * exists value. rewrite list_lookup_alter_eq, Hv. done.
      * exists v. by rewrite list_lookup_alter_ne.
    + destruct (decide (i = j)) as [<-|].
      * rewrite list_lookup_alter_eq in Hv.
        destruct (out !! i) as [[n' v']|]; [|done]. simpl in Hv. injection Hv as -> _. eauto.
      * rewrite list_lookup_alter_ne in Hv by done. eauto.
  - assert (Hnew : name ∉ param_Name <$> out).
    { intros ([n v] & -> & (i & Hi)%list_elem_of_lookup)%list_elem_of_fmap. simpl in *.
      assert (idx !! n = Some i) by (apply Hidx; eauto). congruence. }
    rewrite fmap_app. simpl. split; [|split].
    + apply NoDup_app. split; [done|]. split; [set_solver|apply NoDup_singleton].
    + set_solver.
    + intros n j. destruct (decide (name = n)) as [<-|Hn].
      * rewrite lookup_insert_eq. split.
        { intros [= <-]. exists value. by apply list_lookup_middle. }
        { intros [v Hv]. apply lookup_app_Some in Hv as [Hv|[Hlen Hv]].
          - exfalso. apply Hnew, list_elem_of_fmap. exists (mkParam name v).
            split; [done|by eapply list_elem_of_lookup_2].
          - apply list_lookup_singleton_Some in Hv as [Hj _]. f_equal. lia. }
      * rewrite lookup_insert_ne, Hidx by done. split; intros [v Hv]; exists v.
        { by apply lookup_app_l_Some. }
        { apply lookup_app_Some in Hv as [Hv|[_ Hv]]; [done|].
          apply list_lookup_singleton_Some in Hv as [_ [= ??]]. done. }
Qed.

Lemma add_value st n v name : acc_ok st -> name <> "" ->
  last_value name (add st n v).1 = if String.eqb n name then Some v else last_value name st.1.
Proof.
  intros Hok Hne. rewrite (acc_value_last (add st n v)) by (by apply add_ok).
  rewrite acc_value_last by done. destruct st as [out idx]. destruct Hok as (_ & _ & Hidx).
  unfold add, acc_value. simpl in *. unfold empty_string. destruct (String.eqb_spec n name) as [->|Hn].
  - rewrite (proj2 (String.eqb_neq name "")) by done. destruct (idx !! name) as [i|] eqn:E; simpl.
    + rewrite E, list_lookup_alter_eq. apply Hidx in E as (v' & ->). done.
    + rewrite lookup_insert_eq, list_lookup_middle by done. done.
  - destruct (String.eqb n ""); [done|]. destruct (idx !! n) as [i|] eqn:E; simpl.
    + destruct (idx !! name) as [j|] eqn:Ej; [|done]. rewrite list_lookup_alter_ne; [done|].
      intros <-. apply Hidx in E as (v1 & E1). apply Hidx in Ej as (v2 & E2). congruence.
    + rewrite lookup_insert_ne by done. destruct (idx !! name) as [j|] eqn:Ej; [|done].
      apply Hidx in Ej as (v2 & E2). rewrite lookup_app_l; [done|]. by eapply lookup_lt_Some.
Qed.

Lemma add_params_spec ps st :
  acc_ok st -> acc_ok (add_params st ps) /\
  forall name, name <> "" -> last_value name (add_params st ps).1 = last_value name (st.1 ++ ps).
Proof.
  intros Hok. induction ps as [|p ps IH] using rev_ind.
  - split; [done|]. intros. by rewrite app_nil_r.
  - destruct IH as [Hok' IH]. unfold add_params in *. rewrite foldl_app. simpl.
    split; [by apply add_ok|]. intros name Hne. rewrite add_value, IH by done.
    by rewrite app_assoc, last_value_snoc.
Qed.

Lemma add_defaults_params ds st : add_defaults st ds = add_params st (declared ds).
Proof.
  revert st. unfold add_defaults, add_params, declared.
  induction ds as [|d ds IH]; intros st; [done|]. simpl. rewrite IH, filter_cons.
  destruct (empty_string (pd_Default d)); simpl; done.
Qed.

Lemma acc_ok_nil : acc_ok ([], ∅).
Proof.
  split; [constructor|]. split; [simpl; set_solver|]. intros name i. simpl. rewrite lookup_empty.
  split; [done|]. intros [v Hv]. by rewrite lookup_nil in Hv.
Qed.

Section TriggerParams.
Context {G : Gorm} {P : Platform} {D : Dispatcher}.

(** What the component-variable source answers, [None] when it is not wired. *)
Definition tiers (s : PipelineRunService) (component : UUID) (w : World)
    (groups components : list Param) (w' : World) : Prop :=
  match varSource s with
  | None => groups = [] /\ components = [] /\ w' = w
  | Some v => exists w1, GroupParams v component w = (groups, w1) /\
                         ComponentParams v component w1 = (components, w')
  end.

Lemma triggerParams_eq s p runParams w gs cs w' :
  tiers s (pl_ComponentID p) w gs cs w' ->
  triggerParams s p runParams w =
    ((add_params ([], ∅) (declared (DecodeParamDecls (pl_Params p)) ++ gs ++ cs ++ runParams)).1, w').
Proof.
  unfold tiers, triggerParams. rewrite add_defaults_params. unfold bind, ret.
  destruct (varSource s) as [v|].
  - intros (w1 & -> & ->). unfold add_params. by rewrite !foldl_app.
  - intros (-> & -> & ->). unfold add_params. by rewrite !foldl_app.
Qed.
End TriggerParams.

(** * Reference semantics of the expansion *)

Inductive Token : Type := Lit (c : ascii) | Ref (key : string).

Definition is_key (key : string) : Prop :=
  exists c s, key = String c s /\ ident_start c = true /\
    Forall (fun d => ident_char d = true) (String.list_ascii_of_string s).

Definition starts_ref (s : string) : Prop :=
  exists key rest, is_key key /\ s = "${" +:+ key +:+ "}" +:+ rest.

(** The leftmost decomposition into references and literal characters. *)
Inductive Lex : string -> list Token -> Prop :=
| Lex_nil : Lex "" []
| Lex_ref key rest ts :
    is_key key -> Lex rest ts -> Lex ("${" +:+ key +:+ "}" +:+ rest) (Ref key :: ts)
| Lex_lit c s ts : (~ starts_ref (String c s)) -> Lex s ts -> Lex (String c s) (Lit c :: ts).

Fixpoint render (params : gmap string string) (ts : list Token) : string :=
  match ts with
  | [] => ""
  | Lit c :: ts => String c (render params ts)
  | Ref key :: ts => default ("${" +:+ key +:+ "}") (params !! key) +:+ render params ts
  end.

Lemma match_tail_Some s key :
  match_tail s = Some key <->
  exists rest, s = key +:+ "}" +:+ rest /\
    Forall (fun d => ident_char d = true) (String.list_ascii_of_string key).
Proof.
  revert key. induction s as [|c s IH]; intros key; simpl.
  { split; [done|]. intros (rest & H & _). by destruct key. }
  destruct (Ascii.eqb_spec c "}"%char) as [->|Hc].
  - split.
    + intros [= <-]. exists s. split; [done|constructor].
    + intros (rest & H & Hk). destruct key as [|d key]; [done|].
      injection H as <- _. simpl in Hk. by inversion Hk.
  - destruct (ident_char c) eqn:Hi.
    + rewrite fmap_Some. split.
      * intros (k & Hk & ->). apply IH in Hk as (rest & -> & Hk). exists rest. split; [done|].
        by constructor.
      * intros (rest & H & Hk). destruct key as [|d key]; [by injection H as -> ->|].
        injection H as <- H. simpl in Hk. inversion Hk; subst. exists key. split; [|done].
        apply IH. eauto.
    + split; [done|]. intros (rest & H & Hk). destruct key as [|d key].
      * by injection H as -> _.
      * injection H as <- _. simpl in Hk. inversion Hk. congruence.
Qed.

Lemma match_key_Some s key :
  match_key s = Some key <->
  exists rest, is_key key /\ s = "${" +:+ key +:+ "}" +:+ rest.
Proof.
  unfold match_key, is_key. split.
  - destruct s as [|d [|b [|c s]]]; try done.
    destruct (Ascii.eqb_spec d "$"%char) as [->|]; [|done].
    destruct (Ascii.eqb_spec b "{"%char) as [->|]; [|done]. simpl.
    destruct (ident_start c) eqn:Hc; [|done].
    rewrite fmap_Some. intros (k & (rest & -> & Hk)%match_tail_Some & ->). exists rest. eauto 10.
  - intros (rest & (c & s' & -> & Hc & Hk) & ->). simpl. rewrite Hc. simpl.
    rewrite fmap_Some. exists s'. split; [|done]. apply match_tail_Some. eauto.
Qed.

Lemma match_key_None s : match_key s = None <-> ~ starts_ref s.
Proof.
  split.
  - intros H (key & rest & Hk & ->).
    assert (match_key ("${" +:+ key +:+ "}" +:+ rest) = Some key) as E
      by (apply match_key_Some; eauto). congruence.
  - intros H. destruct (match_key s) as [key|] eqn:E; [|done].
    apply match_key_Some in E as (rest & Hk & ->). exfalso. apply H. by exists key, rest.
Qed.

Lemma replace_all_skip f k s n :
  replace_all f (k +:+ s) (String.length k + n) = replace_all f s n.
Proof. induction k as [|c k IH]; [done|exact IH]. Qed.

Lemma replace_all_ref f key rest :
  is_key key ->
  replace_all f ("${" +:+ key +:+ "}" +:+ rest) 0 =
  f key ("${" +:+ key +:+ "}") +:+ replace_all f rest 0.
Proof.
  intros Hk.
  assert (match_key ("${" +:+ key +:+ "}" +:+ rest) = Some key) as E
    by (apply match_key_Some; eauto).
  change ("${" +:+ key +:+ "}" +:+ rest) with (String "$"%char ("{" +:+ key +:+ "}" +:+ rest)) at 1.
  cbn [replace_all].
  change (String "$"%char ("{" +:+ key +:+ "}" +:+ rest)) with ("${" +:+ key +:+ "}" +:+ rest).
  rewrite E. f_equal.
  replace ("{" +:+ key +:+ "}" +:+ rest) with (("{" +:+ key +:+ "}") +:+ rest)
    by (by rewrite !string_append_assoc).
  rewrite <- (replace_all_skip f ("{" +:+ key +:+ "}") rest 0). f_equal.
  rewrite !string_length_append. simpl. lia.
Qed.

Lemma Lex_total s : exists ts, Lex s ts.
Proof.
  remember (String.length s) as n eqn:Hn. revert s Hn.
  induction (lt_wf n) as [n _ IH]. intros [|c s] ->; [eexists; constructor|].
  destruct (match_key (String c s)) as [key|] eqn:E.
  - apply match_key_Some in E as (rest & Hk & E). rewrite E.
    destruct (IH (String.length rest)) with (s := rest) as (ts & Hts); [|done|].
    + apply (f_equal String.length) in E. rewrite !string_length_append in E. simpl in E |- *. lia.
    + exists (Ref key :: ts). by constructor.
  - destruct (IH (String.length s)) with (s := s) as (ts & Hts); [simpl; lia|done|].
    exists (Lit c :: ts). constructor; [|done]. by apply match_key_None.
Qed.

Lemma replace_all_Lex s ts params :
  Lex s ts -> replace_all (fun key m => default m (params !! key)) s 0 = render params ts.
Proof.
  induction 1 as [|key rest ts Hk _ IH|c s ts Hn _ IH]; [done| |].
  - by rewrite replace_all_ref, IH.
  - apply match_key_None in Hn. cbn [replace_all]. by rewrite Hn, IH.
Qed.

Lemma render_source s ts : Lex s ts -> render ∅ ts = s.
Proof.
  induction 1 as [|key rest ts Hk _ IH|c s ts Hn _ IH]; cbn [render]; [done| |by rewrite IH].
  rewrite IH, lookup_empty. cbn [default from_option]. by rewrite !string_append_assoc.
Qed.

Lemma contains_open_ref s : starts_ref s -> contains_open s = true.
Proof. by intros (key & rest & (c & k & -> & _) & ->). Qed.

Lemma contains_open_cons c s : contains_open (String c s) = false -> contains_open s = false.
Proof. destruct s; [done|]. simpl. by intros [_ ?]%orb_false_iff. Qed.

Lemma render_closed s ts params : Lex s ts -> contains_open s = false -> render params ts = s.
Proof.
  induction 1 as [|key rest ts Hk _ IH|c s ts Hn _ IH]; intros HC; [done| |].
  - rewrite contains_open_ref in HC; [done|]. by exists key, rest.
  - simpl. by rewrite IH by (by apply contains_open_cons in HC).
Qed.
