(* ===== verification/RunSpec.v ===== *)
(** From a pipeline definition to the spec a Runner executes
    ([internal/run/service/pipeline_run.go]: [selectTarget], [buildSpec],
    [templateToTaskSpec]; [production_guard.go]; [HasApprovalGate] of
    [approval_timeout.go]; [producesForTask] of [pipeline_run_params.go]). *)
From stdpp Require Import base list strings gmap.
From Stdlib Require Import ZArith Lia.
From S2P Require Import Prelude Common Gorm Json RunnerProto RunStore PipelineStore TargetStore.
From S2P Require Import World RunParams.

Open Scope Z_scope.

(** * Templates *)

Section Template.
Context {X : MetaV1}.

(** [json.Unmarshal] with the error wrapped by [fmt.Errorf]. *)
Definition decode_as {A} (C : Codec A) (format name : string) (raw : RawJSON) : Result A :=
  match UnmarshalE raw with Ok a => Ok a | Err e => Err (EWrap format [AStr name] e) end.

(** A field decoded only when [present]. *)
Definition decode_if {A} (C : Codec A) (present : bool) (format name : string) (raw : RawJSON)
  : Result (option A) :=
  if present then ok* a := decode_as C format name raw in Ok (Some a) else Ok None.

Definition templateToTaskSpec (tpl : PipelineTaskTemplate) (params : gmap string string)
  : Result PipelineTaskSpec :=
  let name := tpl_Name tpl in
  let subst := fun ss => substituteParamsSlice ss params in
  let release := String.eqb (tpl_Type tpl) TaskTypeRelease in
  ok* scriptArgs := decode_as _ "task %q scriptArgs: %w" name (tpl_ScriptArgs tpl) in
  ok* command := decode_if _ (negb (raw_len0 (tpl_Command tpl)))
                   "task %q command: %w" name (tpl_Command tpl) in
  ok* args := decode_if _ (negb (raw_len0 (tpl_Args tpl))) "task %q args: %w" name (tpl_Args tpl) in
  ok* produces := decode_as _ "task %q produces: %w" name (tpl_Produces tpl) in
  ok* consumes := decode_as _ "task %q consumes: %w" name (tpl_Consumes tpl) in
  ok* retry := decode_if _ (negb (raw_len0 (tpl_RetryPolicy tpl)) && negb (raw_is_null (tpl_RetryPolicy tpl)))
                 "task %q retryPolicy: %w" name (tpl_RetryPolicy tpl) in
  ok* approval := decode_if _ (String.eqb (tpl_Type tpl) TaskTypeApproval &&
                               negb (raw_len0 (tpl_ApprovalConfig tpl)))
                    "task %q approvalConfig: %w" name (tpl_ApprovalConfig tpl) in
  ok* rollout := decode_if _ (release && negb (raw_len0 (tpl_RolloutConfig tpl)))
                   "task %q rolloutConfig: %w" name (tpl_RolloutConfig tpl) in
  ok* rel := decode_if _ (release && negb (raw_len0 (tpl_ReleaseConfig tpl)))
               "task %q releaseConfig: %w" name (tpl_ReleaseConfig tpl) in
  Ok {|
    ts_Name := name;
    ts_Type := tpl_Type tpl;
    ts_Stage := "";
    ts_ExecutionMode := "";
    ts_Image := substituteParams (tpl_Image tpl) params;
    ts_ScriptPath := substituteParams (tpl_ScriptPath tpl) params;
    ts_ScriptArgs := subst scriptArgs;
    ts_Command := subst (default [] command);
    ts_Args := subst (default [] args);
    ts_Repo := None;
    ts_Produces := subst produces;
    ts_Consumes := subst consumes;
    ts_DependsOn := [];
    ts_Privileged := tpl_Privileged tpl;
    ts_RetryPolicy := retry;
    ts_TimeoutSeconds := tpl_TimeoutSeconds tpl;
    ts_ApprovalConfig := approval;
    ts_RolloutSpec := rollout;
    ts_ReleaseSpec := (fun rs => substituteReleaseSpec rs params) <$> rel;
  |}.

(** * Dependencies *)

(** The two derivations of [DependsOn]: every task of the previous stage, and
    the task's predecessor in a serial stage; a hand-authored list disables
    both. *)
Definition derive_deps (stage : PipelineStage) (prevStageTaskNames stageTaskNames : list string)
    (task : PipelineTaskSpec) : PipelineTaskSpec :=
  let handAuthored := negb (empty_list (ts_DependsOn task)) in
  let task := if negb handAuthored && negb (empty_list prevStageTaskNames)
    then task <| ts_DependsOn := ts_DependsOn task ++ prevStageTaskNames |> else task in
  if String.eqb (st_ExecutionMode stage) ExecutionModeSerial && negb handAuthored &&
     negb (empty_list stageTaskNames)
  then task <| ts_DependsOn := ts_DependsOn task ++ [List.last stageTaskNames ""] |>
  else task.

(** The loop over one stage's templates. *)
Fixpoint stage_loop (stage : PipelineStage) (prev : list string) (subst : gmap string string)
    (templates : list PipelineTaskTemplate) (tasks : list PipelineTaskSpec) (names : list string)
  : Result (list PipelineTaskSpec * list string) :=
  match templates with
  | [] => Ok (tasks, names)
  | tpl :: templates' =>
      ok* task := templateToTaskSpec tpl subst in
      let task := derive_deps stage prev names (task <| ts_Stage := st_Name stage |>) in
      stage_loop stage prev subst templates' (tasks ++ [task]) (names ++ [ts_Name task])
  end.
End Template.

Definition HasApprovalGate (tasks : list PipelineTaskSpec) : bool :=
  existsb (fun t => String.eqb (ts_Type t) TaskTypeApproval) tasks.

Definition productionGuardTargets (single : UUID) (many : list UUID) : list UUID :=
  match many with
  | _ :: _ => many
  | [] => if single =? uuid_Nil then [] else [single]
  end.

(** [fmt.Sprint] of a string slice. *)
Definition sprint_list (l : list string) : string :=
  "[" +:+ String.concat " " l +:+ "]".

Definition ErrNoOnlineTarget : GoError :=
  ESentinel "no online target available to run this pipeline".

Section Spec.
Context {G : Gorm} {P : Platform} {D : Dispatcher} {X : MetaV1}.

Definition selectTarget (reqTargetID : option UUID) : M World (Result UUID) :=
  match reqTargetID with
  | Some id =>
      try* tg := zoom w_targets (TargetService.Get id) in
      if negb (String.eqb (tg_Status tg) TargetStatusOnline)
      then ret (Err (EFmt "target %q is not online" [AStr (tg_Name tg)]))
      else ret (Ok (tg_ID tg))
  | None =>
      try* r := zoom w_targets (TargetService.List (mkPagination 1 100)) in
      ret (match find (fun tg => String.eqb (tg_Status tg) TargetStatusOnline) r.1 with
           | Some tg => Ok (tg_ID tg)
           | None => Err ErrNoOnlineTarget
           end)
  end.

Definition ErrComponentDeprecated : GoError :=
  EApi (DomainErrorWithReasons KindPipeline StatusConflict 7 "component deprecated"
    ["组件已标记为废弃（lifecycle=deprecated），禁止触发新运行；历史运行与制品保留。如需恢复请在组件设置中改回 active。"]).

(** [err != nil] of the lifecycle guard, or the refusal of a deprecated
    component. *)
Definition check_lifecycle (s : PipelineRunService) (component : UUID) : M World (Result unit) :=
  match componentGuard s with
  | None => ret (Ok tt)
  | Some lifecycleOf =>
      try* lc := lifecycleOf component in
      ret (if String.eqb lc "deprecated" then Err ErrComponentDeprecated else Ok tt)
  end.

Definition buildSpec (s : PipelineRunService) (pipelineID : UUID) (req : TriggerRequest)
  : M World (Result PipelineRunSpec) :=
  try* p := zoom w_pipelines (PipelineRepository.GetByID pipelineID) in
  try* _ := check_lifecycle s (pl_ComponentID p) in
  try* stages := zoom w_stages (StageRepository.ListByPipelineID pipelineID) in
  let* eff := triggerParams s p (tq_Params req) in
  let subst := paramsMap eff in
  try* r := fold_err stages ([], []) (fun acc stage =>
      try* templates := zoom w_templates (TaskTemplateRepository.ListByStageID (st_ID stage)) in
      ret (stage_loop stage acc.2 subst templates acc.1 [])) in
  match r.1 with
  | [] => ret (Err (EFmt "pipeline %s has no task templates to run"
                     [AStr (uuid_String pipelineID)]))
  | tasks => ret (Ok {|
      prs_PipelineRef := pl_Name p;
      prs_Tasks := tasks;
      prs_Repo := if empty_string (tq_RepoURL req) then None
                  else Some (mkRepoSource (tq_RepoURL req) (tq_RepoRef req) (tq_RepoPath req) "");
      prs_Params := eff;
      prs_TenantID := "";
      prs_ProjectID := uuid_String (pl_ComponentID p);
      prs_EnvironmentID := "";
      prs_TargetNamespace := default_str "sdp-run" (tq_TargetNamespace req);
      prs_ServiceAccountName := jobServiceAccount s;
      prs_TimeoutSeconds := tq_TimeoutSeconds req;
      prs_TriggeredBy := tq_TriggeredBy req;
    |})
  end.

(** Mandatory approval in production: fail-closed on a policy error. *)
Definition enforceProductionApproval (s : PipelineRunService) (spec : PipelineRunSpec)
    (targetIDs : list UUID) : M World (Result unit) :=
  match productionPolicy s with
  | None => ret (Ok tt)
  | Some productionTargets =>
      if empty_list targetIDs then ret (Ok tt)
      else if HasApprovalGate (prs_Tasks spec) then ret (Ok tt)
      else
        let* r := productionTargets targetIDs in
        ret (match r with
             | Err e => Err (EWrap
                 "cannot evaluate the production approval policy (refusing to trigger): %w" [] e)
             | Ok [] => Ok tt
             | Ok prodTargets => Err (EApi (DomainErrorWithReasons KindPipeline StatusConflict 5
                 "production deployments require an approval gate"
                 [Sprintf "目标环境 %s 属于生产环境（envType=production），流水线必须包含至少一个人工审核阶段"
                    [AStr (sprint_list (uuid_String <$> prodTargets))]]))
             end)
  end.

(** The templates of a pipeline's stages in order, searched by name; the first
    hit decides. *)
Fixpoint find_template (stages : list PipelineStage) (taskName : string)
  : M World (Result (option PipelineTaskTemplate)) :=
  match stages with
  | [] => ret (Ok None)
  | st :: stages' =>
      try* templates := zoom w_templates (TaskTemplateRepository.ListByStageID (st_ID st)) in
      match find (fun tpl => String.eqb (tpl_Name tpl) taskName) templates with
      | Some tpl => ret (Ok (Some tpl))
      | None => find_template stages' taskName
      end
  end.

Definition producesForTask (pipelineID : UUID) (taskName : string) : M World (Result (list string)) :=
  try* stages := zoom w_stages (StageRepository.ListByPipelineID pipelineID) in
  try* tpl := find_template stages taskName in
  match tpl with
  | None => ret (Ok [])
  | Some tpl =>
      if negb (raw_len0 (tpl_Produces tpl)) && negb (raw_is_null (tpl_Produces tpl))
      then ret (decode_as _ "task %q produces: %w" taskName (tpl_Produces tpl))
      else ret (Ok [])
  end.
End Spec.
