(* ===== verification/RunDispatch.v ===== *)
(** The durable dispatch queue ([internal/run/service/pipeline_run.go]:
    [enqueueDispatch], [tryDeliver], [DrainTarget], [sweepOnce],
    [dispatchBackoff]; [run_concurrency.go]: [dispatchStateForRun]). *)
From stdpp Require Import base list strings gmap.
From Stdlib Require Import ZArith Lia.
From S2P Require Import Prelude Common Gorm Json RunnerProto RunStore PipelineStore TargetStore.
From S2P Require Import World.

Open Scope Z_scope.

(** * Backoff *)

Definition MaxDispatchAttempts : Z := 10.

(** [1<<uint(n)] on a 64-bit [int]: a negative count converts to a huge one,
    and a shift by 64 or more gives 0. *)
Definition shl1 (n : Z) : Z := if (0 <=? n) && (n <? 64) then wrap64 (2 ^ n) else 0.

Definition dispatchBackoff (attempts : Z) : Duration :=
  let base := 30 * Second in
  let max := 5 * Minute in
  let d := wrap64 (base * shl1 (attempts - 1)) in
  if max <? d then max else d.

(** * Delivery *)

Section Dispatch.
Context {G : Gorm} {P : Platform} {D : Dispatcher} {X : MetaV1}.

(** [_ = s.dispatchRepo.MarkX(...)] *)
Definition ignore {S A} (m : M S A) : M S unit := m ;;; ret tt.

Definition tryDeliver (jobID : UUID) : M World (Result unit) :=
  try* job := zoom w_jobs (DispatchJobRepository.GetByID jobID) in
  if String.eqb (job_State job) DispatchJobDispatched || String.eqb (job_State job) DispatchJobDead
  then ret (Ok tt)
  else
    try* affected := stmt w_jobs (fun now => DispatchJobRepository.MarkDispatching now jobID) in
    if affected =? 0 then ret (Ok tt)
    else match UnmarshalE (A := ApplyPipelineRunPayload) (job_Payload job) with
    | Err err =>
        ignore (stmt w_jobs (fun now =>
          DispatchJobRepository.MarkDead now jobID ("corrupt payload: " +:+ Error err))) ;;;
        ret (Err err)
    | Ok payload =>
        let* sent := send (job_TargetID job) (MessageApplyPipelineRun payload) in
        match sent with
        | Some err =>
            let newAttempts := job_Attempts job + 1 in
            (if MaxDispatchAttempts <=? newAttempts
             then ignore (stmt w_jobs (fun now =>
                    DispatchJobRepository.MarkDead now jobID (Error err)))
             else ignore (stmt w_jobs (fun now =>
                    DispatchJobRepository.MarkFailed now jobID (Error err)
                      (now + dispatchBackoff newAttempts)))) ;;;
            ret (Err err)
        | None =>
            try* _ := stmt w_jobs (fun now => DispatchJobRepository.MarkDispatched now jobID) in
            ret (Ok tt)
        end
    end.

(** The redelivery loops log a failed attempt and go on. *)
Definition deliver_all (jobs : list DispatchJob) : M World unit :=
  for_each jobs (fun job => ignore (tryDeliver (job_ID job))).

Definition DrainTarget (targetID : UUID) : M World (Result unit) :=
  try* jobs := zoom w_jobs (DispatchJobRepository.ListPendingByTarget targetID) in
  deliver_all jobs ;;; ret (Ok tt).

(** One tick of [SweepPending]. *)
Definition sweepOnce : M World unit :=
  let* r := stmt w_jobs DispatchJobRepository.ListDueRetry in
  match r with
  | Err _ => ret tt
  | Ok jobs => deliver_all jobs
  end.

(** The job of a queued run is held back; a failed lookup falls back to
    [pending]. *)
Definition dispatchStateForRun (runID : UUID) : M World DispatchJobState :=
  let* r := zoom w_runs (PipelineRunRepository.GetByID runID) in
  ret (match r with
       | Ok run => if String.eqb (run_Phase run) PipelineRunPendingQueue
                   then DispatchJobHeld else DispatchJobPending
       | Err _ => DispatchJobPending
       end).

Definition new_job (runID targetID : UUID) (payload : RawJSON) (state : DispatchJobState)
  : DispatchJob :=
  mkDispatchJob uuid_Nil runID targetID payload state 0 "" None time_Zero time_Zero.

Definition enqueueDispatch (runID targetID : UUID) (apply : ApplyPipelineRunPayload)
  : M World (Result unit) :=
  let payload := Marshal apply in
  let* state := dispatchStateForRun runID in
  try* job := stmt w_jobs (fun now =>
    DispatchJobRepository.Create now (new_job runID targetID payload state)) in
  ignore (tryDeliver (job_ID job)) ;;;
  ret (Ok tt).
End Dispatch.
