(* ===== verification/RunTrigger.v ===== *)
(** Triggering a pipeline ([internal/run/service/pipeline_run.go]: [Trigger],
    [triggerFanout], [createRun], [triggerSourceOf]; [run_concurrency.go]: the
    concurrency policy; [approval_center.go]: [applyApprovalPolicy]). *)
From stdpp Require Import base list strings gmap.
From Stdlib Require Import ZArith Lia Ascii.
From S2P Require Import Prelude Common Gorm Json RunnerProto RunStore PipelineStore TargetStore.
From S2P Require Import World RunParams RunSpec RunDispatch.

Open Scope Z_scope.

(** * Concurrency policy *)

Definition activeRunPhases : list string :=
  [PipelineRunPending; PipelineRunRunning; PipelineRunWaitingApproval].

Definition DefaultRunConcurrencyLimit : Z := 4.

Definition newline : string := String (ascii_of_nat 10) "".

Section Trigger.
Context {G : Gorm} {P : Platform} {D : Dispatcher} {X : MetaV1}.

Definition concurrencyLimit (s : PipelineRunService) : Z :=
  if 0 <? runConcurrencyLimit s then runConcurrencyLimit s else DefaultRunConcurrencyLimit.

Definition concurrencyPolicyOf (pipelineID : UUID) : M World (Result string) :=
  let* r := zoom w_pipelines (PipelineRepository.GetByID pipelineID) in
  ret (match r with
       | Err e => Err (EWrap "resolve pipeline %s concurrency policy: %w"
                         [AStr (uuid_String pipelineID)] e)
       | Ok p => Ok (pl_ConcurrencyPolicy p)
       end).

(** [CountActiveByPipeline] with the error both guards wrap. *)
Definition count_active (pipelineID : UUID) : M World (Result Z) :=
  let* r := zoom w_runs (PipelineRunRepository.CountActiveByPipeline pipelineID activeRunPhases) in
  ret (match r with
       | Err e => Err (EWrap "count active runs for pipeline %s: %w"
                         [AStr (uuid_String pipelineID)] e)
       | Ok n => Ok n
       end).

Definition ErrConcurrencyForbidden (pipelineID : UUID) (n : Z) : GoError :=
  EApi (DomainErrorWithReasons KindRun StatusConflict 2 "Pipeline Run Concurrency Forbidden"
    [Sprintf "pipeline %s has %d active run(s); concurrency policy 'forbid' rejects new triggers until they finish"
       [AStr (uuid_String pipelineID); AInt n]]).

Definition guardConcurrency (pipelineID : UUID) (policy : string) : M World (Result unit) :=
  if negb (String.eqb policy ConcurrencyForbid) then ret (Ok tt)
  else
    try* n := count_active pipelineID in
    if 1 <=? n then ret (Err (ErrConcurrencyForbidden pipelineID n)) else ret (Ok tt).

Definition shouldQueue (s : PipelineRunService) (pipelineID : UUID) : M World (Result bool) :=
  try* n := count_active pipelineID in
  ret (Ok (concurrencyLimit s <=? n)).

(** * Creating one run *)

Definition triggerSourceOf (req : TriggerRequest) : string :=
  let src := tq_TriggerSource req in
  if String.eqb src "cron" || String.eqb src "webhook" || String.eqb src "event"
  then src else "manual".

(** The phase a new run starts in. *)
Definition initial_phase (s : PipelineRunService) (pipelineID : UUID) (policy : string)
  : M World (Result PipelineRunPhase) :=
  if String.eqb policy ConcurrencyQueue then
    try* queued := shouldQueue s pipelineID in
    ret (Ok (if queued then PipelineRunPendingQueue else PipelineRunPending))
  else ret (Ok PipelineRunPending).

(** [ResolveComponentOrg], [None] when unwired or failed. *)
Definition resolve_meta (s : PipelineRunService) (pipelineID : UUID)
  : M World (option (UUID * UUID)) :=
  match componentMeta s with
  | None => ret None
  | Some resolve =>
      let* r := resolve pipelineID in
      ret (match r with Ok (cid, oid) => Some (cid, oid) | Err _ => None end)
  end.

Definition resolve_environment (s : PipelineRunService) (meta : option (UUID * UUID))
    (targetID : UUID) (ns : string) : M World (option UUID) :=
  match meta, environmentMeta s with
  | Some (componentID, _), Some resolve => resolve componentID targetID ns
  | _, _ => ret None
  end.

Definition seed_task (run : PipelineRun) (t : PipelineTaskSpec) : TaskRun :=
  mkTaskRun uuid_Nil (run_ID run) None "" (ts_Name t) (ts_Stage t) (ts_Type t) TaskRunPending 0
    None None None "" "" time_Zero time_Zero.

Definition seed_tasks (run : PipelineRun) (tasks : list PipelineTaskSpec)
  : M World (Result unit) :=
  for_each_err tasks (fun t =>
    try* _ := stmt w_tasks (fun now => TaskRunRepository.Upsert now (seed_task run t)) in
    ret (Ok tt)).

(** The assignees of the effective policy: the environment override, else the
    component default. *)
Definition applyApprovalPolicy (s : PipelineRunService) (componentID : UUID)
    (environmentID : option UUID) (pa : PipelineApproval) : M World PipelineApproval :=
  if negb (approvalPolicyStore s) then ret pa
  else
    let component_default :=
      let* r := zoom w_policies (PipelineApprovalRepository.PolicyFor componentID uuid_Nil) in
      ret (match r with
           | Ok policy => pa <| appr_Assignee := pol_Assignees policy |>
           | Err _ => pa
           end) in
    match environmentID with
    | None => component_default
    | Some env =>
        let* r := zoom w_policies (PipelineApprovalRepository.PolicyFor componentID env) in
        match r with
        | Ok policy => ret (pa <| appr_Assignee := pol_Assignees policy |>)
        | Err _ => component_default
        end
    end.

Definition pending_approval (run : PipelineRun) (componentID orgID taskRunID : UUID)
  : PipelineApproval :=
  mkPipelineApproval uuid_Nil orgID (run_ID run) (Some taskRunID) componentID
    (run_PipelineID run) "Pending" (run_TriggeredBy run) "" "" "" time_Zero None.

Definition notify_approval (s : PipelineRunService) (run : PipelineRun) (taskName : string)
  : M World unit :=
  if empty_string (run_TriggeredBy run) then ret tt
  else call_opt (notifySink s) (fun sink =>
    let* now := time_Now in
    sink "approval_required" (run_TriggeredBy run)
      (Sprintf "[SDP] 待审批：%s / %s" [AStr (run_CRName run); AStr taskName])
      (Sprintf "任务 %q 等待审批。" [AStr taskName] +:+ newline +:+
       Sprintf "触发人: %s" [AStr (run_TriggeredBy run)] +:+ newline +:+
       Sprintf "时间: %s" [AStr (FormatRFC3339 now)])).

(** One approval row per Approval task, best-effort. *)
Definition seed_approval (s : PipelineRunService) (run : PipelineRun) (componentID orgID : UUID)
    (t : PipelineTaskSpec) : M World unit :=
  if negb (String.eqb (ts_Type t) TaskTypeApproval) then ret tt
  else
    let* r := zoom w_tasks (TaskRunRepository.GetByRunAndTaskName (run_ID run) (ts_Name t)) in
    match r with
    | Err _ => ret tt
    | Ok tr =>
        let* pa := applyApprovalPolicy s componentID (run_EnvironmentID run)
                     (pending_approval run componentID orgID (task_ID tr)) in
        let* c := stmt w_approvals (fun now => PipelineApprovalRepository.Create now pa) in
        match c with
        | Err _ => ret tt
        | Ok _ => notify_approval s run (ts_Name t)
        end
    end.

Definition seed_approvals (s : PipelineRunService) (run : PipelineRun)
    (meta : option (UUID * UUID)) (tasks : list PipelineTaskSpec) : M World unit :=
  match approvalRepo s, meta with
  | true, Some (componentID, orgID) => for_each tasks (seed_approval s run componentID orgID)
  | _, _ => ret tt
  end.

Definition new_run (pipelineID targetID : UUID) (crname ns : string) (params : RawJSON)
    (version : Z) (phase : PipelineRunPhase) (timeoutSeconds : Z) (req : TriggerRequest)
    (org env : option UUID) : PipelineRun :=
  mkPipelineRun uuid_Nil pipelineID targetID org env crname ns (tq_CommitSHA req) params version
    phase timeoutSeconds (tq_TriggeredBy req) (triggerSourceOf req) None None "" time_Zero
    time_Zero.

(** The run row a failed enqueue leaves behind. *)
Definition enqueue_failed (run : PipelineRun) (e : GoError) : PipelineRun :=
  run <| run_Phase := PipelineRunFailed |>
      <| run_Message := "failed to enqueue dispatch: " +:+ Error e |>.

Definition createRun (s : PipelineRunService) (pipelineID targetID : UUID) (spec : PipelineRunSpec)
    (ns : string) (paramsJSON : RawJSON) (version : Z) (req : TriggerRequest)
  : M World (Result PipelineRun) :=
  try* policy := concurrencyPolicyOf pipelineID in
  try* _ := guardConcurrency pipelineID policy in
  try* phase := initial_phase s pipelineID policy in
  let* id := uuid_new in
  let* meta := resolve_meta s pipelineID in
  let* env := resolve_environment s meta targetID ns in
  let row := new_run pipelineID targetID ("pr-" +:+ prefix8 (uuid_String id)) ns paramsJSON
               version phase (prs_TimeoutSeconds spec) req (snd <$> meta) env in
  try* run := stmt w_runs (fun now => PipelineRunRepository.Create now row) in
  try* _ := seed_tasks run (prs_Tasks spec) in
  seed_approvals s run meta (prs_Tasks spec) ;;;
  let* r := enqueueDispatch (run_ID run) targetID
              (mkApply (run_CRName run) (run_CRNamespace run) spec "") in
  match r with
  | Err e =>
      ignore (stmt w_runs (fun now =>
        PipelineRunRepository.Update now (enqueue_failed run e))) ;;;
      ret (Err e)
  | Ok _ => ret (Ok run)
  end.

(** * Trigger *)

Definition trigger_namespace (req : TriggerRequest) : string :=
  default_str "sdp-run" (tq_TargetNamespace req).

Definition triggerFanout (s : PipelineRunService) (pipelineID : UUID) (req : TriggerRequest)
  : M World (Result (list PipelineRun)) :=
  try* _ := for_each_err (tq_TargetIDs req) (fun tid =>
    let* r := zoom w_targets (TargetService.Get tid) in
    ret (match r with
         | Ok _ => Ok tt
         | Err e => Err (EWrap "target %s not found: %w" [AStr (uuid_String tid)] e)
         end)) in
  try* spec := buildSpec s pipelineID req in
  try* _ := enforceProductionApproval s spec (productionGuardTargets uuid_Nil (tq_TargetIDs req)) in
  try* p := zoom w_pipelines (PipelineRepository.GetByID pipelineID) in
  let* params := triggerParams s p (tq_Params req) in
  fold_err (tq_TargetIDs req) [] (fun runs tid =>
    try* run := createRun s pipelineID tid spec (trigger_namespace req) (Marshal params)
                  (pl_Version p) req in
    ret (Ok (runs ++ [run]))).

Definition check_change_window (s : PipelineRunService) : M World (Result unit) :=
  match changeWindowGuard s with
  | None => ret (Ok tt)
  | Some guard =>
      let* err := guard in
      ret (match err with Some e => Err e | None => Ok tt end)
  end.

Definition Trigger (s : PipelineRunService) (pipelineID : UUID) (req : TriggerRequest)
  : M World (Result (list PipelineRun)) :=
  try* _ := check_change_window s in
  if negb (empty_list (tq_TargetIDs req)) then triggerFanout s pipelineID req
  else
    try* targetID := selectTarget (tq_TargetID req) in
    try* spec := buildSpec s pipelineID req in
    try* _ := enforceProductionApproval s spec (productionGuardTargets targetID []) in
    try* p := zoom w_pipelines (PipelineRepository.GetByID pipelineID) in
    let* params := triggerParams s p (tq_Params req) in
    try* run := createRun s pipelineID targetID spec (trigger_namespace req) (Marshal params)
                  (pl_Version p) req in
    ret (Ok [run]).
End Trigger.
