(* ===== verification/RunControl.v ===== *)
(** Operating on a run ([internal/run/service/pipeline_run.go]: [ApplyStatus],
    [Approve], [ControlRollout], [RecordLogChunk], [GetLogs], [StreamLogTail],
    [Redispatch]; [run_control.go]: [CancelRun], [RerunTask];
    [pipeline_run_params.go]: [registerProducedArtifacts]). *)
From stdpp Require Import base list strings gmap.
From Stdlib Require Import ZArith Lia Ascii.
From S2P Require Import Prelude Common Gorm Json RunnerProto RunStore PipelineStore TargetStore.
From S2P Require Import World RunParams RunSpec RunDispatch RunTrigger.

Open Scope Z_scope.

Definition isTerminalPhase (p : PipelineRunPhase) : bool :=
  String.eqb p PipelineRunSucceeded || String.eqb p PipelineRunFailed ||
  String.eqb p PipelineRunCancelled.

Definition runPhaseWord (p : string) : string :=
  if String.eqb p "Succeeded" then "成功"
  else if String.eqb p "Failed" then "失败"
  else if String.eqb p "Cancelled" then "已取消"
  else p.

Section Control.
Context {G : Gorm} {P : Platform} {D : Dispatcher} {X : MetaV1}.

(** * Status reflux *)

Definition registerProducedArtifacts (s : PipelineRunService) (run : PipelineRun)
    (ts : TaskRunStatusSummary) : M World unit :=
  match artifactRegistry s with
  | None => ret tt
  | Some registerProduced =>
      if negb (String.eqb (tss_Phase ts) TaskRunSucceeded) then ret tt
      else
        let* tr := zoom w_tasks (TaskRunRepository.GetByRunAndTaskName (run_ID run) (tss_Name ts)) in
        match tr with
        | Err _ => ret tt
        | Ok tr =>
            let* keys := producesForTask (run_PipelineID run) (tss_Name ts) in
            match keys with
            | Err _ | Ok [] => ret tt
            | Ok keys =>
                let keys := substituteParamsSlice keys (paramsMap (decode_params (run_Params run))) in
                let* p := zoom w_pipelines (PipelineRepository.GetByID (run_PipelineID run)) in
                match p with
                | Err _ => ret tt
                | Ok p => registerProduced (pl_ComponentID p) (run_ID run) (task_ID tr)
                            (tss_Name ts) (version_of P run) keys
                end
            end
        end
  end.

(** The run row after a status update. *)
Definition merge_run_status (run : PipelineRun) (payload : StatusUpdatePayload) : PipelineRun :=
  run <| run_Phase := su_Phase payload |> <| run_Message := su_Message payload |>
    <| run_StartTime := TaskRunRepository.keep_time (su_StartTime payload) (run_StartTime run) |>
    <| run_CompletionTime :=
         TaskRunRepository.keep_time (su_CompletionTime payload) (run_CompletionTime run) |>.

Definition notify_finished (s : PipelineRunService) (run : PipelineRun) : M World unit :=
  if isTerminalPhase (run_Phase run) && negb (empty_string (run_TriggeredBy run)) then
    call_opt (notifySink s) (fun sink =>
      let evt := if String.eqb (run_Phase run) "Failed" || String.eqb (run_Phase run) "Cancelled"
                 then "run_failed" else "run_finished" in
      let* now := time_Now in
      sink evt (run_TriggeredBy run)
        (Sprintf "[SDP] 运行%s：%s（%s）"
           [AStr (runPhaseWord (run_Phase run)); AStr (run_CRName run); AStr evt])
        (Sprintf "运行 %s 终态 %s。" [AStr (run_CRName run); AStr (run_Phase run)] +:+ newline +:+
         Sprintf "触发人: %s" [AStr (run_TriggeredBy run)] +:+ newline +:+
         Sprintf "时间: %s" [AStr (FormatRFC3339 now)]))
  else ret tt.

(** The rollout snapshot of a task, best-effort. *)
Definition store_rollout (s : PipelineRunService) (run : PipelineRun) (ts : TaskRunStatusSummary)
  : M World unit :=
  match tss_Rollout ts with
  | Some ro =>
      if rolloutStore s then
        let* tr := zoom w_tasks (TaskRunRepository.GetByRunAndTaskName (run_ID run) (tss_Name ts)) in
        match tr with
        | Ok tr => ignore (stmt w_rollouts (fun now =>
            RolloutRunRepository.UpsertSnapshot now (FormatRFC3339 now) (task_ID tr) ro now))
        | Err _ => ret tt
        end
      else ret tt
  | None => ret tt
  end.

(** One entry of [payload.Tasks]. *)
Definition apply_task_status (s : PipelineRunService) (run : PipelineRun)
    (ts : TaskRunStatusSummary) : M World (Result unit) :=
  let* saved := stmt w_tasks (fun now => TaskRunRepository.SaveStatus now (run_ID run) ts) in
  match saved with
  | Some e => ret (Err e)
  | None =>
      registerProducedArtifacts s run ts ;;;
      store_rollout s run ts ;;;
      ret (Ok tt)
  end.

Definition ApplyStatus (s : PipelineRunService) (targetID : UUID) (payload : StatusUpdatePayload)
  : M World (Result unit) :=
  let* r := zoom w_runs (PipelineRunRepository.GetByCRNameTarget (su_PipelineRunName payload) targetID) in
  match r with
  | Err _ => ret (Ok tt)
  | Ok run =>
      try* run := stmt w_runs (fun now =>
        PipelineRunRepository.Update now (merge_run_status run payload)) in
      (if isTerminalPhase (run_Phase run)
       then call_opt (finishedHook s) (fun hook => hook (run_PipelineID run) (run_Phase run))
       else ret tt) ;;;
      notify_finished s run ;;;
      for_each_err (su_Tasks payload) (apply_task_status s run)
  end.

(** * Commands relayed to the Runner *)

(** The reply of a relay: an offline target is wrapped with [format]. *)
Definition relay (target : UUID) (m : HubMessage) (format : string) : M World (Result unit) :=
  let* r := send target m in
  ret (match r with
       | None => Ok tt
       | Some err => if errors_Is err ErrNoRunner then Err (EWrap format [] err) else Err err
       end).

Definition get_run (runID : UUID) : M World (Result PipelineRun) :=
  let* r := zoom w_runs (PipelineRunRepository.GetByID runID) in
  ret (match r with
       | Ok run => Ok run
       | Err e => Err (EWrap "run %s not found: %w" [AStr (uuid_String runID)] e)
       end).

Definition get_task (runID : UUID) (taskName : string) : M World (Result TaskRun) :=
  let* r := zoom w_tasks (TaskRunRepository.GetByRunAndTaskName runID taskName) in
  ret (match r with
       | Ok tr => Ok tr
       | Err e => Err (EWrap "task %q is not part of run %s: %w"
                         [AStr taskName; AStr (uuid_String runID)] e)
       end).

Definition decided (pa : PipelineApproval) (approved : bool) (approver : string) (now : Time)
  : PipelineApproval :=
  pa <| appr_Status := if approved then "Approved" else "Rejected" |>
     <| appr_Approver := approver |> <| appr_DecidedAt := Some now |>.

(** The hub-side approval row: Pending-only, no self-review; a missing row
    falls back to brokering only. *)
Definition record_decision (s : PipelineRunService) (runID : UUID) (tr : TaskRun)
    (taskName : string) (approved : bool) (approver : string) : M World (Result unit) :=
  if negb (approvalRepo s) then ret (Ok tt)
  else
    let* r := zoom w_approvals (PipelineApprovalRepository.GetByRunAndTask runID (task_ID tr)) in
    match r with
    | Err _ => ret (Ok tt)
    | Ok pa =>
        if negb (String.eqb (appr_Status pa) "Pending") then
          ret (Err (EFmt "approval for task %q already decided (status=%s)"
                      [AStr taskName; AStr (appr_Status pa)]))
        else if negb (empty_string (appr_RequestedBy pa)) &&
                String.eqb (appr_RequestedBy pa) approver then
          ret (Err (EFmt "self-review prevented: requester %s cannot approve their own pipeline run"
                      [AStr approver]))
        else
          let* u := stmt w_approvals (fun now =>
            PipelineApprovalRepository.Update now (decided pa approved approver now)) in
          ret (match u with
               | Ok _ => Ok tt
               | Err e => Err (EWrap "failed to record approval decision: %w" [] e)
               end)
    end.

Definition Approve (s : PipelineRunService) (pipelineID runID : UUID) (taskName : string)
    (approved : bool) (approver : string) : M World (Result unit) :=
  try* run := get_run runID in
  if negb (run_PipelineID run =? pipelineID) then
    ret (Err (EFmt "run %s does not belong to pipeline %s"
                [AStr (uuid_String runID); AStr (uuid_String pipelineID)]))
  else
    try* tr := get_task runID taskName in
    if negb (String.eqb (task_Type tr) TaskTypeApproval) then
      ret (Err (EFmt "task %q is not an approval task (type=%s)" [AStr taskName; AStr (task_Type tr)]))
    else if String.eqb (task_Phase tr) TaskRunSucceeded || String.eqb (task_Phase tr) TaskRunFailed then
      ret (Err (EFmt "task %q has already been decided (phase=%s)"
                  [AStr taskName; AStr (task_Phase tr)]))
    else if empty_string approver then ret (Err (EFmt "approver identity is required" []))
    else
      try* _ := record_decision s runID tr taskName approved approver in
      relay (run_TargetID run)
        (MessageApproveTask (mkApprove (run_CRName run) taskName approver (negb approved)))
        "target for this run is offline, cannot deliver approval decision: %w".

Definition ControlRollout (runID : UUID) (taskName : string) (action : RolloutAction)
    (operator : string) : M World (Result unit) :=
  if negb (String.eqb action RolloutActionPause || String.eqb action RolloutActionPromote ||
           String.eqb action RolloutActionRollback) then
    ret (Err (EFmt "unknown rollout action %q (want pause|promote|rollback)" [AStr action]))
  else
    try* run := get_run runID in
    try* tr := get_task runID taskName in
    if negb (String.eqb (task_Type tr) TaskTypeRelease) then
      ret (Err (EFmt "task %q is not a release task (type=%s)" [AStr taskName; AStr (task_Type tr)]))
    else
      relay (run_TargetID run)
        (MessageRolloutControl (mkRolloutControl (run_CRName run) taskName action operator))
        "target for this run is offline, cannot deliver rollout control: %w".

Definition ErrRunTerminal : GoError :=
  EApi (DomainErrorWithReasons KindRun StatusConflict 1 "Run has already finished"
    ["only a Pending / PendingQueue / Running / WaitingApproval run can be cancelled"]).

Definition cancelled_queued (run : PipelineRun) (now : Time) : PipelineRun :=
  run <| run_Phase := PipelineRunCancelled |> <| run_CompletionTime := Some now |>
      <| run_Message := "cancelled while queued" |>.

(** The held job is looked up by the run's id, which is not a job id. *)
Definition CancelRun (runID : UUID) (operator : string) : M World (Result unit) :=
  try* run := get_run runID in
  if String.eqb (run_Phase run) PipelineRunPendingQueue then
    try* run := stmt w_runs (fun now =>
      PipelineRunRepository.Update now (cancelled_queued run now)) in
    ignore (stmt w_jobs (fun now =>
      DispatchJobRepository.MarkDead now (run_ID run) "cancelled while queued")) ;;;
    ret (Ok tt)
  else if negb (String.eqb (run_Phase run) PipelineRunPending ||
                String.eqb (run_Phase run) PipelineRunRunning ||
                String.eqb (run_Phase run) PipelineRunWaitingApproval) then
    ret (Err ErrRunTerminal)
  else
    relay (run_TargetID run)
      (MessageCancelPipelineRun (mkCancel (run_CRName run) (run_CRNamespace run) operator))
      "target for this run is offline, cannot deliver cancel: %w".

Definition RerunTask (runID : UUID) (taskName operator : string) : M World (Result unit) :=
  if empty_string taskName then ret (Err (EFmt "rerun needs a task name" []))
  else
    try* run := get_run runID in
    try* _ := get_task runID taskName in
    relay (run_TargetID run)
      (MessageRerunTask (mkRerun (run_CRName run) taskName operator))
      "target for this run is offline, cannot deliver rerun: %w".

(** * Redelivery *)

Definition Redispatch (runID : UUID) : M World (Result DispatchJob) :=
  try* run := zoom w_runs (PipelineRunRepository.GetByID runID) in
  let* r := zoom w_jobs (DispatchJobRepository.LatestByRun runID) in
  match r with
  | Err e =>
      ret (Err (if errors_Is e ErrRecordNotFound
                then EFmt "run %s has no dispatch record; re-trigger the pipeline instead"
                       [AStr (uuid_String runID)]
                else e))
  | Ok last =>
      if String.eqb (job_State last) DispatchJobDispatching ||
         String.eqb (job_State last) DispatchJobDispatched
      then ret (Ok last)
      else
        try* job := stmt w_jobs (fun now => DispatchJobRepository.Create now
          (new_job runID (job_TargetID last) (job_Payload last) DispatchJobPending)) in
        (if String.eqb (run_Phase run) PipelineRunFailed
         then ignore (stmt w_runs (fun now => PipelineRunRepository.Update now
                (run <| run_Phase := PipelineRunPending |>
                     <| run_Message := "redispatch requested" |>)))
         else ret tt) ;;;
        ignore (tryDeliver (job_ID job)) ;;;
        zoom w_jobs (DispatchJobRepository.GetByID (job_ID job))
  end.

(** * Logs and reads *)

Definition RecordLogChunk (targetID : UUID) (payload : LogChunkPayload) : M World (Result unit) :=
  let* r := zoom w_runs (PipelineRunRepository.GetByCRNameTarget (lc_PipelineRunName payload) targetID) in
  match r with
  | Err _ => ret (Ok tt)
  | Ok run =>
      try* _ := stmt w_logs (fun now => TaskRunLogRepository.Append now
        (mkTaskRunLog uuid_Nil (run_ID run)
           (default_str RunLevelLogBucket (lc_TaskName payload))
           (lc_Stream payload) (lc_Chunk payload) time_Zero)) in
      ret (Ok tt)
  end.

Definition GetLogs (runID : UUID) (taskName : string) (p : Pagination)
  : M World (Result (list TaskRunLog * Z)) :=
  try* _ := zoom w_runs (PipelineRunRepository.GetByID runID) in
  zoom w_logs (TaskRunLogRepository.ListByRunTask runID taskName p).

Definition StreamLogTail (runID : UUID) (since : Time) (limit : Z)
  : M World (Result (list TaskRunLog)) :=
  try* _ := zoom w_runs (PipelineRunRepository.GetByID runID) in
  zoom w_logs (TaskRunLogRepository.ListRunTail runID since limit).

Definition Get (runID : UUID) : M World (Result PipelineRun) :=
  zoom w_runs (PipelineRunRepository.GetByID runID).
Definition ListByPipeline (pipelineID : UUID) (p : Pagination)
  : M World (Result (list PipelineRun * Z)) :=
  zoom w_runs (PipelineRunRepository.FindByPipelineID pipelineID p).
Definition ListTasks (runID : UUID) : M World (Result (list TaskRun)) :=
  zoom w_tasks (TaskRunRepository.ListByPipelineRunID runID).

Definition Progress (runID : UUID) : M World (Result (PipelineRun * list TaskRun)) :=
  try* run := zoom w_runs (PipelineRunRepository.GetByID runID) in
  try* tasks := zoom w_tasks (TaskRunRepository.ListByPipelineRunID runID) in
  ret (Ok (run, tasks)).
End Control.
