(* ===== verification/RunSweeps.v ===== *)
(** Housekeeping and views of the run service: run-level timeouts
    ([run_background.go]), the promotion of queued runs ([run_concurrency.go]),
    approval timeouts ([approval_timeout.go]), the approval center and its
    policies ([approval_center.go]), the stage progress view
    ([pipeline_run.go]) and the release view ([release.go]).

    The background loops tick these sweeps; one sweep is one call here. *)
From stdpp Require Import base list strings gmap sorting.
From Stdlib Require Import ZArith Lia Ascii.
From S2P Require Import Prelude Common Gorm Json RunnerProto RunStore PipelineStore TargetStore.
From S2P Require Import World RunParams RunSpec RunDispatch RunTrigger RunControl.

Open Scope Z_scope.

Definition AutoTimeoutApprover : string := "system:approval-timeout".
Definition DefaultPendingApprovalScan : Z := 500.

(** [createdAt.Add(time.Duration(timeoutSeconds) * time.Second)]; the product
    wraps at 64 bits. *)
Definition ApprovalExpired (createdAt : Time) (timeoutSeconds : Z) (now : Time) : bool :=
  if timeoutSeconds <=? 0 then false
  else createdAt + wrap64 (timeoutSeconds * Second) <? now.

Section Sweeps.
Context {G : Gorm} {P : Platform} {D : Dispatcher} {X : MetaV1}.

(** * Run timeouts *)

Definition timed_out_run (run : PipelineRun) (now : Time) : PipelineRun :=
  run <| run_Phase := PipelineRunFailed |> <| run_CompletionTime := Some now |>
      <| run_Message := "PipelineRunTimeout" |>.

Definition notify_timeout (s : PipelineRunService) (run : PipelineRun) (now : Time)
  : M World unit :=
  if empty_string (run_TriggeredBy run) then ret tt
  else call_opt (notifySink s) (fun sink =>
    sink "run_failed" (run_TriggeredBy run)
      (Sprintf "[SDP] 运行超时失败：%s" [AStr (run_CRName run)])
      (Sprintf "运行 %s 超过运行级超时阈值，已被自动终止。" [AStr (run_CRName run)] +:+ newline +:+
       Sprintf "时间: %s" [AStr (FormatRFC3339 now)])).

Definition timeout_one (s : PipelineRunService) (now : Time) (n : Z) (run : PipelineRun)
  : M World (Result Z) :=
  let* u := stmt w_runs (fun t => PipelineRunRepository.Update t (timed_out_run run now)) in
  match u with
  | Err _ => ret (Ok n)
  | Ok run =>
      call_opt (finishedHook s) (fun hook => hook (run_PipelineID run) PipelineRunFailed) ;;;
      notify_timeout s run now ;;;
      ret (Ok (n + 1))
  end.

Definition SweepRunTimeouts (s : PipelineRunService) (now : Time) : M World (Result Z) :=
  try* runs := zoom w_runs (PipelineRunRepository.FindTimedOut now) in
  fold_err runs 0 (timeout_one s now).

(** * Promotion of queued runs *)

(** The inner loop: [capacity] only shrinks after a full promotion. *)
Fixpoint promote (runs : list PipelineRun) (capacity : Z) : M World unit :=
  match runs with
  | [] => ret tt
  | run :: runs' =>
      if capacity <=? 0 then ret tt
      else
        let* u := stmt w_runs (fun now =>
          PipelineRunRepository.Update now (run <| run_Phase := PipelineRunPending |>)) in
        match u with
        | Err _ => promote runs' capacity
        | Ok run =>
            let* h := stmt w_jobs (fun now => DispatchJobRepository.ReleaseHeld now (run_ID run)) in
            match h with
            | Err _ => promote runs' capacity
            | Ok _ => promote runs' (capacity - 1)
            end
        end
  end.

(** [byPipeline[pid]] *)
Definition of_pipeline (pid : UUID) (runs : list PipelineRun) : list PipelineRun :=
  filter (fun r => run_PipelineID r = pid) runs.

Definition sweep_pipeline (s : PipelineRunService) (queued : list PipelineRun) (pid : UUID)
  : M World unit :=
  let* n := zoom w_runs (PipelineRunRepository.CountActiveByPipeline pid activeRunPhases) in
  match n with
  | Err _ => ret tt
  | Ok n => promote (of_pipeline pid queued) (concurrencyLimit s - n)
  end.

(** The pipelines are visited in the order [range] gives the map's keys. *)
Definition SweepQueued (s : PipelineRunService) : M World (Result unit) :=
  try* queued := zoom w_runs (PipelineRunRepository.FindQueued 1000) in
  for_each (map_range (remove_dups (run_PipelineID <$> queued))) (sweep_pipeline s queued) ;;;
  ret (Ok tt).

(** * Approval timeouts *)

(** The name of the task row an approval points at and the timeout its
    template declares; an empty name when the row is gone. *)
Definition approvalTimeoutFor (run : PipelineRun) (taskRunID : UUID)
  : M World (Result (string * Z)) :=
  try* tasks := zoom w_tasks (TaskRunRepository.ListByPipelineRunID (run_ID run)) in
  let taskName := match find (fun tr => task_ID tr =? taskRunID) tasks with
                  | Some tr => task_TaskName tr | None => "" end in
  if empty_string taskName then ret (Ok ("", 0))
  else
    try* stages := zoom w_stages (StageRepository.ListByPipelineID (run_PipelineID run)) in
    try* tpl := find_template stages taskName in
    match tpl with
    | None => ret (Ok (taskName, 0))
    | Some tpl =>
        if raw_len0 (tpl_ApprovalConfig tpl) then ret (Ok (taskName, 0))
        else match UnmarshalE (A := ApprovalConfig) (tpl_ApprovalConfig tpl) with
             | Err e => ret (Err e)
             | Ok ac => ret (Ok (taskName, ac_TimeoutSeconds ac))
             end
    end.

Definition timed_out_approval (pa : PipelineApproval) (now : Time) : PipelineApproval :=
  pa <| appr_Status := "Cancelled" |> <| appr_Approver := AutoTimeoutApprover |>
     <| appr_DecidedAt := Some now |>
     <| appr_DecisionComment := "auto-closed: approval timed out without a decision" |>.

Definition close_one (now : Time) (closed : Z) (pa : PipelineApproval) : M World (Result Z) :=
  match appr_TaskRunID pa with
  | None => ret (Ok closed)
  | Some taskRunID =>
      let* r := zoom w_runs (PipelineRunRepository.GetByID (appr_RunID pa)) in
      match r with
      | Err _ => ret (Ok closed)
      | Ok run =>
          let* t := approvalTimeoutFor run taskRunID in
          match t with
          | Err _ => ret (Ok closed)
          | Ok (taskName, timeoutSeconds) =>
              if empty_string taskName ||
                 negb (ApprovalExpired (appr_CreatedAt pa) timeoutSeconds now)
              then ret (Ok closed)
              else
                let* sent := send (run_TargetID run)
                  (MessageApproveTask (mkApprove (run_CRName run) taskName AutoTimeoutApprover true)) in
                match sent with
                | Some _ => ret (Ok closed)
                | None =>
                    let* u := stmt w_approvals (fun t =>
                      PipelineApprovalRepository.Update t (timed_out_approval pa now)) in
                    ret (Ok (match u with Ok _ => closed + 1 | Err _ => closed end))
                end
          end
      end
  end.

Definition SweepApprovalTimeouts (s : PipelineRunService) (now : Time) : M World (Result Z) :=
  if negb (approvalRepo s) then ret (Ok 0)
  else
    try* pending := zoom w_approvals (PipelineApprovalRepository.ListPending DefaultPendingApprovalScan) in
    fold_err pending 0 (close_one now).

(** * Approval center *)

Definition ApprovalCenter (view subject : string) (limit : Z)
  : M World (Result (list PipelineApproval)) :=
  if negb (String.eqb view "pending" || String.eqb view "initiated" || String.eqb view "decided")
  then ret (Err (EFmt "view 须为 pending / initiated / decided" []))
  else if empty_string subject then ret (Err (EFmt "审批中心须携带主体（登录态）" []))
  else
    let limit := if (limit <=? 0) || (200 <? limit) then 50 else limit in
    zoom w_approvals (PipelineApprovalRepository.ListCenter view subject limit).

Definition GetApprovalPolicies (s : PipelineRunService) (componentID : UUID)
  : M World (Result (list ApprovalPolicy)) :=
  if negb (approvalPolicyStore s) then ret (Ok [])
  else zoom w_policies (PipelineApprovalRepository.ListPolicies componentID).

(** [assignees] is the column's text read as JSON by the caller's document
    reader; the text itself is what is stored. *)
Definition UpsertApprovalPolicy (s : PipelineRunService) (parse : string -> RawJSON)
    (p : ApprovalPolicy) (subject : string) : M World (Result ApprovalPolicy) :=
  if negb (approvalPolicyStore s) then ret (Err (EFmt "审批策略存储未装配" []))
  else if negb (ValidApprovalMode (pol_Mode p)) then ret (Err (EFmt "mode 须为 any / all / n" []))
  else if String.eqb (pol_Mode p) "n" && (pol_MinApprovals p <? 1) then
    ret (Err (EFmt "mode=n 时 minApprovals 须 ≥ 1" []))
  else
    let assignees : Result string :=
      if empty_string (pol_Assignees p) then Ok (pol_Assignees p)
      else match UnmarshalE (A := list string) (parse (pol_Assignees p)) with
           | Err _ => Err (EFmt "assignees 须为字符串数组 JSON" [])
           | Ok [] => Ok ""
           | Ok _ => Ok (pol_Assignees p)
           end in
    match assignees with
    | Err e => ret (Err e)
    | Ok assignees =>
        stmt w_policies (fun now => PipelineApprovalRepository.UpsertPolicy now
          (p <| pol_Assignees := assignees |> <| pol_CreatedBy := subject |>))
    end.
End Sweeps.

(** * Stage progress *)

Record StageProgressRow := mkStageProgressRow {
  spr_Name : string; spr_Sequence : Z; spr_ExecutionMode : string; spr_Status : string;
  spr_Done : Z; spr_Total : Z }.

Record tally := mkTally { t_done : Z; t_failed : Z; t_running : Z; t_total : Z }.

Definition tally_task (phase : TaskRunPhase) (c : tally) : tally :=
  let settled := String.eqb phase TaskRunSucceeded || String.eqb phase TaskRunFailed ||
                 String.eqb phase TaskRunSkipped in
  {| t_done := if settled then t_done c + 1 else t_done c;
     t_failed := if String.eqb phase TaskRunFailed then t_failed c + 1 else t_failed c;
     t_running := if String.eqb phase TaskRunRunning then t_running c + 1 else t_running c;
     t_total := t_total c + 1 |}.

(** The counting loop: tallies per stage name and the order of appearance. *)
Definition count_tasks (tasks : list TaskRun) : gmap string tally * list string :=
  foldl (fun acc t =>
    let '(counts, order) := acc in
    match counts !! task_StageName t with
    | Some c => (<[task_StageName t := tally_task (task_Phase t) c]> counts, order)
    | None => (<[task_StageName t := tally_task (task_Phase t) (mkTally 0 0 0 0)]> counts,
               order ++ [task_StageName t])
    end) (∅, []) tasks.

Definition derive (c : option tally) : string :=
  match c with
  | None => "pending"
  | Some c =>
      if t_total c =? 0 then "pending"
      else if 0 <? t_failed c then "failed"
      else if t_done c =? t_total c then "succeeded"
      else if (0 <? t_done c) || (0 <? t_running c) then "running"
      else "pending"
  end.

Definition stage_row (counts : gmap string tally) (st : PipelineStage) : StageProgressRow :=
  let c := counts !! st_Name st in
  mkStageProgressRow (st_Name st) (st_Sequence st) (st_ExecutionMode st) (derive c)
    (match c with Some c => t_done c | None => 0 end)
    (match c with Some c => t_total c | None => 0 end).

(** A snapshot name the definition no longer has. *)
Definition drift_row (counts : gmap string tally) (name : string) : StageProgressRow :=
  let c := counts !! name in
  mkStageProgressRow name 0 "" (derive c)
    (match c with Some c => t_done c | None => 0 end)
    (match c with Some c => t_total c | None => 0 end).

Definition progress_rows (stages : list PipelineStage) (tasks : list TaskRun)
  : list StageProgressRow :=
  let '(counts, order) := count_tasks tasks in
  let seen := st_Name <$> stages in
  (stage_row counts <$> stages) ++
  (drift_row counts <$> filter (fun name => name ∉ seen) order).

(** * Releases *)

(** The console's filter keys. *)
Definition mapReleaseState (state : string) : Result string :=
  if String.eqb state "" || String.eqb state "all" then Ok ""
  else if String.eqb state "running" then Ok RolloutProgressing
  else if String.eqb state "paused" then Ok RolloutPaused
  else if String.eqb state "succeeded" then Ok RolloutHealthy
  else Err (EFmt "invalid release state %q: want one of all|running|paused|succeeded" [AStr state]).

Section Views.
Context {G : Gorm} {P : Platform} {D : Dispatcher}.

Definition StageProgress (runID : UUID) : M World (Result (PipelineRun * list StageProgressRow)) :=
  try* run := zoom w_runs (PipelineRunRepository.GetByID runID) in
  try* tasks := zoom w_tasks (TaskRunRepository.ListByPipelineRunID runID) in
  try* stages := zoom w_stages (StageRepository.ListByPipelineID (run_PipelineID run)) in
  ret (Ok (run, progress_rows stages tasks)).

Definition ReleaseService_List (p : Pagination) (pipelineRunID : option UUID) (state : string)
  : M World (Result (list RolloutRun * Z)) :=
  match mapReleaseState state with
  | Err e => ret (Err e)
  | Ok phase =>
      let* w := get in
      zoom w_rollouts (RolloutRunRepository.List (rows (w_tasks w)) p pipelineRunID phase)
  end.

Definition ReleaseService_Update (id : UUID) (m : RolloutRun) : M World (Result RolloutRun) :=
  try* existing := zoom w_rollouts (RolloutRunRepository.GetByID id) in
  stmt w_rollouts (fun now => RolloutRunRepository.Update now (m <| rr_ID := rr_ID existing |>)).
End Views.
