(* ===== verification/Frames.v ===== *)
(** What a handler leaves alone, and what it does to a row.

    [Preserves R m] says that [m] relates every state to the one it leaves by
    [R].  For a preorder [R] that contains [same] the property follows the text
    of a handler: reads are free, a statement on a field that [R] ignores is
    free, and only the statements on the fields [R] looks at need an argument.
    The tactic [frame] does the walk.

    The last part reasons about single rows. *)
From stdpp Require Import base list strings gmap sorting.
From Stdlib Require Import ZArith Lia.
From S2P Require Import Prelude Common Gorm Json RunnerProto RunStore PipelineStore TargetStore World.
From S2P Require Import WorldLogic RunDispatch.

Open Scope Z_scope.

Section Frames.
Context {G : Gorm} {GL : GormLaws G} {P : Platform} {D : Dispatcher}.

(** A preorder on states that reading respects. *)
Class Frame (R : World -> World -> Prop) : Prop := {
  frame_pre :: PreOrder R;
  frame_same : forall w w', same w w' -> R w w';
}.

(** Writing the field [proj] is invisible to [R]. *)
Class Ignores (R : World -> World -> Prop) {T} (proj : World -> T) {S : Setter proj} : Prop :=
  ignores : forall w t, R w (set_field proj (fun _ => t) w).

Definition Preserves {A} (R : World -> World -> Prop) (m : M World A) : Prop :=
  forall w, R w (m w).2.

Context {R : World -> World -> Prop} {F : Frame R}.

Lemma pr_ret {A} (a : A) : Preserves R (ret a).
Proof. intros w. reflexivity. Qed.
Lemma pr_quiet {A} (m : M World A) : Quiet m -> Preserves R m.
Proof. intros H w. apply frame_same, H. Qed.
Lemma pr_bind {A B} (m : M World A) (k : A -> M World B) :
  Preserves R m -> (forall a, Preserves R (k a)) -> Preserves R (bind m k).
Proof.
  intros Hm Hk w. unfold bind. specialize (Hm w). destruct (m w) as [a w']. simpl in Hm.
  etransitivity; [exact Hm|apply Hk].
Qed.
Lemma pr_try {E A B} (m : M World (Res E A)) (k : A -> M World (Res E B)) :
  Preserves R m -> (forall a, Preserves R (k a)) -> Preserves R (try_bind m k).
Proof. intros Hm Hk. apply pr_bind; [done|]. intros [a|e]; [apply Hk|apply pr_ret]. Qed.
Lemma pr_for_each {A} (l : list A) (body : A -> M World unit) :
  (forall a, Preserves R (body a)) -> Preserves R (for_each l body).
Proof. intros Hb. induction l as [|a l IH]; [apply pr_ret|]. apply pr_bind; auto. Qed.
Lemma pr_for_each_err {E A} (l : list A) (body : A -> M World (Res E unit)) :
  (forall a, Preserves R (body a)) -> Preserves R (for_each_err l body).
Proof. intros Hb. induction l as [|a l IH]; [apply pr_ret|]. apply pr_try; auto. Qed.
Lemma pr_fold {E A B} (l : list A) (body : B -> A -> M World (Res E B)) acc :
  (forall b a, Preserves R (body b a)) -> Preserves R (fold_err l acc body).
Proof.
  intros Hb. revert acc. induction l as [|a l IH]; intros acc; [apply pr_ret|]. apply pr_try; auto.
Qed.
Lemma pr_ignore {A} (m : M World A) : Preserves R m -> Preserves R (ignore m).
Proof. intros Hm. apply pr_bind; [done|]. intros. apply pr_ret. Qed.
Lemma pr_call_opt {A} (f : option A) (k : A -> M World unit) :
  (forall g, f = Some g -> Preserves R (k g)) -> Preserves R (call_opt f k).
Proof. intros Hk. destruct f as [g|]; [by apply Hk|apply pr_ret]. Qed.

Lemma pr_zoom {T A} (proj : World -> T) {S : Setter proj} {I : Ignores R proj} (m : M T A) :
  Preserves R (zoom proj m).
Proof. intros w. unfold zoom. destruct (m (proj w)) as [a t]. apply ignores. Qed.
Lemma pr_stmt {T A} (proj : World -> T) {S : Setter proj} {I : Ignores R proj} (m : Time -> M T A) :
  Preserves R (stmt proj m).
Proof. apply pr_bind; [apply pr_quiet, quiet_now|]. intros now. by apply (pr_zoom proj). Qed.

Lemma wp_preserves {A} (m : M World A) (Q : A -> World -> Prop) w :
  Preserves R m -> (forall a w', R w w' -> Q a w') -> wp m Q w.
Proof. intros Hm HQ. apply HQ, Hm. Qed.
Lemma wp_framed {A} (m : M World A) (Q Q' : A -> World -> Prop) w :
  Preserves R m -> wp m Q w -> (forall a w', R w w' -> Q a w' -> Q' a w') -> wp m Q' w.
Proof. intros Hm HQ H. apply H; [apply Hm|exact HQ]. Qed.
End Frames.

(** ** Frames that watch some fields *)

Section Watch.
Context {G : Gorm} {GL : GormLaws G} {P : Platform} {D : Dispatcher}.

(** One table keeps its rows. *)
Definition keeps {T} (proj : World -> Table T) (w w' : World) : Prop :=
  tsame (proj w) (proj w') /\ w_now w' = w_now w.

Definition keeps_link (w w' : World) : Prop := w_link w' = w_link w.

Lemma keeps_frame {T} (proj : World -> Table T) :
  (forall w w', same w w' -> tsame (proj w) (proj w')) -> Frame (keeps proj).
Proof.
  intros H. split; [split|].
  - intros w. split; [apply tsame_refl|done].
  - intros w1 w2 w3 [? ?] [? ?]. split; [by eapply tsame_trans|congruence].
  - intros w w' Hs. split; [by apply H|by destruct Hs].
Qed.
#[global] Instance keeps_runs_frame : Frame (keeps w_runs).
Proof. apply keeps_frame. by intros w w' []. Qed.
#[global] Instance keeps_pipelines_frame : Frame (keeps w_pipelines).
Proof. apply keeps_frame. by intros w w' []. Qed.
#[global] Instance keeps_tasks_frame : Frame (keeps w_tasks).
Proof. apply keeps_frame. by intros w w' []. Qed.
#[global] Instance keeps_jobs_frame : Frame (keeps w_jobs).
Proof. apply keeps_frame. by intros w w' []. Qed.
#[global] Instance keeps_approvals_frame : Frame (keeps w_approvals).
Proof. apply keeps_frame. by intros w w' []. Qed.
#[global] Instance keeps_stages_frame : Frame (keeps w_stages).
Proof. apply keeps_frame. by intros w w' []. Qed.
#[global] Instance keeps_templates_frame : Frame (keeps w_templates).
Proof. apply keeps_frame. by intros w w' []. Qed.
#[global] Instance keeps_targets_frame : Frame (keeps w_targets).
Proof. apply keeps_frame. by intros w w' []. Qed.
#[global] Instance keeps_versions_frame : Frame (keeps w_versions).
Proof. apply keeps_frame. by intros w w' []. Qed.
#[global] Instance keeps_triggers_frame : Frame (keeps w_triggers).
Proof. apply keeps_frame. by intros w w' []. Qed.
#[global] Instance keeps_agent_ops_frame : Frame (keeps w_agent_ops).
Proof. apply keeps_frame. by intros w w' []. Qed.
#[global] Instance keeps_agent_op_logs_frame : Frame (keeps w_agent_op_logs).
Proof. apply keeps_frame. by intros w w' []. Qed.
#[global] Instance keeps_link_frame : Frame keeps_link.
Proof.
  split; [split|].
  - by intros w.
  - intros w1 w2 w3. unfold keeps_link. congruence.
  - by intros w w' [].
Qed.

Definition both (R1 R2 : World -> World -> Prop) (w w' : World) : Prop := R1 w w' /\ R2 w w'.
#[global] Instance both_frame R1 R2 : Frame R1 -> Frame R2 -> Frame (both R1 R2).
Proof.
  intros F1 F2. split; [split|].
  - intros w. by split.
  - intros w1 w2 w3 [? ?] [? ?]. split; by etransitivity.
  - intros w w' Hs. split; by apply frame_same.
Qed.
Lemma both_ignores R1 R2 {T} (proj : World -> T) {S : Setter proj} :
  Ignores R1 proj -> Ignores R2 proj -> Ignores (both R1 R2) proj.
Proof. intros H1 H2 w t. split; [apply H1|apply H2]. Qed.
End Watch.

#[export] Hint Extern 1 (Ignores (keeps _) _) =>
  (intros ? ?; split; [apply tsame_refl|reflexivity]) : typeclass_instances.
#[export] Hint Extern 1 (Ignores keeps_link _) => (intros ? ?; reflexivity) : typeclass_instances.

#[export] Hint Extern 1 (Ignores (both _ _) _) => (apply both_ignores) : typeclass_instances.

Create HintDb frames.
Ltac frame_step :=
  match goal with
  | |- Preserves _ (ret _) => apply pr_ret
  | |- Preserves _ (bind _ _) => apply pr_bind; [|intros ?]
  | |- Preserves _ (try_bind _ _) => apply pr_try; [|intros ?]
  | |- Preserves _ (for_each _ _) => apply pr_for_each; intros ?
  | |- Preserves _ (for_each_err _ _) => apply pr_for_each_err; intros ?
  | |- Preserves _ (fold_err _ _ _) => apply pr_fold; intros ? ?
  | |- Preserves _ (ignore _) => apply pr_ignore
  | |- Preserves _ (call_opt _ _) => apply pr_call_opt; intros ? ?
  | |- Preserves _ (stmt ?proj _) => first [apply (pr_stmt proj) | apply pr_quiet; by quiet]
  | |- Preserves _ (zoom ?proj _) => first [apply (pr_zoom proj) | apply pr_quiet; by quiet]
  | |- Preserves _ time_Now => apply pr_quiet, quiet_now
  | |- Preserves _ uuid_new => apply pr_quiet, quiet_uuid
  | |- Preserves _ rand_read => apply pr_quiet, quiet_rand
  | |- Preserves _ get => apply pr_quiet, quiet_get
  | |- Preserves _ (send _ _) => apply (pr_zoom w_link)
  | |- Preserves _ (let _ := _ in _) => cbv zeta
  | |- Preserves _ (match ?x with _ => _ end) => destruct x
  end.
Ltac frame := repeat first [frame_step | solve [auto with frames nocore]].

(** * Single rows

    A table with distinct keys, reading a row by its key, rewriting it. *)

(** An element is determined by a key that does not repeat. *)
Lemma key_unique {A K} (f : A -> K) (l : list A) x y :
  NoDup (f <$> l) -> x ∈ l -> y ∈ l -> f x = f y -> x = y.
Proof.
  intros Hnd (i & Hi)%list_elem_of_lookup (k & Hk)%list_elem_of_lookup E.
  assert (i = k); [|by simplify_eq]. eapply NoDup_lookup; [exact Hnd| |];
    rewrite list_lookup_fmap; [by rewrite Hi|by rewrite Hk; simpl; rewrite E].
Qed.

Lemma Forall2_impl_in {A B} (R1 R2 : A -> B -> Prop) l k :
  Forall2 R1 l k -> (forall x y, x ∈ l -> y ∈ k -> R1 x y -> R2 x y) -> Forall2 R2 l k.
Proof.
  induction 1 as [|x y l k Hxy _ IH]; intros Himp; constructor.
  - apply Himp; [left|left|done].
  - apply IH. intros x' y' Hx Hy. apply Himp; by right.
Qed.

Lemma Forall2_elem_r {A B} (R1 : A -> B -> Prop) l k y :
  Forall2 R1 l k -> y ∈ k -> exists x, x ∈ l /\ R1 x y.
Proof.
  intros HF (i & Hi)%list_elem_of_lookup. destruct (Forall2_lookup_r _ _ _ _ _ HF Hi) as (x & Hx & HR).
  exists x. split; [by eapply list_elem_of_lookup_2|done].
Qed.

Section Rows.
Context {R : Type} `{Model R} {ML : ModelLaws R}.

(** What the primary key and the unique indexes of a table guarantee. *)
Record sound_rows (l : list R) : Prop := mkSoundRows {
  sr_keys : NoDup (pk <$> l);
  sr_unique : forall x y, x ∈ l -> y ∈ l -> pk x <> pk y -> clash x y = false;
}.

Lemma sound_key l x y : sound_rows l -> x ∈ l -> y ∈ l -> pk x = pk y -> x = y.
Proof. intros [Hnd _]. by apply key_unique. Qed.

Lemma elem_of_save_rows now r (l : list R) x :
  x ∈ save_rows now r l <->
  (x = updated now r /\ pk r ∈ (pk <$> l)) \/ (x ∈ l /\ pk x <> pk r).
Proof.
  unfold save_rows. rewrite list_elem_of_fmap. split.
  - intros (y & -> & Hy). case_bool_decide as E.
    + left. split; [done|]. rewrite <- E. apply list_elem_of_fmap. by exists y.
    + by right.
  - intros [[-> (y & E & Hy)%list_elem_of_fmap]|[Hx Hne]].
    + exists y. by rewrite bool_decide_eq_true_2.
    + exists x. by rewrite bool_decide_eq_false_2.
Qed.

(** An UPDATE that leaves keys and unique columns alone keeps the table sound. *)
Lemma sound_update (f : R -> R) (l : list R) :
  (forall x, pk (f x) = pk x) -> (forall x y, clash (f x) (f y) = clash x y) ->
  sound_rows l -> sound_rows (f <$> l).
Proof.
  intros Hk Hc [Hnd Hu]. split.
  - rewrite <- list_fmap_compose. erewrite list_fmap_ext; [exact Hnd|]. intros i x _. apply Hk.
  - intros x y (x0 & -> & Hx)%list_elem_of_fmap (y0 & -> & Hy)%list_elem_of_fmap.
    rewrite !Hk, Hc. by apply Hu.
Qed.

(** Saving a row under its own key and unique columns keeps the table sound. *)
Lemma sound_save now x r (l : list R) :
  sound_rows l -> x ∈ l -> pk r = pk x ->
  (forall y, clash (updated now r) y = clash x y /\ clash y (updated now r) = clash y x) ->
  sound_rows (save_rows now r l).
Proof.
  intros Hs Hx Hid Hc. split; [rewrite pks_save_rows; apply Hs|].
  intros y z Hy Hz Hne. apply elem_of_save_rows in Hy, Hz.
  destruct Hy as [[-> _]|[Hy Hyn]], Hz as [[-> _]|[Hz Hzn]].
  - done.
  - rewrite (proj1 (Hc z)). apply (sr_unique _ Hs); congruence.
  - rewrite (proj2 (Hc y)). apply (sr_unique _ Hs); congruence.
  - by apply (sr_unique _ Hs).
Qed.

Lemma selected_app (p : R -> bool) (l1 l2 : list R) : selected p (l1 ++ l2) = selected p l1 ++ selected p l2.
Proof. apply filter_app. Qed.

Lemma selected_ext (p q : R -> bool) (l : list R) :
  (forall r, r ∈ l -> alive r = true -> p r = q r) -> selected p l = selected q l.
Proof.
  intros Hpq. unfold selected. induction l as [|r l IH]; [done|].
  rewrite !filter_cons, IH by (intros; apply Hpq; set_solver).
  specialize (Hpq r ltac:(set_solver)). destruct (alive r); simpl; [|done]. by rewrite Hpq.
Qed.

Lemma selected_none (p : R -> bool) (l : list R) :
  (forall r, r ∈ l -> alive r = true -> p r = false) -> selected p l = [].
Proof.
  intros Hp. unfold selected. induction l as [|r l IH]; [done|].
  rewrite filter_cons, IH by (intros; apply Hp; set_solver).
  specialize (Hp r ltac:(set_solver)). destruct (alive r); simpl; [|done]. by rewrite Hp.
Qed.

(** Soft deletion: the rows stay, dead. *)
Section SoftDelete.
Context (now : Time) (kill : R -> R).
Context (Hdel : forall r, deleted now r = Some (kill r)) (Hdead : forall r, alive (kill r) = false).

Lemma delete_rows_fmap (p : R -> bool) (l : list R) :
  delete_rows now p l = (fun r => if alive r && p r then kill r else r) <$> l.
Proof.
  unfold delete_rows. induction l as [|r l IH]; [done|]. rewrite fmap_cons, <- IH. simpl.
  destruct (alive r && p r); [by rewrite Hdel|done].
Qed.

Lemma selected_delete (p q : R -> bool) (l : list R) :
  selected q (delete_rows now p l) = selected (fun r => q r && negb (p r)) l.
Proof.
  rewrite delete_rows_fmap. unfold selected. induction l as [|r l IH]; [done|].
  rewrite fmap_cons, !filter_cons, IH. destruct (alive r) eqn:Ea; simpl.
  - destruct (p r) eqn:Ep; rewrite ?Hdead, ?Ea; simpl; rewrite ?andb_false_r, ?andb_true_r; done.
  - by rewrite Ea.
Qed.

Lemma fmap_delete {B} (g : R -> B) (p : R -> bool) (l : list R) :
  (forall r, g (kill r) = g r) -> g <$> delete_rows now p l = g <$> l.
Proof.
  intros Hg. rewrite delete_rows_fmap, <- list_fmap_compose. apply list_fmap_ext. intros i r _. simpl.
  by destruct (alive r && p r).
Qed.
End SoftDelete.
End Rows.

Section Tables.
Context {G : Gorm} {GL : GormLaws G} {R : Type} `{Model R} {ML : ModelLaws R}.

(** Reading the only row of a query from a healthy table. *)
Lemma wp_First_only q (t : Table R) x (Q : Result R -> Table R -> Prop) :
  healthy t -> x ∈ rows t -> alive x = true -> q_where q x = true ->
  (forall y, y ∈ rows t -> alive y = true -> q_where q y = true -> y = x) ->
  (forall t', tsame t t' -> Q (Ok x) t') -> wp (db_First q) Q t.
Proof.
  intros Hh Hin Ha Hq Hu HQ. apply wp_First.
  - intros r t' Ht Hra Hrq Hr. rewrite (Hu r Hr Hra Hrq). by apply HQ.
  - intros e t' _ He Hs _. exfalso. apply (not_elem_of_nil x). rewrite <- (Hs (He Hh)).
    by apply elem_of_selected.
Qed.

(** Rewriting a row of a sound, healthy table. *)
Lemma wp_Save_row now (t : Table R) x r (Q : Result R -> Table R -> Prop) :
  healthy t -> sound_rows (rows t) -> x ∈ rows t -> pk r = pk x ->
  (forall y, clash y r = clash y x) ->
  (forall t', healthy t' -> rows t' = save_rows now r (rows t) -> Q (Ok (updated now r)) t') ->
  wp (db_Save now r) Q t.
Proof.
  intros Hh Hs Hin Hk Hc HQ. apply wp_Save_known.
  - rewrite Hk. apply list_elem_of_fmap. by exists x.
  - intros t' Hh' Hr. apply HQ; [by apply Hh'|done].
  - intros e t' _ [Hn|Hcl]; [done|]. exfalso. apply Exists_exists in Hcl as (y & Hy & Hne & Hcl).
    rewrite Hk in Hne. rewrite Hc, (sr_unique _ Hs y x) in Hcl; done.
Qed.
End Tables.

Section Reads.
Context {G : Gorm} {GL : GormLaws G} {P : Platform} {D : Dispatcher}.

(** [GetByID] finds the row of this id. *)
Lemma wp_run_by_id run w Q :
  healthy (w_runs w) -> sound_rows (rows (w_runs w)) -> run ∈ rows (w_runs w) ->
  (forall w', same w w' -> Q (Ok run) w') ->
  wp (zoom w_runs (PipelineRunRepository.GetByID (run_ID run))) Q w.
Proof.
  intros Hh Hs Hin HQ. apply (wp_zoom w_runs), (wp_First_only _ _ run); try done.
  - apply Z.eqb_refl.
  - intros y Hy _ Hid%Z.eqb_eq. by apply (sound_key _ _ _ Hs).
  - intros t Ht. apply HQ. by apply field_same.
Qed.
End Reads.
