(* ===== verification/Gateway.v ===== *)
(** The Hub side of the Runner connections ([internal/gateway/gateway.go]):
    authentication of a dial, the connection registry, the frames sent down
    and the routing of the frames coming up.

    The WebSocket library is a parameter: writing a frame to a connection
    either hands it over or fails.  [gateway_dispatcher] is the [Dispatcher]
    the run service works against. *)
From stdpp Require Import base list strings gmap.
From Stdlib Require Import ZArith Lia.
From S2P Require Import Prelude Common Gorm Json RunnerProto RunStore PipelineStore TargetStore.
From S2P Require Import World WorldLogic.

Open Scope Z_scope.

(** * The WebSocket library *)

(** A connection, identified by its pointer. *)
Definition Conn := Z.

Class WebSocket : Type := {
  Wire : Type;
  ws_sent : Wire -> list (Conn * Frame);
  ws_WriteJSON : Conn -> Frame -> Wire -> option GoError * Wire;
}.
Class WebSocketLaws (S : WebSocket) : Prop := {
  write_ok : forall c f w w', ws_WriteJSON c f w = (None, w') -> ws_sent w' = ws_sent w ++ [(c, f)];
  write_err : forall c f w e w', ws_WriteJSON c f w = (Some e, w') -> ws_sent w' = ws_sent w;
}.

(** * The server's state *)

Section Server.
Context {X : MetaV1} {S : WebSocket}.

(** [targetNames] and the Prometheus gauge move together; [h_delivered] is the
    history of successful sends, a proof-only field the code does not have. *)
Record HubServer := mkHubServer {
  gatewayToken : string;
  conns : gmap UUID Conn;
  targetNames : gmap UUID string;
  gauge : gmap string bool;
  h_wire : Wire;
  h_delivered : list (UUID * HubMessage);
}.
#[global] Instance HubServer_eta : Eta HubServer := fun h =>
  mkHubServer (gatewayToken h) (conns h) (targetNames h) (gauge h) (h_wire h) (h_delivered h).

(** The body shared by [Dispatch], [Approve], [RolloutControl], [RerunTask],
    [CancelPipelineRun] and [DispatchAgentOp]. *)
Definition send_to (targetID : UUID) (m : HubMessage) : M HubServer (option GoError) := fun h =>
  match conns h !! targetID with
  | None => (Some ErrNoRunner, h)
  | Some ws =>
      let '(r, wire) := ws_WriteJSON ws (frame_of m) (h_wire h) in
      let h := h <| h_wire := wire |> in
      match r with
      | Some e => (Some e, h)
      | None => (None, h <| h_delivered := h_delivered h ++ [(targetID, m)] |>)
      end
  end.

Definition Dispatch (t : UUID) (p : ApplyPipelineRunPayload) := send_to t (MessageApplyPipelineRun p).
Definition Approve (t : UUID) (p : ApproveTaskPayload) := send_to t (MessageApproveTask p).
Definition RolloutControl (t : UUID) (p : RolloutControlPayload) := send_to t (MessageRolloutControl p).
Definition RerunTask (t : UUID) (p : RerunTaskPayload) := send_to t (MessageRerunTask p).
Definition CancelPipelineRun (t : UUID) (p : CancelPipelineRunPayload) :=
  send_to t (MessageCancelPipelineRun p).
Definition DispatchAgentOp (t : UUID) (p : AgentOpDispatchPayload) := send_to t (MessageAgentOp p).

Definition register (targetID : UUID) (ws : Conn) (h : HubServer) : HubServer :=
  h <| conns := <[targetID := ws]> (conns h) |>.

Definition setGauge (targetName : string) (targetID : UUID) (online : bool) (h : HubServer)
  : HubServer :=
  h <| targetNames := if online then <[targetID := targetName]> (targetNames h)
                      else delete targetID (targetNames h) |>
    <| gauge := <[targetName := online]> (gauge h) |>.

(** Whether the connection is still the registered one. *)
Definition owned (targetID : UUID) (ws : Conn) (h : HubServer) : bool :=
  bool_decide (conns h !! targetID = Some ws).

(** The registry half of [unregister]. *)
Definition drop_conn (targetID : UUID) (ws : Conn) (h : HubServer) : HubServer :=
  if owned targetID ws h then h <| conns := delete targetID (conns h) |> else h.

Definition gateway_dispatcher : Dispatcher := {|
  Link := HubServer;
  delivered := h_delivered;
  connected := fun t h => bool_decide (is_Some (conns h !! t));
  d_send := send_to;
|}.
End Server.

(** [extractBearer]. *)
Definition extractBearer (header : string) : string :=
  if String.prefix "Bearer " header then String.substring 7 (String.length header - 7) header
  else header.

(** * Authentication of a dial *)

(** What a dial presents. *)
Record Dial := mkDial {
  dial_Authorization : string; dial_Name : string; dial_Vendor : string; dial_Region : string }.

Inductive AuthResult : Type :=
| Refused (status : Z) (error : string)
| Accepted (tg : Target) (issued : option string).

Section Auth.
Context {G : Gorm}.

(** [ServeWS] up to the upgrade: the shared token, a one-time enroll token
    traded for a credential, or a per-target credential. *)
Definition authenticate (now : Time) (gatewayToken : string) (entropy : Result string) (d : Dial)
  : M (Table Target) AuthResult :=
  let token := extractBearer (dial_Authorization d) in
  let targetName := dial_Name d in
  if negb (empty_string gatewayToken) && negb (String.eqb token gatewayToken) then
    let* r := TargetService.ConsumeEnrollToken now entropy token targetName in
    match r with
    | Ok (tg, cred) => ret (Accepted tg (Some cred))
    | Err _ =>
        let* r := TargetService.GetByCredential token in
        ret (match r with
             | Err _ => Refused StatusUnauthorized "invalid gateway token"
             | Ok tg =>
                 if negb (empty_string targetName) && negb (String.eqb targetName (tg_Name tg))
                 then Refused StatusUnauthorized "target name does not match credential"
                 else Accepted tg None
             end)
    end
  else if empty_string targetName then ret (Refused StatusBadRequest "missing X-Target-Name")
  else
    let* r := TargetService.GetByName targetName in
    match r with
    | Ok tg => ret (Accepted tg None)
    | Err _ =>
        if empty_string (dial_Vendor d) || empty_string (dial_Region d)
        then ret (Refused StatusNotFound "unknown target")
        else
          let* r := TargetService.Enroll now targetName (dial_Vendor d) (dial_Region d) in
          ret (match r with
               | Ok tg => Accepted tg None
               | Err _ => Refused StatusInternalServerError "enroll failed"
               end)
    end.
End Auth.

(** * Connection life cycle and inbound routing *)

Section Lifecycle.
Context {G : Gorm} {P : Platform} {X : MetaV1} {S : WebSocket}.
#[local] Existing Instance gateway_dispatcher.

Record Handlers := mkHandlers {
  statusH : option (UUID -> StatusUpdatePayload -> M World unit);
  logH : option (LogChunkPayload -> M World unit);
  connectH : option (UUID -> M World unit);
  opStatusH : option (UUID -> AgentOpStatusPayload -> M World unit);
  opLogH : option (UUID -> AgentOpLogPayload -> M World unit);
  agentInfoH : option (UUID -> AgentInfoPayload -> M World unit);
}.

Definition on_link (f : HubServer -> HubServer) : M World unit :=
  fun w => (tt, w <| w_link := f (w_link w) |>).

Definition heartbeat (id : UUID) (online : bool) : M World unit :=
  let* _ := stmt w_targets (fun now => TargetService.Heartbeat now id online) in ret tt.

(** [serveTarget] up to the read loop. *)
Definition on_connect (hs : Handlers) (tg : Target) (ws : Conn) : M World unit :=
  on_link (register (tg_ID tg) ws) ;;;
  on_link (setGauge (tg_Name tg) (tg_ID tg) true) ;;;
  call_opt (connectH hs) (fun h => h (tg_ID tg)) ;;;
  heartbeat (tg_ID tg) true.

(** [unregister]: only the registered connection takes its entry away and
    marks the target offline. *)
Definition unregister (targetID : UUID) (ws : Conn) : M World unit :=
  let* w := get in
  let was_owned := owned targetID ws (w_link w) in
  on_link (drop_conn targetID ws) ;;;
  if was_owned then heartbeat targetID false else ret tt.

(** The deferred function of [serveTarget]. *)
Definition on_disconnect (tg : Target) (ws : Conn) : M World unit :=
  unregister (tg_ID tg) ws ;;;
  on_link (setGauge (tg_Name tg) (tg_ID tg) false).

(** A decoded payload goes to its handler; one that does not decode is
    dropped. *)
Definition route {A} (C : Codec A) (payload : RawJSON) (h : option (A -> M World unit))
  : M World unit :=
  match UnmarshalE payload with
  | Err _ => ret tt
  | Ok p => call_opt h (fun f => f p)
  end.

(** One iteration of [readLoop]; [None] is a frame that is not JSON. *)
Definition on_frame (hs : Handlers) (targetID : UUID) (data : option Frame) : M World unit :=
  match data with
  | None => ret tt
  | Some f =>
      let t := frame_Type f in
      let at_target {A} (h : option (UUID -> A -> M World unit)) := (fun g => g targetID) <$> h in
      if String.eqb t "status_update" then route _ (frame_Payload f) (at_target (statusH hs))
      else if String.eqb t "log_chunk" then route _ (frame_Payload f) (logH hs)
      else if String.eqb t "heartbeat" then heartbeat targetID true
      else if String.eqb t "agent_op_status" then route _ (frame_Payload f) (at_target (opStatusH hs))
      else if String.eqb t "agent_op_log" then route _ (frame_Payload f) (at_target (opLogH hs))
      else if String.eqb t "agent_info" then route _ (frame_Payload f) (at_target (agentInfoH hs))
      else ret tt
  end.

(** The frames of one connection, in order. *)
Definition readLoop (hs : Handlers) (targetID : UUID) (frames : list (option Frame))
  : M World unit := for_each frames (on_frame hs targetID).
End Lifecycle.

(** * Properties *)

Section Laws.
Context {X : MetaV1} {S : WebSocket} {SL : WebSocketLaws S}.

Lemma send_to_cases t m h r h' :
  send_to t m h = (r, h') ->
  conns h' = conns h /\
  match r with
  | None => exists ws, conns h !! t = Some ws /\
      ws_sent (h_wire h') = ws_sent (h_wire h) ++ [(ws, frame_of m)] /\
      h_delivered h' = h_delivered h ++ [(t, m)]
  | Some e => h_delivered h' = h_delivered h /\ ws_sent (h_wire h') = ws_sent (h_wire h) /\
      (conns h !! t = None -> e = ErrNoRunner /\ h' = h)
  end.
Proof.
  unfold send_to. destruct (conns h !! t) as [ws|] eqn:Ec; [|by intros [= <- <-]].
  destruct (ws_WriteJSON ws (frame_of m) (h_wire h)) as [[e|] wire] eqn:E; intros [= <- <-]; simpl.
  - split; [done|]. split; [done|]. split; [by apply write_err in E|done].
  - split; [done|]. exists ws. split; [done|]. split; [by apply write_ok in E|done].
Qed.

#[global] Instance gateway_laws : DispatcherLaws gateway_dispatcher.
Proof.
  split; simpl.
  - intros t m h h' E. apply send_to_cases in E as (_ & ws & Hc & _ & ->). split; [done|].
    apply bool_decide_eq_true_2. by eexists.
  - intros t m h e h' E. by apply send_to_cases in E as (_ & -> & _).
  - intros t m h Hc%bool_decide_eq_false. unfold send_to.
    destruct (conns h !! t); [|done]. exfalso. apply Hc. by eexists.
  - intros t m h r h' E t'. by apply send_to_cases in E as (-> & _).
Qed.
End Laws.
