(* ===== verification/Instances.v ===== *)
(** A concrete hub: instances of everything the model takes as a parameter,
    with proofs of their laws, and a small populated state.

    The properties are stated for any database, Runner link, platform and
    [metav1] library that obey their laws; evaluating them on this hub shows
    that the laws and the hypotheses can be met.  Tables are lists of rows
    with a schedule of failing statements ([ListGorm]); a connection either
    accepts every frame or none.  The administrative part of the hub is one
    organization with two components, a developer role and an administrator,
    on list tables and a list of object keys. *)
From stdpp Require Import base list strings gmap pretty.
From Stdlib Require Import ZArith Lia Ascii.
From S2P Require Import Prelude Common Gorm Json RunnerProto RunStore PipelineStore TargetStore.
From S2P Require Import GoLib EditStore OrgStore SiteStore PermStore RateLimit World Admin.
From S2P Require Import Permissions Middleware Gateway.
#[export] Existing Instance ListGorm.gorm.
#[export] Existing Instance ListGorm.gorm_laws.

Open Scope Z_scope.

(** * A lossless text for durations and times *)

Fixpoint digits (p : positive) : string :=
  match p with
  | xH => "."
  | xO p => String "0"%char (digits p)
  | xI p => String "1"%char (digits p)
  end.

Fixpoint undigits (s : string) : option positive :=
  match s with
  | String "."%char "" => Some xH
  | String "0"%char s => xO <$> undigits s
  | String "1"%char s => xI <$> undigits s
  | _ => None
  end.

Definition z_text (z : Z) : string :=
  match z with
  | Z0 => "0"
  | Zpos p => String "+"%char (digits p)
  | Zneg p => String "-"%char (digits p)
  end.

Definition z_parse (s : string) : option Z :=
  match s with
  | String "+"%char s => Zpos <$> undigits s
  | String "-"%char s => Zneg <$> undigits s
  | String "0"%char "" => Some 0
  | _ => None
  end.

Lemma undigits_digits p : undigits (digits p) = Some p.
Proof. induction p as [p IH|p IH|]; simpl; [by rewrite IH..|done]. Qed.

Lemma z_parse_text z : z_parse (z_text z) = Some z.
Proof. destruct z; simpl; rewrite ?undigits_digits; done. Qed.

#[export] Instance text_meta : MetaV1 := {|
  duration_String := z_text; ParseDuration := z_parse;
  time_String := z_text; ParseTime := z_parse;
|}.
#[export] Instance text_meta_laws : MetaV1Laws text_meta.
Proof. split; intros; apply z_parse_text. Qed.

(** * The platform *)

(** Identifiers print as eight decimal digits and a tail. *)
Definition uuid_text (id : UUID) : string :=
  let s := pretty (Z.to_N id) in
  String.substring 0 (8 - String.length s) "00000000" +:+ s +:+ "-0000-4000-8000-000000000000".

#[export] Instance counter_platform : Platform := {|
  Env := list string;
  uuid_New := fun n => 1000 + Z.of_nat n;
  uuid_String := uuid_text;
  uuid_Parse := fun s => Atoi (String.substring 0 8 s);
  rand_Read := fun n => Ok (replicate 16 (Z.of_nat n mod 256));
  Local := fixed_zone 0;
  FormatRFC3339 := z_text;
  map_range := fun l => rev l;
|}.
#[export] Instance counter_platform_laws : PlatformLaws counter_platform.
Proof. split. intros l. simpl. symmetry. apply Permutation_rev. Qed.

(** * The wire *)

Record wire := mkWire { wire_sent : list (Conn * Frame); wire_broken : list Conn }.

#[export] Instance list_websocket : WebSocket := {|
  Wire := wire;
  ws_sent := wire_sent;
  ws_WriteJSON := fun c f w =>
    if bool_decide (c ∈ wire_broken w) then (Some (ELib "use of closed network connection"), w)
    else (None, mkWire (wire_sent w ++ [(c, f)]) (wire_broken w));
|}.
#[export] Instance list_websocket_laws : WebSocketLaws list_websocket.
Proof. split; simpl; intros; case_bool_decide; naive_solver. Qed.

#[export] Instance hub_dispatcher : Dispatcher := gateway_dispatcher.
#[export] Instance hub_dispatcher_laws : DispatcherLaws hub_dispatcher := gateway_laws.

(** * A populated hub *)

Definition table {R} (l : list R) : Table R := ListGorm.mk l [].

Definition demo_hub (online : list UUID) : HubServer :=
  mkHubServer "hub-token" (list_to_map ((fun t => (t, t + 1000)) <$> online)) ∅ ∅
    (mkWire [] []) [].

Definition demo_pipeline : Pipeline :=
  mkPipeline 10 5 5 None 7 "release" "custom" "" "ana" 3 ConcurrencyAllow
    (RawDoc (JArr [JObj [("name", JStr "VERSION"); ("type", JStr "string"); ("default", JStr "1.0")]])).

Definition demo_stages : list PipelineStage :=
  [mkPipelineStage 20 5 5 None 10 "build" 1 ExecutionModeSerial;
   mkPipelineStage 21 5 5 None 10 "deploy" 2 ExecutionModeParallel].

Definition demo_template (id stage : UUID) (name : string) (type : PipelineTaskType) (order : Z)
    (image : string) : PipelineTaskTemplate :=
  mkPipelineTaskTemplate id 5 5 None stage name type order image "" empty_array empty_array
    empty_array empty_array empty_array RawEmpty RawEmpty RawEmpty default_retry 0 false.

Definition demo_templates : list PipelineTaskTemplate :=
  [demo_template 40 20 "compile" TaskTypeBuild 1 "go:${VERSION}";
   demo_template 41 20 "unit" TaskTypeTest 2 "go:1";
   demo_template 42 21 "gate" TaskTypeApproval 1 "";
   demo_template 43 21 "ship" TaskTypeBuild 2 "sh:${MISSING}"].

Definition demo_target (id : UUID) (name : string) (status : string) : Target :=
  mkTarget id 5 5 name "acme" "eu" TargetKindK8s status "" None None None None
    TargetAccessModeAgent None.

Definition demo_targets : list Target :=
  [demo_target 30 "edge" TargetStatusOnline; demo_target 31 "lab" TargetStatusOffline].

(** Target 30 is connected; no run exists yet. *)
Definition demo : World :=
  mkWorld (1000 * Second) 0 (table [demo_pipeline]) (table demo_stages) (table demo_templates)
    (table demo_targets) (table []) (table []) (table []) (table []) (table []) (table [])
    (table []) (demo_hub [30]) [] (table []) (table []) (table []) (table []).

Definition demo_service : PipelineRunService :=
  mkPipelineRunService None true
    (Some (fun _ => ret (Ok (7, 8)))) None 0 None None None None None false None "runner" true.

Definition demo_request : TriggerRequest :=
  mkTriggerRequest (Some 30) [] "" "" "" "" [mkParam "VERSION" "2.0"] "abc" 60 "ana" "manual".

(** A run of the demo pipeline on target 30. *)
Definition demo_run (id : UUID) (phase : PipelineRunPhase) : PipelineRun :=
  mkPipelineRun id 10 30 (Some 8) None ("pr-" +:+ String.substring 0 8 (uuid_text id)) "sdp-run" ""
    RawEmpty 3 phase 60 "ana" "manual" None None "" (900 * Second) (900 * Second).

Definition demo_task (id run : UUID) (name stage : string) (type : PipelineTaskType)
    (phase : TaskRunPhase) : TaskRun :=
  mkTaskRun id run None "" name stage type phase 0 None None None "" "" (900 * Second) (900 * Second).

Definition demo_apply : ApplyPipelineRunPayload :=
  mkApply "pr-00000050" "sdp-run" zero "".

Definition demo_job (id run : UUID) (state : DispatchJobState) (attempts : Z) : DispatchJob :=
  mkDispatchJob id run 30 (Marshal demo_apply) state attempts "" None (900 * Second) (900 * Second).

(** The same hub with other targets connected. *)
Definition relink (online : list UUID) (w : World) : World :=
  w <| w_link := (demo_hub online : Link) |>.

Lemma relink_jobs online w : w_jobs (relink online w) = w_jobs w.
Proof. done. Qed.

(** * The administrative part *)

(** ** The object store: a list of keys *)

#[export] Instance list_store : ObjectStore := {|
  Bucket := list string;
  bucket_keys := fun b => b;
  store_Delete := fun k b => (None, filter (fun x => x <> k) b);
  store_ListObjects := fun prefix n b =>
    let found := filter (fun x => HasPrefix x prefix = true) b in
    (Ok (take (Z.to_nat n) found, (Z.to_nat n <? length found)%nat), b);
  store_PresignDownload := fun k _ b => (Ok ("https://store/get/" +:+ k), b);
  store_PresignUpload := fun k _ b => (Ok ("https://store/put/" +:+ k), b);
|}.

(** ** Transactions: keep the final state or the initial one *)

#[export] Instance list_tx : Transactions := {|
  db_Tx := fun S A body s => match body s with (Ok a, s') => (Ok a, s') | (Err e, _) => (Err e, s) end;
|}.

#[export] Instance list_tx_laws : TransactionsLaws list_tx.
Proof.
  split. intros S A body s res s'. simpl. destruct (body s) as [[a|e] s1]; intros [= <- <-]; eauto.
Qed.

(** ** The rows *)

Definition demo_org : Org := mkOrg 1 5 5 None "Acme" "acme" RawEmpty RawEmpty.

Definition demo_component (id : UUID) (owner : option string) : Component :=
  mkComponent id 5 5 None 3 ("c" +:+ uuid_text id) "component" "" "main" "" "go" "" owner None ""
    LifecycleActive.

Definition actions_doc (l : list string) : RawJSON := RawDoc (JArr (JStr <$> l)).

Definition demo_roles : list ComponentRole :=
  [mkComponentRole 50 None "component-admin" "" (actions_doc ["run:trigger"; "component:manage"]) true 5;
   mkComponentRole 51 None "developer" "" (actions_doc ["run:trigger"]) true 5].

(** Ben is bound to the developer role on component 7, until 2000 s. *)
Definition demo_bindings : list ComponentRoleBinding :=
  [mkComponentRoleBinding 60 7 None "user" "ben" (Some 51) None 5 (Some (2000 * Second))].

(** Component 7 belongs to the organization; component 8 to none. *)
Definition demo_ownership : list ResourceOwnership :=
  [mkResourceOwnership 70 ResourceTypeComponent 7 1 RawEmpty 5].

Definition demo_admin_on {O : ObjectStore} (b : Bucket) : Admin :=
  mkAdmin (1000 * Second) 0 (table [demo_org]) (table []) (table [])
    (table [demo_component 7 (Some "ana"); demo_component 8 (Some "ana")]) (table []) (table [])
    (table []) (table []) (table []) (table [demo_pipeline]) (table demo_stages)
    (table demo_templates) (table [demo_run 100 PipelineRunRunning]) (table demo_targets) (table [])
    (table demo_bindings) (table demo_roles) (table []) (table []) (table demo_ownership) (table [])
    (table []) (table []) (table []) (table []) (table []) (table []) (table []) (table [])
    b (mkLimits ∅ ∅).

Definition demo_admin : Admin := demo_admin_on (O := list_store) [].

(** The same hub after its run has ended, with configuration and artifacts. *)
Definition demo_artifact (id component : UUID) (expires : option Time) : Artifact :=
  mkArtifact id component None None "1.0" "generic" ("components/" +:+ uuid_text id) None "" "" expires
    CleanupStateActive 5 ScanUnscanned false "" "" 0 0 0 0.

Definition demo_config_row (id component : UUID) (key value : string) (secret : bool) : ComponentConfig :=
  mkComponentConfig id component None key value secret "" "" None None 5 5.

Definition idle_admin : Admin := demo_admin
  <| a_runs := table [demo_run 100 PipelineRunSucceeded] |>
  <| a_configs := table [demo_config_row 200 7 "PORT" "80" false; demo_config_row 201 8 "PORT" "90" false] |>
  <| a_artifacts := table [demo_artifact 300 7 None; demo_artifact 301 8 (Some 5)] |>.

(** ** Requests *)

(** An identity provider that knows one token. *)
Definition demo_authenticator : Authenticator (S := Admin) :=
  mkAuthenticator
    (fun tok => ret (if String.eqb tok "ben-token"
                     then Ok (mkClaims "ben" "Ben" ["/acme/dev"] [] "console")
                     else Err (ELib "oidc: malformed jwt")))
    "console" (Some verifyPAT) None.

Definition demo_config : Config := mkConfig (Some demo_authenticator) None "".

Definition demo_http (method auth_header : string) : Request :=
  mkRequest method "/api/v1/pipelines/:id/runs"
    (fun p => if String.eqb p "id" then uuid_text 10 else "") (fun _ => "")
    (fun h => if String.eqb h "Authorization" then auth_header else "") "10.0.0.9".

Definition demo_post (auth_header : string) : Request := demo_http "POST" auth_header.

Definition ok_handler : Handler (S := Admin) := fun _ c => ret (OK_ RawEmpty, c).

(** The trigger route of a pipeline. *)
Definition demo_route : Handler (S := Admin) :=
  api demo_config (wrap demo_config ResourcePipeline "id" "run:trigger" ok_handler).

Definition serve (auth_header : string) (s : Admin) : Z :=
  rs_Code (demo_route (demo_post auth_header) empty_context s).1.1.

Example ben_is_let_in : serve "Bearer ben-token" demo_admin = 200.
Proof. vm_compute. reflexivity. Qed.
Example strangers_are_not : serve "Bearer eve-token" demo_admin = 401.
Proof. vm_compute. reflexivity. Qed.
