(* ===== verification/DispatchTheory.v ===== *)
(** Properties of the dispatch queue: the backoff schedule, what one delivery
    attempt does on every branch, the job state machine it maintains, and that
    a payload reaches its Runner at most once per claim. *)
From stdpp Require Import base list strings gmap.
From Stdlib Require Import ZArith Lia.
From S2P Require Import Prelude Common Gorm Json RunnerProto RunStore PipelineStore TargetStore.
From S2P Require Import World WorldLogic RunDispatch.
Import DispatchJobRepository.

Open Scope Z_scope.

(** * Backoff *)

Lemma shl1_small n : 0 <= n < 63 -> shl1 n = 2 ^ n.
Proof.
  intros H. unfold shl1. rewrite (proj2 (Z.leb_le 0 n)), (proj2 (Z.ltb_lt n 64)) by lia. simpl.
  apply wrap64_id. split; [pose proof (Z.pow_nonneg 2 n); lia|]. apply Z.pow_lt_mono_r; lia.
Qed.

Lemma dispatchBackoff_min a :
  1 <= a <= 29 -> dispatchBackoff a = Z.min (30 * Second * 2 ^ (a - 1)) (5 * Minute).
Proof.
  intros H. unfold dispatchBackoff. rewrite shl1_small by lia.
  assert (1 <= 2 ^ (a - 1) <= 2 ^ 28).
  { split; [apply (Z.pow_le_mono_r 2 0); lia|apply Z.pow_le_mono_r; lia]. }
  rewrite wrap64_id by (unfold Second; lia).
  destruct (Z.ltb_spec (5 * Minute) (30 * Second * 2 ^ (a - 1))); lia.
Qed.

(** * What the job states mean *)

Definition awaiting_state (s : DispatchJobState) : Prop :=
  s = DispatchJobPending \/ s = DispatchJobFailed.

Lemma awaiting_iff j : awaiting j = true <-> awaiting_state (job_State j).
Proof. unfold awaiting, awaiting_state. by rewrite orb_true_iff, !String.eqb_eq. Qed.

Lemma claimable_iff id j :
  claimable id j = true <-> job_ID j = id /\ awaiting_state (job_State j).
Proof. unfold claimable, has_id. by rewrite andb_true_iff, Z.eqb_eq, awaiting_iff. Qed.

(** Delivered, or given up: never claimed again. *)
Definition retired (j : DispatchJob) : Prop :=
  job_State j = DispatchJobDispatching \/ job_State j = DispatchJobDispatched \/
  job_State j = DispatchJobDead.

Lemma retired_not_awaiting j : retired j -> awaiting_state (job_State j) -> False.
Proof. unfold retired, awaiting_state. by intros [H|[H|H]]; rewrite H; intros [?|?]. Qed.

(** What holds of every stored job. *)
Definition job_ok (j : DispatchJob) : Prop :=
  0 <= job_Attempts j <= MaxDispatchAttempts /\
  ((job_State j = DispatchJobPending \/ job_State j = DispatchJobHeld) /\ job_Attempts j = 0 \/
   job_State j = DispatchJobFailed /\ 1 <= job_Attempts j < MaxDispatchAttempts /\
     is_Some (job_NextRetryAt j) \/
   retired j).

(** How a job may evolve: identity, target and payload are fixed, attempts only
    grow, a retired job stays retired. *)
Definition job_evolves (j j' : DispatchJob) : Prop :=
  job_ID j' = job_ID j /\ job_PipelineRunID j' = job_PipelineRunID j /\
  job_TargetID j' = job_TargetID j /\ job_Payload j' = job_Payload j /\
  job_Attempts j <= job_Attempts j' /\ (retired j -> retired j').

#[global] Instance job_evolves_refl : Reflexive job_evolves.
Proof. by intros j. Qed.
#[global] Instance job_evolves_trans : Transitive job_evolves.
Proof.
  intros j1 j2 j3 (?&?&?&?&?&?) (?&?&?&?&?&?). repeat split; try congruence; [lia|auto].
Qed.

Definition jobs_evolve (l l' : list DispatchJob) : Prop :=
  forall j, j ∈ l -> exists j', j' ∈ l' /\ job_evolves j j'.

#[global] Instance jobs_evolve_refl : Reflexive jobs_evolve.
Proof. intros l j Hj. by exists j. Qed.
#[global] Instance jobs_evolve_trans : Transitive jobs_evolve.
Proof.
  intros l1 l2 l3 H12 H23 j (j2 & Hj2 & E2)%H12. apply H23 in Hj2 as (j3 & Hj3 & E3).
  exists j3. split; [done|]. by etransitivity.
Qed.

(** Stored jobs are well-formed and their ids distinct. *)
Definition jobs_ok (l : list DispatchJob) : Prop := NoDup (job_ID <$> l) /\ Forall job_ok l.

Lemma jobs_ok_unique l j j' :
  jobs_ok l -> j ∈ l -> j' ∈ l -> job_ID j = job_ID j' -> j = j'.
Proof.
  intros [Hnd _] (i & Hi)%list_elem_of_lookup (i' & Hi')%list_elem_of_lookup E.
  assert (i = i'); [|by simplify_eq].
  eapply NoDup_lookup; [exact Hnd| |]; rewrite list_lookup_fmap.
  - by rewrite Hi.
  - rewrite Hi'. simpl. by rewrite E.
Qed.

(** ** UPDATEs on the job table *)

Lemma update_rows_ids now p f (l : list DispatchJob) :
  (forall j, job_ID (f j) = job_ID j) -> job_ID <$> update_rows now p f l = job_ID <$> l.
Proof. intros Hf. exact (pks_update_rows now p f l Hf). Qed.

Lemma update_rows_ok now p f (l : list DispatchJob) :
  (forall j, job_ID (f j) = job_ID j) ->
  (forall j, j ∈ l -> p j = true -> job_ok j -> job_ok (updated now (f j))) ->
  jobs_ok l -> jobs_ok (update_rows now p f l).
Proof.
  intros Hid Hok [Hnd Hall]. split; [by rewrite update_rows_ids|].
  apply Forall_forall. intros j Hj. rewrite Forall_forall in Hall.
  apply elem_of_update_rows in Hj as [(j0 & Hj0 & _ & Hp & ->)|[Hj _]]; eauto.
Qed.

Lemma update_rows_evolve now p f (l : list DispatchJob) :
  (forall j, j ∈ l -> p j = true -> job_evolves j (updated now (f j))) ->
  jobs_evolve l (update_rows now p f l).
Proof.
  intros He j Hj. unfold update_rows. exists (if alive j && p j then updated now (f j) else j).
  split.
  - apply list_elem_of_fmap. by exists j.
  - simpl. destruct (p j) eqn:E; [by apply He|done].
Qed.

Lemma elem_update_id now id f (l : list DispatchJob) j :
  (forall j, job_ID (f j) = job_ID j) -> j ∈ update_rows now (has_id id) f l -> job_ID j = id ->
  exists j0, j0 ∈ l /\ job_ID j0 = id /\ j = updated now (f j0).
Proof.
  intros Hf [(j0 & Hj0 & _ & Hp%Z.eqb_eq & ->)|[Hj Hp]]%elem_of_update_rows Hid; [by eauto|].
  exfalso. simpl in Hp. unfold has_id in Hp. apply Z.eqb_neq in Hp. done.
Qed.

Ltac job_simpl :=
  unfold job_ok, job_evolves, retired, awaiting_state, MaxDispatchAttempts in *; simpl in *.

(** * The outcome of a delivery attempt *)

Section Delivery.
Context {G : Gorm} {GL : GormLaws G} {P : Platform} {D : Dispatcher} {DL : DispatcherLaws D}
  {X : MetaV1}.

(** Only the job table and the link may differ. *)
Definition jobs_only (w w' : World) : Prop :=
  same (w <| w_jobs := w_jobs w' |> <| w_link := w_link w' |>) w' /\
  (healthy (w_jobs w) -> healthy (w_jobs w')).

Definition claimed_rows (id : UUID) (w : World) : list DispatchJob :=
  update_rows (w_now w) (claimable id) claimed (rows (w_jobs w)).

(** The bookkeeping UPDATE after the claim, which may itself have failed. *)
Definition settled (id : UUID) (f : DispatchJob -> DispatchJob) (w w' : World) : Prop :=
  rows (w_jobs w') = update_rows (w_now w) (has_id id) f (claimed_rows id w) \/
  (rows (w_jobs w') = claimed_rows id w /\ ~ healthy (w_jobs w)).

(** The retirement or the backoff of a failed attempt. *)
Definition after_failure (job : DispatchJob) (e : GoError) (now : Time)
  : DispatchJob -> DispatchJob :=
  if MaxDispatchAttempts <=? job_Attempts job + 1 then dead (Error e)
  else failed (Error e) (now + dispatchBackoff (job_Attempts job + 1)).

(** What the Runner link answers to this payload. *)
Definition answer_of (job : DispatchJob) (p : ApplyPipelineRunPayload) (w : World)
  : option GoError * Link :=
  d_send (job_TargetID job) (MessageApplyPipelineRun p) (w_link w).

Definition attempt (id : UUID) (job : DispatchJob) (w : World) (r : Result unit) (w' : World)
  : Prop :=
  match UnmarshalE (A := ApplyPipelineRunPayload) (job_Payload job) with
  | Err e => r = Err e /\ w_link w' = w_link w /\
             settled id (dead ("corrupt payload: " +:+ Error e)) w w'
  | Ok p =>
      w_link w' = (answer_of job p w).2 /\
      match (answer_of job p w).1 with
      | Some e => r = Err e /\ settled id (after_failure job e (w_now w)) w w'
      | None =>
          (r = Ok tt /\
           rows (w_jobs w') = update_rows (w_now w) (has_id id) dispatched (claimed_rows id w)) \/
          (exists e, r = Err e /\ rows (w_jobs w') = claimed_rows id w /\ ~ healthy (w_jobs w))
      end
  end.

(** Either nothing was sent, or exactly the payload to the job's target. *)
Lemma attempt_delivered id job w r w' :
  attempt id job w r w' ->
  delivered (w_link w') = delivered (w_link w) \/
  exists p, UnmarshalE (job_Payload job) = Ok p /\ (answer_of job p w).1 = None /\
    delivered (w_link w') =
      delivered (w_link w) ++ [(job_TargetID job, MessageApplyPipelineRun p)].
Proof.
  unfold attempt, answer_of. destruct (UnmarshalE _) as [p|e]; [|by intros (_ & -> & _); left].
  destruct (d_send _ _ _) as [[e|] l] eqn:E; simpl; intros [-> _].
  - left. by apply send_err in E.
  - right. exists p. split; [done|]. split; [by rewrite E|]. by apply send_ok in E as [? _].
Qed.

Definition unsettled (job : DispatchJob) : Prop :=
  job_State job <> DispatchJobDispatched /\ job_State job <> DispatchJobDead.

Lemma jobs_only_same w w' : same w w' -> jobs_only w w'.
Proof.
  intros [? ? ? ? ? ? ? [_ Hh]]. split; [|done]. split; simpl; try done; apply tsame_refl.
Qed.
Lemma jobs_only_trans w1 w2 w3 : jobs_only w1 w2 -> jobs_only w2 w3 -> jobs_only w1 w3.
Proof.
  intros [[] ?] [[] ?]. simpl in *. split; [|by auto]. split; simpl; try done; try congruence;
    try (eapply tsame_trans; eassumption); apply tsame_refl.
Qed.
Lemma jobs_only_jobs w t :
  (healthy (w_jobs w) -> healthy t) -> jobs_only w (set_field w_jobs (fun _ => t) w).
Proof. intros H. split; [|done]. split; simpl; try done; apply tsame_refl. Qed.
Lemma jobs_only_link w l : jobs_only w (set_field w_link (fun _ => l) w).
Proof. split; [|done]. split; simpl; try done; apply tsame_refl. Qed.

(** A bookkeeping UPDATE whose error is dropped. *)
Lemma wp_bookkeeping {A} id (f : Time -> DispatchJob -> DispatchJob) (x : A) Q w :
  (forall w', jobs_only w w' -> w_link w' = w_link w ->
     rows (w_jobs w') = update_rows (w_now w) (has_id id) (f (w_now w)) (rows (w_jobs w)) \/
     (rows (w_jobs w') = rows (w_jobs w) /\ ~ healthy (w_jobs w)) ->
     Q x w') ->
  wp (ignore (stmt w_jobs (fun now => db_Updates now (has_id id) (f now))) ;;; ret x) Q w.
Proof.
  intros HQ. apply wp_bind, wp_bind, wp_stmt, wp_Updates.
  - intros t' Hh Hr. apply wp_ret, HQ; [by apply jobs_only_jobs|done|by left].
  - intros e t' [Hr Hh'] Hh. apply wp_ret, HQ; [by apply jobs_only_jobs|done|by right].
Qed.

(** An attempt that changed nothing: the job is settled or not claimable, or
    there is no such job, or a statement failed. *)
Definition idle (id : UUID) (w : World) (r : Result unit) : Prop :=
  (r = Ok tt /\ (selected (claimable id) (rows (w_jobs w)) = [] \/
                 exists job, job ∈ rows (w_jobs w) /\ job_ID job = id /\ ~ unsettled job)) \/
  (exists e, r = Err e /\ (healthy (w_jobs w) -> e = ErrRecordNotFound /\
                           id ∉ (job_ID <$> rows (w_jobs w)))).

(** Every run of [tryDeliver]: it only read, or it won the claim. *)
Lemma tryDeliver_spec id w :
  wp (tryDeliver id) (fun r w' =>
    (same w w' /\ idle id w r) \/
    (jobs_only w w' /\ exists job, job ∈ rows (w_jobs w) /\ job_ID job = id /\ unsettled job /\
       selected (claimable id) (rows (w_jobs w)) <> [] /\ attempt id job w r w')) w.
Proof.
  unfold tryDeliver. apply wp_try. apply (wp_zoom w_jobs). apply wp_First.
  2: { intros e t1 Ht1 Hh Hs Hn. left. split; [by apply field_same|]. right. exists e.
       split; [done|]. intros HH. split; [by apply Hh|]. intros (j & -> & Hj)%list_elem_of_fmap.
       apply (elem_of_nil (A := DispatchJob) j). rewrite <- (Hs (Hh HH)). apply elem_of_selected.
       split; [done|]. split; [apply Z.eqb_refl|done]. }
  intros job t1 Ht1 _ Hid%Z.eqb_eq Hin.
  set (w1 := set_field w_jobs (fun _ => t1) w).
  assert (Hs1 : same w w1) by (by apply field_same).
  destruct (String.eqb_spec (job_State job) DispatchJobDispatched) as [Hj|Hn1].
  { left. split; [done|]. left. split; [done|]. right. exists job. unfold unsettled. tauto. }
  destruct (String.eqb_spec (job_State job) DispatchJobDead) as [Hj|Hn2].
  { left. split; [done|]. left. split; [done|]. right. exists job. unfold unsettled. tauto. }
  destruct Ht1 as [Er1 Hh1]. apply wp_try, wp_stmt, wp_Updates.
  2: { intros e t2 Ht2 Hh. left. split; [etransitivity; [exact Hs1|by apply field_same]|].
       right. exists e. split; [done|]. intros HH. by destruct (Hh (Hh1 HH)). }
  intros t2 Hh2 Hrows. simpl in Hrows, Hh2 |- *. rewrite Er1 in *.
  destruct (Z.eqb_spec (Z.of_nat (length (selected (claimable id) (rows (w_jobs w))))) 0)
    as [E0|Hsel].
  { assert (E1 : selected (claimable id) (rows (w_jobs w)) = [])
      by (destruct (selected _ _); [done|simpl in E0; lia]).
    left. split; [|left; auto]. etransitivity; [exact Hs1|]. apply field_same. split; [|done]. simpl.
    rewrite Hrows, Er1. by apply update_rows_none. }
  set (w2 := set_field w_jobs (fun _ => t2) w1).
  assert (Hw2 : jobs_only w w2).
  { eapply jobs_only_trans; [by apply jobs_only_same|]. by apply jobs_only_jobs. }
  assert (Hc : rows (w_jobs w2) = claimed_rows id w) by exact Hrows.
  assert (HH : healthy (w_jobs w) -> healthy t2) by auto.
  assert (Hjob : forall r w', jobs_only w2 w' -> attempt id job w r w' ->
    (same w w' /\ idle id w r) \/ jobs_only w w' /\ exists job, job ∈ rows (w_jobs w) /\ job_ID job = id /\
      unsettled job /\ selected (claimable id) (rows (w_jobs w)) <> [] /\ attempt id job w r w').
  { intros r w' Ho Ha. right. split; [by eapply jobs_only_trans|]. exists job.
    split; [done|]. split; [done|]. split; [done|]. split; [|done].
    intros E. rewrite E in Hsel. done. }
  destruct (UnmarshalE (job_Payload job)) as [p|e] eqn:EU.
  - apply wp_bind, (wp_zoom w_link).
    destruct (d_send (job_TargetID job) (MessageApplyPipelineRun p) (w_link w2)) as [[err|] l'] eqn:Es;
      unfold wp; rewrite Es; simpl fst; simpl snd.
    + change (answer_of job p w = (Some err, l')) in Es.
      set (w3 := set_field w_link (fun _ => l') w2).
      assert (Hf : wp (ignore (stmt w_jobs (fun now => db_Updates now (has_id id)
           (after_failure job err now))) ;;; ret (S := World) (Err (A := unit) err)) (fun r w' =>
           (same w w' /\ idle id w r) \/ jobs_only w w' /\ exists job, job ∈ rows (w_jobs w) /\ job_ID job = id /\
             unsettled job /\ selected (claimable id) (rows (w_jobs w)) <> [] /\
             attempt id job w r w') w3).
      { apply wp_bookkeeping. intros w' Ho Hl Hr. apply Hjob.
        { eapply jobs_only_trans; [apply jobs_only_link|exact Ho]. }
        unfold attempt. rewrite EU, Es. split; [by rewrite Hl|]. split; [done|].
        unfold settled. simpl in Hr. rewrite Hrows in Hr. tauto. }
      unfold after_failure in Hf. destruct (MaxDispatchAttempts <=? job_Attempts job + 1); exact Hf.
    + change (answer_of job p w = (None, l')) in Es.
      apply wp_try, wp_stmt, wp_Updates.
      * intros t3 Hh3 Hr. apply Hjob.
        { eapply jobs_only_trans; [apply jobs_only_link|by apply jobs_only_jobs]. }
        unfold attempt. rewrite EU, Es. split; [done|]. left. simpl in Hr |- *.
        by rewrite Hrows in Hr.
      * intros e t3 [Hr Hh3] Hh. apply Hjob.
        { eapply jobs_only_trans; [apply jobs_only_link|by apply jobs_only_jobs]. }
        unfold attempt. rewrite EU, Es. split; [done|]. right. exists e. simpl in Hr, Hh |- *.
        rewrite Hrows in Hr. tauto.
  - apply (wp_bookkeeping id (fun _ => dead _)). intros w' Ho Hl Hr. apply Hjob; [done|].
    unfold attempt. rewrite EU. split; [done|]. split; [by rewrite Hl|].
    unfold settled. rewrite Hc in Hr. tauto.
Qed.
(** ** Consequences for the job table *)

Lemma update_rows_ext now p p' f f' (l : list DispatchJob) :
  (forall j, j ∈ l -> p j = p' j) -> (forall j, j ∈ l -> p j = true -> updated now (f j) = updated now (f' j)) ->
  update_rows now p f l = update_rows now p' f' l.
Proof.
  intros Hp Hf. apply list_fmap_ext. intros i j Hj%list_elem_of_lookup_2. simpl.
  rewrite <- Hp by done. destruct (p j) eqn:E; [by apply Hf|done].
Qed.

Section Won.
Context (id : UUID) (w : World) (job : DispatchJob).
Hypothesis Hok : jobs_ok (rows (w_jobs w)).
Hypothesis Hin : job ∈ rows (w_jobs w).
Hypothesis Hid : job_ID job = id.
Hypothesis Hsel : selected (claimable id) (rows (w_jobs w)) <> [].

Lemma won_awaiting : awaiting_state (job_State job).
Proof using G GL D DL Hok Hin Hid Hsel.
  destruct (selected (claimable id) (rows (w_jobs w))) as [|j l] eqn:E; [done|].
  assert (j ∈ selected (claimable id) (rows (w_jobs w))) as Hj by (rewrite E; set_solver).
  apply elem_of_selected in Hj as (_ & [Hj Ha]%claimable_iff & Hjin).
  assert (job = j) as -> by (eapply jobs_ok_unique; eauto; congruence). done.
Qed.

Lemma won_is_job j : j ∈ rows (w_jobs w) -> has_id id j = true -> j = job.
Proof using G GL D DL Hok Hin Hid.
  intros Hj Hp%Z.eqb_eq. eapply jobs_ok_unique; eauto. congruence.
Qed.

Lemma claimed_rows_won : claimed_rows id w = update_rows (w_now w) (has_id id) claimed (rows (w_jobs w)).
Proof using G GL D DL Hok Hin Hid Hsel.
  apply update_rows_ext; [|done]. intros j Hj. unfold claimable.
  destruct (has_id id j) eqn:E; [|done]. apply won_is_job in E as ->; [|done].
  by apply awaiting_iff, won_awaiting.
Qed.

Lemma settled_rows_won f :
  update_rows (w_now w) (has_id id) f (claimed_rows id w) =
  update_rows (w_now w) (has_id id) (fun j => f (updated (w_now w) (claimed j))) (rows (w_jobs w)).
Proof using G GL D DL Hok Hin Hid Hsel.
  rewrite claimed_rows_won. unfold update_rows. rewrite <- list_fmap_compose.
  apply list_fmap_ext. intros i j _. simpl. destruct (has_id id j) eqn:E; simpl; [|by rewrite E].
  unfold has_id in *. simpl. by rewrite E.
Qed.

(** The table after replacing the won job by [g job]. *)
Lemma won_table g l :
  (forall j, job_ID (g j) = job_ID j) -> l = update_rows (w_now w) (has_id id) g (rows (w_jobs w)) ->
  (job_ok job -> job_ok (updated (w_now w) (g job))) -> job_evolves job (updated (w_now w) (g job)) ->
  jobs_ok l /\ jobs_evolve (rows (w_jobs w)) l /\
  forall j, j ∈ l -> job_ID j = id -> j = updated (w_now w) (g job).
Proof using G GL D DL Hok Hin Hid.
  intros Hg -> Hgok Hgev. split; [|split].
  - apply update_rows_ok; [done| |done]. intros j Hj Hp. by rewrite (won_is_job j Hj Hp).
  - apply update_rows_evolve. intros j Hj Hp. by rewrite (won_is_job j Hj Hp).
  - intros j Hj Hjid. apply elem_update_id in Hj as (j0 & Hj0 & Hjid0 & ->); [|done|done].
    by rewrite (won_is_job j0) by (done || by apply Z.eqb_eq).
Qed.
End Won.

Lemma awaiting_attempts j :
  job_ok j -> awaiting_state (job_State j) -> 0 <= job_Attempts j < MaxDispatchAttempts.
Proof.
  intros [Hr [[_ H]|[(_ & H & _)|H]]] Ha; [unfold MaxDispatchAttempts; lia|lia|].
  by destruct (retired_not_awaiting j H Ha).
Qed.

Lemma claimed_ok now j :
  awaiting_state (job_State j) -> job_ok j -> job_ok (updated now (claimed j)).
Proof.
  intros Ha Hj. apply awaiting_attempts in Hj as Hb; [|done]. job_simpl. split; [lia|]. auto 10.
Qed.

(** The three ways a claimed job is settled. *)
Lemma settled_ok now j (f : DispatchJob -> DispatchJob) :
  awaiting_state (job_State j) -> job_ok j ->
  (exists e, f = dead e) \/ f = dispatched \/
  (exists e t, f = failed e t /\ job_Attempts j + 1 < MaxDispatchAttempts) ->
  job_ok (updated now (f (updated now (claimed j)))).
Proof.
  intros Ha Hj Hf. apply awaiting_attempts in Hj as Hb; [|done].
  destruct Hf as [[e ->]|[->|(e & t & -> & Hlt)]]; job_simpl.
  - split; [lia|]. auto 10.
  - split; [lia|]. auto 10.
  - split; [lia|]. right. left. split; [done|]. split; [lia|]. by eexists.
Qed.

Lemma awaiting_evolves now j j' :
  awaiting_state (job_State j) -> job_ID j' = job_ID j -> job_PipelineRunID j' = job_PipelineRunID j ->
  job_TargetID j' = job_TargetID j -> job_Payload j' = job_Payload j ->
  job_Attempts j <= job_Attempts j' -> job_evolves j (updated now j').
Proof.
  intros Ha. unfold job_evolves. simpl. repeat split; try done.
  intros Hr. by destruct (retired_not_awaiting j Hr Ha).
Qed.

(** One attempt keeps the table well-formed and only lets jobs evolve; a
    delivered job ends up retired. *)
Lemma attempt_table id job w r w' :
  jobs_ok (rows (w_jobs w)) -> job ∈ rows (w_jobs w) -> job_ID job = id ->
  selected (claimable id) (rows (w_jobs w)) <> [] -> attempt id job w r w' ->
  jobs_ok (rows (w_jobs w')) /\ jobs_evolve (rows (w_jobs w)) (rows (w_jobs w')) /\
  (delivered (w_link w') = delivered (w_link w) \/
   forall j, j ∈ rows (w_jobs w') -> job_ID j = id -> retired j).
Proof.
  intros Hok Hin Hid Hsel Hat.
  pose proof (won_awaiting id w job Hok Hin Hid Hsel) as Haw.
  assert (Hc : forall l, l = claimed_rows id w ->
    jobs_ok l /\ jobs_evolve (rows (w_jobs w)) l /\ forall j, j ∈ l -> job_ID j = id -> retired j).
  { intros l ->.
    destruct (won_table id w job Hok Hin Hid claimed (claimed_rows id w)) as (? & ? & Hu).
    - done.
    - by apply (claimed_rows_won id w job).
    - by apply claimed_ok.
    - apply awaiting_evolves; simpl; try done; lia.
    - split; [done|]. split; [done|]. intros j Hj Hjid. rewrite (Hu j Hj Hjid). by left. }
  assert (Hs : forall f l, l = update_rows (w_now w) (has_id id) f (claimed_rows id w) ->
    (exists e, f = dead e) \/ f = dispatched \/
      (exists e t, f = failed e t /\ job_Attempts job + 1 < MaxDispatchAttempts) ->
    jobs_ok l /\ jobs_evolve (rows (w_jobs w)) l /\
    forall j, j ∈ l -> job_ID j = id -> j = updated (w_now w) (f (updated (w_now w) (claimed job)))).
  { intros f l -> Hf. rewrite (settled_rows_won id w job) by done.
    apply (won_table id w job Hok Hin Hid (fun j => f (updated (w_now w) (claimed j)))).
    - intros j. by destruct Hf as [[e ->]|[->|(e & t & -> & _)]].
    - done.
    - intros Hj. by apply settled_ok.
    - destruct Hf as [[e ->]|[->|(e & t & -> & _)]]; apply awaiting_evolves; simpl; try done; lia. }
  assert (Hset : forall f, settled id f w w' ->
    (exists e, f = dead e) \/ f = dispatched \/
      (exists e t, f = failed e t /\ job_Attempts job + 1 < MaxDispatchAttempts) ->
    jobs_ok (rows (w_jobs w')) /\ jobs_evolve (rows (w_jobs w)) (rows (w_jobs w'))).
  { intros f [E|[E _]] Hf; [by apply (Hs f) in E as (? & ? & _)|by apply Hc in E as (? & ? & _)]. }
  unfold attempt, answer_of in Hat. destruct (UnmarshalE (job_Payload job)) as [p|e].
  - destruct (d_send _ _ _) as [[e|] l] eqn:Es; simpl in Hat; destruct Hat as [Hl Hat].
    + destruct Hat as [_ Hf]. destruct (Hset _ Hf) as [? ?].
      { unfold after_failure. destruct (Z.leb_spec MaxDispatchAttempts (job_Attempts job + 1)); eauto 10. }
      split; [done|]. split; [done|]. left. rewrite Hl. by apply send_err in Es.
    + destruct Hat as [[_ E]|(e & _ & E & _)].
      * apply (Hs dispatched) in E as (? & ? & Hu); [|by auto]. split; [done|]. split; [done|].
        right. intros j Hj Hjid. rewrite (Hu j Hj Hjid). right. by left.
      * apply Hc in E as (? & ? & ?). auto.
  - destruct Hat as (_ & Hl & Hf). destruct (Hset _ Hf) as [? ?]; [eauto|]. rewrite Hl. auto.
Qed.
End Delivery.

(** * Properties of one attempt *)

Section Attempt.
Context {G : Gorm} {GL : GormLaws G} {P : Platform} {D : Dispatcher} {DL : DispatcherLaws D}
  {X : MetaV1}.

(** The row of [id] becomes [j], every other row is as before. *)
Definition job_becomes (id : UUID) (j : DispatchJob) (w w' : World) : Prop :=
  rows (w_jobs w') = update_rows (w_now w) (has_id id) (fun _ => j) (rows (w_jobs w)).

Lemma elem_job_becomes id j w w' x :
  job_becomes id j w w' -> (exists y, y ∈ rows (w_jobs w) /\ job_ID y = id) ->
  x ∈ rows (w_jobs w') <->
  x = updated (w_now w) j \/ (x ∈ rows (w_jobs w) /\ job_ID x <> id).
Proof.
  intros -> (y & Hy & Hyid). unfold update_rows. rewrite list_elem_of_fmap. split.
  - intros (x0 & -> & Hx0). simpl. unfold has_id. destruct (Z.eqb_spec (job_ID x0) id); auto.
  - intros [->|[Hx Hne]].
    + exists y. simpl. unfold has_id. by rewrite (proj2 (Z.eqb_eq _ _) Hyid).
    + exists x. simpl. unfold has_id. by rewrite (proj2 (Z.eqb_neq _ _) Hne).
Qed.

Lemma job_becomes_ok id j w w' :
  job_ID j = id -> job_ok (updated (w_now w) j) -> job_becomes id j w w' ->
  jobs_ok (rows (w_jobs w)) -> jobs_ok (rows (w_jobs w')).
Proof.
  intros Hid Hj -> [Hnd Hall]. split.
  - assert (E : job_ID <$> update_rows (w_now w) (has_id id) (fun _ => j) (rows (w_jobs w)) =
      job_ID <$> rows (w_jobs w)); [|by rewrite E].
    unfold update_rows. rewrite <- list_fmap_compose. apply list_fmap_ext. intros i x _. simpl.
    destruct (has_id id x) eqn:E; [|done]. apply Z.eqb_eq in E. simpl. congruence.
  - apply Forall_forall. rewrite Forall_forall in Hall.
    intros x [(x0 & _ & _ & _ & ->)|[Hx _]]%elem_of_update_rows; auto.
Qed.

Lemma settled_becomes id job f w w' :
  jobs_ok (rows (w_jobs w)) -> job ∈ rows (w_jobs w) -> job_ID job = id ->
  selected (claimable id) (rows (w_jobs w)) <> [] ->
  (forall j, updated (w_now w) (f (updated (w_now w) j)) = updated (w_now w) (f j)) ->
  rows (w_jobs w') = update_rows (w_now w) (has_id id) f (claimed_rows id w) ->
  job_becomes id (f (claimed job)) w w'.
Proof.
  intros Hok Hin Hid Hsel Hf E. unfold job_becomes. rewrite E, (settled_rows_won id w job) by done.
  apply update_rows_ext; [done|]. intros j Hj Hp. rewrite Hf.
  by rewrite (won_is_job id w job Hok Hin Hid j Hj Hp).
Qed.

Lemma settled_healthy id f w w' :
  settled id f w w' -> healthy (w_jobs w) ->
  rows (w_jobs w') = update_rows (w_now w) (has_id id) f (claimed_rows id w).
Proof. intros [H|[_ H]] Hh; [done|contradiction]. Qed.

Lemma selected_awaiting id job l :
  jobs_ok l -> job ∈ l -> job_ID job = id ->
  selected (claimable id) l = [] <-> awaiting job = false.
Proof.
  intros Hok Hin Hid. split.
  - intros E. apply not_true_is_false. intros Ha. apply (not_elem_of_nil job).
    rewrite <- E. apply elem_of_selected. split; [done|]. split; [|done].
    apply claimable_iff. split; [done|]. by apply awaiting_iff.
  - intros Ha. destruct (selected _ _) as [|j l'] eqn:E; [done|].
    assert (j ∈ selected (claimable id) l) as (_ & [Hj Hja]%claimable_iff & Hjl)%elem_of_selected
      by (rewrite E; set_solver).
    assert (j = job) as -> by (eapply jobs_ok_unique; eauto; congruence).
    apply awaiting_iff in Hja. congruence.
Qed.

(** The job row after an attempt that claimed it, given the link's answer. *)
Definition job_after (job : DispatchJob) (w : World) : DispatchJob :=
  match UnmarshalE (A := ApplyPipelineRunPayload) (job_Payload job) with
  | Err e => dead ("corrupt payload: " +:+ Error e) (claimed job)
  | Ok p => match (answer_of job p w).1 with
            | Some e => after_failure job e (w_now w) (claimed job)
            | None => dispatched (claimed job)
            end
  end.

Definition link_after (job : DispatchJob) (w : World) : Link :=
  match UnmarshalE (A := ApplyPipelineRunPayload) (job_Payload job) with
  | Err _ => w_link w
  | Ok p => (answer_of job p w).2
  end.

Definition result_after (job : DispatchJob) (w : World) : Result unit :=
  match UnmarshalE (A := ApplyPipelineRunPayload) (job_Payload job) with
  | Err e => Err e
  | Ok p => match (answer_of job p w).1 with Some e => Err e | None => Ok tt end
  end.

Lemma tryDeliver_functional id job w :
  jobs_ok (rows (w_jobs w)) -> healthy (w_jobs w) -> job ∈ rows (w_jobs w) -> job_ID job = id ->
  wp (tryDeliver id) (fun r w' =>
    jobs_only w w' /\
    if awaiting job
    then r = result_after job w /\ w_link w' = link_after job w /\
         job_becomes id (job_after job w) w w'
    else r = Ok tt /\ same w w') w.
Proof.
  intros Hok Hh Hin Hid. eapply wp_mono; [apply tryDeliver_spec|]. simpl.
  intros r w' [[Hs Hidle]|(Ho & job' & Hin' & Hid' & Huns & Hsel & Hat)].
  - split; [by apply jobs_only_same|]. assert (awaiting job = false /\ r = Ok tt) as [-> ->]; [|done].
    destruct Hidle as [[-> [E|(j & Hj & Hjid & Hu)]]|(e & -> & He)].
    + split; [|done]. by apply (selected_awaiting id job _ Hok Hin Hid).
    + split; [|done]. assert (j = job) as -> by (eapply jobs_ok_unique; eauto; congruence).
      apply not_true_is_false. intros Ha%awaiting_iff. apply Hu. unfold unsettled.
      by destruct Ha as [-> | ->].
    + exfalso. apply (proj2 (He Hh)). apply list_elem_of_fmap. by exists job.
  - split; [done|]. assert (job' = job) as -> by (eapply jobs_ok_unique; eauto; congruence).
    assert (awaiting job = true) as ->.
    { apply awaiting_iff, (won_awaiting id w job Hok Hin Hid Hsel). }
    unfold attempt in Hat. unfold result_after, link_after, job_after.
    pose proof (fun f => settled_becomes id job f w w' Hok Hin Hid Hsel) as Hb.
    destruct (UnmarshalE (job_Payload job)) as [p|e].
    + destruct Hat as [Hl Hat]. destruct (answer_of job p w).1 as [e|].
      * destruct Hat as [-> Hset]. split; [done|]. split; [done|].
        apply Hb; [|by apply settled_healthy]. intros j. unfold after_failure.
        by destruct (MaxDispatchAttempts <=? _).
      * destruct Hat as [[-> Hr]|(e & _ & _ & ?)]; [|done]. split; [done|]. split; [done|].
        by apply Hb.
    + destruct Hat as (-> & Hd & Hset). split; [done|]. split; [done|].
      apply Hb; [done|by apply settled_healthy].
Qed.
End Attempt.

(** * The queue as a transition system *)

Section Queue.
Context {G : Gorm} {GL : GormLaws G} {P : Platform} {D : Dispatcher} {DL : DispatcherLaws D}
  {X : MetaV1}.

(** The runs handed to Runners so far. *)
Definition applies (w : World) : list (UUID * ApplyPipelineRunPayload) :=
  omap (fun m => match m.2 with MessageApplyPipelineRun p => Some (m.1, p) | _ => None end)
    (delivered (w_link w)).

(** One statement-level event of the queue; the label is the job whose payload
    reached a Runner.  The last rule is everything else that happens in the
    hub, the passage of time included. *)
Inductive queue_step (w : World) : option UUID -> World -> Prop :=
| qs_attempt id r w' :
    tryDeliver id w = (r, w') -> delivered (w_link w') = delivered (w_link w) ->
    queue_step w None w'
| qs_deliver id r w' :
    tryDeliver id w = (r, w') -> delivered (w_link w') <> delivered (w_link w) ->
    queue_step w (Some id) w'
| qs_insert now runID targetID payload state j w' :
    state = DispatchJobPending \/ state = DispatchJobHeld ->
    inserted now (rows (w_jobs w)) (new_job runID targetID payload state) j ->
    rows (w_jobs w') = rows (w_jobs w) ++ [j] -> applies w' = applies w -> queue_step w None w'
| qs_release now runID w' :
    rows (w_jobs w') = update_rows now (held_of runID) released (rows (w_jobs w)) ->
    applies w' = applies w -> queue_step w None w'
| qs_retire now id e w' :
    rows (w_jobs w') = update_rows now (has_id id) (dead e) (rows (w_jobs w)) ->
    applies w' = applies w -> queue_step w None w'
| qs_other w' : rows (w_jobs w') = rows (w_jobs w) -> applies w' = applies w -> queue_step w None w'.

(** Traces, with the jobs delivered along them. *)
Inductive queue_trace (w : World) : list UUID -> World -> Prop :=
| qt_nil : queue_trace w [] w
| qt_cons l w1 ids w2 :
    queue_step w l w1 -> queue_trace w1 ids w2 -> queue_trace w (option_list l ++ ids) w2.

Lemma queue_trace_app w1 ids1 w2 ids2 w3 :
  queue_trace w1 ids1 w2 -> queue_trace w2 ids2 w3 -> queue_trace w1 (ids1 ++ ids2) w3.
Proof.
  induction 1 as [w|w l w1' ids w2' Hs _ IH]; intros Ht; [done|].
  rewrite <- app_assoc. econstructor; [exact Hs|]. by apply IH.
Qed.

Lemma queue_trace_one w l w' : queue_step w l w' -> queue_trace w (option_list l) w'.
Proof. intros Hs. rewrite <- (app_nil_r (option_list l)). econstructor; [exact Hs|constructor]. Qed.

(** The job [id] was claimable and its payload went to its target. *)
Definition sent_job (id : UUID) (w w' : World) : Prop :=
  exists j p, j ∈ rows (w_jobs w) /\ job_ID j = id /\ awaiting_state (job_State j) /\
    UnmarshalE (job_Payload j) = Ok p /\ applies w' = applies w ++ [(job_TargetID j, p)].

(** What one event may do. *)
Definition step_safe (w : World) (l : option UUID) (w' : World) : Prop :=
  jobs_ok (rows (w_jobs w')) /\ jobs_evolve (rows (w_jobs w)) (rows (w_jobs w')) /\
  match l with
  | None => applies w' = applies w
  | Some id => sent_job id w w' /\ forall j, j ∈ rows (w_jobs w') -> job_ID j = id -> retired j
  end.

Lemma applies_sent w w' t m :
  delivered (w_link w') = delivered (w_link w) ++ [(t, m)] ->
  applies w' = applies w ++
    match m with MessageApplyPipelineRun p => [(t, p)] | _ => [] end.
Proof. intros E. unfold applies. rewrite E, omap_app. by destruct m. Qed.

Lemma applies_same w w' : delivered (w_link w') = delivered (w_link w) -> applies w' = applies w.
Proof. intros E. unfold applies. by rewrite E. Qed.

Lemma attempt_safe id r w w' :
  jobs_ok (rows (w_jobs w)) -> tryDeliver id w = (r, w') ->
  (delivered (w_link w') = delivered (w_link w) -> step_safe w None w') /\
  (delivered (w_link w') <> delivered (w_link w) -> step_safe w (Some id) w').
Proof.
  intros Hok E. pose proof (tryDeliver_spec id w) as Hs. rewrite wp_run in Hs. apply Hs in E.
  destruct E as [[Hsame _]|(Ho & job & Hin & Hid & _ & Hsel & Hat)].
  - destruct Hsame as [? ? ? ? ? ? ? [Hr _] ? ? ? ? Hl]. split; [|by rewrite Hl].
    intros Hd. unfold step_safe. rewrite Hr. split; [done|]. split; [reflexivity|].
    by apply applies_same.
  - destruct (attempt_table id job w r w') as (? & ? & Hd); try done.
    split; [intros ?; split; [done|]; split; [done|]; by apply applies_same|].
    intros Hne. split; [done|]. split; [done|]. split; [|by destruct Hd].
    pose proof (won_awaiting id w job Hok Hin Hid Hsel) as Ha.
    apply attempt_delivered in Hat as [?|(p & EU & _ & Hsent)]; [done|]. exists job, p.
    do 4 (split; [done|]). exact (applies_sent _ _ _ _ Hsent).
Qed.

Lemma queue_step_safe w l w' : jobs_ok (rows (w_jobs w)) -> queue_step w l w' -> step_safe w l w'.
Proof.
  intros Hok [id r w1 E Hd|id r w1 E Hd|now runID targetID payload state j w1 Hst Hins Hr Ha
             |now runID w1 Hr Ha|now id e w1 Hr Ha|w1 Hr Ha].
  - apply attempt_safe in E as [? _]; auto.
  - apply attempt_safe in E as [_ ?]; auto.
  - unfold step_safe. rewrite Hr. destruct Hins as (id & Hnil & Hnew & _ & ->).
    destruct Hok as [Hnd Hall]. split; [split|split; [|done]].
    + rewrite fmap_app. apply NoDup_app. split; [done|]. split; [|apply NoDup_singleton].
      intros x Hx ->%list_elem_of_singleton. simpl in Hx. contradiction.
    + apply Forall_app. split; [done|]. apply Forall_singleton.
      split; [unfold MaxDispatchAttempts; simpl; lia|]. left. simpl.
      destruct Hst as [-> | ->]; simpl; auto.
    + intros j Hj. exists j. split; [set_solver|done].
  - unfold step_safe. rewrite Hr. split; [|split; [|done]].
    + apply update_rows_ok; [done| |done]. intros j _ [_ Hst%String.eqb_eq]%andb_true_iff Hj.
      destruct Hj as [Hn [[_ H0]|[(Hc & _)|Hc]]]; job_simpl;
        [split; [lia|auto] | by rewrite Hst in Hc | ].
      by destruct Hc as [Hc|[Hc|Hc]]; rewrite Hst in Hc.
    + apply update_rows_evolve. intros j _ [_ Hst%String.eqb_eq]%andb_true_iff.
      job_simpl. repeat split; try done. rewrite Hst. by intros [?|[?|?]].
  - unfold step_safe. rewrite Hr. split; [|split; [|done]].
    + apply update_rows_ok; [done| |done]. intros j _ _ [Hn _]. job_simpl. auto 10.
    + apply update_rows_evolve. intros j _ _. job_simpl. repeat split; try done. auto.
  - unfold step_safe. rewrite Hr. split; [done|]. by split.
Qed.

(** A retired job is not delivered any more. *)
Lemma queue_trace_retired w ids w' :
  queue_trace w ids w' -> jobs_ok (rows (w_jobs w)) ->
  jobs_ok (rows (w_jobs w')) /\ jobs_evolve (rows (w_jobs w)) (rows (w_jobs w')) /\
  forall j, j ∈ rows (w_jobs w) -> retired j -> job_ID j ∉ ids.
Proof.
  induction 1 as [w|w l w1 ids w2 Hs _ IH]; intros Hok.
  - split; [done|]. split; [reflexivity|]. intros. apply not_elem_of_nil.
  - apply queue_step_safe in Hs as (Hok1 & Hev & Hl); [|done].
    destruct (IH Hok1) as (Hok2 & Hev2 & Hret). split; [done|].
    split; [by etransitivity|]. intros j Hj Hr. destruct (Hev j Hj) as (j1 & Hj1 & E1).
    destruct E1 as (Hid1 & _ & _ & _ & _ & Hr1).
    intros [Hin|Hin]%elem_of_app; [|rewrite <- Hid1 in Hin; by eapply Hret; eauto].
    destruct l as [id|]; [|set_solver]. apply list_elem_of_singleton in Hin as Hjid. subst.
    destruct Hl as [(j0 & p & Hj0 & Hid0 & Ha & _) _].
    assert (j0 = j) as -> by exact (jobs_ok_unique _ _ _ Hok Hj0 Hj Hid0).
    exact (retired_not_awaiting j Hr Ha).
Qed.

Lemma queue_trace_nodup w ids w' :
  queue_trace w ids w' -> jobs_ok (rows (w_jobs w)) -> NoDup ids.
Proof.
  induction 1 as [w|w l w1 ids w2 Hs Ht IH]; intros Hok; [constructor|].
  apply queue_step_safe in Hs as (Hok1 & Hev & Hl); [|done].
  destruct l as [id|]; [|by apply IH]. simpl. apply NoDup_cons. split; [|by apply IH].
  destruct Hl as [(j0 & p & Hj0 & Hid0 & Ha & _) Hret].
  destruct (Hev j0 Hj0) as (j1 & Hj1 & Hid1 & _).
  destruct (queue_trace_retired _ _ _ Ht Hok1) as (_ & _ & Hr).
  rewrite Hid0 in Hid1. rewrite <- Hid1. apply Hr; [done|]. apply Hret; [done|congruence].
Qed.

(** What was sent along a trace: to each label's target, its stored payload. *)
Definition sent_as (l : list DispatchJob) (id : UUID) (m : UUID * ApplyPipelineRunPayload) : Prop :=
  exists j, j ∈ l /\ job_ID j = id /\ job_TargetID j = m.1 /\ UnmarshalE (job_Payload j) = Ok m.2.

Lemma sent_as_evolve l l' id m : jobs_evolve l l' -> sent_as l id m -> sent_as l' id m.
Proof.
  intros Hev (j & Hj & Hid & Ht & Hp). destruct (Hev j Hj) as (j' & Hj' & Eid & _ & Et & Epl & _).
  exists j'. rewrite Eid, Et, Epl. done.
Qed.

Lemma queue_trace_sent w ids w' :
  queue_trace w ids w' -> jobs_ok (rows (w_jobs w)) ->
  exists sent, applies w' = applies w ++ sent /\ Forall2 (sent_as (rows (w_jobs w'))) ids sent.
Proof.
  induction 1 as [w|w l w1 ids w2 Hs Ht IH]; intros Hok.
  - exists []. rewrite app_nil_r. split; [done|constructor].
  - apply queue_step_safe in Hs as (Hok1 & Hev & Hl); [|done].
    destruct (IH Hok1) as (sent & E & Hsent).
    destruct (queue_trace_retired _ _ _ Ht Hok1) as (_ & Hev2 & _).
    destruct l as [id|]; [|exists sent; by rewrite <- Hl].
    destruct Hl as [(j & p & Hj & Hid & _ & Hp & Ea) _]. exists ((job_TargetID j, p) :: sent).
    split; [by rewrite E, Ea, <- app_assoc|]. constructor; [|done].
    apply (sent_as_evolve _ _ _ _ Hev2), (sent_as_evolve _ _ _ _ Hev). by exists j.
Qed.

(** ** The handlers are made of these events *)

Definition by_events {A} (m : M World A) : Prop :=
  forall w, exists ids, queue_trace w ids (m w).2.

Lemma ev_ret {A} (a : A) : by_events (ret a).
Proof. intros w. exists []. constructor. Qed.
Lemma ev_bind {A B} (m : M World A) (k : A -> M World B) :
  by_events m -> (forall a, by_events (k a)) -> by_events (bind m k).
Proof.
  intros Hm Hk w. unfold bind. destruct (Hm w) as [ids1 H1]. destruct (m w) as [a w1].
  destruct (Hk a w1) as [ids2 H2]. exists (ids1 ++ ids2). by eapply queue_trace_app.
Qed.
Lemma ev_try {E A B} (m : M World (Res E A)) (k : A -> M World (Res E B)) :
  by_events m -> (forall a, by_events (k a)) -> by_events (try_bind m k).
Proof. intros Hm Hk. apply ev_bind; [done|]. intros [a|e]; [apply Hk|apply ev_ret]. Qed.
Lemma ev_for_each {A} (l : list A) (body : A -> M World unit) :
  (forall a, by_events (body a)) -> by_events (for_each l body).
Proof. intros Hb. induction l as [|a l IH]; [apply ev_ret|]. apply ev_bind; auto. Qed.
Lemma ev_for_each_err {E A} (l : list A) (body : A -> M World (Res E unit)) :
  (forall a, by_events (body a)) -> by_events (for_each_err l body).
Proof. intros Hb. induction l as [|a l IH]; [apply ev_ret|]. apply ev_try; auto. Qed.
Lemma ev_fold {E A B} (l : list A) (body : B -> A -> M World (Res E B)) acc :
  (forall b a, by_events (body b a)) -> by_events (fold_err l acc body).
Proof.
  intros Hb. revert acc. induction l as [|a l IH]; intros acc; [apply ev_ret|]. apply ev_try; auto.
Qed.
Lemma ev_ignore {A} (m : M World A) : by_events m -> by_events (ignore m).
Proof. intros Hm. apply ev_bind; [done|]. intros. apply ev_ret. Qed.
Lemma ev_call_opt {A} (f : option A) (k : A -> M World unit) :
  (forall g, f = Some g -> by_events (k g)) -> by_events (call_opt f k).
Proof. intros Hk. destruct f as [g|]; [by apply Hk|apply ev_ret]. Qed.

Lemma ev_other {A} (m : M World A) :
  (forall w, rows (w_jobs (m w).2) = rows (w_jobs w) /\ applies (m w).2 = applies w) -> by_events m.
Proof. intros H w. exists []. destruct (H w). apply (queue_trace_one w None). by apply qs_other. Qed.
Lemma ev_quiet {A} (m : M World A) : Quiet m -> by_events m.
Proof.
  intros Hm. apply ev_other. intros w. destruct (Hm w) as [? ? ? ? ? ? ? [? _] ? ? ? ? Hl].
  split; [done|]. apply applies_same. by rewrite Hl.
Qed.

(** A field the queue does not live in. *)
Class OffQueue {R} (proj : World -> R) {S : Setter proj} : Prop :=
  off_queue : forall w t, w_jobs (set_field proj (fun _ => t) w) = w_jobs w /\
                          w_link (set_field proj (fun _ => t) w) = w_link w.

Lemma ev_zoom {R A} (proj : World -> R) {S : Setter proj} {O : OffQueue proj} (m : M R A) :
  by_events (zoom proj m).
Proof.
  apply ev_other. intros w. unfold zoom. destruct (m (proj w)) as [a t]. simpl.
  destruct (off_queue w t) as [Hj Hl]. unfold applies. by rewrite Hj, Hl.
Qed.
Lemma ev_stmt {R A} (proj : World -> R) {S : Setter proj} {O : OffQueue proj} (m : Time -> M R A) :
  by_events (stmt proj m).
Proof. apply ev_bind; [apply ev_quiet, quiet_now|]. intros now. by apply (ev_zoom proj). Qed.

(** Any message but an apply. *)
Definition is_apply (m : HubMessage) : bool :=
  match m with MessageApplyPipelineRun _ => true | _ => false end.

Lemma ev_send t m : is_apply m = false -> by_events (send t m).
Proof.
  intros Hm. apply ev_other. intros w. unfold send, zoom.
  destruct (d_send t m (w_link w)) as [r l] eqn:E. simpl. split; [done|].
  set (w' := set_field w_link (fun _ => l) w).
  destruct r as [e|].
  - apply applies_same. by apply send_err in E.
  - apply send_ok in E as [E _]. rewrite (applies_sent w w' t m E). destruct m; try done;
      by rewrite app_nil_r.
Qed.

Lemma ev_tryDeliver id : by_events (tryDeliver id).
Proof.
  intros w. destruct (tryDeliver id w) as [r w'] eqn:E. simpl.
  destruct (decide (length (delivered (w_link w')) = length (delivered (w_link w)))) as [Hl|Hl].
  - exists []. pose proof (tryDeliver_spec id w) as Hs. rewrite wp_run in Hs.
    apply (queue_trace_one w None). eapply qs_attempt; [exact E|].
    apply Hs in E as [[[] _]|(_ & job & _ & _ & _ & _ & Hat)]; [congruence|].
    apply attempt_delivered in Hat as [?|(p & _ & _ & Hd)]; [done|]. exfalso.
    rewrite Hd, length_app in Hl. simpl in Hl. lia.
  - exists [id]. apply (queue_trace_one w (Some id)). eapply qs_deliver; [exact E|]. congruence.
Qed.

(** A statement on the job table that is one of the queue's events. *)
Lemma ev_job_stmt {A} (m : Time -> M (Table DispatchJob) A) :
  (forall w, wp (m (w_now w)) (fun _ t' => rows t' = rows (w_jobs w) \/
     forall w', rows (w_jobs w') = rows t' -> applies w' = applies w -> queue_step w None w') (w_jobs w)) ->
  by_events (stmt w_jobs m).
Proof.
  intros Hm w. apply (wp_stmt w_jobs _ (fun _ w' => exists ids, queue_trace w ids w')).
  eapply wp_mono; [apply Hm|]. intros a t' Ht. exists [].
  apply (queue_trace_one w None). destruct Ht as [Hr|Hs]; [by apply qs_other|by apply Hs].
Qed.

Lemma ev_create runID targetID payload state :
  state = DispatchJobPending \/ state = DispatchJobHeld ->
  by_events (stmt w_jobs (fun now => Create now (new_job runID targetID payload state))).
Proof.
  intros Hst. apply ev_job_stmt. intros w. apply wp_Create.
  - intros j t' _ Hins Hr. right. intros w' Hw Ha. eapply qs_insert; [done|done| |done]. congruence.
  - intros e t' [Hr _]. by left.
Qed.

Lemma ev_release runID : by_events (stmt w_jobs (fun now => ReleaseHeld now runID)).
Proof.
  apply ev_job_stmt. intros w. apply wp_Updates.
  - intros t' _ Hr. right. intros w' Hw Ha. eapply qs_release; [|done]. by rewrite Hw.
  - intros e t' [Hr _] _. by left.
Qed.

Lemma ev_retire (id : UUID) e : by_events (stmt w_jobs (fun now => MarkDead now id e)).
Proof.
  apply ev_job_stmt. intros w. apply wp_Updates.
  - intros t' _ Hr. right. intros w' Hw Ha. eapply qs_retire; [|done]. by rewrite Hw.
  - intros e' t' [Hr _] _. by left.
Qed.

Lemma ev_read {A} (m : M (Table DispatchJob) A) : TRead m -> by_events (zoom w_jobs m).
Proof. intros Hm. by apply ev_quiet, quiet_zoom; [apply _|]. Qed.
End Queue.

#[export] Hint Extern 1 (OffQueue _) => (intros ? ?; by split) : typeclass_instances.

(** Decomposes a handler into queue events, following its text. *)
Create HintDb events.
Ltac event_step :=
  match goal with
  | |- by_events (ret _) => apply ev_ret
  | |- by_events (bind _ _) => apply ev_bind; [|intros ?]
  | |- by_events (try_bind _ _) => apply ev_try; [|intros ?]
  | |- by_events (for_each _ _) => apply ev_for_each; intros ?
  | |- by_events (for_each_err _ _) => apply ev_for_each_err; intros ?
  | |- by_events (fold_err _ _ _) => apply ev_fold; intros ? ?
  | |- by_events (ignore _) => apply ev_ignore
  | |- by_events (call_opt _ _) => apply ev_call_opt; intros ? ?
  | |- by_events (tryDeliver _) => apply ev_tryDeliver
  | |- by_events (send _ _) => apply ev_send; reflexivity
  | |- by_events (stmt w_jobs (fun _ => ReleaseHeld _ _)) => apply ev_release
  | |- by_events (stmt w_jobs (fun _ => MarkDead _ _ _)) => apply ev_retire
  | |- by_events (stmt w_jobs (fun _ => Create _ _)) => apply ev_create; by (left + right)
  | |- by_events (stmt w_jobs _) => apply ev_quiet; quiet
  | |- by_events (zoom w_jobs _) => apply ev_read; quiet
  | |- by_events (stmt _ _) => apply ev_stmt; apply _
  | |- by_events (zoom _ _) => apply ev_zoom; apply _
  | |- by_events time_Now => apply ev_quiet, quiet_now
  | |- by_events uuid_new => apply ev_quiet, quiet_uuid
  | |- by_events get => apply ev_quiet, quiet_get
  | |- by_events (match ?x with _ => _ end) => destruct x
  end.
Ltac events := repeat first [event_step | solve [auto with events nocore]].
