(* ===== verification/TriggerTheory.v ===== *)
(** Lemmas on triggering: what admission reads, what the creation of a run
    writes, and what it leaves alone. *)
From stdpp Require Import base list strings gmap sorting.
From Stdlib Require Import ZArith Lia.
From S2P Require Import Prelude Common Gorm Json RunnerProto RunStore PipelineStore TargetStore.
From S2P Require Import World WorldLogic RunParams RunSpec RunDispatch RunTrigger Frames.
From S2P Require Import DispatchTheory.
Import DispatchJobRepository.

Open Scope Z_scope.

Section Trigger.
Context {G : Gorm} {GL : GormLaws G} {P : Platform} {D : Dispatcher} {DL : DispatcherLaws D}
  {X : MetaV1}.

(** Collaborators that write nothing in the hub's own state. *)
Record collaborators_quiet (s : PipelineRunService) : Prop := mkCollaboratorsQuiet {
  q_vars : forall v, varSource s = Some v ->
    (forall c, Quiet (ComponentParams v c)) /\ (forall c, Quiet (GroupParams v c));
  q_meta : forall f, componentMeta s = Some f -> forall p, Quiet (f p);
  q_env : forall f, environmentMeta s = Some f -> forall c t n, Quiet (f c t n);
  q_policy : forall f, productionPolicy s = Some f -> forall l, Quiet (f l);
  q_sink : forall f, notifySink s = Some f -> forall a b c d, Quiet (f a b c d);
  q_window : forall f, changeWindowGuard s = Some f -> Quiet f;
  q_guard : forall f, componentGuard s = Some f -> forall c, Quiet (f c);
}.

(** ** Admission *)

Definition is_active (pid : UUID) (r : PipelineRun) : bool :=
  (run_PipelineID r =? pid) && bool_decide (run_Phase r ∈ activeRunPhases).

Definition active_runs (pid : UUID) (w : World) : Z :=
  Z.of_nat (length (selected (is_active pid) (rows (w_runs w)))).

Lemma active_runs_same pid w w' : same w w' -> active_runs pid w' = active_runs pid w.
Proof. intros []. unfold active_runs. by destruct same_runs as [-> _]. Qed.

Lemma wp_count_active pid w :
  wp (count_active pid) (fun r w' => same w w' /\
    match r with Ok n => n = active_runs pid w | Err _ => ~ healthy (w_runs w) end) w.
Proof.
  unfold count_active. apply wp_bind, (wp_zoom w_runs). simpl. apply wp_Count.
  - intros t' Ht. apply wp_ret. split; [by apply field_same|done].
  - intros e t' Ht Hh. apply wp_ret. split; [by apply field_same|done].
Qed.

Lemma wp_policy pid w :
  wp (concurrencyPolicyOf pid) (fun r w' => same w w' /\
    match r with
    | Ok policy => exists p, p ∈ rows (w_pipelines w) /\ alive p = true /\ pl_ID p = pid /\
                             policy = pl_ConcurrencyPolicy p
    | Err _ => healthy (w_pipelines w) ->
               forall p, p ∈ rows (w_pipelines w) -> alive p = true -> pl_ID p <> pid
    end) w.
Proof.
  unfold concurrencyPolicyOf. apply wp_bind, (wp_zoom w_pipelines), wp_First.
  - intros p t' Ht Ha Hid%Z.eqb_eq Hin. apply wp_ret. split; [by apply field_same|]. by exists p.
  - intros e t' Ht Hh Hs _. apply wp_ret. split; [by apply field_same|].
    intros HH p Hp Ha Hid. apply (not_elem_of_nil p). rewrite <- (Hs (Hh HH)).
    apply elem_of_selected. split; [done|]. split; [by apply Z.eqb_eq|done].
Qed.

(** The phase the policy gives a new run when [n] are active. *)
Definition admitted_phase (s : PipelineRunService) (policy : string) (n : Z) : PipelineRunPhase :=
  if String.eqb policy ConcurrencyQueue && (concurrencyLimit s <=? n)
  then PipelineRunPendingQueue else PipelineRunPending.

Lemma admitted_phase_default s policy n :
  default_str PipelineRunPending (admitted_phase s policy n) = admitted_phase s policy n.
Proof. unfold admitted_phase. by destruct (_ && _). Qed.

Lemma wp_guard pid policy w :
  wp (guardConcurrency pid policy) (fun r w' => same w w' /\
    match r with
    | Ok _ => policy = ConcurrencyForbid -> active_runs pid w = 0
    | Err e => policy = ConcurrencyForbid /\
        (healthy (w_runs w) -> e = ErrConcurrencyForbidden pid (active_runs pid w))
    end) w.
Proof.
  unfold guardConcurrency. destruct (String.eqb_spec policy ConcurrencyForbid) as [Hp|Hp]; simpl.
  2: { apply wp_ret. split; [reflexivity|done]. }
  apply wp_try. eapply wp_mono; [apply wp_count_active|]. intros [n|e] w' [Hs Hn]; simpl.
  - subst n. destruct (Z.leb_spec 1 (active_runs pid w)); apply wp_ret.
    + done.
    + split; [done|]. intros _. unfold active_runs in *. lia.
  - split; [done|]. split; [done|]. intros Hh. by destruct Hn.
Qed.

Lemma wp_initial_phase s pid policy w :
  wp (initial_phase s pid policy) (fun r w' => same w w' /\
    match r with
    | Ok phase => phase = admitted_phase s policy (active_runs pid w)
    | Err _ => ~ healthy (w_runs w)
    end) w.
Proof.
  unfold initial_phase, admitted_phase. destruct (String.eqb policy ConcurrencyQueue); simpl.
  2: { apply wp_ret. split; [reflexivity|done]. }
  unfold shouldQueue. apply wp_try, wp_try. eapply wp_mono; [apply wp_count_active|].
  intros [n|e] w' [Hs Hn]; [|done]. subst n. apply wp_ret. by apply wp_ret.
Qed.

(** ** What the creation of a run writes *)

Definition seeded (run : PipelineRun) (t : PipelineTaskSpec) (r : TaskRun) : Prop :=
  task_PipelineRunID r = run_ID run /\ task_TaskName r = ts_Name t /\ task_StageName r = ts_Stage t /\
  task_Type r = ts_Type t /\ task_Phase r = TaskRunPending /\ task_RetryCount r = 0.

Lemma wp_seed_tasks run tasks w :
  uuid_Nil ∉ (task_ID <$> rows (w_tasks w)) ->
  wp (seed_tasks run tasks) (fun r w' => r = Ok tt -> exists l,
    rows (w_tasks w') = rows (w_tasks w) ++ l /\ Forall2 (seeded run) tasks l) w.
Proof.
  revert w. induction tasks as [|t tasks IH]; intros w Hnil.
  - apply wp_ret. intros _. exists []. rewrite app_nil_r. split; [done|constructor].
  - apply wp_try, wp_try, wp_stmt, wp_Save_new; [done| |by intros].
    intros r' t' _ (id & Hid & _ & _ & ->) Hr. apply wp_ret. simpl.
    eapply wp_mono; [apply IH|].
    + simpl. rewrite Hr, fmap_app. simpl. rewrite elem_of_app. intros [?|?]; [done|]. set_solver.
    + simpl. intros r w' H Hok. destruct (H Hok) as (l & El & Hl). rewrite Hr in El.
      eexists. rewrite El, <- app_assoc. split; [done|]. by constructor.
Qed.

(** The stored row of this id, which later lookups find. *)
Definition stored (run : PipelineRun) (w : World) : Prop :=
  run ∈ rows (w_runs w) /\ forall r, r ∈ rows (w_runs w) -> run_ID r = run_ID run -> r = run.

Lemma wp_dispatchState run w :
  stored run w -> healthy (w_runs w) ->
  wp (dispatchStateForRun (run_ID run)) (fun st w' => same w w' /\
    st = if String.eqb (run_Phase run) PipelineRunPendingQueue
         then DispatchJobHeld else DispatchJobPending) w.
Proof.
  intros [Hin Huniq] Hh. unfold dispatchStateForRun. apply wp_bind, (wp_zoom w_runs), wp_First.
  - intros r t' Ht _ Hid%Z.eqb_eq Hr. apply wp_ret. split; [by apply field_same|].
    by rewrite (Huniq r Hr Hid).
  - intros e t' Ht He Hs _. exfalso. apply (not_elem_of_nil run). rewrite <- (Hs (He Hh)).
    apply elem_of_selected. split; [done|]. split; [by apply Z.eqb_eq|done].
Qed.

(** The job of a new run: held for a queued run, else attempted once. *)
Definition first_dispatch (run : PipelineRun) (tid : UUID) (apply_ : ApplyPipelineRunPayload)
    (w w' : World) (job : DispatchJob) : Prop :=
  job_PipelineRunID job = run_ID run /\ job_TargetID job = tid /\ job_Payload job = Marshal apply_ /\
  let answer := d_send tid (MessageApplyPipelineRun apply_) (w_link w) in
  if String.eqb (run_Phase run) PipelineRunPendingQueue
  then job_State job = DispatchJobHeld /\ job_Attempts job = 0 /\ w_link w' = w_link w
  else w_link w' = answer.2 /\ job_Attempts job = 1 /\
       match answer.1 with
       | None => job_State job = DispatchJobDispatched
       | Some _ => job_State job = DispatchJobFailed /\
                   job_NextRetryAt job = Some (w_now w + 30 * Second)
       end.

Lemma job_becomes_snoc id j j0 l w w' :
  rows (w_jobs w) = l ++ [j0] -> job_ID j0 = id -> id ∉ (job_ID <$> l) ->
  job_becomes id j w w' -> rows (w_jobs w') = l ++ [updated (w_now w) j].
Proof.
  intros Hr Hid Hnew ->. rewrite Hr. unfold update_rows. rewrite fmap_app. f_equal.
  - rewrite <- (list_fmap_id l) at 2. apply list_fmap_ext. intros i x Hx. simpl. unfold has_id.
    destruct (Z.eqb_spec (job_ID x) id) as [E|]; [|done]. exfalso. apply Hnew.
    apply list_elem_of_fmap. exists x. split; [done|by eapply list_elem_of_lookup_2].
  - simpl. unfold has_id. by rewrite (proj2 (Z.eqb_eq _ _) Hid).
Qed.

Context {XL : MetaV1Laws X}.

Lemma wp_enqueue run tid apply_ w :
  stored run w -> healthy (w_runs w) -> jobs_ok (rows (w_jobs w)) -> healthy (w_jobs w) ->
  wf (apply_Spec apply_) ->
  wp (enqueueDispatch (run_ID run) tid apply_) (fun r w' => r = Ok tt ->
    exists job, rows (w_jobs w') = rows (w_jobs w) ++ [job] /\
                first_dispatch run tid apply_ w w' job) w.
Proof.
  intros Hst Hhr Hok Hh Hwf. unfold enqueueDispatch. apply wp_bind.
  eapply wp_mono; [by apply wp_dispatchState|]. intros st w1 [Hs Est]. simpl.
  apply wp_try, wp_stmt, wp_Create; [|by intros].
  intros j t1 Hht Hins Hr. apply wp_bind, wp_bind.
  assert (Hr1 : rows (w_jobs w1) = rows (w_jobs w)) by (by destruct Hs as [? ? ? ? ? ? ? [? _]]).
  assert (Hh1 : healthy (w_jobs w1)) by (destruct Hs as [? ? ? ? ? ? ? [_ H]]; auto).
  set (w2 := set_field w_jobs (fun _ => t1) w1).
  assert (Hst' : st = DispatchJobPending \/ st = DispatchJobHeld)
    by (subst st; destruct (String.eqb _ _); auto).
  destruct (queue_step_safe w1 None w2) as (Hok2 & _ & _).
  { by rewrite Hr1. }
  { by eapply qs_insert. }
  assert (Hj2 : j ∈ rows (w_jobs w2)) by (simpl; rewrite Hr; set_solver).
  eapply wp_mono; [apply (tryDeliver_functional (job_ID j) j w2 Hok2); auto; by apply Hht|].
  intros r w' [_ Hout]. apply wp_ret, wp_ret. intros _.
  assert (Hlink : w_link w2 = w_link w) by (by destruct Hs).
  assert (Hnow : w_now w2 = w_now w) by (by destruct Hs).
  destruct Hins as (id & Hnil & Hnew & _ & Ej).
  assert (Hstate : job_State j = st) by (rewrite Ej; by destruct Hst' as [-> | ->]).
  destruct (awaiting j) eqn:Ha.
  - destruct Hout as (_ & Hl & Hb). apply awaiting_iff in Ha. rewrite Hstate in Ha.
    destruct (String.eqb (run_Phase run) PipelineRunPendingQueue) eqn:Eq;
      [subst st; by destruct Ha|].
    eexists. split.
    { rewrite <- Hr1. apply (job_becomes_snoc (job_ID j) (job_after j w2) j _ w2 w'); [exact Hr|done| |exact Hb].
      rewrite Ej. exact Hnew. }
    assert (EU : UnmarshalE (job_Payload j) = Ok apply_).
    { rewrite Ej. by apply UnmarshalE_Marshal. }
    unfold job_after, link_after, first_dispatch, answer_of, after_failure in *.
    rewrite EU, Eq in *. rewrite Hlink, Hnow in *. rewrite Ej in *. simpl in *.
    destruct (d_send tid (MessageApplyPipelineRun apply_) (w_link w)) as [[e|] l']; simpl in *; done.
  - destruct Hout as (_ & Hsame). exists j.
    assert (Eq : String.eqb (run_Phase run) PipelineRunPendingQueue = true).
    { destruct (String.eqb _ _); [done|]. apply not_true_iff_false in Ha. exfalso. apply Ha.
      apply awaiting_iff. rewrite Hstate. by left. }
    destruct Hsame as [? ? ? ? ? ? ? [Hr' _] ? ? ? ? Hl'].
    split; [by rewrite Hr', <- Hr1, <- Hr|].
    unfold first_dispatch. rewrite Eq, Hstate, Est, Eq. rewrite Hl', Hlink, Ej. done.
Qed.

(** ** [createRun] as a whole *)

Record created_run (s : PipelineRunService) (pid tid : UUID) (spec : PipelineRunSpec) (ns : string)
    (v : Z) (req : TriggerRequest) (w w' : World) (run : PipelineRun) : Prop := mkCreatedRun {
  cr_admitted : exists p, p ∈ rows (w_pipelines w) /\ alive p = true /\ pl_ID p = pid /\
    (pl_ConcurrencyPolicy p = ConcurrencyForbid -> active_runs pid w = 0) /\
    run_Phase run = admitted_phase s (pl_ConcurrencyPolicy p) (active_runs pid w);
  cr_fields : run_PipelineID run = pid /\ run_TargetID run = tid /\ run_CRNamespace run = ns /\
    run_PipelineVersion run = v /\ run_TimeoutSeconds run = prs_TimeoutSeconds spec /\
    run_TriggeredBy run = tq_TriggeredBy req /\ run_TriggerSource run = triggerSourceOf req;
  cr_row : rows (w_runs w') = rows (w_runs w) ++ [run];
  cr_tasks : exists l, rows (w_tasks w') = rows (w_tasks w) ++ l /\
    Forall2 (seeded run) (prs_Tasks spec) l;
  cr_job : exists job, rows (w_jobs w') = rows (w_jobs w) ++ [job] /\
    first_dispatch run tid (mkApply (run_CRName run) (run_CRNamespace run) spec "") w w' job;
}.

Lemma quiet_resolve_meta s pid : collaborators_quiet s -> Quiet (resolve_meta s pid).
Proof.
  intros Hq. unfold resolve_meta. destruct (componentMeta s) as [f|] eqn:E; [|quiet].
  apply quiet_bind; [by apply (q_meta s Hq)|intros ?; quiet].
Qed.
Lemma quiet_resolve_environment s meta tid ns :
  collaborators_quiet s -> Quiet (resolve_environment s meta tid ns).
Proof.
  intros Hq. unfold resolve_environment. destruct meta as [[c o]|]; [|quiet].
  destruct (environmentMeta s) as [f|] eqn:E; [by apply (q_env s Hq)|quiet].
Qed.

Definition runs_jobs_link : World -> World -> Prop :=
  both (keeps w_runs) (both (keeps w_jobs) keeps_link).

Lemma seed_tasks_frame run tasks : Preserves runs_jobs_link (seed_tasks run tasks).
Proof. unfold seed_tasks, runs_jobs_link. frame. Qed.

Lemma seed_approvals_frame s run meta tasks :
  collaborators_quiet s ->
  Preserves (both runs_jobs_link (keeps w_tasks)) (seed_approvals s run meta tasks).
Proof.
  intros Hq. unfold seed_approvals, seed_approval, notify_approval, applyApprovalPolicy, runs_jobs_link.
  assert (Hsink : forall f a b c d, notifySink s = Some f -> Quiet (f a b c d))
    by (intros; by apply (q_sink s Hq)).
  frame; apply pr_quiet; auto.
Qed.

Lemma enqueueDispatch_frame rid tid a :
  Preserves (both (keeps w_runs) (keeps w_tasks)) (enqueueDispatch rid tid a).
Proof. unfold enqueueDispatch, tryDeliver, dispatchStateForRun. frame. Qed.

(** Everything before the first INSERT only reads. *)
Lemma wp_admission {A} s pid policy (k : PipelineRunPhase -> M World (Result A)) Q w :
  (forall w', same w w' -> (policy = ConcurrencyForbid -> active_runs pid w = 0) ->
     wp (k (admitted_phase s policy (active_runs pid w))) Q w') ->
  (forall e w', same w w' -> Q (Err e) w') ->
  wp (try* _ := guardConcurrency pid policy in
      try* phase := initial_phase s pid policy in k phase) Q w.
Proof.
  intros HO HE. apply wp_try. eapply wp_mono; [apply wp_guard|].
  intros [u|e] w1 [H1 Hg]; [|by apply HE].
  apply wp_try. eapply wp_mono; [apply wp_initial_phase|].
  intros [phase|e] w2 [H2 Hp]; [|apply HE; by etransitivity].
  rewrite Hp, (active_runs_same _ _ _ H1). apply HO; [by etransitivity|exact Hg].
Qed.

Lemma stored_snoc (l : list PipelineRun) run :
  run_ID run ∉ (run_ID <$> l) ->
  forall r, r ∈ l ++ [run] -> run_ID r = run_ID run -> r = run.
Proof.
  intros Hn r [Hr|Hr%list_elem_of_singleton]%elem_of_app Hid; [|done].
  exfalso. apply Hn. rewrite <- Hid. apply list_elem_of_fmap. by exists r.
Qed.

Lemma triggerSourceOf_default req : default_str "manual" (triggerSourceOf req) = triggerSourceOf req.
Proof.
  unfold triggerSourceOf. destruct (String.eqb_spec (tq_TriggerSource req) "cron") as [->|]; [done|].
  destruct (String.eqb_spec (tq_TriggerSource req) "webhook") as [->|]; [done|].
  by destruct (String.eqb_spec (tq_TriggerSource req) "event") as [->|].
Qed.

(** Only the link and the clock of the state before matter. *)
Lemma first_dispatch_ext run tid a w1 w2 w' job :
  w_link w1 = w_link w2 -> w_now w1 = w_now w2 ->
  first_dispatch run tid a w1 w' job -> first_dispatch run tid a w2 w' job.
Proof. unfold first_dispatch. by intros -> ->. Qed.

Lemma createRun_wp s pid tid spec ns params v req w :
  collaborators_quiet s -> healthy (w_runs w) -> healthy (w_jobs w) -> jobs_ok (rows (w_jobs w)) ->
  uuid_Nil ∉ (task_ID <$> rows (w_tasks w)) -> wf spec ->
  wp (createRun s pid tid spec ns params v req) (fun r w' => forall run, r = Ok run ->
    created_run s pid tid spec ns v req w w' run) w.
Proof.
  intros Hq Hhr Hhj Hok Hnil Hwf. unfold createRun. apply wp_try.
  eapply wp_mono; [apply wp_policy|]. intros [policy|e] w1 [H1 Hp]; [|by intros].
  apply wp_admission; [|by intros]. intros w2 H2 Hforbid.
  assert (Hact : active_runs pid w1 = active_runs pid w) by (by apply active_runs_same).
  rewrite Hact in *.
  apply wp_bind, wp_quiet; [apply quiet_uuid|]. intros id w3 _ H3.
  apply wp_bind, wp_quiet; [by apply quiet_resolve_meta|]. intros meta w4 _ H4.
  apply wp_bind, wp_quiet; [by apply quiet_resolve_environment|]. intros env w5 _ H5.
  assert (Hs : same w w5) by (by repeat (etransitivity; [eassumption|])). clear H1 H2 H3 H4 H5.
  destruct Hs as [Hnow _ _ _ _ [Er Hhr5] [Et _] [Ej Hhj5] _ _ _ _ El].
  apply wp_try, wp_stmt, wp_Create; [|by intros].
  intros run t6 Hh6 Hins Hrows6. set (w6 := set_field w_runs (fun _ => t6) w5).
  assert (stored run w6 /\ healthy t6) as [Hst6 Hht6].
  { split; [|by apply Hh6, Hhr5]. destruct Hins as (rid & _ & Hnew & _ & ->).
    split; simpl; rewrite Hrows6; [set_solver|]. by apply stored_snoc. }
  apply wp_try. eapply wp_framed;
    [apply seed_tasks_frame|apply wp_seed_tasks; simpl; by rewrite Et|].
  intros [[]|e] w7 [[[R7 Hh7] N7] [[[J7 HhJ7] _] L7]] Hseed; [|by intros].
  destruct (Hseed eq_refl) as (l & El7 & Hl).
  apply wp_bind, (wp_preserves (R := both runs_jobs_link (keeps w_tasks)));
    [by apply seed_approvals_frame|].
  intros _ w8 [[[[R8 Hh8] N8] [[[J8 HhJ8] _] L8]] [[T8 _] _]].
  assert (ER : rows (w_runs w8) = rows (w_runs w6)) by congruence.
  assert (EJ : rows (w_jobs w8) = rows (w_jobs w)) by (rewrite J8, J7; exact Ej).
  assert (EL : w_link w8 = w_link w) by (rewrite L8, L7; exact El).
  assert (EN : w_now w8 = w_now w) by (rewrite N8, N7; exact Hnow).
  apply wp_bind. eapply wp_framed; [apply enqueueDispatch_frame|apply wp_enqueue|].
  { destruct Hst6. split; by rewrite ER. }
  { auto. }
  { by rewrite EJ. }
  { auto. }
  { exact Hwf. }
  intros [[]|e] w' [[[R9 _] _] [[T9 _] _]] Hjob.
  2: { apply wp_bind, wp_run. intros. apply wp_ret. by intros. }
  apply wp_ret. intros ? [= <-]. destruct (Hjob eq_refl) as (job & Hrow & Hfirst).
  destruct Hp as (p & Hp1 & Hp2 & Hp3 & ->).
  destruct Hins as (rid & _ & Hnew & _ & Erun).
  split.
  - exists p. rewrite Erun. simpl. do 4 (split; [done|]). apply admitted_phase_default.
  - rewrite Erun. split_and!; try done. apply triggerSourceOf_default.
  - rewrite R9, ER. simpl. rewrite Hrows6, Er. done.
  - exists l. rewrite T9, T8, El7. simpl. rewrite Et. done.
  - exists job. rewrite Hrow, EJ. split; [done|].
    by eapply first_dispatch_ext.
Qed.

(** ** Handlers that only read *)

Lemma quiet_triggerParams s p ps : collaborators_quiet s -> Quiet (triggerParams s p ps).
Proof.
  intros Hq. unfold triggerParams. apply quiet_bind; [|intros ?; quiet].
  pose proof (q_vars s Hq) as Hv. destruct (varSource s) as [v|]; [|quiet].
  destruct (Hv v eq_refl). quiet; auto.
Qed.
Lemma quiet_lifecycle s c : collaborators_quiet s -> Quiet (check_lifecycle s c).
Proof.
  intros Hq. unfold check_lifecycle. destruct (componentGuard s) as [f|] eqn:E; quiet.
  by apply (q_guard s Hq).
Qed.
Lemma quiet_buildSpec s pid req : collaborators_quiet s -> Quiet (buildSpec s pid req).
Proof.
  intros Hq. unfold buildSpec. quiet; auto using quiet_triggerParams, quiet_lifecycle.
Qed.
Lemma quiet_production s spec l : collaborators_quiet s -> Quiet (enforceProductionApproval s spec l).
Proof.
  intros Hq. unfold enforceProductionApproval. destruct (productionPolicy s) as [f|] eqn:E; quiet.
  by apply (q_policy s Hq).
Qed.
Lemma quiet_window s : collaborators_quiet s -> Quiet (check_change_window s).
Proof.
  intros Hq. unfold check_change_window. destruct (changeWindowGuard s) as [f|] eqn:E; quiet.
  by apply (q_window s Hq).
Qed.
Lemma quiet_selectTarget o : Quiet (selectTarget o).
Proof. unfold selectTarget. quiet. Qed.
End Trigger.
