(* ===== verification/SpecTheory.v ===== *)
(** The shape of a built spec: which tasks, in which order, with which
    dependencies.

    [stage_deps] and [pipeline_deps] are the dependencies a definition means;
    [stage_loop] and [buildSpec] compute them task by task. *)
From stdpp Require Import base list strings gmap sorting.
From Stdlib Require Import ZArith Lia.
From S2P Require Import Prelude Common Gorm Json RunnerProto RunStore PipelineStore TargetStore.
From S2P Require Import World WorldLogic RunParams RunSpec RunDispatch RunTrigger Frames.
From S2P Require Import DispatchTheory TriggerTheory.

Open Scope Z_scope.

(** * Dependencies by position *)

(** The tasks of one stage: each depends on the whole previous stage and, in a
    serial stage, on the task before it. *)
Fixpoint stage_deps (serial : bool) (prev : list string) (before : option string)
    (names : list string) : list (list string) :=
  match names with
  | [] => []
  | n :: names' =>
      (prev ++ if serial then option_list before else []) :: stage_deps serial prev (Some n) names'
  end.

Definition is_serial (st : PipelineStage) : bool :=
  String.eqb (st_ExecutionMode st) ExecutionModeSerial.

(** A definition: its stages, each with its templates. *)
Definition plan : Type := list (PipelineStage * list PipelineTaskTemplate).

Definition plan_names (l : list PipelineTaskTemplate) : list string := tpl_Name <$> l.

Fixpoint pipeline_deps (prev : list string) (p : plan) : list (list string) :=
  match p with
  | [] => []
  | (st, tpls) :: p' =>
      stage_deps (is_serial st) prev None (plan_names tpls) ++ pipeline_deps (plan_names tpls) p'
  end.

(** The (stage, template) pairs in execution order. *)
Definition plan_steps (p : plan) : list (PipelineStage * PipelineTaskTemplate) :=
  p ≫= fun x => pair x.1 <$> x.2.

Section Spec.
Context {G : Gorm} {GL : GormLaws G} {P : Platform} {D : Dispatcher} {X : MetaV1}.

(** The task a template of a stage becomes, its dependencies aside. *)
Definition compiled (subst : gmap string string) (x : PipelineStage * PipelineTaskTemplate)
    (t : PipelineTaskSpec) : Prop :=
  exists t0, templateToTaskSpec x.2 subst = Ok t0 /\
    t = t0 <| ts_Stage := st_Name x.1 |> <| ts_DependsOn := ts_DependsOn t |>.

Lemma template_name tpl subst t :
  templateToTaskSpec tpl subst = Ok t ->
  ts_Name t = tpl_Name tpl /\ ts_Type t = tpl_Type tpl /\ ts_DependsOn t = [].
Proof.
  unfold templateToTaskSpec. intros H.
  repeat (apply bind_res_Ok in H as (? & _ & H)). by injection H as <-.
Qed.

Lemma compiled_name subst x t :
  compiled subst x t -> ts_Name t = tpl_Name x.2 /\ ts_Type t = tpl_Type x.2 /\ ts_Stage t = st_Name x.1.
Proof. intros (t0 & (? & ? & _)%template_name & ->). done. Qed.

Lemma derive_deps_empty st prev names t :
  ts_DependsOn t = [] ->
  derive_deps st prev names t =
    t <| ts_DependsOn := prev ++ if is_serial st then option_list (last names) else [] |>.
Proof.
  intros Hd. unfold derive_deps. rewrite Hd. simpl. fold (is_serial st).
  assert (E : (if negb (empty_list prev) then t <| ts_DependsOn := prev |> else t)
              = t <| ts_DependsOn := prev |>).
  { destruct prev; [|done]. destruct t; simpl in *. by subst. }
  rewrite E. destruct (is_serial st); simpl.
  2: { by rewrite app_nil_r. }
  destruct names as [|n names _] using rev_ind; simpl.
  { by rewrite app_nil_r. }
  rewrite last_snoc, List.last_last. by destruct names.
Qed.

Lemma stage_loop_spec st prev subst tpls tasks names r :
  stage_loop st prev subst tpls tasks names = Ok r ->
  exists l, r = (tasks ++ l, names ++ plan_names tpls) /\
    Forall2 (compiled subst) (pair st <$> tpls) l /\
    ts_DependsOn <$> l = stage_deps (is_serial st) prev (last names) (plan_names tpls).
Proof.
  revert tasks names. induction tpls as [|tpl tpls IH]; intros tasks names H; simpl in H.
  - injection H as <-. exists []. rewrite !app_nil_r. by repeat constructor.
  - apply bind_res_Ok in H as (t0 & Ht0 & H). pose proof (template_name _ _ _ Ht0) as (Hn & _ & Hd).
    rewrite derive_deps_empty in H by done. apply IH in H as (l & -> & Hl & Hdeps).
    set (t := _ <| ts_DependsOn := _ |>) in *.
    exists (t :: l). assert (Et : ts_Name t = tpl_Name tpl) by done. rewrite Et in *.
    rewrite <- !app_assoc. split; [done|]. split.
    + constructor; [|done]. by exists t0.
    + rewrite fmap_cons, Hdeps, last_snoc. done.
Qed.

(** ** A whole definition *)

(** The plan read from the tables: live stages by sequence, live templates of
    each by display order. *)
Definition reads_plan (pid : UUID) (w : World) (p : plan) : Prop :=
  (p.*1 ≡ₚ selected (fun st => st_PipelineID st =? pid) (rows (w_stages w))) /\
  Sorted (by_keys [st_Sequence]) p.*1 /\
  Forall (fun x => (x.2 ≡ₚ selected (fun t => tpl_StageID t =? st_ID x.1) (rows (w_templates w))) /\
                   Sorted (by_keys [tpl_DisplayOrder]) x.2) p.

Definition stage_body (subst : gmap string string)
    (acc : list PipelineTaskSpec * list string) (stage : PipelineStage)
  : M World (Result (list PipelineTaskSpec * list string)) :=
  try* templates := zoom w_templates (TaskTemplateRepository.ListByStageID (st_ID stage)) in
  ret (stage_loop stage acc.2 subst templates acc.1 []).

Lemma wp_stages subst stages tasks prev w :
  wp (fold_err stages (tasks, prev) (stage_body subst)) (fun r w' => same w w' /\ forall acc, r = Ok acc ->
    exists p l, p.*1 = stages /\ acc.1 = tasks ++ l /\
      Forall (fun x => (x.2 ≡ₚ selected (fun t => tpl_StageID t =? st_ID x.1) (rows (w_templates w))) /\
                       Sorted (by_keys [tpl_DisplayOrder]) x.2) p /\
      Forall2 (compiled subst) (plan_steps p) l /\
      ts_DependsOn <$> l = pipeline_deps prev p) w.
Proof.
  revert tasks prev w. induction stages as [|st stages IH]; intros tasks prev w; simpl.
  { apply wp_ret. split; [reflexivity|]. intros acc [= <-]. exists [], []. simpl.
    rewrite app_nil_r. by repeat constructor. }
  apply wp_try. unfold stage_body at 1. apply wp_try, (wp_zoom w_templates), wp_Find.
  2: { intros e t Ht _. split; [by apply field_same|done]. }
  intros tpls t Ht Hq. apply wp_ret. set (w1 := set_field w_templates (fun _ => t) w).
  assert (H1 : same w w1) by (by apply field_same).  simpl.
  destruct (stage_loop st prev subst tpls tasks []) as [[tasks' names]|e] eqn:E; simpl; [|by split].
  apply stage_loop_spec in E as (l1 & [= -> ->] & Hl1 & Hd1).
  eapply wp_mono; [apply IH|]. intros r w2 [H2 Hr]. split; [by etransitivity|].
  intros acc Hacc. destruct (Hr acc Hacc) as (p & l2 & Hp & Ha & Hf & Hl2 & Hd2).
  exists ((st, tpls) :: p), (l1 ++ l2). simpl. rewrite Ha, <- app_assoc.
  split; [exact (f_equal (cons st) Hp)|]. split; [done|]. split; [|split].
  - constructor.
    + by apply query_result_nolimit in Hq.
    + destruct H1 as [? ? ? [Et _]]. by rewrite Et in Hf.
  - by apply Forall2_app.
  - by rewrite fmap_app, Hd1, Hd2.
Qed.

(** What [buildSpec] returns. *)
Record built (s : PipelineRunService) (pid : UUID) (req : TriggerRequest) (w : World)
    (p : Pipeline) (pl : plan) (subst : gmap string string) (spec : PipelineRunSpec) : Prop := mkBuilt {
  bt_pipeline : p ∈ rows (w_pipelines w) /\ alive p = true /\ pl_ID p = pid;
  bt_plan : reads_plan pid w pl;
  bt_lifecycle : forall f, componentGuard s = Some f -> exists w1 lc, same w w1 /\
    (f (pl_ComponentID p) w1).1 = Ok lc /\ lc <> "deprecated";
  bt_subst : subst = paramsMap (prs_Params spec);
  bt_tasks : Forall2 (compiled subst) (plan_steps pl) (prs_Tasks spec);
  bt_deps : ts_DependsOn <$> prs_Tasks spec = pipeline_deps [] pl;
  bt_some : prs_Tasks spec <> [];
  bt_request : prs_PipelineRef spec = pl_Name p /\ prs_TimeoutSeconds spec = tq_TimeoutSeconds req /\
    prs_TriggeredBy spec = tq_TriggeredBy req /\ prs_ProjectID spec = uuid_String (pl_ComponentID p) /\
    prs_TargetNamespace spec = trigger_namespace req;
}.

Lemma wp_lifecycle s c w :
  wp (check_lifecycle s c) (fun r _ => r = Ok tt -> forall f, componentGuard s = Some f ->
    exists lc, (f c w).1 = Ok lc /\ lc <> "deprecated") w.
Proof.
  unfold check_lifecycle. destruct (componentGuard s) as [g|]; [|by apply wp_ret].
  apply wp_try, wp_run. intros [lc|e] w' E; [|done]. apply wp_ret.
  destruct (String.eqb_spec lc "deprecated") as [|Hlc]; [done|]. intros _ f [= <-]. exists lc.
  by rewrite E.
Qed.

Lemma wp_buildSpec s pid req w :
  collaborators_quiet s ->
  wp (buildSpec s pid req) (fun r w' => same w w' /\ forall spec, r = Ok spec ->
    exists p pl subst, built s pid req w p pl subst spec) w.
Proof.
  intros Hq. apply wp_quiet_and; [by apply quiet_buildSpec|].
  unfold buildSpec. apply wp_try, (wp_zoom w_pipelines), wp_First; [|by intros].
  intros p t1 Ht1 Ha Hid%Z.eqb_eq Hin. set (w1 := set_field w_pipelines (fun _ => t1) w).
  assert (H1 : same w w1) by (by apply field_same).
  apply wp_try. eapply wp_mono; [apply wp_quiet_and; [by apply quiet_lifecycle|apply wp_lifecycle]|].
  intros [[]|e] w2 [H2 Hlc]; [|by intros].
  apply wp_try, (wp_zoom w_stages), wp_Find; [|by intros].
  intros stages t3 Ht3 Hst. set (w3 := set_field w_stages (fun _ => t3) w2).
  assert (H3 : same w2 w3) by (by apply field_same).
  apply wp_bind, wp_quiet; [by apply quiet_triggerParams|]. intros eff w4 _ H4.
  assert (Hs2 : same w w2) by (transitivity w1; assumption).
  assert (Hs : same w w4) by (transitivity w2; [assumption|transitivity w3; assumption]).
  clear H1 H2 H3 H4. apply wp_try. eapply wp_mono; [apply wp_stages|].
  intros [acc|e] w5 [_ Hacc]; [|by intros]. simpl.
  destruct (Hacc acc eq_refl) as (pl & l & Hpl & El & Hf & Hl & Hd). simpl in El. rewrite El.
  destruct l as [|t0 l]; [by apply wp_ret|]. apply wp_ret. intros spec [= <-].
  exists p, pl, (paramsMap eff). split; simpl; try done.
  2: { intros f Hf'. destruct (Hlc eq_refl f Hf') as (lc & ? & ?). by exists w1, lc. }
  destruct Hs as [? ? ? [Et _]]. destruct Hs2 as [? ? [Es _] _].
  apply query_result_nolimit in Hst as [Hst ?]; [|done|done]. rewrite Es in Hst.
  rewrite Et in Hf. split; [by rewrite Hpl|]. split; [by rewrite Hpl|done].
Qed.

Lemma reads_plan_same pid w w' pl : same w w' -> reads_plan pid w' pl -> reads_plan pid w pl.
Proof.
  intros [_ _ [Es _] [Et _]]. unfold reads_plan. by rewrite Es, Et.
Qed.

Lemma built_same s pid req w w' p pl subst spec :
  same w w' -> built s pid req w' p pl subst spec -> built s pid req w p pl subst spec.
Proof.
  intros Hs [Hp ? Hlc ? ? ? ? ?]. split; try done.
  - by destruct Hs as [_ [<- _]].
  - by eapply reads_plan_same.
  - intros f Hf. destruct (Hlc f Hf) as (w1 & lc & ? & ?). exists w1, lc. split; [by etransitivity|done].
Qed.

Lemma compiled_gate subst steps tasks :
  Forall2 (compiled subst) steps tasks ->
  HasApprovalGate tasks = existsb (fun x => String.eqb (tpl_Type x.2) TaskTypeApproval) steps.
Proof.
  induction 1 as [|x t steps tasks Hc _ IH]; [done|]. unfold HasApprovalGate in *. simpl.
  apply compiled_name in Hc as (_ & -> & _). by rewrite IH.
Qed.

(** A step of the plan is a live template of a live stage. *)
Lemma plan_step_elem pid w pl (st : PipelineStage) (tpl : PipelineTaskTemplate) :
  reads_plan pid w pl -> (st, tpl) ∈ plan_steps pl ->
  st ∈ rows (w_stages w) /\ alive st = true /\ st_PipelineID st = pid /\
  tpl ∈ rows (w_templates w) /\ alive tpl = true /\ tpl_StageID tpl = st_ID st.
Proof.
  intros (Hp & _ & Hf) ([st' tpls] & (? & [= -> ->] & Ht)%list_elem_of_fmap & Hin)%list_elem_of_bind.
  rewrite Forall_forall in Hf. destruct (Hf _ Hin) as [Hperm _]. simpl in *.
  assert (Hst : st' ∈ pl.*1) by (apply list_elem_of_fmap; by exists (st', tpls)).
  rewrite Hp in Hst. rewrite Hperm in Ht.
  apply elem_of_selected in Hst as (? & ?%Z.eqb_eq & ?).
  apply elem_of_selected in Ht as (? & ?%Z.eqb_eq & ?). done.
Qed.

(** ** Dependencies point backwards *)

Lemma stage_deps_length serial prev before names :
  length (stage_deps serial prev before names) = length names.
Proof. revert before. induction names; intros; simpl; auto. Qed.

(** [before] is a name before position 0 of [names]. *)
Lemma stage_deps_lookup serial prev before names i deps d :
  stage_deps serial prev before names !! i = Some deps -> d ∈ deps ->
  d ∈ prev \/ (i = 0%nat /\ before = Some d) \/ exists k, (k < i)%nat /\ names !! k = Some d.
Proof.
  revert before i. induction names as [|n names IH]; intros before i Hi Hd; [by destruct i|].
  destruct i as [|i]; simpl in Hi.
  - injection Hi as <-. apply elem_of_app in Hd as [?|Hd]; [by left|]. right. left. split; [done|].
    destruct serial, before; simpl in Hd; set_solver.
  - destruct (IH _ _ Hi Hd) as [?|[[-> [= ->]]|(k & ? & ?)]]; [by left| |].
    + right. right. exists 0%nat. split; [lia|done].
    + right. right. exists (S k). split; [lia|done].
Qed.

Lemma plan_steps_cons x (p : plan) : plan_steps (x :: p) = (pair x.1 <$> x.2) ++ plan_steps p.
Proof. done. Qed.

Lemma plan_steps_names (p : plan) :
  (fun x => tpl_Name x.2) <$> plan_steps p = p ≫= (fun x => plan_names x.2).
Proof.
  induction p as [|[st tpls] p IH]; [done|]. rewrite plan_steps_cons, fmap_app, IH.
  rewrite bind_cons. f_equal. simpl. unfold plan_names. by rewrite <- list_fmap_compose.
Qed.

Lemma pipeline_deps_lookup prev (p : plan) i deps d :
  pipeline_deps prev p !! i = Some deps -> d ∈ deps ->
  d ∈ prev \/ exists k, (k < i)%nat /\ (p ≫= fun x => plan_names x.2) !! k = Some d.
Proof.
  revert prev i. induction p as [|[st tpls] p IH]; intros prev i Hi Hd; [done|]. simpl in Hi |- *.
  apply lookup_app_Some in Hi as [Hi|[Hlen Hi]].
  - destruct (stage_deps_lookup _ _ _ _ _ _ _ Hi Hd) as [?|[[_ ?]|(k & ? & ?)]]; [by left|done|].
    right. exists k. split; [done|]. by apply lookup_app_l_Some.
  - rewrite stage_deps_length in *. right.
    destruct (IH _ _ Hi Hd) as [(k & Hk)%list_elem_of_lookup|(k & ? & Hk)].
    + exists k. apply lookup_lt_Some in Hk as Hlt. split; [lia|]. by apply lookup_app_l_Some.
    + exists (length (plan_names tpls) + k)%nat. split; [lia|].
      rewrite lookup_app_r by lia. by rewrite Nat.add_sub'.
Qed.

Lemma compiled_names subst steps tasks :
  Forall2 (compiled subst) steps tasks -> ts_Name <$> tasks = (fun x => tpl_Name x.2) <$> steps.
Proof.
  induction 1 as [|x t steps tasks Hc _ IH]; [done|]. rewrite !fmap_cons, IH. f_equal.
  by apply compiled_name in Hc as [-> _].
Qed.
End Spec.

Section Trigger.
Context {G : Gorm} {GL : GormLaws G} {P : Platform} {D : Dispatcher} {DL : DispatcherLaws D}
  {X : MetaV1} {XL : MetaV1Laws X}.

(** * From the request to the first INSERT *)

(** The tables a trigger starts from. *)
Record trigger_ready (w : World) : Prop := mkTriggerReady {
  rd_runs : healthy (w_runs w);
  rd_jobs : healthy (w_jobs w);
  rd_queue : jobs_ok (rows (w_jobs w));
  rd_tasks : uuid_Nil ∉ (task_ID <$> rows (w_tasks w));
}.

Definition production_ok (s : PipelineRunService) (spec : PipelineRunSpec) (targets : list UUID)
    (w : World) : Prop :=
  forall f, productionPolicy s = Some f ->
    targets = [] \/ HasApprovalGate (prs_Tasks spec) = true \/
    exists w1, same w w1 /\ (f targets w1).1 = Ok [].

(** What a request passed before anything was written. *)
Record cleared (s : PipelineRunService) (pid : UUID) (req : TriggerRequest) (targets : list UUID)
    (w : World) (p : Pipeline) (pl : plan) (spec : PipelineRunSpec) : Prop := mkCleared {
  cl_window : forall g, changeWindowGuard s = Some g -> (g w).1 = None;
  cl_built : exists p', built s pid req w p' pl (paramsMap (prs_Params spec)) spec;
  cl_pipeline : p ∈ rows (w_pipelines w) /\ alive p = true /\ pl_ID p = pid;
  cl_production : production_ok s spec targets w;
}.

Lemma wp_window s w :
  wp (check_change_window s) (fun r _ => r = Ok tt -> forall g, changeWindowGuard s = Some g -> (g w).1 = None) w.
Proof.
  unfold check_change_window. destruct (changeWindowGuard s) as [g|]; [|by apply wp_ret].
  apply wp_bind, wp_run. intros [e|] w' E; apply wp_ret; [done|]. intros _ f [= <-]. by rewrite E.
Qed.

Lemma wp_production s spec l w :
  wp (enforceProductionApproval s spec l) (fun r _ => r = Ok tt -> production_ok s spec l w) w.
Proof.
  unfold enforceProductionApproval, production_ok.
  destruct (productionPolicy s) as [f|]; [|by apply wp_ret].
  destruct (empty_list l) eqn:El.
  { apply wp_ret. intros _ g _. left. by destruct l. }
  destruct (HasApprovalGate (prs_Tasks spec)); [by apply wp_ret; auto|].
  apply wp_bind, wp_run. intros [[|t ts]|e] w' E; apply wp_ret; [|done..].
  intros _ g [= <-]. right. right. exists w. split; [reflexivity|by rewrite E].
Qed.

Lemma production_ok_same s spec l w w' :
  same w w' -> production_ok s spec l w' -> production_ok s spec l w.
Proof.
  intros Hs H f Hf. destruct (H f Hf) as [?|[?|(w1 & ? & ?)]]; [by left|by right; left|].
  right. right. exists w1. split; [by etransitivity|done].
Qed.

(** The part both ways of triggering share. *)
Lemma wp_clear {A} s pid req targets w0 w (k : Pipeline -> PipelineRunSpec -> list Param -> M World (Result A)) Q :
  collaborators_quiet s -> same w0 w ->
  (forall g, changeWindowGuard s = Some g -> (g w0).1 = None) ->
  (forall e w', same w0 w' -> Q (Err e) w') ->
  (forall p pl spec params w', same w0 w' -> cleared s pid req targets w0 p pl spec ->
     wp (k p spec params) Q w') ->
  wp (try* spec := buildSpec s pid req in
      try* _ := enforceProductionApproval s spec targets in
      try* p := zoom w_pipelines (PipelineRepository.GetByID pid) in
      let* params := triggerParams s p (tq_Params req) in
      k p spec params) Q w.
Proof.
  intros Hq H0 Hwin HE HO. apply wp_try. eapply wp_mono; [by apply wp_buildSpec|].
  intros [spec|e] w1 [H1 Hb]; [|apply HE; by etransitivity].
  apply wp_try. eapply wp_mono; [apply wp_quiet_and; [by apply quiet_production|apply wp_production]|].
  intros [[]|e] w2 [H2 Hpr]; [|apply HE; transitivity w1; [by etransitivity|done]].
  assert (H02 : same w0 w2) by (transitivity w1; [by etransitivity|done]).
  apply wp_try, (wp_zoom w_pipelines), wp_First.
  2: { intros e t Ht _ _ _. apply HE. etransitivity; [exact H02|by apply field_same]. }
  intros p t Ht Ha Hid%Z.eqb_eq Hin. apply wp_bind, wp_quiet; [by apply quiet_triggerParams|].
  intros params w4 _ H4. destruct (Hb spec eq_refl) as (p' & pl & subst & Hb').
  apply (HO p pl).
  { transitivity w2; [done|]. etransitivity; [|exact H4]. by apply field_same. }
  split; [done| | |].
  - exists p'. apply (built_same s pid req w0 w) in Hb'; [|done].
    by rewrite <- (bt_subst _ _ _ _ _ _ _ _ Hb').
  - by destruct H02 as [_ [<- _]].
  - eapply production_ok_same; [|by apply Hpr]. by transitivity w.
Qed.

Lemma wp_selectTarget o w :
  wp (selectTarget o) (fun r w' => same w w' /\ forall id, r = Ok id ->
    exists tg, tg ∈ rows (w_targets w) /\ tg_ID tg = id /\ tg_Status tg = TargetStatusOnline /\
               match o with Some i => id = i | None => True end) w.
Proof.
  apply wp_quiet_and; [apply quiet_selectTarget|]. unfold selectTarget. destruct o as [i|].
  - apply wp_try, (wp_zoom w_targets), wp_First; [|by intros].
    intros tg t Ht Ha Hid%Z.eqb_eq Hin.
    destruct (String.eqb_spec (tg_Status tg) TargetStatusOnline); apply wp_ret; [|done].
    intros ? [= <-]. exists tg. by repeat split.
  - apply wp_try, (wp_zoom w_targets), wp_try, wp_Count; [|by intros].
    intros t1 [Ht _]. apply wp_try, wp_Find; [|by intros]. intros l t2 _ Hl. apply wp_ret, wp_ret. simpl.
    destruct (find _ l) as [tg|] eqn:Ef; [|done]. intros ? [= <-]. exists tg.
    apply find_some in Ef as [Hin%list_elem_of_In Hst%String.eqb_eq].
    split; [|done]. rewrite <- Ht. by eapply query_result_elem.
Qed.

Definition single_target (req : TriggerRequest) (tg : Target) (w : World) : Prop :=
  tg ∈ rows (w_targets w) /\ tg_Status tg = TargetStatusOnline /\
  match tq_TargetID req with Some i => tg_ID tg = i | None => True end.

(** A single-target trigger is a read-only prologue and one [createRun]. *)
Lemma wp_Trigger_single s pid req w Q :
  collaborators_quiet s -> tq_TargetIDs req = [] ->
  (forall e w', same w w' -> Q (Err e) w') ->
  (forall tg p pl spec params w', same w w' -> single_target req tg w ->
     cleared s pid req (productionGuardTargets (tg_ID tg) []) w p pl spec ->
     wp (try* run := createRun s pid (tg_ID tg) spec (trigger_namespace req) params
                       (pl_Version p) req in ret (Ok [run])) Q w') ->
  wp (Trigger s pid req) Q w.
Proof.
  intros Hq Hone HE HO. unfold Trigger. rewrite Hone. simpl. apply wp_try.
  eapply wp_mono; [apply wp_quiet_and; [by apply quiet_window|apply wp_window]|].
  intros [[]|e] w1 [H1 Hwin]; [|by apply HE].
  apply wp_try. eapply wp_mono; [apply wp_selectTarget|].
  intros [tid|e] w2 [H2 Htg]; [|apply HE; by etransitivity].
  destruct (Htg tid eq_refl) as (tg & Hin & <- & Hon & Hi).
  apply (wp_clear s pid req (productionGuardTargets (tg_ID tg) []) w); try done.
  - by etransitivity.
  - by apply Hwin.
  - intros p pl spec params w' Hs Hc. eapply HO; try done. repeat split; try done.
    + by destruct H1 as [_ _ _ _ [<- _]].
Qed.

(** * What [createRun] does to the runs, whatever its result *)

Definition unique_pipeline (p : Pipeline) (w : World) : Prop :=
  forall q, q ∈ rows (w_pipelines w) -> alive q = true -> pl_ID q = pl_ID p -> q = p.

Definition one_more_run (s : PipelineRunService) (pid tid : UUID) (ok : bool) (w w' : World) : Prop :=
  exists p run, p ∈ rows (w_pipelines w) /\ alive p = true /\ pl_ID p = pid /\
    (pl_ConcurrencyPolicy p = ConcurrencyForbid -> active_runs pid w = 0) /\
    (run_PipelineID run = pid /\ run_TargetID run = tid) /\
    rows (w_runs w') = rows (w_runs w) ++ [run] /\
    (run_Phase run = admitted_phase s (pl_ConcurrencyPolicy p) (active_runs pid w) \/
     ok = false /\ run_Phase run = PipelineRunFailed).

Lemma save_rows_snoc now (l : list PipelineRun) run run' :
  run_ID run' = run_ID run -> run_ID run ∉ (run_ID <$> l) ->
  save_rows now run' (l ++ [run]) = l ++ [updated now run'].
Proof.
  intros Hid Hnew. unfold save_rows. rewrite fmap_app. f_equal.
  - rewrite <- (list_fmap_id l) at 2. apply list_fmap_ext. intros i x Hx. simpl.
    rewrite bool_decide_eq_false_2; [done|]. simpl. rewrite Hid. intros E. apply Hnew.
    rewrite <- E. apply list_elem_of_fmap. exists x. split; [done|by eapply list_elem_of_lookup_2].
  - simpl. by rewrite bool_decide_eq_true_2.
Qed.

Lemma createRun_runs s pid tid spec ns params v req w :
  collaborators_quiet s ->
  wp (createRun s pid tid spec ns params v req) (fun r w' =>
    (is_ok r = false /\ rows (w_runs w') = rows (w_runs w)) \/
    one_more_run s pid tid (is_ok r) w w') w.
Proof.
  intros Hq. unfold createRun. apply wp_try.
  eapply wp_mono; [apply wp_policy|].
  intros [policy|e] w1 [H1 Hp]; [|left; by destruct H1 as [_ _ _ _ _ [-> _]]].
  apply wp_admission.
  2: { intros e w2 H2. left. assert (Hs : same w w2) by (by etransitivity).
       by destruct Hs as [_ _ _ _ _ [-> _]]. }
  intros w2 H2 Hforbid. rewrite (active_runs_same pid w w1 H1) in *.
  apply wp_bind, wp_quiet; [apply quiet_uuid|]. intros id w3 _ H3.
  apply wp_bind, wp_quiet; [by apply quiet_resolve_meta|]. intros meta w4 _ H4.
  apply wp_bind, wp_quiet; [by apply quiet_resolve_environment|]. intros env w5 _ H5.
  assert (Hs : same w w5) by (by repeat (etransitivity; [eassumption|])). clear H1 H2 H3 H4 H5.
  destruct Hs as [_ _ _ _ _ [Er _] _ _ _ _ _ _ _]. apply wp_try, wp_stmt, wp_Create.
  2: { intros e t [Et _]. left. simpl. by rewrite Et. }
  intros run t6 _ Hins Hrows6. destruct Hp as (p & Hp1 & Hp2 & Hp3 & ->).
  destruct Hins as (rid & _ & Hnew & _ & Erun). rewrite Er in Hnew.
  assert (Hdone : forall ok w', rows (w_runs w') = rows t6 -> one_more_run s pid tid ok w w').
  { intros ok w' Hw'. exists p, run. rewrite Hw', Hrows6, Er, Erun. simpl.
    rewrite admitted_phase_default. by auto 10. }
  apply wp_try, (wp_preserves (R := runs_jobs_link)); [apply seed_tasks_frame|].
  intros [[]|e] w7 [[[R7 _] _] _]; [|right; by apply Hdone].
  apply wp_bind, (wp_preserves (R := both runs_jobs_link (keeps w_tasks)));
    [by apply seed_approvals_frame|].
  intros _ w8 [[[[R8 _] _] _] _].
  apply wp_bind, (wp_preserves (R := both (keeps w_runs) (keeps w_tasks)));
    [apply enqueueDispatch_frame|].
  intros r w9 [[[R9 _] _] _]. assert (ER : rows (w_runs w9) = rows t6) by (simpl in *; congruence).
  destruct r as [[]|e]; [apply wp_ret; right; by apply Hdone|].
  apply wp_bind, wp_bind, wp_stmt, wp_Save_known.
  - rewrite ER, Hrows6, fmap_app. simpl. set_solver.
  - intros t10 _ Ht. apply wp_ret, wp_ret. right. rewrite ER, Hrows6, Er, save_rows_snoc in Ht.
    + exists p, (updated (w_now w9) (enqueue_failed run e)). split_and!; try done; [by rewrite Erun..|by right].
    + done.
    + rewrite Erun. exact Hnew.
  - intros e' t10 [Ht _] _. apply wp_ret, wp_ret. right. apply Hdone. simpl. by rewrite Ht.
Qed.

Lemma createRun_pipelines s pid tid spec ns params v req :
  collaborators_quiet s -> Preserves (keeps w_pipelines) (createRun s pid tid spec ns params v req).
Proof.
  intros Hq. unfold createRun, concurrencyPolicyOf, guardConcurrency, initial_phase, shouldQueue, count_active.
  frame.
  - by apply pr_quiet, quiet_resolve_meta.
  - by apply pr_quiet, quiet_resolve_environment.
  - unfold seed_tasks. frame.
  - unfold seed_approvals, seed_approval, notify_approval, applyApprovalPolicy.
    assert (Hsink : forall f a b c d, notifySink s = Some f -> Quiet (f a b c d))
      by (intros; by apply (q_sink s Hq)).
    frame; apply pr_quiet; auto.
  - unfold enqueueDispatch, tryDeliver, dispatchStateForRun. frame.
Qed.

Lemma active_runs_snoc pid w w' run :
  rows (w_runs w') = rows (w_runs w) ++ [run] ->
  active_runs pid w' = active_runs pid w + (if is_active pid run then 1 else 0).
Proof.
  intros E. unfold active_runs. rewrite E. unfold selected. rewrite filter_app, filter_cons, length_app.
  simpl. destruct (is_active pid run); simpl; lia.
Qed.

Lemma unique_pipeline_same p w w' : same w w' -> unique_pipeline p w -> unique_pipeline p w'.
Proof. intros [_ [E _]]. unfold unique_pipeline. by rewrite E. Qed.

Lemma createRun_forbid s p tid spec ns params v req w0 w :
  same w0 w -> unique_pipeline p w -> p ∈ rows (w_pipelines w) ->
  pl_ConcurrencyPolicy p = ConcurrencyForbid -> 1 <= active_runs (pl_ID p) w ->
  wp (createRun s (pl_ID p) tid spec ns params v req) (fun r w' =>
    is_ok r = false /\ same w0 w' /\
    (healthy (w_pipelines w) -> healthy (w_runs w) -> alive p = true ->
     r = Err (ErrConcurrencyForbidden (pl_ID p) (active_runs (pl_ID p) w)))) w.
Proof.
  intros H0 Hu Hp Hpol Hact. unfold createRun. apply wp_try.
  eapply wp_mono; [apply wp_policy|]. intros [policy|e] w1 [H1 Hq].
  2: { split; [done|]. split; [by etransitivity|]. intros Hh _ Ha. by destruct (Hq Hh p). }
  destruct Hq as (q & Hq1 & Hq2 & Hq3 & ->). assert (q = p) as -> by (by apply Hu).
  apply wp_try. eapply wp_mono; [apply wp_guard|].
  rewrite (active_runs_same _ _ _ H1). intros [[]|e] w2 [H2 Hg].
  - specialize (Hg Hpol). lia.
  - destruct Hg as [_ Hg]. split; [done|]. split; [transitivity w1; [by etransitivity|done]|].
    intros _ Hh _. rewrite Hg; [done|]. destruct H1 as [_ _ _ _ _ [_ H1]]. auto.
Qed.

Lemma created_run_same s pid tid spec ns v req w w1 w' run :
  same w w1 -> created_run s pid tid spec ns v req w1 w' run ->
  created_run s pid tid spec ns v req w w' run.
Proof.
  intros Hs [Ha Hf Hr Ht Hj]. rewrite (active_runs_same _ _ _ Hs) in Ha.
  destruct Hs as [Hn [Ep _] _ _ _ [Er _] [Et _] [Ej _] _ _ _ _ El].
  rewrite Ep in Ha. rewrite Er in Hr. rewrite Et in Ht. rewrite Ej in Hj. split; try done.
  destruct Hj as (job & ? & Hd). exists job. split; [done|].
  by eapply first_dispatch_ext.
Qed.

Lemma wp_fold_err_inv {A B E} (I : World -> Prop) (l : list A) (acc : B)
    (body : B -> A -> M World (Res E B)) w :
  I w -> (forall acc x w', I w' -> wp (body acc x) (fun _ => I) w') ->
  wp (fold_err l acc body) (fun _ => I) w.
Proof.
  intros H0 Hb. revert acc w H0. induction l as [|x l IH]; intros acc w H0; simpl; [by apply wp_ret|].
  apply wp_try. eapply wp_mono; [by apply Hb|]. intros [acc'|e] w' H'; [by apply IH|done].
Qed.

(** The same, for the members of the list only. *)
Lemma wp_fold_err_in {A B E} (I : World -> Prop) (l : list A) (acc : B)
    (body : B -> A -> M World (Res E B)) w :
  I w -> (forall acc x w', x ∈ l -> I w' -> wp (body acc x) (fun _ => I) w') ->
  wp (fold_err l acc body) (fun _ => I) w.
Proof.
  intros H0 Hb. revert acc w H0. induction l as [|x l IH]; intros acc w H0; simpl; [by apply wp_ret|].
  apply wp_try. eapply wp_mono; [apply Hb; [left|done]|]. intros [acc'|e] w' H'; [|done].
  apply IH; [|done]. intros. apply Hb; [by right|done].
Qed.

(** A fan-out trigger is a read-only prologue and a loop of [createRun]. *)
Lemma wp_Trigger_fanout s pid req w Q :
  collaborators_quiet s -> tq_TargetIDs req <> [] ->
  (forall e w', same w w' -> Q (Err e) w') ->
  (forall p pl spec params w', same w w' ->
     cleared s pid req (productionGuardTargets uuid_Nil (tq_TargetIDs req)) w p pl spec ->
     wp (fold_err (tq_TargetIDs req) [] (fun runs tid =>
           try* run := createRun s pid tid spec (trigger_namespace req) params (pl_Version p) req in
           ret (Ok (runs ++ [run])))) Q w') ->
  wp (Trigger s pid req) Q w.
Proof.
  intros Hq Hmany HE HO. unfold Trigger. apply wp_try.
  eapply wp_mono; [apply wp_quiet_and; [by apply quiet_window|apply wp_window]|].
  intros [[]|e] w1 [H1 Hwin]; [|by apply HE].
  replace (negb (empty_list (tq_TargetIDs req))) with true by (by destruct (tq_TargetIDs req)).
  unfold triggerFanout. apply wp_try, wp_quiet; [quiet|]. intros [[]|e] w2 _ H2.
  2: { apply HE. by etransitivity. }
  apply (wp_clear s pid req (productionGuardTargets uuid_Nil (tq_TargetIDs req)) w); try done.
  - by etransitivity.
  - by apply Hwin.
  - intros p pl spec params w' Hs Hc. by eapply HO.
Qed.
End Trigger.
