(* ===== verification/DispatchInterleaving.v ===== *)
(** Concurrent delivery attempts ([tryDeliver] called at the same time by the
    trigger, a reconnect and the sweeper).

    [deliver_step] executes one database statement or one send of [tryDeliver];
    [tryDeliver] is four such steps in a row.  In [cstep] any number of
    attempts interleave at that grain. *)
From stdpp Require Import base list strings gmap.
From Stdlib Require Import ZArith Lia.
From S2P Require Import Prelude Common Gorm Json RunnerProto RunStore PipelineStore TargetStore.
From S2P Require Import World WorldLogic RunDispatch DispatchTheory.
Import DispatchJobRepository.

Open Scope Z_scope.

Section Steps.
Context {G : Gorm} {P : Platform} {D : Dispatcher} {X : MetaV1}.

(** Where an attempt stands. *)
Inductive pc : Type :=
| PRead
| PClaim (job : DispatchJob)
| PSend (job : DispatchJob) (payload : ApplyPipelineRunPayload)
| PDead (lastErr : string) (err : GoError)
| PFail (lastErr : string) (attempts : Z) (err : GoError)
| PCommit
| PDone (r : Result unit).

Definition deliver_step (id : UUID) (c : pc) : M World pc :=
  match c with
  | PRead =>
      let* r := zoom w_jobs (GetByID id) in
      ret (match r with
           | Err e => PDone (Err e)
           | Ok job =>
               if String.eqb (job_State job) DispatchJobDispatched ||
                  String.eqb (job_State job) DispatchJobDead
               then PDone (Ok tt) else PClaim job
           end)
  | PClaim job =>
      let* r := stmt w_jobs (fun now => MarkDispatching now id) in
      ret (match r with
           | Err e => PDone (Err e)
           | Ok affected =>
               if affected =? 0 then PDone (Ok tt)
               else match UnmarshalE (A := ApplyPipelineRunPayload) (job_Payload job) with
                    | Err e => PDead ("corrupt payload: " +:+ Error e) e
                    | Ok payload => PSend job payload
                    end
           end)
  | PSend job payload =>
      let* sent := send (job_TargetID job) (MessageApplyPipelineRun payload) in
      ret (match sent with
           | None => PCommit
           | Some err =>
               let newAttempts := job_Attempts job + 1 in
               if MaxDispatchAttempts <=? newAttempts then PDead (Error err) err
               else PFail (Error err) newAttempts err
           end)
  | PDead lastErr err =>
      ignore (stmt w_jobs (fun now => MarkDead now id lastErr)) ;;; ret (PDone (Err err))
  | PFail lastErr attempts err =>
      ignore (stmt w_jobs (fun now =>
        MarkFailed now id lastErr (now + dispatchBackoff attempts))) ;;; ret (PDone (Err err))
  | PCommit =>
      let* r := stmt w_jobs (fun now => MarkDispatched now id) in
      ret (PDone (match r with Ok _ => Ok tt | Err e => Err e end))
  | PDone r => ret (PDone r)
  end.

Fixpoint run_steps (n : nat) (id : UUID) (c : pc) : M World pc :=
  match n with
  | O => ret c
  | S n' => let* c' := deliver_step id c in run_steps n' id c'
  end.

(** The payload is on its way: the claim was won and not yet settled. *)
Definition inflight (c : pc) : bool :=
  match c with PSend _ _ | PDead _ _ | PFail _ _ _ | PCommit => true | _ => false end.

(** One step of one of the attempts, or of the rest of the hub, which leaves
    the job table alone.  The label is the job delivered by the step. *)
Inductive cstep : World * list (UUID * pc) -> option UUID -> World * list (UUID * pc) -> Prop :=
| cs_step w ts i id c c' w' :
    ts !! i = Some (id, c) -> deliver_step id c w = (c', w') ->
    cstep (w, ts)
      (match c, c' with PSend _ _, PCommit => Some id | _, _ => None end)
      (w', <[i := (id, c')]> ts)
| cs_start w ts id : cstep (w, ts) None (w, ts ++ [(id, PRead)])
| cs_other w ts w' : rows (w_jobs w') = rows (w_jobs w) -> cstep (w, ts) None (w', ts).

Inductive csteps : World * list (UUID * pc) -> list UUID -> World * list (UUID * pc) -> Prop :=
| cs_nil s : csteps s [] s
| cs_snoc s ids s1 l s2 : csteps s ids s1 -> cstep s1 l s2 -> csteps s (ids ++ option_list l) s2.

(** A schedule: start an attempt on a job, or let the i-th attempt move. *)
Inductive move : Type := Start (id : UUID) | Step (i : nat).

Definition play1 (s : World * list (UUID * pc)) (m : move)
  : option UUID * (World * list (UUID * pc)) :=
  let '(w, ts) := s in
  match m with
  | Start id => (None, (w, ts ++ [(id, PRead)]))
  | Step i =>
      match ts !! i with
      | None => (None, (w, ts))
      | Some (id, c) =>
          let '(c', w') := deliver_step id c w in
          (match c, c' with PSend _ _, PCommit => Some id | _, _ => None end,
           (w', <[i := (id, c')]> ts))
      end
  end.

Fixpoint play (s : World * list (UUID * pc)) (ids : list UUID) (ms : list move)
  : list UUID * (World * list (UUID * pc)) :=
  match ms with
  | [] => (ids, s)
  | m :: ms => let '(l, s') := play1 s m in play s' (ids ++ option_list l) ms
  end.

Lemma play1_cstep s m : cstep s (play1 s m).1 (play1 s m).2.
Proof.
  destruct s as [w ts]. destruct m as [id|i]; simpl; [apply cs_start|].
  destruct (ts !! i) as [[id c]|] eqn:Hi; simpl; [|by apply cs_other].
  destruct (deliver_step id c w) as [c' w'] eqn:E. by apply cs_step.
Qed.

Lemma play_csteps s0 s ids ms :
  csteps s0 ids s -> csteps s0 (play s ids ms).1 (play s ids ms).2.
Proof.
  revert s ids. induction ms as [|m ms IH]; intros s ids Hs; simpl; [done|].
  pose proof (play1_cstep s m) as Hm. destruct (play1 s m) as [l s'].
  apply IH. by eapply cs_snoc.
Qed.
End Steps.

Section Exclusion.
Context {G : Gorm} {GL : GormLaws G} {P : Platform} {D : Dispatcher} {DL : DispatcherLaws D}
  {X : MetaV1}.

Lemma run_steps_done n id r w : run_steps n id (PDone r) w = (PDone r, w).
Proof. induction n as [|n IH]; [done|]. exact IH. Qed.

Lemma run_steps_S n id c w :
  run_steps (S n) id c w = let '(c', w') := deliver_step id c w in run_steps n id c' w'.
Proof. done. Qed.

(** Alone, the four steps are [tryDeliver]. *)
Lemma run_steps_tryDeliver id w :
  run_steps 4 id PRead w = (PDone (tryDeliver id w).1, (tryDeliver id w).2).
Proof.
  cbv [tryDeliver try_bind run_steps deliver_step bind ret ignore].
  destruct (zoom w_jobs (GetByID id) w) as [[job|e] w1]; [|done].
  destruct (_ || _); [done|].
  destruct (stmt w_jobs (fun now => MarkDispatching now id) w1) as [[n|e] w2]; [|done].
  destruct (n =? 0); [done|].
  destruct (UnmarshalE (job_Payload job)) as [p|e].
  - destruct (send _ _ w2) as [[err|] w3]; [destruct (MaxDispatchAttempts <=? _)|];
      by destruct (stmt w_jobs _ w3) as [[?|?] ?].
  - by destruct (stmt w_jobs _ w2) as [? ?].
Qed.
(** ** Mutual exclusion *)

Record exclusive (w : World) (ts : list (UUID * pc)) (ids : list UUID) : Prop := mkExclusive {
  ex_unique : NoDup (job_ID <$> rows (w_jobs w));
  ex_busy : forall i id c, ts !! i = Some (id, c) -> inflight c = true ->
    exists j, j ∈ rows (w_jobs w) /\ job_ID j = id /\ job_State j = DispatchJobDispatching;
  ex_one : forall i i' id c c', ts !! i = Some (id, c) -> ts !! i' = Some (id, c') ->
    inflight c = true -> inflight c' = true -> i = i';
  ex_sent : forall id, id ∈ ids -> exists j, j ∈ rows (w_jobs w) /\ job_ID j = id /\
    (job_State j = DispatchJobDispatching \/ job_State j = DispatchJobDispatched);
  ex_commit : forall id i c, id ∈ ids -> ts !! i = Some (id, c) -> inflight c = true -> c = PCommit;
  ex_nodup : NoDup ids;
}.

Lemma ids_unique (l : list DispatchJob) j j' :
  NoDup (job_ID <$> l) -> j ∈ l -> j' ∈ l -> job_ID j = job_ID j' -> j = j'.
Proof.
  intros Hnd (i & Hi)%list_elem_of_lookup (i' & Hi')%list_elem_of_lookup E.
  assert (i = i'); [|by simplify_eq].
  eapply NoDup_lookup; [exact Hnd| |]; rewrite list_lookup_fmap.
  - by rewrite Hi.
  - rewrite Hi'. simpl. by rewrite E.
Qed.

(** Rewriting the jobs selected by [p] keeps a job that is not selected. *)
Lemma update_rows_other now p f (l : list DispatchJob) j :
  j ∈ l -> p j = false -> j ∈ update_rows now p f l.
Proof.
  intros Hj Hp. apply list_elem_of_fmap. exists j. simpl. by rewrite Hp.
Qed.
Lemma update_rows_hit now p f (l : list DispatchJob) j :
  j ∈ l -> p j = true -> updated now (f j) ∈ update_rows now p f l.
Proof.
  intros Hj Hp. apply list_elem_of_fmap. exists j. simpl. by rewrite Hp.
Qed.

(** A thread that stays out of flight and leaves the jobs alone. *)
Lemma exclusive_idle w ts ids i id c c' w' :
  exclusive w ts ids -> ts !! i = Some (id, c) -> rows (w_jobs w') = rows (w_jobs w) ->
  inflight c' = false \/ (inflight c = true /\ (id ∈ ids -> c' = PCommit)) ->
  exclusive w' (<[i := (id, c')]> ts) ids.
Proof.
  intros [Hu Hb Ho Hs Hc Hn] Hi Hr Hf.
  assert (Hlen : (i < length ts)%nat) by (by eapply lookup_lt_Some).
  assert (Hold : forall k kid kc, <[i := (id, c')]> ts !! k = Some (kid, kc) -> inflight kc = true ->
    (k = i /\ kid = id /\ kc = c' /\ inflight c = true) \/ (k <> i /\ ts !! k = Some (kid, kc))).
  { intros k kid kc Hk Hkf. destruct (decide (k = i)) as [->|Hne].
    - rewrite list_lookup_insert_eq in Hk by done. injection Hk as <- <-. left.
      destruct Hf as [Hf|[Hf _]]; [congruence|done].
    - rewrite list_lookup_insert_ne in Hk by done. by right. }
  split; try rewrite Hr; try done.
  - intros k kid kc Hk Hkf. apply Hold in Hk as [(-> & -> & -> & Hfl)|[_ Hk]]; [|eauto|done].
    by eapply Hb.
  - intros k k' kid kc kc' Hk Hk' Hkf Hkf'.
    apply Hold in Hk as [(-> & -> & -> & Hfl)|[Hne Hk]];
      [|apply Hold in Hk' as [(-> & E & -> & Hfl)|[_ Hk']]; [subst; by eapply (Ho k i)|by eapply Ho|done]|done].
    apply Hold in Hk' as [(-> & _)|[Hne Hk']]; [done|by eapply (Ho i k')|done].
  - intros kid k kc Hin Hk Hkf. apply Hold in Hk as [(-> & -> & -> & Hfl)|[_ Hk]]; [|by eapply Hc|done].
    destruct Hf as [Hf|[_ Hf]]; [congruence|auto].
Qed.

(** The settling UPDATE of a thread in flight, after which it is done. *)
Lemma exclusive_settle w ts ids i id c r w' f :
  exclusive w ts ids -> ts !! i = Some (id, c) -> inflight c = true ->
  (forall j, job_ID (f j) = job_ID j) ->
  (id ∈ ids -> forall j, job_State (f j) = DispatchJobDispatched) ->
  rows (w_jobs w') = rows (w_jobs w) \/
  rows (w_jobs w') = update_rows (w_now w) (has_id id) f (rows (w_jobs w)) ->
  exclusive w' (<[i := (id, PDone r)]> ts) ids.
Proof.
  intros Hex Hi Hfl Hid Hst [Hr|Hr]; [by eapply exclusive_idle; eauto|].
  pose proof (exclusive_idle w ts ids i id c (PDone r) w Hex Hi eq_refl (or_introl eq_refl)) as Hex'.
  destruct Hex' as [Hu Hb Ho Hs Hc Hn].
  assert (Hlen : (i < length ts)%nat) by (by eapply lookup_lt_Some).
  split; try done; rewrite Hr.
  - by rewrite update_rows_ids.
  - intros k kid kc Hk Hkf. destruct (Hb k kid kc Hk Hkf) as (j & Hj & Hjid & Hjst).
    exists j. split; [|done]. apply update_rows_other; [done|].
    destruct (has_id id j) eqn:E; [|done]. apply Z.eqb_eq in E. exfalso.
    destruct (decide (k = i)) as [->|Hne].
    + rewrite list_lookup_insert_eq in Hk by done. by injection Hk as <- <-.
    + rewrite list_lookup_insert_ne in Hk by done. apply Hne.
      destruct Hex as [_ _ Ho' _ _ _]. eapply Ho'; [exact Hk| |done|exact Hfl]. congruence.
  - intros kid Hin. destruct (Hs kid Hin) as (j & Hj & Hjid & Hjst).
    destruct (has_id id j) eqn:E.
    + exists (updated (w_now w) (f j)). split; [by apply update_rows_hit|]. simpl. rewrite Hid.
      split; [done|]. right. apply Hst. apply Z.eqb_eq in E. congruence.
    + exists j. split; [by apply update_rows_other|done].
Qed.

(** Winning the claim. *)
Lemma exclusive_claim w ts ids i id c c' w' :
  exclusive w ts ids -> ts !! i = Some (id, c) -> inflight c = false ->
  selected (claimable id) (rows (w_jobs w)) <> [] ->
  rows (w_jobs w') = claimed_rows id w ->
  exclusive w' (<[i := (id, c')]> ts) ids.
Proof.
  intros [Hu Hb Ho Hs Hc Hn] Hi Hfl Hsel Hr.
  assert (Hlen : (i < length ts)%nat) by (by eapply lookup_lt_Some).
  assert (exists j, j ∈ rows (w_jobs w) /\ job_ID j = id /\ awaiting_state (job_State j))
    as (j0 & Hj0 & Hjid0 & Ha).
  { destruct (selected _ _) as [|j l] eqn:E; [done|]. exists j.
    assert (j ∈ selected (claimable id) (rows (w_jobs w))) as (_ & [? ?]%claimable_iff & ?)%elem_of_selected
      by (rewrite E; set_solver). done. }
  assert (Hnot : forall j, j ∈ rows (w_jobs w) -> job_ID j = id ->
    job_State j <> DispatchJobDispatching /\ job_State j <> DispatchJobDispatched).
  { intros j Hj Hjid. assert (j = j0) as -> by (apply (ids_unique _ _ _ Hu Hj Hj0); congruence).
    by destruct Ha as [-> | ->]. }
  assert (Hfree : forall k kc, ts !! k = Some (id, kc) -> inflight kc = true -> False).
  { intros k kc Hk Hkf. destruct (Hb k id kc Hk Hkf) as (j & Hj & Hjid & Hst).
    by destruct (Hnot j Hj Hjid). }
  assert (Hnew : id ∉ ids).
  { intros Hin. destruct (Hs id Hin) as (j & Hj & Hjid & Hst). destruct (Hnot j Hj Hjid). tauto. }
  assert (Hkeep : forall j, j ∈ rows (w_jobs w) -> job_ID j <> id -> j ∈ claimed_rows id w).
  { intros j Hj Hne. apply update_rows_other; [done|]. unfold claimable, has_id.
    by rewrite (proj2 (Z.eqb_neq _ _) Hne). }
  assert (Hat : forall k kid kc, <[i := (id, c')]> ts !! k = Some (kid, kc) ->
    (k = i /\ kid = id /\ kc = c') \/ (k <> i /\ ts !! k = Some (kid, kc))).
  { intros k kid kc Hk. destruct (decide (k = i)) as [->|Hne].
    - rewrite list_lookup_insert_eq in Hk by done. injection Hk as <- <-. by left.
    - rewrite list_lookup_insert_ne in Hk by done. by right. }
  split; try rewrite Hr; try done.
  - unfold claimed_rows. by rewrite update_rows_ids.
  - intros k kid kc [(-> & -> & ->)|[Hne Hk]]%Hat Hkf.
    + exists (updated (w_now w) (claimed j0)). split; [|done]. apply update_rows_hit; [done|].
      by apply claimable_iff.
    + destruct (Hb k kid kc Hk Hkf) as (j & Hj & Hjid & Hst). exists j. split; [|done].
      apply Hkeep; [done|]. intros E. subst. by destruct (Hnot j Hj E).
  - intros k k' kid kc kc' [(-> & -> & ->)|[Hne Hk]]%Hat Hk' Hkf Hkf'.
    + apply Hat in Hk' as [(-> & _)|[_ Hk']]; [done|]. by destruct (Hfree k' kc').
    + apply Hat in Hk' as [(-> & -> & _)|[_ Hk']]; [by destruct (Hfree k kc)|by eapply Ho].
  - intros kid Hin. destruct (Hs kid Hin) as (j & Hj & Hjid & Hst). exists j. split; [|done].
    apply Hkeep; [done|]. intros E. apply Hnew. congruence.
  - intros kid k kc Hin [(-> & -> & ->)|[Hne Hk]]%Hat Hkf; [contradiction|by eapply Hc].
Qed.

Lemma exclusive_send w ts ids i id job payload w' :
  exclusive w ts ids -> ts !! i = Some (id, PSend job payload) ->
  rows (w_jobs w') = rows (w_jobs w) ->
  exclusive w' (<[i := (id, PCommit)]> ts) (ids ++ [id]).
Proof.
  intros Hex Hi Hr. assert (Hnew : id ∉ ids).
  { intros Hin. destruct Hex as [_ _ _ _ Hc _]. by specialize (Hc id i _ Hin Hi eq_refl). }
  destruct (exclusive_idle w ts ids i id _ PCommit w' Hex Hi Hr (or_intror (conj eq_refl (fun _ => eq_refl))))
    as [Hu Hb Ho Hs Hc Hn].
  assert (Hlen : (i < length ts)%nat) by (by eapply lookup_lt_Some).
  assert (Hi' : <[i := (id, PCommit)]> ts !! i = Some (id, PCommit))
    by (by rewrite list_lookup_insert_eq).
  split; try done.
  - intros kid [Hin|Hin%list_elem_of_singleton]%elem_of_app; [by apply Hs|]. subst.
    destruct (Hb i id PCommit Hi' eq_refl) as (j & Hj & Hjid & Hst). eauto.
  - intros kid k kc [Hin|Hin%list_elem_of_singleton]%elem_of_app Hk Hkf; [by eapply Hc|]. subst.
    assert (k = i) as -> by (by eapply Ho). congruence.
  - apply NoDup_app. split; [done|]. split; [|apply NoDup_singleton]. set_solver.
Qed.
(** A bookkeeping statement, done or failed. *)
Lemma wp_mark {A} id (f : Time -> DispatchJob -> DispatchJob) (k : Result Z -> A) Q w :
  (forall r w', rows (w_jobs w') = rows (w_jobs w) \/
     rows (w_jobs w') = update_rows (w_now w) (has_id id) (f (w_now w)) (rows (w_jobs w)) -> Q (k r) w') ->
  wp (bind (stmt w_jobs (fun now => db_Updates now (has_id id) (f now))) (fun r => ret (k r))) Q w.
Proof.
  intros HQ. apply wp_bind, wp_stmt, wp_Updates.
  - intros t' _ Hr. apply wp_ret, HQ. by right.
  - intros e t' [Hr _] _. apply wp_ret, HQ. by left.
Qed.

Lemma exclusive_step w ts ids l w' ts' :
  exclusive w ts ids -> cstep (w, ts) l (w', ts') -> exclusive w' ts' (ids ++ option_list l).
Proof.
  intros Hex Hstep. inversion Hstep as [w0 ts0 i id c c' w1 Hi E|w0 ts0 id|w0 ts0 w1 Hr]; subst.
  2: { rewrite app_nil_r. destruct Hex as [Hu Hb Ho Hs Hc Hn].
       assert (Hold : forall k kid kc, (ts ++ [(id, PRead)]) !! k = Some (kid, kc) ->
         inflight kc = true -> ts !! k = Some (kid, kc)).
       { intros k kid kc Hk Hkf. apply lookup_app_Some in Hk as [Hk|[_ Hk]]; [done|].
         apply list_lookup_singleton_Some in Hk as [_ [= <- <-]]. done. }
       split; eauto. }
  2: { rewrite app_nil_r. destruct Hex as [Hu Hb Ho Hs Hc Hn]. split; rewrite ?Hr; eauto. }
  set (lab := fun c' => match c, c' with PSend _ _, PCommit => Some id | _, _ => None end).
  change (exclusive w' (<[i := (id, c')]> ts) (ids ++ option_list (lab c'))).
  revert c' w' E Hstep. intros c' w' E _. revert c' w' E. apply wp_run.
  destruct c as [|job|job p|msg err|msg n err| |r]; cbn [deliver_step].
  - apply wp_bind, (wp_zoom w_jobs), wp_First.
    + intros job t [Hr _] _ _ _. apply wp_ret. simpl. rewrite app_nil_r.
      eapply exclusive_idle; [exact Hex|exact Hi|exact Hr|]. left. by destruct (_ || _).
    + intros e t [Hr _] _ _ _. apply wp_ret. simpl. rewrite app_nil_r.
      eapply exclusive_idle; [exact Hex|exact Hi|exact Hr|by left].
  - apply wp_bind, wp_stmt, wp_Updates.
    + intros t _ Hr. apply wp_ret. simpl. rewrite app_nil_r.
      destruct (Z.eqb_spec (Z.of_nat (length (selected (claimable id) (rows (w_jobs w))))) 0) as [E|E].
      * eapply exclusive_idle; [exact Hex|exact Hi| |by left]. simpl. rewrite Hr.
        apply update_rows_none. by destruct (selected _ _).
      * eapply exclusive_claim; [exact Hex|exact Hi|done| |exact Hr]. intros E'. by rewrite E' in E.
    + intros e t [Hr _] _. apply wp_ret. simpl. rewrite app_nil_r.
      eapply exclusive_idle; [exact Hex|exact Hi|exact Hr|by left].
  - apply wp_bind, (wp_zoom w_link), wp_run. intros [err|] l' _; apply wp_ret; simpl.
    + assert (Hnew : id ∉ ids).
      { intros Hin. destruct Hex as [_ _ _ _ Hc _]. by specialize (Hc id i _ Hin Hi eq_refl). }
      destruct (MaxDispatchAttempts <=? _); simpl; rewrite app_nil_r;
        (eapply exclusive_idle; [exact Hex|exact Hi|done|right; done]).
    + by eapply exclusive_send.
  - apply wp_bind, (wp_mark id (fun _ => dead msg) (fun _ => tt)). intros _ w' Hr. apply wp_ret. simpl.
    rewrite app_nil_r. eapply exclusive_settle; [exact Hex|exact Hi|done| | |exact Hr]; [done|].
    intros Hin. destruct Hex as [_ _ _ _ Hc _]. by specialize (Hc id i _ Hin Hi eq_refl).
  - apply wp_bind, (wp_mark id (fun now => failed msg (now + dispatchBackoff n)) (fun _ => tt)). intros _ w' Hr. apply wp_ret. simpl.
    rewrite app_nil_r. eapply exclusive_settle; [exact Hex|exact Hi|done| | |exact Hr]; [done|].
    intros Hin. destruct Hex as [_ _ _ _ Hc _]. by specialize (Hc id i _ Hin Hi eq_refl).
  - apply (wp_mark id (fun _ => dispatched) (fun r => PDone (match r with Ok _ => Ok tt | Err e => Err e end))).
    intros r w' Hr. simpl. rewrite app_nil_r.
    eapply exclusive_settle; [exact Hex|exact Hi|done| | |exact Hr]; done.
  - apply wp_ret. simpl. rewrite app_nil_r.
    eapply exclusive_idle; [exact Hex|exact Hi|done|by left].
Qed.

Lemma exclusive_start w ts :
  NoDup (job_ID <$> rows (w_jobs w)) -> Forall (fun t => inflight t.2 = false) ts ->
  exclusive w ts [].
Proof.
  intros Hu Hts. assert (H : forall i id c, ts !! i = Some (id, c) -> inflight c = true -> False).
  { intros i id c Hi Hf. apply list_elem_of_lookup_2 in Hi. rewrite Forall_forall in Hts.
    apply Hts in Hi. simpl in Hi. congruence. }
  split; try done; try (intros; exfalso; eauto; done); [|constructor].
  intros id Hin. set_solver.
Qed.

Lemma exclusive_steps s ids s' :
  csteps s ids s' -> NoDup (job_ID <$> rows (w_jobs s.1)) ->
  Forall (fun t => inflight t.2 = false) s.2 -> exclusive s'.1 s'.2 ids.
Proof.
  induction 1 as [[w ts]|s ids [w1 ts1] l [w2 ts2] _ IH Hs]; intros Hu Hts.
  - by apply exclusive_start.
  - eapply exclusive_step; [by apply IH|exact Hs].
Qed.
End Exclusion.
