(* ===== verification/HubEvents.v ===== *)
(** Every entry point of the run service is made of queue events.

    The optional collaborators are arbitrary computations of the model; what
    the queue needs of them is that they reach the job table and the Runners
    only through the same events (a finished-run hook, say, may trigger
    further runs). *)
From stdpp Require Import base list strings gmap.
From Stdlib Require Import ZArith Lia.
From S2P Require Import Prelude Common Gorm Json RunnerProto RunStore PipelineStore TargetStore.
From S2P Require Import World WorldLogic RunParams RunSpec RunDispatch RunTrigger RunControl.
From S2P Require Import RunSweeps DispatchTheory.
Import DispatchJobRepository.

Open Scope Z_scope.

Section Handlers.
Context {G : Gorm} {GL : GormLaws G} {P : Platform} {D : Dispatcher} {DL : DispatcherLaws D}
  {X : MetaV1}.

Record collaborators_safe (s : PipelineRunService) : Prop := mkSafe {
  safe_vars : forall v, varSource s = Some v ->
    (forall c, by_events (ComponentParams v c)) /\ (forall c, by_events (GroupParams v c));
  safe_meta : forall f, componentMeta s = Some f -> forall p, by_events (f p);
  safe_env : forall f, environmentMeta s = Some f -> forall c t n, by_events (f c t n);
  safe_policy : forall f, productionPolicy s = Some f -> forall l, by_events (f l);
  safe_hook : forall f, finishedHook s = Some f -> forall p ph, by_events (f p ph);
  safe_sink : forall f, notifySink s = Some f -> forall a b c d, by_events (f a b c d);
  safe_window : forall f, changeWindowGuard s = Some f -> by_events f;
  safe_guard : forall f, componentGuard s = Some f -> forall c, by_events (f c);
  safe_registry : forall f, artifactRegistry s = Some f -> forall a b c d e g, by_events (f a b c d e g);
}.

Lemma dispatchStateForRun_values runID w :
  (dispatchStateForRun runID w).1 = DispatchJobPending \/
  (dispatchStateForRun runID w).1 = DispatchJobHeld.
Proof.
  unfold dispatchStateForRun, bind, ret. destruct (zoom _ _ w) as [[run|e] w']; simpl; [|by left].
  destruct (String.eqb _ _); auto.
Qed.

Lemma ev_enqueueDispatch runID targetID apply_ : by_events (enqueueDispatch runID targetID apply_).
Proof.
  intros w. unfold enqueueDispatch, bind at 1.
  pose proof (dispatchStateForRun_values runID w) as Hst.
  assert (Hq : by_events (dispatchStateForRun runID)) by (unfold dispatchStateForRun; events).
  destruct (Hq w) as [ids1 H1]. destruct (dispatchStateForRun runID w) as [state w1]. simpl in *.
  match goal with |- exists ids, queue_trace w ids (?m w1).2 => assert (Hm : by_events m) end.
  { apply ev_try; [by apply ev_create|]. intros job. events. }
  destruct (Hm w1) as [ids2 H2]. exists (ids1 ++ ids2). by eapply queue_trace_app.
Qed.

Lemma ev_deliver_all jobs : by_events (deliver_all jobs).
Proof. unfold deliver_all. events. Qed.
Lemma ev_DrainTarget targetID : by_events (DrainTarget targetID).
Proof. unfold DrainTarget, ListPendingByTarget. events; apply ev_deliver_all. Qed.
Lemma ev_sweepOnce : by_events sweepOnce.
Proof. unfold sweepOnce, ListDueRetry. events; apply ev_deliver_all. Qed.
Lemma ev_Redispatch runID : by_events (Redispatch runID).
Proof. unfold Redispatch, LatestByRun, GetByID. events. Qed.
Lemma ev_find_template stages name : by_events (find_template stages name).
Proof. induction stages; simpl; events. Qed.
Lemma ev_get_run runID : by_events (get_run runID).
Proof. unfold get_run. events. Qed.
Lemma ev_get_task runID name : by_events (get_task runID name).
Proof. unfold get_task. events. Qed.
Lemma ev_relay t m fmt : is_apply m = false -> by_events (relay t m fmt).
Proof. intros Hm. unfold relay. apply ev_bind; [by apply ev_send|intros r; events]. Qed.
Lemma ev_promote l c : by_events (promote l c).
Proof. revert c. induction l; intros c; simpl; events. Qed.
End Handlers.

#[export] Hint Resolve ev_find_template ev_get_run ev_get_task ev_promote ev_enqueueDispatch
  ev_deliver_all : events.
#[export] Hint Extern 1 (by_events (relay _ _ _)) => (apply ev_relay; reflexivity) : events.

Section Service.
Context {G : Gorm} {GL : GormLaws G} {P : Platform} {D : Dispatcher} {DL : DispatcherLaws D}
  {X : MetaV1}.
Context (s : PipelineRunService) (Hs : collaborators_safe s).

(** A collaborator found by a [match] on its field. *)
Ltac collab :=
  match goal with
  | |- by_events (match ?f s with _ => _ end) => let E := fresh "E" in destruct (f s) eqn:E
  | H : varSource s = Some ?v |- by_events (ComponentParams ?v _) => apply (safe_vars s Hs v H)
  | H : varSource s = Some ?v |- by_events (GroupParams ?v _) => apply (safe_vars s Hs v H)
  | H : componentMeta s = Some ?f |- by_events (?f _) => exact (safe_meta s Hs f H _)
  | H : environmentMeta s = Some ?f |- by_events (?f _ _ _) => exact (safe_env s Hs f H _ _ _)
  | H : productionPolicy s = Some ?f |- by_events (?f _) => exact (safe_policy s Hs f H _)
  | H : finishedHook s = Some ?f |- by_events (?f _ _) => exact (safe_hook s Hs f H _ _)
  | H : notifySink s = Some ?f |- by_events (?f _ _ _ _) => exact (safe_sink s Hs f H _ _ _ _)
  | H : changeWindowGuard s = Some ?f |- by_events ?f => exact (safe_window s Hs f H)
  | H : componentGuard s = Some ?f |- by_events (?f _) => exact (safe_guard s Hs f H _)
  | H : artifactRegistry s = Some ?f |- by_events (?f _ _ _ _ _ _) =>
      exact (safe_registry s Hs f H _ _ _ _ _ _)
  end.
Ltac svc := repeat first [collab | event_step | solve [auto with events nocore]].

Lemma ev_triggerParams p ps : by_events (triggerParams s p ps).
Proof. unfold triggerParams. svc. Qed.
Lemma ev_buildSpec pid req : by_events (buildSpec s pid req).
Proof. unfold buildSpec, check_lifecycle. svc; apply ev_triggerParams. Qed.
Lemma ev_enforce spec ts : by_events (enforceProductionApproval s spec ts).
Proof. unfold enforceProductionApproval. svc. Qed.
Lemma ev_guards pid policy :
  by_events (guardConcurrency pid policy) /\ by_events (initial_phase s pid policy).
Proof. unfold guardConcurrency, initial_phase, shouldQueue, count_active. split; svc. Qed.
Lemma ev_seed_approvals run meta tasks : by_events (seed_approvals s run meta tasks).
Proof.
  unfold seed_approvals, seed_approval, applyApprovalPolicy, notify_approval. svc.
Qed.
Lemma ev_createRun pid tid spec ns params v req : by_events (createRun s pid tid spec ns params v req).
Proof.
  unfold createRun, concurrencyPolicyOf, resolve_meta, resolve_environment, seed_tasks.
  svc; try apply ev_guards; apply ev_seed_approvals.
Qed.

Lemma ev_selectTarget t : by_events (selectTarget t).
Proof. unfold selectTarget. svc. Qed.
Lemma ev_Trigger pid req : by_events (Trigger s pid req).
Proof.
  unfold Trigger, triggerFanout, check_change_window.
  svc; first [apply ev_selectTarget|apply ev_buildSpec|apply ev_enforce|apply ev_triggerParams|apply ev_createRun].
Qed.

Lemma ev_registerProducedArtifacts run ts : by_events (registerProducedArtifacts s run ts).
Proof. unfold registerProducedArtifacts, producesForTask. svc. Qed.
Lemma ev_ApplyStatus t p : by_events (ApplyStatus s t p).
Proof.
  unfold ApplyStatus, apply_task_status, notify_finished, store_rollout.
  svc; apply ev_registerProducedArtifacts.
Qed.
Lemma ev_Approve pid rid task ok who : by_events (Approve s pid rid task ok who).
Proof. unfold Approve, record_decision. svc. Qed.
Lemma ev_SweepRunTimeouts now : by_events (SweepRunTimeouts s now).
Proof. unfold SweepRunTimeouts, timeout_one, notify_timeout. svc. Qed.
Lemma ev_SweepQueued : by_events (SweepQueued s).
Proof. unfold SweepQueued, sweep_pipeline. svc. Qed.
Lemma ev_SweepApprovalTimeouts now : by_events (SweepApprovalTimeouts s now).
Proof. unfold SweepApprovalTimeouts, close_one, approvalTimeoutFor. svc. Qed.
End Service.

(** * The entry points *)

(** What the HTTP handlers, the gateway and the background loops call. *)
Inductive hub_call : Type :=
| CTrigger (pipelineID : UUID) (req : TriggerRequest)
| CApplyStatus (targetID : UUID) (payload : StatusUpdatePayload)
| CApprove (pipelineID runID : UUID) (taskName : string) (approved : bool) (approver : string)
| CControlRollout (runID : UUID) (taskName : string) (action : RolloutAction) (operator : string)
| CCancelRun (runID : UUID) (operator : string)
| CRerunTask (runID : UUID) (taskName operator : string)
| CRedispatch (runID : UUID)
| CRecordLogChunk (targetID : UUID) (payload : LogChunkPayload)
| CDrainTarget (targetID : UUID)
| CSweepPending
| CSweepRunTimeouts (now : Time)
| CSweepQueued
| CSweepApprovalTimeouts (now : Time)
| CUpsertApprovalPolicy (parse : string -> RawJSON) (p : ApprovalPolicy) (subject : string).

Section Calls.
Context {G : Gorm} {P : Platform} {D : Dispatcher} {X : MetaV1}.

Definition hub_run (s : PipelineRunService) (c : hub_call) : M World unit :=
  match c with
  | CTrigger pid req => ignore (Trigger s pid req)
  | CApplyStatus t p => ignore (ApplyStatus s t p)
  | CApprove pid rid task ok who => ignore (Approve s pid rid task ok who)
  | CControlRollout rid task action op => ignore (ControlRollout rid task action op)
  | CCancelRun rid op => ignore (CancelRun rid op)
  | CRerunTask rid task op => ignore (RerunTask rid task op)
  | CRedispatch rid => ignore (Redispatch rid)
  | CRecordLogChunk t p => ignore (RecordLogChunk t p)
  | CDrainTarget t => ignore (DrainTarget t)
  | CSweepPending => sweepOnce
  | CSweepRunTimeouts now => ignore (SweepRunTimeouts s now)
  | CSweepQueued => ignore (SweepQueued s)
  | CSweepApprovalTimeouts now => ignore (SweepApprovalTimeouts s now)
  | CUpsertApprovalPolicy parse p who => ignore (UpsertApprovalPolicy s parse p who)
  end.

(** A history of the hub: calls, and between them anything that leaves the
    queue alone, such as the clock, a connection or a definition changing. *)
Inductive hub_trace (s : PipelineRunService) (w : World) : World -> Prop :=
| ht_nil : hub_trace s w w
| ht_call c w1 w2 : (hub_run s c w).2 = w1 -> hub_trace s w1 w2 -> hub_trace s w w2
| ht_world w1 w2 :
    rows (w_jobs w1) = rows (w_jobs w) -> applies w1 = applies w ->
    hub_trace s w1 w2 -> hub_trace s w w2.
End Calls.

Section Histories.
Context {G : Gorm} {GL : GormLaws G} {P : Platform} {D : Dispatcher} {DL : DispatcherLaws D}
  {X : MetaV1}.

Lemma ev_hub_run s c : collaborators_safe s -> by_events (hub_run s c).
Proof.
  intros Hs. destruct c; simpl; try apply ev_ignore.
  - by apply ev_Trigger.
  - by apply ev_ApplyStatus.
  - by apply ev_Approve.
  - unfold ControlRollout. events.
  - unfold CancelRun. events.
  - unfold RerunTask. events.
  - apply ev_Redispatch.
  - unfold RecordLogChunk. events.
  - apply ev_DrainTarget.
  - apply ev_sweepOnce.
  - by apply ev_SweepRunTimeouts.
  - by apply ev_SweepQueued.
  - by apply ev_SweepApprovalTimeouts.
  - unfold UpsertApprovalPolicy. events.
Qed.

Lemma hub_trace_queue s w w' :
  collaborators_safe s -> hub_trace s w w' -> exists ids, queue_trace w ids w'.
Proof.
  intros Hs. induction 1 as [w|w c w1 w2 <- _ [ids IH]|w w1 w2 Hr Ha _ [ids IH]].
  - exists []. constructor.
  - destruct (ev_hub_run s c Hs w) as [ids1 H1]. exists (ids1 ++ ids). by eapply queue_trace_app.
  - exists ids. change ids with (option_list (None (A := UUID)) ++ ids).
    econstructor; [|exact IH]. by apply qs_other.
Qed.
End Histories.
