(* ===== verification/ApprovalTheory.v ===== *)
(** Approvals: once decided, a row never changes again.
    [approvals_final] is a frame in the sense of [Frames]; every entry point
    of the run service preserves it, provided the optional collaborators do.
    Status reports: what a Runner may change and what its report writes. *)
From stdpp Require Import base list strings gmap sorting.
From Stdlib Require Import ZArith Lia.
From S2P Require Import Prelude Common Gorm Json RunnerProto RunStore PipelineStore TargetStore.
From S2P Require Import World WorldLogic RunParams RunSpec RunDispatch RunTrigger RunControl.
From S2P Require Import RunSweeps Frames HubEvents.

Open Scope Z_scope.

Definition is_decided (a : PipelineApproval) : Prop := appr_Status a <> "Pending".

Section Frame.
Context {G : Gorm} {GL : GormLaws G} {P : Platform} {D : Dispatcher}.

(** Keys stay distinct and decided rows stay as they are. *)
Definition approvals_final (w w' : World) : Prop :=
  sound_rows (rows (w_approvals w)) ->
  sound_rows (rows (w_approvals w')) /\
  forall a, a ∈ rows (w_approvals w) -> is_decided a -> a ∈ rows (w_approvals w').

Lemma approvals_final_rows w w' :
  rows (w_approvals w') = rows (w_approvals w) -> approvals_final w w'.
Proof. intros E Hs. by rewrite E. Qed.

#[global] Instance approvals_final_frame : Frame approvals_final.
Proof.
  split; [split|].
  - intros w. by apply approvals_final_rows.
  - intros w1 w2 w3 H12 H23 H1. destruct (H12 H1) as [H2 Hk]. destruct (H23 H2) as [H3 Hk'].
    auto.
  - intros w w' [_ _ _ _ _ _ _ _ _ [E _]]. by apply approvals_final_rows.
Qed.

Lemma final_create (a : PipelineApproval) :
  Preserves approvals_final (stmt w_approvals (fun now => PipelineApprovalRepository.Create now a)).
Proof.
  intros w. apply (wp_stmt w_approvals _ (fun _ w' => approvals_final w w')), wp_Create.
  - intros r t _ (id & _ & Hnew & _ & ->) Hr [Hnd _]. simpl. rewrite Hr. split.
    + split; [|done]. rewrite fmap_app. simpl. apply NoDup_app. split; [done|].
      split; [set_solver|apply NoDup_singleton].
    + intros x Hx _. set_solver.
  - intros e t [E _]. by apply approvals_final_rows.
Qed.

(** Rewriting a row that is pending in [w]. *)
Lemma final_save w now pa pa' (t : Table PipelineApproval) :
  pa ∈ rows (w_approvals w) -> appr_Status pa = "Pending" -> appr_ID pa' = appr_ID pa ->
  rows t = save_rows now pa' (rows (w_approvals w)) -> approvals_final w (set_field w_approvals (fun _ => t) w).
Proof.
  intros Hin Hp Hid Hr Hs. simpl. rewrite Hr. split.
  - split; [|done]. rewrite pks_save_rows. apply Hs.
  - intros x Hx Hd. apply elem_of_save_rows. right. split; [done|]. simpl. rewrite Hid. intros E.
    apply Hd. by rewrite (sound_key _ x pa Hs Hx Hin E).
Qed.
End Frame.

#[export] Hint Extern 1 (Ignores approvals_final _) =>
  (intros ? ?; apply approvals_final_rows; reflexivity) : typeclass_instances.
#[export] Hint Resolve final_create : frames.

Section Service.
Context {G : Gorm} {GL : GormLaws G} {P : Platform} {D : Dispatcher} {X : MetaV1}.

(** Collaborators that preserve a frame. *)
Record collaborators_keep (R : World -> World -> Prop) (s : PipelineRunService) : Prop := mkKeep {
  keep_vars : forall v, varSource s = Some v ->
    (forall c, Preserves R (ComponentParams v c)) /\ (forall c, Preserves R (GroupParams v c));
  keep_meta : forall f, componentMeta s = Some f -> forall p, Preserves R (f p);
  keep_env : forall f, environmentMeta s = Some f -> forall c t n, Preserves R (f c t n);
  keep_policy : forall f, productionPolicy s = Some f -> forall l, Preserves R (f l);
  keep_hook : forall f, finishedHook s = Some f -> forall p ph, Preserves R (f p ph);
  keep_sink : forall f, notifySink s = Some f -> forall a b c d, Preserves R (f a b c d);
  keep_window : forall f, changeWindowGuard s = Some f -> Preserves R f;
  keep_guard : forall f, componentGuard s = Some f -> forall c, Preserves R (f c);
  keep_registry : forall f, artifactRegistry s = Some f ->
    forall a b c d e g, Preserves R (f a b c d e g);
}.

Context (s : PipelineRunService) (Hs : collaborators_keep approvals_final s).

Ltac collab :=
  match goal with
  | |- Preserves _ (match ?f s with _ => _ end) => let E := fresh "E" in destruct (f s) eqn:E
  | H : varSource s = Some ?v |- Preserves _ (ComponentParams ?v _) => apply (keep_vars _ s Hs v H)
  | H : varSource s = Some ?v |- Preserves _ (GroupParams ?v _) => apply (keep_vars _ s Hs v H)
  | H : componentMeta s = Some ?f |- Preserves _ (?f _) => exact (keep_meta _ s Hs f H _)
  | H : environmentMeta s = Some ?f |- Preserves _ (?f _ _ _) => exact (keep_env _ s Hs f H _ _ _)
  | H : productionPolicy s = Some ?f |- Preserves _ (?f _) => exact (keep_policy _ s Hs f H _)
  | H : finishedHook s = Some ?f |- Preserves _ (?f _ _) => exact (keep_hook _ s Hs f H _ _)
  | H : notifySink s = Some ?f |- Preserves _ (?f _ _ _ _) => exact (keep_sink _ s Hs f H _ _ _ _)
  | H : changeWindowGuard s = Some ?f |- Preserves _ ?f => exact (keep_window _ s Hs f H)
  | H : componentGuard s = Some ?f |- Preserves _ (?f _) => exact (keep_guard _ s Hs f H _)
  | H : artifactRegistry s = Some ?f |- Preserves _ (?f _ _ _ _ _ _) =>
      exact (keep_registry _ s Hs f H _ _ _ _ _ _)
  end.
Ltac svc := repeat first [collab | frame_step | solve [auto with frames nocore]].

Lemma final_tryDeliver id : Preserves approvals_final (tryDeliver id).
Proof. unfold tryDeliver. frame. Qed.
#[local] Hint Resolve final_tryDeliver : frames.
Lemma final_deliver_all l : Preserves approvals_final (deliver_all l).
Proof. unfold deliver_all. frame. Qed.
#[local] Hint Resolve final_deliver_all : frames.
Lemma final_find_template stages name : Preserves approvals_final (find_template stages name).
Proof. induction stages; simpl; frame. Qed.
#[local] Hint Resolve final_find_template : frames.
Lemma final_get_run id : Preserves approvals_final (get_run id).
Proof. unfold get_run. frame. Qed.
Lemma final_get_task id n : Preserves approvals_final (get_task id n).
Proof. unfold get_task. frame. Qed.
Lemma final_relay t m f : Preserves approvals_final (relay t m f).
Proof. unfold relay. frame. Qed.
#[local] Hint Resolve final_get_run final_get_task final_relay : frames.

Lemma final_seed_approvals run meta tasks : Preserves approvals_final (seed_approvals s run meta tasks).
Proof. unfold seed_approvals, seed_approval, applyApprovalPolicy, notify_approval. svc. Qed.
#[local] Hint Resolve final_seed_approvals : frames.
Lemma final_createRun pid tid spec ns params v req :
  Preserves approvals_final (createRun s pid tid spec ns params v req).
Proof.
  unfold createRun, concurrencyPolicyOf, guardConcurrency, initial_phase, shouldQueue, count_active,
    resolve_meta, resolve_environment, seed_tasks, enqueueDispatch, dispatchStateForRun. svc.
Qed.
Lemma final_triggerParams p ps : Preserves approvals_final (triggerParams s p ps).
Proof. unfold triggerParams. svc. Qed.
#[local] Hint Resolve final_createRun final_triggerParams : frames.
Lemma final_buildSpec pid req : Preserves approvals_final (buildSpec s pid req).
Proof. unfold buildSpec, check_lifecycle. svc. Qed.
#[local] Hint Resolve final_buildSpec : frames.
Lemma final_Trigger pid req : Preserves approvals_final (Trigger s pid req).
Proof.
  unfold Trigger, triggerFanout, check_change_window, selectTarget, enforceProductionApproval. svc.
Qed.

Lemma final_ApplyStatus t p : Preserves approvals_final (ApplyStatus s t p).
Proof.
  unfold ApplyStatus, apply_task_status, notify_finished, store_rollout,
    registerProducedArtifacts, producesForTask. svc.
Qed.

Lemma final_record_decision rid tr name ok who :
  Preserves approvals_final (record_decision s rid tr name ok who).
Proof.
  intros w. unfold record_decision. destruct (negb (approvalRepo s)); [reflexivity|].
  apply (wp_bind _ _ (fun _ w' => approvals_final w w')), (wp_zoom w_approvals), wp_First.
  2: { intros e t [E _] _ _ _. by apply wp_ret, approvals_final_rows. }
  intros pa t [E _] _ _ Hin.
  destruct (String.eqb_spec (appr_Status pa) "Pending") as [Hp|]; simpl;
    [|by apply approvals_final_rows].
  destruct (_ && _); [by apply approvals_final_rows|].
  apply wp_bind, wp_stmt, wp_Save_known.
  - simpl. rewrite E. apply list_elem_of_fmap. by exists pa.
  - intros t' _ Hr. apply wp_ret. simpl in Hr. rewrite E in Hr.
    exact (final_save w _ pa (decided pa ok who (w_now w)) t' Hin Hp eq_refl Hr).
  - intros e t' [E' _] _. apply wp_ret, approvals_final_rows. simpl. by rewrite E', <- E.
Qed.
#[local] Hint Resolve final_record_decision : frames.
Lemma final_Approve pid rid name ok who : Preserves approvals_final (Approve s pid rid name ok who).
Proof. unfold Approve. frame. Qed.

(** ** The approval sweep

    The sweep rewrites rows it read when it started; none of them was decided
    then, so the rows that were keep their keys to themselves. *)
Definition sweeping (l : list PipelineApproval) (w : World) : Prop :=
  sound_rows (rows (w_approvals w)) /\ pk <$> rows (w_approvals w) = pk <$> l /\
  forall a, a ∈ l -> is_decided a -> a ∈ rows (w_approvals w).

Lemma sweeping_rows l w w' :
  rows (w_approvals w') = rows (w_approvals w) -> sweeping l w -> sweeping l w'.
Proof. unfold sweeping. by intros ->. Qed.

Lemma quiet_approvalTimeoutFor run tid : Quiet (approvalTimeoutFor run tid).
Proof.
  assert (Hf : forall l n, Quiet (find_template l n)) by (induction l; intros; simpl; quiet; auto).
  unfold approvalTimeoutFor. quiet; auto.
Qed.

Lemma sweeping_close_one l now n pa w :
  sound_rows l -> pa ∈ l -> appr_Status pa = "Pending" -> sweeping l w ->
  wp (close_one now n pa) (fun _ => sweeping l) w.
Proof.
  intros Hl Hin Hp Hw. unfold close_one. destruct (appr_TaskRunID pa) as [tid|]; [|by apply wp_ret].
  apply wp_bind, wp_quiet; [quiet|]. intros [run|e] w1 _ H1.
  2: { apply wp_ret. destruct H1 as [_ _ _ _ _ _ _ _ _ [E _]]. by eapply sweeping_rows. }
  apply wp_bind, wp_quiet; [apply quiet_approvalTimeoutFor|]. intros t w2 _ H2.
  assert (Hw2 : sweeping l w2).
  { assert (H12 : same w w2) by (by etransitivity).
    destruct H12 as [_ _ _ _ _ _ _ _ _ [E _]]. by eapply sweeping_rows. }
  destruct t as [[name secs]|e]; [|by apply wp_ret]. destruct (_ || _); [by apply wp_ret|].
  apply wp_bind, (wp_preserves (R := keeps w_approvals)); [apply (pr_zoom w_link)|].
  intros [e|] w3 [[E _] _]; [by apply wp_ret; eapply sweeping_rows|].
  destruct Hw2 as (Hs2 & Hk & Hd). apply wp_bind, wp_stmt, wp_Save_known.
  - rewrite E, Hk. apply list_elem_of_fmap. by exists pa.
  - intros t _ Hr. apply wp_ret. unfold sweeping. simpl. rewrite Hr, E. split_and!.
    + split; [|done]. rewrite pks_save_rows. apply Hs2.
    + exact (eq_trans (pks_save_rows _ _ _) Hk).
    + intros a Ha Hda. apply elem_of_save_rows. right. split; [by apply Hd|]. intros Eid.
      apply Hda. by rewrite (sound_key _ a pa Hl Ha Hin Eid).
  - intros e t [Er _] _. apply wp_ret. eapply sweeping_rows; [|by split_and!].
    simpl. by rewrite Er, E.
Qed.

Lemma final_SweepApprovalTimeouts now : Preserves approvals_final (SweepApprovalTimeouts s now).
Proof.
  intros w. unfold SweepApprovalTimeouts. destruct (negb (approvalRepo s)); [reflexivity|].
  apply (wp_try _ _ (fun _ w' => approvals_final w w')), (wp_zoom w_approvals), wp_Find.
  2: { intros e t [E _] _. by apply approvals_final_rows. }
  intros l t [E _] Hq Hs0.
  assert (Hl : forall pa, pa ∈ l -> pa ∈ rows (w_approvals w) /\ appr_Status pa = "Pending").
  { intros pa Hpa. eapply query_result_elem in Hpa as (_ & Hst & Hin); [|exact Hq].
    split; [done|]. by apply String.eqb_eq. }
  clear Hq. cut (wp (fold_err (E := GoError) l 0 (close_one now)) (fun _ => sweeping (rows (w_approvals w)))
     (set_field w_approvals (fun _ => t) w)).
  { intros (Hsw & _ & Hd). by split. }
  assert (H0 : sweeping (rows (w_approvals w)) (set_field w_approvals (fun _ => t) w)).
  { unfold sweeping. simpl. by rewrite E. }
  revert H0. generalize (set_field w_approvals (fun _ => t) w) as w1. generalize 0 as n.
  induction l as [|pa l IH]; intros n w1 H1; simpl; [by apply wp_ret|].
  apply wp_try. destruct (Hl pa) as [Hin Hp]; [set_solver|].
  eapply wp_mono; [by apply sweeping_close_one|]. intros [n'|e] w2 H2; [|done].
  apply IH; [|done]. intros x Hx. apply Hl. set_solver.
Qed.

Lemma final_promote l c : Preserves approvals_final (promote l c).
Proof. revert c. induction l; intros c; simpl; frame. Qed.
#[local] Hint Resolve final_promote : frames.

(** ** All entry points *)

Lemma final_hub_run c : Preserves approvals_final (hub_run s c).
Proof.
  destruct c; simpl; try apply pr_ignore.
  - apply final_Trigger.
  - apply final_ApplyStatus.
  - apply final_Approve.
  - unfold ControlRollout. frame.
  - unfold CancelRun. frame.
  - unfold RerunTask. frame.
  - unfold Redispatch. frame.
  - unfold RecordLogChunk. frame.
  - unfold DrainTarget. frame.
  - unfold sweepOnce. frame.
  - unfold SweepRunTimeouts, timeout_one, notify_timeout. svc.
  - unfold SweepQueued, sweep_pipeline. frame.
  - apply final_SweepApprovalTimeouts.
  - unfold UpsertApprovalPolicy. frame.
Qed.

(** A history of calls. *)
Definition hub_calls (cs : list hub_call) (w : World) : World :=
  foldl (fun w c => (hub_run s c w).2) w cs.

Lemma final_calls cs w : approvals_final w (hub_calls cs w).
Proof.
  revert w. induction cs as [|c cs IH]; intros w; [reflexivity|].
  etransitivity; [apply (final_hub_run c)|apply IH].
Qed.
End Service.

Section Scope.
Context {G : Gorm} {GL : GormLaws G} {P : Platform} {D : Dispatcher} {X : MetaV1}.
Context (t : UUID).

(** A task of a run of another target. *)
Definition foreign_task (w : World) (tr : TaskRun) : Prop :=
  exists run, run ∈ rows (w_runs w) /\ run_ID run = task_PipelineRunID tr /\ run_TargetID run <> t.

Definition run_kept (w' : World) (run : PipelineRun) : Prop :=
  exists run', run' ∈ rows (w_runs w') /\ run_ID run' = run_ID run /\
    run_TargetID run' = run_TargetID run /\ (run_TargetID run <> t -> run' = run).

(** Only runs of [t], and tasks of such runs, change. *)
Definition within_target (w w' : World) : Prop :=
  sound_rows (rows (w_runs w)) -> sound_rows (rows (w_tasks w)) ->
  sound_rows (rows (w_runs w')) /\ sound_rows (rows (w_tasks w')) /\
  (forall run, run ∈ rows (w_runs w) -> run_kept w' run) /\
  (forall tr, tr ∈ rows (w_tasks w) -> foreign_task w tr -> tr ∈ rows (w_tasks w')).

Lemma within_rows w w' :
  rows (w_runs w') = rows (w_runs w) -> rows (w_tasks w') = rows (w_tasks w) -> within_target w w'.
Proof.
  intros Er Et Hr Ht. rewrite Er, Et. split_and!; try done. intros run Hin. exists run.
  by rewrite Er.
Qed.

#[global] Instance within_frame : Frame within_target.
Proof.
  split; [split|].
  - intros w. by apply within_rows.
  - intros w1 w2 w3 H12 H23 Hr1 Ht1. destruct (H12 Hr1 Ht1) as (Hr2 & Ht2 & Hk2 & Hf2).
    destruct (H23 Hr2 Ht2) as (Hr3 & Ht3 & Hk3 & Hf3). split_and!; [done|done| |].
    + intros run (run' & Hin' & E1 & E2 & E3)%Hk2. destruct (Hk3 run' Hin') as (r3 & ? & ? & ? & E4).
      exists r3. split_and!; [done|congruence|congruence|]. intros Hne. rewrite E4, E3; congruence.
    + intros tr Htr Hf. apply Hf3; [by apply Hf2|]. destruct Hf as (run & Hin & Hid & Hne).
      destruct (Hk2 run Hin) as (run' & Hin' & _ & _ & E). rewrite (E Hne) in Hin'. by exists run.
  - intros w w' [_ _ _ _ _ [Er _] [Et _]]. by apply within_rows.
Qed.

Lemma within_save_run now x r w (tb : Table PipelineRun) :
  x ∈ rows (w_runs w) -> run_TargetID x = t -> pk r = pk x -> run_TargetID r = run_TargetID x ->
  (forall y, clash (updated now r) y = clash x y /\ clash y (updated now r) = clash y x) ->
  rows tb = save_rows now r (rows (w_runs w)) ->
  within_target w (set_field w_runs (fun _ => tb) w).
Proof.
  intros Hx Hxt Hid Ht Hc E Hr Hts. simpl. rewrite E. split_and!; try done.
  - by eapply sound_save.
  - intros run Hin. unfold run_kept. simpl. rewrite E. destruct (decide (run_ID run = run_ID r)) as [Ei|Ei].
    + assert (run = x) as -> by (apply (sound_key _ _ _ Hr); [done|done|by transitivity (pk r)]).
      exists (updated now r). split_and!; try done.
      apply elem_of_save_rows. left. split; [done|]. rewrite Hid.
      apply list_elem_of_fmap. by exists x.
    + exists run. split_and!; try done. apply elem_of_save_rows. by right.
Qed.

Definition has_run (rid : UUID) (w : World) : Prop :=
  exists run, run ∈ rows (w_runs w) /\ run_ID run = rid /\ run_TargetID run = t.

Lemma within_has_run rid w w' :
  within_target w w' -> sound_rows (rows (w_runs w)) -> sound_rows (rows (w_tasks w)) ->
  has_run rid w -> has_run rid w'.
Proof.
  intros H Hr Ht (run & Hin & <- & Htg). destruct (H Hr Ht) as (_ & _ & Hk & _).
  destruct (Hk run Hin) as (run' & ? & ? & ? & _). exists run'. split_and!; congruence.
Qed.

(** A task row of a run of [t] is nobody else's. *)
Lemma own_task w rid tr tr' :
  sound_rows (rows (w_runs w)) -> sound_rows (rows (w_tasks w)) -> has_run rid w ->
  tr ∈ rows (w_tasks w) -> task_PipelineRunID tr = rid ->
  tr' ∈ rows (w_tasks w) -> foreign_task w tr' -> task_ID tr' <> task_ID tr.
Proof.
  intros Hr Ht (run & Hin & Hid & Htg) Htr Hrid Htr' (run' & Hin' & Hid' & Hne) E.
  assert (tr' = tr) as -> by (by apply (sound_key _ _ _ Ht)).
  apply Hne. by rewrite (sound_key _ run' run Hr Hin' Hin) by (simpl; congruence).
Qed.

Lemma within_tasks w (tb : Table TaskRun) :
  (sound_rows (rows (w_runs w)) -> sound_rows (rows (w_tasks w)) -> sound_rows (rows tb) /\
     forall tr, tr ∈ rows (w_tasks w) -> foreign_task w tr -> tr ∈ rows tb) ->
  within_target w (set_field w_tasks (fun _ => tb) w).
Proof.
  intros H Hr Ht. destruct (H Hr Ht) as [H1 H2]. split_and!; [done|done| |done].
  intros run Hin. by exists run.
Qed.

Lemma within_SaveStatus now rid ts w :
  has_run rid w ->
  wp (TaskRunRepository.SaveStatus now rid ts) (fun _ tb =>
    within_target w (set_field w_tasks (fun _ => tb) w)) (w_tasks w).
Proof.
  intros Hrun. unfold TaskRunRepository.SaveStatus. apply wp_bind, wp_First.
  - intros tr t1 [E1 _] _ [Hrid%Z.eqb_eq _]%andb_true_iff Hin. apply wp_bind, wp_Save_known.
    + rewrite E1. apply list_elem_of_fmap. by exists tr.
    + intros t2 _ E2. apply wp_ret, within_tasks. rewrite E2, E1. intros Hr Ht. split.
      * by apply (sound_save now tr (TaskRunRepository.merge_status tr ts)).
      * intros tr' Hin' Hf. apply elem_of_save_rows. right. split; [done|]. by apply (own_task w rid tr tr').
    + intros e t2 [E2 _] _. apply wp_ret, within_rows; [done|exact (eq_trans E2 E1)].
  - intros e t1 [E1 _] _ _ _. apply wp_bind, wp_Create.
    + intros r t2 _ (id & _ & Hnew & _ & ->) E2. apply wp_ret, within_tasks. rewrite E2, E1 in *.
      intros _ Ht. split; [|intros; set_solver]. split; [|done].
      rewrite fmap_app. apply NoDup_app. split; [apply Ht|]. split; [|apply NoDup_singleton].
      intros x Hx ->%list_elem_of_singleton. done.
    + intros e2 t2 [E2 _]. apply wp_ret, within_rows; [done|exact (eq_trans E2 E1)].
Qed.

Context (s : PipelineRunService) (Hs : collaborators_keep within_target s).

#[local] Instance within_ignores_rollouts : Ignores within_target w_rollouts.
Proof. intros w tb. by apply within_rows. Qed.

Lemma within_artifacts run ts : Preserves within_target (registerProducedArtifacts s run ts).
Proof.
  unfold registerProducedArtifacts, producesForTask.
  assert (Hf : forall l n, Quiet (find_template l n)) by (induction l; intros; simpl; quiet; auto).
  destruct (artifactRegistry s) as [f|] eqn:E; [|apply pr_ret].
  pose proof (keep_registry _ s Hs f E) as Hk. frame; first [apply Hk | by apply pr_quiet].
Qed.

Lemma within_rollout run ts : Preserves within_target (store_rollout s run ts).
Proof. unfold store_rollout. frame. Qed.

Lemma within_notify run : Preserves within_target (notify_finished s run).
Proof.
  unfold notify_finished. pose proof (keep_sink _ s Hs) as Hk.
  frame; auto.
Qed.

Lemma within_task_status run ts w :
  has_run (run_ID run) w -> within_target w (apply_task_status s run ts w).2.
Proof.
  intros Hrun. unfold apply_task_status. apply (wp_bind _ _ (fun _ w' => within_target w w')).
  apply wp_stmt. eapply wp_mono; [by apply within_SaveStatus|]. intros [e|] tb Htb; [exact Htb|].
  set (w1 := set_field w_tasks (fun _ => tb) w) in *.
  assert (Hrest : Preserves within_target (registerProducedArtifacts s run ts ;;;
    store_rollout s run ts ;;; ret (Ok (E := GoError) tt))).
  { apply pr_bind; [apply within_artifacts|]. intros _. apply pr_bind; [apply within_rollout|].
    intros _. apply pr_ret. }
  change (within_target w ((registerProducedArtifacts s run ts ;;;
    store_rollout s run ts ;;; ret (Ok (E := GoError) tt)) w1).2).
  etransitivity; [exact Htb|apply Hrest].
Qed.

Lemma within_tasks_loop run l w :
  has_run (run_ID run) w -> within_target w (for_each_err l (apply_task_status s run) w).2.
Proof.
  revert w. induction l as [|ts l IH]; intros w Hrun Hr Ht; [by apply within_rows|]. revert Hr Ht.
  change (wp (for_each_err (ts :: l) (apply_task_status s run)) (fun _ w' => within_target w w') w).
  simpl. apply wp_try, wp_run. intros r w1 E. pose proof (within_task_status run ts w Hrun) as H1.
  rewrite E in H1. simpl in H1. destruct r as [[]|e]; [|exact H1].
  intros Hr Ht. destruct (H1 Hr Ht) as (Hr1 & Ht1 & _).
  assert (H2 : within_target w (for_each_err l (apply_task_status s run) w1).2).
  { etransitivity; [exact H1|]. apply IH. by eapply within_has_run. }
  by apply H2.
Qed.

Lemma within_report run l w :
  has_run (run_ID run) w ->
  within_target w (((if isTerminalPhase (run_Phase run)
       then call_opt (finishedHook s) (fun hook => hook (run_PipelineID run) (run_Phase run))
       else ret tt) ;;; notify_finished s run ;;;
      for_each_err l (apply_task_status s run)) w).2.
Proof.
  intros Hrun Hr Ht. revert Hr Ht. set (hook := if isTerminalPhase _ then _ else _).
  assert (Hhook : Preserves within_target (hook ;;; notify_finished s run)).
  { apply pr_bind; [|intros; apply within_notify]. unfold hook. destruct (isTerminalPhase _); [|apply pr_ret].
    apply pr_call_opt. intros f E. by apply (keep_hook _ s Hs f E). }
  specialize (Hhook w). unfold bind in Hhook |- *. destruct (hook w) as [[] w1].
  destruct (notify_finished s run w1) as [[] w2]. simpl in Hhook.
  intros Hr Ht. destruct (Hhook Hr Ht) as (Hr2 & Ht2 & _).
  assert (H2 : has_run (run_ID run) w2) by (by eapply within_has_run).
  assert (Hall : within_target w (for_each_err l (apply_task_status s run) w2).2).
  { etransitivity; [exact Hhook|]. by apply within_tasks_loop. }
  by apply Hall.
Qed.

Lemma within_ApplyStatus payload : Preserves within_target (ApplyStatus s t payload).
Proof.
  intros w. unfold ApplyStatus. apply (wp_bind _ _ (fun _ w' => within_target w w')).
  apply (wp_zoom w_runs), wp_First.
  2: { intros e tb [E _] _ _ _. by apply wp_ret, within_rows. }
  intros run tb [E _] _ [_ Ht%Z.eqb_eq]%andb_true_iff Hin.
  apply wp_try, wp_stmt, wp_Save_known.
  - simpl. rewrite E. apply list_elem_of_fmap. by exists run.
  - intros tb' _ E'. simpl in E'. rewrite E in E'.
    set (r := updated (w_now w) (merge_run_status run payload)) in *.
    set (w1 := set_field w_runs (fun _ => tb') (set_field w_runs (fun _ => tb) w)).
    change (within_target w (((if isTerminalPhase (run_Phase r)
       then call_opt (finishedHook s) (fun hook => hook (run_PipelineID r) (run_Phase r))
       else ret tt) ;;; notify_finished s r ;;;
      for_each_err (su_Tasks payload) (apply_task_status s r)) w1).2).
    etransitivity; [|apply within_report].
    + exact (within_save_run _ run (merge_run_status run payload) w tb' Hin Ht eq_refl eq_refl
               (fun y => conj eq_refl eq_refl) E').
    + exists r. split_and!; [|done|done]. simpl. rewrite E'. apply elem_of_save_rows. left.
      split; [done|]. apply list_elem_of_fmap. by exists run.
  - intros e tb' [E' _] _. apply within_rows; [|done]. simpl. by rewrite E', <- E.
Qed.
End Scope.

(** ** What a report writes *)

Section Report.
Context {G : Gorm} {GL : GormLaws G} {P : Platform} {D : Dispatcher} {X : MetaV1}.

(** A task row that carries this status. *)
Definition reported (rid : UUID) (ts : TaskRunStatusSummary) (tr : TaskRun) : Prop :=
  task_PipelineRunID tr = rid /\ task_TaskName tr = tss_Name ts /\
  (tss_Phase ts <> "" -> task_Phase tr = tss_Phase ts) /\
  task_RetryCount tr = tss_RetryCount ts /\ task_Message tr = tss_Message ts /\
  task_CRName tr = tss_TaskRunRef ts /\
  (forall x, tss_StartTime ts = Some x -> task_StartTime tr = Some x) /\
  (forall x, tss_CompletionTime ts = Some x -> task_CompletionTime tr = Some x).

Lemma wp_SaveStatus now rid ts (tb : Table TaskRun) :
  sound_rows (rows tb) ->
  wp (TaskRunRepository.SaveStatus now rid ts) (fun r tb' => sound_rows (rows tb') /\ (r = None ->
    (exists tr, tr ∈ rows tb' /\ reported rid ts tr) /\
    forall tr, tr ∈ rows tb -> TaskRunRepository.of_node rid (tss_Name ts) tr = false -> tr ∈ rows tb')) tb.
Proof.
  intros Hs. unfold TaskRunRepository.SaveStatus. apply wp_bind, wp_First.
  - intros tr t1 [E1 _] _ Hnode Hin.
    pose proof Hnode as [Hrid%Z.eqb_eq Hname%String.eqb_eq]%andb_true_iff.
    apply wp_bind, wp_Save_known.
    + rewrite E1. apply list_elem_of_fmap. by exists tr.
    + intros t2 _ E2. apply wp_ret. rewrite E2, E1. split; [|intros _; split].
      * by apply (sound_save now tr (TaskRunRepository.merge_status tr ts)).
      * eexists. split; [apply elem_of_save_rows; left; split; [done|]|].
        { apply list_elem_of_fmap. by exists tr. }
        unfold reported. simpl. split_and!; try done; by intros x ->.
      * intros tr' Hin' Hn. apply elem_of_save_rows. right. split; [done|]. intros Eid.
        assert (tr' = tr) as -> by (by apply (sound_key _ _ _ Hs)). exact (eq_true_false_abs _ Hnode Hn).
    + intros e t2 [E2 _] _. apply wp_ret. by rewrite E2, E1.
  - intros e t1 [E1 _] _ _ _. apply wp_bind, wp_Create.
    + intros r t2 _ (id & _ & Hnew & _ & ->) E2. apply wp_ret. rewrite E2, E1 in *. split.
      { split; [|done]. rewrite fmap_app. apply NoDup_app. split; [apply Hs|].
        split; [|apply NoDup_singleton]. by intros x Hx ->%list_elem_of_singleton. }
      intros _. split; [|set_solver]. eexists. split; [apply elem_of_app; right; left|].
      unfold reported. simpl. split_and!; try done; try by intros x ->.
      intros Hp. unfold default_str, empty_string. by rewrite (proj2 (String.eqb_neq _ _) Hp).
    + intros e2 t2 [E2 _]. apply wp_ret. by rewrite E2, E1.
Qed.

Context (s : PipelineRunService).

Definition runs_tasks : World -> World -> Prop := both (keeps w_runs) (keeps w_tasks).

Context (Hs : collaborators_keep runs_tasks s).

Lemma report_hooks run : Preserves runs_tasks (notify_finished s run) /\
  (forall ts, Preserves runs_tasks (registerProducedArtifacts s run ts)) /\
  (forall ts, Preserves runs_tasks (store_rollout s run ts)).
Proof.
  assert (Hf : forall l n, Quiet (find_template l n)) by (induction l; intros; simpl; quiet; auto).
  pose proof (keep_sink _ s Hs) as Hsink. unfold runs_tasks in *. split_and!.
  - unfold notify_finished. frame; auto.
  - intros ts. unfold registerProducedArtifacts, producesForTask.
    destruct (artifactRegistry s) as [f|] eqn:E; [|apply pr_ret].
    pose proof (keep_registry _ s Hs f E) as Hk. frame; first [apply Hk | by apply pr_quiet].
  - intros ts. unfold store_rollout. frame.
Qed.

(** Every status of the list is on a task row of the run. *)
Definition all_reported (rid : UUID) (l : list TaskRunStatusSummary) (w : World) : Prop :=
  forall ts, ts ∈ l -> exists tr, tr ∈ rows (w_tasks w) /\ reported rid ts tr.

Lemma wp_task_status run ts w :
  sound_rows (rows (w_tasks w)) ->
  wp (apply_task_status s run ts) (fun r w' => rows (w_runs w') = rows (w_runs w) /\
    sound_rows (rows (w_tasks w')) /\ (r = Ok tt ->
    all_reported (run_ID run) [ts] w' /\
    forall tr, tr ∈ rows (w_tasks w) -> TaskRunRepository.of_node (run_ID run) (tss_Name ts) tr = false ->
      tr ∈ rows (w_tasks w'))) w.
Proof.
  intros Hw. unfold apply_task_status. apply wp_bind, wp_stmt.
  eapply wp_mono; [by apply wp_SaveStatus|]. intros [e|] tb [Htb H]; [by apply wp_ret|].
  destruct (report_hooks run) as (_ & Hreg & Hro).
  apply wp_bind, (wp_preserves (R := runs_tasks)); [apply Hreg|]. intros _ w1 [[[E1 _] _] [[E1' _] _]].
  apply wp_bind, (wp_preserves (R := runs_tasks)); [apply Hro|]. intros _ w2 [[[E2 _] _] [[E2' _] _]].
  apply wp_ret. rewrite E2, E1, E2', E1'. split; [done|]. split; [exact Htb|]. intros _.
  destruct (H eq_refl) as [(tr & Hin & Hrep) Hkeep]. split; [|exact Hkeep].
  intros ts' ->%list_elem_of_singleton. exists tr. by rewrite E2', E1'.
Qed.

Lemma wp_tasks_loop run l pre w :
  sound_rows (rows (w_tasks w)) -> NoDup (tss_Name <$> (pre ++ l)) -> all_reported (run_ID run) pre w ->
  wp (for_each_err l (apply_task_status s run)) (fun r w' => rows (w_runs w') = rows (w_runs w) /\
    (r = Ok tt -> all_reported (run_ID run) (pre ++ l) w')) w.
Proof.
  revert pre w. induction l as [|ts l IH]; intros pre w Hw Hnd Hpre; simpl.
  { apply wp_ret. rewrite app_nil_r. by split. }
  apply wp_try. eapply wp_mono; [by apply wp_task_status|].
  intros [[]|e] w1 (E1 & Hw1 & H); [|done]. destruct (H eq_refl) as [Hts Hkeep].
  eapply wp_mono; [apply (IH (pre ++ [ts])); [done| |]|].
  - by rewrite <- app_assoc.
  - intros ts' [Hin|Hin]%elem_of_app; [|by apply Hts].
    destruct (Hpre ts' Hin) as (tr & Htr & Hrep). exists tr. split; [|done].
    apply Hkeep; [done|]. destruct Hrep as (_ & Hname & _). apply andb_false_iff. right.
    apply String.eqb_neq. rewrite Hname. intros E.
    rewrite fmap_app, fmap_cons in Hnd. apply NoDup_app in Hnd as (_ & Hd & _).
    apply (Hd (tss_Name ts')); [apply list_elem_of_fmap; by exists ts'|]. rewrite E. left.
  - intros r w2 [E2 H2]. rewrite E2. split; [done|]. by rewrite <- app_assoc in H2.
Qed.
End Report.
