(* ===== verification/SweepTheory.v ===== *)
(** Loops that rewrite the rows they read: the timeout sweep and the promotion
    of queued runs.

    Saving selected rows one after the other is one pass over the table:
    [rewrite f ids l] rewrites with [f] the rows whose key is in [ids]. *)
From stdpp Require Import base list strings gmap sorting.
From Stdlib Require Import ZArith Lia.
From S2P Require Import Prelude Common Gorm Json RunnerProto RunStore PipelineStore TargetStore.
From S2P Require Import World WorldLogic RunParams RunSpec RunDispatch RunTrigger RunControl.
From S2P Require Import RunSweeps Frames TriggerTheory ApprovalTheory.
Import DispatchJobRepository.

Open Scope Z_scope.

(** * One pass over a table *)

Section Rewrite.
Context {R : Type} `{Model R} {ML : ModelLaws R}.

Definition rewrite_rows (f : R -> R) (ids : list UUID) (l : list R) : list R :=
  (fun r => if bool_decide (pk r ∈ ids) then f r else r) <$> l.

Lemma rewrite_rows_nil f l : rewrite_rows f [] l = l.
Proof.
  unfold rewrite_rows. rewrite <- (list_fmap_id l) at 2. apply list_fmap_ext. intros i r _.
  by rewrite bool_decide_eq_false_2 by set_solver.
Qed.

Lemma rewrite_rows_elem f ids l r :
  r ∈ l -> pk r ∉ ids -> r ∈ rewrite_rows f ids l.
Proof.
  intros Hr Hn. apply list_elem_of_fmap. exists r. by rewrite bool_decide_eq_false_2.
Qed.

Lemma pks_rewrite f ids l : (forall r, pk (f r) = pk r) -> pk <$> rewrite_rows f ids l = pk <$> l.
Proof.
  intros Hf. unfold rewrite_rows. rewrite <- list_fmap_compose. apply list_fmap_ext.
  intros i r _. simpl. by case_bool_decide.
Qed.

(** A rewrite that keeps a condition keeps the number of rows that meet it. *)
Lemma length_selected_fmap (p : R -> bool) (g : R -> R) (l : list R) :
  (forall x, x ∈ l -> alive (g x) && p (g x) = alive x && p x) ->
  length (selected p (g <$> l)) = length (selected p l).
Proof.
  unfold selected. induction l as [|x l IH]; intros Hg; [done|]. rewrite fmap_cons, !filter_cons.
  rewrite Hg by left. case_decide; simpl; rewrite IH; try done; intros; apply Hg; by right.
Qed.

(** One more row: [x] was read from the table and is saved as [y]. *)
Lemma save_rewrite now f ids (l ext : list R) x y :
  NoDup (pk <$> l) -> x ∈ l -> pk y = pk x -> updated now y = f x -> pk x ∉ ids ->
  (forall r, pk (f r) = pk r) -> pk x ∉ (pk <$> ext) ->
  save_rows now y (rewrite_rows f ids l ++ ext) = rewrite_rows f (ids ++ [pk x]) l ++ ext.
Proof.
  intros Hnd Hx Hk Hf Hn Hpk Hext. unfold save_rows. rewrite fmap_app. f_equal.
  - unfold rewrite_rows. rewrite <- list_fmap_compose. apply list_fmap_ext.
    intros i r Hr. simpl. destruct (decide (pk r = pk x)) as [E|E].
    + assert (r = x) as ->.
      { apply list_elem_of_lookup in Hx as (k & Hk'). assert (i = k); [|by simplify_eq].
        eapply NoDup_lookup; [exact Hnd| |]; rewrite list_lookup_fmap; [by rewrite Hr|].
        rewrite Hk'. simpl. by rewrite E. }
      rewrite (bool_decide_eq_false_2 (pk x ∈ ids)) by done.
      rewrite (bool_decide_eq_true_2 (pk x = pk y)) by done.
      by rewrite bool_decide_eq_true_2 by set_solver.
    + rewrite (bool_decide_ext (pk r ∈ ids ++ [pk x]) (pk r ∈ ids)) by set_solver.
      rewrite bool_decide_eq_false_2; [done|]. rewrite Hk. by case_bool_decide; rewrite ?Hpk.
  - rewrite <- (list_fmap_id ext) at 2. apply list_fmap_ext. intros i r Hr. simpl.
    rewrite bool_decide_eq_false_2; [done|]. rewrite Hk. intros E. apply Hext. rewrite <- E.
    apply list_elem_of_fmap. exists r. split; [done|by eapply list_elem_of_lookup_2].
Qed.
End Rewrite.

(** * Run timeouts *)

Section Timeouts.
Context {G : Gorm} {GL : GormLaws G} {P : Platform} {D : Dispatcher} {X : MetaV1}.

(** What the collaborators may do to the runs: add some. *)
Definition runs_added (w w' : World) : Prop :=
  w_now w' = w_now w /\ (healthy (w_runs w) -> healthy (w_runs w')) /\
  (sound_rows (rows (w_runs w)) -> sound_rows (rows (w_runs w'))) /\
  exists l, rows (w_runs w') = rows (w_runs w) ++ l.

Lemma runs_added_keeps w w' :
  w_now w' = w_now w -> (healthy (w_runs w) -> healthy (w_runs w')) ->
  rows (w_runs w') = rows (w_runs w) -> runs_added w w'.
Proof. intros Hn Hh E. split_and!; [done|done|by rewrite E|exists []; by rewrite app_nil_r]. Qed.

#[global] Instance runs_added_frame : Frame runs_added.
Proof.
  split; [split|].
  - intros w. by apply runs_added_keeps.
  - intros w1 w2 w3 (N1 & H1 & S1 & l1 & E1) (N2 & H2 & S2 & l2 & E2).
    split_and!; [congruence|auto|auto|]. exists (l1 ++ l2). by rewrite E2, E1, app_assoc.
  - intros w w' [Hn _ _ _ _ [E H]]. by apply runs_added_keeps.
Qed.

Definition timed_out_row (now : Time) (at_ : Time) (run : PipelineRun) : PipelineRun :=
  updated at_ (timed_out_run run now).

Record timing_out (now : Time) (w0 : World) (ids : list UUID) (w : World) : Prop := mkTimingOut {
  to_now : w_now w = w_now w0;
  to_healthy : healthy (w_runs w);
  to_sound : sound_rows (rows (w_runs w));
  to_rows : exists ext, rows (w_runs w) =
    rewrite_rows (timed_out_row now (w_now w0)) ids (rows (w_runs w0)) ++ ext;
}.

Lemma timing_out_added now w0 ids w w' :
  runs_added w w' -> timing_out now w0 ids w -> timing_out now w0 ids w'.
Proof.
  intros (N & H & S & l & E) [N0 H0 S0 [ext E0]]. split; [congruence|auto|auto|].
  exists (ext ++ l). by rewrite E, E0, app_assoc.
Qed.

Lemma timeout_one_step s now n w0 ids run w :
  collaborators_keep runs_added s -> sound_rows (rows (w_runs w0)) -> run ∈ rows (w_runs w0) ->
  run_ID run ∉ ids -> timing_out now w0 ids w ->
  wp (timeout_one s now n run) (fun r w' => r = Ok (n + 1) /\
    timing_out now w0 (ids ++ [run_ID run]) w') w.
Proof.
  intros Hs Hs0 Hin Hids [N Hh S [ext E]]. unfold timeout_one.
  assert (Hrow : run ∈ rows (w_runs w)).
  { rewrite E. apply elem_of_app. left. by apply rewrite_rows_elem. }
  apply wp_bind, wp_stmt, (wp_Save_row _ _ run); [done|done|done|done|done|].
  intros t Hht Et. set (w1 := set_field w_runs (fun _ => t) w).
  assert (Hext : pk run ∉ (pk <$> ext)).
  { intros Hx. pose proof (sr_keys _ S) as Hnd. rewrite E, fmap_app in Hnd.
    apply NoDup_app in Hnd as (_ & Hd & _). apply (Hd (pk run)); [|done].
    rewrite pks_rewrite by done. apply list_elem_of_fmap. by exists run. }
  assert (H1 : timing_out now w0 (ids ++ [run_ID run]) w1).
  { split; [done|done| |].
    - simpl. rewrite Et. by apply (sound_save (w_now w) run (timed_out_run run now)).
    - exists ext. simpl. rewrite Et, E, N. apply (save_rewrite (H := PipelineRun_model) (w_now w0) (timed_out_row now (w_now w0)) ids (rows (w_runs w0)) ext run); try done.
      apply Hs0. }
  apply wp_bind, (wp_preserves (R := runs_added)).
  { apply pr_call_opt. intros f Hf. by apply (keep_hook _ s Hs). }
  intros _ w2 H2. apply wp_bind, (wp_preserves (R := runs_added)).
  { unfold notify_timeout. pose proof (keep_sink _ s Hs). frame; auto. }
  intros _ w3 H3. apply wp_ret. split; [done|].
  eapply timing_out_added; [exact H3|]. by eapply timing_out_added.
Qed.

Lemma timeout_loop s now w0 l n ids w :
  collaborators_keep runs_added s -> sound_rows (rows (w_runs w0)) ->
  (forall run, run ∈ l -> run ∈ rows (w_runs w0)) -> NoDup (ids ++ (run_ID <$> l)) ->
  timing_out now w0 ids w ->
  wp (fold_err l n (timeout_one s now)) (fun r w' => r = Ok (n + Z.of_nat (length l)) /\
    timing_out now w0 (ids ++ (run_ID <$> l)) w') w.
Proof.
  intros Hs Hs0. revert n ids w. induction l as [|run l IH]; intros n ids w Hin Hnd Hw; simpl.
  { apply wp_ret. rewrite app_nil_r, Z.add_0_r. done. }
  apply wp_try. rewrite fmap_cons, (cons_middle (run_ID run) ids), app_assoc in Hnd.
  eapply wp_mono; [apply (timeout_one_step s now n w0 ids run w); try done|].
  - apply Hin. left.
  - apply NoDup_app in Hnd as (Hnd & _ & _). apply NoDup_app in Hnd as (_ & Hd & _).
    intros Hx. apply (Hd _ Hx). by apply list_elem_of_singleton.
  - intros r w1 [-> H1]. eapply wp_mono; [apply IH; [|exact Hnd|exact H1]|].
    + intros x Hx. apply Hin. by right.
    + intros r w2 [-> H2]. split; [f_equal; lia|]. by rewrite <- app_assoc in H2.
Qed.
End Timeouts.

(** * Promotion of queued runs *)

(** Releasing the jobs of several runs is one pass over the job table. *)
Definition released_by (rids : list UUID) (j : DispatchJob) : bool :=
  bool_decide (job_PipelineRunID j ∈ rids) && String.eqb (job_State j) DispatchJobHeld.

Lemma update_released now rids rid (l : list DispatchJob) :
  update_rows now (held_of rid) released (update_rows now (released_by rids) released l) =
  update_rows now (released_by (rids ++ [rid])) released l.
Proof.
  unfold update_rows. rewrite <- list_fmap_compose. apply list_fmap_ext. intros i j _. simpl.
  unfold released_by, held_of.
  destruct (String.eqb (job_State j) DispatchJobHeld) eqn:Eh; rewrite ?andb_true_r, ?andb_false_r.
  2: { by rewrite Eh, andb_false_r. }
  case_bool_decide as Hin; simpl.
  - rewrite andb_false_r. by rewrite bool_decide_eq_true_2 by set_solver.
  - rewrite Eh, andb_true_r. destruct (Z.eqb_spec (job_PipelineRunID j) rid) as [->|Hne].
    + by rewrite bool_decide_eq_true_2 by set_solver.
    + by rewrite bool_decide_eq_false_2 by set_solver.
Qed.

Lemma update_released_nil now (l : list DispatchJob) : update_rows now (released_by []) released l = l.
Proof.
  apply update_rows_none, elem_of_nil_inv. intros j (_ & Hj & _)%elem_of_selected.
  apply andb_true_iff in Hj as [Hj%bool_decide_eq_true_1 _]. set_solver.
Qed.

Section Promotion.
Context {G : Gorm} {GL : GormLaws G} {P : Platform} {D : Dispatcher} {X : MetaV1}.

Definition promoted_row (now : Time) (run : PipelineRun) : PipelineRun :=
  updated now (run <| run_Phase := PipelineRunPending |>).

(** The runs with these ids were promoted since [w0], nothing else happened. *)
Record promoting (w0 : World) (ids : list UUID) (w : World) : Prop := mkPromoting {
  pg_now : w_now w = w_now w0;
  pg_healthy : healthy (w_runs w) /\ healthy (w_jobs w);
  pg_runs : rows (w_runs w) = rewrite_rows (promoted_row (w_now w0)) ids (rows (w_runs w0));
  pg_jobs : rows (w_jobs w) = update_rows (w_now w0) (released_by ids) released (rows (w_jobs w0));
  pg_link : w_link w = w_link w0;
}.

Lemma promoting_sound w0 ids w :
  sound_rows (rows (w_runs w0)) -> promoting w0 ids w -> sound_rows (rows (w_runs w)).
Proof.
  intros Hs [_ _ -> _ _]. apply sound_update; [intros x; by case_bool_decide| |done].
  intros x y. by do 2 case_bool_decide.
Qed.

Lemma wp_promote w0 runs cap ids w :
  sound_rows (rows (w_runs w0)) -> (forall run, run ∈ runs -> run ∈ rows (w_runs w0)) ->
  NoDup (ids ++ (run_ID <$> runs)) -> promoting w0 ids w ->
  wp (promote runs cap) (fun _ w' =>
    promoting w0 (ids ++ (run_ID <$> take (Z.to_nat cap) runs)) w') w.
Proof.
  intros Hs0. revert cap ids w. induction runs as [|run runs IH]; intros cap ids w Hin Hnd Hw; simpl.
  { apply wp_ret. by rewrite take_nil, app_nil_r. }
  destruct (Z.leb_spec cap 0) as [Hc|Hc].
  { apply wp_ret. replace (Z.to_nat cap) with 0%nat by lia. simpl. by rewrite app_nil_r. }
  pose proof (promoting_sound w0 ids w Hs0 Hw) as Hs. destruct Hw as [N [Hhr Hhj] Er Ej El].
  rewrite fmap_cons, (cons_middle (run_ID run) ids), app_assoc in Hnd.
  assert (Hnew : run_ID run ∉ ids).
  { apply NoDup_app in Hnd as (Hnd & _ & _). apply NoDup_app in Hnd as (_ & Hd & _).
    intros Hx. apply (Hd _ Hx). by apply list_elem_of_singleton. }
  assert (Hrow : run ∈ rows (w_runs w0)) by (apply Hin; left).
  apply wp_bind, wp_stmt, (wp_Save_row _ _ run); try done.
  { rewrite Er. by apply rewrite_rows_elem. }
  intros t Hht Et. apply wp_bind, wp_stmt, wp_Updates; [|by intros e tj _ Hn].
  intros tj Hhtj Etj. eapply wp_mono; [apply (IH (cap - 1) (ids ++ [run_ID run])); [|exact Hnd|]|].
  - intros x Hx. apply Hin. by right.
  - split; simpl; [done|by split; auto| | |done].
    + rewrite Et, Er, N. rewrite <- (app_nil_r (rewrite_rows _ ids _)).
      rewrite <- (app_nil_r (rewrite_rows _ (ids ++ _) _)).
      apply (save_rewrite (H := PipelineRun_model) (w_now w0) (promoted_row (w_now w0)) ids
        (rows (w_runs w0)) [] run); try done; [apply Hs0|set_solver].
    + simpl in Etj. rewrite Etj, Ej, N. apply update_released.
  - intros [] w2 H2. simpl in H2. rewrite <- app_assoc in H2.
    by replace (Z.to_nat cap) with (S (Z.to_nat (cap - 1))) by lia.
Qed.

(** Promoting runs of other pipelines leaves the count of this one. *)
Lemma active_runs_rewrite w0 ids w pid :
  sound_rows (rows (w_runs w0)) -> promoting w0 ids w ->
  (forall run, run ∈ rows (w_runs w0) -> run_ID run ∈ ids -> run_PipelineID run <> pid) ->
  active_runs pid w = active_runs pid w0.
Proof.
  intros Hs [_ _ Er _ _] Hids. unfold active_runs. rewrite Er. f_equal. apply length_selected_fmap.
  intros run Hrun. simpl. case_bool_decide as Hx; [|done]. unfold is_active. simpl.
  by rewrite (proj2 (Z.eqb_neq (run_PipelineID run) pid)) by (by apply Hids).
Qed.

(** The runs of [queue] a sweep promotes for one pipeline. *)
Definition slots (s : PipelineRunService) (w : World) (queue : list PipelineRun) (pid : UUID)
  : list PipelineRun :=
  take (Z.to_nat (concurrencyLimit s - active_runs pid w)) (of_pipeline pid queue).

Definition all_slots (s : PipelineRunService) (w : World) (queue : list PipelineRun)
    (pids : list UUID) : list PipelineRun := pids ≫= slots s w queue.

Lemma slots_elem s w queue pid run :
  run ∈ slots s w queue pid -> run ∈ queue /\ run_PipelineID run = pid.
Proof.
  intros H. unfold slots in H. apply elem_of_take in H as (i & Hi & _).
  apply list_elem_of_lookup_2, list_elem_of_filter in Hi. tauto.
Qed.

Lemma all_slots_elem s w queue pids run :
  run ∈ all_slots s w queue pids -> run ∈ queue /\ run_PipelineID run ∈ pids /\
    run ∈ slots s w queue (run_PipelineID run).
Proof.
  intros (pid & Hr & Hp)%list_elem_of_bind. pose proof (slots_elem _ _ _ _ _ Hr) as [? <-]. done.
Qed.

Lemma wp_sweep_pipeline s w0 queue pids pid w :
  sound_rows (rows (w_runs w0)) -> (forall run, run ∈ queue -> run ∈ rows (w_runs w0)) ->
  NoDup queue -> pid ∉ pids -> promoting w0 (run_ID <$> all_slots s w0 queue pids) w ->
  NoDup (run_ID <$> all_slots s w0 queue pids) ->
  wp (sweep_pipeline s queue pid) (fun _ w' =>
    promoting w0 (run_ID <$> all_slots s w0 queue (pids ++ [pid])) w') w.
Proof.
  intros Hs Hin Hq Hpid Hw Hnd. unfold sweep_pipeline.
  assert (Hact : active_runs pid w = active_runs pid w0).
  { eapply active_runs_rewrite; [done|exact Hw|].
    intros run Hrun (run' & Hid & Hr)%list_elem_of_fmap Hp.
    apply all_slots_elem in Hr as (Hrq & Hrp & _).
    assert (run = run') as -> by (apply (sound_key _ _ _ Hs); [done|by apply Hin|done]).
    by rewrite Hp in Hrp. }
  apply wp_bind, (wp_zoom w_runs). simpl. apply wp_Count.
  2: { intros e t _ Hn. by destruct Hn; destruct Hw as [_ [? _] _ _ _]. }
  intros t [Et Hht]. set (w1 := set_field w_runs (fun _ => t) w).
  assert (Hw1 : promoting w0 (run_ID <$> all_slots s w0 queue pids) w1).
  { destruct Hw as [? [? ?] Er ? ?]. split; try done; [by split; auto|]. simpl. by rewrite Et. }
  change (wp (promote (of_pipeline pid queue) (concurrencyLimit s - active_runs pid w)) (fun _ w' =>
    promoting w0 (run_ID <$> all_slots s w0 queue (pids ++ [pid])) w') w1).
  rewrite Hact. eapply wp_mono; [apply (wp_promote w0); [done| | |exact Hw1]|].
  - intros run Hr. apply Hin. unfold of_pipeline in Hr. apply list_elem_of_filter in Hr. tauto.
  - apply NoDup_app. split; [done|]. split.
    + intros x (r1 & -> & H1)%list_elem_of_fmap (r2 & E & H2)%list_elem_of_fmap.
      apply all_slots_elem in H1 as (H1 & Hp1 & _). apply list_elem_of_filter in H2 as [Hp2 H2].
      assert (r1 = r2) as -> by (apply (sound_key _ _ _ Hs); [by apply Hin|by apply Hin|done]).
      by rewrite Hp2 in Hp1.
    + apply NoDup_fmap_2_strong; [|by apply NoDup_filter].
      intros x y [_ Hx]%list_elem_of_filter [_ Hy]%list_elem_of_filter E.
      by apply (sound_key _ _ _ Hs); [apply Hin|apply Hin|].
  - intros [] w2 H2. unfold all_slots in *. rewrite bind_app. simpl. rewrite app_nil_r, fmap_app.
    exact H2.
Qed.

(** ** The whole sweep *)

Lemma NoDup_all_slots s w queue pids :
  sound_rows (rows (w_runs w)) -> (forall run, run ∈ queue -> run ∈ rows (w_runs w)) ->
  NoDup queue -> NoDup pids -> NoDup (run_ID <$> all_slots s w queue pids).
Proof.
  intros Hs Hin Hq. induction pids as [|pid pids IH]; intros Hnd; [constructor|].
  apply NoDup_cons in Hnd as [Hp Hnd]. unfold all_slots in *. rewrite bind_cons, fmap_app.
  apply NoDup_app. split; [|split; [|by apply IH]].
  - apply NoDup_fmap_2_strong.
    + intros x y [Hx _]%slots_elem [Hy _]%slots_elem E.
      by apply (sound_key _ _ _ Hs); [apply Hin|apply Hin|].
    + unfold slots. apply (sublist_NoDup _ (of_pipeline pid queue)); [unfold of_pipeline; by apply NoDup_filter|apply sublist_take].
  - intros x (r1 & -> & H1)%list_elem_of_fmap (r2 & E & H2)%list_elem_of_fmap.
    apply slots_elem in H1 as [H1 Hp1]. apply all_slots_elem in H2 as (H2 & Hp2 & _).
    assert (r1 = r2) as -> by (apply (sound_key _ _ _ Hs); [by apply Hin|by apply Hin|done]).
    by rewrite Hp1 in Hp2.
Qed.

Lemma wp_sweep_all s w0 queue pids pre w :
  sound_rows (rows (w_runs w0)) -> (forall run, run ∈ queue -> run ∈ rows (w_runs w0)) ->
  NoDup queue -> NoDup (pre ++ pids) -> promoting w0 (run_ID <$> all_slots s w0 queue pre) w ->
  wp (for_each pids (sweep_pipeline s queue)) (fun _ w' =>
    promoting w0 (run_ID <$> all_slots s w0 queue (pre ++ pids)) w') w.
Proof.
  intros Hs Hin Hq. revert pre w. induction pids as [|pid pids IH]; intros pre w Hnd Hw; simpl.
  { apply wp_ret. by rewrite app_nil_r. }
  rewrite (cons_middle pid pre), app_assoc in Hnd |- *. apply wp_bind.
  eapply wp_mono; [apply (wp_sweep_pipeline s w0 queue pre pid); try done|].
  - apply NoDup_app in Hnd as (Hnd & _ & _). apply NoDup_app in Hnd as (_ & Hd & _).
    intros Hx. apply (Hd _ Hx). by apply list_elem_of_singleton.
  - apply NoDup_app in Hnd as (Hnd & _ & _). apply NoDup_app in Hnd as (Hnd & _ & _).
    by apply NoDup_all_slots.
  - intros [] w1 H1. by apply IH.
Qed.

Lemma count_promoted pid now ids (l : list PipelineRun) :
  (forall run, run ∈ l -> run_ID run ∈ ids -> run_Phase run = PipelineRunPendingQueue) ->
  (length (selected (is_active pid) (rewrite_rows (promoted_row now) ids l)) <=
   length (selected (is_active pid) l) +
   length (filter (fun r => run_ID r ∈ ids /\ run_PipelineID r = pid) l))%nat.
Proof.
  unfold selected, rewrite_rows. induction l as [|run l IH]; intros Hids; [done|].
  rewrite fmap_cons, !filter_cons. specialize (IH ltac:(intros; apply Hids; [by right|done])).
  case_bool_decide as Hx.
  - assert (Hq : is_active pid run = false).
    { unfold is_active. rewrite (Hids run) by (left || done). by rewrite andb_false_r. }
    assert (Hc : is_active pid (promoted_row now run) = true -> run_PipelineID run = pid).
    { unfold is_active. simpl. by intros [?%Z.eqb_eq _]%andb_true_iff. }
    simpl in Hx, IH |- *. repeat case_decide; simpl; try lia; try congruence.
    exfalso. naive_solver.
  - simpl in Hx, IH |- *. rewrite (decide_False (P := _ /\ _)) by (by intros [? _]).
    case_decide; simpl; lia.
Qed.

(** Each pipeline gets at most its free slots. *)
Lemma promoting_bound s w queue pids w' pid :
  sound_rows (rows (w_runs w)) -> NoDup queue ->
  (forall run, run ∈ queue -> run ∈ rows (w_runs w) /\ run_Phase run = PipelineRunPendingQueue) ->
  promoting w (run_ID <$> all_slots s w queue pids) w' ->
  active_runs pid w' <= Z.max (concurrencyLimit s) (active_runs pid w).
Proof.
  intros Hs Hq Hin [_ _ Er _ _]. set (ids := run_ID <$> all_slots s w queue pids) in *.
  assert (Hids : forall run, run ∈ rows (w_runs w) -> run_ID run ∈ ids ->
    run ∈ queue /\ run ∈ slots s w queue (run_PipelineID run)).
  { intros run Hrun (r & Hid & Hr)%list_elem_of_fmap. apply all_slots_elem in Hr as (Hrq & _ & Hrs).
    assert (run = r) as -> by (apply (sound_key _ _ _ Hs); [done|by apply Hin|done]). done. }
  assert (Hlen : (length (filter (fun r => run_ID r ∈ ids /\ run_PipelineID r = pid) (rows (w_runs w))) <=
    length (slots s w queue pid))%nat).
  { apply submseteq_length, NoDup_submseteq.
    - apply NoDup_filter. pose proof (sr_keys _ Hs) as Hnd. by apply NoDup_fmap_1 in Hnd.
    - intros x [[Hx <-] Hxin]%list_elem_of_filter. by apply Hids. }
  assert (Hslot : (length (slots s w queue pid) <= Z.to_nat (concurrencyLimit s - active_runs pid w))%nat)
    by (unfold slots; rewrite length_take; lia).
  unfold active_runs at 1. rewrite Er.
  pose proof (count_promoted pid (w_now w) ids (rows (w_runs w))) as Hc.
  specialize (Hc ltac:(intros run Hr Hid; by apply Hin, Hids)).
  unfold active_runs in *. lia.
Qed.
End Promotion.
