(* ===== verification/ApprovalSweepTheory.v ===== *)
(** The approval timeout sweep.

    [overdue] says, on the stored rows, that a pending approval has outlived
    the timeout its task template declares; [told] replays the verdicts the
    sweep sends.  The loop invariant [closing] ties both to the rows. *)
From stdpp Require Import base list strings gmap sorting.
From Stdlib Require Import ZArith Lia.
From S2P Require Import Prelude Common Gorm Json RunnerProto RunStore PipelineStore TargetStore.
From S2P Require Import World WorldLogic RunParams RunSpec RunDispatch RunTrigger RunControl.
From S2P Require Import RunSweeps Frames TriggerTheory ApprovalTheory SweepTheory.

Open Scope Z_scope.

Section Approvals.
Context {G : Gorm} {GL : GormLaws G} {P : Platform} {D : Dispatcher} {DL : DispatcherLaws D}
  {X : MetaV1}.

(** * Overdue approvals *)

(** The templates called [name] in the stages of the run's pipeline. *)
Definition node_template (w : World) (stages : list PipelineStage) (name : string)
    (tpl : PipelineTaskTemplate) : Prop :=
  exists st, st ∈ stages /\ tpl_Name tpl = name /\
    tpl ∈ selected (fun t => tpl_StageID t =? st_ID st) (rows (w_templates w)).

Definition stages_of (pid : UUID) (w : World) : list PipelineStage :=
  selected (fun st => st_PipelineID st =? pid) (rows (w_stages w)).

(** The template's timeout has run out for an approval created then. *)
Definition expires (now : Time) (pa : PipelineApproval) (tpl : PipelineTaskTemplate) : Prop :=
  raw_len0 (tpl_ApprovalConfig tpl) = false /\
  exists ac, UnmarshalE (A := ApprovalConfig) (tpl_ApprovalConfig tpl) = Ok ac /\
    ApprovalExpired (appr_CreatedAt pa) (ac_TimeoutSeconds ac) now = true.

(** The approval's run and the name of its task. *)
Record decides (w : World) (pa : PipelineApproval) (run : PipelineRun) (name : string) : Prop := mkDecides {
  dc_run : run ∈ rows (w_runs w) /\ run_ID run = appr_RunID pa;
  dc_task : exists tr, tr ∈ rows (w_tasks w) /\ task_PipelineRunID tr = run_ID run /\
    appr_TaskRunID pa = Some (task_ID tr) /\ task_TaskName tr = name;
  dc_named : name <> "";
}.

(** Some template of that name has expired; all of them have. *)
Definition overdue (now : Time) (w : World) (pa : PipelineApproval) (run : PipelineRun) (name : string)
  : Prop :=
  decides w pa run name /\
  exists tpl, node_template w (stages_of (run_PipelineID run) w) name tpl /\ expires now pa tpl.

Definition surely_overdue (now : Time) (w : World) (pa : PipelineApproval) (run : PipelineRun)
    (name : string) : Prop :=
  overdue now w pa run name /\
  forall tpl, node_template w (stages_of (run_PipelineID run) w) name tpl -> expires now pa tpl.

(** The tables the sweep reads. *)
Record sweep_tables (w0 w : World) : Prop := mkSweepTables {
  sw_now : w_now w = w_now w0;
  sw_runs : rows (w_runs w) = rows (w_runs w0) /\ (healthy (w_runs w0) -> healthy (w_runs w));
  sw_tasks : rows (w_tasks w) = rows (w_tasks w0) /\ (healthy (w_tasks w0) -> healthy (w_tasks w));
  sw_stages : rows (w_stages w) = rows (w_stages w0) /\ (healthy (w_stages w0) -> healthy (w_stages w));
  sw_templates : rows (w_templates w) = rows (w_templates w0) /\
    (healthy (w_templates w0) -> healthy (w_templates w));
}.

Lemma sweep_tables_same w0 w w' : sweep_tables w0 w -> same w w' -> sweep_tables w0 w'.
Proof.
  intros [N [R1 R2] [T1 T2] [S1 S2] [L1 L2]]
    [N' _ [s1 s2] [l1 l2] _ [r1 r2] [t1 t2] _ _ _ _ _ _].
  split; [congruence|..]; (split; [congruence|auto]).
Qed.

Definition readable (w : World) : Prop :=
  healthy (w_runs w) /\ healthy (w_tasks w) /\ healthy (w_stages w) /\ healthy (w_templates w).

Lemma readable_tables w0 w : sweep_tables w0 w -> readable w0 -> readable w.
Proof. intros [_ [_ ?] [_ ?] [_ ?] [_ ?]] (? & ? & ? & ?). unfold readable. auto. Qed.

(** * Reading the timeout *)

(** The template search: the answer is a template of that name; finding none
    means there is none; it fails only when the table does. *)
Lemma wp_find_template stages name w :
  wp (find_template stages name) (fun r w' => same w w' /\
    match r with
    | Ok (Some tpl) => node_template w stages name tpl
    | Ok None => forall tpl, ~ node_template w stages name tpl
    | Err _ => ~ healthy (w_templates w)
    end) w.
Proof.
  revert w. induction stages as [|st stages IH]; intros w; simpl.
  { apply wp_ret. split; [done|]. intros tpl (st & Hst & _). by apply elem_of_nil in Hst. }
  apply wp_try, (wp_zoom w_templates), wp_Find; [|by intros e t Ht Hn; split; [by apply field_same|]].
  intros l t Ht Hq. pose proof (field_same (proj := w_templates) w t Ht) as Hsame.
  set (w1 := set_field w_templates (fun _ => t) w) in *.
  apply query_result_nolimit in Hq as [Hperm _]; [|done|done]. simpl in Hperm.
  destruct (find _ l) as [tpl|] eqn:Ef.
  - apply wp_ret. split; [done|]. apply find_some in Ef as [Hin Hname%String.eqb_eq].
    exists st. split; [left|]. split; [done|]. rewrite <- Hperm. by apply list_elem_of_In.
  - eapply wp_mono; [apply (IH w1)|]. intros r w2 [Hs2 Hr]. split; [by etransitivity|].
    assert (Hw1 : forall sts x, node_template w1 sts name x <-> node_template w sts name x).
    { intros sts x. unfold node_template. simpl. by rewrite (proj1 Ht). }
    destruct r as [[tpl|]|e].
    + apply Hw1 in Hr as (st' & ? & ? & ?). exists st'. split; [by right|done].
    + intros tpl (st' & [->|Hst']%elem_of_cons & Hname & Hin).
      * rewrite <- Hperm in Hin. pose proof (find_none _ _ Ef tpl) as Hno.
        apply list_elem_of_In in Hin. specialize (Hno Hin). simpl in Hno.
        by rewrite (proj2 (String.eqb_eq _ _) Hname) in Hno.
      * apply (Hr tpl), Hw1. by exists st'.
    + intros Hh. apply Hr. simpl. by apply Ht.
Qed.

(** The task of a run with this id, by name. *)
Definition task_named (w : World) (run : PipelineRun) (tid : UUID) (name : string) : Prop :=
  exists tr, tr ∈ rows (w_tasks w) /\ task_PipelineRunID tr = run_ID run /\
    task_ID tr = tid /\ task_TaskName tr = name.

Lemma task_name_found w run tid l :
  l ≡ₚ selected (fun t => task_PipelineRunID t =? run_ID run) (rows (w_tasks w)) ->
  let name := match find (fun tr => task_ID tr =? tid) l with
              | Some tr => task_TaskName tr | None => "" end in
  (name <> "" -> task_named w run tid name) /\
  (sound_rows (rows (w_tasks w)) -> forall n, task_named w run tid n -> n <> "" -> n = name).
Proof.
  intros Hl. assert (Hin : forall tr, tr ∈ l <-> task_PipelineRunID tr = run_ID run /\ tr ∈ rows (w_tasks w)).
  { intros tr. rewrite Hl, elem_of_selected, Z.eqb_eq. naive_solver. }
  destruct (find _ l) as [tr|] eqn:Ef; simpl.
  - apply find_some in Ef as [Htr%list_elem_of_In Hid%Z.eqb_eq]. apply Hin in Htr as [Hrun Htr]. split.
    + intros _. by exists tr.
    + intros Hs n (tr' & Htr' & _ & <- & <-) _. by rewrite (sound_key _ _ _ Hs Htr Htr' Hid).
  - split; [done|]. intros _ n (tr & Htr & Hrun & <- & _) _. exfalso.
    pose proof (find_none _ _ Ef tr) as Hno. rewrite <- list_elem_of_In in Hno.
    specialize (Hno (proj2 (Hin tr) (conj Hrun Htr))). simpl in Hno. by rewrite Z.eqb_refl in Hno.
Qed.

(** What the lookup of a timeout says of the approval it is for. *)
Definition timeout_read (now : Time) (w : World) (pa : PipelineApproval) (run : PipelineRun)
    (r : Result (string * Z)) : Prop :=
  match r with
  | Ok (name, secs) =>
      if empty_string name || negb (ApprovalExpired (appr_CreatedAt pa) secs now)
      then sound_rows (rows (w_tasks w)) -> forall n, ~ surely_overdue now w pa run n
      else overdue now w pa run name
  | Err _ => readable w -> sound_rows (rows (w_tasks w)) -> forall n, ~ surely_overdue now w pa run n
  end.

(** The template found decides the outcome. *)
Lemma timeout_of_template now w pa run tid name tpl :
  run ∈ rows (w_runs w) -> run_ID run = appr_RunID pa -> appr_TaskRunID pa = Some tid ->
  name <> "" -> task_named w run tid name ->
  (sound_rows (rows (w_tasks w)) -> forall n, task_named w run tid n -> n <> "" -> n = name) ->
  node_template w (stages_of (run_PipelineID run) w) name tpl ->
  timeout_read now w pa run
    (if raw_len0 (tpl_ApprovalConfig tpl) then Ok (name, 0)
     else match UnmarshalE (A := ApprovalConfig) (tpl_ApprovalConfig tpl) with
          | Err e => Err e
          | Ok ac => Ok (name, ac_TimeoutSeconds ac)
          end).
Proof.
  intros Hrun Hid Htid Hne Hnamed Huniq Htpl.
  assert (Hsure : sound_rows (rows (w_tasks w)) -> forall n, surely_overdue now w pa run n -> expires now pa tpl).
  { intros Hs n [[[_ (tr & Htr & Hr & Ht & Hn) Hnn] _] Hall]. apply Hall.
    rewrite (Huniq Hs n); [done| |done]. exists tr. split_and!; congruence. }
  unfold timeout_read. destruct (raw_len0 (tpl_ApprovalConfig tpl)) eqn:E0.
  { rewrite orb_true_r. intros Hs n [H0 _]%(Hsure Hs n). congruence. }
  destruct (UnmarshalE (tpl_ApprovalConfig tpl)) as [ac|e] eqn:Eu.
  2: { intros _ Hs n [_ (ac & Hac & _)]%(Hsure Hs n). congruence. }
  unfold empty_string. rewrite (proj2 (String.eqb_neq _ _) Hne). simpl.
  destruct (ApprovalExpired _ _ _) eqn:Ex; simpl.
  - split; [split; [done| |done]|].
    + destruct Hnamed as (tr & ? & ? & Ht & ?). exists tr. split_and!; congruence.
    + exists tpl. split; [done|]. split; [done|]. by exists ac.
  - intros Hs n [_ (ac' & Hac & Hx)]%(Hsure Hs n). congruence.
Qed.

(** The timeout of an approval's task. *)
Lemma wp_approvalTimeoutFor now pa run tid w :
  run ∈ rows (w_runs w) -> run_ID run = appr_RunID pa -> appr_TaskRunID pa = Some tid ->
  wp (approvalTimeoutFor run tid) (fun r w' => same w w' /\ timeout_read now w pa run r) w.
Proof.
  intros Hrun Hid Htid. unfold approvalTimeoutFor.
  apply wp_try, (wp_zoom w_tasks), wp_Find.
  2: { intros e t Ht Hn. split; [by apply field_same|]. by intros (_ & ? & _). }
  intros l t Ht Hq. pose proof (field_same (proj := w_tasks) w t Ht) as Hs1.
  apply query_result_nolimit in Hq as [Hperm _]; [|done|done].
  pose proof (task_name_found w run tid l Hperm) as [Hname Huniq].
  set (name := match find _ l with Some tr => _ | None => _ end) in *. change (match find _ l with Some tr => task_TaskName tr | None => _ end) with name.
  set (w1 := set_field w_tasks (fun _ => t) w) in *.
  destruct (empty_string name) eqn:Ee.
  { apply wp_ret. split; [done|]. simpl. apply String.eqb_eq in Ee. intros Hs n [[[_ (tr & ? & ? & Ht' & ?) Hnn] _] _].
    apply Hnn. rewrite <- Ee. apply Huniq; [done| |done]. exists tr. split_and!; congruence. }
  apply String.eqb_neq in Ee. specialize (Hname Ee).
  apply wp_try, (wp_zoom w_stages), wp_Find.
  2: { intros e u Hu Hn. split; [etransitivity; [exact Hs1|by apply field_same]|].
       intros (_ & _ & Hh & _). by destruct Hn. }
  intros sts u Hu Hq. pose proof (field_same (proj := w_stages) w1 u Hu) as Hs2.
  apply query_result_nolimit in Hq as [Hsts _]; [|done|done]. simpl in Hsts.
  set (w2 := set_field w_stages (fun _ => u) w1) in *.
  assert (Hnode : forall tpl, node_template w2 sts name tpl <->
    node_template w (stages_of (run_PipelineID run) w) name tpl).
  { intros tpl. unfold node_template. simpl. by setoid_rewrite Hsts. }
  assert (Hs02 : same w w2) by (by etransitivity).
  apply wp_try. eapply wp_mono; [apply wp_find_template|].
  intros [[tpl|]|e] w3 [Hs3 Hr]; (assert (same w w3) by (by etransitivity)).
  - apply Hnode in Hr. pose proof (timeout_of_template now w pa run tid name tpl Hrun Hid Htid Ee Hname Huniq Hr) as Ht3.
    destruct (raw_len0 _); [by apply wp_ret|]. by destruct (UnmarshalE _); apply wp_ret.
  - apply wp_ret. split; [done|]. unfold timeout_read. rewrite orb_true_r.
    intros Hs n [[[_ (tr & ? & ? & Ht' & ?) Hnn] (tpl & Htpl & _)] _].
    apply (Hr tpl), Hnode. rewrite <- (Huniq Hs n); [done| |done]. exists tr. split_and!; congruence.
  - split; [done|]. intros (_ & _ & _ & Hh). destruct Hr. by apply Hs02.
Qed.
(** * The verdicts sent *)

Record attempt := mkAttempt { at_approval : PipelineApproval; at_run : PipelineRun; at_name : string }.

Definition timeout_verdict (a : attempt) : UUID * HubMessage :=
  (run_TargetID (at_run a),
   MessageApproveTask (mkApprove (run_CRName (at_run a)) (at_name a) AutoTimeoutApprover true)).

Definition tell (acc : list attempt * Link) (a : attempt) : list attempt * Link :=
  let answer := d_send (timeout_verdict a).1 (timeout_verdict a).2 acc.2 in
  (match answer.1 with None => acc.1 ++ [a] | Some _ => acc.1 end, answer.2).

(** The attempts the link takes when they are sent one after the other. *)
Definition told (atts : list attempt) (l : Link) : list attempt * Link := foldl tell ([], l) atts.

Lemma told_snoc atts a l : told (atts ++ [a]) l = tell (told atts l) a.
Proof. unfold told. by rewrite foldl_app. Qed.

Lemma told_delivered atts l :
  delivered (told atts l).2 = delivered l ++ (timeout_verdict <$> (told atts l).1).
Proof.
  induction atts as [|a atts IH] using rev_ind; [by rewrite app_nil_r|].
  rewrite told_snoc. unfold tell. destruct (d_send _ _ _) as [[e|] l'] eqn:Es; simpl.
  - by rewrite (send_err _ _ _ _ _ Es).
  - destruct (send_ok _ _ _ _ Es) as [-> _]. by rewrite IH, fmap_app, app_assoc.
Qed.

Lemma told_sublist atts l : sublist (told atts l).1 atts.
Proof.
  induction atts as [|a atts IH] using rev_ind; [constructor|]. rewrite told_snoc. unfold tell.
  destruct (d_send _ _ _) as [[e|] l']; simpl; [by apply sublist_inserts_r|by apply sublist_app].
Qed.

(** * The loop *)

Definition closed_row (now : Time) (pa : PipelineApproval) : PipelineApproval :=
  timed_out_approval pa now.

(** After these attempts, with [n] counted. *)
Record closing (now : Time) (w0 : World) (atts : list attempt) (n : Z) (w : World) : Prop := mkClosing {
  cl_tables : sweep_tables w0 w;
  cl_healthy : healthy (w_approvals w);
  cl_link : w_link w = (told atts (w_link w0)).2;
  cl_count : n = Z.of_nat (length (told atts (w_link w0)).1);
  cl_rows : rows (w_approvals w) = rewrite_rows (closed_row now)
    (appr_ID ∘ at_approval <$> (told atts (w_link w0)).1) (rows (w_approvals w0));
  cl_due : Forall (fun a => overdue now w0 (at_approval a) (at_run a) (at_name a)) atts;
}.

Lemma closing_same now w0 atts n w w' : closing now w0 atts n w -> same w w' -> closing now w0 atts n w'.
Proof.
  intros [T H L C R Du] Hs. pose proof Hs as [_ _ _ _ _ _ _ _ _ [ER EH] _ _ EL].
  split; [by eapply sweep_tables_same|auto|congruence|done|congruence|done].
Qed.

(** The predicates only look at the tables read. *)
Lemma overdue_tables now w0 w pa run name :
  sweep_tables w0 w -> overdue now w pa run name <-> overdue now w0 pa run name.
Proof.
  intros [_ [ER _] [ET _] [ES _] [EL _]]. unfold overdue, node_template, stages_of. rewrite ES, EL.
  split; intros [[[H1 H1'] H2 H3] H4]; rewrite ?ER, ?ET in *; (split; [split|]); try done.
  all: by rewrite ?ER, ?ET.
Qed.
Lemma surely_overdue_tables now w0 w pa run name :
  sweep_tables w0 w -> surely_overdue now w0 pa run name -> surely_overdue now w pa run name.
Proof.
  intros Ht [Ho Hall]. split; [by apply (overdue_tables now w0 w)|].
  destruct Ht as [_ _ _ [ES _] [EL _]]. unfold node_template, stages_of in *. by rewrite ES, EL.
Qed.

(** What one round does with an approval the sweep has read. *)
Definition attempted (now : Time) (w0 : World) (pa : PipelineApproval) (atts atts' : list attempt) : Prop :=
  (exists a, atts' = atts ++ [a] /\ at_approval a = pa) \/
  (atts' = atts /\ forall run name, ~ surely_overdue now w0 pa run name).

Record sweep_start (w : World) : Prop := mkSweepStart {
  ss_readable : readable w;
  ss_runs : sound_rows (rows (w_runs w));
  ss_tasks : sound_rows (rows (w_tasks w));
  ss_approvals : sound_rows (rows (w_approvals w));
}.

(** The verdict is sent and, when the link took it, recorded. *)
Lemma closing_send now w0 atts n pa run name w :
  sound_rows (rows (w_approvals w0)) -> pa ∈ rows (w_approvals w0) ->
  appr_ID pa ∉ (appr_ID ∘ at_approval <$> atts) ->
  overdue now w0 pa run name -> closing now w0 atts n w ->
  wp (let* sent := send (run_TargetID run)
        (MessageApproveTask (mkApprove (run_CRName run) name AutoTimeoutApprover true)) in
      match sent with
      | Some _ => ret (Ok n)
      | None => let* u := stmt w_approvals (fun t =>
                  PipelineApprovalRepository.Update t (timed_out_approval pa now)) in
                ret (Ok (match u with Ok _ => n + 1 | Err _ => n end))
      end : M World (Result Z))
    (fun r w' => exists n', r = Ok n' /\ closing now w0 (atts ++ [mkAttempt pa run name]) n' w') w.
Proof.
  intros Hs0 Hin Hnew Hdue [T H L C R Du]. set (a := mkAttempt pa run name).
  assert (Hdue' : Forall (fun a => overdue now w0 (at_approval a) (at_run a) (at_name a)) (atts ++ [a]))
    by (apply Forall_app; split; [done|by apply Forall_singleton]).
  apply wp_bind, (wp_zoom w_link), wp_run. intros r l' Es. rewrite L in Es.
  assert (Et : told (atts ++ [a]) (w_link w0) =
    (match r with None => (told atts (w_link w0)).1 ++ [a] | Some _ => (told atts (w_link w0)).1 end, l')).
  { rewrite told_snoc. unfold tell, timeout_verdict. simpl. by rewrite Es. }
  destruct r as [e|].
  { apply wp_ret. exists n. split; [done|]. split; simpl; rewrite ?Et; try done. by destruct T. }
  assert (Hni : appr_ID pa ∉ (appr_ID ∘ at_approval <$> (told atts (w_link w0)).1)).
  { intros (x & Hx & Hi)%list_elem_of_fmap. apply Hnew, list_elem_of_fmap. exists x. split; [done|].
    exact (elem_of_sublist _ _ _ Hi (told_sublist _ _)). }
  apply wp_bind, wp_stmt, (wp_Save_row _ _ pa); simpl; rewrite ?R; try done.
  - apply sound_update; [intros x; by case_bool_decide|done|done].
  - by apply rewrite_rows_elem.
  - intros t Hht Er. apply wp_ret. exists (n + 1). split; [done|]. split; simpl; rewrite ?Et; simpl; try done.
    + by destruct T.
    + rewrite length_app. simpl. lia.
    + rewrite Er, fmap_app. rewrite <- (app_nil_r (rewrite_rows _ (_ <$> _) _)).
      rewrite <- (app_nil_r (rewrite_rows _ (_ ++ _) _)).
      apply (save_rewrite (H := PipelineApproval_model) (w_now w) (closed_row now) _
        (rows (w_approvals w0)) [] pa); try done; [apply Hs0|set_solver].
Qed.

Lemma closing_step now w0 atts n pa w :
  sweep_start w0 -> pa ∈ rows (w_approvals w0) -> appr_ID pa ∉ (appr_ID ∘ at_approval <$> atts) ->
  closing now w0 atts n w ->
  wp (close_one now n pa) (fun r w' => exists n' atts', r = Ok n' /\
    attempted now w0 pa atts atts' /\ closing now w0 atts' n' w') w.
Proof.
  intros [Hread Hsr Hst Hsa] Hin Hnew Hw. unfold close_one.
  assert (Hskip : forall w', same w w' -> (forall run name, ~ surely_overdue now w0 pa run name) ->
    exists n' atts', Ok n = Ok (E := GoError) n' /\ attempted now w0 pa atts atts' /\ closing now w0 atts' n' w').
  { intros w' Hs Hno. exists n, atts. split; [done|]. split; [by right|by eapply closing_same]. }
  destruct (appr_TaskRunID pa) as [tid|] eqn:Etid.
  2: { apply wp_ret, Hskip; [done|]. intros run name [[[_ (tr & _ & _ & Et & _) _] _] _]. congruence. }
  pose proof (cl_tables _ _ _ _ _ Hw) as Ht. pose proof Ht as [_ [ER HR] [ET _] _ _].
  apply wp_bind, (wp_zoom w_runs), wp_First.
  2: { intros e t Hte Hnf Hno _. apply wp_ret, Hskip; [by apply field_same|].
       intros run name [[[[Hrun Hid] _ _] _] _]. apply (not_elem_of_nil run).
       rewrite <- (Hno (Hnf (HR (proj1 Hread)))), elem_of_selected, ER. split; [done|].
       split; [by apply Z.eqb_eq|done]. }
  intros run t Hte _ Hid%Z.eqb_eq Hrun. set (w1 := set_field w_runs (fun _ => t) w).
  assert (Hs1 : same w w1) by (by apply field_same). assert (Ht1 : sweep_tables w0 w1) by (by eapply sweep_tables_same).
  assert (Hrun0 : run ∈ rows (w_runs w0)) by (by rewrite <- ER).
  assert (Hone : forall r name, surely_overdue now w0 pa r name -> surely_overdue now w1 pa run name).
  { intros r name Hsure. assert (r = run) as ->; [|by apply (surely_overdue_tables now w0)].
    destruct Hsure as [[[[Hr Hrid] _ _] _] _]. apply (sound_key _ _ _ Hsr Hr Hrun0). exact (eq_trans Hrid (eq_sym Hid)). }
  apply wp_bind. eapply wp_mono; [apply (wp_approvalTimeoutFor now pa run tid w1); [|done|done]|].
  { by rewrite (proj1 (sw_runs _ _ Ht1)). }
  intros res w2 [Hs2 Hres]. assert (Hs02 : same w w2) by (by etransitivity).
  assert (Hst1 : sound_rows (rows (w_tasks w1))) by (by rewrite (proj1 (sw_tasks _ _ Ht1))).
  destruct res as [[name secs]|e]; simpl in Hres.
  2: { apply wp_ret, Hskip; [done|]. intros r m Hsure%Hone. by apply (Hres (readable_tables _ _ Ht1 Hread) Hst1 m). }
  destruct (_ || _); [apply wp_ret, Hskip; [done|intros r m Hsure%Hone; by apply (Hres Hst1 m)]|].
  eapply wp_mono; [apply (closing_send now w0 atts n pa run name w2); try done|].
  - by apply (overdue_tables now w0 w1).
  - by eapply closing_same.
  - intros r w3 (n' & -> & Hc). exists n', (atts ++ [mkAttempt pa run name]). split; [done|].
    split; [left; by eexists|done].
Qed.

Lemma closing_loop now w0 l atts n w :
  sweep_start w0 -> (forall pa, pa ∈ l -> pa ∈ rows (w_approvals w0)) ->
  NoDup ((appr_ID ∘ at_approval <$> atts) ++ (appr_ID <$> l)) -> closing now w0 atts n w ->
  wp (fold_err l n (close_one now)) (fun r w' => exists n' more, r = Ok n' /\
    sublist (at_approval <$> more) l /\
    (forall pa, pa ∈ l -> pa ∈ (at_approval <$> more) \/ forall run name, ~ surely_overdue now w0 pa run name) /\
    closing now w0 (atts ++ more) n' w') w.
Proof.
  intros Hs. revert atts n w. induction l as [|pa l IH]; intros atts n w Hin Hnd Hw; simpl.
  { apply wp_ret. exists n, []. rewrite app_nil_r. split_and!; [done|constructor| |done].
    intros pa Hpa. by apply elem_of_nil in Hpa. }
  rewrite fmap_cons, (cons_middle (appr_ID pa) (appr_ID ∘ at_approval <$> atts)), app_assoc in Hnd.
  pose proof Hnd as (Hnd1 & _ & _)%NoDup_app.
  assert (Hnew : appr_ID pa ∉ (appr_ID ∘ at_approval <$> atts)).
  { apply NoDup_app in Hnd1 as (_ & Hd & _). intros Hx. apply (Hd _ Hx). by apply list_elem_of_singleton. }
  apply wp_try. eapply wp_mono; [apply (closing_step now w0 atts n pa w); try done; apply Hin; left|].
  intros r w1 (n1 & atts1 & -> & Hatt & H1). eapply wp_mono; [apply (IH atts1 n1 w1); [| |exact H1]|].
  - intros x Hx. apply Hin. by right.
  - destruct Hatt as [(a & -> & <-)|[-> _]]; [by rewrite fmap_app|].
    rewrite <- app_assoc in Hnd. eapply sublist_NoDup; [exact Hnd|]. apply sublist_app; [done|].
    by apply sublist_cons.
  - intros r w2 (n2 & more & -> & Hsub & Hall & H2). destruct Hatt as [(a & -> & <-)|[-> Hno]].
    + exists n2, (a :: more). split_and!; [done|by apply sublist_skip| |by rewrite <- app_assoc in H2].
      intros x [->|Hx]%elem_of_cons; [left; left|]. destruct (Hall x Hx); [left; by right|by right].
    + exists n2, more. split_and!; [done|by apply sublist_cons| |done].
      intros x [->|Hx]%elem_of_cons; [by right|by apply Hall].
Qed.
End Approvals.
