(* ===== verification/DispatchProperties.v ===== *)
(** The guarantees of the dispatch queue, with evaluations on the concrete hub. *)
From stdpp Require Import base list strings gmap sorting.
From Stdlib Require Import ZArith Lia.
From S2P Require Import Prelude Common Gorm Json RunnerProto RunStore PipelineStore TargetStore.
From S2P Require Import World WorldLogic RunDispatch RunTrigger RunControl RunSweeps.
From S2P Require Import DispatchTheory DispatchInterleaving HubEvents Gateway Instances.
Import DispatchJobRepository.

Open Scope Z_scope.

(** * One attempt *)

(** Between two attempts of a job the queue waits 30s, 60s, 120s, 240s and
    then 300s: the wait is [30s * 2^(attempts-1)] capped at five minutes, it
    never shrinks and the 64-bit product does not overflow as long as the job
    may be retried at all. *)
Theorem dispatchBackoff_schedule a b :
  1 <= a <= b -> b < MaxDispatchAttempts ->
  dispatchBackoff a = Z.min (30 * Second * 2 ^ (a - 1)) (5 * Minute) /\
  30 * Second <= dispatchBackoff a <= dispatchBackoff b /\ dispatchBackoff b <= 5 * Minute.
Proof.
  unfold MaxDispatchAttempts. intros Ha Hb. rewrite !dispatchBackoff_min by lia.
  assert (2 ^ (a - 1) <= 2 ^ (b - 1)) by (apply Z.pow_le_mono_r; lia).
  assert (1 <= 2 ^ (a - 1)) by (apply (Z.pow_le_mono_r 2 0); lia).
  unfold Minute, Second. lia.
Qed.

Lemma dispatchBackoff_schedule_witness :
  dispatchBackoff 3 = 120 * Second /\ 30 * Second <= dispatchBackoff 3 <= dispatchBackoff 9 /\
  dispatchBackoff 9 <= 5 * Minute.
Proof. apply (dispatchBackoff_schedule 3 9); [lia|reflexivity]. Defined.

Section Attempts.
Context {G : Gorm} {GL : GormLaws G} {P : Platform} {D : Dispatcher} {DL : DispatcherLaws D}
  {X : MetaV1}.

(** What an attempt on job [id], stored as [job], must have done. *)
Definition delivery_outcome (id : UUID) (job : DispatchJob) (w : World) (r : Result unit)
    (w' : World) : Prop :=
  jobs_only w w' /\
  if awaiting job
  then r = result_after job w /\ w_link w' = link_after job w /\
       job_becomes id (job_after job w) w w'
  else r = Ok tt /\ same w w'.

(** C8: A delivery attempt on a healthy job table does exactly this: a job
    that is not pending or failed is left alone; otherwise it is claimed with
    one more attempt on the counter, its stored payload is handed to the link
    of its target, and it ends up dispatched, or failed with the backoff of
    that attempt as retry time, or dead at the tenth failure or when the
    payload does not decode.  No other row and no other table changes. *)
Theorem tryDeliver_outcome id job w :
  jobs_ok (rows (w_jobs w)) -> healthy (w_jobs w) -> job ∈ rows (w_jobs w) -> job_ID job = id ->
  wp (tryDeliver id) (delivery_outcome id job w) w.
Proof. intros Hok Hh Hin Hid. by apply tryDeliver_functional. Qed.

(** * Draining a target *)

(** The link to [t] works: every send to it succeeds and it keeps working. *)
Definition link_works (t : UUID) (up : Link -> Prop) : Prop :=
  forall m l, up l -> exists l', d_send t m l = (None, l') /\ up l'.

Definition pending_of (t : UUID) (j : DispatchJob) : bool := (job_TargetID j =? t) && awaiting j.

(** The runs a list of jobs stands for, as sent to [t]. *)
Definition payloads (t : UUID) (l : list DispatchJob) : list (UUID * ApplyPipelineRunPayload) :=
  omap (fun j => match UnmarshalE (A := ApplyPipelineRunPayload) (job_Payload j) with
                 | Ok p => Some (t, p) | Err _ => None end) l.

(** Where a drained job ends up. *)
Definition drained (j j' : DispatchJob) : Prop :=
  job_ID j' = job_ID j /\
  job_State j' = if is_ok (UnmarshalE (A := ApplyPipelineRunPayload) (job_Payload j))
                 then DispatchJobDispatched else DispatchJobDead.

Record drain_inv (t : UUID) (up : Link -> Prop) (w : World) (l pre : list DispatchJob) (w1 : World)
  : Prop := mkDrain {
  dr_ok : jobs_ok (rows (w_jobs w1));
  dr_healthy : healthy (w_jobs w1);
  dr_up : up (w_link w1);
  dr_sent : applies w1 = applies w ++ payloads t pre;
  dr_todo : forall j, j ∈ rows (w_jobs w) -> j ∉ pre -> j ∈ rows (w_jobs w1);
  dr_done : forall j, j ∈ pre -> exists j', j' ∈ rows (w_jobs w1) /\ drained j j';
  dr_pre : forall j', j' ∈ rows (w_jobs w1) -> j' ∈ rows (w_jobs w) \/ exists j, j ∈ pre /\ drained j j';
}.

Lemma drain_step t up w l pre j post w1 :
  link_works t up -> jobs_ok (rows (w_jobs w)) -> NoDup l -> l = pre ++ j :: post ->
  (forall x, x ∈ l -> x ∈ rows (w_jobs w) /\ pending_of t x = true) ->
  drain_inv t up w l pre w1 ->
  wp (tryDeliver (job_ID j)) (fun _ w2 => drain_inv t up w l (pre ++ [j]) w2) w1.
Proof.
  intros Hup Hok0 Hnd Hl Hall [Hok Hh Hu Hs Htodo Hdone Hpre].
  destruct (Hall j) as [Hj0 [Ht%Z.eqb_eq Ha]%andb_true_iff]; [subst; set_solver|].
  assert (Hnew : j ∉ pre).
  { intros Hin. rewrite Hl in Hnd. apply NoDup_app in Hnd as (_ & Hd & _). apply (Hd j Hin). set_solver. }
  pose proof (Htodo j Hj0 Hnew) as Hj.
  eapply wp_mono; [by apply (tryDeliver_functional (job_ID j) j w1)|]. simpl.
  intros r w2 [[_ Hh2] Hout]. rewrite Ha in Hout. destruct Hout as (_ & Hlink & Hb).
  assert (drained j (updated (w_now w1) (job_after j w1)) /\
    job_ok (updated (w_now w1) (job_after j w1)) /\ up (w_link w2) /\
    applies w2 = applies w1 ++ payloads t [j]) as (Hdr & Hjok & Hu2 & Hs2).
  { assert (Haw : awaiting_state (job_State j)) by (by apply awaiting_iff).
    assert (Hjok : job_ok j) by (destruct Hok as [_ Hf]; rewrite Forall_forall in Hf; auto).
    pose proof (awaiting_attempts j Hjok Haw) as Hatt.
    unfold drained, job_after, link_after, payloads, answer_of in *. simpl.
    destruct (UnmarshalE (job_Payload j)) as [p|e].
    - destruct (Hup (MessageApplyPipelineRun p) (w_link w1) Hu) as (l' & E & Hu').
      rewrite Ht, E in *. simpl in Hlink |- *. split; [done|]. split; [|split; [by rewrite Hlink|]].
      + job_simpl. split; [lia|auto 10].
      + rewrite <- Ht in *. apply send_ok in E as [E _]. rewrite <- Hlink in E.
        exact (applies_sent w1 w2 _ _ E).
    - split; [done|]. split; [|split; [by rewrite Hlink|]].
      + job_simpl. split; [lia|auto 10].
      + rewrite app_nil_r. apply applies_same. by rewrite Hlink. }
  pose proof (fun x => elem_job_becomes _ _ _ _ x Hb (ex_intro _ j (conj Hj eq_refl))) as Hrows.
  split; [|by apply Hh2|done| | | |].
  - eapply job_becomes_ok; [|exact Hjok|exact Hb|done]. exact (proj1 Hdr).
  - rewrite Hs2, Hs, <- app_assoc. unfold payloads. by rewrite omap_app.
  - intros x Hx Hnx. apply Hrows. right. split; [apply Htodo; [done|set_solver]|].
    intros E. assert (x = j) as -> by (by apply (jobs_ok_unique _ _ _ Hok0)). set_solver.
  - intros x [Hx|Hx%list_elem_of_singleton]%elem_of_app.
    + destruct (Hdone x Hx) as (x' & Hx' & Hxd). exists x'. split; [|done].
      apply Hrows. right. split; [done|]. destruct Hxd as [Hid _]. rewrite Hid.
      intros E. assert (x = j) as ->; [|done].
      apply (jobs_ok_unique _ _ _ Hok0); [|done|done]. apply Hall. rewrite Hl. set_solver.
    + subst. eexists. split; [apply Hrows; by left|done].
  - intros x' [->|[Hx' _]]%Hrows; [right; exists j; set_solver|].
    destruct (Hpre x' Hx') as [?|(y & ? & ?)]; [by left|]. right. exists y. set_solver.
Qed.

(** Draining a target whose link works delivers, in the order the jobs
    were created, the payload of every pending or failed job of that target
    and nothing else; each of those jobs ends up dispatched (dead when its
    payload does not decode) and none is left pending for the target. *)
Theorem DrainTarget_delivers t up w :
  link_works t up -> up (w_link w) -> jobs_ok (rows (w_jobs w)) -> healthy (w_jobs w) ->
  wp (DrainTarget t) (fun r w' => r = Ok tt /\ exists l,
    (l ≡ₚ filter (fun j => pending_of t j = true) (rows (w_jobs w))) /\
    Sorted (by_keys [job_CreatedAt]) l /\
    applies w' = applies w ++ payloads t l /\
    (forall j, j ∈ l -> exists j', j' ∈ rows (w_jobs w') /\ drained j j') /\
    (forall j', j' ∈ rows (w_jobs w') -> pending_of t j' = false)) w.
Proof.
  intros Hup Hu Hok Hh. unfold DrainTarget, ListPendingByTarget.
  apply wp_try, (wp_zoom w_jobs), wp_Find; [|by intros e t' _ ?].
  intros l t1 [Hr1 Hh1] Hq.
  apply query_result_nolimit in Hq as [Hperm Hsort]; [|done|done]. simpl in Hperm, Hsort.
  assert (Hall : forall x, x ∈ l -> x ∈ rows (w_jobs w) /\ pending_of t x = true).
  { intros x Hx. rewrite Hperm in Hx. apply elem_of_selected in Hx as (_ & ? & ?). done. }
  assert (Hnd : NoDup l).
  { rewrite Hperm. apply NoDup_filter. destruct Hok as [Hnd _]. by apply NoDup_fmap_1 in Hnd. }
  apply wp_bind, (wp_for_each (fun pre => drain_inv t up w l pre)).
  - split; simpl; rewrite ?Hr1; auto.
    + unfold payloads. simpl. by rewrite app_nil_r.
    + intros j Hj. set_solver.
  - intros pre j post w1 Hl Hi. apply wp_bind.
    eapply wp_mono; [by eapply drain_step|]. intros r w2 H2. by apply wp_ret.
  - intros w' Hi. apply wp_ret. split; [done|]. exists l.
    split; [by rewrite Hperm|]. split; [done|]. split; [apply (dr_sent _ _ _ _ _ _ Hi)|].
    split; [apply (dr_done _ _ _ _ _ _ Hi)|]. intros j' Hj'. apply not_true_is_false. intros Hp.
    assert (Hset : forall j, drained j j' -> False).
    { intros j [_ Hst]. apply andb_true_iff in Hp as [_ Ha%awaiting_iff]. rewrite Hst in Ha.
      destruct (is_ok _), Ha; done. }
    destruct (dr_pre _ _ _ _ _ _ Hi j' Hj') as [Hj|(j & _ & Hd)]; [|by eapply Hset].
    assert (Hjl : j' ∈ l) by (rewrite Hperm; by apply elem_of_selected).
    destruct (dr_done _ _ _ _ _ _ Hi j' Hjl) as (j2 & Hj2 & Hd).
    assert (j2 = j') as ->; [|by eapply Hset].
    eapply jobs_ok_unique; [apply (dr_ok _ _ _ _ _ _ Hi)|done|done|apply Hd].
Qed.

(** * Histories *)

(** C1: Whatever sequence of triggers, status reports, approvals, commands,
    reconnects and sweeps the hub goes through, the job table stays
    well-formed (at most ten attempts, a retry time exactly on failed jobs),
    jobs keep their identity, target and payload and never lose attempts, and
    every job is handed to its own target's Runner at most once, with exactly
    the payload stored at enqueue time; jobs already dispatching, dispatched or
    dead are never sent again. *)
Theorem hub_history_safe s w w' :
  collaborators_safe s -> jobs_ok (rows (w_jobs w)) -> hub_trace s w w' ->
  jobs_ok (rows (w_jobs w')) /\ jobs_evolve (rows (w_jobs w)) (rows (w_jobs w')) /\
  exists ids sent, NoDup ids /\ applies w' = applies w ++ sent /\
    Forall2 (sent_as (rows (w_jobs w'))) ids sent /\
    forall j, j ∈ rows (w_jobs w) -> retired j -> job_ID j ∉ ids.
Proof.
  intros Hs Hok Ht. destruct (hub_trace_queue s w w' Hs Ht) as [ids Hq].
  destruct (queue_trace_retired _ _ _ Hq Hok) as (? & ? & ?).
  destruct (queue_trace_sent _ _ _ Hq Hok) as (sent & ? & ?).
  split; [done|]. split; [done|]. exists ids, sent. split; [by eapply queue_trace_nodup|done].
Qed.

(** * Concurrent attempts *)

(** Cut into its database statements and its send, a delivery attempt that
    runs alone is the handler: four steps give the result and the final state
    of [tryDeliver]. *)
Theorem deliver_steps_refine id w :
  run_steps 4 id PRead w = (PDone (tryDeliver id w).1, (tryDeliver id w).2).
Proof. apply run_steps_tryDeliver. Qed.

(** C20: However attempts interleave at that grain (the trigger, a reconnect
    and the sweeper racing for the same jobs), at most one of them is past the
    claim of a given job at any time, and no job is delivered twice. *)
Theorem concurrent_attempts_exclusive w w' ids ts :
  NoDup (job_ID <$> rows (w_jobs w)) -> csteps (w, []) ids (w', ts) ->
  NoDup ids /\
  (forall i i' id c c', ts !! i = Some (id, c) -> ts !! i' = Some (id, c') ->
     inflight c = true -> inflight c' = true -> i = i') /\
  (forall id, id ∈ ids -> exists j, j ∈ rows (w_jobs w') /\ job_ID j = id /\
     (job_State j = DispatchJobDispatching \/ job_State j = DispatchJobDispatched)).
Proof.
  intros Hu Hs. destruct (exclusive_steps _ _ _ Hs Hu) as [_ _ Ho Hsent _ Hn]; [constructor|].
  done.
Qed.
End Attempts.

(** * The concrete hub *)

(** A pending job, and a failed one waiting for its retry, both for target 30. *)
Definition queue_hub : World :=
  demo <| w_jobs := table [demo_job 70 50 DispatchJobPending 0;
                           (demo_job 71 51 DispatchJobFailed 2) <| job_NextRetryAt := Some (950 * Second) |>] |>.

Lemma queue_hub_ok : jobs_ok (rows (w_jobs queue_hub)).
Proof.
  split; [by apply (bool_decide_eq_true_1 (NoDup _)); vm_compute|].
  unfold queue_hub, table. simpl. apply Forall_cons. split; [|apply Forall_singleton].
  - split; [unfold MaxDispatchAttempts; simpl; lia|]. left. simpl. auto.
  - split; [unfold MaxDispatchAttempts; simpl; lia|]. right. left. split; [done|].
    split; [unfold MaxDispatchAttempts; simpl; lia|by eexists].
Qed.

Lemma demo_service_safe : collaborators_safe demo_service.
Proof. split; simpl; try done. intros f [= <-] p. apply ev_ret. Qed.

Lemma tryDeliver_outcome_witness :
  let job := demo_job 70 50 DispatchJobPending 0 in
  result_after job queue_hub = Ok tt /\
  wp (tryDeliver 70) (delivery_outcome 70 job queue_hub) queue_hub.
Proof.
  intros job. split; [vm_compute; reflexivity|].
  refine (tryDeliver_outcome 70 job queue_hub queue_hub_ok _ _ eq_refl); [constructor|left].
Defined.

(** Target [t] is registered on connection [c] and no connection is broken. *)
Definition link_to (t : UUID) (c : Conn) (h : HubServer) : Prop :=
  conns h !! t = Some c /\ wire_broken (h_wire h) = [].

Lemma link_to_works t c : link_works t (link_to t c).
Proof.
  intros m h [Hc Hb]. change (exists l', send_to t m h = (None, l') /\ link_to t c l').
  unfold send_to. rewrite Hc. simpl. rewrite Hb. simpl. eexists. split; [reflexivity|]. by split.
Qed.

Lemma DrainTarget_delivers_witness :
  length (applies (DrainTarget 30 queue_hub).2) = 2%nat /\
  forall j, j ∈ rows (w_jobs (DrainTarget 30 queue_hub).2) -> pending_of 30 j = false.
Proof.
  split; [vm_compute; reflexivity|].
  destruct (DrainTarget_delivers (D := hub_dispatcher) 30 (link_to 30 1030) queue_hub) as (_ & l & _ & _ & _ & _ & H).
  - exact (link_to_works 30 1030).
  - split; reflexivity.
  - exact queue_hub_ok.
  - constructor.
  - exact H.
Defined.

(** A trigger while the target is away, then its reconnect. *)
Definition away : World := relink [] demo.
Definition queued_up : World := (hub_run demo_service (CTrigger 10 demo_request) away).2.
Definition back : World := relink [30] queued_up.
Definition late_runner : World := (hub_run demo_service (CDrainTarget 30) back).2.

Lemma late_runner_trace : hub_trace demo_service away late_runner.
Proof.
  refine (ht_call demo_service away (CTrigger 10 demo_request) queued_up late_runner eq_refl _).
  refine (ht_world demo_service queued_up back late_runner (f_equal rows (relink_jobs _ _)) _ _);
    [vm_compute; reflexivity|].
  refine (ht_call demo_service back (CDrainTarget 30) late_runner late_runner eq_refl _). constructor.
Qed.

Lemma hub_history_safe_witness :
  length (applies late_runner) = 1%nat /\ jobs_ok (rows (w_jobs late_runner)).
Proof.
  split; [vm_compute; reflexivity|].
  refine (proj1 (hub_history_safe demo_service away late_runner demo_service_safe _ late_runner_trace)).
  split; constructor.
Defined.

(** Two attempts on job 70 read it before either claims it. *)
Definition race : list move :=
  [Start 70; Start 70; Step 0; Step 1; Step 1; Step 0; Step 1; Step 1].

Lemma concurrent_attempts_exclusive_witness :
  let out := play (queue_hub, []) [] race in
  out.1 = [70] /\ snd <$> out.2.2 = [PDone (Ok tt); PDone (Ok tt)] /\ NoDup out.1.
Proof.
  intros out. split; [vm_compute; reflexivity|]. split; [vm_compute; reflexivity|].
  pose proof (play_csteps (queue_hub, []) (queue_hub, []) [] race (cs_nil _)) as H.
  destruct (concurrent_attempts_exclusive queue_hub out.2.1 out.1 out.2.2) as [Hn _].
  - exact (proj1 queue_hub_ok).
  - rewrite <- surjective_pairing. exact H.
  - exact Hn.
Defined.
