(* ===== verification/TriggerProperties.v ===== *)
(** What triggering a pipeline guarantees, with evaluations on the concrete
    hub. *)
From stdpp Require Import base list strings gmap sorting.
From Stdlib Require Import ZArith Lia.
From S2P Require Import Prelude Common Gorm Json RunnerProto RunStore PipelineStore TargetStore.
From S2P Require Import World WorldLogic RunParams RunSpec RunDispatch RunTrigger Frames.
From S2P Require Import OrgStore DispatchTheory TriggerTheory SpecTheory Instances.

Open Scope Z_scope.

Section Trigger.
Context {G : Gorm} {GL : GormLaws G} {P : Platform} {D : Dispatcher} {DL : DispatcherLaws D}
  {X : MetaV1} {XL : MetaV1Laws X}.

(** * One trigger *)

(** C2: A single-target trigger that succeeds picked an online target (the one
    asked for, if any), passed the change window, the component lifecycle and
    the production approval guards, compiled the stored definition, and
    created exactly one run: its row with the phase the concurrency policy
    admits, one pending task row per task of the spec in order, and one
    dispatch job carrying that spec, held for a queued run and attempted once
    otherwise. *)
Theorem Trigger_outcome s pid req w :
  collaborators_quiet s -> trigger_ready w -> tq_TargetIDs req = [] ->
  wp (Trigger s pid req) (fun r w' => forall runs, r = Ok runs -> exists tg p pl spec run,
    runs = [run] /\ single_target req tg w /\
    cleared s pid req (productionGuardTargets (tg_ID tg) []) w p pl spec /\
    (wf spec -> created_run s pid (tg_ID tg) spec (trigger_namespace req) (pl_Version p) req w w' run)) w.
Proof.
  intros Hq [Hr Hj Hok Hn] Hone. apply wp_Trigger_single; [done|done|done|].
  intros tg p pl spec params w1 H1 Htg Hc. apply wp_try.
  apply (wp_mono _ (fun r w' => forall run, r = Ok run -> wf spec ->
    created_run s pid (tg_ID tg) spec (trigger_namespace req) (pl_Version p) req w1 w' run)).
  - intros run Hrun Hwf. revert run Hrun.
    pose proof H1 as [_ _ _ _ _ [_ Hr1] [Et _] [Ej Hj1] _ _ _ _ _].
    apply createRun_wp; auto; by rewrite ?Et, ?Ej.
  - intros [run|e] w' Hrun; [|done]. apply wp_ret. intros ? [= <-].
    exists tg, p, pl, spec, run. split_and!; [done..|]. intros Hwf.
    eapply created_run_same; [exact H1|]. by apply Hrun.
Qed.

(** * Concurrency policies *)

Definition bounded_by_policy (s : PipelineRunService) (p : Pipeline) (n n' : Z) : Prop :=
  (pl_ConcurrencyPolicy p = ConcurrencyForbid -> n' <= Z.max 1 n) /\
  (pl_ConcurrencyPolicy p = ConcurrencyQueue -> n' <= Z.max (concurrencyLimit s) n).

Lemma createRun_bounded s p tid spec ns params v req n w :
  collaborators_quiet s -> unique_pipeline p w -> p ∈ rows (w_pipelines w) ->
  bounded_by_policy s p n (active_runs (pl_ID p) w) ->
  wp (createRun s (pl_ID p) tid spec ns params v req) (fun _ w' =>
    rows (w_pipelines w') = rows (w_pipelines w) /\
    bounded_by_policy s p n (active_runs (pl_ID p) w')) w.
Proof.
  intros Hq Hu Hp Hb. eapply wp_framed; [by apply createRun_pipelines|by apply createRun_runs|].
  intros r w' [[Epl _] _] Hout. split; [done|].
  destruct Hout as [[_ E]|(q & run & Hq1 & Hq2 & Hq3 & Hfor & [Hpid _] & E & Hph)].
  { unfold active_runs in *. by rewrite E. }
  assert (q = p) as -> by (by apply Hu). rewrite (active_runs_snoc _ _ _ _ E).
  unfold is_active. rewrite Hpid, Z.eqb_refl. simpl.
  destruct Hph as [-> | [_ ->]]; [|simpl; by rewrite Z.add_0_r].
  unfold admitted_phase. unfold bounded_by_policy in *. destruct Hb as [Hf Hqu]. split; intros Hpol.
  - rewrite Hpol. simpl. specialize (Hfor Hpol). lia.
  - rewrite Hpol. simpl. specialize (Hqu Hpol).
    destruct (Z.leb_spec (concurrencyLimit s) (active_runs (pl_ID p) w)); simpl; lia.
Qed.

(** C9: Whatever a trigger does and however it ends, single-target or
    fan-out, it keeps the concurrency policy: under Forbid it never raises the
    number of active runs of the pipeline above one, under Queue never above
    the configured limit. *)
Theorem Trigger_respects_policy s p req w :
  collaborators_quiet s -> unique_pipeline p w -> p ∈ rows (w_pipelines w) ->
  wp (Trigger s (pl_ID p) req) (fun _ w' =>
    bounded_by_policy s p (active_runs (pl_ID p) w) (active_runs (pl_ID p) w')) w.
Proof.
  intros Hq Hu Hp.
  assert (Hsame : forall w', same w w' -> rows (w_pipelines w') = rows (w_pipelines w) /\
    bounded_by_policy s p (active_runs (pl_ID p) w) (active_runs (pl_ID p) w')).
  { intros w' Hs. rewrite (active_runs_same _ _ _ Hs). split; [by destruct Hs as [_ [-> _]]|].
    split; lia. }
  destruct (tq_TargetIDs req) eqn:Et.
  - apply wp_Trigger_single; [done|done|intros; by apply Hsame|].
    intros tg q pl spec params w1 H1 _ _. destruct (Hsame w1 H1) as [Epl Hb].
    apply wp_try. eapply wp_mono; [apply createRun_bounded; [done| |by rewrite Epl|exact Hb]|].
    + unfold unique_pipeline. by rewrite Epl.
    + intros [run|e] w2 [_ H2]; [by apply wp_ret|done].
  - apply wp_Trigger_fanout; [done|by rewrite Et|intros; by apply Hsame|].
    intros q pl spec params w1 H1 _. destruct (Hsame w1 H1) as [Epl Hb].
    eapply wp_mono; [apply (wp_fold_err_inv (fun w' => rows (w_pipelines w') = rows (w_pipelines w) /\
      bounded_by_policy s p (active_runs (pl_ID p) w) (active_runs (pl_ID p) w')))|].
    + by split.
    + intros runs tid w2 [E2 H2]. apply wp_try.
      eapply wp_mono; [apply createRun_bounded; [done| |by rewrite E2|exact H2]|].
      * unfold unique_pipeline. by rewrite E2.
      * intros [run|e] w3 [E3 H3]; [by apply wp_ret; rewrite E3|by rewrite E3].
    + by intros r w' [_ ?].
Qed.

(** Under Forbid a trigger of a pipeline that has an active run is refused
    and leaves every table and the Runner link as they were. *)
Theorem Trigger_forbidden s p req w :
  collaborators_quiet s -> unique_pipeline p w -> p ∈ rows (w_pipelines w) ->
  pl_ConcurrencyPolicy p = ConcurrencyForbid -> 1 <= active_runs (pl_ID p) w ->
  wp (Trigger s (pl_ID p) req) (fun r w' => is_ok r = false /\ same w w') w.
Proof.
  intros Hq Hu Hp Hpol Hact.
  assert (Hcr : forall w1 tid spec ns params v, same w w1 ->
    wp (createRun s (pl_ID p) tid spec ns params v req) (fun r w' => is_ok r = false /\ same w w') w1).
  { intros w1 tid spec ns params v H1. eapply wp_mono; [apply (createRun_forbid s p) with (w0 := w)|].
    - done.
    - by apply (unique_pipeline_same p w w1).
    - by destruct H1 as [_ [-> _]].
    - done.
    - by rewrite (active_runs_same _ _ _ H1).
    - by intros r w' (? & ? & _). }
  destruct (tq_TargetIDs req) as [|t ts] eqn:Et.
  - apply wp_Trigger_single; [done|done|done|]. intros tg q pl spec params w1 H1 _ _.
    apply wp_try. eapply wp_mono; [by apply Hcr|]. by intros [run|e] w2 [? ?].
  - apply wp_Trigger_fanout; [done|by rewrite Et|done|]. intros q pl spec params w1 H1 _.
    rewrite Et. apply wp_try, wp_try. eapply wp_mono; [by apply Hcr|].
    by intros [run|e] w2 [? ?].
Qed.

(** The refusal is the API error 409 that names the pipeline and the
    number of active runs. *)
Theorem createRun_conflict s p tid spec ns params v req w :
  unique_pipeline p w -> p ∈ rows (w_pipelines w) -> alive p = true ->
  healthy (w_pipelines w) -> healthy (w_runs w) ->
  pl_ConcurrencyPolicy p = ConcurrencyForbid -> 1 <= active_runs (pl_ID p) w ->
  wp (createRun s (pl_ID p) tid spec ns params v req) (fun r w' => same w w' /\
    r = Err (ErrConcurrencyForbidden (pl_ID p) (active_runs (pl_ID p) w))) w.
Proof.
  intros Hu Hp Ha Hhp Hhr Hpol Hact. eapply wp_mono; [by apply (createRun_forbid s p) with (w0 := w)|].
  intros r w' (_ & ? & H). auto.
Qed.

(** A fan-out trigger to two or more targets cannot succeed under Forbid:
    the run created for the first target is itself the active run that refuses
    the second. *)
Theorem fanout_forbid_fails s p req t1 t2 ts w :
  collaborators_quiet s -> unique_pipeline p w -> p ∈ rows (w_pipelines w) ->
  pl_ConcurrencyPolicy p = ConcurrencyForbid -> tq_TargetIDs req = t1 :: t2 :: ts ->
  wp (Trigger s (pl_ID p) req) (fun r _ => is_ok r = false) w.
Proof.
  intros Hq Hu Hp Hpol Et. apply wp_Trigger_fanout; [done|by rewrite Et|done|].
  intros q pl spec params w1 H1 _. rewrite Et. simpl.
  assert (Hp1 : p ∈ rows (w_pipelines w1)) by (by destruct H1 as [_ [-> _]]).
  assert (Hu1 : unique_pipeline p w1) by (by eapply unique_pipeline_same).
  apply wp_try, wp_try. eapply wp_framed; [by apply createRun_pipelines|by apply createRun_runs|].
  intros [run|e] w2 [[Epl _] _] Hout; [|done]. apply wp_ret. simpl in Hout.
  destruct Hout as [[? _]|(p' & r & Hp' & Ha' & Hid & Hfor & [Hpid _] & E & Hph)]; [done|].
  assert (p' = p) as -> by (by apply Hu1).
  destruct Hph as [Hph|[? _]]; [|done]. apply wp_try, wp_try.
  eapply wp_mono; [apply (createRun_forbid s p) with (w0 := w2)|]; try done.
  - unfold unique_pipeline. by rewrite Epl.
  - by rewrite Epl.
  - rewrite (active_runs_snoc _ _ _ _ E), Hfor by done. unfold is_active.
    rewrite Hpid, Z.eqb_refl, Hph. unfold admitted_phase. by rewrite Hpol.
  - by intros [run'|e] w3 (? & _ & _).
Qed.

(** * Production approval *)

(** Asked about some targets, the policy names every production one of them,
    or answers an error. *)
Definition finds (prod : UUID -> Prop) (f : list UUID -> M World (Result (list UUID))) : Prop :=
  forall l w found, (f l w).1 = Ok found -> forall t, t ∈ l -> prod t -> t ∈ found.

(** The runs of [w'] are those of [w] and new ones, on targets outside [prod]. *)
Definition adds_runs_outside (prod : UUID -> Prop) (w w' : World) : Prop :=
  exists new, rows (w_runs w') = rows (w_runs w) ++ new /\ Forall (fun run => ~ prod (run_TargetID run)) new.

Lemma adds_none prod w w' : rows (w_runs w') = rows (w_runs w) -> adds_runs_outside prod w w'.
Proof. intros E. exists []. by rewrite app_nil_r. Qed.

Lemma createRun_outside prod s pid tid spec ns params v req w0 w :
  collaborators_quiet s -> ~ prod tid -> adds_runs_outside prod w0 w ->
  wp (createRun s pid tid spec ns params v req) (fun _ w' => adds_runs_outside prod w0 w') w.
Proof.
  intros Hq Ht (new & E & Hnew). eapply wp_mono; [by apply createRun_runs|].
  intros r w' [[_ Er]|(p & run & _ & _ & _ & _ & [_ Htid] & Er & _)]; [exists new; by rewrite Er|].
  exists (new ++ [run]). rewrite Er, E, app_assoc. split; [done|].
  apply Forall_app. split; [done|]. constructor; [by rewrite Htid|constructor].
Qed.

(** What was cleared without an approval task holds no production target. *)
Lemma cleared_outside prod s pid req f targets w p pl spec :
  productionPolicy s = Some f -> finds prod f ->
  (forall st tpl, st ∈ rows (w_stages w) -> st_PipelineID st = pid ->
     tpl ∈ rows (w_templates w) -> tpl_StageID tpl = st_ID st -> tpl_Type tpl <> TaskTypeApproval) ->
  cleared s pid req targets w p pl spec -> forall t, t ∈ targets -> ~ prod t.
Proof.
  intros Hf Hfinds Htpl [_ (p' & Hb) _ Hpr] t Ht Hprod.
  destruct (Hpr f Hf) as [->|[Hg|(w1 & _ & Hok)]]; [set_solver| |by apply (Hfinds _ _ _ Hok t), not_elem_of_nil in Ht].
  rewrite (compiled_gate _ _ _ (bt_tasks _ _ _ _ _ _ _ _ Hb)) in Hg.
  apply existsb_exists in Hg as ([st tpl] & Hin%list_elem_of_In & Hty%String.eqb_eq).
  apply (plan_step_elem pid w) in Hin as (? & _ & ? & ? & _ & ?); [by eapply Htpl|].
  apply (bt_plan _ _ _ _ _ _ _ _ Hb).
Qed.

(** C22: A pipeline without an approval task never runs on a production target,
    nor on one the policy cannot answer for.  Whatever the request, alone or
    among others, it creates runs on other targets only; and when it names such
    a target itself, it is refused as a whole before anything is written. *)
Theorem production_needs_approval s pid req f prod w :
  collaborators_quiet s -> productionPolicy s = Some f -> finds prod f ->
  (forall st tpl, st ∈ rows (w_stages w) -> st_PipelineID st = pid ->
     tpl ∈ rows (w_templates w) -> tpl_StageID tpl = st_ID st -> tpl_Type tpl <> TaskTypeApproval) ->
  uuid_Nil ∉ (tg_ID <$> rows (w_targets w)) ->
  wp (Trigger s pid req) (fun r w' => adds_runs_outside prod w w' /\
    ((exists t, (t ∈ tq_TargetIDs req \/ tq_TargetIDs req = [] /\ tq_TargetID req = Some t) /\ prod t) ->
     is_ok r = false /\ same w w')) w.
Proof.
  intros Hq Hf Hfinds Htpl Hnil.
  assert (Herr : forall (e : GoError) w', same w w' -> adds_runs_outside prod w w' /\
    ((exists t, (t ∈ tq_TargetIDs req \/ tq_TargetIDs req = [] /\ tq_TargetID req = Some t) /\ prod t) ->
     is_ok (Err e : Result (list PipelineRun)) = false /\ same w w')).
  { intros e w' Hs. split; [|done]. apply adds_none. by destruct Hs as [_ _ _ _ _ [-> _]]. }
  destruct (tq_TargetIDs req) as [|t ts] eqn:Et.
  - apply wp_Trigger_single; [done|done|exact Herr|]. intros tg p pl spec params w1 H1 (Htg & _ & Hasked) Hc.
    assert (Hout : ~ prod (tg_ID tg)).
    { eapply cleared_outside; [done..|exact Hc|]. unfold productionGuardTargets.
      destruct (Z.eqb_spec (tg_ID tg) uuid_Nil) as [E|]; [|by left]. destruct Hnil. rewrite <- E. by apply list_elem_of_fmap_2. }
    apply wp_try. eapply wp_mono; [apply (createRun_outside prod _ _ _ _ _ _ _ _ w); [done|done|]|].
    { apply adds_none. by destruct H1 as [_ _ _ _ _ [-> _]]. }
    assert (Hno : ~ exists t, (t ∈ [] \/ [] = @nil UUID /\ tq_TargetID req = Some t) /\ prod t).
    { intros (t & [?%not_elem_of_nil|[_ Ht]] & Hp); [done|]. rewrite Ht in Hasked. by subst. }
    by intros [run|e] w2 H2; [apply wp_ret|].
  - apply wp_Trigger_fanout; [done|by rewrite Et|exact Herr|]. intros p pl spec params w1 H1 Hc.
    pose proof (cleared_outside prod _ _ _ _ _ _ _ _ _ Hf Hfinds Htpl Hc) as Hout. rewrite Et in *. simpl in Hout.
    eapply wp_mono; [apply (wp_fold_err_in (fun w' => adds_runs_outside prod w w'))|].
    + apply adds_none. by destruct H1 as [_ _ _ _ _ [-> _]].
    + intros runs tid w2 Hin H2. apply wp_try. eapply wp_mono; [by apply createRun_outside; [|apply Hout|]|].
      by intros [run|e] w3 H3; [apply wp_ret|].
    + intros r w2 H2. split; [done|]. intros (t' & [Ht'|[? _]] & Hp); [|done]. by destruct (Hout t' Ht').
Qed.

(** * The spec *)

(** C21: A spec that is built follows the stored definition: live stages by
    sequence, live templates of each by display order, one task per template
    with its fields expanded; a task depends on every task of the stage before
    and, in a serial stage, on its predecessor.  Every dependency names an
    earlier task of the list, so the list is a topological order of the task
    graph.  Building only reads. *)
Theorem buildSpec_plan s pid req w :
  collaborators_quiet s ->
  wp (buildSpec s pid req) (fun r w' => same w w' /\ forall spec, r = Ok spec ->
    (exists p pl, built s pid req w p pl (paramsMap (prs_Params spec)) spec) /\
    forall i t d, prs_Tasks spec !! i = Some t -> d ∈ ts_DependsOn t ->
      exists k u, (k < i)%nat /\ prs_Tasks spec !! k = Some u /\ ts_Name u = d) w.
Proof.
  intros Hq. eapply wp_mono; [by apply wp_buildSpec|]. intros r w' [Hs Hb]. split; [done|].
  intros spec ->. destruct (Hb spec eq_refl) as (p & pl & subst & H).
  rewrite <- (bt_subst _ _ _ _ _ _ _ _ H). split; [by exists p, pl|].
  intros i t d Hi Hd.
  assert (Hdeps : pipeline_deps [] pl !! i = Some (ts_DependsOn t)).
  { rewrite <- (bt_deps _ _ _ _ _ _ _ _ H), list_lookup_fmap, Hi. done. }
  destruct (pipeline_deps_lookup _ _ _ _ _ Hdeps Hd) as [?|(k & Hk & Hn)]; [set_solver|].
  rewrite <- plan_steps_names, <- (compiled_names _ _ _ (bt_tasks _ _ _ _ _ _ _ _ H)) in Hn.
  rewrite list_lookup_fmap in Hn. destruct (prs_Tasks spec !! k) as [u|] eqn:Eu; [|done].
  injection Hn as Hn. by exists k, u.
Qed.

(** The parameters of a run: each name occurs once, no name is empty, and
    its value is the last one given for it in the order declared defaults,
    variable groups, component variables, trigger request. *)
Theorem triggerParams_precedence s p runParams w gs cs w' :
  tiers s (pl_ComponentID p) w gs cs w' ->
  wp (triggerParams s p runParams) (fun out w'' => w'' = w' /\
    NoDup (param_Name <$> out) /\ "" ∉ (param_Name <$> out) /\
    forall name, name <> "" -> last_value name out =
      last_value name (declared (DecodeParamDecls (pl_Params p)) ++ gs ++ cs ++ runParams)) w.
Proof.
  intros Ht. unfold wp. rewrite (triggerParams_eq _ _ _ _ _ _ _ Ht). simpl. split; [done|].
  destruct (add_params_spec (declared (DecodeParamDecls (pl_Params p)) ++ gs ++ cs ++ runParams)
    ([], ∅) acc_ok_nil) as [[Hnd [Hne _]] Hv]. done.
Qed.
End Trigger.

(** C26: The [${KEY}] expansion agrees with the token semantics on every
    string: a string splits, leftmost first, into references and literal
    characters; printing the tokens gives the string back, and the expansion
    replaces exactly the references to known keys, never rescanning what it
    inserted. *)
Theorem substituteParams_reference s params :
  (exists ts, Lex s ts) /\
  forall ts, Lex s ts -> render ∅ ts = s /\ substituteParams s params = render params ts.
Proof.
  split; [apply Lex_total|]. intros ts Ht. split; [by apply render_source|].
  unfold substituteParams. case_bool_decide as He; simpl.
  - subst. by rewrite (render_source _ _ Ht).
  - destruct (contains_open s) eqn:Ho; simpl.
    + by apply replace_all_Lex.
    + by rewrite (render_closed _ _ _ Ht).
Qed.

(** * The concrete hub *)

Lemma demo_quiet : collaborators_quiet demo_service.
Proof. split; simpl; try done. intros f [= <-] p. apply quiet_ret. Qed.

Lemma demo_ready : trigger_ready demo.
Proof. split; simpl; try constructor; try done; try constructor. simpl. set_solver. Qed.

Lemma only_pipeline p w : rows (w_pipelines w) = [p] -> unique_pipeline p w.
Proof. intros E q. rewrite E. intros ->%list_elem_of_singleton. done. Qed.

(** The demo hub whose pipeline has another policy and these runs. *)
Definition policy_pipeline (policy : string) : Pipeline :=
  demo_pipeline <| pl_ConcurrencyPolicy := policy |>.
Definition policy_hub (policy : string) (runs : list PipelineRun) : World :=
  demo <| w_pipelines := table [policy_pipeline policy] |> <| w_runs := table runs |>.

Definition first_run : World := (Trigger demo_service 10 demo_request demo).2.

Lemma Trigger_outcome_witness :
  is_ok (Trigger demo_service 10 demo_request demo).1 = true /\
  wp (Trigger demo_service 10 demo_request) (fun r w' => forall runs, r = Ok runs ->
    exists run, runs = [run]) demo.
Proof.
  split; [vm_compute; reflexivity|]. intros runs Hr.
  destruct (Trigger_outcome (D := hub_dispatcher) demo_service 10 demo_request demo
    demo_quiet demo_ready eq_refl runs Hr) as (tg & p & pl & spec & run & H & _).
  exists run. exact H.
Defined.

Definition busy : World := policy_hub ConcurrencyForbid [demo_run 50 PipelineRunRunning].

Lemma Trigger_respects_policy_witness :
  bounded_by_policy demo_service (policy_pipeline ConcurrencyQueue)
    (active_runs 10 (policy_hub ConcurrencyQueue []))
    (active_runs 10 (Trigger demo_service 10 demo_request (policy_hub ConcurrencyQueue [])).2).
Proof.
  refine (Trigger_respects_policy (D := hub_dispatcher) demo_service (policy_pipeline ConcurrencyQueue)
    demo_request _ demo_quiet _ _).
  - by apply only_pipeline.
  - left.
Defined.

Lemma Trigger_forbidden_witness :
  is_ok (Trigger demo_service 10 demo_request busy).1 = false.
Proof.
  refine (proj1 (Trigger_forbidden (D := hub_dispatcher) demo_service
    (policy_pipeline ConcurrencyForbid) demo_request busy demo_quiet _ _ eq_refl _)).
  - by apply only_pipeline.
  - left.
  - by apply Z.leb_le.
Defined.

Lemma createRun_conflict_witness :
  (createRun demo_service 10 30 zero "ns" RawEmpty 3 demo_request busy).1 =
  Err (ErrConcurrencyForbidden 10 1).
Proof.
  refine (proj2 (createRun_conflict (D := hub_dispatcher) demo_service
    (policy_pipeline ConcurrencyForbid) 30 zero "ns" RawEmpty 3 demo_request busy _ _ eq_refl _ _ eq_refl _)).
  - by apply only_pipeline.
  - left.
  - constructor.
  - constructor.
  - by apply Z.leb_le.
Defined.

(** A request that fans out over both targets. *)
Definition fan_request : TriggerRequest := demo_request <| tq_TargetIDs := [30; 31] |>.

Lemma fanout_forbid_fails_witness :
  let w' := (Trigger demo_service 10 fan_request (policy_hub ConcurrencyForbid [])).2 in
  length (rows (w_runs w')) = 1%nat /\
  is_ok (Trigger demo_service 10 fan_request (policy_hub ConcurrencyForbid [])).1 = false.
Proof.
  split; [vm_compute; reflexivity|].
  refine (fanout_forbid_fails (D := hub_dispatcher) demo_service (policy_pipeline ConcurrencyForbid)
    fan_request 30 31 [] (policy_hub ConcurrencyForbid []) demo_quiet _ _ eq_refl eq_refl).
  - by apply only_pipeline.
  - left.
Defined.

(** One environment is production, on target 30; the policy is the repository
    of environments, and the definition has no approval task. *)
Definition demo_environments : Table Environment := table
  [mkEnvironment 400 5 5 7 "prod" "Prod" 30 EnvTypeProduction "acme-c7" EnvAccessAgent None
     (mkEnvAccessConfig "" "" "" false "" "" "" false []) EnvStatusVerified None ""].
Definition demo_policy (l : list UUID) : M World (Result (list UUID)) :=
  ret (EnvironmentRepository.ProductionTargets l demo_environments).1.
Definition production_service : PipelineRunService := demo_service <| productionPolicy := Some demo_policy |>.
Definition ungated : World :=
  demo <| w_templates := table [demo_template 40 20 "compile" TaskTypeBuild 1 "go:${VERSION}"] |>.
(** A fan-out whose second target is the production one. *)
Definition mixed_request : TriggerRequest := demo_request <| tq_TargetID := None |> <| tq_TargetIDs := [31; 30] |>.

Lemma production_quiet : collaborators_quiet production_service.
Proof.
  split; simpl; try done.
  - intros f [= <-] p. apply quiet_ret.
  - intros f [= <-] l. apply quiet_ret.
Qed.

(** The repository of environments is such a policy. *)
Lemma demo_policy_finds : finds (eq 30) demo_policy.
Proof.
  intros l w found E t Ht <-. unfold demo_policy, EnvironmentRepository.ProductionTargets in E. simpl in E.
  destruct l as [|x l]; [by apply not_elem_of_nil in Ht|]. unfold bind in E. cbn in E.
  rewrite bool_decide_eq_true_2 in E by done. cbn in E. injection E as <-. left.
Qed.

Lemma production_needs_approval_witness :
  is_ok (Trigger production_service 10 mixed_request ungated).1 = false /\
  rows (w_runs (Trigger production_service 10 mixed_request ungated).2) = [] /\
  is_ok (Trigger production_service 10 demo_request demo).1 = true.
Proof.
  assert (H := production_needs_approval (D := hub_dispatcher) production_service 10 mixed_request demo_policy (eq 30)
    ungated production_quiet eq_refl demo_policy_finds).
  destruct H as [_ H].
  - intros st tpl _ _ Ht _. simpl in Ht. apply list_elem_of_singleton in Ht as ->. discriminate.
  - apply (bool_decide_eq_true_1 (uuid_Nil ∉ _)). vm_compute. reflexivity.
  - destruct H as [Hno Hs]; [exists 30; split; [left; right; left|reflexivity]|].
    split; [exact Hno|]. split; [|vm_compute; reflexivity]. destruct Hs as [_ _ _ _ _ [Hr _] _ _ _ _ _ _ _]. exact Hr.
Defined.

Lemma buildSpec_plan_witness :
  ((fun sp => ts_DependsOn <$> prs_Tasks sp) <$>
     (match (buildSpec demo_service 10 demo_request demo).1 with Ok sp => Some sp | Err _ => None end))
    = Some [[]; ["compile"]; ["compile"; "unit"]; ["compile"; "unit"]] /\
  same demo (buildSpec demo_service 10 demo_request demo).2.
Proof.
  split; [vm_compute; reflexivity|].
  exact (proj1 (buildSpec_plan (D := hub_dispatcher) demo_service 10 demo_request demo demo_quiet)).
Defined.

Definition vars_service : PipelineRunService :=
  demo_service <| varSource := Some (mkVarSource (fun _ => ret [mkParam "REGION" "eu"])
                                       (fun _ => ret [mkParam "REGION" "us"; mkParam "VERSION" "1.5"])) |>.

Lemma triggerParams_precedence_witness :
  (triggerParams vars_service demo_pipeline [mkParam "VERSION" "2.0"] demo).1 =
    [mkParam "VERSION" "2.0"; mkParam "REGION" "eu"] /\
  last_value "VERSION" (triggerParams vars_service demo_pipeline [mkParam "VERSION" "2.0"] demo).1 =
    Some "2.0".
Proof.
  split; [vm_compute; reflexivity|].
  destruct (triggerParams_precedence (D := hub_dispatcher) vars_service demo_pipeline [mkParam "VERSION" "2.0"] demo
    [mkParam "REGION" "us"; mkParam "VERSION" "1.5"] [mkParam "REGION" "eu"] demo) as (_ & _ & _ & H).
  - exists demo. split; reflexivity.
  - etransitivity; [apply H; discriminate|]. vm_compute. reflexivity.
Defined.
