(* ===== verification/GatewayTheory.v ===== *)
(** Properties of the gateway: an enroll token is traded once, a dial is
    accepted only on one of the three credentials, a late disconnect of an old
    connection does not take the new one down. *)
From stdpp Require Import base list strings gmap.
From Stdlib Require Import ZArith Lia.
From S2P Require Import Prelude Common Gorm Json RunnerProto RunStore PipelineStore TargetStore World.
From S2P Require Import WorldLogic Gateway.
From S2P Require Instances.

Import TargetRepository.

Open Scope Z_scope.

Section Tokens.
Context {G : Gorm} {GL : GormLaws G}.

Lemma eq_col_iff c s : eq_col c s = true <-> c = Some s.
Proof. destruct c as [x|]; simpl; [|done]. rewrite String.eqb_eq. naive_solver. Qed.

(** The row a burn starts from. *)
Definition live_token (now : Time) (token expectName : string) (t : Target) : Prop :=
  tg_EnrollToken t = Some token /\
  (exists e, tg_EnrollTokenExpireAt t = Some e /\ now < e) /\
  (expectName = "" \/ tg_Name t = expectName).

Lemma burnable_iff now id token name t :
  burnable now id token name t = true <-> tg_ID t = id /\ live_token now token name t.
Proof.
  unfold burnable, live_token. rewrite !andb_true_iff, Z.eqb_eq, eq_col_iff, orb_true_iff.
  unfold empty_string. rewrite !String.eqb_eq.
  destruct (tg_EnrollTokenExpireAt t) as [e|]; [rewrite Z.ltb_lt|];
    split; naive_solver.
Qed.

Lemma BurnEnrollToken_cases now token cred name t r t' :
  BurnEnrollToken now token cred name t = (r, t') ->
  match r with
  | Err _ => rows t' = rows t
  | Ok tg => exists old, old ∈ rows t /\ live_token now token name old /\
      rows t' = update_rows now (burnable now (tg_ID old) token name) (burn cred) (rows t) /\
      tg ∈ rows t' /\ tg_ID tg = tg_ID old
  end.
Proof.
  intros E. apply Transaction_spec in E as [(e & -> & ? & _)|(t0 & r0 & t1 & Hr0 & _ & Eb & _ & Hres)]; [done|].
  assert (Hb : wp (try* tg := db_First (Where (fun t => eq_col (tg_EnrollToken t) token)) in
    try* affected := db_Updates now (burnable now (tg_ID tg) token name) (burn cred) in
    if affected =? 0 then ret (Err ErrEnrollTokenInvalid)
    else db_First (Where (fun t => tg_ID t =? tg_ID tg)))
    (fun r t1 => match r with Err _ => True | Ok tg => exists old, old ∈ rows t /\
      live_token now token name old /\
      rows t1 = update_rows now (burnable now (tg_ID old) token name) (burn cred) (rows t) /\
      tg ∈ rows t1 /\ tg_ID tg = tg_ID old end) t0).
  { apply wp_try, wp_First; [|done]. intros tg t2 [Hr2 _] _ Htok Hin.
    apply wp_try, wp_Updates; [|done]. intros t3 _ Hr3.
    destruct (Z.eqb_spec (Z.of_nat (length (selected (burnable now (tg_ID tg) token name) (rows t2)))) 0)
      as [|Hsel]; [done|].
    apply wp_First; [|done]. intros tg' t4 [Hr4 _] _ Hid%Z.eqb_eq Hin'.
    destruct (selected _ (rows t2)) as [|old l] eqn:Es; [done|].
    assert (old ∈ selected (burnable now (tg_ID tg) token name) (rows t2)) as Ho by (rewrite Es; set_solver).
    apply elem_of_selected in Ho as (_ & [Hoid Hol]%burnable_iff & Hoin).
    exists old. rewrite Hr2, Hr0 in Hoin. rewrite Hr4, Hr3, Hr2, Hr0, Hoid.
    rewrite Hr3, Hr2, Hr0 in Hin'. done. }
  rewrite wp_run in Hb. apply Hb in Eb.
  destruct r0 as [tg|e].
  - destruct Hres as [[-> Hrows]|(e & -> & ? & _)]; [|done].
    destruct Eb as (old & ? & ? & Hu & Hin & ?). exists old. rewrite Hrows. done.
  - by destruct Hres as [-> ?].
Qed.

(** No row holds [token] any more once the only holder burned it. *)
Lemma burned_gone now token cred name old (l : list Target) :
  old ∈ l -> live_token now token name old ->
  (forall x, x ∈ l -> tg_EnrollToken x = Some token -> x = old) ->
  forall x, x ∈ update_rows now (burnable now (tg_ID old) token name) (burn cred) l ->
  tg_EnrollToken x <> Some token.
Proof.
  intros Hin Hlive Huniq x [(x0 & Hx0 & _ & _ & ->)|[Hx Hp]]%elem_of_update_rows Htok; [done|].
  assert (x = old) as -> by (by apply Huniq). simpl in Hp.
  assert (burnable now (tg_ID old) token name old = true) by (by apply burnable_iff). congruence.
Qed.

Lemma ConsumeEnrollToken_cases now entropy token name t r t' :
  TargetService.ConsumeEnrollToken now entropy token name t = (r, t') ->
  match r with
  | Err _ => rows t' = rows t
  | Ok (tg, cred) => token <> "" /\ entropy = Ok cred /\
      exists old, old ∈ rows t /\ live_token now token name old /\
        rows t' = update_rows now (burnable now (tg_ID old) token name) (burn cred) (rows t) /\
        tg ∈ rows t' /\ tg_ID tg = tg_ID old
  end.
Proof.
  unfold TargetService.ConsumeEnrollToken, empty_string.
  destruct (String.eqb_spec token "") as [->|Hne]; [by intros [= <- <-]|].
  destruct entropy as [cred|e]; [|by intros [= <- <-]]. unfold bind, ret.
  destruct (BurnEnrollToken now token cred name t) as [[tg|e] t1] eqn:E; intros [= <- <-];
    apply BurnEnrollToken_cases in E; naive_solver.
Qed.
End Tokens.

Section Properties.
Context {G : Gorm} {GL : GormLaws G}.

(** C33: A one-time enroll token is consumed at most once: the first dial gets a
    credential stored on the holder's row, every later dial with the same token
    fails and changes nothing, whatever name and time it presents. *)
Theorem enroll_token_single_use now entropy token name t tg cred t1 :
  NoDup (tg_ID <$> rows t) ->
  (forall x y, x ∈ rows t -> y ∈ rows t -> tg_EnrollToken x = Some token ->
     tg_EnrollToken y = Some token -> x = y) ->
  TargetService.ConsumeEnrollToken now entropy token name t = (Ok (tg, cred), t1) ->
  tg ∈ rows t1 /\ tg_RunnerCredential tg = Some cred /\ tg_EnrollToken tg = None /\
  forall now' entropy' name', exists e t2,
    TargetService.ConsumeEnrollToken now' entropy' token name' t1 = (Err e, t2) /\
    rows t2 = rows t1.
Proof.
  intros Hnd Huniq E.
  apply ConsumeEnrollToken_cases in E as (_ & -> & old & Hin & Hlive & Hrows & Htg & Hid).
  split; [done|].
  assert (tg_RunnerCredential tg = Some cred /\ tg_EnrollToken tg = None) as [? ?].
  { rewrite Hrows in Htg. apply elem_of_update_rows in Htg as [(x & _ & _ & _ & ->)|[Hx Hp]]; [done|].
    exfalso. assert (tg = old) as ->.
    { apply list_elem_of_lookup in Hx as (i & Hi). apply list_elem_of_lookup in Hin as (k & Hk).
      assert (i = k); [|by simplify_eq]. eapply NoDup_lookup; [exact Hnd| |];
        rewrite list_lookup_fmap; [by rewrite Hi|by rewrite Hk; simpl; rewrite Hid]. }
    simpl in Hp. assert (burnable now (tg_ID old) token name old = true) by (by apply burnable_iff).
    congruence. }
  split; [done|]. split; [done|]. intros now' entropy' name'.
  destruct (TargetService.ConsumeEnrollToken now' entropy' token name' t1) as [r t2] eqn:E2.
  apply ConsumeEnrollToken_cases in E2. destruct r as [[tg2 cred2]|e]; [|by exists e, t2].
  destruct E2 as (_ & _ & old2 & Hin2 & (Htok2 & _) & _). exfalso. rewrite Hrows in Hin2.
  eapply burned_gone; [exact Hin|exact Hlive| |exact Hin2|exact Htok2].
  intros x Hx Hxt. apply Huniq; [done|done|done|]. apply Hlive.
Qed.

(** With a gateway token configured, a dial that does not present it is
    accepted only on a live enroll token of that very target or on the
    target's own credential, never on its self-reported name; a refused dial
    leaves the registry unchanged. *)
Theorem authenticate_sound now gw entropy d t r t' :
  gw <> "" -> extractBearer (dial_Authorization d) <> gw ->
  authenticate now gw entropy d t = (r, t') ->
  match r with
  | Refused status _ => status = StatusUnauthorized /\ rows t' = rows t
  | Accepted tg (Some cred) => exists old, old ∈ rows t /\ tg_ID old = tg_ID tg /\
      live_token now (extractBearer (dial_Authorization d)) (dial_Name d) old
  | Accepted tg None =>
      tg ∈ rows t /\ rows t' = rows t /\ extractBearer (dial_Authorization d) <> "" /\
      tg_RunnerCredential tg = Some (extractBearer (dial_Authorization d)) /\
      (dial_Name d = "" \/ dial_Name d = tg_Name tg)
  end.
Proof.
  unfold authenticate. generalize (extractBearer (dial_Authorization d)) as token.
  intros token Hgw Htok. unfold empty_string.
  rewrite (proj2 (String.eqb_neq gw "")), (proj2 (String.eqb_neq token gw)) by done. simpl.
  unfold bind, ret.
  destruct (TargetService.ConsumeEnrollToken now entropy token (dial_Name d) t) as [[[tg cred]|e] t1] eqn:E;
    apply ConsumeEnrollToken_cases in E.
  { intros [= <- <-]. destruct E as (_ & _ & old & ? & ? & _ & _ & ?). eauto. }
  unfold TargetService.GetByCredential, empty_string.
  destruct (String.eqb_spec token "") as [->|Hne]; [by intros [= <- <-]|].
  unfold GetByCredential. destruct (db_First _ t1) as [[tg|e2] t2] eqn:E2.
  - apply First_Ok in E2 as (Hr2 & _ & Hc%eq_col_iff & Hin). rewrite E in Hr2, Hin.
    destruct (String.eqb_spec (dial_Name d) "") as [->|Hn]; simpl; [intros [= <- <-]; auto 10|].
    destruct (String.eqb_spec (dial_Name d) (tg_Name tg)) as [->|]; intros [= <- <-]; auto 10.
  - apply First_Err in E2 as [Hr2 _]. intros [= <- <-]. by rewrite Hr2.
Qed.
End Properties.

Section Registry.
Context {G : Gorm} {GL : GormLaws G} {P : Platform} {X : MetaV1} {S : WebSocket} {SL : WebSocketLaws S}.
#[local] Existing Instance gateway_dispatcher.

(** A send goes out on the connection currently registered for the target,
    carrying the frame of the message; without one nothing is written and the
    caller gets [ErrNoRunner]. *)
Theorem send_uses_registered_connection t m h r h' :
  send_to t m h = (r, h') ->
  conns h' = conns h /\
  match conns h !! t with
  | None => r = Some ErrNoRunner /\ h' = h
  | Some ws =>
      match r with
      | None => ws_sent (h_wire h') = ws_sent (h_wire h) ++ [(ws, frame_of m)] /\
                h_delivered h' = h_delivered h ++ [(t, m)]
      | Some _ => ws_sent (h_wire h') = ws_sent (h_wire h) /\ h_delivered h' = h_delivered h
      end
  end.
Proof.
  intros E. apply send_to_cases in E as E'. destruct E' as [-> Hr]. split; [done|].
  destruct (conns h !! t) as [ws|] eqn:Ec, r as [e|]; naive_solver.
Qed.

(** When a Runner has reconnected, the end of its old connection neither
    unregisters the new one nor marks the target offline; it does clear the
    online gauge of the still connected target. *)
Theorem late_disconnect tg old_ws new_ws w :
  old_ws <> new_ws -> conns (w_link w) !! tg_ID tg = Some new_ws ->
  let w' := (on_disconnect tg old_ws w).2 in
  conns (w_link w') = conns (w_link w) /\ rows (w_targets w') = rows (w_targets w) /\
  connected (tg_ID tg) (w_link w') = true /\
  gauge (w_link w') !! tg_Name tg = Some false.
Proof.
  intros Hne Hc. unfold on_disconnect, unregister, bind, on_link, get, ret, owned, drop_conn, owned.
  rewrite bool_decide_eq_false_2 by congruence. simpl.
  rewrite bool_decide_eq_true_2 by (by eexists). rewrite lookup_insert_eq. done.
Qed.

Lemma NoDup_name_unique (l : list Target) x y :
  NoDup (tg_Name <$> l) -> x ∈ l -> y ∈ l -> tg_Name x = tg_Name y -> x = y.
Proof.
  intros Hnd (i & Hi)%list_elem_of_lookup (k & Hk)%list_elem_of_lookup E.
  assert (i = k); [|by simplify_eq]. eapply NoDup_lookup; [exact Hnd| |];
    rewrite list_lookup_fmap; [by rewrite Hi|by rewrite Hk; simpl; rewrite E].
Qed.

(** The end of the registered connection takes its entry away and marks the
    target offline. *)
Theorem registered_disconnect tg row ws w :
  healthy (w_targets w) -> NoDup (tg_Name <$> rows (w_targets w)) ->
  row ∈ rows (w_targets w) -> tg_ID row = tg_ID tg -> conns (w_link w) !! tg_ID tg = Some ws ->
  let w' := (on_disconnect tg ws w).2 in
  connected (tg_ID tg) (w_link w') = false /\
  forall x, x ∈ rows (w_targets w') -> tg_ID x = tg_ID tg -> tg_Status x = TargetStatusOffline.
Proof.
  intros Hh Hnd Hrow Hid Hc.
  pose (Q := fun (_ : unit) (w' : World) => connected (tg_ID tg) (w_link w') = false /\
    forall x, x ∈ rows (w_targets w') -> tg_ID x = tg_ID tg -> tg_Status x = TargetStatusOffline).
  change (wp (on_disconnect tg ws) Q w).
  unfold on_disconnect, unregister. apply wp_bind, wp_bind, wp_get, wp_bind.
  unfold on_link at 1, wp at 1. simpl. unfold drop_conn, owned.
  rewrite bool_decide_eq_true_2 by done. unfold heartbeat.
  apply wp_bind, wp_stmt. simpl. unfold TargetService.Heartbeat. apply wp_try, wp_First.
  2: { intros e t [Hr _] Hnf Hs _. exfalso. apply (not_elem_of_nil row).
       rewrite <- (Hs (Hnf Hh)). apply elem_of_selected. split; [done|].
       split; [by apply Z.eqb_eq|done]. }
  intros r t [Hr Hht] _ Hrid%Z.eqb_eq Hrin. apply wp_Save_known.
  - simpl. rewrite Hr. apply list_elem_of_fmap. by exists r.
  - intros t' _ Hr'. simpl. apply wp_ret. unfold on_link, wp. simpl. split.
    + apply bool_decide_eq_false_2. change (~ is_Some (delete (tg_ID tg) (conns (w_link w)) !! tg_ID tg)).
      rewrite lookup_delete_eq. by intros [? ?].
    + change (forall x, x ∈ rows t' -> tg_ID x = tg_ID tg -> tg_Status x = TargetStatusOffline).
      rewrite Hr', Hr. unfold save_rows. intros x (x0 & -> & _)%list_elem_of_fmap. simpl.
      case_bool_decide as Hx; [done|]. intros Hxid. exfalso. apply Hx.
      transitivity (tg_ID tg); [exact Hxid|by rewrite <- Hrid].
  - intros e t' _ [Hnh|Hcl]; [by destruct (Hnh (Hht Hh))|]. exfalso. rewrite Hr in Hcl.
    apply Exists_exists in Hcl as (x & Hx & Hne & Hn%String.eqb_eq). apply Hne. simpl in *.
    by rewrite (NoDup_name_unique _ _ _ Hnd Hx Hrin Hn).
Qed.
End Registry.

(** * The gateway's guarantees evaluated on the concrete hub *)

Import Instances.

Import TargetRepository.

Open Scope Z_scope.

(** Target 30 waits for its enroll token to be used; target 31 was enrolled. *)
Definition enrolling : list Target :=
  [(demo_target 30 "edge" TargetStatusOffline) <| tg_EnrollToken := Some "tok" |>
     <| tg_EnrollTokenExpireAt := Some 100 |>;
   (demo_target 31 "lab" TargetStatusOnline) <| tg_RunnerCredential := Some "secret" |>].

Definition traded : Result (Target * string) * Table Target :=
  TargetService.ConsumeEnrollToken 50 (Ok "cred") "tok" "edge" (table enrolling).
Definition enrolled : Target :=
  match traded.1 with Ok (tg, _) => tg | Err _ => demo_target 0 "none" TargetStatusOffline end.

Lemma enroll_token_single_use_witness :
  tg_RunnerCredential enrolled = Some "cred" /\
  exists e t2, TargetService.ConsumeEnrollToken 60 (Ok "again") "tok" "edge" traded.2 = (Err e, t2).
Proof.
  split; [vm_compute; reflexivity|].
  destruct (enroll_token_single_use 50 (Ok "cred") "tok" "edge" (table enrolling) enrolled "cred" traded.2)
    as (_ & _ & _ & H).
  - by apply (bool_decide_eq_true_1 (NoDup _)); vm_compute.
  - intros x y Hx Hy. simpl in Hx, Hy. set_unfold in Hx. set_unfold in Hy.
    destruct Hx as [->|[->|[]]], Hy as [->|[->|[]]]; done.
  - vm_compute. reflexivity.
  - destruct (H 60 (Ok "again") "edge") as (e & t2 & E & _). exists e, t2. exact E.
Defined.

Lemma authenticate_sound_witness :
  (authenticate 50 "hub-token" (Ok "cred") (mkDial "Bearer secret" "lab" "" "") (table enrolling)).1 =
    Accepted ((demo_target 31 "lab" TargetStatusOnline) <| tg_RunnerCredential := Some "secret" |>) None /\
  extractBearer "Bearer secret" <> "".
Proof.
  split; [vm_compute; reflexivity|].
  destruct (authenticate_sound 50 "hub-token" (Ok "cred") (mkDial "Bearer secret" "lab" "" "") (table enrolling)
    (Accepted ((demo_target 31 "lab" TargetStatusOnline) <| tg_RunnerCredential := Some "secret" |>) None)
    (authenticate 50 "hub-token" (Ok "cred") (mkDial "Bearer secret" "lab" "" "") (table enrolling)).2)
    as (_ & _ & H & _).
  - discriminate.
  - discriminate.
  - vm_compute. reflexivity.
  - exact H.
Defined.

Definition cancel_msg : HubMessage := MessageCancelPipelineRun (mkCancel "pr-00000050" "sdp-run" "ana").

Lemma send_uses_registered_connection_witness :
  (send_to 30 cancel_msg (demo_hub [30])).1 = None /\
  conns (send_to 30 cancel_msg (demo_hub [30])).2 = conns (demo_hub [30]).
Proof.
  split; [vm_compute; reflexivity|].
  exact (proj1 (send_uses_registered_connection 30 cancel_msg (demo_hub [30]) _ _
    (surjective_pairing _))).
Defined.

Definition edge : Target := demo_target 30 "edge" TargetStatusOnline.

Lemma late_disconnect_witness :
  connected 30 (w_link (on_disconnect edge 1 demo).2) = true /\
  gauge (w_link (on_disconnect edge 1 demo).2) !! "edge" = Some false.
Proof.
  destruct (late_disconnect edge 1 1030 demo) as (_ & _ & Hc & Hg).
  - discriminate.
  - vm_compute. reflexivity.
  - split; [exact Hc|exact Hg].
Defined.

Lemma registered_disconnect_witness :
  connected 30 (w_link (on_disconnect edge 1030 demo).2) = false.
Proof.
  destruct (registered_disconnect edge edge 1030 demo) as [H _].
  - constructor.
  - by apply (bool_decide_eq_true_1 (NoDup _)); vm_compute.
  - left.
  - reflexivity.
  - vm_compute. reflexivity.
  - exact H.
Defined.
