(* ===== verification/ControlProperties.v ===== *)
(** What operating on a run guarantees: approvals, cancellation, redelivery,
    status reports and logs, with evaluations on the concrete hub. *)
From stdpp Require Import base list strings gmap sorting.
From Stdlib Require Import ZArith Lia.
From S2P Require Import Prelude Common Gorm Json RunnerProto RunStore PipelineStore TargetStore.
From S2P Require Import World WorldLogic RunParams RunSpec RunDispatch RunTrigger RunControl.
From S2P Require Import RunSweeps Frames DispatchTheory TriggerTheory HubEvents.
From S2P Require Import ApprovalTheory Instances.
Import DispatchJobRepository.

Open Scope Z_scope.

Section Control.
Context {G : Gorm} {GL : GormLaws G} {P : Platform} {D : Dispatcher} {DL : DispatcherLaws D}
  {X : MetaV1}.

(** * Approvals *)

(** C10: No sequence of triggers, status reports, approvals, commands,
    reconnects and sweeps changes an approval that has been decided: its
    verdict, approver and decision time are final. *)
Theorem approvals_decided_once s cs a w :
  collaborators_keep approvals_final s -> sound_rows (rows (w_approvals w)) ->
  a ∈ rows (w_approvals w) -> appr_Status a <> "Pending" ->
  a ∈ rows (w_approvals (hub_calls s cs w)).
Proof. intros Hs Hw Ha Hd. by apply (final_calls s Hs cs w Hw). Qed.

(** The link's answer to one command, and the reply it becomes. *)
Definition relayed (t : UUID) (m : HubMessage) (w : World) (r : Result unit) (w' : World) : Prop :=
  let answer := d_send t m (w_link w) in
  w_link w' = answer.2 /\
  match answer.1 with
  | None => r = Ok tt /\ delivered (w_link w') = delivered (w_link w) ++ [(t, m)]
  | Some _ => is_ok r = false /\ delivered (w_link w') = delivered (w_link w)
  end.

Lemma wp_relay t m f w : wp (relay t m f) (relayed t m w) w.
Proof.
  unfold relay. apply wp_bind, (wp_zoom w_link), wp_run. intros r l' Es. apply wp_ret.
  unfold relayed. rewrite Es. simpl. split; [done|]. destruct r as [e|].
  - split; [by destruct (errors_Is e ErrNoRunner)|]. by apply send_err in Es.
  - split; [done|]. by apply send_ok in Es as [? _].
Qed.

Lemma relayed_link t m w w1 r w' : w_link w1 = w_link w -> relayed t m w1 r w' -> relayed t m w r w'.
Proof. unfold relayed. by intros ->. Qed.

Definition verdict (run : PipelineRun) (name who : string) (approved : bool) : HubMessage :=
  MessageApproveTask (mkApprove (run_CRName run) name who (negb approved)).

(** The guards of [Approve]. *)
Record approvable (pid rid : UUID) (name who : string) (w : World) (run : PipelineRun) (tr : TaskRun)
  : Prop := mkApprovable {
  ap_run : run ∈ rows (w_runs w) /\ run_ID run = rid /\ run_PipelineID run = pid;
  ap_task : tr ∈ rows (w_tasks w) /\ TaskRunRepository.of_node rid name tr = true;
  ap_type : task_Type tr = TaskTypeApproval;
  ap_open : task_Phase tr <> TaskRunSucceeded /\ task_Phase tr <> TaskRunFailed;
  ap_who : who <> "";
}.

(** What the decision did to the approval rows: nothing to record, or the
    pending row of this task, decided by somebody other than its requester. *)
Definition recorded (s : PipelineRunService) (rid : UUID) (tr : TaskRun) (approved : bool)
    (who : string) (w w' : World) : Prop :=
  (rows (w_approvals w') = rows (w_approvals w) /\
   (approvalRepo s = true -> healthy (w_approvals w) -> forall pa, pa ∈ rows (w_approvals w) ->
      appr_RunID pa = rid -> appr_TaskRunID pa <> Some (task_ID tr))) \/
  exists pa, pa ∈ rows (w_approvals w) /\ appr_RunID pa = rid /\
    appr_TaskRunID pa = Some (task_ID tr) /\ appr_Status pa = "Pending" /\
    appr_RequestedBy pa <> who /\
    rows (w_approvals w') = save_rows (w_now w) (decided pa approved who (w_now w)) (rows (w_approvals w)).

Definition decision_frame : World -> World -> Prop :=
  both (keeps w_runs) (both (keeps w_tasks) (keeps w_jobs)).

Lemma is_uuid_iff o id : PipelineApprovalRepository.is_uuid o id = true <-> o = Some id.
Proof. destruct o as [x|]; simpl; [rewrite Z.eqb_eq|]; naive_solver. Qed.

Lemma wp_record_decision s rid tr name ok who w :
  who <> "" ->
  wp (record_decision s rid tr name ok who) (fun r w' => w_link w' = w_link w /\
    match r with
    | Ok _ => recorded s rid tr ok who w w'
    | Err _ => rows (w_approvals w') = rows (w_approvals w)
    end) w.
Proof.
  intros Hwho. unfold record_decision. destruct (approvalRepo s) eqn:Er; simpl.
  2: { apply wp_ret. split; [done|]. left. by rewrite Er. }
  apply wp_bind, (wp_zoom w_approvals), wp_First.
  2: { intros e t [E _] He Hs _. apply wp_ret. split; [done|]. left. split; [exact E|].
       intros _ Hh pa Hin Hrun Htask. apply (not_elem_of_nil pa). rewrite <- (Hs (He Hh)).
       apply elem_of_selected. split; [done|]. split; [|done].
       apply andb_true_iff. split; [by apply Z.eqb_eq|by apply is_uuid_iff]. }
  intros pa t [E _] _ [Hrun%Z.eqb_eq Htask%is_uuid_iff]%andb_true_iff Hin.
  destruct (String.eqb_spec (appr_Status pa) "Pending") as [Hp|]; simpl; [|by apply wp_ret].
  destruct (negb (empty_string (appr_RequestedBy pa)) && String.eqb (appr_RequestedBy pa) who) eqn:Eb;
    [by apply wp_ret|].
  apply wp_bind, wp_stmt, wp_Save_known.
  - simpl. rewrite E. apply list_elem_of_fmap. by exists pa.
  - intros t' _ Hr. apply wp_ret. split; [done|]. right. exists pa. split_and!; try done.
    + intros Eq. rewrite Eq, String.eqb_refl, andb_true_r in Eb. unfold empty_string in Eb.
      by rewrite (proj2 (String.eqb_neq who "")) in Eb.
    + simpl in Hr |- *. by rewrite Hr, E.
  - intros e t' [E' _] _. apply wp_ret. split; [done|]. simpl. by rewrite E', <- E.
Qed.

Definition keeps_approvals_health (w w' : World) : Prop :=
  healthy (w_approvals w) -> healthy (w_approvals w').

Lemma Approve_frame s pid rid name ok who : Preserves decision_frame (Approve s pid rid name ok who).
Proof. unfold Approve, get_run, get_task, record_decision, relay, decision_frame. frame. Qed.

(** An approval decision is relayed only for an undecided approval task of
    a run of that pipeline, by a named approver who did not request the run,
    and after the pending approval row (when there is one) recorded it; the
    Runner of the run's target then gets exactly that decision.  A refused or
    failed decision sends nothing, and either records nothing or was recorded
    before the link refused it.  Runs, tasks and jobs are never touched. *)
Theorem Approve_outcome s pid rid name approved who w :
  wp (Approve s pid rid name approved who) (fun r w' => decision_frame w w' /\
    ((is_ok r = false /\ rows (w_approvals w') = rows (w_approvals w) /\ w_link w' = w_link w) \/
     exists run tr, approvable pid rid name who w run tr /\ recorded s rid tr approved who w w' /\
       relayed (run_TargetID run) (verdict run name who approved) w r w')) w.
Proof.
  apply wp_and; [apply Approve_frame|].
  unfold Approve, get_run, get_task.
  apply wp_try, wp_bind, (wp_zoom w_runs), wp_First; [|by intros; left].
  intros run t1 Ht1 _ Hid%Z.eqb_eq Hrun. apply wp_ret. simpl.
  destruct (Z.eqb_spec (run_PipelineID run) pid) as [Hpid|]; simpl; [|by left].
  apply wp_try, wp_bind, (wp_zoom w_tasks), wp_First; [|by intros; left].
  intros tr t2 Ht2 _ Hnode Htr. apply wp_ret. simpl in Htr |- *.
  destruct (String.eqb_spec (task_Type tr) TaskTypeApproval) as [Hty|]; simpl; [|by left].
  destruct (String.eqb_spec (task_Phase tr) TaskRunSucceeded) as [|Hp1]; simpl; [by left|].
  destruct (String.eqb_spec (task_Phase tr) TaskRunFailed) as [|Hp2]; simpl; [by left|].
  unfold empty_string. destruct (String.eqb_spec who "") as [|Hwho]; simpl; [by left|].
  set (w2 := set_field w_tasks (fun _ => t2) (set_field w_runs (fun _ => t1) w)).
  apply wp_try. eapply wp_mono; [by apply wp_record_decision|].
  intros [[]|e] w3 [Hl Hrec]; [|left; split; [done|]; split; [exact Hrec|exact Hl]].
  eapply (wp_framed (R := keeps w_approvals)); [unfold relay; frame|apply wp_relay|].
  intros r w' [[E _] _] Hrel. right. exists run, tr. split; [by split|]. split.
  - unfold recorded in *. rewrite E. exact Hrec.
  - by eapply relayed_link.
Qed.

(** ** A decision the link refuses *)

#[local] Instance keeps_approvals_health_frame : Frame keeps_approvals_health.
Proof.
  split; [split|].
  - intros w H. exact H.
  - intros w1 w2 w3. unfold keeps_approvals_health. auto.
  - intros w w' [_ _ _ _ _ _ _ _ _ [_ E]]. exact E.
Qed.

#[local] Instance health_ignores_link : Ignores keeps_approvals_health w_link.
Proof. intros w l H. exact H. Qed.

Lemma Approve_health s pid rid name ok who :
  Preserves keeps_approvals_health (Approve s pid rid name ok who).
Proof.
  unfold Approve, get_run, get_task, record_decision, relay. frame.
  intros w. apply (wp_stmt w_approvals _ (fun _ w' => keeps_approvals_health w w')), wp_run.
  intros r t E. apply Save_spec in E as [Hh _]. exact Hh.
Qed.

(** The approval rows of a task. *)
Definition approval_of (rid : UUID) (tr : TaskRun) (pa : PipelineApproval) : Prop :=
  appr_RunID pa = rid /\ appr_TaskRunID pa = Some (task_ID tr).

Definition one_task (rid : UUID) (name : string) (w : World) : Prop :=
  forall tr tr', tr ∈ rows (w_tasks w) -> tr' ∈ rows (w_tasks w) ->
    TaskRunRepository.of_node rid name tr = true -> TaskRunRepository.of_node rid name tr' = true -> tr = tr'.

Definition one_approval (rid : UUID) (w : World) : Prop :=
  forall tr pa pa', pa ∈ rows (w_approvals w) -> pa' ∈ rows (w_approvals w) ->
    approval_of rid tr pa -> approval_of rid tr pa' -> pa = pa'.

(** Once the only approval row of the task is decided, nothing is relayed. *)
Lemma Approve_refused s pid rid name ok who tr pa w :
  approvalRepo s = true -> healthy (w_approvals w) ->
  (forall tr', tr' ∈ rows (w_tasks w) -> TaskRunRepository.of_node rid name tr' = true -> tr' = tr) ->
  pa ∈ rows (w_approvals w) -> approval_of rid tr pa ->
  (forall pa', pa' ∈ rows (w_approvals w) -> approval_of rid tr pa' -> appr_Status pa' <> "Pending") ->
  wp (Approve s pid rid name ok who) (fun r w' => is_ok r = false /\ w_link w' = w_link w) w.
Proof.
  intros Hrepo Hh Htask Hin [Hr Ht] Hdec. unfold Approve, get_run, get_task.
  apply wp_try, wp_bind, (wp_zoom w_runs), wp_First; [|done].
  intros run t1 _ _ _ _. apply wp_ret. destruct (negb (_ =? _)); [by apply wp_ret|].
  apply wp_try, wp_bind, (wp_zoom w_tasks), wp_First; [|done].
  intros tr' t2 _ _ Hnode Htr. apply wp_ret.
  assert (tr' = tr) as -> by (by apply Htask).
  repeat (destruct (negb (String.eqb _ _)) || destruct (String.eqb _ _ || _) || destruct (empty_string _));
    try by apply wp_ret.
  apply wp_try. unfold record_decision. rewrite Hrepo. simpl.
  apply wp_bind, (wp_zoom w_approvals), wp_First.
  - intros pa' t _ _ [Hr'%Z.eqb_eq Ht'%is_uuid_iff]%andb_true_iff Hin'.
    destruct (String.eqb_spec (appr_Status pa') "Pending") as [Hp|]; [|by apply wp_ret].
    exfalso. by eapply Hdec.
  - intros e t _ He Hs _. exfalso. apply (not_elem_of_nil pa). rewrite <- (Hs (He Hh)).
    apply elem_of_selected. split; [done|]. split; [|done].
    apply andb_true_iff. split; [by apply Z.eqb_eq|by apply is_uuid_iff].
Qed.

(** A decision for a run whose target is away is recorded but never
    relayed, and it is final: the caller gets an error, and once the pending
    row took the verdict every later attempt to decide that task, whoever
    makes it and whatever they decide, is refused without a message to the
    Runner, even after the target came back. *)
Theorem offline_decision_stuck s pid rid name ok who w :
  approvalRepo s = true -> healthy (w_approvals w) -> sound_rows (rows (w_approvals w)) ->
  one_task rid name w -> one_approval rid w ->
  (forall run, run ∈ rows (w_runs w) -> run_ID run = rid -> connected (run_TargetID run) (w_link w) = false) ->
  wp (Approve s pid rid name ok who) (fun r w' => is_ok r = false /\ w_link w' = w_link w /\
    (rows (w_approvals w') <> rows (w_approvals w) -> forall pid' ok' who' l,
       wp (Approve s pid' rid name ok' who') (fun r' w'' => is_ok r' = false /\ w_link w'' = l)
          (w' <| w_link := l |>))) w.
Proof.
  intros Hrepo Hh Hs Hone Hone' Hoff.
  eapply wp_framed; [apply Approve_health|by apply Approve_outcome|].
  intros r w' Hh' [Hf [(Hok & E & El)|(run & tr & Hap & Hrec & Hrel)]].
  { by split_and!. }
  destruct Hap as [(Hrun & Hid & _) [Htr Hnode] _ _ _].
  assert (Hsend : d_send (run_TargetID run) (verdict run name who ok) (w_link w) = (Some ErrNoRunner, w_link w))
    by (apply send_offline; by apply Hoff).
  unfold relayed in Hrel. rewrite Hsend in Hrel. destruct Hrel as (El & Hok & _).
  split; [done|]. split; [done|]. intros Hne pid' ok' who' l.
  destruct Hrec as [[E _]|(pa & Hin & Hr & Ht & Hp & Hw & E)]; [done|].
  destruct Hf as (_ & [[Etasks _] _] & _).
  apply (Approve_refused s pid' rid name ok' who' tr (decided pa ok who (w_now w))); simpl.
  - done.
  - by apply Hh'.
  - intros tr' Htr' Hn'. rewrite Etasks in Htr'. by apply Hone.
  - rewrite E. apply elem_of_save_rows. left. split; [done|]. apply list_elem_of_fmap. by exists pa.
  - by split.
  - intros pa' Hpa' Hof. rewrite E in Hpa'. apply elem_of_save_rows in Hpa' as [[-> _]|[Hpa' Hne']].
    + simpl. by destruct ok.
    + intros _. apply Hne'. simpl. f_equal. eapply Hone'; try done.
Qed.

(** * Status reports *)

(** C19: Whatever a Runner reports, it only reaches rows of its own target: the
    runs of other targets and their tasks stay exactly as they are, runs keep
    their identity and target, and the keys of both tables stay unique. *)
Theorem ApplyStatus_own_target_only s t payload w :
  collaborators_keep (within_target t) s ->
  sound_rows (rows (w_runs w)) -> sound_rows (rows (w_tasks w)) ->
  wp (ApplyStatus s t payload) (fun _ w' =>
    sound_rows (rows (w_runs w')) /\ sound_rows (rows (w_tasks w')) /\
    (forall run, run ∈ rows (w_runs w) -> run_kept t w' run) /\
    (forall tr, tr ∈ rows (w_tasks w) -> foreign_task t w tr -> tr ∈ rows (w_tasks w'))) w.
Proof. intros Hs Hr Ht. exact (within_ApplyStatus t s Hs payload w Hr Ht). Qed.

(** A report that is accepted is stored: the run it names on the reporting
    target gets the reported phase and message, keeps the times the report
    leaves out, and every task status of the report is on a task row of the
    run.  A report about a run the hub does not know changes nothing. *)
Theorem ApplyStatus_stores s t payload w :
  collaborators_keep runs_tasks s -> sound_rows (rows (w_tasks w)) ->
  NoDup (tss_Name <$> su_Tasks payload) ->
  wp (ApplyStatus s t payload) (fun r w' => r = Ok tt ->
    same w w' \/
    exists run, run ∈ rows (w_runs w) /\ run_CRName run = su_PipelineRunName payload /\
      run_TargetID run = t /\
      rows (w_runs w') = save_rows (w_now w) (merge_run_status run payload) (rows (w_runs w)) /\
      all_reported (run_ID run) (su_Tasks payload) w') w.
Proof.
  intros Hs Ht Hnd. unfold ApplyStatus. apply wp_bind, (wp_zoom w_runs), wp_First.
  2: { intros e tb Htb _ _ _. apply wp_ret. intros _. left. by apply field_same. }
  intros run tb [E _] _ [Hn%String.eqb_eq Htg%Z.eqb_eq]%andb_true_iff Hin.
  apply wp_try, wp_stmt, wp_Save_known; [|intros tb' _ E'|by intros].
  { simpl. rewrite E. apply list_elem_of_fmap. by exists run. }
  simpl in E'. rewrite E in E'. set (r := updated _ _).
  set (w1 := set_field w_runs (fun _ => tb') _).
  assert (Hhook : Preserves runs_tasks (if isTerminalPhase (run_Phase r)
       then call_opt (finishedHook s) (fun hook => hook (run_PipelineID r) (run_Phase r))
       else ret tt)).
  { unfold runs_tasks in *. destruct (isTerminalPhase _); [|apply pr_ret].
    apply pr_call_opt. intros f Ef. by apply (keep_hook _ s Hs f Ef). }
  apply wp_bind, (wp_preserves (R := runs_tasks)); [exact Hhook|].
  intros _ w2 [[[E2 _] _] [[E2' _] _]].
  apply wp_bind, (wp_preserves (R := runs_tasks)); [apply (report_hooks s Hs r)|].
  intros _ w3 [[[E3 _] _] [[E3' _] _]].
  eapply wp_mono; [apply (wp_tasks_loop s Hs r (su_Tasks payload) [])|].
  - rewrite E3', E2'. exact Ht.
  - exact Hnd.
  - intros ts Hts. by apply elem_of_nil in Hts.
  - intros res w4 [E4 H4] Hok. right. exists run. split_and!; try done.
    + rewrite E4, E3, E2. exact E'.
    + by apply H4.
Qed.

Lemma RecordLogChunk_frame t payload : Preserves decision_frame (RecordLogChunk t payload).
Proof. unfold RecordLogChunk, decision_frame. frame. Qed.

(** Log chunks only append: a chunk for a run of the reporting target adds
    one log row to that run, under its task or the run-level bucket; a chunk
    for an unknown run is dropped.  Nothing else changes. *)
Theorem RecordLogChunk_appends t payload w :
  wp (RecordLogChunk t payload) (fun _ w' =>
    decision_frame w w' /\
    (rows (w_logs w') = rows (w_logs w) \/
     exists run l, run ∈ rows (w_runs w) /\ run_TargetID run = t /\
       run_CRName run = lc_PipelineRunName payload /\
       rows (w_logs w') = rows (w_logs w) ++ [l] /\ log_PipelineRunID l = run_ID run /\
       log_TaskName l = default_str RunLevelLogBucket (lc_TaskName payload) /\
       log_Stream l = lc_Stream payload /\ log_Chunk l = lc_Chunk payload)) w.
Proof.
  apply wp_and; [apply RecordLogChunk_frame|].
  unfold RecordLogChunk. apply wp_bind, (wp_zoom w_runs), wp_First; [|by intros; apply wp_ret; left].
  intros run tb _ _ [Hn%String.eqb_eq Ht%Z.eqb_eq]%andb_true_iff Hin.
  apply wp_try, wp_stmt, wp_Create.
  - intros l tb' _ (id & _ & _ & _ & ->) E. apply wp_ret. right. exists run. eexists.
    split_and!; [done|done|done|exact E|..]; done.
  - intros e tb' [E _]. left. exact E.
Qed.

(** * Commands *)

(** Cancelling depends on the phase the run is stored with: a finished run
    is refused with a conflict and nothing changes; a run still queued in the
    hub becomes Cancelled there, without a message; a run that was handed over
    is left as it is and its Runner is told to cancel it.  The job held for a
    queued run stays held. *)
Theorem CancelRun_outcome run op w :
  healthy (w_runs w) -> sound_rows (rows (w_runs w)) -> run ∈ rows (w_runs w) ->
  wp (CancelRun (run_ID run) op) (fun r w' =>
    if String.eqb (run_Phase run) PipelineRunPendingQueue then
      r = Ok tt /\ w_link w' = w_link w /\
      rows (w_runs w') = save_rows (w_now w) (cancelled_queued run (w_now w)) (rows (w_runs w)) /\
      (run_ID run ∉ (job_ID <$> rows (w_jobs w)) -> rows (w_jobs w') = rows (w_jobs w))
    else if bool_decide (run_Phase run ∈ activeRunPhases) then
      rows (w_runs w') = rows (w_runs w) /\
      relayed (run_TargetID run)
        (MessageCancelPipelineRun (mkCancel (run_CRName run) (run_CRNamespace run) op)) w r w'
    else r = Err ErrRunTerminal /\ same w w') w.
Proof.
  intros Hh Hs Hin. unfold CancelRun, get_run. apply wp_try, wp_bind, wp_run_by_id; [done|done|done|].
  intros w1 H1. apply wp_ret.
  destruct (String.eqb (run_Phase run) PipelineRunPendingQueue) eqn:Eq.
  - pose proof H1 as [Hn _ _ _ _ [Er Hhr] _ [Ej _] _ _ _ _ El].
    apply wp_try, wp_stmt, (wp_Save_row _ _ run); simpl; rewrite ?Er; auto.
    intros tb _ E. apply wp_bind, wp_bind, wp_stmt, wp_Updates.
    + intros tj _ Ej'. apply wp_ret, wp_ret. rewrite Hn in E. split_and!; [done|done|exact E|].
      intros Hno. simpl. rewrite Ej'. simpl. rewrite Ej. apply update_rows_none.
      apply elem_of_nil_inv. intros j (_ & Hid%Z.eqb_eq & Hj)%elem_of_selected. apply Hno.
      rewrite <- Hid. apply list_elem_of_fmap. by exists j.
    + intros e tj [Ej' _] _. apply wp_ret, wp_ret. rewrite Hn in E. split_and!; [done|done|exact E|].
      intros _. simpl. by rewrite Ej'.
  - destruct (bool_decide (run_Phase run ∈ activeRunPhases)) eqn:Ea.
    + apply bool_decide_eq_true in Ea.
      assert (Hneg : negb (String.eqb (run_Phase run) PipelineRunPending ||
        String.eqb (run_Phase run) PipelineRunRunning ||
        String.eqb (run_Phase run) PipelineRunWaitingApproval) = false).
      { unfold activeRunPhases in Ea. set_unfold in Ea. by destruct Ea as [->|[->|[->|[]]]]. }
      rewrite Hneg. destruct H1 as [_ _ _ _ _ [Er _] _ _ _ _ _ _ El].
      eapply (wp_framed (R := keeps w_runs)); [unfold relay; frame|apply wp_relay|].
      intros r w2 [[E _] _] Hrel. split; [by rewrite E|]. by eapply relayed_link.
    + assert (Hneg : negb (String.eqb (run_Phase run) PipelineRunPending ||
        String.eqb (run_Phase run) PipelineRunRunning ||
        String.eqb (run_Phase run) PipelineRunWaitingApproval) = true).
      { apply bool_decide_eq_false in Ea. apply negb_true_iff, not_true_iff_false. intros Ho. apply Ea.
        unfold activeRunPhases. rewrite !orb_true_iff, !String.eqb_eq in Ho. set_unfold. tauto. }
      rewrite Hneg. by apply wp_ret.
Qed.

(** The new delivery of a redispatched run: the payload of the last job, one
    attempt, and the state the link's answer calls for. *)
Definition redelivered (rid : UUID) (last j : DispatchJob) (w w' : World) : Prop :=
  rows (w_jobs w') = rows (w_jobs w) ++ [j] /\ job_PipelineRunID j = rid /\
  job_TargetID j = job_TargetID last /\ job_Payload j = job_Payload last /\ job_Attempts j = 1 /\
  match UnmarshalE (A := ApplyPipelineRunPayload) (job_Payload last) with
  | Err _ => job_State j = DispatchJobDead /\ w_link w' = w_link w
  | Ok p =>
      let answer := d_send (job_TargetID last) (MessageApplyPipelineRun p) (w_link w) in
      w_link w' = answer.2 /\
      job_State j = match answer.1 with None => DispatchJobDispatched | Some _ => DispatchJobFailed end
  end.

Lemma in_flight_iff last :
  String.eqb (job_State last) DispatchJobDispatching || String.eqb (job_State last) DispatchJobDispatched = true
  <-> job_State last = DispatchJobDispatching \/ job_State last = DispatchJobDispatched.
Proof. by rewrite orb_true_iff, !String.eqb_eq. Qed.

(** The attempt on a job just inserted. *)
Lemma wp_first_attempt rid (last j0 : DispatchJob) l w :
  jobs_ok (l ++ [j0]) -> rows (w_jobs w) = l ++ [j0] -> healthy (w_jobs w) ->
  job_State j0 = DispatchJobPending -> job_Attempts j0 = 0 -> job_PipelineRunID j0 = rid ->
  job_TargetID j0 = job_TargetID last -> job_Payload j0 = job_Payload last ->
  wp (tryDeliver (job_ID j0)) (fun _ w' => healthy (w_jobs w') /\ exists j, job_ID j = job_ID j0 /\
    forall w0, rows (w_jobs w0) = l -> w_link w0 = w_link w -> redelivered rid last j w0 w') w.
Proof.
  intros Hok Hr Hh Hst Hat Hrid Htg Hpl.
  assert (Hin : j0 ∈ rows (w_jobs w)) by (rewrite Hr; set_solver).
  eapply wp_mono; [apply (tryDeliver_functional (job_ID j0) j0 w); [by rewrite Hr|done|done|done]|].
  intros r w' [[_ Hhh] Hout]. split; [by apply Hhh|].
  assert (Ha : awaiting j0 = true) by (apply awaiting_iff; by left). rewrite Ha in Hout.
  destruct Hout as (_ & Hl & Hb). exists (updated (w_now w) (job_after j0 w)).
  assert (Hnew : job_ID j0 ∉ (job_ID <$> l)).
  { destruct Hok as [Hnd _]. rewrite fmap_app in Hnd. apply NoDup_app in Hnd as (_ & Hd & _).
    intros Hx. by apply (Hd _ Hx), list_elem_of_singleton. }
  pose proof (job_becomes_snoc _ _ _ _ _ _ Hr eq_refl Hnew Hb) as Hrows.
  unfold redelivered, job_after, link_after, answer_of, after_failure in *. rewrite <- Hpl, <- Htg.
  destruct (UnmarshalE (job_Payload j0)) as [p|e]; simpl in *.
  2: { split; [done|]. intros w0 <- El. rewrite Hat. split_and!; try done. by rewrite El. }
  rewrite Hat in *. simpl in *.
  destruct (d_send (job_TargetID j0) (MessageApplyPipelineRun p) (w_link w)) as [[e|] l'] eqn:Es;
    simpl in *; (split; [done|]); intros w0 <- El; rewrite El, Es; simpl; rewrite ?Hat; by split_and!.
Qed.

(** A failed run goes back to Pending. *)
Definition restarted (run : PipelineRun) : PipelineRun :=
  run <| run_Phase := PipelineRunPending |> <| run_Message := "redispatch requested" |>.

Lemma wp_restart run w :
  healthy (w_runs w) -> sound_rows (rows (w_runs w)) -> run ∈ rows (w_runs w) ->
  wp (if String.eqb (run_Phase run) PipelineRunFailed
      then ignore (stmt w_runs (fun now => PipelineRunRepository.Update now (restarted run)))
      else ret tt) (fun _ w' => rows (w_jobs w') = rows (w_jobs w) /\
    (healthy (w_jobs w) -> healthy (w_jobs w')) /\ w_link w' = w_link w /\
    rows (w_runs w') = if String.eqb (run_Phase run) PipelineRunFailed
                       then save_rows (w_now w) (restarted run) (rows (w_runs w))
                       else rows (w_runs w)) w.
Proof.
  intros Hh Hs Hin. destruct (String.eqb (run_Phase run) PipelineRunFailed).
  - apply wp_bind, wp_stmt, (wp_Save_row _ _ run); [done..|]. intros t _ E. by apply wp_ret.
  - by apply wp_ret.
Qed.

(** An insert of a pending job keeps the queue well-formed. *)
Lemma inserted_ok now runID targetID payload j (l : list DispatchJob) :
  jobs_ok l -> inserted now l (new_job runID targetID payload DispatchJobPending) j -> jobs_ok (l ++ [j]).
Proof.
  intros [Hnd Hall] (id & _ & Hnew & _ & ->). split.
  - rewrite fmap_app. apply NoDup_app. split; [done|]. split; [|apply NoDup_singleton].
    by intros x Hx ->%list_elem_of_singleton.
  - apply Forall_app. split; [done|]. apply Forall_singleton. split; [done|]. left. by auto.
Qed.

(** Redelivering a run answers with the job in flight when the last one is
    being or has been delivered, changing nothing; otherwise it appends one
    job with the stored payload and target, attempts it at once whatever the
    run's phase, puts a failed run back to Pending, and reports the job as
    the attempt left it.  Older jobs are never rewritten. *)
Theorem Redispatch_outcome run w :
  healthy (w_runs w) -> sound_rows (rows (w_runs w)) -> run ∈ rows (w_runs w) ->
  healthy (w_jobs w) -> jobs_ok (rows (w_jobs w)) ->
  wp (Redispatch (run_ID run)) (fun r w' => forall j, r = Ok j -> exists last,
    last ∈ rows (w_jobs w) /\ job_PipelineRunID last = run_ID run /\
    if bool_decide (job_State last ∈ [DispatchJobDispatching; DispatchJobDispatched])
    then j = last /\ same w w'
    else redelivered (run_ID run) last j w w' /\
      rows (w_runs w') =
        if String.eqb (run_Phase run) PipelineRunFailed
        then save_rows (w_now w) (restarted run) (rows (w_runs w))
        else rows (w_runs w)) w.
Proof.
  intros Hh Hs Hin Hhj Hok. unfold Redispatch. apply wp_try, wp_run_by_id; [done|done|done|].
  intros w1 H1. apply wp_bind, (wp_zoom w_jobs), wp_First; [|by intros].
  intros last tj Htj _ Hrun%Z.eqb_eq Hlast.
  set (w2 := set_field w_jobs (fun _ => tj) w1).
  assert (H2 : same w w2) by (etransitivity; [exact H1|by apply field_same]).
  pose proof H2 as [Hn2 _ _ _ _ [Er Hhr2] _ [Ej Hhj2] _ _ _ _ El2].
  assert (Hl : last ∈ rows (w_jobs w)) by (destruct H1 as [_ _ _ _ _ _ _ [E _]]; by rewrite <- E).
  destruct (String.eqb (job_State last) DispatchJobDispatching ||
            String.eqb (job_State last) DispatchJobDispatched) eqn:Ef.
  { apply wp_ret. intros j [= <-]. exists last. split_and!; [done|done|].
    rewrite bool_decide_eq_true_2; [done|]. apply in_flight_iff in Ef. set_solver. }
  assert (Eb : bool_decide (job_State last ∈ [DispatchJobDispatching; DispatchJobDispatched]) = false).
  { apply bool_decide_eq_false_2. intros Hx. apply not_true_iff_false in Ef. apply Ef, in_flight_iff.
    set_unfold in Hx. tauto. }
  apply wp_try, wp_stmt, wp_Create; [|by intros].
  intros j0 t3 Hh3 Hins Er3. set (w3 := set_field w_jobs (fun _ => t3) w2).
  assert (Hj0 : job_State j0 = DispatchJobPending /\ job_Attempts j0 = 0 /\ job_PipelineRunID j0 = run_ID run /\
    job_TargetID j0 = job_TargetID last /\ job_Payload j0 = job_Payload last)
    by (by destruct Hins as (id & _ & _ & _ & ->)).
  destruct Hj0 as (Hst & Hat & Hrid & Htg & Hpl).
  assert (Hok3 : jobs_ok (rows (w_jobs w) ++ [j0])) by (rewrite Ej in Hins; by eapply inserted_ok).
  assert (E3 : rows (w_runs w3) = rows (w_runs w)) by exact Er.
  apply wp_bind. eapply wp_mono; [apply (wp_restart run w3); [exact (Hhr2 Hh)|by rewrite E3|by rewrite E3]|].
  intros _ w4 (Ej4 & Hh4 & El4 & Er4). rewrite E3 in Er4. change (w_now w3) with (w_now w2) in Er4.
  rewrite Hn2 in Er4. assert (Ejj : rows (w_jobs w4) = rows (w_jobs w) ++ [j0])
    by (rewrite Ej4; simpl; by rewrite Er3, Ej). specialize (Hh4 (Hh3 (Hhj2 Hhj))). simpl in El4.
  apply wp_bind, wp_bind.
  eapply (wp_framed (R := keeps w_runs)); [unfold tryDeliver; frame| |].
  { by apply (wp_first_attempt (run_ID run) last j0 (rows (w_jobs w))). }
  intros r5 w5 [[Er5 _] _] (Hh5 & j & Hjid & Hred). apply wp_ret.
  apply (wp_zoom w_jobs), wp_First; [|by intros]. intros j' t6 [E6 _] _ Hid%Z.eqb_eq Hj'.
  intros ? [= <-]. exists last. split_and!; [done|done|]. rewrite Eb.
  pose proof (Hred w eq_refl ltac:(by rewrite El4)) as Hr. destruct Hr as (Erows & Hrest).
  assert (j' = j) as ->.
  { rewrite Erows in Hj'. apply elem_of_app in Hj' as [Hj'|Hj'%list_elem_of_singleton]; [|done].
    exfalso. destruct Hok3 as [Hnd _]. rewrite fmap_app in Hnd. apply NoDup_app in Hnd as (_ & Hd & _).
    apply (Hd (job_ID j0)); [|by apply list_elem_of_singleton]. rewrite <- Hid.
    apply list_elem_of_fmap. by exists j'. }
  split; [|by simpl; rewrite Er5]. unfold redelivered in *. simpl. by rewrite E6.
Qed.
End Control.

(** * The concrete hub *)

Lemma demo_keeps R : Frame (G := ListGorm.gorm) (P := counter_platform) (D := hub_dispatcher) R ->
  collaborators_keep R demo_service.
Proof. intros F. split; simpl; try done. intros f [= <-] p. apply pr_ret. Qed.

Definition demo_approval (id run task : UUID) (status : string) : PipelineApproval :=
  mkPipelineApproval id 8 run (Some task) 7 10 status "ana" "" "" "" (900 * Second) None.

(** Run 50 waits for its gate, run 51 is queued, run 52 has finished. *)
Definition control_hub : World :=
  demo <| w_runs := table [demo_run 50 PipelineRunWaitingApproval; demo_run 51 PipelineRunPendingQueue;
                           demo_run 52 PipelineRunSucceeded] |>
       <| w_tasks := table [demo_task 60 50 "gate" "deploy" TaskTypeApproval TaskRunRunning] |>
       <| w_approvals := table [demo_approval 80 50 60 "Pending"; demo_approval 81 52 61 "Rejected"] |>
       <| w_jobs := table [demo_job 70 50 DispatchJobDispatched 1; demo_job 71 51 DispatchJobHeld 0] |>.

Lemma sound_by_compute {R} `{Model R} (l : list R) :
  bool_decide (NoDup (pk <$> l)) = true ->
  forallb (fun x => forallb (fun y => (pk x =? pk y) || negb (clash x y)) l) l = true -> sound_rows l.
Proof.
  intros Hnd%bool_decide_eq_true_1 Hc. split; [done|]. intros x y Hx%list_elem_of_In Hy%list_elem_of_In Hne.
  rewrite forallb_forall in Hc. specialize (Hc x Hx). rewrite forallb_forall in Hc.
  specialize (Hc y Hy). apply orb_true_iff in Hc as [Hc%Z.eqb_eq|Hc]; [done|].
  by apply negb_true_iff in Hc.
Qed.

Lemma control_sound :
  sound_rows (rows (w_runs control_hub)) /\ sound_rows (rows (w_tasks control_hub)) /\
  sound_rows (rows (w_approvals control_hub)).
Proof. split_and!; apply sound_by_compute; vm_compute; reflexivity. Qed.

Definition control_calls : list hub_call :=
  [CApprove 10 50 "gate" true "bob"; CSweepApprovalTimeouts (2000 * Second)].

Lemma approvals_decided_once_witness :
  demo_approval 81 52 61 "Rejected" ∈ rows (w_approvals (hub_calls demo_service control_calls control_hub)).
Proof.
  refine (approvals_decided_once demo_service control_calls (demo_approval 81 52 61 "Rejected") control_hub
    (demo_keeps _ _) (proj2 (proj2 control_sound)) _ _).
  - right. left.
  - discriminate.
Defined.

Lemma Approve_outcome_witness :
  (Approve demo_service 10 50 "gate" true "bob" control_hub).1 = Ok tt /\
  decision_frame control_hub (Approve demo_service 10 50 "gate" true "bob" control_hub).2.
Proof.
  split; [vm_compute; reflexivity|].
  exact (proj1 (Approve_outcome (D := hub_dispatcher) demo_service 10 50 "gate" true "bob" control_hub)).
Defined.

Definition control_away : World := relink [] control_hub.

Lemma offline_decision_stuck_witness :
  is_ok (Approve demo_service 10 50 "gate" true "bob" control_away).1 = false /\
  is_ok (Approve demo_service 10 50 "gate" true "eve"
    ((Approve demo_service 10 50 "gate" true "bob" control_away).2 <| w_link := (demo_hub [30] : Link) |>)).1 = false.
Proof.
  destruct (offline_decision_stuck (D := hub_dispatcher) demo_service 10 50 "gate" true "bob" control_away)
    as (H1 & _ & H2).
  - reflexivity.
  - constructor.
  - exact (proj2 (proj2 control_sound)).
  - intros x y Hx Hy. simpl in Hx, Hy. set_unfold in Hx. set_unfold in Hy.
    destruct Hx as [->|[]], Hy as [->|[]]. done.
  - intros tr x y Hx Hy [Rx Tx] [Ry Ty]. simpl in Hx, Hy. set_unfold in Hx. set_unfold in Hy.
    destruct Hx as [->|[->|[]]], Hy as [->|[->|[]]]; done.
  - intros run Hin Hid. simpl in Hin. set_unfold in Hin. by destruct Hin as [->|[->|[->|[]]]].
  - split; [exact H1|].
    refine (proj1 (H2 _ 10 true "eve" (demo_hub [30] : Link))). vm_compute. discriminate.
Defined.

Definition demo_report : StatusUpdatePayload :=
  mkStatusUpdate "edge" "pr-00000050" "sdp-run" PipelineRunRunning "deploying" None None
    [mkTaskStatus "gate" "tr-gate" TaskRunSucceeded 0 None None "ok" None].

(** Run 52 belongs to another target. *)
Definition lab_run : PipelineRun := (demo_run 52 PipelineRunRunning) <| run_TargetID := 31 |>.
Definition two_targets : World :=
  control_hub <| w_runs := table [demo_run 50 PipelineRunWaitingApproval; lab_run] |>.

Lemma ApplyStatus_own_target_only_witness :
  lab_run ∈ rows (w_runs (ApplyStatus demo_service 30 demo_report two_targets).2).
Proof.
  destruct (ApplyStatus_own_target_only (D := hub_dispatcher) demo_service 30 demo_report two_targets)
    as (_ & _ & H & _).
  - apply demo_keeps, _.
  - apply sound_by_compute; vm_compute; reflexivity.
  - exact (proj1 (proj2 control_sound)).
  - destruct (H lab_run) as (r & Hin & _ & _ & E); [right; left|].
    rewrite <- E; [exact Hin|discriminate].
Defined.

Lemma ApplyStatus_stores_witness :
  (ApplyStatus demo_service 30 demo_report control_hub).1 = Ok tt /\
  wp (ApplyStatus demo_service 30 demo_report) (fun r w' => r = Ok tt -> same control_hub w' \/
    exists run, run ∈ rows (w_runs control_hub) /\
      all_reported (run_ID run) (su_Tasks demo_report) w') control_hub.
Proof.
  split; [vm_compute; reflexivity|]. intros Hok.
  destruct (ApplyStatus_stores (D := hub_dispatcher) demo_service 30 demo_report control_hub
    (demo_keeps _ _) (proj1 (proj2 control_sound)) ltac:(by apply (bool_decide_eq_true_1 (NoDup _)); vm_compute)
    Hok) as [H|(run & Hin & _ & _ & _ & H)].
  - left. exact H.
  - right. exists run. split; [exact Hin|exact H].
Defined.

Lemma RecordLogChunk_appends_witness :
  length (rows (w_logs (RecordLogChunk 30 (mkLogChunk "edge" "pr-00000050" "" "stdout" "hi") control_hub).2)) = 1%nat /\
  decision_frame control_hub
    (RecordLogChunk 30 (mkLogChunk "edge" "pr-00000050" "" "stdout" "hi") control_hub).2.
Proof.
  split; [vm_compute; reflexivity|].
  exact (proj1 (RecordLogChunk_appends (D := hub_dispatcher) 30
    (mkLogChunk "edge" "pr-00000050" "" "stdout" "hi") control_hub)).
Defined.

(** Cancelling the queued run 51 leaves its job held. *)
Lemma CancelRun_outcome_witness :
  demo_job 71 51 DispatchJobHeld 0 ∈ rows (w_jobs (CancelRun 51 "ana" control_hub).2).
Proof.
  pose proof (CancelRun_outcome (D := hub_dispatcher) (demo_run 51 PipelineRunPendingQueue) "ana" control_hub)
    as H.
  destruct H as (_ & _ & _ & H).
  - constructor.
  - exact (proj1 control_sound).
  - right. left.
  - refine (eq_ind_r (fun l => demo_job 71 51 DispatchJobHeld 0 ∈ l) _ (H _)).
    + right. left.
    + apply (bool_decide_eq_true_1 (_ ∉ _)). vm_compute. reflexivity.
Defined.

(** Redelivering the queued run 51 sends it although it is still queued. *)
Lemma Redispatch_outcome_witness :
  is_ok (Redispatch 51 control_hub).1 = true /\
  length (applies (Redispatch 51 control_hub).2) = 1%nat /\
  wp (Redispatch 51) (fun r w' => forall j, r = Ok j -> exists last,
    last ∈ rows (w_jobs control_hub) /\ job_PipelineRunID last = 51) control_hub.
Proof.
  split; [vm_compute; reflexivity|]. split; [vm_compute; reflexivity|]. intros j Hj.
  destruct (Redispatch_outcome (D := hub_dispatcher) (demo_run 51 PipelineRunPendingQueue) control_hub)
    with (j := j) as (last & H1 & H2 & _).
  - constructor.
  - exact (proj1 control_sound).
  - right. left.
  - constructor.
  - split; [by apply (bool_decide_eq_true_1 (NoDup _)); vm_compute|].
    repeat (apply Forall_cons; split); [| |apply Forall_nil, I].
    + split; [by split; vm_compute|]. right. right. right. left. reflexivity.
    + split; [by split; vm_compute|]. left. split; [by right|reflexivity].
  - exact Hj.
  - exists last. split; [exact H1|exact H2].
Defined.
