(* ===== verification/CronExpr.v ===== *)
(** Five-field cron expressions ([internal/pipeline/cronexpr/cron.go]): the
    parser into bit sets and the search for the next fire time.

    A time carries its location in Go; here [Next] takes the location beside
    the instant.  The bit sets are indexed with values in range, except in the
    parser's range loop, whose counter can wrap around: [fill] can panic.  The
    search is given [next_fuel] rounds; a search still running then [Hangs]. *)
From Stdlib Require Import Ascii.
From stdpp Require Import base list strings.
From Stdlib Require Import ZArith Lia.
From S2P Require Import Prelude Common Json GoLib.

Open Scope Z_scope.

Definition minMinute : Z := 0.
Definition maxMinute : Z := 59.
Definition minHour : Z := 0.
Definition maxHour : Z := 23.
Definition minDom : Z := 1.
Definition maxDom : Z := 31.
Definition minMonth : Z := 1.
Definition maxMonth : Z := 12.
Definition minDow : Z := 0.
Definition maxDow : Z := 6.
Definition maxScanDays : Z := 8 * 366.

Record Expr := mkExpr {
  ex_raw : string;
  ex_minute : list bool; ex_hour : list bool; ex_dom : list bool; ex_month : list bool;
  ex_dow : list bool;
  ex_domStar : bool; ex_dowStar : bool }.

Definition bit (bits : list bool) (i : Z) : bool := default false (bits !! Z.to_nat i).

(** * Parsing *)

(** [for v := lo; v <= hi; v += step { bits[v] = true }] *)
Definition set_step (hi step : Z) (st : list bool * Z) : (list bool * Z) + Go (list bool) :=
  let '(bits, v) := st in
  if v <=? hi then
    if (v <? 0) || (Z.of_nat (length bits) <=? v) then inr (Panics "index out of range")
    else inl (<[Z.to_nat v := true]> bits, wrap64 (v + step))
  else inr (Returns bits).

Definition set_range (bits : list bool) (lo hi step : Z) : Go (list bool) :=
  run_loop (loop 128 (set_step hi step) (bits, lo)).

(** The base of a list item and its step. *)
Definition item_step (part : string) : Result (string * Z) :=
  match cut "/"%char part with
  | None => Ok (part, 1)
  | Some (base, stepStr) =>
      match Atoi stepStr with
      | Some n => if n <? 1 then Err (EFmt "步长 %q 须为正整数" [AStr stepStr]) else Ok (base, n)
      | None => Err (EFmt "步长 %q 须为正整数" [AStr stepStr])
      end
  end.

Definition item_range (base : string) (min max : Z) : Result (Z * Z) :=
  if String.eqb base "*" then Ok (min, max)
  else match cut "-"%char base with
       | Some (x, y) =>
           match Atoi x, Atoi y with
           | Some a, Some b => Ok (a, b)
           | _, _ => Err (EFmt "范围 %q 无效" [AStr base])
           end
       | None =>
           match Atoi base with
           | Some a => Ok (a, a)
           | None => Err (EFmt "值 %q 无效" [AStr base])
           end
       end.

(** One item of the list: its bounds and step, checked. *)
Definition item_of (part : string) (min max : Z) : Result (Z * Z * Z) :=
  if empty_string part then Err (EFmt "空列表项" [])
  else
    ok* bs := item_step part in
    ok* range := item_range bs.1 min max in
    let '(lo, hi) := range in
    if (lo <? min) || (max <? hi) || (hi <? lo)
    then Err (EFmt "范围 %d-%d 超出 [%d,%d]" [AInt lo; AInt hi; AInt min; AInt max])
    else Ok (lo, hi, bs.2).

Fixpoint fill_parts (bits : list bool) (parts : list string) (min max : Z) : Go (Result (list bool)) :=
  match parts with
  | [] => Returns (Ok bits)
  | part :: parts' =>
      match item_of part min max with
      | Err e => Returns (Err e)
      | Ok (lo, hi, step) => go_bind (set_range bits lo hi step) (fun bits => fill_parts bits parts' min max)
      end
  end.

Definition fill (bits : list bool) (field : string) (min max : Z) : Go (Result (bool * list bool)) :=
  let star := String.eqb field "*" in
  go_bind (fill_parts bits (Split ","%char field) min max) (fun r =>
    Returns (match r with Ok bits => Ok (star, bits) | Err e => Err e end)).

(** A field of the expression, its error wrapped by the caller's format. *)
Definition parse_field (format : string) (size : nat) (field : string) (min max : Z)
    (k : bool -> list bool -> Go (Result Expr)) : Go (Result Expr) :=
  go_bind (fill (replicate size false) field min max) (fun r =>
    match r with Ok (star, bits) => k star bits | Err e => Returns (Err (EWrap format [] e)) end).

Definition Parse (expr : string) : Go (Result Expr) :=
  match StringsFields (TrimSpace expr) with
  | [f0; f1; f2; f3; f4] =>
      parse_field "日 字段无效: %w" 32 f2 minDom maxDom (fun domStar dom =>
      parse_field "周 字段无效: %w" 7 f4 minDow maxDow (fun dowStar dow =>
      parse_field "分 字段无效: %w" 60 f0 minMinute maxMinute (fun _ minute =>
      parse_field "时 字段无效: %w" 24 f1 minHour maxHour (fun _ hour =>
      parse_field "月 字段无效: %w" 13 f3 minMonth maxMonth (fun _ month =>
      Returns (Ok (mkExpr expr minute hour dom month dow domStar dowStar)))))))
  | fields => Returns (Err (EFmt "cron 表达式须为 5 段（分 时 日 月 周），得到 %d 段"
                        [AInt (Z.of_nat (length fields))]))
  end.

Definition Expr_String (e : Expr) : string := ex_raw e.

(** * The next fire time *)

Definition dayMatches (e : Expr) (loc : Location) (t : Time) : bool :=
  let domOK := bit (ex_dom e) (Day loc t) in
  let dowOK := bit (ex_dow e) (Weekday loc t) in
  if ex_domStar e && ex_dowStar e then true
  else if ex_domStar e then dowOK
  else if ex_dowStar e then domOK
  else domOK || dowOK.

(** One round of the search. *)
Definition next_step (e : Expr) (loc : Location) (limit t : Time) : Time + Go (Result Time) :=
  if negb (t <? limit) then
    inr (Returns (Err (EFmt "cron 表达式 %q 在 %d 天内无匹配时刻" [AStr (ex_raw e); AInt maxScanDays])))
  else if negb (bit (ex_month e) (Month loc t)) then
    inl (AddDate loc (Date (Year loc t) (Month loc t) 1 0 0 0 0 loc) 0 1 0)
  else if negb (dayMatches e loc t) then
    inl (AddDate loc (Date (Year loc t) (Month loc t) (Day loc t) 0 0 0 0 loc) 0 0 1)
  else if negb (bit (ex_hour e) (HourOf loc t)) then inl (Truncate t Hour + Hour)
  else if negb (bit (ex_minute e) (MinuteOf loc t)) then inl (t + Minute)
  else inr (Returns (Ok t)).

Definition next_fuel : positive := 5000000.

Definition Next (e : Expr) (loc : Location) (after : Time) : Go (Result Time) :=
  let t := Truncate after Minute + Minute in
  let limit := AddDate loc t 0 0 maxScanDays in
  run_loop (loop next_fuel (next_step e loc limit) t).

(** The loop of [NextN] with [n] times still to find. *)
Fixpoint next_n (e : Expr) (loc : Location) (n : nat) (t : Time) (out : list Time)
  : Go (Result (list Time)) :=
  match n with
  | O => Returns (Ok out)
  | S n =>
      go_bind (Next e loc t) (fun r =>
        match r with
        | Err err => Returns (match out with [] => Err err | _ => Ok out end)
        | Ok next => next_n e loc n next (out ++ [next])
        end)
  end.

Definition NextN (e : Expr) (loc : Location) (after : Time) (n : nat) : Go (Result (list Time)) :=
  next_n e loc n after [].

Definition parsed (expr : string) : Expr :=
  match Parse expr with Returns (Ok e) => e | _ => mkExpr "" [] [] [] [] [] false false end.

(** 2024-01-31 10:45 UTC. *)
Definition jan31 : Time := (19753 * 86400 + 10 * 3600 + 45 * 60) * Second.

Example Next_ok :
  Next (parsed "*/15 9-17 * * 1-5") (fixed_zone 0) jan31 = Returns (Ok (jan31 + 15 * Minute)) /\
  Next (parsed "0 0 29 2 *") (fixed_zone 0) jan31 = Returns (Ok (19782 * 86400 * Second)) /\
  go_bind (Next (parsed "0 0 31 2 *") (fixed_zone 0) jan31) (fun r => Returns (is_ok r)) = Returns false.
Proof. vm_compute. repeat split. Qed.
