(* ===== verification/PipelineTriggers.v ===== *)
(** Scheduled and inbound triggers ([internal/pipeline/service/trigger.go],
    [models/trigger.go]): the configuration of a trigger, the cron scheduler's
    tick, webhook tokens and the evaluation of run-finished events.

    The run service is the [RunStarter] field.  An expression can make the
    parser panic and the search hang, so what evaluates one answers a [Go].
    The ticker that calls [tick] and the log lines are not modelled. *)
From Stdlib Require Import Ascii.
From stdpp Require Import base list strings gmap sorting.
From Stdlib Require Import ZArith Lia.
From S2P Require Import Prelude Common Gorm Json GoLib RunnerProto RunStore PipelineStore TargetStore.
From S2P Require Import EditStore World RunDispatch CronExpr.

Open Scope Z_scope.

(** * Specs *)

(** The anonymous struct of [cronExprOf]. *)
Record CronSpec := mkCronSpec { cs_Expr : string }.
#[global] Instance Codec_CronSpec : Codec CronSpec := {|
  zero := mkCronSpec "";
  enc := fun p => JObj (field _ "expr" (cs_Expr p));
  dec := dec_struct (mkCronSpec "") (fields_ret mkCronSpec <@> dec_field _ "expr");
  wf := fun _ => True;
|}.
#[global] Instance CodecLaws_CronSpec : CodecLaws CronSpec.
Proof. split; [|done]. intros [] _. struct_roundtrip. Qed.

Section Specs.
Context {G : Gorm} {P : Platform}.

Record EventSpec := mkEventSpec { es_OnPipelineID : UUID; es_Statuses : list string }.
Definition Codec_EventSpec : Codec EventSpec := {|
  zero := mkEventSpec uuid_Nil [];
  enc := fun p => JObj (concat [
    field Codec_UUID "onPipelineId" (es_OnPipelineID p);
    field_opt _ "statuses" empty_list (es_Statuses p)]);
  dec := dec_struct (mkEventSpec uuid_Nil [])
    (fields_ret mkEventSpec <@> dec_field Codec_UUID "onPipelineId" <@> dec_field _ "statuses");
  wf := fun p => @wf _ Codec_UUID (es_OnPipelineID p);
|}.
#[local] Existing Instance Codec_EventSpec.

(** The error of [json.Unmarshal] is dropped. *)
Definition DecodeEventSpec (raw : RawJSON) : EventSpec :=
  let spec := if raw_len0 raw then mkEventSpec uuid_Nil [] else (Unmarshal raw).1 in
  match es_Statuses spec with
  | [] => mkEventSpec (es_OnPipelineID spec) ["Succeeded"]
  | _ => spec
  end.

Definition EncodeEventSpec (spec : EventSpec) : RawJSON := Marshal spec.

Definition validTriggerType (t : string) : bool :=
  String.eqb t TriggerTypeCron || String.eqb t TriggerTypeWebhook || String.eqb t TriggerTypeEvent.

Definition cronExprOf (spec : RawJSON) : Go (Result Expr) :=
  let body := if raw_len0 spec then Ok (mkCronSpec "")
              else match UnmarshalE (A := CronSpec) spec with
                   | Ok b => Ok b
                   | Err e => Err (EWrap "spec 不是合法 JSON: %w" [] e)
                   end in
  match body with
  | Err e => Returns (Err e)
  | Ok b =>
      if empty_string (cs_Expr b) then Returns (Err (EFmt "cron 触发器须声明 spec.expr" []))
      else Parse (cs_Expr b)
  end.

Definition validate (t : string) (spec : RawJSON) : Go (Result unit) :=
  if String.eqb t TriggerTypeCron then
    go_bind (cronExprOf spec) (fun r => Returns (ok* _ := r in Ok tt))
  else if String.eqb t TriggerTypeWebhook then Returns (Ok tt)
  else if String.eqb t TriggerTypeEvent then
    Returns (
      if raw_len0 spec then Err (EFmt "event 触发器须声明 spec.onPipelineId" [])
      else match UnmarshalE (A := EventSpec) spec with
           | Err e => Err (EWrap "spec 不是合法 JSON: %w" [] e)
           | Ok es =>
               if es_OnPipelineID es =? uuid_Nil
               then Err (EFmt "event 触发器须声明 spec.onPipelineId" []) else Ok tt
           end)
  else Returns (Err (EFmt "未知触发器类型 %q" [AStr t])).
End Specs.

(** * Webhook tokens *)

Section Service.
Context {G : Gorm} {P : Platform} {D : Dispatcher}.

(** [crypto/rand] and [encoding/hex]. *)
Definition newWebhookToken : M World (Result string) :=
  let* b := rand_read in
  ret (match b with
       | Ok b => Ok ("wh_" +:+ hex_encode b)
       | Err e => Err (EWrap "生成 webhook token 失败: %w" [] e)
       end).

Record TriggerService := mkTriggerService {
  starter : option (UUID -> TriggerRequest -> M World (Result (list PipelineRun)));
}.

(** * Evaluations in a handler *)

(** Carry on with what an evaluation returns; a panic or a hang is the answer. *)
Definition go_try {A B} (r : Go (Result A)) (k : A -> M World (Go (Result B))) : M World (Go (Result B)) :=
  match r with
  | Returns (Ok a) => k a
  | Returns (Err e) => ret (Returns (Err e))
  | Panics m => ret (Panics m)
  | Hangs => ret Hangs
  end.

Definition returns {A} (m : M World A) : M World (Go A) := let* a := m in ret (Returns a).

End Service.

(** * The service *)

Module Triggers.
Section Service.
Context {G : Gorm} {P : Platform} {D : Dispatcher} (s : TriggerService).

Definition Create (pipelineID : UUID) (trig : PipelineTrigger) (createdBy : string)
  : M World (Go (Result PipelineTrigger)) :=
  if empty_string (trig_Name trig) then ret (Returns (Err (EFmt "触发器名称不能为空" [])))
  else if negb (validTriggerType (trig_Type trig)) then
    ret (Returns (Err (EFmt "触发器类型须为 cron / webhook / event" [])))
  else
    go_try (validate (trig_Type trig) (trig_Spec trig)) (fun _ => returns (
      let trig := trig <| trig_PipelineID := pipelineID |> <| trig_CreatedBy := createdBy |> in
      try* trig :=
        (if String.eqb (trig_Type trig) TriggerTypeWebhook then
           try* token := newWebhookToken in ret (Ok (trig <| trig_Token := token |>))
         else ret (Ok trig)) in
      stmt w_triggers (fun now => TriggerRepository.Create now trig))).

Definition Get (id : UUID) : M World (Result PipelineTrigger) :=
  zoom w_triggers (TriggerRepository.GetByID id).

Definition List (pipelineID : UUID) (p : Pagination) : M World (Result (list PipelineTrigger * Z)) :=
  zoom w_triggers (TriggerRepository.FindByPipeline pipelineID p).

(** The spec is replaced when the patch carries one, the switch always. *)
Definition Update (id : UUID) (patch : PipelineTrigger) : M World (Go (Result PipelineTrigger)) :=
  let* r := zoom w_triggers (TriggerRepository.GetByID id) in
  match r with
  | Err e => ret (Returns (Err e))
  | Ok existing =>
      let existing := if empty_string (trig_Name patch) then existing
                      else existing <| trig_Name := trig_Name patch |> in
      let save existing := returns (stmt w_triggers (fun now =>
        TriggerRepository.Update now (existing <| trig_Enabled := trig_Enabled patch |>))) in
      if raw_len0 (trig_Spec patch) then save existing
      else go_try (validate (trig_Type existing) (trig_Spec patch)) (fun _ =>
             save (existing <| trig_Spec := trig_Spec patch |>))
  end.

Definition Delete (id : UUID) : M World (Result Z) :=
  stmt w_triggers (fun now => TriggerRepository.Delete now id).

Definition Rotate (id : UUID) : M World (Result string) :=
  try* existing := zoom w_triggers (TriggerRepository.GetByID id) in
  if negb (String.eqb (trig_Type existing) TriggerTypeWebhook) then
    ret (Err (EFmt "仅 webhook 触发器可轮换签名" []))
  else
    try* token := newWebhookToken in
    try* _ := stmt w_triggers (fun now => TriggerRepository.Update now (existing <| trig_Token := token |>)) in
    ret (Ok token).

(** The token comparison takes the same time wherever the texts differ. *)
Definition AuthorizeWebhook (id : UUID) (presented : string) : M World (option PipelineTrigger) :=
  let* r := zoom w_triggers (TriggerRepository.GetByID id) in
  match r with
  | Err _ => ret None
  | Ok trig =>
      if negb (String.eqb (trig_Type trig) TriggerTypeWebhook) || empty_string (trig_Token trig) ||
         empty_string presented then ret None
      else if String.eqb presented (trig_Token trig) then ret (Some trig) else ret None
  end.

Definition PreviewCron (expr : string) (n : Z) : M World (Go (Result (list Time))) :=
  let* now := time_Now in
  go_try (Parse expr) (fun parsed =>
    let n := if (n <=? 0) || (10 <? n) then 5 else n in
    ret (NextN parsed Local now (Z.to_nat n))).

(** * Firing *)

Definition fire (trig : PipelineTrigger) (source : string) : M World (option GoError) :=
  match starter s with
  | None => ret (Some (EFmt "trigger: RunStarter 未装配" []))
  | Some start =>
      let req := mkTriggerRequest None [] "" "" "" "" [] "" 0 (source +:+ ":" +:+ trig_Name trig) source in
      let* r := start (trig_PipelineID trig) req in
      ret (match r with Ok _ => None | Err e => Some e end)
  end.

(** Fire and, when that worked, stamp the trigger with [at_]. *)
Definition fire_and_stamp (trig : PipelineTrigger) (source : string) (at_ : Time) : M World unit :=
  let* failed := fire trig source in
  match failed with
  | Some _ => ret tt
  | None =>
      ignore (stmt w_triggers (fun now => TriggerRepository.UpdateLastTriggered now (trig_ID trig) at_))
  end.

(** The last firing, or the creation, the next one is counted from. *)
Definition fire_base (trig : PipelineTrigger) : Time :=
  match trig_LastTriggeredAt trig with Some t => t | None => trig_CreatedAt trig end.

(** Whether a claimed trigger is to fire now; a bad spec and an expression
    without a next time are passed over. *)
Definition cron_due (trig : PipelineTrigger) (now : Time) : Go bool :=
  go_bind (cronExprOf (trig_Spec trig)) (fun r =>
    match r with
    | Err _ => Returns false
    | Ok expr =>
        go_bind (Next expr Local (fire_base trig)) (fun next =>
          Returns (match next with Ok next => negb (now <? next) | Err _ => false end))
    end).

(** The loop of [tick] over the claimed rows. *)
Fixpoint tick_rows (now : Time) (trigs : list PipelineTrigger) : M World (Go unit) :=
  match trigs with
  | [] => ret (Returns tt)
  | trig :: trigs' =>
      match cron_due trig now with
      | Panics m => ret (Panics m)
      | Hangs => ret Hangs
      | Returns false => tick_rows now trigs'
      | Returns true => fire_and_stamp trig "cron" now ;;; tick_rows now trigs'
      end
  end.

Definition tick : M World (Go unit) :=
  let* r := zoom w_triggers TriggerRepository.ClaimDueCron in
  match r with
  | Err _ => ret (Returns tt)
  | Ok trigs => let* now := time_Now in tick_rows now trigs
  end.

Definition InvokeWebhook (trig : PipelineTrigger) : M World (option GoError) :=
  let* failed := fire trig "webhook" in
  match failed with
  | Some e => ret (Some e)
  | None =>
      let* at_ := time_Now in
      stmt w_triggers (fun now => TriggerRepository.UpdateLastTriggered now (trig_ID trig) at_)
  end.

(** Whether an event trigger watches this pipeline and phase. *)
Definition watches (pipelineID : UUID) (phase : string) (trig : PipelineTrigger) : bool :=
  let spec := DecodeEventSpec (trig_Spec trig) in
  (es_OnPipelineID spec =? pipelineID) && bool_decide (phase ∈ es_Statuses spec).

Definition EvaluateRunFinished (finishedPipelineID : UUID) (phase : string) : M World unit :=
  let* r := zoom w_triggers (TriggerRepository.FindEnabledByType TriggerTypeEvent) in
  match r with
  | Err _ => ret tt
  | Ok trigs =>
      for_each trigs (fun trig =>
        if watches finishedPipelineID phase trig
        then let* now := time_Now in fire_and_stamp trig "event" now
        else ret tt)
  end.
End Service.
End Triggers.
