(* ===== verification/AgentOps.v ===== *)
(** Agent operations ([internal/target/service/agent_op.go]): the hub records
    what a Runner's agent is to do, hands it over when the Runner is connected,
    and follows it to an end; [op_stream.go]: the fan-out of its events.

    The two collaborators of [AgentOpService] are computations that [main] may
    or may not have wired: the dispatcher, and the publication of an event. *)
From stdpp Require Import base list strings gmap.
From Stdlib Require Import ZArith Lia Ascii.
From S2P Require Import Prelude Common Gorm Json RunnerProto RunStore PipelineStore TargetStore.
From S2P Require Import GoLib EditStore World RunDispatch.

Open Scope Z_scope.

(** * Events and their subscribers *)

Definition OpEventStatus : string := "status".
Definition OpEventLog : string := "log".

Record OpEvent := mkOpEvent {
  ev_Kind : string; ev_Status : option AgentOp; ev_Log : option AgentOpLog }.

(** The process-local fan-out: per op, the buffered channels of its
    subscribers, oldest event first.  A channel is named by the subscriber. *)
Module OpStream.
Definition Chan : Type := Z.
Definition capacity : nat := 64.

Definition State : Type := gmap UUID (gmap Chan (list OpEvent)).

(** A channel made by [make] is new: its name is not in use for this op. *)
Definition Subscribe (opID : UUID) (ch : Chan) (s : State) : State :=
  <[opID := <[ch := []]> (default ∅ (s !! opID))]> s.

Definition cancel (opID : UUID) (ch : Chan) (s : State) : State :=
  match s !! opID with
  | None => s
  | Some set =>
      let set := delete ch set in
      if decide (set = ∅) then delete opID s else <[opID := set]> s
  end.

(** A full buffer loses the event. *)
Definition offer (ev : OpEvent) (buffer : list OpEvent) : list OpEvent :=
  if bool_decide (length buffer < capacity)%nat then buffer ++ [ev] else buffer.

Definition Publish (opID : UUID) (ev : OpEvent) (s : State) : State :=
  match s !! opID with
  | None => s
  | Some set => <[opID := offer ev <$> set]> s
  end.

(** What a subscriber takes next. *)
Definition receive (opID : UUID) (ch : Chan) (s : State) : option OpEvent * State :=
  match s !! opID with
  | Some set =>
      match set !! ch with
      | Some (ev :: buffer) => (Some ev, <[opID := <[ch := buffer]> set]> s)
      | _ => (None, s)
      end
  | None => (None, s)
  end.
End OpStream.

(** * The service *)

Definition errAgentOpTransition : APIError :=
  NewAPIError KindTarget StatusConflict 91 "Agent Op State Conflict".
Definition errAgentOpNotPending : APIError :=
  NewAPIError KindTarget StatusConflict 92 "Agent Op Not Pending Approval".

Section Record.
Context {G : Gorm} {P : Platform} {D : Dispatcher}.

Record AgentOpService := mkAgentOpService {
  op_dispatcher : option (AgentOp -> M World (option GoError));
  op_stream : option (UUID -> OpEvent -> M World unit);
}.
End Record.

Module AgentOps.
Section Service.
Context {G : Gorm} {P : Platform} {D : Dispatcher} (s : AgentOpService).

Definition bad_request (e : GoError) : GoError := EApi (WithError ErrBadRequest (Some e)).

Definition tryDispatch (op : AgentOp) : M World unit :=
  match op_dispatcher s with
  | None => ret tt
  | Some dispatch =>
      if negb (String.eqb (op_Status op) AgentOpQueued) then ret tt
      else if negb (String.eqb (op_OpType op) AgentOpExec) && negb (String.eqb (op_OpType op) AgentOpUpgrade)
      then ret tt
      else ignore (dispatch op)
  end.

(** The row is handed back: [Create] fills in the caller's struct. *)
Definition Create (op : AgentOp) : M World (Result AgentOp) :=
  if negb (IsValidAgentOpType (op_OpType op)) then
    ret (Err (bad_request (EFmt "unknown agent op type %q" [AStr (op_OpType op)])))
  else if op_TargetID op =? uuid_Nil then ret (Err (bad_request (EFmt "agent op requires a target" [])))
  else
    let op := op <| op_Status := if String.eqb (op_OpType op) AgentOpUpgrade
                                 then AgentOpPendingApproval else AgentOpQueued |> in
    try* op := stmt w_agent_ops (fun now => AgentOpRepository.Create now op) in
    tryDispatch op ;;;
    ret (Ok op).

Definition not_pending (opID : UUID) (op : AgentOp) : GoError :=
  EApi (WithError errAgentOpNotPending
    (Some (EFmt "op %s 状态为 %s，非待审批" [AStr (uuid_String opID); AStr (op_Status op)]))).

Definition UpdateStatus (id : UUID) (from to message : string) : M World (option GoError) :=
  stmt w_agent_ops (fun now => AgentOpRepository.UpdateStatus now id from to message).

Definition ApproveUpgrade (opID : UUID) (approver : string) : M World (option GoError) :=
  let* r := zoom w_agent_ops (AgentOpRepository.GetByID opID) in
  match r with
  | Err e => ret (Some e)
  | Ok op =>
      if negb (String.eqb (op_Status op) AgentOpPendingApproval) then ret (Some (not_pending opID op))
      else
        let msg := if empty_string approver then "approved" else "approved by " +:+ approver in
        let* err := UpdateStatus (op_ID op) AgentOpPendingApproval AgentOpQueued msg in
        match err with
        | Some e => ret (Some e)
        | None => tryDispatch (op <| op_Status := AgentOpQueued |>) ;;; ret None
        end
  end.

Definition RejectUpgrade (opID : UUID) (reason rejector : string) : M World (option GoError) :=
  let* r := zoom w_agent_ops (AgentOpRepository.GetByID opID) in
  match r with
  | Err e => ret (Some e)
  | Ok op =>
      if negb (String.eqb (op_Status op) AgentOpPendingApproval) then ret (Some (not_pending opID op))
      else
        let msg := if empty_string rejector then "rejected" else "rejected by " +:+ rejector in
        let msg := if empty_string reason then msg else msg +:+ ": " +:+ reason in
        UpdateStatus (op_ID op) AgentOpPendingApproval AgentOpFailed msg
  end.

Definition SweepApprovalTimeouts (maxAge : Duration) : M World (Result unit) :=
  try* ops := zoom w_agent_ops (AgentOpRepository.ListByStatus AgentOpPendingApproval) in
  for_each ops (fun op =>
    let* now := time_Now in
    if now - op_CreatedAt op <=? maxAge then ret tt
    else ignore (UpdateStatus (op_ID op) AgentOpPendingApproval AgentOpFailed
                   ("approval timeout after " +:+ Duration_String maxAge))) ;;;
  ret (Ok tt).

Definition publishOp (op : AgentOp) : M World unit :=
  match op_stream s with
  | None => ret tt
  | Some publish => publish (op_ID op) (mkOpEvent OpEventStatus (Some op) None)
  end.

Definition ApplyStatus (opID : UUID) (to message : string) : M World (Result AgentOp) :=
  if negb (IsValidAgentOpStatus to) then
    ret (Err (bad_request (EFmt "unknown agent op status %q" [AStr to])))
  else
    try* op := zoom w_agent_ops (AgentOpRepository.GetByID opID) in
    if negb (IsValidAgentOpTransition (op_Status op) to) then
      ret (Err (EApi (WithError errAgentOpTransition
        (Some (EFmt "cannot transition op %s from %s to %s"
          [AStr (uuid_String opID); AStr (op_Status op); AStr to])))))
    else
      let* err := UpdateStatus (op_ID op) (op_Status op) to message in
      match err with
      | Some e => ret (Err e)
      | None =>
          let op := op <| op_Status := to |> <| op_Message := message |> in
          publishOp op ;;;
          ret (Ok op)
      end.

Definition ReconcileInstall (targetID : UUID) : M World (Result unit) :=
  try* ops := zoom w_agent_ops
    (AgentOpRepository.ListByTargetStatusType targetID AgentOpQueued AgentOpInstall) in
  for_each_err ops (fun op =>
    try* _ := ApplyStatus (op_ID op) AgentOpSucceeded "installed via enrollment (runner first connection)" in
    ret (Ok tt)).

Definition SweepUpgradeTimeouts (maxAge : Duration) : M World (Result unit) :=
  try* targets := zoom w_agent_ops AgentOpRepository.ListTargetsWithRunningUpgrades in
  for_each_err targets (fun targetID =>
    try* ops := zoom w_agent_ops
      (AgentOpRepository.ListByTargetStatusType targetID AgentOpRunning AgentOpUpgrade) in
    for_each ops (fun op =>
      let* now := time_Now in
      if now - op_UpdatedAt op <=? maxAge then ret tt
      else ignore (ApplyStatus (op_ID op) AgentOpFailed
                     ("upgrade timeout: runner did not reconnect within " +:+ Duration_String maxAge))) ;;;
    ret (Ok tt)).

Definition AppendLog (opID : UUID) (stream chunk : string) : M World (Result AgentOpLog) :=
  try* _ := zoom w_agent_ops (AgentOpRepository.GetByID opID) in
  try* row := stmt w_agent_op_logs (fun now => AgentOpRepository.AppendLog now opID stream chunk) in
  call_opt (op_stream s) (fun publish => publish opID (mkOpEvent OpEventLog None (Some row))) ;;;
  ret (Ok row).

Definition Logs (opID : UUID) : M World (Result (list AgentOpLog)) :=
  try* _ := zoom w_agent_ops (AgentOpRepository.GetByID opID) in
  zoom w_agent_op_logs (AgentOpRepository.ListLogs opID).

Definition ReconcileUpgrade (targetID : UUID) (reportedVersion : string) : M World (Result unit) :=
  try* ops := zoom w_agent_ops
    (AgentOpRepository.ListByTargetStatusType targetID AgentOpRunning AgentOpUpgrade) in
  for_each_err ops (fun op =>
    if negb (String.eqb (op_Detail op) reportedVersion) then ret (Ok tt)
    else
      try* _ := ApplyStatus (op_ID op) AgentOpSucceeded
        ("upgraded to " +:+ reportedVersion +:+ " (reconciled via agent_info)") in
      ret (Ok tt)).

Definition DrainTarget (targetID : UUID) : M World (Result unit) :=
  try* ops := zoom w_agent_ops (AgentOpRepository.ListQueuedByTarget targetID) in
  for_each ops tryDispatch ;;;
  ret (Ok tt).

Definition Get (id : UUID) : M World (Result AgentOp) := zoom w_agent_ops (AgentOpRepository.GetByID id).
Definition ListByStatus (status : string) : M World (Result (list AgentOp)) :=
  zoom w_agent_ops (AgentOpRepository.ListByStatus status).
Definition ListByTarget (targetID : UUID) (p : Pagination) : M World (Result (list AgentOp * Z)) :=
  zoom w_agent_ops (AgentOpRepository.ListByTarget targetID p).
End Service.
End AgentOps.
