(* ===== verification/PipelineVersions.v ===== *)
(** The history of a pipeline definition ([internal/pipeline/models/version.go],
    [internal/pipeline/service/version.go]): snapshots, their comparison,
    publishing and rolling back.

    A JSON column keeps its document; the text in which the database hands it
    back and the text [json.Marshal] writes are the two functions of
    [JSONText], since publishing compares them. *)
From stdpp Require Import base list strings gmap sorting.
From Stdlib Require Import ZArith Lia Ascii.
From S2P Require Import Prelude Common Gorm Json RunnerProto RunStore PipelineStore TargetStore.
From S2P Require Import EditStore World.

Open Scope Z_scope.

Class JSONText : Type := {
  marshal_text : json -> string;
  column_text : json -> string;
}.

(** * Raw documents as struct fields *)

(** [json.RawMessage] with [omitempty]: dropped when empty; any value, [null]
    too, is read back as it is. *)
Definition raw_field (name : string) (r : RawJSON) : list (string * json) :=
  match r with RawDoc v => [(name, v)] | _ => [] end.

Definition get_raw (name : string) (kvs : list (string * json)) : option json :=
  foldl (fun acc kv => if key_match name kv.1 then Some kv.2 else acc) None kvs.

Definition dec_raw_field (name : string) : Fields RawJSON := fun kvs =>
  (match get_raw name kvs with Some v => RawDoc v | None => RawEmpty end, true).

(** [json.Marshal] fails on a raw message that is not a document. *)
Definition raw_bad (r : RawJSON) : bool := match r with RawBad _ => true | _ => false end.

(** * Snapshots *)

Record SnapshotTask := mkSnapshotTask {
  sk_Name : string; sk_Type : PipelineTaskType; sk_DisplayOrder : Z; sk_Image : string;
  sk_ScriptPath : string; sk_ScriptArgs : RawJSON; sk_Command : RawJSON; sk_Args : RawJSON;
  sk_Produces : RawJSON; sk_Consumes : RawJSON; sk_ReleaseConfig : RawJSON;
  sk_RolloutConfig : RawJSON; sk_ApprovalConfig : RawJSON; sk_RetryPolicy : RawJSON;
  sk_TimeoutSeconds : Z }.

Record SnapshotStage := mkSnapshotStage {
  ss_Name : string; ss_Sequence : Z; ss_ExecutionMode : string; ss_Tasks : list SnapshotTask }.

Record Snapshot := mkSnapshot {
  sn_PipelineID : UUID; sn_Name : string; sn_Kind : string; sn_Description : string;
  sn_Params : RawJSON; sn_Stages : list SnapshotStage }.

#[global] Instance Codec_SnapshotTask : Codec SnapshotTask := {|
  zero := mkSnapshotTask "" "" 0 "" "" RawEmpty RawEmpty RawEmpty RawEmpty RawEmpty RawEmpty RawEmpty
            RawEmpty RawEmpty 0;
  enc := fun p => JObj (concat [
    field _ "name" (sk_Name p); field _ "type" (sk_Type p); field int64 "displayOrder" (sk_DisplayOrder p);
    field_opt _ "image" empty_string (sk_Image p);
    field_opt _ "scriptPath" empty_string (sk_ScriptPath p);
    raw_field "scriptArgs" (sk_ScriptArgs p); raw_field "command" (sk_Command p);
    raw_field "args" (sk_Args p); raw_field "produces" (sk_Produces p);
    raw_field "consumes" (sk_Consumes p); raw_field "releaseConfig" (sk_ReleaseConfig p);
    raw_field "rolloutConfig" (sk_RolloutConfig p); raw_field "approvalConfig" (sk_ApprovalConfig p);
    raw_field "retryPolicy" (sk_RetryPolicy p); field int64 "timeoutSeconds" (sk_TimeoutSeconds p)]);
  dec := dec_struct (mkSnapshotTask "" "" 0 "" "" RawEmpty RawEmpty RawEmpty RawEmpty RawEmpty RawEmpty
                       RawEmpty RawEmpty RawEmpty 0)
    (fields_ret mkSnapshotTask <@> dec_field _ "name" <@> dec_field _ "type" <@>
      dec_field int64 "displayOrder" <@> dec_field _ "image" <@> dec_field _ "scriptPath" <@>
      dec_raw_field "scriptArgs" <@> dec_raw_field "command" <@> dec_raw_field "args" <@>
      dec_raw_field "produces" <@> dec_raw_field "consumes" <@> dec_raw_field "releaseConfig" <@>
      dec_raw_field "rolloutConfig" <@> dec_raw_field "approvalConfig" <@> dec_raw_field "retryPolicy" <@>
      dec_field int64 "timeoutSeconds");
  wf := fun p => in_range 64 (sk_DisplayOrder p) = true /\ in_range 64 (sk_TimeoutSeconds p) = true /\
    forallb (fun r => negb (raw_bad r)) [sk_ScriptArgs p; sk_Command p; sk_Args p; sk_Produces p; sk_Consumes p;
      sk_ReleaseConfig p; sk_RolloutConfig p; sk_ApprovalConfig p; sk_RetryPolicy p] = true;
|}.

#[global] Instance Codec_SnapshotStage : Codec SnapshotStage := {|
  zero := mkSnapshotStage "" 0 "" [];
  enc := fun p => JObj (concat [
    field _ "name" (ss_Name p); field int64 "sequence" (ss_Sequence p);
    field _ "executionMode" (ss_ExecutionMode p); field _ "tasks" (ss_Tasks p)]);
  dec := dec_struct (mkSnapshotStage "" 0 "" [])
    (fields_ret mkSnapshotStage <@> dec_field _ "name" <@> dec_field int64 "sequence" <@>
      dec_field _ "executionMode" <@> dec_field _ "tasks");
  wf := fun p => in_range 64 (ss_Sequence p) = true /\ wf (ss_Tasks p);
|}.

Section Snapshot.
Context {P : Platform}.

#[global] Instance Codec_Snapshot : Codec Snapshot := {|
  zero := mkSnapshot uuid_Nil "" "" "" RawEmpty [];
  enc := fun p => JObj (concat [
    field Codec_UUID "pipelineId" (sn_PipelineID p); field _ "name" (sn_Name p);
    field _ "kind" (sn_Kind p); field_opt _ "description" empty_string (sn_Description p);
    raw_field "params" (sn_Params p); field _ "stages" (sn_Stages p)]);
  dec := dec_struct (mkSnapshot uuid_Nil "" "" "" RawEmpty [])
    (fields_ret mkSnapshot <@> dec_field Codec_UUID "pipelineId" <@> dec_field _ "name" <@>
      dec_field _ "kind" <@> dec_field _ "description" <@> dec_raw_field "params" <@>
      dec_field _ "stages");
  wf := fun p => @wf _ Codec_UUID (sn_PipelineID p) /\ raw_bad (sn_Params p) = false /\ wf (sn_Stages p);
|}.

Definition task_raws (t : SnapshotTask) : list RawJSON :=
  [sk_ScriptArgs t; sk_Command t; sk_Args t; sk_Produces t; sk_Consumes t; sk_ReleaseConfig t;
   sk_RolloutConfig t; sk_ApprovalConfig t; sk_RetryPolicy t].
Definition snapshot_raws (s : Snapshot) : list RawJSON :=
  sn_Params s :: (sn_Stages s ≫= fun st => ss_Tasks st ≫= task_raws).

(** [json.Marshal(snap)] *)
Definition MarshalSnapshot (s : Snapshot) : Result json :=
  if existsb raw_bad (snapshot_raws s) then Err (ELib "json: error calling MarshalJSON for type json.RawMessage")
  else Ok (enc s).

(** [rawOrEmpty] keeps the column's bytes and makes an empty one nil; both are
    the same empty message here. *)
Definition rawOrEmpty (v : RawJSON) : RawJSON := v.

Definition snapshot_task (t : PipelineTaskTemplate) : SnapshotTask :=
  mkSnapshotTask (tpl_Name t) (tpl_Type t) (tpl_DisplayOrder t) (tpl_Image t) (tpl_ScriptPath t)
    (rawOrEmpty (tpl_ScriptArgs t)) (rawOrEmpty (tpl_Command t)) (rawOrEmpty (tpl_Args t))
    (rawOrEmpty (tpl_Produces t)) (rawOrEmpty (tpl_Consumes t)) (rawOrEmpty (tpl_ReleaseConfig t))
    (rawOrEmpty (tpl_RolloutConfig t)) (rawOrEmpty (tpl_ApprovalConfig t)) (rawOrEmpty (tpl_RetryPolicy t))
    (tpl_TimeoutSeconds t).

Definition BuildSnapshot (p : Pipeline) (stages : list PipelineStage)
    (tasksByStage : gmap UUID (list PipelineTaskTemplate)) : Snapshot :=
  mkSnapshot (pl_ID p) (pl_Name p) (pl_Kind p) (pl_Description p) (rawOrEmpty (pl_Params p))
    ((fun st => mkSnapshotStage (st_Name st) (st_Sequence st) (st_ExecutionMode st)
       (snapshot_task <$> default [] (tasksByStage !! st_ID st))) <$> stages).

Definition DecodeSnapshot (raw : RawJSON) : Result Snapshot :=
  if raw_len0 raw then Err (EFmt "empty snapshot" [])
  else match UnmarshalE (A := Snapshot) raw with
       | Ok s => Ok s
       | Err e => Err (EWrap "decode snapshot: %w" [] e)
       end.
End Snapshot.

(** * Comparison *)

Inductive ChangeType := ChangeAdded | ChangeRemoved | ChangeModified.
#[global] Instance ChangeType_eq_dec : EqDecision ChangeType.
Proof. solve_decision. Defined.

Record FieldChange := mkFieldChange { fc_Field : string; fc_From : string; fc_To : string }.
Record StageDiff := mkStageDiff { sd_Name : string; sd_Change : ChangeType; sd_Fields : list FieldChange }.
Record TaskDiff := mkTaskDiff {
  td_Stage : string; td_Name : string; td_Change : ChangeType; td_Fields : list FieldChange }.
Record DiffSummary := mkDiffSummary {
  sum_StagesAdded : Z; sum_StagesRemoved : Z; sum_StagesModified : Z;
  sum_TasksAdded : Z; sum_TasksRemoved : Z; sum_TasksModified : Z }.
Record SnapshotDiff := mkSnapshotDiff {
  df_FromVersion : Z; df_ToVersion : Z; df_FromCreatedAt : Time; df_ToCreatedAt : Time;
  df_Stages : list StageDiff; df_Tasks : list TaskDiff; df_Summary : DiffSummary; df_Identical : bool }.

Definition itoa (n : Z) : string := Sprintf "%d" [AInt n].

(** [json.Marshal] of the decoded value: object keys sorted, the last of two
    equal keys kept; a number keeps its literal ([UseNumber]). *)
Definition by_key (a b : string * json) : Prop := String.le a.1 b.1.
#[global] Instance by_key_dec : RelDecision by_key.
Proof. intros a b. unfold by_key. apply _. Defined.

Definition sorted_object (kvs : list (string * json)) : list (string * json) :=
  merge_sort by_key (map_to_list (list_to_map (rev kvs) : gmap string json)).

Fixpoint canon (v : json) : json :=
  match v with
  | JArr l => JArr (map canon l)
  | JObj kvs => JObj (sorted_object (map (fun kv => (kv.1, canon kv.2)) kvs))
  | _ => v
  end.

(** Stable insertion sort by a strict order. *)
Fixpoint insert_before {A} (less : A -> A -> bool) (x : A) (l : list A) : list A :=
  match l with
  | [] => [x]
  | y :: l' => if less y x then y :: insert_before less x l' else x :: l
  end.
Definition SliceStable {A} (less : A -> A -> bool) (l : list A) : list A := foldr (insert_before less) [] l.

Definition changeRank (c : ChangeType) : Z :=
  match c with ChangeAdded => 0 | ChangeModified => 1 | ChangeRemoved => 2 end.

Definition stage_diff_less (a b : StageDiff) : bool :=
  if negb (String.eqb (sd_Name a) (sd_Name b)) then String.ltb (sd_Name a) (sd_Name b)
  else changeRank (sd_Change a) <? changeRank (sd_Change b).
Definition task_diff_less (a b : TaskDiff) : bool :=
  if negb (String.eqb (td_Stage a) (td_Stage b)) then String.ltb (td_Stage a) (td_Stage b)
  else if negb (String.eqb (td_Name a) (td_Name b)) then String.ltb (td_Name a) (td_Name b)
  else changeRank (td_Change a) <? changeRank (td_Change b).

Section Diff.
Context {T : JSONText}.

Definition CanonicalJSON (raw : RawJSON) : string :=
  match raw with
  | RawEmpty => ""
  | RawBad text => text
  | RawDoc v => marshal_text (canon v)
  end.
Definition canonical := CanonicalJSON.

Definition change (f a b : string) : list FieldChange :=
  if String.eqb a b then [] else [mkFieldChange f a b].

Definition stageFieldChanges (from to : SnapshotStage) : list FieldChange :=
  (if ss_Sequence from =? ss_Sequence to then []
   else [mkFieldChange "sequence" (itoa (ss_Sequence from)) (itoa (ss_Sequence to))]) ++
  change "executionMode" (ss_ExecutionMode from) (ss_ExecutionMode to).

Definition taskFieldChanges (from to : SnapshotTask) : list FieldChange :=
  change "type" (sk_Type from) (sk_Type to) ++
  change "displayOrder" (itoa (sk_DisplayOrder from)) (itoa (sk_DisplayOrder to)) ++
  change "image" (sk_Image from) (sk_Image to) ++
  change "scriptPath" (sk_ScriptPath from) (sk_ScriptPath to) ++
  change "timeoutSeconds" (itoa (sk_TimeoutSeconds from)) (itoa (sk_TimeoutSeconds to)) ++
  change "scriptArgs" (canonical (sk_ScriptArgs from)) (canonical (sk_ScriptArgs to)) ++
  change "command" (canonical (sk_Command from)) (canonical (sk_Command to)) ++
  change "args" (canonical (sk_Args from)) (canonical (sk_Args to)) ++
  change "produces" (canonical (sk_Produces from)) (canonical (sk_Produces to)) ++
  change "consumes" (canonical (sk_Consumes from)) (canonical (sk_Consumes to)) ++
  change "retryPolicy" (canonical (sk_RetryPolicy from)) (canonical (sk_RetryPolicy to)) ++
  change "releaseConfig" (canonical (sk_ReleaseConfig from)) (canonical (sk_ReleaseConfig to)) ++
  change "rolloutConfig" (canonical (sk_RolloutConfig from)) (canonical (sk_RolloutConfig to)) ++
  change "approvalConfig" (canonical (sk_ApprovalConfig from)) (canonical (sk_ApprovalConfig to)).

(** A map from names, the last of two equal ones kept. *)
Definition indexStages (l : list SnapshotStage) : gmap string SnapshotStage :=
  foldl (fun m s => <[ss_Name s := s]> m) ∅ l.
Definition indexTasks (l : list SnapshotTask) : gmap string SnapshotTask :=
  foldl (fun m t => <[sk_Name t := t]> m) ∅ l.

(** Append a difference and count it. *)
Definition DiffState : Type := list StageDiff * list TaskDiff * DiffSummary.

Definition count_stage (c : ChangeType) (s : DiffSummary) : DiffSummary :=
  let '(mkDiffSummary sa sr sm ta tr tm) := s in
  match c with
  | ChangeAdded => mkDiffSummary (sa + 1) sr sm ta tr tm
  | ChangeRemoved => mkDiffSummary sa (sr + 1) sm ta tr tm
  | ChangeModified => mkDiffSummary sa sr (sm + 1) ta tr tm
  end.
Definition count_task (c : ChangeType) (s : DiffSummary) : DiffSummary :=
  let '(mkDiffSummary sa sr sm ta tr tm) := s in
  match c with
  | ChangeAdded => mkDiffSummary sa sr sm (ta + 1) tr tm
  | ChangeRemoved => mkDiffSummary sa sr sm ta (tr + 1) tm
  | ChangeModified => mkDiffSummary sa sr sm ta tr (tm + 1)
  end.
Definition add_stage (d : DiffState) (x : StageDiff) : DiffState :=
  let '(ss, ts, n) := d in (ss ++ [x], ts, count_stage (sd_Change x) n).
Definition add_task (d : DiffState) (x : TaskDiff) : DiffState :=
  let '(ss, ts, n) := d in (ss, ts ++ [x], count_task (td_Change x) n).

(** The four loops of [DiffSnapshots]. *)
Definition diff_to_stage (fromStages : gmap string SnapshotStage) (d : DiffState) (s : SnapshotStage)
  : DiffState :=
  match fromStages !! ss_Name s with
  | None => add_stage d (mkStageDiff (ss_Name s) ChangeAdded [])
  | Some prev =>
      match stageFieldChanges prev s with
      | [] => d
      | fields => add_stage d (mkStageDiff (ss_Name s) ChangeModified fields)
      end
  end.

Definition diff_from_stage (toStages : gmap string SnapshotStage) (d : DiffState) (s : SnapshotStage)
  : DiffState :=
  match toStages !! ss_Name s with
  | Some _ => d
  | None => add_stage d (mkStageDiff (ss_Name s) ChangeRemoved [])
  end.

Definition diff_to_tasks (fromStages : gmap string SnapshotStage) (d : DiffState) (s : SnapshotStage)
  : DiffState :=
  let prev := fromStages !! ss_Name s in
  let prevTasks := indexTasks (match prev with Some p => ss_Tasks p | None => [] end) in
  foldl (fun d t =>
    match prev, prevTasks !! sk_Name t with
    | Some _, Some old =>
        match taskFieldChanges old t with
        | [] => d
        | fields => add_task d (mkTaskDiff (ss_Name s) (sk_Name t) ChangeModified fields)
        end
    | _, _ => add_task d (mkTaskDiff (ss_Name s) (sk_Name t) ChangeAdded [])
    end) d (ss_Tasks s).

Definition diff_from_tasks (toStages : gmap string SnapshotStage) (d : DiffState) (s : SnapshotStage)
  : DiffState :=
  let next := toStages !! ss_Name s in
  let nextTasks := indexTasks (match next with Some p => ss_Tasks p | None => [] end) in
  foldl (fun d t =>
    match next, nextTasks !! sk_Name t with
    | Some _, Some _ => d
    | _, _ => add_task d (mkTaskDiff (ss_Name s) (sk_Name t) ChangeRemoved [])
    end) d (ss_Tasks s).

Definition DiffSnapshots (from to : Snapshot) (fromVersion toVersion : Z) (fromAt toAt : Time)
  : SnapshotDiff :=
  let fromStages := indexStages (sn_Stages from) in
  let toStages := indexStages (sn_Stages to) in
  let d := ([], [], mkDiffSummary 0 0 0 0 0 0) in
  let d := foldl (diff_to_stage fromStages) d (sn_Stages to) in
  let d := foldl (diff_from_stage toStages) d (sn_Stages from) in
  let d := foldl (diff_to_tasks fromStages) d (sn_Stages to) in
  let d := foldl (diff_from_tasks toStages) d (sn_Stages from) in
  let '(ss, ts, n) := d in
  let ss := SliceStable stage_diff_less ss in
  let ts := SliceStable task_diff_less ts in
  mkSnapshotDiff fromVersion toVersion fromAt toAt ss ts n
    (match ss, ts with [], [] => true | _, _ => false end).
End Diff.

(** * The service *)

Definition errPipelineNotFound : GoError := EApi (DomainError KindPipeline StatusNotFound 1 "pipeline not found").
Definition errVersionNotFound : GoError :=
  EApi (DomainError KindPipeline StatusNotFound 3 "pipeline version not found").
Definition errBadVersion : GoError :=
  EApi (DomainError KindPipeline StatusBadRequest 2 "invalid version (want a positive integer)").

Definition DefaultVersionListLimit : Z := 50.
Definition MaxVersionListLimit : Z := 200.

Record VersionSummary := mkVersionSummary {
  vs_Version : Z; vs_CreatedBy : string; vs_CreatedAt : Time; vs_Stages : Z; vs_Tasks : Z;
  vs_IdenticalToPrevious : option bool; vs_IsCurrent : bool }.

Record RollbackResult := mkRollbackResult {
  rb_PipelineID : UUID; rb_RestoredVersion : Z; rb_NewVersion : Z; rb_Stages : Z; rb_Tasks : Z }.

Definition jsonOr (raw def : RawJSON) : RawJSON :=
  if raw_len0 raw || raw_is_null raw then def else raw.

Module PipelineVersionService.
Section Service.
Context {G : Gorm} {P : Platform} {D : Dispatcher} {T : JSONText}.

(** The text of a stored document. *)
Definition stored_text (r : RawJSON) : string :=
  match r with RawEmpty => "" | RawBad t => t | RawDoc v => column_text v end.

Definition currentSnapshot (pipelineID : UUID) : M World (Result Snapshot) :=
  try* p := zoom w_pipelines (PipelineRepository.GetByID pipelineID) in
  try* stages := zoom w_stages (StageRepository.ListByPipelineID pipelineID) in
  try* byStage := fold_err stages ∅ (fun m st =>
    try* tasks := zoom w_templates (TaskTemplateRepository.ListByStageID (st_ID st)) in
    ret (Ok (<[st_ID st := tasks]> m))) in
  ret (Ok (BuildSnapshot p stages byStage)).

(** Bump the version and record the body under it. *)
Definition record_version (pipelineID : UUID) (body : json) (createdBy : string) : M World (Result unit) :=
  try* p := zoom w_pipelines (PipelineRepository.GetByID pipelineID) in
  try* p := stmt w_pipelines (fun now => PipelineRepository.Update now (p <| pl_Version := pl_Version p + 1 |>)) in
  try* _ := stmt w_versions (fun now => VersionRepository.Create now
    (mkPipelineVersion uuid_Nil pipelineID (pl_Version p) (RawDoc body) createdBy time_Zero)) in
  ret (Ok tt).

Definition Publish (pipelineID : UUID) (createdBy : string) : M World (Result unit) :=
  try* snap := currentSnapshot pipelineID in
  match MarshalSnapshot snap with
  | Err e => ret (Err (EWrap "marshal snapshot: %w" [] e))
  | Ok body =>
      let* latest := zoom w_versions (VersionRepository.Latest pipelineID) in
      match latest with
      | Ok latest =>
          if String.eqb (stored_text (ver_Snapshot latest)) (marshal_text body) then ret (Ok tt)
          else record_version pipelineID body createdBy
      | Err lerr =>
          if negb (errors_Is lerr ErrRecordNotFound) then ret (Err lerr)
          else record_version pipelineID body createdBy
      end
  end.

(** The summary of row [i], whose next-older row is [older]. *)
Definition summarize (i : nat) (r : PipelineVersion) (older : option PipelineVersion)
  : Result VersionSummary :=
  ok* snap := DecodeSnapshot (ver_Snapshot r) in
  Ok (mkVersionSummary (ver_Version r) (ver_CreatedBy r) (ver_CreatedAt r)
    (Z.of_nat (length (sn_Stages snap)))
    (foldl (fun n st => n + Z.of_nat (length (ss_Tasks st))) 0 (sn_Stages snap))
    ((fun o => String.eqb (stored_text (ver_Snapshot o)) (stored_text (ver_Snapshot r))) <$> older)
    (Nat.eqb i 0)).

Fixpoint summaries (i : nat) (rows : list PipelineVersion) (limit : nat) : Result (list VersionSummary) :=
  match rows, limit with
  | r :: rows', S limit' =>
      ok* item := summarize i r (head rows') in
      ok* rest := summaries (S i) rows' limit' in
      Ok (item :: rest)
  | _, _ => Ok []
  end.

Definition List (pipelineID : UUID) (limit : Z) : M World (Result (list VersionSummary)) :=
  let limit := if limit <=? 0 then DefaultVersionListLimit else limit in
  if MaxVersionListLimit <? limit then
    ret (Err (EApi (DomainError KindPipeline StatusBadRequest 4
      (Sprintf "limit exceeds %d" [AInt MaxVersionListLimit]))))
  else
    try* rows := zoom w_versions (VersionRepository.ListByPipelineID pipelineID (limit + 1)) in
    ret (summaries 0 rows (Z.to_nat limit)).

Definition Get (pipelineID : UUID) (version : Z) : M World (Result PipelineVersion) :=
  if version <=? 0 then ret (Err errBadVersion)
  else
    let* v := zoom w_versions (VersionRepository.GetByVersion pipelineID version) in
    ret (match v with
         | Ok v => Ok v
         | Err e => Err (if errors_Is e ErrRecordNotFound then errVersionNotFound else e)
         end).

Definition Compare (pipelineID : UUID) (from to : Z) : M World (Result SnapshotDiff) :=
  try* fv := Get pipelineID from in
  try* tv := Get pipelineID to in
  ret (ok* fsnap := DecodeSnapshot (ver_Snapshot fv) in
       ok* tsnap := DecodeSnapshot (ver_Snapshot tv) in
       Ok (DiffSnapshots fsnap tsnap (ver_Version fv) (ver_Version tv) (ver_CreatedAt fv) (ver_CreatedAt tv))).

(** ** Rolling back *)

Definition clearStructure (pipelineID : UUID) : M World (Result unit) :=
  try* stages := zoom w_stages (StageRepository.ListByPipelineID pipelineID) in
  for_each_err stages (fun st =>
    try* _ := stmt w_templates (fun now => TaskTemplateRepository.DeleteByStageID now (st_ID st)) in
    try* _ := stmt w_stages (fun now => StageRepository.Delete now (st_ID st)) in
    ret (Ok tt)).

(** The rows a snapshot is turned back into. *)
Definition stage_row_of (pipelineID : UUID) (st : SnapshotStage) : PipelineStage :=
  mkPipelineStage uuid_Nil time_Zero time_Zero None pipelineID (ss_Name st) (ss_Sequence st)
    (if empty_string (ss_ExecutionMode st) then ExecutionModeParallel else ss_ExecutionMode st).

Definition template_row_of (stageID : UUID) (t : SnapshotTask) : PipelineTaskTemplate :=
  mkPipelineTaskTemplate uuid_Nil time_Zero time_Zero None stageID (sk_Name t) (sk_Type t)
    (sk_DisplayOrder t) (sk_Image t) (sk_ScriptPath t)
    (jsonOr (sk_ScriptArgs t) empty_array) (jsonOr (sk_Command t) empty_array)
    (jsonOr (sk_Args t) empty_array) (jsonOr (sk_Produces t) empty_array)
    (jsonOr (sk_Consumes t) empty_array)
    (sk_ReleaseConfig t) (sk_RolloutConfig t) (sk_ApprovalConfig t)
    (jsonOr (sk_RetryPolicy t) default_retry) (sk_TimeoutSeconds t) false.

Definition materialize_task (stage : string) (stageID : UUID) (t : SnapshotTask) : M World (Result unit) :=
  let* r := stmt w_templates (fun now => TaskTemplateRepository.Create now (template_row_of stageID t)) in
  ret (match r with
       | Ok _ => Ok tt
       | Err e => Err (EWrap "re-materialize task %q in stage %q: %w" [AStr (sk_Name t); AStr stage] e)
       end).

Definition materialize_stage (pipelineID : UUID) (st : SnapshotStage) : M World (Result unit) :=
  let* r := stmt w_stages (fun now => StageRepository.Create now (stage_row_of pipelineID st)) in
  match r with
  | Err e => ret (Err (EWrap "re-materialize stage %q: %w" [AStr (ss_Name st)] e))
  | Ok stage => for_each_err (ss_Tasks st) (materialize_task (ss_Name st) (st_ID stage))
  end.

Definition Rollback (pipelineID : UUID) (version : Z) (createdBy : string) : M World (Result RollbackResult) :=
  try* target := Get pipelineID version in
  match DecodeSnapshot (ver_Snapshot target) with
  | Err e => ret (Err e)
  | Ok snap =>
      let* p := zoom w_pipelines (PipelineRepository.GetByID pipelineID) in
      match p with
      | Err _ => ret (Err errPipelineNotFound)
      | Ok _ =>
          try* _ := clearStructure pipelineID in
          try* _ := for_each_err (sn_Stages snap) (materialize_stage pipelineID) in
          try* _ := Publish pipelineID createdBy in
          let* p := zoom w_pipelines (PipelineRepository.GetByID pipelineID) in
          ret (Ok (mkRollbackResult pipelineID version
            (match p with Ok p => pl_Version p | Err _ => 0 end)
            (Z.of_nat (length (sn_Stages snap)))
            (foldl (fun n st => n + Z.of_nat (length (ss_Tasks st))) 0 (sn_Stages snap))))
      end
  end.
End Service.
End PipelineVersionService.
