(* ===== verification/ConfigVersions.v ===== *)
(** Configuration of a component: its rows, their audit trail, the versions
    captured on every change and rolled back to
    ([internal/component/models/config_version.go],
    [internal/component/service/config.go], [config_version.go]), and the
    shared variable groups ([variable_group.go]). *)
From stdpp Require Import base list strings gmap sorting.
From Stdlib Require Import ZArith Lia.
From S2P Require Import Prelude Common Gorm Json GoLib RunnerProto RunStore PipelineStore TargetStore.
From S2P Require Import EditStore OrgStore SiteStore PermStore RateLimit World Admin.
From S2P Require Import PipelineVersions.

Open Scope Z_scope.

(** * Snapshot bodies *)

Definition ScopeKeyOf {P : Platform} (environmentID : option UUID) : string :=
  match environmentID with None => "" | Some id => uuid_String id end.

Record ConfigSnapshotEntry := mkConfigSnapshotEntry {
  ce_Key : string; ce_Value : string; ce_IsSecret : bool; ce_SecretRef : string }.

#[global] Instance Codec_ConfigSnapshotEntry : Codec ConfigSnapshotEntry := {|
  zero := mkConfigSnapshotEntry zero zero zero zero;
  enc := fun e => JObj (concat [
    field _ "key" (ce_Key e); field_opt _ "value" empty_string (ce_Value e);
    field _ "isSecret" (ce_IsSecret e); field_opt _ "secretRef" empty_string (ce_SecretRef e)]);
  dec := dec_struct (mkConfigSnapshotEntry zero zero zero zero)
    (fields_ret mkConfigSnapshotEntry <@> dec_field _ "key" <@> dec_field _ "value" <@>
      dec_field _ "isSecret" <@> dec_field _ "secretRef");
  wf := fun _ => True;
|}.
#[global] Instance CodecLaws_ConfigSnapshotEntry : CodecLaws ConfigSnapshotEntry.
Proof. split; [|done]. intros []; cbn [wf]; intros. struct_roundtrip. Qed.

Definition secret_mask : string := "<secret>".

Definition snapshot_entry (r : ComponentConfig) : ConfigSnapshotEntry :=
  mkConfigSnapshotEntry (cfg_Key r) (if cfg_IsSecret r then secret_mask else cfg_Value r)
    (cfg_IsSecret r) (cfg_SecretRef r).

Definition entry_less (a b : ConfigSnapshotEntry) : bool := String.ltb (ce_Key a) (ce_Key b).

Definition BuildConfigSnapshot (rows : list ComponentConfig) : list ConfigSnapshotEntry :=
  SliceStable entry_less (snapshot_entry <$> rows).

(** [json.Marshal] of the entries, which cannot fail. *)
Definition EncodeConfigSnapshot (entries : list ConfigSnapshotEntry) : json := enc entries.

Definition DecodeConfigSnapshot (raw : RawJSON) : Result (list ConfigSnapshotEntry) :=
  if raw_len0 raw then Ok []
  else match UnmarshalE raw with
       | Ok entries => Ok entries
       | Err e => Err (EWrap "decode config snapshot: %w" [] e)
       end.

(** ** Comparison *)

Inductive ConfigChangeType := ConfigChangeAdded | ConfigChangeRemoved | ConfigChangeModified.
#[global] Instance ConfigChangeType_eq_dec : EqDecision ConfigChangeType.
Proof. solve_decision. Defined.

Record ConfigKeyDiff := mkConfigKeyDiff {
  kd_Key : string; kd_Change : ConfigChangeType; kd_FromValue : string; kd_ToValue : string }.

Record ConfigSnapshotDiff := mkConfigSnapshotDiff {
  cd_FromVersion : Z; cd_ToVersion : Z; cd_FromCreatedAt : Time; cd_ToCreatedAt : Time;
  cd_Keys : list ConfigKeyDiff; cd_Added : Z; cd_Removed : Z; cd_Modified : Z;
  cd_Identical : bool }.

(** Later entries of a key win. *)
Definition indexEntries (entries : list ConfigSnapshotEntry) : gmap string ConfigSnapshotEntry :=
  foldl (fun out e => <[ce_Key e := e]> out) ∅ entries.

Definition entryFields (from to : ConfigSnapshotEntry) : list (string * string) :=
  (if String.eqb (ce_Value from) (ce_Value to) then [] else [(ce_Value from, ce_Value to)]) ++
  (if String.eqb (ce_SecretRef from) (ce_SecretRef to) then [] else [(ce_SecretRef from, ce_SecretRef to)]).

(** The first loop: added and modified keys. *)
Definition diff_to_entry (fromIdx : gmap string ConfigSnapshotEntry) (e : ConfigSnapshotEntry) : list ConfigKeyDiff :=
  match fromIdx !! ce_Key e with
  | None => [mkConfigKeyDiff (ce_Key e) ConfigChangeAdded "" (ce_Value e)]
  | Some prev =>
      match entryFields prev e with
      | [] => []
      | (f, t) :: _ => [mkConfigKeyDiff (ce_Key e) ConfigChangeModified f t]
      end
  end.

(** The second loop: removed keys. *)
Definition diff_from_entry (toIdx : gmap string ConfigSnapshotEntry) (e : ConfigSnapshotEntry) : list ConfigKeyDiff :=
  match toIdx !! ce_Key e with
  | None => [mkConfigKeyDiff (ce_Key e) ConfigChangeRemoved (ce_Value e) ""]
  | Some _ => []
  end.

Definition key_less (a b : ConfigKeyDiff) : bool := String.ltb (kd_Key a) (kd_Key b).

Definition count_change (c : ConfigChangeType) (keys : list ConfigKeyDiff) : Z :=
  Z.of_nat (length (filter (fun d => kd_Change d = c) keys)).

Definition DiffConfigSnapshots (from to : list ConfigSnapshotEntry) (fromVersion toVersion : Z)
    (fromAt toAt : Time) : ConfigSnapshotDiff :=
  let fromIdx := indexEntries from in
  let toIdx := indexEntries to in
  let keys := (to ≫= diff_to_entry fromIdx) ++ (from ≫= diff_from_entry toIdx) in
  let sorted := SliceStable key_less keys in
  mkConfigSnapshotDiff fromVersion toVersion fromAt toAt sorted
    (count_change ConfigChangeAdded keys) (count_change ConfigChangeRemoved keys)
    (count_change ConfigChangeModified keys)
    (match sorted with [] => true | _ => false end).

(** * Versions *)

Module ConfigSnapshotService.
Section Service.
Context {G : Gorm} {P : Platform} {O : ObjectStore} {X : Transactions} {T : JSONText}.

(** The rows of a scope, in the collation order of the database. *)
Definition ListAll (componentID : UUID) (environmentID : option UUID)
  : M (Table ComponentConfig) (Result (list ComponentConfig)) :=
  db_Find (Where (ComponentConfigRepository.in_scope componentID environmentID)).

(** Is [body] the text of the version already recorded? *)
Definition unchanged (prev : Result ConfigSnapshot) (body : json) : bool :=
  match prev with
  | Ok prev => String.eqb (PipelineVersionService.stored_text (snap_Snapshot prev)) (marshal_text body)
  | Err _ => false
  end.

Definition append (componentID : UUID) (environmentID : option UUID) (latest : Z) (comment : string)
    (body : RawJSON) (by_ : option string) : M Admin (Result ConfigSnapshot) :=
  on a_snapshots (fun now => ConfigSnapshotRepository.Create now
    (mkConfigSnapshot uuid_Nil componentID environmentID (ScopeKeyOf environmentID) (latest + 1)
       comment body by_ time_Zero)).

Definition Capture (componentID : UUID) (environmentID : option UUID) (comment : string)
    (by_ : option string) : M Admin (Result unit) :=
  try* rows := zoom a_configs (ListAll componentID environmentID) in
  let body := EncodeConfigSnapshot (BuildConfigSnapshot rows) in
  let scopeKey := ScopeKeyOf environmentID in
  db_Tx (
    try* latest := zoom a_snapshots (ConfigSnapshotRepository.LockLatest componentID scopeKey) in
    let* same := (if 0 <? latest
                  then let* prev := zoom a_snapshots
                         (ConfigSnapshotRepository.GetByVersion componentID scopeKey latest) in
                       ret (unchanged prev body)
                  else ret false) in
    if same then ret (Ok tt)
    else void (append componentID environmentID latest comment (RawDoc body) by_)).

Definition List (componentID : UUID) (environmentID : option UUID) (limit : Z)
  : M Admin (Result (list ConfigSnapshot)) :=
  zoom a_snapshots (ConfigSnapshotRepository.List componentID (ScopeKeyOf environmentID) limit).

Definition Get (componentID : UUID) (environmentID : option UUID) (version : Z)
  : M Admin (Result (ConfigSnapshot * list ConfigSnapshotEntry)) :=
  try* row := zoom a_snapshots
    (ConfigSnapshotRepository.GetByVersion componentID (ScopeKeyOf environmentID) version) in
  ret (ok* entries := DecodeConfigSnapshot (snap_Snapshot row) in Ok (row, entries)).

Definition no_version (v : Z) (e : GoError) : GoError := EWrap "版本 v%d 不存在: %w" [AInt v] e.

(** A version by number, with the error of the callers. *)
Definition version_of (componentID : UUID) (scopeKey : string) (v : Z) : M Admin (Result ConfigSnapshot) :=
  let* r := zoom a_snapshots (ConfigSnapshotRepository.GetByVersion componentID scopeKey v) in
  ret (match r with Ok row => Ok row | Err e => Err (no_version v e) end).

Definition Diff (componentID : UUID) (environmentID : option UUID) (a b : Z)
  : M Admin (Result ConfigSnapshotDiff) :=
  let scopeKey := ScopeKeyOf environmentID in
  try* from := version_of componentID scopeKey a in
  try* to := version_of componentID scopeKey b in
  ret (ok* fromEntries := DecodeConfigSnapshot (snap_Snapshot from) in
       ok* toEntries := DecodeConfigSnapshot (snap_Snapshot to) in
       Ok (DiffConfigSnapshots fromEntries toEntries a b (snap_CreatedAt from) (snap_CreatedAt to))).

(** ** Rolling back *)

(** The row of a key that has none. *)
Definition fresh_row (componentID : UUID) (environmentID : option UUID) (e : ConfigSnapshotEntry)
    (by_ : option string) : ComponentConfig :=
  mkComponentConfig uuid_Nil componentID environmentID (ce_Key e)
    (if ce_IsSecret e then "" else ce_Value e) (ce_IsSecret e) (ce_SecretRef e) "" by_ by_
    time_Zero time_Zero.

(** The row of a key that has one. *)
Definition rolled_row (existing : ComponentConfig) (e : ConfigSnapshotEntry) (by_ : option string) : ComponentConfig :=
  existing <| cfg_Value := ce_Value e |> <| cfg_IsSecret := ce_IsSecret e |>
    <| cfg_SecretRef := ce_SecretRef e |> <| cfg_UpdatedBy := by_ |>.

Definition apply_entry (componentID : UUID) (environmentID : option UUID) (by_ : option string)
    (e : ConfigSnapshotEntry) : M Admin (Result unit) :=
  let* r := zoom a_configs (ComponentConfigRepository.GetByKey componentID (ce_Key e) environmentID) in
  match r with
  | Err err =>
      if bool_decide (err = ErrRecordNotFound)
      then void (on a_configs (fun now => db_Create now (fresh_row componentID environmentID e by_)))
      else ret (Err err)
  | Ok existing => void (on a_configs (fun now => db_Save now (rolled_row existing e by_)))
  end.

Definition drop_stale (keep : list string) (row : ComponentConfig) : M Admin (Result unit) :=
  if bool_decide (cfg_Key row ∈ keep) then ret (Ok tt)
  else void (on a_configs (fun now => Repository_Delete now (cfg_ID row))).

Definition applyEntries (componentID : UUID) (environmentID : option UUID)
    (entries : list ConfigSnapshotEntry) (by_ : option string) : M Admin (Result unit) :=
  try* _ := for_each_err entries (apply_entry componentID environmentID by_) in
  try* stale := zoom a_configs
    (db_Find (Where (ComponentConfigRepository.in_scope componentID environmentID))) in
  for_each_err stale (drop_stale (ce_Key <$> entries)).

Definition Rollback (componentID : UUID) (environmentID : option UUID) (version : Z) (comment : string)
    (by_ : option string) : M Admin (Result ConfigSnapshot) :=
  let scopeKey := ScopeKeyOf environmentID in
  try* target := version_of componentID scopeKey version in
  match DecodeConfigSnapshot (snap_Snapshot target) with
  | Err e => ret (Err e)
  | Ok entries =>
      db_Tx (
        try* _ := applyEntries componentID environmentID entries by_ in
        try* latest := zoom a_snapshots (ConfigSnapshotRepository.LockLatest componentID scopeKey) in
        append componentID environmentID latest (Sprintf "回滚到 v%d：%s" [AInt version; AStr comment])
          (snap_Snapshot target) by_)
  end.
End Service.
End ConfigSnapshotService.

(** * Configuration rows *)

Module ComponentConfigService.
(** Which optional collaborators are wired in. *)
Record Config := mkConfig { ccs_envKeys : bool; ccs_snapshots : bool }.
Definition wired : Config := mkConfig true true.

Section Service.
Context {G : Gorm} {P : Platform} {O : ObjectStore} {X : Transactions} {T : JSONText}.

Definition List (componentID : UUID) (environmentID : option UUID) (p : Pagination)
  : M Admin (Result (list ComponentConfig * Z)) :=
  zoom a_configs (ComponentConfigRepository.FindByComponentID componentID environmentID p).

Definition GetByKey (componentID : UUID) (key : string) (environmentID : option UUID)
  : M Admin (Result ComponentConfig) :=
  zoom a_configs (ComponentConfigRepository.GetByKey componentID key environmentID).

Definition envKeySnapshot (s : Config) (envID : option UUID) : M Admin string :=
  match envID with
  | None => ret ""
  | Some envID =>
      if negb (ccs_envKeys s) then ret ""
      else let* r := zoom a_environments (EnvironmentRepository.ResolveKey envID) in ret (ok_or "" r)
  end.

Definition masked (c : ComponentConfig) : string := if cfg_IsSecret c then secret_mask else cfg_Value c.

(** The audit row and the capture; their failures are logged. *)
Definition record_change (s : Config) (c : ComponentConfig) (action oldValue newValue comment : string)
    (changedBy : option string) : M Admin unit :=
  let* envKey := envKeySnapshot s (cfg_EnvironmentID c) in
  let* _ := on a_config_history (fun now => ComponentConfigRepository.LogHistory now
    (mkComponentConfigHistory uuid_Nil (cfg_ComponentID c) (cfg_EnvironmentID c) envKey (cfg_Key c)
       action oldValue newValue changedBy time_Zero)) in
  if ccs_snapshots s
  then let* _ := ConfigSnapshotService.Capture (cfg_ComponentID c) (cfg_EnvironmentID c)
                   (comment +:+ cfg_Key c) changedBy in ret tt
  else ret tt.

(** The saved row is handed back through the pointer. *)
Definition Upsert (s : Config) (c : ComponentConfig) (changedBy : option string)
  : M Admin (Result ComponentConfig) :=
  let action := if cfg_ID c =? uuid_Nil then "create" else "update" in
  try* c := on a_configs (fun now => Repository_Update now c) in
  let* _ := record_change s c action "" (masked c) "配置变更 " changedBy in
  ret (Ok c).

Definition Delete (s : Config) (id : UUID) (changedBy : option string) : M Admin (Result unit) :=
  try* old := zoom a_configs (Repository_GetByID id) in
  try* _ := on a_configs (fun now => Repository_Delete now id) in
  let* _ := record_change s old "delete" (masked old) "" "删除配置 " changedBy in
  ret (Ok tt).
End Service.
End ComponentConfigService.

(** * Variable groups *)

Record VariableEntry := mkVariableEntry {
  ve_Key : string; ve_Value : string; ve_Description : string }.
#[global] Instance VariableEntry_eta : Eta VariableEntry := fun r =>
  mkVariableEntry (ve_Key r) (ve_Value r) (ve_Description r).

#[global] Instance Codec_VariableEntry : Codec VariableEntry := {|
  zero := mkVariableEntry zero zero zero;
  enc := fun e => JObj (concat [
    field _ "key" (ve_Key e); field_opt _ "value" empty_string (ve_Value e);
    field_opt _ "description" empty_string (ve_Description e)]);
  dec := dec_struct (mkVariableEntry zero zero zero)
    (fields_ret mkVariableEntry <@> dec_field _ "key" <@> dec_field _ "value" <@>
      dec_field _ "description");
  wf := fun _ => True;
|}.
#[global] Instance CodecLaws_VariableEntry : CodecLaws VariableEntry.
Proof. split; [|done]. intros []; cbn [wf]; intros. struct_roundtrip. Qed.

(** The entries of a group; what [json.Unmarshal] could not read is left out. *)
Definition group_entries (g : VariableGroup) : list VariableEntry :=
  if raw_len0 (vg_Variables g) then [] else (Unmarshal (vg_Variables g)).1.

(** [seen] and [out] of the loop: the position of each name in [out]. *)
Definition put_variable (acc : gmap string nat * list (string * string)) (e : VariableEntry)
  : gmap string nat * list (string * string) :=
  let '(seen, out) := acc in
  if empty_string (ve_Key e) then acc
  else match seen !! ve_Key e with
       | Some i => (seen, alter (fun nv => (nv.1, ve_Value e)) i out)
       | None => (<[ve_Key e := length out]> seen, out ++ [(ve_Key e, ve_Value e)])
       end.

Definition GroupVariableParams (groups : list VariableGroup) : list (string * string) :=
  (foldl (fun acc g => foldl put_variable acc (group_entries g)) (∅, []) groups).2.

Module VariableGroupService.
Section Service.
Context {G : Gorm} {P : Platform} {O : ObjectStore} {X : Transactions}.

Definition name_required : GoError := EFmt "name 必填" [].

Definition ListByOrg (orgID : UUID) : M Admin (Result (list VariableGroup)) :=
  zoom a_var_groups (VariableGroupRepository.ListByOrg orgID).

Definition Get (id : UUID) : M Admin (Result VariableGroup) :=
  zoom a_var_groups (VariableGroupRepository.Get id).

Definition Create (row : VariableGroup) (by_ : string) : M Admin (Result VariableGroup) :=
  if empty_string (vg_Name row) then ret (Err name_required)
  else on a_var_groups (fun now => VariableGroupRepository.Create now (row <| vg_CreatedBy := by_ |>)).

Definition Update (row : VariableGroup) : M Admin (Result VariableGroup) :=
  if empty_string (vg_Name row) then ret (Err name_required)
  else on a_var_groups (fun now => VariableGroupRepository.Update now row).

(** The repository's transaction: the bindings, then the group. *)
Definition Delete (id : UUID) : M Admin (Result unit) :=
  db_Tx (
    try* _ := on a_var_bindings (fun now => db_Delete now (fun b => vb_GroupID b =? id)) in
    void (on a_var_groups (fun now => db_Delete now (fun g => vg_ID g =? id)))).

Definition ListBindings (componentID : UUID) : M Admin (Result (list ComponentVariableGroupBinding)) :=
  zoom a_var_bindings (VariableGroupRepository.ListBindings componentID).

Definition Bind (componentID groupID : UUID) (priority : Z) (by_ : string) : M Admin (Result unit) :=
  void (on a_var_bindings (fun now => VariableGroupRepository.CreateBinding now
    (mkComponentVariableGroupBinding uuid_Nil componentID groupID priority by_ time_Zero))).

Definition Unbind (bindingID : UUID) : M Admin (Result unit) :=
  void (on a_var_bindings (fun now => VariableGroupRepository.DeleteBinding now bindingID)).

(** [variable_groups JOIN bindings ORDER BY priority]: the groups one by one,
    in the order of the bindings. *)
Definition bound_groups (bindings : list ComponentVariableGroupBinding) (groups : list VariableGroup)
  : list VariableGroup :=
  bindings ≫= (fun b => filter (fun g => vg_ID g = vb_GroupID b) groups).

(** One statement: the read of the bindings stands for it, the groups are those
    of the same instant. *)
Definition ListBoundGroups (componentID : UUID) : M Admin (Result (list VariableGroup)) :=
  let* s := get in
  try* bindings := zoom a_var_bindings (VariableGroupRepository.ListBindings componentID) in
  ret (Ok (bound_groups bindings (rows (a_var_groups s)))).

Definition ComponentGroupParams (componentID : UUID) : M Admin (Result (list VariableEntry)) :=
  try* groups := ListBoundGroups componentID in
  ret (Ok ((fun f => mkVariableEntry f.1 f.2 "") <$> GroupVariableParams groups)).
End Service.
End VariableGroupService.
