(* ===== verification/Environments.v ===== *)
(** Environments and their groups ([internal/environment/service/environment.go],
    [internal/environmentgroup/service/environment_group.go]): the status of
    an environment, its connection test, and the deletion of groups. *)
From stdpp Require Import base list strings gmap.
From Stdlib Require Import ZArith Lia.
From S2P Require Import Prelude Common Gorm Json GoLib RunnerProto RunStore PipelineStore TargetStore.
From S2P Require Import EditStore OrgStore SiteStore PermStore RateLimit World Admin.
From S2P Require Import PipelineVersions.

Open Scope Z_scope.

(** * The status *)

Definition configured (e : Environment) : bool :=
  let ac := env_AccessConfig e in
  if String.eqb (env_Access e) EnvAccessAgent
  then negb (env_TargetID e =? uuid_Nil) && negb (empty_string (env_Namespace e))
  else if String.eqb (env_Access e) EnvAccessKubeconfig
  then negb (empty_string (ac_KubeCredRef ac))
  else if String.eqb (env_Access e) EnvAccessSSH
  then negb (empty_list (ac_SSHTargets ac)) && negb (empty_string (ac_SSHSecretRef ac))
  else false.

Definition deriveStatus (e : Environment) : string :=
  if configured e then EnvStatusConfiguredUnverified else EnvStatusUnconfigured.

Definition keyFieldChanged (old newEnv : Environment) : bool :=
  negb (env_TargetID old =? env_TargetID newEnv) ||
  negb (String.eqb (env_Namespace old) (env_Namespace newEnv)) ||
  negb (String.eqb (env_Access old) (env_Access newEnv)) ||
  negb (String.eqb (ac_KubeCredRef (env_AccessConfig old)) (ac_KubeCredRef (env_AccessConfig newEnv))) ||
  negb (String.eqb (ac_SSHSecretRef (env_AccessConfig old)) (ac_SSHSecretRef (env_AccessConfig newEnv))).

(** * The connection test *)

Record TestItem := mkTestItem { ti_Name : string; ti_Status : string; ti_Detail : string }.

Record TestReport := mkTestReport {
  tr_Access : string; tr_Items : list TestItem; tr_Passed : Z; tr_Total : Z; tr_Status : string;
  tr_TestedAt : string }.
#[export] Instance TestReport_eta : Eta TestReport := fun r =>
  mkTestReport (tr_Access r) (tr_Items r) (tr_Passed r) (tr_Total r) (tr_Status r) (tr_TestedAt r).

Definition item (name : string) (ok : bool) (failDetail : string) : TestItem :=
  if ok then mkTestItem name "pass" "" else mkTestItem name "fail" failDetail.
Definition skip (name detail : string) : TestItem := mkTestItem name "skip" detail.

Definition isFresh (now : Time) (t : option Time) : bool :=
  match t with Some t => Sub now t <? 5 * Minute | None => false end.

Definition no_outbound : string := "hub 无出站能力，由直连执行器完成".

Definition test_items (now : Time) (env : Environment) (target : option Target) : list TestItem :=
  let ac := env_AccessConfig env in
  if String.eqb (env_Access env) EnvAccessAgent then
    let online := match target with
      | Some t => String.eqb (tg_Status t) TargetStatusOnline && isFresh now (tg_LastHeartbeatAt t)
      | None => false end in
    [item "目标已注册" (negb (env_TargetID env =? uuid_Nil)) "目标未选择";
     item "Runner Agent 在线（心跳新鲜度）" online "目标离线或心跳过期，agent 通道需 Runner 在线";
     item "命名空间已声明" (negb (empty_string (env_Namespace env))) "命名空间为空";
     skip "部署权限（dry-run create deployment）" "hub 无出站能力，由 Runner 侧执行"]
  else if String.eqb (env_Access env) EnvAccessKubeconfig then
    let hasCred := negb (empty_string (ac_KubeCredRef ac)) in
    [skip "kube-apiserver 可达（TCP/TLS 握手）" no_outbound;
     item "凭据已配置（TLS/CA 或显式跳过）" hasCred "未配置 kubeconfig 凭据引用";
     item "认证通过" hasCred "未配置 kubeconfig 凭据引用";
     skip "命名空间可访问" no_outbound;
     skip "部署权限（dry-run create deployment）" no_outbound]
  else if String.eqb (env_Access env) EnvAccessSSH then
    let hasHosts := negb (empty_list (ac_SSHTargets ac)) in
    let hasCred := negb (empty_string (ac_SSHSecretRef ac)) in
    [skip "TCP 可达" no_outbound;
     skip "主机指纹校验（known_hosts）" no_outbound;
     item "SSH 认证通过" hasCred "未配置 SSH 凭据引用";
     skip "部署目录可写" no_outbound;
     item "sudo 提权配置" true "";
     item "主机清单已配置" hasHosts "未添加任何目标主机"]
  else [item "接入方式已知" false ("未知接入方式: " +:+ env_Access env)].

Definition has_status (s : string) (it : TestItem) : bool := String.eqb (ti_Status it) s.

Definition buildTestReport (now : Time) (env : Environment) (target : option Target) : TestReport :=
  let items := test_items now env target in
  mkTestReport (env_Access env) items
    (Z.of_nat (length (filter (fun it => has_status "pass" it = true) items)))
    (Z.of_nat (length (filter (fun it => has_status "skip" it = false) items))) "" "".

(** The status a report gives the environment. *)
Definition test_status (report : TestReport) : string :=
  if existsb (has_status "fail") (tr_Items report) then EnvStatusFailed else EnvStatusVerified.

(** [json.Marshal] of a report. *)
Definition enc_item (it : TestItem) : json := JObj (concat [
  field _ "name" (ti_Name it); field _ "status" (ti_Status it);
  field_opt _ "detail" empty_string (ti_Detail it)]).
Definition enc_report (r : TestReport) : json := JObj (concat [
  field _ "access" (tr_Access r); [("items", JArr (enc_item <$> tr_Items r))];
  field int64 "passed" (tr_Passed r); field int64 "total" (tr_Total r);
  field _ "status" (tr_Status r); field _ "testedAt" (tr_TestedAt r)]).

(** * The service *)

Record ExecRequest := mkExecRequest { ex_Command : string; ex_Script : string }.

Module EnvironmentService.
Section Service.
Context {G : Gorm} {P : Platform} {O : ObjectStore} {T : JSONText}.

(** The collaborators: the counter of overrides and the store of agent
    operations. *)
Record Config := mkConfig {
  es_configCounter : bool;
  es_agentOps : option (AgentOp -> M Admin (Result AgentOp));
}.

Definition Create (e : Environment) : M Admin (Result Environment) :=
  on a_environments (fun now => Repository_Create now (e <| env_Status := deriveStatus e |>)).

Definition Get (id : UUID) : M Admin (Result Environment) := zoom a_environments (Repository_GetByID id).

Definition ListByComponent (componentID : UUID) (p : Pagination) : M Admin (Result (list Environment * Z)) :=
  zoom a_environments (EnvironmentRepository.FindByComponentID componentID p).

(** Back to unverified, the last result forgotten. *)
Definition unverified (e : Environment) : Environment :=
  e <| env_Status := EnvStatusConfiguredUnverified |> <| env_LastTestAt := None |> <| env_LastTestResult := "" |>.

Definition Update (id : UUID) (e : Environment) : M Admin (Result Environment) :=
  let e := e <| env_ID := id |> in
  let* previous := zoom a_environments (Repository_GetByID id) in
  let e := match previous with
           | Ok previous => if keyFieldChanged previous e then unverified e else e
           | Err _ => e
           end in
  on a_environments (fun now => Repository_Update now e).

Definition Delete (s : Config) (id : UUID) : M Admin (Result unit) :=
  let* _ := (if es_configCounter s then zoom a_configs (ComponentConfigRepository.CountByEnvironment id)
             else ret (Ok 0)) in
  void (on a_environments (fun now => Repository_Delete now id)).

(** What the test stores in the row. *)
Definition tested (now : Time) (env : Environment) (report : TestReport) : Environment :=
  env <| env_Status := tr_Status report |> <| env_LastTestAt := Some now |>
      <| env_LastTestResult := marshal_text (enc_report report) |>.

Definition Test (id : UUID) : M Admin (Result TestReport) :=
  try* env := zoom a_environments (Repository_GetByID id) in
  let* target := zoom a_targets (Repository_GetByID (env_TargetID env)) in
  let* now := now_ in
  let report := buildTestReport now env (match target with Ok t => Some t | Err _ => None end) in
  let report := report <| tr_Status := test_status report |> <| tr_TestedAt := FormatRFC3339 now |> in
  try* _ := on a_environments (fun at_ => Repository_Update at_ (tested now env report)) in
  ret (Ok report).

Definition no_command : GoError := EApi (WithError ErrBadRequest (Some (EFmt "command 或 script 至少其一必填" []))).
Definition not_wired : GoError := EApi (WithError ErrInternal (Some (EFmt "agent op store not wired" []))).

Definition exec_op (env : Environment) (in_ : ExecRequest) : AgentOp :=
  mkAgentOp uuid_Nil (env_TargetID env) (Some (env_ID env)) AgentOpExec AgentOpQueued
    (if empty_string (ex_Command in_) then ex_Script in_ else ex_Command in_) "" time_Zero time_Zero None.

Definition Exec (s : Config) (id : UUID) (in_ : ExecRequest) : M Admin (Result AgentOp) :=
  try* env := zoom a_environments (Repository_GetByID id) in
  if empty_string (ex_Command in_) && empty_string (ex_Script in_) then ret (Err no_command)
  else match es_agentOps s with
       | None => ret (Err not_wired)
       | Some create => create (exec_op env in_)
       end.
End Service.
End EnvironmentService.

(** * Groups *)

Module EnvironmentGroupService.
Section Service.
Context {G : Gorm} {P : Platform} {O : ObjectStore}.

Definition Create (g : EnvironmentGroup) : M Admin (Result EnvironmentGroup) :=
  on a_env_groups (fun now => Repository_Create now g).
Definition Get (id : UUID) : M Admin (Result EnvironmentGroup) := zoom a_env_groups (Repository_GetByID id).
Definition ListByComponent (componentID : UUID) (p : Pagination) : M Admin (Result (list EnvironmentGroup * Z)) :=
  zoom a_env_groups (EnvironmentGroupRepository.FindByComponent componentID p).
Definition Update (id : UUID) (g : EnvironmentGroup) : M Admin (Result EnvironmentGroup) :=
  on a_env_groups (fun now => Repository_Update now (g <| eg_ID := id |>)).

Definition not_empty (n : Z) : GoError :=
  EApi (DomainErrorWithReasons KindEnv StatusConflict 2
    "environment group is not empty; move or delete its environments first"
    [Sprintf "该分组下仍有 %d 个环境，请先移出或删除后再删除分组" [AInt n]]).

Definition Delete (id : UUID) : M Admin (Result unit) :=
  try* n := zoom a_environments (EnvironmentGroupRepository.CountEnvironments id) in
  if 0 <? n then ret (Err (not_empty n))
  else void (on a_env_groups (fun now => Repository_Delete now id)).
End Service.
End EnvironmentGroupService.
