(* ===== verification/Credentials.v ===== *)
(** Stored credentials: the envelope around a secret value
    ([internal/credentials/codec/codec.go]), the service
    ([internal/credentials/service/credential.go]) and what its handler lets
    in and out ([internal/credentials/models/credential.go]); and their reader,
    the dispatcher of agent operations ([cmd/hub/agentop_dispatcher.go]). *)
From stdpp Require Import base list strings gmap.
From Stdlib Require Import ZArith Lia.
From S2P Require Import Prelude Common Gorm Json GoLib RunnerProto RunStore PipelineStore TargetStore.
From S2P Require Import EditStore OrgStore SiteStore PermStore RateLimit World Admin.

Open Scope Z_scope.

(** [crypto/aes] with [cipher.NewGCM], and [rand.Reader]. *)
Class AESGCM : Type := {
  gcm_Seal : string -> string -> string -> string;          (* key, nonce, plaintext *)
  gcm_Open : string -> string -> string -> option string;   (* key, nonce, sealed *)
  nonce_Read : nat -> Result string;                        (* the n-th read of a nonce *)
}.

(** What is sealed under a key and a nonce opens to itself; a read that
    succeeds is full. *)
Class AESGCMLaws (C : AESGCM) : Prop := {
  Open_Seal : forall k n p, gcm_Open k n (gcm_Seal k n p) = Some p;
  nonce_full : forall i n, nonce_Read i = Ok n -> String.length n = 12%nat;
}.

(** * The codec *)

Definition prefix : string := "enc:v1:".

(** [aes.NewCipher]: the key selects AES-128, 192 or 256. *)
Definition NewCipher (k : string) : Result unit :=
  if existsb (Nat.eqb (String.length k)) [16; 24; 32]%nat then Ok tt
  else Err (ELib "crypto/aes: invalid key size").

Definition NonceSize : nat := 12.

Section Codec.
Context {C : AESGCM}.

(** The value to store; [nonce] is what [rand.Reader] answers. *)
Definition sealed_value (k nonce plaintext : string) : string :=
  prefix +:+ b64_encode (nonce +:+ gcm_Seal k nonce plaintext).

Definition Decrypt (k stored : string) : Result string :=
  if negb (HasPrefix stored prefix) then Ok stored
  else if empty_string k
  then Err (EFmt "credentials: cannot decrypt — CREDENTIAL_ENCRYPTION_KEY not set" [])
  else
    match b64_decode (TrimPrefix stored prefix) with
    | None => Err (ELib "illegal base64 data")
    | Some b =>
        ok* _ := NewCipher k in
        if (String.length b <? NonceSize)%nat then Err (EFmt "credentials: ciphertext too short" [])
        else
          match gcm_Open k (String.substring 0 NonceSize b)
                  (String.substring NonceSize (String.length b - NonceSize) b) with
          | None => Err (ELib "cipher: message authentication failed")
          | Some pt => Ok pt
          end
    end.
End Codec.

(** * The service *)

Module CredentialService.
Section Service.
Context {G : Gorm} {P : Platform} {O : ObjectStore} {C : AESGCM}.
(** CREDENTIAL_ENCRYPTION_KEY, read once; empty when not set. *)
Context (k : string).

(** One read of the random source. *)
Definition read_nonce : M Admin (Result string) :=
  fun s => (nonce_Read (a_uuids s), s <| a_uuids := S (a_uuids s) |>).

Definition Encrypt (plaintext : string) : M Admin (Result string) :=
  if empty_string k then ret (Ok plaintext)
  else match NewCipher k with
       | Err e => ret (Err e)
       | Ok _ => try* nonce := read_nonce in ret (Ok (sealed_value k nonce plaintext))
       end.

(** An undecryptable value is kept. *)
Definition decrypted (c : Credential) : Credential :=
  match Decrypt k (cred_Value c) with Ok v => c <| cred_Value := v |> | Err _ => c end.

(** The row is handed back with its stored value, through the pointer. *)
Definition Create (in_ : Credential) : M Admin (Result Credential) :=
  try* enc := Encrypt (cred_Value in_) in
  on a_credentials (fun now => Repository_Create now (in_ <| cred_Value := enc |>)).

Definition Get (id : UUID) : M Admin (Result Credential) :=
  try* c := zoom a_credentials (Repository_GetByID id) in ret (Ok (decrypted c)).

(** The value to save: an empty input keeps the current one. *)
Definition next_value (id : UUID) (in_ : Credential) : M Admin (Result string) :=
  if empty_string (cred_Value in_)
  then try* cur := zoom a_credentials (Repository_GetByID id) in ret (Ok (cred_Value cur))
  else Encrypt (cred_Value in_).

Definition Update (id : UUID) (in_ : Credential) : M Admin (Result Credential) :=
  try* v := next_value id in_ in
  on a_credentials (fun now => Repository_Update now (in_ <| cred_Value := v |> <| cred_ID := id |>)).

Definition Delete (id : UUID) : M Admin (Result unit) :=
  void (on a_credentials (fun now => Repository_Delete now id)).

Definition ListByScope (scope scopeID : string) (p : Pagination) : M Admin (Result (list Credential * Z)) :=
  try* page := zoom a_credentials (CredentialRepository.ListByScope scope scopeID p) in
  let '(items, total) := page in ret (Ok (decrypted <$> items, total)).
End Service.
End CredentialService.

(** * What a reply carries *)

Record CredentialDTO := mkCredentialDTO {
  dto_ID : UUID; dto_Name : string; dto_Type : string; dto_Scope : string; dto_ScopeID : string;
  dto_ValueSet : bool; dto_CreatedAt : Time; dto_UpdatedAt : Time }.

Definition ToDTO (c : Credential) : CredentialDTO :=
  mkCredentialDTO (cred_ID c) (cred_Name c) (cred_Type c) (cred_Scope c) (cred_ScopeID c)
    (negb (empty_string (cred_Value c))) (cred_CreatedAt c) (cred_UpdatedAt c).

Record CredentialInput := mkCredentialInput {
  ci_Name : string; ci_Type : string; ci_Scope : string; ci_ScopeID : string; ci_Value : string }.

(** The row a create or update body stands for. *)
Definition of_input (in_ : CredentialInput) : Credential :=
  mkCredential uuid_Nil time_Zero time_Zero None (ci_Name in_) (ci_Type in_) (ci_Scope in_)
    (ci_ScopeID in_) (ci_Value in_).

(** * The dispatcher of agent operations

    It assembles what a Runner is to do, with the decrypted credential of the
    environment where its access needs one, and sends it over the gateway. *)

Section AgentOpDispatcher.
Context {G : Gorm} {P : Platform} {O : ObjectStore} {C : AESGCM} {D : Dispatcher}.
(** CREDENTIAL_ENCRYPTION_KEY *)
Context (k : string).

Definition base_payload (op : AgentOp) : AgentOpDispatchPayload :=
  mkAgentOpDispatch (uuid_String (op_ID op)) (uuid_String (op_TargetID op)) "" (op_OpType op) (op_Detail op) "" "".

Definition in_environment (op : AgentOp) (envID : UUID) (namespace kubeconfig : string) : AgentOpDispatchPayload :=
  mkAgentOpDispatch (uuid_String (op_ID op)) (uuid_String (op_TargetID op)) (uuid_String envID) (op_OpType op)
    (op_Detail op) namespace kubeconfig.

Definition wrap_err {S A} (format : string) (args : list Arg) (m : M S (Result A)) : M S (Result A) :=
  let* r := m in ret (match r with Ok a => Ok a | Err e => Err (EWrap format args e) end).

Definition credential_of (env : Environment) : M Admin (Result string) :=
  let ref := ac_KubeCredRef (env_AccessConfig env) in
  if empty_string ref
  then ret (Err (EFmt "kubeconfig-access env %s has no KubeCredRef" [AStr (uuid_String (env_ID env))]))
  else match uuid_Parse ref with
       | None => ret (Err (EWrap "bad KubeCredRef %q: %w" [AStr ref] (ELib "invalid UUID")))
       | Some credID =>
           try* cred := wrap_err "resolve credential %s: %w" [AStr (uuid_String credID)]
             (zoom a_credentials (Repository_GetByID credID)) in
           ret (match Decrypt k (cred_Value cred) with
                | Ok plain => Ok plain
                | Err e => Err (EWrap "decrypt credential %s: %w" [AStr (uuid_String credID)] e)
                end)
       end.

Definition buildPayload (op : AgentOp) : M Admin (Result AgentOpDispatchPayload) :=
  match op_EnvID op with
  | None => ret (Ok (base_payload op))
  | Some envID =>
      try* env := wrap_err "resolve environment: %w" [] (zoom a_environments (Repository_GetByID envID)) in
      if negb (String.eqb (env_Access env) EnvAccessKubeconfig)
      then ret (Ok (in_environment op envID (env_Namespace env) ""))
      else
        try* plain := credential_of env in
        ret (Ok (in_environment op envID (env_Namespace env) plain))
  end.

(** The tables the dispatcher reads, and the gateway. *)
Record Wired := mkWired { wd_admin : Admin; wd_link : Link }.
#[global] Instance Wired_eta : Eta Wired := fun w => mkWired (wd_admin w) (wd_link w).

(** A payload that cannot be assembled is logged, and no error. *)
Definition Dispatch (op : AgentOp) : M Wired (option GoError) :=
  if negb (String.eqb (op_OpType op) AgentOpExec) && negb (String.eqb (op_OpType op) AgentOpUpgrade)
  then ret None
  else
    let* payload := zoom wd_admin (buildPayload op) in
    match payload with
    | Err _ => ret None
    | Ok p => zoom wd_link (d_send (op_TargetID op) (MessageAgentOp p))
    end.
End AgentOpDispatcher.
