(* ===== verification/Settings.v ===== *)
(** Platform settings ([internal/platform]): the change window and its
    handlers, the store of settings, the login mode
    ([internal/auth/loginmode.go]), and the gate [main] puts in front of every
    trigger. *)
From stdpp Require Import base list strings gmap pretty.
From Stdlib Require Import ZArith Lia Ascii.
From S2P Require Import Prelude Common Gorm Json GoLib RunnerProto RunStore PipelineStore TargetStore.
From S2P Require Import EditStore OrgStore PermStore RateLimit World Admin Permissions Middleware.
From S2P Require Import PipelineVersions.

Open Scope Z_scope.

(** * The change window ([window.go]) *)

Record ChangeWindow := mkChangeWindow {
  cw_Enabled : bool; cw_Start : string; cw_End : string; cw_Weekdays : list Z }.

#[global] Instance Codec_ChangeWindow : Codec ChangeWindow := {|
  zero := mkChangeWindow false "" "" [];
  enc := fun p => JObj (concat [
    field _ "enabled" (cw_Enabled p); field _ "start" (cw_Start p); field _ "end" (cw_End p);
    field_opt (@Codec_list Z int64) "weekdays" empty_list (cw_Weekdays p)]);
  dec := dec_struct (mkChangeWindow false "" "" [])
    (fields_ret mkChangeWindow <@> dec_field _ "enabled" <@> dec_field _ "start" <@>
      dec_field _ "end" <@> dec_field (@Codec_list Z int64) "weekdays");
  wf := fun p => @wf _ (@Codec_list Z int64) (cw_Weekdays p);
|}.
#[global] Instance CodecLaws_ChangeWindow : CodecLaws ChangeWindow.
Proof. split; [|done]. intros []; cbn [wf]; intros. struct_roundtrip. Qed.

(** One of the two numbers of a clock string. *)
Definition clock_number (s : string) (max : Z) : option Z :=
  match Atoi s with Some n => if (n <? 0) || (max <? n) then None else Some n | None => None end.

Definition parseHHMM (s : string) : Result Z :=
  let s := TrimSpace s in
  match Split ":"%char s with
  | [hh; mm] =>
      if negb (Nat.eqb (String.length hh) 2) || negb (Nat.eqb (String.length mm) 2)
      then Err (EFmt "%q 须为严格两位 HH:MM" [AStr s])
      else match clock_number hh 23 with
           | None => Err (EFmt "小时 %q 越界" [AStr hh])
           | Some h => match clock_number mm 59 with
                       | None => Err (EFmt "分钟 %q 越界" [AStr mm])
                       | Some m => Ok (h * 60 + m)
                       end
           end
  | _ => Err (EFmt "%q 须为严格两位 HH:MM" [AStr s])
  end.

Definition bad_weekday (d : Z) : bool := (d <? 0) || (6 <? d).

Definition Validate (cw : ChangeWindow) : option GoError :=
  match parseHHMM (cw_Start cw) with
  | Err e => Some (EWrap "开始时间非法: %w" [] e)
  | Ok _ =>
      match parseHHMM (cw_End cw) with
      | Err e => Some (EWrap "结束时间非法: %w" [] e)
      | Ok _ =>
          match find (fun d => bad_weekday d) (cw_Weekdays cw) with
          | Some d => Some (EFmt "weekday %d 越界（0=周日…6=周六）" [AInt d])
          | None => None
          end
      end
  end.

Definition weekdayAllowed (cw : ChangeWindow) (d : Z) : bool :=
  empty_list (cw_Weekdays cw) || existsb (Z.eqb d) (cw_Weekdays cw).

(** The clock reading is all the code uses of the instant: the weekday and the
    minute of the day. *)
Definition in_clock_window (cw : ChangeWindow) (weekday minutes : Z) : bool :=
  if negb (cw_Enabled cw) then true
  else match parseHHMM (cw_Start cw), parseHHMM (cw_End cw) with
       | Ok start, Ok end_ =>
           if start <=? end_ then
             if (minutes <? start) || (end_ <=? minutes) then false else weekdayAllowed cw weekday
           else if start <=? minutes then weekdayAllowed cw weekday
           else if minutes <? end_ then weekdayAllowed cw ((weekday + 6) mod 7)
           else false
       | _, _ => false
       end.

Definition InWindow (loc : Location) (cw : ChangeWindow) (t : Time) : bool :=
  in_clock_window cw (Weekday loc t) (HourOf loc t * 60 + MinuteOf loc t).

(** [encoding/json] on text: printing is [JSONText]'s, reading is this. *)
Class JSONReader : Type := parse_text : string -> RawJSON.

Section Text.
Context {T : JSONText} {X : JSONReader}.

(** The decoder's error is dropped: what it had filled in stays. *)
Definition ParseChangeWindow (raw : string) : ChangeWindow :=
  if empty_string raw then zero else (Unmarshal (parse_text raw)).1.

Definition EncodeChangeWindow (cw : ChangeWindow) : Result string :=
  match Validate cw with
  | Some e => Err e
  | None => Ok (marshal_text (enc cw))
  end.
End Text.

(** * The store of settings ([setting_store.go]) *)

(** The interface the platform handlers, the login mode and the gate share. *)
Class SettingStore (S : Type) : Type := {
  setting_Get : string -> M S (Result string);
  setting_Put : string -> string -> M S (Result unit);
  settings : S -> gmap string string;                 (* what is stored *)
}.

(** A read changes nothing and answers what is stored; a write that succeeds
    stores its value, and one that fails nothing. *)
Class SettingStoreLaws (S : Type) {I : SettingStore S} : Prop := {
  Get_spec : forall k s r s', setting_Get k s = (r, s') ->
    settings s' = settings s /\
    match r with
    | Ok v => settings s !! k = Some v
    | Err e => errors_Is e ErrRecordNotFound = true -> settings s !! k = None
    end;
  Put_spec : forall k v s r s', setting_Put k v s = (r, s') ->
    settings s' = match r with Ok _ => <[k := v]> (settings s) | Err _ => settings s end;
}.

(** [models.Setting] *)
Record Setting := mkSetting { set_Key : string; set_Value : string; set_UpdatedAt : Time }.

(** gorm on the table [platform_settings], whose primary key is the text
    [key]: [First] by key, and [Save], an upsert. *)
Class SettingsTable : Type := {
  KV : Type;
  kv_rows : KV -> gmap string Setting;
  kv_First : string -> M KV (Result Setting);
  kv_Save : Setting -> M KV (Result unit);
}.
Class SettingsTableLaws (K : SettingsTable) : Prop := {
  kv_First_spec : forall k t r t', kv_First k t = (r, t') ->
    kv_rows t' = kv_rows t /\
    match r with
    | Ok row => kv_rows t !! k = Some row
    | Err e => errors_Is e ErrRecordNotFound = true -> kv_rows t !! k = None
    end;
  kv_Save_spec : forall row t r t', kv_Save row t = (r, t') ->
    match r with
    | Ok _ => exists at_, kv_rows t' =
        <[set_Key row := mkSetting (set_Key row) (set_Value row) at_]> (kv_rows t)
    | Err _ => kv_rows t' = kv_rows t
    end;
}.

Section GormSettingStore.
Context {K : SettingsTable}.

Definition Get (key : string) : M KV (Result string) :=
  try* row := kv_First key in ret (Ok (set_Value row)).
Definition Put (key value : string) : M KV (Result unit) := kv_Save (mkSetting key value time_Zero).

#[global] Instance GormSettingStore : SettingStore KV := {|
  setting_Get := Get; setting_Put := Put; settings := fun t => set_Value <$> kv_rows t;
|}.
End GormSettingStore.

(** * The window as a setting *)

Definition SettingKeyChangeWindow : string := "change_window".

Section Window.
Context {S : Type} {I : SettingStore S} {T : JSONText} {X : JSONReader} {P : Platform}.

Definition LoadChangeWindow : M S (Result ChangeWindow) :=
  let* raw := setting_Get SettingKeyChangeWindow in
  ret (match raw with
       | Err e => if errors_Is e ErrRecordNotFound then Ok zero else Err e
       | Ok raw => Ok (ParseChangeWindow raw)
       end).

Definition SaveChangeWindow (cw : ChangeWindow) : M S (Result unit) :=
  match EncodeChangeWindow cw with
  | Err e => ret (Err e)
  | Ok v => setting_Put SettingKeyChangeWindow v
  end.

(** The handlers; [body] is the request's document. *)
Definition GetChangeWindow : M S Response :=
  let* r := LoadChangeWindow in
  ret (match r with
       | Err e => Fail StatusInternalServerError e
       | Ok cw => OK_ (Marshal cw)
       end).

Definition PutChangeWindow (body : RawJSON) : M S Response :=
  match UnmarshalE (A := ChangeWindow) body with
  | Err e => ret (Fail StatusBadRequest e)
  | Ok cw =>
      let* r := SaveChangeWindow cw in
      ret (match r with
           | Err e => Fail StatusBadRequest e
           | Ok _ => OK_ (Marshal cw)
           end)
  end.

(** The gate of [main], with its clock: an unreadable setting lets the trigger
    through. *)
Definition weekday_list (l : list Z) : string :=
  "[" +:+ String.concat " " (pretty <$> l) +:+ "]".
Definition outside_window (cw : ChangeWindow) : GoError :=
  EApi (DomainErrorWithReasons KindPipeline StatusConflict 6 "outside the change window"
    [Sprintf "当前不在变更窗口内（%s–%s，星期 %v），触发已被平台变更窗口拦截"
       [AStr (cw_Start cw); AStr (cw_End cw); AStr (weekday_list (cw_Weekdays cw))]]).

Definition change_window_gate (clock : M S Time) : M S (option GoError) :=
  let* r := LoadChangeWindow in
  match r with
  | Err _ => ret None
  | Ok cw =>
      let* now := clock in
      ret (if InWindow Local cw now then None else Some (outside_window cw))
  end.
End Window.

(** * The login mode ([auth/loginmode.go]) *)

Definition loginModeKey : string := "auth.loginMode".
Definition DefaultLoginMode : string := "default".

Module SettingLoginMode.
(** The service of one process: its store and its cache. *)
Record State (S : Type) := mkState { lm_store : S; lm_cache : string }.
Arguments mkState {S}. Arguments lm_store {S}. Arguments lm_cache {S}.
#[export] Instance State_eta {S} : Eta (State S) := fun s => mkState (lm_store s) (lm_cache s).

Section Service.
Context {S : Type} {I : SettingStore S}.

Definition NewSettingLoginMode (seed : string) : string := if empty_string seed then DefaultLoginMode else seed.

Definition Get (seed : string) : M (State S) (Result string) :=
  let* s := get in
  if negb (empty_string (lm_cache s)) then ret (Ok (lm_cache s))
  else
    let* r := zoom lm_store (setting_Get loginModeKey) in
    match r with
    | Err e => if errors_Is e ErrRecordNotFound then ret (Ok seed) else ret (Err e)
    | Ok v =>
        let v := if empty_string v then seed else v in
        let* _ := modify (fun s => s <| lm_cache := v |>) in ret (Ok v)
    end.

Definition invalid_mode (mode : string) : GoError :=
  EFmt "auth: invalid login mode %q (want default|keycloak)" [AStr mode].

Definition Set_ (mode : string) : M (State S) (Result unit) :=
  if negb (String.eqb mode "default") && negb (String.eqb mode "keycloak") then ret (Err (invalid_mode mode))
  else
    try* _ := zoom lm_store (setting_Put loginModeKey mode) in
    let* _ := modify (fun s => s <| lm_cache := mode |>) in ret (Ok tt).
End Service.
End SettingLoginMode.
