(* ===== verification/LocalStorage.v ===== *)
(** The disk backend of the artifact store
    ([internal/artifact/storage/local.go]): signed URLs that lead back to the
    hub, the route that serves them, deletion and listing.  It is an
    [ObjectStore], so what is proved of the collectors holds over it.

    Of the standard library, HMAC, path escaping and the lexical cleaning of
    paths are written out; the files themselves are [OSFiles]. *)
From stdpp Require Import base list strings gmap pretty sorting.
From Stdlib Require Import ZArith Lia Ascii.
From S2P Require Import Prelude Common Gorm Json GoLib RunnerProto RunStore PipelineStore TargetStore.
From S2P Require Import EditStore OrgStore SiteStore PermStore RateLimit World Admin Artifacts.

Open Scope Z_scope.

(** * [crypto/hmac] over SHA-256 *)

Definition string_of_bytes (l : list Z) : string := foldr (fun b s => String (char_of b) s) "" l.
Fixpoint xor_with (b : Z) (s : string) : string :=
  match s with "" => "" | String c s' => String (char_of (Z.lxor (byte_of c) b)) (xor_with b s') end.
Definition zero_pad (n : nat) (s : string) : string := s +:+ string_of_bytes (repeat 0 (n - String.length s)).
Definition hmac_key (key : string) : string :=
  zero_pad 64 (if (64 <? String.length key)%nat then string_of_bytes (Sha256.Sum256 key) else key).
Definition HMAC_SHA256 (key msg : string) : list Z :=
  Sha256.Sum256 (xor_with 92 (hmac_key key) +:+ string_of_bytes (Sha256.Sum256 (xor_with 54 (hmac_key key) +:+ msg))).

Example HMAC_test_case_2 : hex_encode (HMAC_SHA256 "Jefe" "what do ya want for nothing?") =
  "5bdcc146bf60754e6a042426089575c75a003f089d2739839dec58b964ec3843".
Proof. vm_compute. reflexivity. Qed.

(** * [url.PathEscape] and [url.PathUnescape] *)

Definition alphanum (b : Z) : bool :=
  ((48 <=? b) && (b <=? 57)) || ((65 <=? b) && (b <=? 90)) || ((97 <=? b) && (b <=? 122)).

(** Besides letters and digits: - _ . ~ $ & + : = @ *)
Definition path_safe (c : ascii) : bool :=
  let b := byte_of c in alphanum b || existsb (Z.eqb b) [45; 95; 46; 126; 36; 38; 43; 58; 61; 64].

Definition upper_hex (n : Z) : ascii := char_of (if n <? 10 then 48 + n else 55 + n).
Definition percent : ascii := "%"%char.

Fixpoint PathEscape (s : string) : string :=
  match s with
  | "" => ""
  | String c s' =>
      if path_safe c then String c (PathEscape s')
      else String percent (String (upper_hex (byte_of c / 16)) (String (upper_hex (byte_of c mod 16)) (PathEscape s')))
  end.

Definition unhex (c : ascii) : option Z :=
  let b := byte_of c in
  if (48 <=? b) && (b <=? 57) then Some (b - 48)
  else if (97 <=? b) && (b <=? 102) then Some (b - 87)
  else if (65 <=? b) && (b <=? 70) then Some (b - 55)
  else None.

Fixpoint PathUnescape (s : string) : option string :=
  match s with
  | "" => Some ""
  | String c s' =>
      if Ascii.eqb c percent then
        match s' with
        | String h (String l s'') =>
            match unhex h, unhex l with
            | Some h, Some l => String (char_of (16 * h + l)) <$> PathUnescape s''
            | _, _ => None
            end
        | _ => None
        end
      else String c <$> PathUnescape s'
  end.

(** * [path/filepath] on a rooted path *)

(** The elements after ".." and "." are resolved, outermost first. *)
Definition clean_step (acc : list string) (part : string) : list string :=
  if empty_string part || String.eqb part "." then acc
  else if String.eqb part ".." then removelast acc
  else acc ++ [part].
Definition Clean (path : string) : string :=
  "/" +:+ String.concat "/" (foldl clean_step [] (Split "/"%char path)).
Definition Join (root key : string) : string := Clean (root +:+ "/" +:+ key).

(** [filepath.Base] and [filepath.Rel] of a path the walk answers. *)
Definition Base (path : string) : string := default "" (last (Split "/"%char path)).
Definition Rel (root path : string) : string :=
  if String.eqb path root then "." else TrimPrefix path (root +:+ "/").

(** * Files *)

(** One call of the walk's function. *)
Inductive WalkEntry : Type :=
| WalkError (e : GoError)
| WalkDirectory
| WalkFile (path : string) (size : Result Z).

Class OSFiles : Type := {
  FS : Type;
  os_IsNotExist : GoError -> bool;
  os_Remove : string -> M FS (option GoError);
  os_Open : string -> M FS (Result string);
  os_Stat : string -> M FS (Result unit);
  os_MkdirAll : string -> M FS (Result unit);
  os_Write : string -> string -> M FS (Result unit);          (* Create, then ReadFrom *)
  os_Rename : string -> string -> M FS (Result unit);
  os_WalkDir : string -> FS -> list WalkEntry;
  os_files : FS -> list string;                               (* the paths that hold a file *)
}.

(** * The driver *)

Record Local_ := mkLocal { l_root : string; l_secret : string; l_publicBase : string }.

Definition storageRoute : string := "/api/v1/storage/".
Definition RoutePrefixPattern : string := storageRoute +:+ "*key".

(** [strings.TrimRight(publicBase, "/")] *)
Fixpoint TrimRightSlash (s : string) : string :=
  match s with
  | "" => ""
  | String c s' =>
      let t := TrimRightSlash s' in
      if empty_string t && Ascii.eqb c "/"%char then "" else String c t
  end.

(** [abs] is [filepath.Abs] of the configured root. *)
Definition NewLocal (abs signSecret publicBase : string) : Local_ :=
  mkLocal abs signSecret (TrimRightSlash publicBase).

Section Signing.
Context (l : Local_).

Definition payload (method key : string) (exp : Z) : string :=
  Sprintf "%d|%s|%s" [AInt exp; AStr method; AStr key].
Definition sign (method key : string) (exp : Z) : string :=
  hex_encode (HMAC_SHA256 (l_secret l) (payload method key exp)).

(** When a URL minted now stops working. *)
Definition expiry_of (now : Time) (expiry : Duration) : Z := unix_sec (now + expiry).

Definition signed_url (method key : string) (exp : Z) : string :=
  Sprintf "%s%s%s?method=%s&exp=%d&sig=%s" [AStr (l_publicBase l); AStr storageRoute; AStr (PathEscape key);
    AStr method; AInt exp; AStr (sign method key exp)].

Definition presign (now : Time) (method key : string) (expiry : Duration) : Result string :=
  match ValidateKey key with
  | Some e => Err e
  | None => Ok (signed_url method key (expiry_of now expiry))
  end.

(** [exp] and [sig] are the query parameters. *)
Definition verify (now : Time) (method key exp sig : string) : bool :=
  match Atoi exp with
  | None => false
  | Some e =>
      if e <? unix_sec now then false
      else if empty_string sig then false
      else String.eqb (sign method key e) sig
  end.

Definition resolve (key : string) : Result string :=
  match ValidateKey key with
  | Some e => Err e
  | None =>
      let p := Join (l_root l) key in
      if negb (HasPrefix p (l_root l +:+ "/")) then Err ErrBadKey else Ok p
  end.
End Signing.

(** * The route *)

(** What the handler reads off the request: [c.Param("key")] has a leading
    slash. *)
Record StorageRequest := mkStorageRequest {
  sr_Method : string; sr_Param : string; sr_exp : string; sr_sig : string; sr_Body : string }.

Inductive Served : Type :=
| Text (status : Z) (message : string)
| Content (name content : string)
| Status (status : Z).

Definition StatusMethodNotAllowed : Z := 405.

(** The key a request names. *)
Definition request_key (param : string) : string :=
  let key := TrimPrefix param "/" in default key (PathUnescape key).

Section Driver.
Context {F : OSFiles} (l : Local_).

(** [if err := m; err != nil { c.String(500, text); return }] *)
Definition or_fail (m : M FS (Result unit)) (text : string) (k : M FS Served) : M FS Served :=
  let* r := m in
  match r with Ok _ => k | Err _ => ret (Text StatusInternalServerError text) end.

Definition download (path : string) : M FS Served :=
  let* f := os_Open path in
  match f with
  | Err _ => ret (Text StatusNotFound "object not found")
  | Ok content => or_fail (os_Stat path) "stat failed" (ret (Content (Base path) content))
  end.

(** [filepath.Dir] of a cleaned path. *)
Definition Dir (path : string) : string :=
  "/" +:+ String.concat "/" (foldl clean_step [] (removelast (Split "/"%char path))).

Definition upload (path body : string) : M FS Served :=
  or_fail (os_MkdirAll (Dir path)) "mkdir failed"
    (or_fail (os_Write (path +:+ ".part") body) "write failed"
      (or_fail (os_Rename (path +:+ ".part") path) "rename failed" (ret (Status StatusOK)))).

Definition GinHandler (now : Time) (rq : StorageRequest) : M FS Served :=
  let key := request_key (sr_Param rq) in
  match ValidateKey key with
  | Some _ => ret (Text StatusBadRequest "invalid key")
  | None =>
      if negb (verify l now (sr_Method rq) key (sr_exp rq) (sr_sig rq))
      then ret (Text StatusForbidden "invalid or expired signature")
      else match resolve l key with
           | Err _ => ret (Text StatusBadRequest "invalid key")
           | Ok path =>
               if String.eqb (sr_Method rq) "GET" then download path
               else if String.eqb (sr_Method rq) "PUT" then upload path (sr_Body rq)
               else ret (Text StatusMethodNotAllowed "method not allowed")
           end
  end.

(** * The object store *)

Definition Delete (key : string) : M FS (option GoError) :=
  match ValidateKey key with
  | Some e => ret (Some e)
  | None =>
      let* err := os_Remove (Join (l_root l) key) in
      ret (match err with
           | Some e => if os_IsNotExist e then None else Some e
           | None => None
           end)
  end.

Record ObjectInfo := mkObjectInfo { oi_Key : string; oi_Size : Z }.

(** The walk's function over the entries. *)
Fixpoint walk (limit : Z) (out : list ObjectInfo) (entries : list WalkEntry) : Result (list ObjectInfo * bool) :=
  match entries with
  | [] => Ok (out, false)
  | WalkError e :: rest => if os_IsNotExist e then walk limit out rest else Err e
  | WalkDirectory :: rest => walk limit out rest
  | WalkFile path size :: rest =>
      if HasSuffix (Base path) ".part" then walk limit out rest
      else if (0 <? limit) && (Z.of_nat (length out) =? limit) then Ok (out, true)
      else match size with
           | Err e => Err e
           | Ok n => walk limit (out ++ [mkObjectInfo (Rel (l_root l) path) n]) rest
           end
  end.

Definition info_le (a b : ObjectInfo) : Prop := String.le (oi_Key a) (oi_Key b).
#[global] Instance info_le_dec : RelDecision info_le.
Proof. intros a b. unfold info_le. apply _. Defined.

Definition TrimSuffixSlash (s : string) : string :=
  if HasSuffix s "/" then String.substring 0 (String.length s - 1) s else s.

Definition ListObjects (prefix : string) (limit : Z) (fs : FS) : Result (list ObjectInfo * bool) :=
  ok* root := (if empty_string prefix then Ok (l_root l) else resolve l (TrimSuffixSlash prefix)) in
  ok* found := walk limit [] (os_WalkDir root fs) in
  let '(out, truncated) := found in Ok (merge_sort info_le out, truncated).

(** The store the artifact services see: the files and the clock. *)
Record LocalState := mkLocalState { ls_now : Time; ls_fs : FS }.

#[global] Instance local_store : ObjectStore := {|
  Bucket := LocalState;
  bucket_keys := fun b => Rel (l_root l) <$> os_files (ls_fs b);
  store_Delete := fun k b => let '(r, fs) := Delete k (ls_fs b) in (r, mkLocalState (ls_now b) fs);
  store_ListObjects := fun prefix limit b =>
    (ok* found := ListObjects prefix limit (ls_fs b) in Ok (oi_Key <$> found.1, found.2), b);
  store_PresignDownload := fun k expiry b => (presign l (ls_now b) "GET" k expiry, b);
  store_PresignUpload := fun k expiry b => (presign l (ls_now b) "PUT" k expiry, b);
|}.
End Driver.
