(* ===== verification/Identity.v ===== *)
(** Keycloak and the organizations kept in step with it: the Admin REST client
    ([internal/keycloak]) with its cached service token, groups, users and the
    grants of a login, and the organizations ([internal/org/service/org.go]),
    each a row, a service tree and carrier groups in Keycloak.

    The server is outside the repository: [HTTP] is one exchange with it, a
    parameter.  A request's context carries no more than a deadline; when it
    passes, the exchange fails. *)
From stdpp Require Import base list strings gmap pretty sorting.
From Stdlib Require Import ZArith Lia Ascii.
From S2P Require Import Prelude Common Gorm Json GoLib RunnerProto RunStore PipelineStore TargetStore.
From S2P Require Import EditStore OrgStore SiteStore PermStore RateLimit World Admin LocalStorage.

Open Scope Z_scope.

(** * Text *)

(** The text around the first occurrence of a separator. *)
Fixpoint cut_at (sep s : string) : option (string * string) :=
  if HasPrefix s sep then Some ("", String.substring (String.length sep) (String.length s - String.length sep) s)
  else match s with
       | "" => None
       | String c s' => match cut_at sep s' with Some (a, b) => Some (String c a, b) | None => None end
       end.

(** [strings.Contains], [strings.Replace] of one occurrence. *)
Definition Contains (s sub : string) : bool := match cut_at sub s with Some _ => true | None => false end.
Definition Replace1 (s old new : string) : string :=
  match cut_at old s with Some (a, b) => a +:+ new +:+ b | None => s end.

(** What follows the last occurrence of [sep]: [strings.LastIndex] and
    [strings.TrimPrefix]. *)
Fixpoint after_last (sep s : string) : option string :=
  match s with
  | "" => if HasPrefix s sep then Some "" else None
  | String c s' =>
      match after_last sep s' with
      | Some r => Some r
      | None => if HasPrefix s sep then Some (TrimPrefix s sep) else None
      end
  end.

(** [url.QueryEscape] *)
Definition query_safe (c : ascii) : bool := alphanum (byte_of c) || existsb (Z.eqb (byte_of c)) [45; 95; 46; 126].
Fixpoint QueryEscape (s : string) : string :=
  match s with
  | "" => ""
  | String c s' =>
      if query_safe c then String c (QueryEscape s')
      else if Ascii.eqb c " "%char then String "+"%char (QueryEscape s')
      else String percent (String (upper_hex (byte_of c / 16)) (String (upper_hex (byte_of c mod 16)) (QueryEscape s')))
  end.

(** [url.Values.Encode] of values listed by key. *)
Definition Encode (q : list (string * string)) : string :=
  String.concat "&" ((fun kv => QueryEscape kv.1 +:+ "=" +:+ QueryEscape kv.2) <$> q).

(** * Exchanges *)

Inductive HttpBody : Type :=
| NoContent
| Form (values : list (string * string))
| JsonBody (v : json).

Record HttpRequest := mkHttpRequest {
  hr_Method : string; hr_URL : string; hr_Bearer : option string; hr_Body : HttpBody }.

Record HttpResponse := mkHttpResponse { hp_Status : Z; hp_Location : string; hp_Body : RawJSON }.

Class HTTP : Type := {
  Realm : Type;
  http_Do : HttpRequest -> M Realm (Result HttpResponse);
}.

Definition StatusNoContent : Z := 204.

(** * Representations *)

Record tokenResp := mkTokenResp { tr_AccessToken : string; tr_ExpiresIn : Z }.
#[global] Instance Codec_tokenResp : Codec tokenResp := {|
  zero := mkTokenResp "" 0;
  enc := fun p => JObj (concat [field _ "access_token" (tr_AccessToken p); field int64 "expires_in" (tr_ExpiresIn p)]);
  dec := dec_struct (mkTokenResp "" 0) (fields_ret mkTokenResp <@> dec_field _ "access_token" <@> dec_field int64 "expires_in");
  wf := fun p => in_range 64 (tr_ExpiresIn p) = true;
|}.

Record User := mkUser {
  us_ID : string; us_Username : string; us_Email : string; us_Enabled : bool; us_RequiredActions : list string }.
#[global] Instance Codec_User : Codec User := {|
  zero := mkUser "" "" "" false [];
  enc := fun p => JObj (concat [field _ "id" (us_ID p); field _ "username" (us_Username p);
    field_opt _ "email" empty_string (us_Email p); field _ "enabled" (us_Enabled p);
    field_opt _ "requiredActions" empty_list (us_RequiredActions p)]);
  dec := dec_struct (mkUser "" "" "" false [])
    (fields_ret mkUser <@> dec_field _ "id" <@> dec_field _ "username" <@> dec_field _ "email" <@>
      dec_field _ "enabled" <@> dec_field _ "requiredActions");
  wf := fun _ => True;
|}.

Record Group := mkGroup { gr_ID : string; gr_Name : string; gr_Path : string }.
#[global] Instance Codec_Group : Codec Group := {|
  zero := mkGroup "" "" "";
  enc := fun p => JObj (concat [field _ "id" (gr_ID p); field _ "name" (gr_Name p); field _ "path" (gr_Path p)]);
  dec := dec_struct (mkGroup "" "" "")
    (fields_ret mkGroup <@> dec_field _ "id" <@> dec_field _ "name" <@> dec_field _ "path");
  wf := fun _ => True;
|}.

Record NewUser := mkNewUser {
  nu_Username : string; nu_Email : string; nu_Enabled : bool; nu_RequiredActions : list string;
  nu_InitialPassword : string; nu_Groups : list string }.

(** A nil field is left untouched, says its comment. *)
Record UserPatch := mkUserPatch { up_Enabled : option bool; up_Email : option string }.

Record kcCredential := mkKcCredential { cr_Type : string; cr_Value : string; cr_Temporary : bool }.
Definition enc_credential (c : kcCredential) : json := JObj (concat [
  field _ "type" (cr_Type c); field _ "value" (cr_Value c); field _ "temporary" (cr_Temporary c)]).

Record kcUserRep := mkKcUserRep {
  kr_Username : string; kr_Email : string; kr_Enabled : bool; kr_RequiredActions : list string;
  kr_Groups : list string; kr_Credentials : list kcCredential }.
#[global] Instance kcUserRep_eta : Eta kcUserRep := fun r =>
  mkKcUserRep (kr_Username r) (kr_Email r) (kr_Enabled r) (kr_RequiredActions r) (kr_Groups r) (kr_Credentials r).
Definition empty_rep : kcUserRep := mkKcUserRep "" "" false [] [] [].

(** [json.Marshal] of it: [enabled] has no omitempty. *)
Definition enc_userRep (r : kcUserRep) : json := JObj (concat [
  field_opt _ "username" empty_string (kr_Username r); field_opt _ "email" empty_string (kr_Email r);
  field _ "enabled" (kr_Enabled r); field_opt _ "requiredActions" empty_list (kr_RequiredActions r);
  field_opt _ "groups" empty_list (kr_Groups r);
  (if empty_list (kr_Credentials r) then [] else [("credentials", JArr (enc_credential <$> kr_Credentials r))])]).

Definition ErrNotFoundKC : GoError := ESentinel "keycloak: entity not found".
Definition ErrConflictKC : GoError := ESentinel "keycloak: entity already exists".

Definition mapAdminStatus (status : Z) : option GoError :=
  if (status =? StatusOK) || (status =? StatusCreated) || (status =? StatusNoContent) then None
  else if status =? StatusNotFound then Some ErrNotFoundKC
  else if status =? StatusConflict then Some ErrConflictKC
  else Some (EFmt "keycloak: admin call %d: %s" [AInt status; AStr ""]).

Definition or_status {A} (status : Z) (a : A) : Result A :=
  match mapAdminStatus status with Some e => Err e | None => Ok a end.

(** User attributes: a map of lists, printed in the order of the keys. *)
Definition Attributes : Type := gmap string (list string).
Definition attr_le (a b : string * list string) : Prop := String.le a.1 b.1.
#[global] Instance attr_le_dec : RelDecision attr_le.
Proof. intros a b. unfold attr_le. apply _. Defined.
Definition enc_attributes (m : Attributes) : json :=
  JObj ((fun kv => (kv.1, enc kv.2)) <$> merge_sort attr_le (map_to_list m)).
Definition dec_attributes (v : json) : Attributes * bool :=
  match v with
  | JObj kvs => (foldl (fun m kv => <[kv.1 := (dec (A := list string) kv.2).1]> m) ∅ kvs,
                 forallb (fun kv => (dec (A := list string) kv.2).2) kvs)
  | JNull => (∅, true)
  | _ => (∅, false)
  end.
#[global] Instance Codec_Attributes : Codec Attributes := {|
  zero := ∅; enc := enc_attributes; dec := dec_attributes; wf := fun _ => True;
|}.

Record userAttributes := mkUserAttributes { ua_Attributes : Attributes }.
#[global] Instance Codec_userAttributes : Codec userAttributes := {|
  zero := mkUserAttributes ∅;
  enc := fun p => JObj (field _ "attributes" (ua_Attributes p));
  dec := dec_struct (mkUserAttributes ∅) (fields_ret mkUserAttributes <@> dec_field _ "attributes");
  wf := fun _ => True;
|}.

(** * The client *)

Record Client := mkClient {
  AdminBaseURL : string; TokenURL : string; ClientID : string; ClientSecret : string }.

Definition NewClient (issuer clientID clientSecret : string) : Client :=
  let adminBase := Replace1 issuer "/realms/" "/admin/realms/" in
  let adminBase := if String.eqb adminBase issuer then TrimRightSlash issuer +:+ "/admin/realms/sdp" else adminBase in
  mkClient adminBase (TrimRightSlash issuer +:+ "/protocol/openid-connect/token") clientID clientSecret.

Section Client.
Context {H : HTTP}.

(** The server, the clock and the cached token. *)
Record KC := mkKC { kc_now : Time; kc_realm : Realm; cachedToken : string; cachedExp : Time }.
#[global] Instance KC_eta : Eta KC := fun s => mkKC (kc_now s) (kc_realm s) (cachedToken s) (cachedExp s).

Context (c : Client).

Definition Do (rq : HttpRequest) : M KC (Result HttpResponse) := zoom kc_realm (http_Do rq).

Definition token_request : HttpRequest := mkHttpRequest "POST" (TokenURL c) None
  (Form [("grant_type", "client_credentials"); ("client_id", ClientID c); ("client_secret", ClientSecret c)]).

Definition token : M KC (Result string) :=
  let* s := get in
  if negb (empty_string (cachedToken s)) && (kc_now s <? cachedExp s) then ret (Ok (cachedToken s))
  else
    try* resp := Do token_request in
    if negb (hp_Status resp =? StatusOK)
    then ret (Err (EFmt "keycloak: token endpoint %d: %s" [AInt (hp_Status resp); AStr ""]))
    else
      match UnmarshalE (A := tokenResp) (hp_Body resp) with
      | Err e => ret (Err e)
      | Ok tr =>
          if empty_string (tr_AccessToken tr)
          then ret (Err (EFmt "keycloak: token endpoint returned empty access_token" []))
          else
            let* _ := modify (fun s => s <| cachedToken := tr_AccessToken tr |>
              <| cachedExp := kc_now s + wrap64 (wrap64 (tr_ExpiresIn tr * Second) - 30 * Second) |>) in
            ret (Ok (tr_AccessToken tr))
      end.

(** An exchange with the service token. *)
Definition authorized (method path : string) (body : HttpBody) : M KC (Result HttpResponse) :=
  try* tok := token in Do (mkHttpRequest method (AdminBaseURL c +:+ path) (Some tok) body).

Definition searched_groups (name : string) : M KC (Result (list Group)) :=
  try* resp := authorized "GET" ("/groups?search=" +:+ QueryEscape name +:+ "&exact=true") NoContent in
  if negb (hp_Status resp =? StatusOK)
  then ret (Err (EFmt "keycloak: list groups %d: %s" [AInt (hp_Status resp); AStr ""]))
  else ret (UnmarshalE (A := list Group) (hp_Body resp)).

Definition at_path (name : string) (g : Group) : bool := String.eqb (gr_Path g) ("/" +:+ name).

Definition groupExists (name : string) : M KC (Result bool) :=
  try* groups := searched_groups name in ret (Ok (existsb (at_path name) groups)).

Definition getGroupIDByName (name : string) : M KC (Result string) :=
  try* groups := searched_groups name in
  ret (match find (fun g => at_path name g) groups with
       | Some g => Ok (gr_ID g)
       | None => Err ErrNotFoundKC
       end).

Definition GetGroupByName (path : string) : M KC (Result string) := getGroupIDByName (TrimPrefix path "/").

(** The identifier and whether the server reported a conflict. *)
Definition doCreateGroup (name : string) : M KC (Result (string * bool)) :=
  try* resp := authorized "POST" "/groups" (JsonBody (JObj [("name", JStr name); ("path", JStr ("/" +:+ name))])) in
  ret (if hp_Status resp =? StatusCreated then Ok (default "" (after_last "/groups/" (hp_Location resp)), false)
       else if hp_Status resp =? StatusConflict then Ok ("", true)
       else Err (EFmt "keycloak: create group %q %d: %s" [AStr name; AInt (hp_Status resp); AStr ""])).

Definition EnsureGroup (groupPath : string) : M KC (Result unit) :=
  let name := TrimPrefix groupPath "/" in
  if empty_string name then ret (Err (EFmt "keycloak: empty group path" []))
  else
    try* exists_ := groupExists name in
    if exists_ : bool then ret (Ok tt)
    else try* _ := doCreateGroup name in ret (Ok tt).

Definition CreateSubGroup (parentPath name : string) : M KC (Result string) :=
  try* parentID := getGroupIDByName (TrimPrefix parentPath "/") in
  try* resp := authorized "POST" ("/groups/" +:+ PathEscape parentID +:+ "/children") (JsonBody (JObj [("name", JStr name)])) in
  if hp_Status resp =? StatusCreated then
    match after_last "/children/" (hp_Location resp) with
    | Some id => ret (Ok id)
    | None => getGroupIDByName name
    end
  else if hp_Status resp =? StatusConflict then getGroupIDByName name
  else ret (Err (EFmt "keycloak: create subgroup %q under %q %d: %s"
                   [AStr name; AStr parentPath; AInt (hp_Status resp); AStr ""])).

(** ** [adminCall] *)

(** [out] is decoded from a non-empty 200 reply, and stays zero otherwise. *)
Definition adminCall {A} {CA : Codec A} (method path : string) (in_ : option json) : M KC (Result (Z * string * A)) :=
  try* resp := authorized method path (match in_ with Some v => JsonBody v | None => NoContent end) in
  if (hp_Status resp =? StatusOK) && negb (raw_len0 (hp_Body resp)) then
    ret (match UnmarshalE (A := A) (hp_Body resp) with
         | Ok a => Ok (hp_Status resp, hp_Location resp, a)
         | Err e => Err e
         end)
  else ret (Ok (hp_Status resp, hp_Location resp, zero)).

(** A call whose reply is not decoded. *)
Definition adminDo (method path : string) (in_ : option json) : M KC (Result (Z * string)) :=
  try* resp := authorized method path (match in_ with Some v => JsonBody v | None => NoContent end) in
  ret (Ok (hp_Status resp, hp_Location resp)).

Definition admin_get {A} {CA : Codec A} (path : string) : M KC (Result A) :=
  try* r := adminCall (A := A) "GET" path None in let '(status, _, a) := r in ret (or_status status a).

Definition admin_write (method path : string) (in_ : option json) : M KC (Result unit) :=
  try* r := adminDo method path in_ in ret (or_status r.1 tt).

Definition required {A} (what : string) : M KC (Result A) := ret (Err (EFmt ("keycloak: " +:+ what) [])).

(** ** Groups and users *)

Definition DeleteGroup (id : string) : M KC (Result unit) :=
  if empty_string id then required "group id is required"
  else admin_write "DELETE" ("/groups/" +:+ PathEscape id) None.

Definition GetUserByName (username : string) : M KC (Result User) :=
  if empty_string username then required "username is required"
  else
    try* users := admin_get (A := list User) ("/users?username=" +:+ QueryEscape username +:+ "&exact=true") in
    ret (match users with [] => Err ErrNotFoundKC | u :: _ => Ok u end).

Definition GetUserAttributes (id : string) : M KC (Result Attributes) :=
  if empty_string id then required "user id is required"
  else
    try* rep := admin_get (A := userAttributes) ("/users/" +:+ PathEscape id) in
    ret (Ok (ua_Attributes rep)).

Definition SetUserAttributes (id : string) (attrs : Attributes) : M KC (Result unit) :=
  if empty_string id then required "user id is required"
  else admin_write "PUT" ("/users/" +:+ PathEscape id) (Some (enc (mkUserAttributes attrs))).

Definition DeleteUser (id : string) : M KC (Result unit) :=
  if empty_string id then required "user id is required"
  else admin_write "DELETE" ("/users/" +:+ PathEscape id) None.

(** ** The directory ([directory.go]) *)

Definition positive_param (name : string) (n : Z) : list (string * string) := if 0 <? n then [(name, pretty n)] else [].
Definition with_query (path : string) (q : list (string * string)) : string :=
  match q with [] => path | _ => path +:+ "?" +:+ Encode q end.

Definition ListUsers (search : string) (first max : Z) : M KC (Result (list User)) :=
  admin_get (with_query "/users" (positive_param "first" first ++ positive_param "max" max ++
    (if empty_string search then [] else [("search", search)]))).

Definition CreateUser (in_ : NewUser) : M KC (Result string) :=
  if empty_string (TrimSpace (nu_Username in_)) then required "username is required"
  else
    let rep := mkKcUserRep (nu_Username in_) (nu_Email in_) (nu_Enabled in_) (nu_RequiredActions in_) (nu_Groups in_)
      (if empty_string (nu_InitialPassword in_) then [] else [mkKcCredential "password" (nu_InitialPassword in_) false]) in
    try* r := adminDo "POST" "/users" (Some (enc_userRep rep)) in
    ret (or_status r.1 (default "" (after_last "/users/" r.2))).

Definition patched_rep (in_ : UserPatch) : kcUserRep :=
  let rep := empty_rep in
  let rep := match up_Enabled in_ with Some b => rep <| kr_Enabled := b |> | None => rep end in
  match up_Email in_ with Some e => rep <| kr_Email := e |> | None => rep end.

Definition UpdateUser (id : string) (in_ : UserPatch) : M KC (Result unit) :=
  if empty_string id then required "user id is required"
  else admin_write "PUT" ("/users/" +:+ PathEscape id) (Some (enc_userRep (patched_rep in_))).

Definition ResetPassword (id password : string) (temporary : bool) : M KC (Result unit) :=
  if empty_string id || empty_string password then required "user id and password are required"
  else admin_write "PUT" ("/users/" +:+ PathEscape id +:+ "/reset-password")
         (Some (enc_credential (mkKcCredential "password" password temporary))).

Definition ListGroups (search : string) : M KC (Result (list Group)) :=
  admin_get (if empty_string search then "/groups" else "/groups?search=" +:+ QueryEscape search).

Definition CreateGroup (name : string) : M KC (Result string) :=
  try* r := doCreateGroup name in ret (if r.2 : bool then Err ErrConflictKC else Ok r.1).

Definition GetGroup (id : string) : M KC (Result Group) :=
  if empty_string id then required "group id is required" else admin_get ("/groups/" +:+ PathEscape id).

Definition ListGroupMembers (groupID : string) (first max : Z) : M KC (Result (list User)) :=
  if empty_string groupID then required "group id is required"
  else admin_get (with_query ("/groups/" +:+ PathEscape groupID +:+ "/members")
         (positive_param "first" first ++ positive_param "max" max)).

Definition member_path (groupID userID : string) : string :=
  "/groups/" +:+ PathEscape groupID +:+ "/members/" +:+ PathEscape userID.

Definition AddGroupMember (groupID userID : string) : M KC (Result unit) :=
  if empty_string groupID || empty_string userID then required "group id and user id are required"
  else
    try* r := adminDo "PUT" (member_path groupID userID) None in
    ret (if r.1 =? StatusConflict then Ok tt else or_status r.1 tt).

Definition RemoveGroupMember (groupID userID : string) : M KC (Result unit) :=
  if empty_string groupID || empty_string userID then required "group id and user id are required"
  else admin_write "DELETE" (member_path groupID userID) None.

(** ** Grants ([login.go]) *)

Record GrantResult := mkGrantResult {
  gt_AccessToken : string; gt_IDToken : string; gt_ExpiresIn : Z; gt_RefreshExpiresIn : Z;
  gt_TokenType : string; gt_NotBeforePolicy : Z }.
#[global] Instance Codec_GrantResult : Codec GrantResult := {|
  zero := mkGrantResult "" "" 0 0 "" 0;
  enc := fun p => JObj (concat [field _ "access_token" (gt_AccessToken p);
    field_opt _ "id_token" empty_string (gt_IDToken p); field int64 "expires_in" (gt_ExpiresIn p);
    field_opt int64 "refresh_expires_in" empty_Z (gt_RefreshExpiresIn p);
    field_opt _ "token_type" empty_string (gt_TokenType p);
    field_opt int64 "not-before-policy" empty_Z (gt_NotBeforePolicy p)]);
  dec := dec_struct (mkGrantResult "" "" 0 0 "" 0)
    (fields_ret mkGrantResult <@> dec_field _ "access_token" <@> dec_field _ "id_token" <@>
      dec_field int64 "expires_in" <@> dec_field int64 "refresh_expires_in" <@> dec_field _ "token_type" <@>
      dec_field int64 "not-before-policy");
  wf := fun p => in_range 64 (gt_ExpiresIn p) = true /\ in_range 64 (gt_RefreshExpiresIn p) = true /\
    in_range 64 (gt_NotBeforePolicy p) = true;
|}.

Definition ErrAccountNotFullySetUp : GoError := ESentinel "keycloak: account is not fully set up".
Definition ErrInvalidCredentials : GoError := ESentinel "keycloak: invalid user credentials".

Record kcError := mkKcError { ke_Error : string; ke_ErrorDescription : string }.
#[global] Instance Codec_kcError : Codec kcError := {|
  zero := mkKcError "" "";
  enc := fun p => JObj (concat [field _ "error" (ke_Error p); field _ "error_description" (ke_ErrorDescription p)]);
  dec := dec_struct (mkKcError "" "") (fields_ret mkKcError <@> dec_field _ "error" <@> dec_field _ "error_description");
  wf := fun _ => True;
|}.

(** How a refused grant is told apart. *)
Definition grant_error (resp : HttpResponse) : GoError :=
  let ke := (Unmarshal (A := kcError) (hp_Body resp)).1 in
  if Contains (ke_ErrorDescription ke) "Account is not fully set up" then ErrAccountNotFullySetUp
  else if Contains (ke_ErrorDescription ke) "Invalid user credentials" ||
          (String.eqb (ke_Error ke) "invalid_grant" && Contains (ToLower (ke_ErrorDescription ke)) "invalid")
  then ErrInvalidCredentials
  else EFmt "keycloak: token endpoint %d: %s" [AInt (hp_Status resp); AStr ""].

Definition doGrant (form : list (string * string)) : M KC (Result GrantResult) :=
  try* resp := Do (mkHttpRequest "POST" (TokenURL c) None (Form form)) in
  ret (if negb (hp_Status resp =? StatusOK) then Err (grant_error resp)
       else match UnmarshalE (A := GrantResult) (hp_Body resp) with
            | Err e => Err e
            | Ok g => if empty_string (gt_AccessToken g)
                      then Err (EFmt "keycloak: token endpoint returned empty access_token" []) else Ok g
            end).

Definition PasswordGrant (clientID username password : string) : M KC (Result GrantResult) :=
  doGrant [("grant_type", "password"); ("client_id", clientID); ("username", username); ("password", password);
           ("scope", "openid profile email")].

Definition ExchangeCode (clientID code redirectURI codeVerifier : string) : M KC (Result GrantResult) :=
  doGrant [("grant_type", "authorization_code"); ("client_id", clientID); ("code", code);
           ("redirect_uri", redirectURI); ("code_verifier", codeVerifier)].

Definition LoginClientImpersonate (subjectToken : string) : M KC (Result GrantResult) :=
  if empty_string (TrimSpace subjectToken) then required "subject token is required for token exchange"
  else doGrant ([("grant_type", "urn:ietf:params:oauth:grant-type:token-exchange"); ("client_id", ClientID c)] ++
    (if empty_string (ClientSecret c) then [] else [("client_secret", ClientSecret c)]) ++
    [("subject_token", subjectToken); ("subject_token_type", "urn:ietf:params:oauth:token-type:access_token")]).

Definition GetUserByNameExact (username : string) : M KC (Result User) :=
  try* users := admin_get (A := list User) ("/users?username=" +:+ QueryEscape username +:+ "&exact=true") in
  ret (match users with [] => Err ErrNotFoundKC | u :: _ => Ok u end).

Definition ClearRequiredActions (id : string) : M KC (Result unit) :=
  admin_write "PUT" ("/users/" +:+ PathEscape id) (Some (enc_userRep (empty_rep <| kr_RequiredActions := [""] |>))).

Definition LogoutAll (id : string) : M KC (Result unit) :=
  admin_write "POST" ("/users/" +:+ PathEscape id +:+ "/logout") None.
End Client.

(** * Organizations

    A row, a service tree and carrier groups in Keycloak, kept together by
    hand. *)

(** * Annotations ([org/models/org.go]) *)

Record OrgAnnotations := mkOrgAnnotations { an_OrgManager : string }.
#[global] Instance Codec_OrgAnnotations : Codec OrgAnnotations := {|
  zero := mkOrgAnnotations "";
  enc := fun p => JObj (field _ "org_manager" (an_OrgManager p));
  dec := dec_struct (mkOrgAnnotations "") (fields_ret mkOrgAnnotations <@> dec_field _ "org_manager");
  wf := fun _ => True;
|}.
#[global] Instance CodecLaws_OrgAnnotations : CodecLaws OrgAnnotations.
Proof. split; [|done]. intros [] _. reflexivity. Qed.

Definition DecodeAnnotations (o : Org) : OrgAnnotations :=
  if raw_len0 (org_Annotations o) then zero else (Unmarshal (org_Annotations o)).1.

Definition SetOrgManager (username : string) (o : Org) : Org :=
  o <| org_Annotations := Marshal (mkOrgAnnotations username) |>.

Definition DefaultOrg : Org := mkOrg uuid_Nil time_Zero time_Zero None "Default" "default" RawEmpty RawEmpty.

Fixpoint appendUnique (s : list string) (v : string) : list string :=
  match s with [] => [v] | x :: s' => if String.eqb x v then s else x :: appendUnique s' v end.

Module OrgService.
Section Service.
Context {G : Gorm} {P : Platform} {O : ObjectStore} {H : HTTP}.

(** The tables, and what the Keycloak client keeps. *)
Record State := mkState { o_admin : Admin; o_kc : KC }.
#[global] Instance State_eta : Eta State := fun s => mkState (o_admin s) (o_kc s).

(** The client, when the hub has an admin secret. *)
Context (kc : option Client).

Definition orgs {A} (m : Time -> M (Table Org) A) : M State A := zoom o_admin (on a_orgs m).
Definition trees {A} (m : Time -> M (Table ServiceTree) A) : M State A := zoom o_admin (on a_trees m).

Definition provisionOrgKeycloak (c : Client) (slug manager : string) : M KC (Result unit) :=
  let topPath := "/" +:+ slug in
  try* _ := EnsureGroup c topPath in
  try* adminsID := CreateSubGroup c topPath "admins" in
  try* u := GetUserByName c manager in
  try* _ := AddGroupMember c adminsID (us_ID u) in
  try* attrs := GetUserAttributes c (us_ID u) in
  SetUserAttributes c (us_ID u)
    (<["org_admin" := appendUnique (default [] (attrs !! "org_admin")) slug]> attrs).

(** The group at a path, deleted if it is found. *)
Definition drop_group (c : Client) (path : string) : M KC unit :=
  let* id := GetGroupByName c path in
  match id with
  | Ok id => if empty_string id then ret tt else let* _ := DeleteGroup c id in ret tt
  | Err _ => ret tt
  end.

Definition cleanupOrgKeycloak (c : Client) (slug : string) : M KC unit :=
  let* _ := drop_group c (slug +:+ "/admins") in drop_group c slug.

Definition cleanup (slug : string) : M State unit :=
  match kc with Some c => zoom o_kc (cleanupOrgKeycloak c slug) | None => ret tt end.

Definition default_tree (o : Org) : ServiceTree := mkServiceTree uuid_Nil time_Zero time_Zero (org_ID o) "default".

Definition provisioned (o : Org) : M State (Result unit) :=
  let mgr := an_OrgManager (DecodeAnnotations o) in
  match kc with
  | Some c =>
      if empty_string mgr then ret (Ok tt)
      else
        let* r := zoom o_kc (provisionOrgKeycloak c (org_Slug o) mgr) in
        ret (match r with
             | Ok _ => Ok tt
             | Err e => Err (EWrap "org: keycloak provisioning failed (db not written): %w" [] e)
             end)
  | None => ret (Ok tt)
  end.

(** The row is handed back: the repository fills the caller's struct in. *)
Definition Create (o : Org) : M State (Result Org) :=
  try* _ := provisioned o in
  let* created := orgs (fun now => Repository_Create now o) in
  match created with
  | Err e => let* _ := cleanup (org_Slug o) in ret (Err e)
  | Ok o' =>
      let* tree := trees (fun now => Repository_Create now (default_tree o')) in
      match tree with
      | Err e =>
          let* _ := cleanup (org_Slug o) in
          let* _ := orgs (fun now => Repository_Delete now (org_ID o')) in
          ret (Err e)
      | Ok _ => ret (Ok o')
      end
  end.

Definition Get (id : UUID) : M State (Result Org) := zoom o_admin (zoom a_orgs (Repository_GetByID id)).

Definition listed (p : Pagination) : M State (Result (list Org * Z)) := zoom o_admin (zoom a_orgs (Repository_List p (Where (fun _ => true)))).

(** An empty list is seeded with the default organization. *)
Definition List_ (p : Pagination) : M State (Result (list Org * Z)) :=
  try* found := listed p in
  if 0 <? found.2 then ret (Ok found)
  else
    let* _ := Create DefaultOrg in
    listed p.

Definition Update (id : UUID) (o : Org) : M State (Result Org) := orgs (fun now => Repository_Update now (o <| org_ID := id |>)).
Definition Delete (id : UUID) : M State (Result unit) := void (orgs (fun now => Repository_Delete now id)).
Definition GetServiceTree (orgID : UUID) : M State (Result ServiceTree) :=
  zoom o_admin (zoom a_trees (ServiceTreeRepository.GetByOrgID orgID)).

(** The first organization, or the default one with [adminUsername] for its
    manager.  [List_] has seeded an empty table, so the first branch is taken
    only when that failed. *)
Definition default_org (adminUsername : string) (found : list Org) : M State (Result Org) :=
  match found with
  | [] => Create (SetOrgManager adminUsername DefaultOrg)
  | def :: _ => ret (Ok def)
  end.

Definition EnsureDefaultOrgWithAdmin (adminUsername : string) : M State (Result unit) :=
  try* page := List_ (mkPagination 1 1) in
  try* def := default_org adminUsername page.1 in
  match kc with
  | None => ret (Ok tt)
  | Some c =>
      let mgr := an_OrgManager (DecodeAnnotations def) in
      if empty_string mgr then
        let* _ := orgs (fun now => Repository_Update now (SetOrgManager adminUsername def)) in
        zoom o_kc (provisionOrgKeycloak c (org_Slug def) adminUsername)
      else zoom o_kc (provisionOrgKeycloak c (org_Slug def) mgr)
  end.

(** One organization with a legacy group. *)
Definition migrate_one (c : Client) (o : Org) : M State unit :=
  let* id := zoom o_kc (GetGroupByName c ("org:" +:+ org_Slug o)) in
  match id with
  | Ok id =>
      if empty_string id then ret tt
      else
        let* r := zoom o_kc (provisionOrgKeycloak c (org_Slug o) (an_OrgManager (DecodeAnnotations o))) in
        match r with
        | Err _ => ret tt
        | Ok _ => let* _ := zoom o_kc (DeleteGroup c id) in ret tt
        end
  | Err _ => ret tt
  end.

Definition MigrateOrgGroups : M State unit :=
  match kc with
  | None => ret tt
  | Some c =>
      let* page := List_ (mkPagination 1 500) in
      match page with
      | Err _ => ret tt
      | Ok (found, _) => for_each found (migrate_one c)
      end
  end.

Definition reconcilePageSize : Z := 500.

(** The pages from [page] on; [fuel] bounds their number. *)
Fixpoint reconcile_pages (c : Client) (fuel : nat) (page : Z) : M State bool :=
  match fuel with
  | 0%nat => ret false
  | S fuel' =>
      let* r := List_ (mkPagination page reconcilePageSize) in
      match r with
      | Err _ => ret true
      | Ok (found, total) =>
          let* _ := for_each found (fun o => let* _ := zoom o_kc (EnsureGroup c ("/" +:+ org_Slug o)) in ret tt) in
          if total <=? page * reconcilePageSize then ret true else reconcile_pages c fuel' (page + 1)
      end
  end.

(** Whether the loop ended. *)
Definition ReconcileGroups (fuel : nat) : M State bool :=
  match kc with None => ret true | Some c => reconcile_pages c fuel 1 end.
End Service.
End OrgService.
