(* ===== verification/Sessions.v ===== *)
(** Logging in ([internal/auth/handler/handler.go], [internal/session],
    [cmd/hub/auth_setup.go]): the password and the code flow, the row and the
    cookie of a session, the forced change of a password, and the session as
    an identity in front of the API.

    A cookie is what [net/http] prints and parses.  A session's identifier is
    a [uuid] column the code handles as text: Postgres reads the text.  The
    random source is [Entropy]; where it fails the code panics. *)
From stdpp Require Import base list strings gmap pretty.
From Stdlib Require Import ZArith Lia Ascii.
From S2P Require Import Prelude Common Gorm Json GoLib RunnerProto RunStore PipelineStore TargetStore.
From S2P Require Import EditStore OrgStore SiteStore PermStore RateLimit World Admin Permissions Middleware.
From S2P Require Import PipelineVersions Credentials Settings LocalStorage Identity.

Open Scope Z_scope.

(** * Text *)

(** [base64.RawURLEncoding]: the other alphabet, no padding. *)
Definition url_char (c : ascii) : ascii :=
  if Ascii.eqb c "+"%char then "-"%char else if Ascii.eqb c "/"%char then "_"%char else c.
Fixpoint url_chars (s : string) : string :=
  match s with
  | "" => ""
  | String c s' => if Ascii.eqb c b64_pad then "" else String (url_char c) (url_chars s')
  end.
Definition b64url_encode (s : string) : string := url_chars (b64_encode s).

(** Line breaks are skipped; the characters of the standard alphabet that are
    not in this one are refused. *)
Fixpoint std_chars (s : string) : option string :=
  match s with
  | "" => Some ""
  | String c s' =>
      let b := byte_of c in
      if (b =? 10) || (b =? 13) then std_chars s'
      else if (b =? 43) || (b =? 47) || (b =? 61) then None
      else String (if b =? 45 then "+"%char else if b =? 95 then "/"%char else c) <$> std_chars s'
  end.
Definition padding (n : nat) : string := String.concat "" (repeat "=" ((4 - n mod 4) mod 4)).
Definition b64url_decode (s : string) : option string :=
  match std_chars s with Some t => b64_decode (t +:+ padding (String.length t)) | None => None end.

(** A byte a cookie value may hold. *)
Definition cookie_byte (c : ascii) : bool :=
  let b := byte_of c in (32 <=? b) && (b <? 127) && negb (existsb (Z.eqb b) [34; 59; 92]).
Definition quote : ascii := ascii_of_nat 34.

Fixpoint all_chars (f : ascii -> bool) (s : string) : bool :=
  match s with "" => true | String c s' => f c && all_chars f s' end.
Fixpoint filter_chars (f : ascii -> bool) (s : string) : string :=
  match s with "" => "" | String c s' => if f c then String c (filter_chars f s') else filter_chars f s' end.

(** [http.sanitizeCookieValue] and [http.parseCookieValue]. *)
Definition sanitizeCookieValue (v : string) : string :=
  let v := filter_chars cookie_byte v in
  if Contains v " " || Contains v "," then String quote v +:+ String quote "" else v.
Definition unquoted (v : string) : string :=
  match v with
  | String c r =>
      match String.length r with
      | 0%nat => v
      | S n => if Ascii.eqb c quote && String.eqb (String.substring n 1 r) (String quote "")
               then String.substring 0 n r else v
      end
  | "" => v
  end.
Definition parseCookieValue (raw : string) : option string :=
  let v := unquoted raw in if all_chars cookie_byte v then Some v else None.

(** [textproto.TrimString] *)
Definition trim_byte (c : ascii) : bool := existsb (Z.eqb (byte_of c)) [32; 9; 10; 13].
Fixpoint trim_left (s : string) : string :=
  match s with String c s' => if trim_byte c then trim_left s' else s | "" => "" end.
Fixpoint trim_right (s : string) : string :=
  match s with
  | "" => ""
  | String c s' => match trim_right s' with
                   | "" => if trim_byte c then "" else String c ""
                   | t => String c t
                   end
  end.
Definition TrimString (s : string) : string := trim_right (trim_left s).

(** [r.Cookie(name)] on the [Cookie] header. *)
Definition named (name part : string) : option string :=
  match cut "="%char (TrimString part) with
  | Some (n, v) => if String.eqb (TrimString n) name then parseCookieValue v else None
  | None => if String.eqb (TrimString part) name then Some "" else None
  end.
Definition request_cookie (name : string) (rq : Request) : option string :=
  head (omap (named name) (Split ";"%char (rq_Header rq "Cookie"))).

(** * Randomness *)

(** [crypto/rand]: the n-th read of so many bytes, the n-th draw below a
    bound. *)
Class Entropy : Type := {
  rand_bytes : nat -> nat -> Result (list Z);
  rand_Int : nat -> Z -> Result Z;
}.
Class EntropyLaws (E : Entropy) : Prop := {
  rand_bytes_full : forall i n l, rand_bytes i n = Ok l -> length l = n;
  rand_Int_below : forall i n z, rand_Int i n = Ok z -> 0 <= z < n;
}.

(** * Rows ([session/model.go]) *)

Record Session_ := mkSession {
  ss_ID : UUID; ss_Subject : string; ss_Username : string; ss_Groups : string; ss_KCToken : string;
  ss_ExpiresAt : Time; ss_CreatedAt : Time; ss_UpdatedAt : Time }.
#[global] Instance Session_eta : Eta Session_ := fun s =>
  mkSession (ss_ID s) (ss_Subject s) (ss_Username s) (ss_Groups s) (ss_KCToken s)
    (ss_ExpiresAt s) (ss_CreatedAt s) (ss_UpdatedAt s).
#[global] Instance Session_model : Model Session_ := {|
  pk := ss_ID;
  created := fun id now s => s <| ss_ID := id |>
    <| ss_CreatedAt := stamp now (ss_CreatedAt s) |> <| ss_UpdatedAt := stamp now (ss_UpdatedAt s) |>;
  updated := fun now s => s <| ss_UpdatedAt := now |>;
  alive := fun _ => true;
  deleted := fun _ _ => None;
  clash := fun _ _ => false;
|}.
#[global] Instance Session_laws : ModelLaws Session_.
Proof. by split. Qed.

Definition ErrSessionNotFound : GoError := ESentinel "session: not found".

(** * The state behind the pre-auth endpoints *)

Record verifierEntry := mkVerifierEntry { ve_verifier : string; ve_exp : Time }.

Section Portal.
Context {G : Gorm} {P : Platform} {O : ObjectStore} {H : HTTP} {K : SettingsTable}.

(** The database, the Keycloak client, the login mode and the verifiers this
    process holds. *)
Record Portal := mkPortal {
  po_admin : Admin;
  po_sessions : Table Session_;
  po_kc : KC;
  po_mode : SettingLoginMode.State KV;
  po_verifiers : gmap string verifierEntry;
}.
#[global] Instance Portal_eta : Eta Portal := fun s =>
  mkPortal (po_admin s) (po_sessions s) (po_kc s) (po_mode s) (po_verifiers s).

Definition clock : M Portal Time := fun s => (a_now (po_admin s), s).
End Portal.

(** * The repository ([session/repository.go]) *)

Module SessionRepository.
Section Repo.
Context {G : Gorm} {P : Platform} {O : ObjectStore} {H : HTTP} {K : SettingsTable} {C : AESGCM}.
Context {T : JSONText} {X : JSONReader}.
(** CREDENTIAL_ENCRYPTION_KEY *)
Context (k : string).

(** The row, as its insertion filled it in. *)
Definition Create (s : Session_) : M Portal (Result Session_) :=
  try* enc := (if empty_string (ss_KCToken s) then ret (Ok "")
               else zoom po_admin (CredentialService.Encrypt k (ss_KCToken s))) in
  let* now := clock in
  zoom po_sessions (db_Create now (s <| ss_KCToken := enc |>)).

(** [WHERE id = ?] on a text: Postgres refuses what is no identifier. *)
Definition by_id {A} (id : string) (m : UUID -> M Portal (Result A)) : M Portal (Result A) :=
  match uuid_Parse id with
  | Some u => m u
  | None => ret (Err (ELib "invalid input syntax for type uuid"))
  end.

Definition live (u : UUID) (now : Time) (s : Session_) : bool := (ss_ID s =? u) && (now <? ss_ExpiresAt s).

Definition opened (s : Session_) : Result Session_ :=
  if empty_string (ss_KCToken s) then Ok s
  else ok* pt := Decrypt k (ss_KCToken s) in Ok (s <| ss_KCToken := pt |>).

Definition Get (id : string) : M Portal (Result Session_) :=
  let* now := clock in
  let* found := by_id id (fun u => zoom po_sessions (db_First (Where (live u now)))) in
  ret (match found with
       | Err e => Err (if errors_Is e ErrRecordNotFound then ErrSessionNotFound else e)
       | Ok s => opened s
       end).

Definition Delete (id : string) : M Portal (Result unit) :=
  let* now := clock in
  void (by_id id (fun u => zoom po_sessions (db_Delete now (fun s => ss_ID s =? u)))).

Definition DeleteBySubject (subject : string) : M Portal (Result unit) :=
  let* now := clock in
  void (zoom po_sessions (db_Delete now (fun s => String.eqb (ss_Subject s) subject))).

(** The decoder's error is dropped. *)
Definition GroupsList (s : Session_) : list string :=
  if empty_string (ss_Groups s) then [] else (Unmarshal (A := list string) (parse_text (ss_Groups s))).1.
End Repo.
End SessionRepository.

(** * The cookie ([session/cookie.go]) *)

Definition CookieName : string := "sdp_sess".
Definition CookieMaxAge : Duration := 8 * Hour.

(** [Cookie.String]: the attributes in their order. *)
Definition cookie_text (value : string) (maxAge : Z) (secure : bool) : string :=
  CookieName +:+ "=" +:+ sanitizeCookieValue value +:+ "; Path=/" +:+
  (if 0 <? maxAge then "; Max-Age=" +:+ pretty maxAge else if maxAge <? 0 then "; Max-Age=0" else "") +:+
  "; HttpOnly" +:+ (if secure then "; Secure" else "") +:+ "; SameSite=Lax".

Definition ClearCookie : string * string := ("Set-Cookie", cookie_text "" (-1) false).

Section Cookie.
Context {G : Gorm} {P : Platform} {O : ObjectStore} {H : HTTP} {K : SettingsTable} {C : AESGCM}.
Context (k : string).

Definition SetCookie (sessionID : string) (secure : bool) : M Portal (Result (string * string)) :=
  try* enc := zoom po_admin (CredentialService.Encrypt k sessionID) in
  ret (Ok ("Set-Cookie", cookie_text enc (CookieMaxAge / Second) secure)).

Definition ReadCookie (rq : Request) : string :=
  match request_cookie CookieName rq with
  | None => ""
  | Some v => ok_or "" (Decrypt k v)
  end.
End Cookie.

(** * The ID token ([keycloak/login.go]) *)

Record IDTokenClaims := mkIDTokenClaims {
  it_Subject : string; it_PreferredUsername : string; it_Email : string; it_Groups : list string }.
#[global] Instance Codec_IDTokenClaims : Codec IDTokenClaims := {|
  zero := mkIDTokenClaims "" "" "" [];
  enc := fun p => JObj (concat [field _ "sub" (it_Subject p);
    field _ "preferred_username" (it_PreferredUsername p); field_opt _ "email" empty_string (it_Email p);
    field_opt _ "groups" empty_list (it_Groups p)]);
  dec := dec_struct (mkIDTokenClaims "" "" "" [])
    (fields_ret mkIDTokenClaims <@> dec_field _ "sub" <@> dec_field _ "preferred_username" <@>
      dec_field _ "email" <@> dec_field _ "groups");
  wf := fun _ => True;
|}.

Definition DecodeIDToken {X : JSONReader} (idToken : string) : Result IDTokenClaims :=
  match Split "."%char idToken with
  | _ :: payload :: _ =>
      match b64url_decode payload with
      | None => Err (EWrap "keycloak: decode id_token payload: %w" [] (ELib "illegal base64 data"))
      | Some dec =>
          match UnmarshalE (A := IDTokenClaims) (parse_text dec) with
          | Err e => Err (EWrap "keycloak: unmarshal id_token claims: %w" [] e)
          | Ok c => Ok c
          end
      end
  | _ => Err (EFmt "keycloak: malformed id_token" [])
  end.

(** * The endpoints ([auth/handler/handler.go]) *)

Definition verifierTTL : Duration := 10 * Minute.
Definition minNewPassword : Z := 8.

(** The configuration of the handler. *)
Record AuthHandler_ := mkAuthHandler {
  ah_issuer : string; ah_loginClientID : string; ah_redirectURI : string; ah_secureCookie : bool; ah_seed : string }.

Definition NewAuthHandler (issuer loginClientID redirectURI : string) (secureCookie : bool) (seed : string)
  : AuthHandler_ :=
  mkAuthHandler (TrimRightSlash issuer) loginClientID redirectURI secureCookie seed.

Record loginReq := mkLoginReq { lq_Username : string; lq_Password : string }.
#[global] Instance Codec_loginReq : Codec loginReq := {|
  zero := mkLoginReq "" "";
  enc := fun p => JObj (concat [field _ "username" (lq_Username p); field _ "password" (lq_Password p)]);
  dec := dec_struct (mkLoginReq "" "") (fields_ret mkLoginReq <@> dec_field _ "username" <@> dec_field _ "password");
  wf := fun _ => True;
|}.

Record codeReq := mkCodeReq { cq_Code : string; cq_State : string }.
#[global] Instance Codec_codeReq : Codec codeReq := {|
  zero := mkCodeReq "" "";
  enc := fun p => JObj (concat [field _ "code" (cq_Code p); field _ "state" (cq_State p)]);
  dec := dec_struct (mkCodeReq "" "") (fields_ret mkCodeReq <@> dec_field _ "code" <@> dec_field _ "state");
  wf := fun _ => True;
|}.

Record passwordReq := mkPasswordReq { pq_Username : string; pq_OldPassword : string; pq_NewPassword : string }.
#[global] Instance Codec_passwordReq : Codec passwordReq := {|
  zero := mkPasswordReq "" "" "";
  enc := fun p => JObj (concat [field _ "username" (pq_Username p); field _ "oldPassword" (pq_OldPassword p);
    field _ "newPassword" (pq_NewPassword p)]);
  dec := dec_struct (mkPasswordReq "" "" "")
    (fields_ret mkPasswordReq <@> dec_field _ "username" <@> dec_field _ "oldPassword" <@> dec_field _ "newPassword");
  wf := fun _ => True;
|}.

Definition auth_error (code seq : Z) (msg : string) : GoError := EApi (DomainError KindAuth code seq msg).
Definition errLoginState : GoError := auth_error StatusBadRequest 42 "invalid or expired login state".
Definition errLogin : GoError := auth_error StatusUnauthorized 41 "invalid username or password".
Definition errOldPassword : GoError := auth_error StatusUnauthorized 41 "invalid old password".
Definition errShortPassword : GoError :=
  auth_error StatusBadRequest 43 (Sprintf "new password must be at least %d characters" [AInt minNewPassword]).
Definition errSamePassword : GoError :=
  auth_error StatusBadRequest 44 "new password must differ from the old password".
Definition errNotSetUp (reason : string) : GoError :=
  EApi (DomainErrorWithReasons KindAuth StatusBadRequest 40 "account is not fully set up" [reason]).

Definition authenticated_reply : Response := OK_ (RawDoc (JObj [("authenticated", JBool true)])).

(** [s256Challenge] *)
Definition s256Challenge (verifier : string) : string :=
  b64url_encode (string_of_bytes (Sha256.Sum256 verifier)).

(** ** The verifiers of pending logins *)

Module verifierStore.
Definition set_ (now : Time) (state verifier : string) (m : gmap string verifierEntry) : gmap string verifierEntry :=
  <[state := mkVerifierEntry verifier (now + verifierTTL)]> m.

(** One-shot: whatever it answers, the state is spent. *)
Definition take (now : Time) (state : string) (m : gmap string verifierEntry)
  : option string * gmap string verifierEntry :=
  (match m !! state with
   | Some e => if ve_exp e <? now then None else Some (ve_verifier e)
   | None => None
   end, delete state m).

(** One round of the collector. *)
Definition gc (now : Time) (m : gmap string verifierEntry) : gmap string verifierEntry :=
  filter (fun kv : string * verifierEntry => (ve_exp kv.2 <? now) = false) m.
End verifierStore.

Module AuthHandler.
Section Handlers.
Context {G : Gorm} {P : Platform} {O : ObjectStore} {H : HTTP} {K : SettingsTable} {C : AESGCM}.
Context {T : JSONText} {X : JSONReader} {E : Entropy}.
(** CREDENTIAL_ENCRYPTION_KEY, the Keycloak client and the handler's fields. *)
Context (k : string) (cl : Client) (h : AuthHandler_).

Definition Config : M Portal Response :=
  let* mode := zoom po_mode (SettingLoginMode.Get (SettingLoginMode.NewSettingLoginMode (ah_seed h))) in
  ret (match mode with
       | Err e => Fail StatusInternalServerError e
       | Ok mode => OK_ (RawDoc (JObj [("login", JStr mode)]))
       end).

(** [rand.Read]; a failure panics. *)
Definition draw (n : nat) : M Portal (Result (list Z)) := fun s =>
  let i := a_uuids (po_admin s) in
  (rand_bytes i n, s <| po_admin := (po_admin s) <| a_uuids := S i |> |>).
Definition drawn (n : nat) (f : list Z -> M Portal (Go Response)) : M Portal (Go Response) :=
  let* r := draw n in
  match r with
  | Err e => ret (Panics ("auth: crypto/rand failed: " +:+ Error e))
  | Ok b => f b
  end.

Definition login_url (state challenge : string) : string :=
  ah_issuer h +:+ "/protocol/openid-connect/auth?" +:+ Encode [
    ("client_id", ah_loginClientID h); ("code_challenge", challenge); ("code_challenge_method", "S256");
    ("redirect_uri", ah_redirectURI h); ("response_type", "code"); ("scope", "openid profile email");
    ("state", state)].

Definition LoginURL : M Portal (Go Response) :=
  drawn 16 (fun state =>
  drawn 32 (fun verifier =>
    let state := hex_encode state in
    let verifier := b64url_encode (string_of_bytes verifier) in
    let* now := clock in
    let* _ := modify (fun s => s <| po_verifiers := verifierStore.set_ now state verifier (po_verifiers s) |>) in
    ret (Returns (OK_ (RawDoc (JObj [("loginUrl", JStr (login_url state (s256Challenge verifier)));
                                     ("state", JStr state)])))))).

(** ** From a grant to a row and a cookie *)

(** A nil and an empty list are one here; both are read back as no groups. *)
Definition groupsJSON (groups : list string) : string :=
  marshal_text (if empty_list groups then JNull else enc groups).

Definition session_of (now : Time) (claims : IDTokenClaims) (g : GrantResult) : Session_ :=
  mkSession uuid_Nil (it_Subject claims) (it_PreferredUsername claims) (groupsJSON (it_Groups claims))
    (gt_AccessToken g) (now + CookieMaxAge) time_Zero time_Zero.

(** The header to set. *)
Definition establishSession (g : GrantResult) : M Portal (Result (string * string)) :=
  if empty_string (gt_IDToken g)
  then ret (Err (ELib "auth: grant missing id_token (scope must include openid)"))
  else
    match DecodeIDToken (gt_IDToken g) with
    | Err e => ret (Err (EWrap "auth: decode id token: %w" [] e))
    | Ok claims =>
        let* now := clock in
        let* created := SessionRepository.Create k (session_of now claims g) in
        match created with
        | Err e => ret (Err (EWrap "auth: create session: %w" [] e))
        | Ok s => SetCookie k (uuid_String (ss_ID s)) (ah_secureCookie h)
        end
    end.

Definition established (g : GrantResult) : M Portal Response :=
  let* r := establishSession g in
  ret (match r with
       | Err e => Fail StatusInternalServerError e
       | Ok cookie => add_headers [cookie] authenticated_reply
       end).

(** The resource client's token in place of the login client's, when the
    exchange is allowed. *)
Definition impersonated (g : GrantResult) : M Portal GrantResult :=
  let* imp := zoom po_kc (LoginClientImpersonate cl (gt_AccessToken g)) in
  ret (match imp with
       | Ok imp =>
           if empty_string (gt_AccessToken imp) then g
           else mkGrantResult (gt_AccessToken imp) (gt_IDToken g) (gt_ExpiresIn g) (gt_RefreshExpiresIn g)
                  (gt_TokenType g) (gt_NotBeforePolicy g)
       | Err _ => g
       end).

Definition SessionCode (body : RawJSON) : M Portal Response :=
  match UnmarshalE (A := codeReq) body with
  | Err e => ret (Fail StatusBadRequest e)
  | Ok req =>
      let* now := clock in
      let* verifier := zoom po_verifiers (verifierStore.take now (cq_State req)) in
      match verifier with
      | None => ret (Fail StatusBadRequest errLoginState)
      | Some verifier =>
          let* g := zoom po_kc (ExchangeCode cl (ah_loginClientID h) (cq_Code req) (ah_redirectURI h) verifier) in
          match g with
          | Err e => ret (Fail StatusBadRequest e)
          | Ok g => let* g := impersonated g in established g
          end
      end
  end.

(** The pending action named to the client. *)
Definition pending_action (username : string) : M Portal string :=
  let* u := zoom po_kc (GetUserByNameExact cl username) in
  ret (match u with
       | Ok u => match us_RequiredActions u with [] => "UPDATE_PASSWORD" | r :: _ => r end
       | Err _ => "UPDATE_PASSWORD"
       end).

Definition Login (body : RawJSON) : M Portal Response :=
  match UnmarshalE (A := loginReq) body with
  | Err e => ret (Fail StatusBadRequest e)
  | Ok req =>
      let* g := zoom po_kc (PasswordGrant cl (ah_loginClientID h) (lq_Username req) (lq_Password req)) in
      match g with
      | Ok g => established g
      | Err e =>
          if errors_Is e ErrAccountNotFullySetUp then
            let* reason := pending_action (lq_Username req) in ret (Fail StatusBadRequest (errNotSetUp reason))
          else if errors_Is e ErrInvalidCredentials then ret (Fail StatusUnauthorized errLogin)
          else ret (Fail StatusInternalServerError e)
      end
  end.

(** ** The forced change of a password *)

(** A grant that is refused only for a pending action vouches for the
    password. *)
Definition vouched (r : Result GrantResult) : option Response :=
  match r with
  | Ok _ => None
  | Err e =>
      if errors_Is e ErrAccountNotFullySetUp then None
      else if errors_Is e ErrInvalidCredentials then Some (Fail StatusUnauthorized errOldPassword)
      else Some (Fail StatusInternalServerError e)
  end.

Definition or_500 {A} (m : M KC (Result A)) (f : A -> M Portal Response) : M Portal Response :=
  let* r := zoom po_kc m in
  match r with Err e => ret (Fail StatusInternalServerError e) | Ok a => f a end.

Definition Password (body : RawJSON) : M Portal Response :=
  match UnmarshalE (A := passwordReq) body with
  | Err e => ret (Fail StatusBadRequest e)
  | Ok req =>
      if Z.of_nat (String.length (pq_NewPassword req)) <? minNewPassword
      then ret (Fail StatusBadRequest errShortPassword)
      else if String.eqb (pq_NewPassword req) (pq_OldPassword req)
      then ret (Fail StatusBadRequest errSamePassword)
      else
        let* g := zoom po_kc (PasswordGrant cl (ah_loginClientID h) (pq_Username req) (pq_OldPassword req)) in
        match vouched g with
        | Some refusal => ret refusal
        | None =>
            or_500 (GetUserByNameExact cl (pq_Username req)) (fun u =>
            or_500 (ResetPassword cl (us_ID u) (pq_NewPassword req) false) (fun _ =>
            or_500 (ClearRequiredActions cl (us_ID u)) (fun _ =>
              let* _ := zoom po_kc (LogoutAll cl (us_ID u)) in
              ret (OK_ (RawDoc (JObj [("changed", JBool true); ("subject", JStr (us_ID u))]))))))
        end
  end.

Definition Logout (rq : Request) : M Portal Response :=
  let sid := ReadCookie k rq in
  let* _ := (if empty_string sid then ret (Ok tt) else SessionRepository.Delete sid) in
  ret (mkResponse StatusNoContent [ClearCookie] NoBody).

(** ** The session as an identity ([setupBFFAuth]) *)

Definition sessionVerifier (rq : Request) : M Portal (Result SessionIdentity) :=
  let sid := ReadCookie k rq in
  if empty_string sid then ret (Err (ELib "no session cookie"))
  else
    try* s := SessionRepository.Get k sid in
    ret (Ok (mkSessionIdentity (ss_Subject s) (ss_Username s) (SessionRepository.GroupsList s) [])).

(** The authenticator with the session path in front. *)
Definition with_sessions (a : Authenticator (S := Portal)) : Authenticator (S := Portal) :=
  mkAuthenticator (verifier a) (clientID a) (patVerifier a) (Some sessionVerifier).
End Handlers.

(** [setupBFFAuth]: the cookie is for HTTPS when the issuer is. *)
Definition setupBFFAuth (issuer loginClientID redirectURI seed : string) : AuthHandler_ :=
  NewAuthHandler issuer loginClientID redirectURI (HasPrefix issuer "https://") seed.
End AuthHandler.
