(* ===== verification/Directory.v ===== *)
(** The directory of users and groups behind the console
    ([internal/permission/handler/keycloak_directory.go]), the identity
    providers of the realm ([internal/keycloak/directory.go]) and the realm
    settings ([internal/realmsettings/handler.go]).

    The handlers are written against the interface the source declares,
    [KeycloakDirectory]; the Admin REST client of [Identity] implements it. *)
From stdpp Require Import base list strings gmap pretty sorting.
From Stdlib Require Import ZArith Lia Ascii.
From S2P Require Import Prelude Common Gorm Json GoLib RunnerProto RunStore PipelineStore TargetStore.
From S2P Require Import EditStore OrgStore SiteStore PermStore RateLimit World Admin Permissions Middleware.
From S2P Require Import Settings LocalStorage Identity Sessions.

Open Scope Z_scope.

(** * The interface *)

Class KeycloakDirectory (D : Type) : Type := {
  dir_ListUsers : string -> Z -> Z -> M D (Result (list User));
  dir_CreateUser : NewUser -> M D (Result string);
  dir_UpdateUser : string -> UserPatch -> M D (Result unit);
  dir_ResetPassword : string -> string -> bool -> M D (Result unit);
  dir_ListGroups : string -> M D (Result (list Group));
  dir_CreateGroup : string -> M D (Result string);
  dir_GetGroup : string -> M D (Result Group);
  dir_ListGroupMembers : string -> Z -> Z -> M D (Result (list User));
  dir_AddGroupMember : string -> string -> M D (Result unit);
  dir_RemoveGroupMember : string -> string -> M D (Result unit);
  dir_CreateSubGroup : string -> string -> M D (Result string);
  dir_DeleteGroup : string -> M D (Result unit);
  dir_DeleteUser : string -> M D (Result unit);
}.

Definition client_directory {H : HTTP} (c : Client) : KeycloakDirectory KC := {|
  dir_ListUsers := ListUsers c; dir_CreateUser := CreateUser c; dir_UpdateUser := UpdateUser c;
  dir_ResetPassword := ResetPassword c; dir_ListGroups := ListGroups c; dir_CreateGroup := CreateGroup c;
  dir_GetGroup := GetGroup c; dir_ListGroupMembers := ListGroupMembers c;
  dir_AddGroupMember := AddGroupMember c; dir_RemoveGroupMember := RemoveGroupMember c;
  dir_CreateSubGroup := CreateSubGroup c; dir_DeleteGroup := DeleteGroup c; dir_DeleteUser := DeleteUser c;
|}.

(** * Requests *)

(** A query parameter may be absent. *)
Record DirRequest := mkDirRequest {
  dr_Param : string -> string; dr_GetQuery : string -> option string; dr_Body : RawJSON }.
Definition Query_ (rq : DirRequest) (name : string) : string := default "" (dr_GetQuery rq name).

(** [n, _ := strconv.Atoi(...)]: zero for what is no number, the nearest [int]
    for one out of range. *)
Definition atoi_value (s : string) : Z :=
  match Atoi s with
  | Some n => n
  | None =>
      match s with
      | String "-"%char s' => match unsigned_value s' with Some _ => - 2 ^ 63 | None => 0 end
      | String "+"%char s' => match unsigned_value s' with Some _ => 2 ^ 63 - 1 | None => 0 end
      | _ => match unsigned_value s with Some _ => 2 ^ 63 - 1 | None => 0 end
      end
  end.
Definition int_query (rq : DirRequest) (name def : string) : Z := atoi_value (default def (dr_GetQuery rq name)).

Record createUserReq := mkCreateUserReq { cu_Username : string; cu_Email : string; cu_InitialPassword : string }.
#[global] Instance Codec_createUserReq : Codec createUserReq := {|
  zero := mkCreateUserReq "" "" "";
  enc := fun p => JObj (concat [field _ "username" (cu_Username p); field _ "email" (cu_Email p);
    field _ "initialPassword" (cu_InitialPassword p)]);
  dec := dec_struct (mkCreateUserReq "" "" "")
    (fields_ret mkCreateUserReq <@> dec_field _ "username" <@> dec_field _ "email" <@> dec_field _ "initialPassword");
  wf := fun _ => True;
|}.

Record createUserResp := mkCreateUserResp {
  cx_ID : string; cx_Username : string; cx_Email : string; cx_TemporaryPassword : string;
  cx_RequiredActions : list string }.
Definition enc_createUserResp (p : createUserResp) : json := JObj (concat [
  field _ "id" (cx_ID p); field _ "username" (cx_Username p); field_opt _ "email" empty_string (cx_Email p);
  field_opt _ "temporaryPassword" empty_string (cx_TemporaryPassword p);
  field_opt _ "requiredActions" empty_list (cx_RequiredActions p)]).

Record updateUserReq := mkUpdateUserReq { uu_Enabled : option bool; uu_Email : option string }.
#[global] Instance Codec_updateUserReq : Codec updateUserReq := {|
  zero := mkUpdateUserReq None None;
  enc := fun p => JObj (concat [field (Codec_ptr _) "enabled" (uu_Enabled p); field (Codec_ptr _) "email" (uu_Email p)]);
  dec := dec_struct (mkUpdateUserReq None None)
    (fields_ret mkUpdateUserReq <@> dec_field (Codec_ptr _) "enabled" <@> dec_field (Codec_ptr _) "email");
  wf := fun _ => True;
|}.

(** The two bodies with one field. *)
Record resetPasswordReq := mkResetPasswordReq { rp_Password : string }.
#[global] Instance Codec_resetPasswordReq : Codec resetPasswordReq := {|
  zero := mkResetPasswordReq "";
  enc := fun p => JObj (field _ "password" (rp_Password p));
  dec := dec_struct (mkResetPasswordReq "") (fields_ret mkResetPasswordReq <@> dec_field _ "password");
  wf := fun _ => True;
|}.
Record nameReq := mkNameReq { nr_Name : string }.
#[global] Instance Codec_nameReq : Codec nameReq := {|
  zero := mkNameReq "";
  enc := fun p => JObj (field _ "name" (nr_Name p));
  dec := dec_struct (mkNameReq "") (fields_ret mkNameReq <@> dec_field _ "name");
  wf := fun _ => True;
|}.

(** * Errors *)

Definition failPermission (err : GoError) : Response :=
  match err with EApi ae => Fail (ae_Code ae) err | _ => Fail StatusInternalServerError err end.

Definition perm_error (code seq : Z) (msg : string) : GoError := EApi (DomainError KindPermission code seq msg).
Definition bad_request (msg : string) : Response := Fail StatusBadRequest (EApi (WithMessage ErrBadRequest msg)).

Definition failDirectory (err : GoError) : Response :=
  if errors_Is err ErrNotFoundKC then Fail StatusNotFound (perm_error StatusNotFound 30 "Directory Entity Not Found")
  else if errors_Is err ErrConflictKC
  then Fail StatusConflict (perm_error StatusConflict 31 "Directory Entity Already Exists")
  else failPermission err.

Definition NoContentReply : Response := mkResponse StatusNoContent [] NoBody.

(** * Temporary passwords *)

Definition tempPasswordAlphabet : string := "abcdefghijkmnpqrstuvwxyzABCDEFGHJKLMNPQRSTUVWXYZ23456789".

Definition alphabet_at (i : Z) : ascii := default "a"%char (String.get (Z.to_nat i) tempPasswordAlphabet).

(** The bytes are the code's [pw] array; [draws] answers the n-th draw. *)
Definition swap (i j : nat) (pw : list ascii) : list ascii :=
  match pw !! i, pw !! j with
  | Some a, Some b => <[j := a]> (<[i := b]> pw)
  | _, _ => pw
  end.

(** [for i := len(pw) - 1; i > 0; i--] *)
Fixpoint shuffle (i : nat) (draws : nat -> Z) (n : nat) (pw : list ascii) : list ascii :=
  match i with
  | O => pw
  | S i' => shuffle i' draws (S n) (swap i (Z.to_nat (draws n mod (Z.of_nat i + 1))) pw)
  end.

Definition fixed_classes : list ascii := [alphabet_at 48; alphabet_at 0; alphabet_at 24].

(** Thirteen draws for the tail, then fifteen for the shuffle. *)
Definition temporary_password (draws : nat -> Z) : string :=
  let pw := fixed_classes ++ ((fun i => alphabet_at (draws i)) <$> seq 0 13) in
  String.string_of_list_ascii (shuffle 15 draws 13 pw).

Definition lower_byte (c : ascii) : bool := (97 <=? byte_of c) && (byte_of c <=? 122).
Definition upper_byte (c : ascii) : bool := (65 <=? byte_of c) && (byte_of c <=? 90).
Definition digit_byte (c : ascii) : bool := (48 <=? byte_of c) && (byte_of c <=? 57).
Definition PasswordClassSatisfied (pw : string) : bool :=
  let l := String.list_ascii_of_string pw in existsb lower_byte l && existsb upper_byte l && existsb digit_byte l.

(** * The handler *)

(** The repositories [WithCascade] wires; [NewKeycloakDirectoryHandler] leaves
    them nil. *)
Record CascadeDeps := mkCascadeDeps { cd_platform : bool; cd_component : bool; cd_session : bool }.
Definition NewKeycloakDirectoryHandler : CascadeDeps := mkCascadeDeps false false false.
Definition WithCascade (platform component sess : bool) (_ : CascadeDeps) : CascadeDeps :=
  mkCascadeDeps platform component sess.

Definition reservedAdminGroupName : string := "admins".

Definition validateRBACGroupName (name : string) : option GoError :=
  if empty_string name then Some (perm_error StatusBadRequest 32 "group name is required")
  else if Contains name "/"
  then Some (perm_error StatusForbidden 33 "nested groups are not supported; name must not contain /")
  else if String.eqb name "org" || HasPrefix name "org:"
  then Some (perm_error StatusForbidden 34 "org carrier groups (org:*) are managed by the platform")
  else None.

Module KeycloakDirectoryHandler.
Section Handler.
Context {G : Gorm} {P : Platform} {O : ObjectStore} {E : Entropy} {D : Type} {I : KeycloakDirectory D}.

(** The database and the directory. *)
Record State := mkState { dy_admin : Admin; dy_sessions : Table Session_; dy_kc : D }.
#[global] Instance State_eta : Eta State := fun s => mkState (dy_admin s) (dy_sessions s) (dy_kc s).

Context (h : CascadeDeps).

Definition now_at : M State Time := fun s => (a_now (dy_admin s), s).

(** A statement whose result is dropped. *)
Definition dropped {A} (m : M State A) : M State unit := let* _ := m in ret tt.
Definition when (b : bool) (m : M State unit) : M State unit := if b then m else ret tt.

Definition cascadeClearForSubject (subjectType subjectID : string) : M State unit :=
  if empty_string subjectID then ret tt
  else
    let* _ := when (cd_platform h) (dropped (zoom dy_admin (on a_platform_bindings (fun now =>
                PlatformRoleBindingRepository.DeleteBySubject now subjectType subjectID)))) in
    let* _ := when (cd_component h) (dropped (zoom dy_admin (on a_bindings (fun now =>
                BindingRepository.DeleteBySubject now subjectType subjectID)))) in
    when (cd_session h) (let* now := now_at in
      dropped (zoom dy_sessions (db_Delete now (fun r => String.eqb (ss_Subject r) subjectID)))).

(** A call whose error is answered with [failDirectory]. *)
Definition dir {A} (m : M D (Result A)) (k : A -> M State Response) : M State Response :=
  let* r := zoom dy_kc m in match r with Err e => ret (failDirectory e) | Ok a => k a end.

(** [GenerateTemporaryPassword] from [rand.Int]; a failing draw panics. *)
Definition GenerateTemporaryPassword : M State (Go string) := fun s =>
  let i := a_uuids (dy_admin s) in
  let n := Z.of_nat (String.length tempPasswordAlphabet) in
  let drawn := (fun j => rand_Int (i + j) n) <$> seq 0 28 in
  (if forallb is_ok drawn
   then Returns (temporary_password (fun j => ok_or 0 (rand_Int (i + j) n)))
   else Panics "keycloak directory: crypto/rand failed",
   s <| dy_admin := (dy_admin s) <| a_uuids := (i + 28)%nat |> |>).

(** A password of the request, or a generated one. *)
Definition password_or_new (given : string) (k : string -> M State Response) : M State (Go Response) :=
  let* pw := (if empty_string given then GenerateTemporaryPassword else ret (Returns given)) in
  match pw with
  | Returns pw => let* r := k pw in ret (Returns r)
  | Panics m => ret (Panics m)
  | Hangs => ret Hangs
  end.

Definition ListUsers (rq : DirRequest) : M State Response :=
  dir (dir_ListUsers (Query_ rq "search") (int_query rq "first" "0") (int_query rq "max" "100"))
    (fun users => ret (OK_ (Marshal users))).

(** What both creations do with a bound request. *)
Definition create_user (in_ : createUserReq) (groups : list string) : M State (Go Response) :=
  if empty_string (TrimSpace (cu_Username in_)) then ret (Returns (bad_request "username is required"))
  else
    password_or_new (cu_InitialPassword in_) (fun pw =>
      if Z.of_nat (String.length pw) <? 12
      then ret (bad_request "initialPassword must be at least 12 characters")
      else
        dir (dir_CreateUser (mkNewUser (TrimSpace (cu_Username in_)) (TrimSpace (cu_Email in_)) true
                               ["UPDATE_PASSWORD"] pw groups)) (fun id =>
        ret (Created_ (RawDoc (enc_createUserResp (mkCreateUserResp id (TrimSpace (cu_Username in_))
               (TrimSpace (cu_Email in_)) pw ["UPDATE_PASSWORD"])))))).

Definition CreateUser (rq : DirRequest) : M State (Go Response) :=
  match UnmarshalE (A := createUserReq) (dr_Body rq) with
  | Err e => ret (Returns (Fail StatusBadRequest e))
  | Ok in_ => create_user in_ []
  end.

Definition UpdateUser (rq : DirRequest) : M State Response :=
  match UnmarshalE (A := updateUserReq) (dr_Body rq) with
  | Err e => ret (Fail StatusBadRequest e)
  | Ok in_ =>
      match uu_Enabled in_, uu_Email in_ with
      | None, None => ret (bad_request "nothing to update: provide enabled or email")
      | _, _ => dir (dir_UpdateUser (dr_Param rq "id") (mkUserPatch (uu_Enabled in_) (uu_Email in_)))
                  (fun _ => ret NoContentReply)
      end
  end.

(** The body is optional: an error of the decoder leaves what it had filled in. *)
Definition ResetUserPassword (rq : DirRequest) : M State (Go Response) :=
  password_or_new (rp_Password (Unmarshal (dr_Body rq)).1) (fun pw =>
    if Z.of_nat (String.length pw) <? 12
    then ret (bad_request "password must be at least 12 characters")
    else
      dir (dir_ResetPassword (dr_Param rq "id") pw true) (fun _ =>
      ret (OK_ (RawDoc (JObj [("temporary", JBool true); ("password", JStr pw)]))))).

Definition ListGroups (rq : DirRequest) : M State Response :=
  dir (dir_ListGroups (Query_ rq "search")) (fun groups => ret (OK_ (Marshal groups))).

Definition CreateGroup (rq : DirRequest) : M State Response :=
  match UnmarshalE (A := nameReq) (dr_Body rq) with
  | Err e => ret (Fail StatusBadRequest e)
  | Ok in_ =>
      let name := TrimSpace (nr_Name in_) in
      match validateRBACGroupName name with
      | Some e => ret (Fail StatusForbidden e)
      | None => dir (dir_CreateGroup name) (fun id => ret (Created_ (Marshal (mkGroup id name ("/" +:+ name)))))
      end
  end.

Definition GetGroup (rq : DirRequest) : M State Response :=
  dir (dir_GetGroup (dr_Param rq "id")) (fun g => ret (OK_ (Marshal g))).

Definition ListGroupMembers (rq : DirRequest) : M State Response :=
  dir (dir_ListGroupMembers (dr_Param rq "id") (int_query rq "first" "0") (int_query rq "max" "200"))
    (fun users => ret (OK_ (Marshal users))).

Definition errCarrierGroup : GoError := perm_error StatusForbidden 35
  "Org carrier groups are managed by the platform and read-only through the directory".

(** The continuation of a group the proxy may change. *)
Definition assertMutableGroup (rq : DirRequest) (k : M State Response) : M State Response :=
  dir (dir_GetGroup (dr_Param rq "id")) (fun g =>
    if HasPrefix (gr_Path g) "/org:" then ret (Fail StatusForbidden errCarrierGroup) else k).

Definition AddGroupMember (rq : DirRequest) : M State Response :=
  assertMutableGroup rq (dir (dir_AddGroupMember (dr_Param rq "id") (dr_Param rq "userId"))
                           (fun _ => ret NoContentReply)).
Definition RemoveGroupMember (rq : DirRequest) : M State Response :=
  assertMutableGroup rq (dir (dir_RemoveGroupMember (dr_Param rq "id") (dr_Param rq "userId"))
                           (fun _ => ret NoContentReply)).

(** ** Organizations' groups and users *)

Definition group_path (org name : string) : string := "/" +:+ org +:+ "/" +:+ name.

Definition resolveOrgGroupID (org name : string) : M D (Result string) :=
  try* groups := dir_ListGroups name in
  ret (match find (fun g => String.eqb (gr_Path g) (group_path org name)) groups with
       | Some g => Ok (gr_ID g)
       | None => Err ErrNotFoundKC
       end).

Definition CreateOrgUser (rq : DirRequest) : M State (Go Response) :=
  let org := TrimSpace (Query_ rq "org") in
  let group := TrimSpace (Query_ rq "group") in
  if empty_string org then ret (Returns (bad_request "org query param is required"))
  else
    match UnmarshalE (A := createUserReq) (dr_Body rq) with
    | Err e => ret (Returns (Fail StatusBadRequest e))
    | Ok in_ => create_user in_ (("/" +:+ org) :: if empty_string group then [] else [group_path org group])
    end.

(** The grants go first, then the account. *)
Definition DeleteOrgUser (rq : DirRequest) : M State Response :=
  let id := dr_Param rq "id" in
  let* _ := cascadeClearForSubject "user" id in
  dir (dir_DeleteUser id) (fun _ => ret NoContentReply).

Definition CreateOrgGroup (rq : DirRequest) : M State Response :=
  let org := TrimSpace (dr_Param rq "org") in
  let asked := TrimSpace (Query_ rq "name") in
  let name := if empty_string asked then TrimSpace (nr_Name (Unmarshal (dr_Body rq)).1) else asked in
  if empty_string name then ret (bad_request "group name is required")
  else if String.eqb name reservedAdminGroupName
  then ret (Fail StatusForbidden (perm_error StatusForbidden 36 "the admins subgroup is reserved and managed by the platform"))
  else dir (dir_CreateSubGroup ("/" +:+ org) name) (fun id =>
       ret (Created_ (Marshal (mkGroup id name (group_path org name))))).

Definition AddOrgGroupMember (rq : DirRequest) : M State Response :=
  dir (resolveOrgGroupID (dr_Param rq "org") (dr_Param rq "group")) (fun gid =>
  dir (dir_AddGroupMember gid (dr_Param rq "userId")) (fun _ => ret NoContentReply)).
Definition RemoveOrgGroupMember (rq : DirRequest) : M State Response :=
  dir (resolveOrgGroupID (dr_Param rq "org") (dr_Param rq "group")) (fun gid =>
  dir (dir_RemoveGroupMember gid (dr_Param rq "userId")) (fun _ => ret NoContentReply)).

Definition DeleteOrgGroup (rq : DirRequest) : M State Response :=
  let org := dr_Param rq "org" in
  let group := dr_Param rq "group" in
  if String.eqb group reservedAdminGroupName
  then ret (Fail StatusForbidden (perm_error StatusForbidden 37 "the admins subgroup cannot be deleted"))
  else
    dir (resolveOrgGroupID org group) (fun gid =>
    let* _ := cascadeClearForSubject "group" (group_path org group) in
    dir (dir_DeleteGroup gid) (fun _ => ret NoContentReply)).
End Handler.
End KeycloakDirectoryHandler.

(** * Identity providers *)

Record IdentityProvider := mkIdentityProvider {
  ip_Alias : string; ip_DisplayName : string; ip_ProviderID : string; ip_Enabled : bool; ip_TrustEmail : bool;
  ip_Config : option (gmap string string) }.
#[global] Instance IdentityProvider_eta : Eta IdentityProvider := fun p =>
  mkIdentityProvider (ip_Alias p) (ip_DisplayName p) (ip_ProviderID p) (ip_Enabled p) (ip_TrustEmail p) (ip_Config p).
Definition empty_config (m : option (gmap string string)) : bool :=
  match m with Some m => bool_decide (m = ∅) | None => true end.
#[global] Instance Codec_IdentityProvider : Codec IdentityProvider := {|
  zero := mkIdentityProvider "" "" "" false false None;
  enc := fun p => JObj (concat [field _ "alias" (ip_Alias p);
    field_opt _ "displayName" empty_string (ip_DisplayName p); field _ "providerId" (ip_ProviderID p);
    field _ "enabled" (ip_Enabled p); field_opt _ "trustEmail" negb (ip_TrustEmail p);
    field_opt (Codec_ptr _) "config" empty_config (ip_Config p)]);
  dec := dec_struct (mkIdentityProvider "" "" "" false false None)
    (fields_ret mkIdentityProvider <@> dec_field _ "alias" <@> dec_field _ "displayName" <@>
      dec_field _ "providerId" <@> dec_field _ "enabled" <@> dec_field _ "trustEmail" <@>
      dec_field (Codec_ptr _) "config");
  wf := fun _ => True;
|}.

(** [map[string]any] *)
Definition AnyMap : Type := gmap string json.
#[global] Instance Codec_AnyMap : Codec AnyMap := {|
  zero := ∅;
  enc := fun m => JObj (map_to_list m);
  dec := fun v => match v with
    | JObj kvs => (foldl (fun m kv => <[kv.1 := kv.2]> m) ∅ kvs, true)
    | JNull => (∅, true)
    | _ => (∅, false)
    end;
  wf := fun _ => True;
|}.

Record kcIdentityProviderRep := mkKcIdentityProviderRep {
  ir_Alias : string; ir_DisplayName : string; ir_ProviderID : string; ir_Enabled : bool; ir_TrustEmail : bool;
  ir_Config : AnyMap }.
#[global] Instance Codec_kcIdentityProviderRep : Codec kcIdentityProviderRep := {|
  zero := mkKcIdentityProviderRep "" "" "" false false ∅;
  enc := fun p => JObj (concat [field _ "alias" (ir_Alias p);
    field_opt _ "displayName" empty_string (ir_DisplayName p); field _ "providerId" (ir_ProviderID p);
    field _ "enabled" (ir_Enabled p); field_opt _ "trustEmail" negb (ir_TrustEmail p);
    field_opt _ "config" (fun m => bool_decide (m = ∅)) (ir_Config p)]);
  dec := dec_struct (mkKcIdentityProviderRep "" "" "" false false ∅)
    (fields_ret mkKcIdentityProviderRep <@> dec_field _ "alias" <@> dec_field _ "displayName" <@>
      dec_field _ "providerId" <@> dec_field _ "enabled" <@> dec_field _ "trustEmail" <@> dec_field _ "config");
  wf := fun _ => True;
|}.

(** The [%v] of a decoded number, a [float64]. *)
Class FloatText : Type := float_text : json -> string.

Definition text_le (a b : string * string) : Prop := String.le a.1 b.1.
#[global] Instance text_le_dec : RelDecision text_le.
Proof. intros a b. unfold text_le. apply _. Defined.

(** [fmt.Sprintf("%v", v)] of a decoded document; a map prints its keys in
    order. *)
Fixpoint go_v {F : FloatText} (v : json) : string :=
  match v with
  | JNull => "<nil>"
  | JBool b => if b then "true" else "false"
  | JNum _ | JFloat _ => float_text v
  | JStr s => s
  | JArr l => "[" +:+ String.concat " " (go_v <$> l) +:+ "]"
  | JObj kvs =>
      let texts : gmap string string := list_to_map (rev ((fun kv => (kv.1, go_v kv.2)) <$> kvs)) in
      "map[" +:+ String.concat " " ((fun kv => kv.1 +:+ ":" +:+ kv.2) <$> merge_sort text_le (map_to_list texts)) +:+ "]"
  end.

(** One value of a configuration as the hub keeps it. *)
Definition config_text {F : FloatText} (v : json) : option string :=
  match v with
  | JStr s => Some s
  | JArr (JStr s :: _) => Some s
  | JArr _ => None
  | _ => Some (go_v v)
  end.

Definition toIdentityProvider {F : FloatText} (r : kcIdentityProviderRep) : IdentityProvider :=
  mkIdentityProvider (ir_Alias r) (ir_DisplayName r) (ir_ProviderID r) (ir_Enabled r) (ir_TrustEmail r)
    (if bool_decide (ir_Config r = ∅) then None else Some (omap config_text (ir_Config r))).

(** [json.Marshal] of the map; its keys in order. *)
Definition idpToRep (in_ : IdentityProvider) : json := JObj [
  ("alias", JStr (ip_Alias in_)); ("config", @enc _ (Codec_ptr _) (ip_Config in_));
  ("displayName", JStr (ip_DisplayName in_)); ("enabled", JBool (ip_Enabled in_));
  ("providerId", JStr (ip_ProviderID in_)); ("trustEmail", JBool (ip_TrustEmail in_))].

Record kcProviderType := mkKcProviderType { pt_ID : string; pt_DisplayName : string }.
#[global] Instance Codec_kcProviderType : Codec kcProviderType := {|
  zero := mkKcProviderType "" "";
  enc := fun p => JObj (concat [field _ "id" (pt_ID p); field_opt _ "displayName" empty_string (pt_DisplayName p)]);
  dec := dec_struct (mkKcProviderType "" "") (fields_ret mkKcProviderType <@> dec_field _ "id" <@> dec_field _ "displayName");
  wf := fun _ => True;
|}.

Section Providers.
Context {H : HTTP} {F : FloatText} (c : Client).

Definition idp_path (alias : string) : string := "/identity-provider/instances/" +:+ PathEscape alias.

Definition ListIdentityProviders : M KC (Result (list IdentityProvider)) :=
  try* reps := admin_get (A := list kcIdentityProviderRep) c "/identity-provider/instances" in
  ret (Ok (toIdentityProvider <$> reps)).

Definition GetIdentityProvider (alias : string) : M KC (Result IdentityProvider) :=
  try* rep := admin_get (A := kcIdentityProviderRep) c (idp_path alias) in ret (Ok (toIdentityProvider rep)).

Definition CreateIdentityProvider (in_ : IdentityProvider) : M KC (Result string) :=
  if empty_string (TrimSpace (ip_Alias in_)) || empty_string (TrimSpace (ip_ProviderID in_))
  then required "idp alias and providerId are required"
  else
    try* r := adminDo c "POST" "/identity-provider/instances" (Some (idpToRep in_)) in
    ret (or_status r.1 (default (ip_Alias in_) (after_last "/instances/" r.2))).

Definition UpdateIdentityProvider (alias : string) (in_ : IdentityProvider) : M KC (Result unit) :=
  if empty_string (TrimSpace alias) then required "idp alias is required"
  else admin_write c "PUT" (idp_path alias) (Some (idpToRep in_)).

Definition DeleteIdentityProvider (alias : string) : M KC (Result unit) :=
  if empty_string (TrimSpace alias) then required "idp alias is required"
  else admin_write c "DELETE" (idp_path alias) None.

Definition ListIdentityProviderTypes : M KC (Result (list string)) :=
  try* reps := admin_get (A := list kcProviderType) c "/identity-provider/providers" in ret (Ok (pt_ID <$> reps)).
End Providers.

(** * The realm settings *)

Record loginModeReq := mkLoginModeReq { lm_Login : string }.
#[global] Instance Codec_loginModeReq : Codec loginModeReq := {|
  zero := mkLoginModeReq "";
  enc := fun p => JObj (field _ "login" (lm_Login p));
  dec := dec_struct (mkLoginModeReq "") (fields_ret mkLoginModeReq <@> dec_field _ "login");
  wf := fun _ => True;
|}.

Module RealmSettings.
Section Handler.
Context {H : HTTP} {F : FloatText} {S : Type} {I : SettingStore S} (c : Client).

(** The Keycloak client and the login mode. *)
Record State := mkState { rs_kc : KC; rs_mode : SettingLoginMode.State S }.
#[global] Instance State_eta : Eta State := fun s => mkState (rs_kc s) (rs_mode s).

(** A call whose error is answered with a status. *)
Definition call {A} (status : GoError -> Z) (m : M KC (Result A)) (k : A -> Response) : M State Response :=
  let* r := zoom rs_kc m in ret (match r with Err e => Fail (status e) e | Ok a => k a end).
Definition status500 (_ : GoError) : Z := StatusInternalServerError.

Definition ListIDP : M State Response :=
  call status500 (ListIdentityProviders c) (fun idps => OK_ (RawDoc (JObj [("identityProviders", enc idps)]))).
Definition ListIDPTypes : M State Response :=
  call status500 (ListIdentityProviderTypes c) (fun types => OK_ (RawDoc (JObj [("types", enc types)]))).
Definition GetIDP (alias : string) : M State Response :=
  call (fun e => if errors_Is e ErrNotFoundKC then StatusNotFound else StatusInternalServerError)
    (GetIdentityProvider c alias) (fun idp => OK_ (Marshal idp)).

Definition CreateIDP (body : RawJSON) : M State Response :=
  match UnmarshalE (A := IdentityProvider) body with
  | Err e => ret (Fail StatusBadRequest e)
  | Ok in_ => call status500 (CreateIdentityProvider c in_) (fun id => OK_ (RawDoc (JObj [("alias", JStr id)])))
  end.

Definition UpdateIDP (alias : string) (body : RawJSON) : M State Response :=
  match UnmarshalE (A := IdentityProvider) body with
  | Err e => ret (Fail StatusBadRequest e)
  | Ok in_ =>
      let in_ := if empty_string (ip_Alias in_) then in_ <| ip_Alias := alias |> else in_ in
      call status500 (UpdateIdentityProvider c alias in_) (fun _ => OK_ (RawDoc (JObj [("alias", JStr alias)])))
  end.

Definition DeleteIDP (alias : string) : M State Response :=
  call status500 (DeleteIdentityProvider c alias) (fun _ => mkResponse StatusNoContent [] NoBody).

Definition errProviderEnabled : GoError := auth_error StatusConflict 45
  "cannot switch to default login while an identity provider is enabled".

(** Whether a provider is known to be enabled; an error of the listing lets the
    switch go on. *)
Definition provider_enabled : M State bool :=
  let* idps := zoom rs_kc (ListIdentityProviders c) in
  ret (match idps with Ok idps => existsb ip_Enabled idps | Err _ => false end).

Definition SetLoginMode (body : RawJSON) : M State Response :=
  match UnmarshalE (A := loginModeReq) body with
  | Err e => ret (Fail StatusBadRequest e)
  | Ok req =>
      let* blocked := (if String.eqb (lm_Login req) "default" then provider_enabled else ret false) in
      if blocked : bool then ret (Fail StatusConflict errProviderEnabled)
      else
        let* r := zoom rs_mode (SettingLoginMode.Set_ (lm_Login req)) in
        ret (match r with
             | Err e => Fail StatusBadRequest e
             | Ok _ => OK_ (RawDoc (JObj [("login", JStr (lm_Login req))]))
             end)
  end.
End Handler.
End RealmSettings.
