(* ===== verification/ClusterAccess.v ===== *)
(** Permissions on the target clusters ([internal/k8srbac]): the templates of
    the roles, the client that applies roles and bindings and has certificates
    signed, the service over it and its HTTP handlers, and the resolver of a
    cluster's kubeconfig ([cmd/hub/main.go]).

    The API server and the certificate library are outside the repository:
    [KubeAPI] is what the client asks of them; the service is written against
    the interface the source declares, [ClusterClient]. *)
From stdpp Require Import base list strings gmap pretty.
From Stdlib Require Import ZArith Lia Ascii.
From S2P Require Import Prelude Common Gorm Json GoLib RunnerProto RunStore PipelineStore TargetStore.
From S2P Require Import EditStore OrgStore SiteStore PermStore RateLimit World Admin Permissions Middleware.
From S2P Require Import PipelineVersions Environments Credentials Settings LocalStorage Sessions Directory.

Open Scope Z_scope.

(** * Roles ([model.go]) *)

Definition SubjectUser : string := "user".
Definition SubjectGroup : string := "group".
Definition SubjectOrg : string := "org".

Definition RoleAdmin : string := "admin".
Definition RoleOps : string := "ops".
Definition RoleDev : string := "dev".
Definition RoleReadonly : string := "readonly".
Definition RoleCustom : string := "custom".

Definition UserKind : string := "User".
Definition GroupKind : string := "Group".
Definition RbacGroupName : string := "rbac.authorization.k8s.io".

Definition resourceClassToKinds (class : string) : list string :=
  if String.eqb class "pods" then ["pods"]
  else if String.eqb class "deployments"
  then ["deployments"; "replicasets"; "statefulsets"; "daemonsets"; "jobs"; "cronjobs"]
  else if String.eqb class "services" then ["services"; "endpoints"; "ingresses"]
  else if String.eqb class "configmaps-secrets" then ["configmaps"; "secrets"]
  else if String.eqb class "namespaces" then ["namespaces"; "limitranges"; "resourcequotas"]
  else [].

Definition operationVerbs (op : string) : list string :=
  if String.eqb op "manage" then ["create"; "update"; "patch"; "delete"; "deletecollection"]
  else if String.eqb op "query" then ["get"; "list"; "watch"]
  else [].

Record PolicyRule := mkPolicyRule { pr_APIGroups : list string; pr_Resources : list string; pr_Verbs : list string }.

(** The keys of a map as [range] hands them out, in an order of its own. *)
Class MapOrder : Type := map_keys : gset string -> list string.
Class MapOrderLaws (R : MapOrder) : Prop := map_keys_elements : forall s, map_keys s ≡ₚ elements s.

Definition VerbsFor {R : MapOrder} (resourceClasses operations : list string) : list PolicyRule :=
  let kinds : gset string := list_to_set (mbind resourceClassToKinds resourceClasses) in
  let verbs : gset string := list_to_set (mbind operationVerbs operations) in
  if bool_decide (kinds = ∅) || bool_decide (verbs = ∅) then []
  else [mkPolicyRule [""] (map_keys kinds) (map_keys verbs)].

Definition all_verbs : list string := ["get"; "list"; "watch"; "create"; "update"; "patch"; "delete"; "deletecollection"].
Definition workloads : list string :=
  ["pods"; "deployments"; "replicasets"; "statefulsets"; "daemonsets"; "jobs"; "cronjobs"].

Definition RoleTemplate {R : MapOrder} (role : string) (resourceClasses operations : list string) : list PolicyRule :=
  if String.eqb role RoleAdmin then [mkPolicyRule ["*"] ["*"] ["*"]; mkPolicyRule [RbacGroupName] ["*"] ["*"]]
  else if String.eqb role RoleOps
  then [mkPolicyRule [""] (workloads ++ ["services"; "endpoints"; "ingresses"; "networkpolicies"]) all_verbs]
  else if String.eqb role RoleDev then [mkPolicyRule [""] workloads all_verbs]
  else if String.eqb role RoleReadonly then [mkPolicyRule ["*"] ["*"] ["get"; "list"; "watch"]]
  else if String.eqb role RoleCustom then VerbsFor resourceClasses operations
  else [].

Definition CRBName (bindingID : string) : string := bindingID +:+ "-cert".
Definition role_name (bindingID : string) : string := bindingID +:+ "-role".

(** The common name of a certificate. *)
Definition common_name (subjectID certHash : string) : string := Sprintf "%s-%s" [AStr subjectID; AStr certHash].

(** The subject's kind and name. *)
Definition K8sSubjectName (subjectKind subjectID subjectName certHash : string) : string * string :=
  if String.eqb subjectKind SubjectUser then (UserKind, common_name subjectID certHash)
  else if String.eqb subjectKind SubjectGroup || String.eqb subjectKind SubjectOrg then (GroupKind, subjectName)
  else ("", "").

(** * Rows ([repository.go]) *)

Definition StatusActive : string := "active".
Definition StatusRevoked : string := "revoked".

Record ClusterBinding := mkClusterBinding {
  cb_ID : UUID; cb_EnvironmentID : UUID; cb_SubjectKind : string; cb_SubjectID : string; cb_SubjectName : string;
  cb_Role : string; cb_ClusterScoped : bool; cb_Namespace : string; cb_Resources : RawJSON; cb_Operations : RawJSON;
  cb_CertHash : string; cb_Status : string }.
#[global] Instance ClusterBinding_eta : Eta ClusterBinding := fun b =>
  mkClusterBinding (cb_ID b) (cb_EnvironmentID b) (cb_SubjectKind b) (cb_SubjectID b) (cb_SubjectName b) (cb_Role b)
    (cb_ClusterScoped b) (cb_Namespace b) (cb_Resources b) (cb_Operations b) (cb_CertHash b) (cb_Status b).
#[global] Instance ClusterBinding_model : Model ClusterBinding := {|
  pk := cb_ID;
  created := fun id _ b => b <| cb_ID := id |>;
  updated := fun _ b => b;
  alive := fun _ => true;
  deleted := fun _ _ => None;
  clash := fun _ _ => false;
|}.
#[global] Instance ClusterBinding_laws : ModelLaws ClusterBinding.
Proof. by split. Qed.

Module ClusterBindingRepository.
Section Repo.
Context {G : Gorm}.
Definition Create (now : Time) (b : ClusterBinding) : M (Table ClusterBinding) (Result ClusterBinding) := db_Create now b.
Definition Get (id : UUID) : M (Table ClusterBinding) (Result ClusterBinding) :=
  db_First (Where (fun b => cb_ID b =? id)).
Definition ListByEnvironment (envID : UUID) : M (Table ClusterBinding) (Result (list ClusterBinding)) :=
  db_Find (Where (fun b => cb_EnvironmentID b =? envID)).
Definition ListBySubject (subjectKind subjectID : string) : M (Table ClusterBinding) (Result (list ClusterBinding)) :=
  db_Find (Where (fun b => String.eqb (cb_SubjectKind b) subjectKind && String.eqb (cb_SubjectID b) subjectID)).
Definition Update (now : Time) (b : ClusterBinding) : M (Table ClusterBinding) (Result ClusterBinding) := db_Save now b.
Definition SetStatus (now : Time) (id : UUID) (status : string) : M (Table ClusterBinding) (Result Z) :=
  db_Updates now (fun b => cb_ID b =? id) (fun b => b <| cb_Status := status |>).
Definition Delete (now : Time) (id : UUID) : M (Table ClusterBinding) (Result Z) := db_Delete now (fun b => cb_ID b =? id).
End Repo.
End ClusterBindingRepository.

(** * A cluster *)

Record Subject := mkSubject { sj_Kind : string; sj_Name : string; sj_APIGroup : string }.
Record RoleRef := mkRoleRef { rr_APIGroup : string; rr_Kind : string; rr_Name : string }.
Record RoleBinding := mkRoleBinding { rb_RoleRef : RoleRef; rb_Subjects : list Subject }.

(** Where an object is: in a namespace, or in the cluster as a whole. *)
Definition Scope : Type := option string.
Definition scope_of (clusterScoped : bool) (namespace : string) : Scope :=
  if clusterScoped then None else Some namespace.

Record CertificateSigningRequest := mkCSR {
  cs_Name : string; cs_Request : string; cs_SignerName : string; cs_Usages : list string; cs_ExpirationSeconds : Z }.

(** The typed client of one API server, with the clock and the context of the
    caller; the key pair and the request are made by [crypto/x509]. *)
Class KubeAPI : Type := {
  Clientset : Type;
  Kube : Type;
  role_Get : Clientset -> Scope -> string -> M Kube (Result (list PolicyRule));
  role_Create : Clientset -> Scope -> string -> list PolicyRule -> M Kube (Result unit);
  role_Update : Clientset -> Scope -> string -> list PolicyRule -> M Kube (Result unit);
  role_Delete : Clientset -> Scope -> string -> M Kube (Result unit);
  binding_Get : Clientset -> Scope -> string -> M Kube (Result RoleBinding);
  binding_Create : Clientset -> Scope -> string -> RoleBinding -> M Kube (Result unit);
  binding_Update : Clientset -> Scope -> string -> RoleBinding -> M Kube (Result unit);
  binding_Delete : Clientset -> Scope -> string -> M Kube (Result unit);
  csr_Create : Clientset -> CertificateSigningRequest -> M Kube (Result unit);
  csr_Approve : Clientset -> string -> M Kube (Result unit);
  csr_Certificate : Clientset -> string -> M Kube (Result string);
  new_Request : string -> string -> M Kube (Result (string * string));    (* key and request, as PEM *)
  kube_Now : Kube -> Time;
  kube_Wait : Duration -> M Kube (Result unit);                           (* until then, or the context's end *)
  IsNotFound : GoError -> bool;
  RESTConfigFromKubeConfig : string -> Result Clientset;
  LoadClusters : string -> Result (list (string * string));               (* server and CA, in a map's order *)
}.

(** The roles and bindings of a cluster. *)
Record Objects := mkObjects {
  ob_roles : gmap (Scope * string) (list PolicyRule); ob_bindings : gmap (Scope * string) RoleBinding }.
Definition set_role (k : Scope * string) (v : option (list PolicyRule)) (o : Objects) : Objects :=
  mkObjects (partial_alter (fun _ => v) k (ob_roles o)) (ob_bindings o).
Definition set_binding (k : Scope * string) (v : option RoleBinding) (o : Objects) : Objects :=
  mkObjects (ob_roles o) (partial_alter (fun _ => v) k (ob_bindings o)).

(** What the API promises: a call that fails changes nothing, and no call
    touches another object; time does not run backwards. *)
Class KubeLaws (K : KubeAPI) : Type := {
  objects : Kube -> Clientset -> Objects;
  role_Get_spec : forall cs sc n s, match role_Get cs sc n s with
    | (r, s') => objects s' cs = objects s cs /\
        match r with
        | Ok x => ob_roles (objects s cs) !! (sc, n) = Some x
        | Err e => IsNotFound e = true -> ob_roles (objects s cs) !! (sc, n) = None
        end
    end;
  binding_Get_spec : forall cs sc n s, match binding_Get cs sc n s with
    | (r, s') => objects s' cs = objects s cs /\
        match r with
        | Ok x => ob_bindings (objects s cs) !! (sc, n) = Some x
        | Err e => IsNotFound e = true -> ob_bindings (objects s cs) !! (sc, n) = None
        end
    end;
  role_Create_spec : forall cs sc n x s, match role_Create cs sc n x s with
    | (Ok _, s') => objects s' cs = set_role (sc, n) (Some x) (objects s cs)
    | (Err _, s') => objects s' cs = objects s cs
    end;
  role_Update_spec : forall cs sc n x s, match role_Update cs sc n x s with
    | (Ok _, s') => objects s' cs = set_role (sc, n) (Some x) (objects s cs)
    | (Err _, s') => objects s' cs = objects s cs
    end;
  binding_Create_spec : forall cs sc n x s, match binding_Create cs sc n x s with
    | (Ok _, s') => objects s' cs = set_binding (sc, n) (Some x) (objects s cs)
    | (Err _, s') => objects s' cs = objects s cs
    end;
  binding_Update_spec : forall cs sc n x s, match binding_Update cs sc n x s with
    | (Ok _, s') => objects s' cs = set_binding (sc, n) (Some x) (objects s cs)
    | (Err _, s') => objects s' cs = objects s cs
    end;
  role_Delete_spec : forall cs sc n s, match role_Delete cs sc n s with
    | (Ok _, s') => objects s' cs = set_role (sc, n) None (objects s cs)
    | (Err e, s') => objects s' cs = objects s cs /\ (IsNotFound e = true -> ob_roles (objects s cs) !! (sc, n) = None)
    end;
  binding_Delete_spec : forall cs sc n s, match binding_Delete cs sc n s with
    | (Ok _, s') => objects s' cs = set_binding (sc, n) None (objects s cs)
    | (Err e, s') => objects s' cs = objects s cs /\ (IsNotFound e = true -> ob_bindings (objects s cs) !! (sc, n) = None)
    end;
  csr_Create_spec : forall cs c s cs', objects (csr_Create cs c s).2 cs' = objects s cs';
  csr_Approve_spec : forall cs n s cs', objects (csr_Approve cs n s).2 cs' = objects s cs';
  csr_Certificate_spec : forall cs n s cs', objects (csr_Certificate cs n s).2 cs' = objects s cs';
  new_Request_spec : forall a b s cs', objects (new_Request a b s).2 cs' = objects s cs';
  kube_Wait_spec : forall d s cs', objects (kube_Wait d s).2 cs' = objects s cs';
  csr_Certificate_time : forall cs n s, kube_Now s <= kube_Now (csr_Certificate cs n s).2;
  kube_Wait_time : forall d s r s', kube_Wait d s = (Ok r, s') -> kube_Now s + d <= kube_Now s';
}.

(** * The client ([client.go]) *)

Class ClusterClient (Cl C : Type) : Type := {
  ApplyRole : Cl -> string -> list PolicyRule -> bool -> string -> M C (Result unit);
  DeleteRole : Cl -> string -> bool -> string -> M C (Result unit);
  ApplyBinding : Cl -> string -> string -> string -> string -> bool -> string -> M C (Result unit);
  DeleteBinding : Cl -> string -> bool -> string -> M C (Result unit);
  IssueUserKubeconfig : Cl -> string -> string -> M C (Result string);
  RevokeUserSubject : Cl -> string -> string -> M C (Result unit);
}.

Module ClientSet.
Section Client.
Context {K : KubeAPI}.

Record clientSetClient := mkClientSet { cc_cs : Clientset; cc_clusterCA : string; cc_serverURL : string }.

(** The first cluster the map's range happens on. *)
Definition NewClientFromKubeconfig (kubeconfig : string) : Result clientSetClient :=
  match RESTConfigFromKubeConfig kubeconfig with
  | Err e => Err (EWrap "k8srbac: parse kubeconfig: %w" [] e)
  | Ok cs =>
      match LoadClusters kubeconfig with
      | Err e => Err (EWrap "k8srbac: load kubeconfig: %w" [] e)
      | Ok clusters =>
          let '(server, ca) := default ("", "") (head clusters) in Ok (mkClientSet cs ca server)
      end
  end.

(** Create or update: the two shapes of the four helpers. *)
Definition upsert {A} (get : M Kube (Result A)) (create update : M Kube (Result unit)) : M Kube (Result unit) :=
  let* existing := get in
  match existing with
  | Err e => if IsNotFound e then create else ret (Err e)
  | Ok _ => update
  end.
Definition upsertRole (cs : Clientset) (sc : Scope) (name : string) (rules : list PolicyRule) : M Kube (Result unit) :=
  upsert (role_Get cs sc name) (role_Create cs sc name rules) (role_Update cs sc name rules).
Definition upsertBinding (cs : Clientset) (sc : Scope) (name : string) (b : RoleBinding) : M Kube (Result unit) :=
  upsert (binding_Get cs sc name) (binding_Create cs sc name b) (binding_Update cs sc name b).

Definition ignoreNotFound (m : M Kube (Result unit)) : M Kube (Result unit) :=
  let* r := m in ret (match r with Err e => if IsNotFound e then Ok tt else Err e | Ok _ => Ok tt end).

Context (c : clientSetClient).

Definition ApplyRole_ (name : string) (rules : list PolicyRule) (clusterScoped : bool) (namespace : string) :=
  upsertRole (cc_cs c) (scope_of clusterScoped namespace) name rules.
Definition DeleteRole_ (name : string) (clusterScoped : bool) (namespace : string) :=
  ignoreNotFound (role_Delete (cc_cs c) (scope_of clusterScoped namespace) name).

Definition binding_of (roleRef subjectKind subjectName : string) (clusterScoped : bool) : RoleBinding :=
  mkRoleBinding (mkRoleRef RbacGroupName (if clusterScoped then "ClusterRole" else "Role") roleRef)
    [mkSubject subjectKind subjectName RbacGroupName].
Definition ApplyBinding_ (name roleRef subjectKind subjectName : string) (clusterScoped : bool) (namespace : string) :=
  upsertBinding (cc_cs c) (scope_of clusterScoped namespace) name (binding_of roleRef subjectKind subjectName clusterScoped).
Definition DeleteBinding_ (name : string) (clusterScoped : bool) (namespace : string) :=
  ignoreNotFound (binding_Delete (cc_cs c) (scope_of clusterScoped namespace) name).

(** ** Certificates *)

Definition poll : Duration := Second / 2.
Definition signing_timeout : Duration := 30 * Second.
(** One look at the start and one after every wait, none of them after the
    first that is past the deadline. *)
Definition poll_rounds : nat := 62.

Fixpoint wait_loop (fuel : nat) (deadline : Time) (csrName : string) : M Kube (Go (Result string)) :=
  match fuel with
  | O => ret Hangs
  | S n =>
      let* r := csr_Certificate (cc_cs c) csrName in
      match r with
      | Err e => ret (Returns (Err (EWrap "k8srbac: get csr: %w" [] e)))
      | Ok cert =>
          if negb (empty_string cert) then ret (Returns (Ok cert))
          else
            let* s := get in
            if deadline <? kube_Now s
            then ret (Returns (Err (EFmt "k8srbac: csr %s not signed within 30s" [AStr csrName])))
            else
              let* w := kube_Wait poll in
              match w with Err e => ret (Returns (Err e)) | Ok _ => wait_loop n deadline csrName end
      end
  end.
Definition waitForCertificate (csrName : string) : M Kube (Go (Result string)) :=
  let* s := get in wait_loop poll_rounds (kube_Now s + signing_timeout) csrName.

Definition newline : string := String (ascii_of_nat 10) "".
Definition lines (l : list string) : string := String.concat newline l +:+ newline.
Definition buildKubeconfig (server ca user certPEM keyPEM : string) : string := lines [
  "apiVersion: v1"; "kind: Config"; "clusters:"; "- name: sdp-target"; "  cluster:"; "    server: " +:+ server;
  "    certificate-authority-data: " +:+ b64_encode ca; "contexts:"; "- name: sdp-target"; "  context:";
  "    cluster: sdp-target"; "    user: " +:+ user; "current-context: sdp-target"; "users:"; "- name: " +:+ user;
  "  user:"; "    client-certificate-data: " +:+ b64_encode certPEM; "    client-key-data: " +:+ b64_encode keyPEM].

Definition csr_name (commonName : string) : string := "sdp-" +:+ commonName.

Definition IssueUserKubeconfig_ (commonName org : string) : M Kube (Result string) :=
  try* pems := new_Request commonName org in
  let csrName := csr_name commonName in
  try* _ := wrap_err "k8srbac: create csr: %w" [] (csr_Create (cc_cs c)
    (mkCSR csrName pems.2 "kubernetes.io/kube-apiserver-client" ["client auth"] (86400 * 365))) in
  try* _ := wrap_err "k8srbac: approve csr: %w" [] (csr_Approve (cc_cs c) csrName) in
  let* signed := waitForCertificate csrName in
  ret (match signed with
       | Returns (Ok cert) => Ok (buildKubeconfig (cc_serverURL c) (cc_clusterCA c) commonName cert pems.1)
       | Returns (Err e) => Err e
       | _ => Err (ELib "the wait has no end")
       end).

(** Only a ClusterRoleBinding is looked for. *)
Definition RevokeUserSubject_ (bindingName newSubjectName : string) : M Kube (Result unit) :=
  try* cr := wrap_err "k8srbac: get binding %s: %w" [AStr bindingName] (binding_Get (cc_cs c) None bindingName) in
  match rb_Subjects cr with
  | [] => ret (Err (EFmt "k8srbac: binding %s has no subject" [AStr bindingName]))
  | s :: rest =>
      wrap_err "k8srbac: patch binding %s subject: %w" [AStr bindingName]
        (binding_Update (cc_cs c) None bindingName
           (mkRoleBinding (rb_RoleRef cr) (mkSubject (sj_Kind s) newSubjectName (sj_APIGroup s) :: rest)))
  end.
End Client.

#[global] Instance clientSet_client {K : KubeAPI} : ClusterClient clientSetClient Kube := {|
  ApplyRole := ApplyRole_; DeleteRole := DeleteRole_; ApplyBinding := ApplyBinding_; DeleteBinding := DeleteBinding_;
  IssueUserKubeconfig := IssueUserKubeconfig_; RevokeUserSubject := RevokeUserSubject_;
|}.
End ClientSet.

(** * The kubeconfig of an environment ([kubeconfigResolver]) *)

Section Resolver.
Context {G : Gorm} {P : Platform} {O : ObjectStore} {C : AESGCM}.
Context (k : string).

Definition resolver_err (f : string) (args : list Arg) : GoError := EFmt ("k8srbac resolver: " +:+ f) args.
Definition Resolve (environmentID : UUID) : M Admin (Result string) :=
  try* env := wrap_err "k8srbac resolver: environment %s: %w" [AStr (uuid_String environmentID)]
                (EnvironmentService.Get environmentID) in
  let credRef := ac_KubeCredRef (env_AccessConfig env) in
  if empty_string credRef
  then ret (Err (resolver_err "environment %s has no kubeCredRef" [AStr (uuid_String environmentID)]))
  else
    match uuid_Parse credRef with
    | None => ret (Err (EWrap "k8srbac resolver: environment %s kubeCredRef %q is not a uuid: %w"
                          [AStr (uuid_String environmentID); AStr credRef] errBadUUID))
    | Some credID =>
        try* cred := wrap_err "k8srbac resolver: credential %s: %w" [AStr (uuid_String credID)]
                       (CredentialService.Get k credID) in
        ret (if empty_string (cred_Value cred)
             then Err (resolver_err "credential %s has empty kubeconfig" [AStr (uuid_String credID)])
             else Ok (cred_Value cred))
    end.
End Resolver.

(** * The service ([service.go]) *)

Record CreateInput := mkCreateInput {
  ci_EnvironmentID : UUID; ci_SubjectKind : string; ci_SubjectID : string; ci_SubjectName : string; ci_Role : string;
  ci_ClusterScoped : bool; ci_Namespace : string; ci_Resources : list string; ci_Operations : list string }.
#[global] Instance Codec_CreateInput {P : Platform} : Codec CreateInput := {|
  zero := mkCreateInput uuid_Nil "" "" "" "" false "" [] [];
  enc := fun p => JObj (concat [field Codec_UUID "environmentId" (ci_EnvironmentID p);
    field _ "subjectKind" (ci_SubjectKind p); field _ "subjectId" (ci_SubjectID p);
    field _ "subjectName" (ci_SubjectName p); field _ "role" (ci_Role p);
    field _ "clusterScoped" (ci_ClusterScoped p); field _ "namespace" (ci_Namespace p);
    field _ "resources" (ci_Resources p); field _ "operations" (ci_Operations p)]);
  dec := dec_struct (mkCreateInput uuid_Nil "" "" "" "" false "" [] [])
    (fields_ret mkCreateInput <@> dec_field Codec_UUID "environmentId" <@> dec_field _ "subjectKind" <@>
      dec_field _ "subjectId" <@> dec_field _ "subjectName" <@> dec_field _ "role" <@>
      dec_field _ "clusterScoped" <@> dec_field _ "namespace" <@> dec_field _ "resources" <@> dec_field _ "operations");
  wf := fun p => uuid_Parse (uuid_String (ci_EnvironmentID p)) = Some (ci_EnvironmentID p);
|}.

Definition known_subject (kind : string) : bool := existsb (String.eqb kind) [SubjectUser; SubjectGroup; SubjectOrg].
Definition known_role (role : string) : bool := existsb (String.eqb role) [RoleAdmin; RoleOps; RoleDev; RoleReadonly].

Definition validateCreate (in_ : CreateInput) : option GoError :=
  if negb (known_subject (ci_SubjectKind in_))
  then Some (EFmt "k8srbac: invalid subjectKind %q" [AStr (ci_SubjectKind in_)])
  else if String.eqb (ci_Role in_) RoleCustom && (empty_list (ci_Resources in_) || empty_list (ci_Operations in_))
  then Some (EFmt "k8srbac: custom role requires resources and operations" [])
  else if negb (known_role (ci_Role in_) || String.eqb (ci_Role in_) RoleCustom)
  then Some (EFmt "k8srbac: invalid role %q" [AStr (ci_Role in_)])
  else if negb (ci_ClusterScoped in_) && empty_string (ci_Namespace in_)
  then Some (EFmt "k8srbac: namespace-scoped binding requires namespace" [])
  else if negb (String.eqb (ci_SubjectKind in_) SubjectUser) && empty_string (ci_SubjectName in_)
  then Some (EFmt "k8srbac: group/org subject requires subjectName (KC group path)" [])
  else None.

(** [mustJSON] of a list of strings: it never fails. *)
Definition mustJSON (l : list string) : RawJSON := Marshal l.

Module ClusterPermissions.
Section Service.
Context {G : Gorm} {P : Platform} {O : ObjectStore} {C : AESGCM} {E : Entropy} {R : MapOrder}.
Context {Cl D : Type} {I : ClusterClient Cl D}.

(** The hub's database and the clusters. *)
Record State := mkState { cp_admin : Admin; cp_bindings : Table ClusterBinding; cp_kube : D }.
#[global] Instance State_eta : Eta State := fun s => mkState (cp_admin s) (cp_bindings s) (cp_kube s).

(** CREDENTIAL_ENCRYPTION_KEY and the factory of clients. *)
Context (k : string) (clientFactory : string -> Result Cl).

Definition now_at : M State Time := fun s => (a_now (cp_admin s), s).
Definition repo {A} (m : Time -> M (Table ClusterBinding) A) : M State A :=
  let* now := now_at in zoom cp_bindings (m now).
Definition cluster {A} (m : M D A) : M State A := zoom cp_kube m.
(** A call whose error is dropped. *)
Definition best_effort {A} (m : M State A) : M State unit := let* _ := m in ret tt.

Definition clientForEnv (envID : UUID) : M State (Result Cl) :=
  try* kc := wrap_err "k8srbac: resolve kubeconfig: %w" [] (zoom cp_admin (Resolve k envID)) in
  ret (clientFactory kc).

(** [uuid.New()] *)
Definition new_id : M State UUID := fun s =>
  (uuid_New (a_uuids (cp_admin s)), s <| cp_admin := (cp_admin s) <| a_uuids := S (a_uuids (cp_admin s)) |> |>).

Definition GenerateHash : M State (Result string) := fun s =>
  let i := a_uuids (cp_admin s) in
  (match rand_bytes i 16 with
   | Ok b => Ok (hex_encode b)
   | Err e => Err (EWrap "k8srbac: generate hash: %w" [] e)
   end, s <| cp_admin := (cp_admin s) <| a_uuids := S i |> |>).

Definition is_user (kind : string) : bool := String.eqb kind SubjectUser.

Definition hash_for (kind : string) : M State (Result string) := if is_user kind then GenerateHash else ret (Ok "").

Definition row_of (in_ : CreateInput) (id : UUID) (hash : string) : ClusterBinding :=
  let custom := String.eqb (ci_Role in_) RoleCustom in
  mkClusterBinding id (ci_EnvironmentID in_) (ci_SubjectKind in_) (ci_SubjectID in_) (ci_SubjectName in_) (ci_Role in_)
    (ci_ClusterScoped in_) (ci_Namespace in_) (if custom then mustJSON (ci_Resources in_) else RawEmpty)
    (if custom then mustJSON (ci_Operations in_) else RawEmpty) hash StatusActive.

Definition binding_name (b : ClusterBinding) : string := CRBName (uuid_String (cb_ID b)).
Definition role_of (b : ClusterBinding) : string := role_name (uuid_String (cb_ID b)).

Definition drop_binding (client : Cl) (b : ClusterBinding) : M State (Result unit) :=
  cluster (DeleteBinding client (binding_name b) (cb_ClusterScoped b) (cb_Namespace b)).
Definition drop_role (client : Cl) (b : ClusterBinding) : M State (Result unit) :=
  cluster (DeleteRole client (role_of b) (cb_ClusterScoped b) (cb_Namespace b)).

(** What is done when a step fails: the undoings, then the error. *)
Definition undo {A B} (undoing : list (M State unit)) (format : string) (m : M State (Result A))
    (f : A -> M State (Result B)) : M State (Result B) :=
  let* r := m in
  match r with
  | Ok a => f a
  | Err e =>
      let* _ := for_each undoing (fun u => u) in ret (Err (EWrap format [] e))
  end.

Definition Create (in_ : CreateInput) : M State (Result (ClusterBinding * string)) :=
  match validateCreate in_ with
  | Some e => ret (Err e)
  | None =>
      try* client := clientForEnv (ci_EnvironmentID in_) in
      let* id := new_id in
      try* hash := hash_for (ci_SubjectKind in_) in
      let b := row_of in_ id hash in
      let rules := RoleTemplate (ci_Role in_) (ci_Resources in_) (ci_Operations in_) in
      let '(kind, subjName) := K8sSubjectName (cb_SubjectKind b) (cb_SubjectID b) (cb_SubjectName b) (cb_CertHash b) in
      let no_binding := best_effort (drop_binding client b) in
      let no_role := best_effort (drop_role client b) in
      undo [] "k8srbac: apply role: %w"
        (cluster (ApplyRole client (role_of b) rules (cb_ClusterScoped b) (cb_Namespace b))) (fun _ =>
      undo [no_role] "k8srbac: apply binding: %w"
        (cluster (ApplyBinding client (binding_name b) (role_of b) kind subjName (cb_ClusterScoped b) (cb_Namespace b)))
        (fun _ =>
      undo [no_binding; no_role] "k8srbac: persist binding: %w"
        (repo (fun now => ClusterBindingRepository.Create now b)) (fun b =>
      if is_user (cb_SubjectKind b) then
        undo [no_binding; no_role; best_effort (repo (fun now => ClusterBindingRepository.Delete now (cb_ID b)))]
          "k8srbac: issue kubeconfig: %w"
          (cluster (IssueUserKubeconfig client (common_name (cb_SubjectID b) (cb_CertHash b)) (cb_CertHash b)))
          (fun issued => ret (Ok (b, issued)))
      else ret (Ok (b, "")))))
  end.

(** A user's certificate is replaced; a group's binding goes. *)
Definition rotate (client : Cl) (b : ClusterBinding) : M State (Result (ClusterBinding * string)) :=
  try* newHash := GenerateHash in
  let name := common_name (cb_SubjectID b) newHash in
  try* issued := wrap_err "k8srbac: re-issue kubeconfig: %w" [] (cluster (IssueUserKubeconfig client name newHash)) in
  try* _ := wrap_err "k8srbac: rotate subject: %w" [] (cluster (RevokeUserSubject client (binding_name b) name)) in
  let b := b <| cb_CertHash := newHash |> in
  try* _ := repo (fun now => ClusterBindingRepository.Update now b) in
  ret (Ok (b, issued)).

(** The row handed back still reads active. *)
Definition withdraw (client : Cl) (b : ClusterBinding) : M State (Result (ClusterBinding * string)) :=
  try* _ := wrap_err "k8srbac: delete binding: %w" [] (drop_binding client b) in
  let* _ := best_effort (drop_role client b) in
  try* _ := repo (fun now => ClusterBindingRepository.SetStatus now (cb_ID b) StatusRevoked) in
  ret (Ok (b, "")).

Definition Revoke (id : UUID) : M State (Result (ClusterBinding * string)) :=
  try* b := repo (fun _ => ClusterBindingRepository.Get id) in
  if String.eqb (cb_Status b) StatusRevoked then ret (Ok (b, ""))
  else
    try* client := clientForEnv (cb_EnvironmentID b) in
    if is_user (cb_SubjectKind b) then rotate client b else withdraw client b.

Definition Delete (id : UUID) : M State (Result unit) :=
  try* b := repo (fun _ => ClusterBindingRepository.Get id) in
  try* client := clientForEnv (cb_EnvironmentID b) in
  let* _ := best_effort (drop_binding client b) in
  let* _ := best_effort (drop_role client b) in
  void (repo (fun now => ClusterBindingRepository.Delete now (cb_ID b))).

Definition ListByEnvironment (envID : UUID) : M State (Result (list ClusterBinding)) :=
  repo (fun _ => ClusterBindingRepository.ListByEnvironment envID).
Definition Get (id : UUID) : M State (Result ClusterBinding) := repo (fun _ => ClusterBindingRepository.Get id).
End Service.
End ClusterPermissions.

(** * The handlers ([handler.go]) *)

Record clusterBindingResp := mkClusterBindingResp {
  cr_ID : string; cr_EnvironmentID : string; cr_SubjectKind : string; cr_SubjectID : string; cr_SubjectName : string;
  cr_Role : string; cr_ClusterScoped : bool; cr_Namespace : string; cr_Resources : list string;
  cr_Operations : list string; cr_CertHash : string; cr_Status : string }.

(** A nil slice prints as null. *)
Definition enc_nil (l : list string) : json := if empty_list l then JNull else enc l.
Definition enc_bindingResp (r : clusterBindingResp) : json := JObj (concat [
  field _ "id" (cr_ID r); field _ "environmentId" (cr_EnvironmentID r); field _ "subjectKind" (cr_SubjectKind r);
  field _ "subjectId" (cr_SubjectID r); field _ "subjectName" (cr_SubjectName r); field _ "role" (cr_Role r);
  field _ "clusterScoped" (cr_ClusterScoped r); field _ "namespace" (cr_Namespace r);
  [("resources", enc_nil (cr_Resources r))]; [("operations", enc_nil (cr_Operations r))];
  field _ "certHash" (cr_CertHash r); field _ "status" (cr_Status r)]).

(** [parseJSON], its error dropped. *)
Definition parseJSON (j : RawJSON) : list string := if raw_len0 j then [] else (Unmarshal (A := list string) j).1.

Definition toResp {P : Platform} (b : ClusterBinding) : clusterBindingResp :=
  mkClusterBindingResp (uuid_String (cb_ID b)) (uuid_String (cb_EnvironmentID b)) (cb_SubjectKind b) (cb_SubjectID b)
    (cb_SubjectName b) (cb_Role b) (cb_ClusterScoped b) (cb_Namespace b) (parseJSON (cb_Resources b))
    (parseJSON (cb_Operations b)) (cb_CertHash b) (cb_Status b).

(** A binding and, for a user, the kubeconfig. *)
Definition createResp {P : Platform} (r : ClusterBinding * string) : RawJSON :=
  RawDoc (JObj (("binding", enc_bindingResp (toResp r.1)) :: field_opt _ "kubeconfig" empty_string r.2)).

Module ClusterPermissionHandler.
Section Handler.
Context {G : Gorm} {P : Platform} {O : ObjectStore} {C : AESGCM} {E : Entropy} {R : MapOrder}.
Context {Cl D : Type} {I : ClusterClient Cl D}.
Context (k : string) (clientFactory : string -> Result Cl).
Import ClusterPermissions.

Definition answered {A} (status : Z) (r : Result A) (f : A -> Response) : Response :=
  match r with Err e => Fail status e | Ok a => f a end.

Definition with_id (text what : string) (f : UUID -> M (State (D := D)) Response) : M (State (D := D)) Response :=
  match parse_uuid text with
  | Err _ => ret (Fail StatusBadRequest (EFmt what []))
  | Ok id => f id
  end.

Definition Create (body : RawJSON) : M (State (D := D)) Response :=
  match UnmarshalE (A := CreateInput) body with
  | Err e => ret (Fail StatusBadRequest e)
  | Ok in_ =>
      let* r := ClusterPermissions.Create k clientFactory in_ in
      ret (answered StatusInternalServerError r (fun r => Created_ (createResp r)))
  end.

Definition List (environmentId : string) : M (State (D := D)) Response :=
  with_id environmentId "invalid environmentId" (fun envID =>
    let* r := ListByEnvironment envID in
    ret (answered StatusInternalServerError r (fun bs =>
      OK_ (RawDoc (JArr ((fun b => enc_bindingResp (toResp b)) <$> bs)))))).

Definition Get (id : string) : M (State (D := D)) Response :=
  with_id id "invalid id" (fun id =>
    let* r := ClusterPermissions.Get id in
    ret (answered StatusNotFound r (fun b => OK_ (RawDoc (enc_bindingResp (toResp b)))))).

Definition Revoke (id : string) : M (State (D := D)) Response :=
  with_id id "invalid id" (fun id =>
    let* r := ClusterPermissions.Revoke k clientFactory id in
    ret (answered StatusInternalServerError r (fun r => OK_ (createResp r)))).

Definition Delete (id : string) : M (State (D := D)) Response :=
  with_id id "invalid id" (fun id =>
    let* r := ClusterPermissions.Delete k clientFactory id in
    ret (answered StatusInternalServerError r (fun _ => NoContentReply))).
End Handler.
End ClusterPermissionHandler.
