(* ===== verification/PipelineEdit.v ===== *)
(** Editing a pipeline definition ([internal/pipeline/service/pipeline.go],
    [stage.go], [task_template.go]): the three services that change it and the
    publication of a version after each change.

    [VersionPublisher] and [TemplateCascade] are the services' optional
    collaborators; [PipelineVersionService.Publish] and
    [TaskTemplateRepository.DeleteByStageID] are what [main] wires. *)
From stdpp Require Import base list strings gmap.
From Stdlib Require Import ZArith Lia Ascii.
From S2P Require Import Prelude Common Gorm Json GoLib RunnerProto RunStore PipelineStore TargetStore.
From S2P Require Import OrgStore EditStore World RunDispatch PipelineVersions.

Open Scope Z_scope.

Definition errStageNotFound : GoError := EApi (DomainError KindPipeline StatusNotFound 2 "stage not found").
Definition errBadExecutionMode : GoError :=
  EApi (DomainError KindPipeline StatusBadRequest 1 "invalid executionMode (want parallel|serial)").

Section Store.
Context {G : Gorm}.

Definition in_list (componentID : UUID) (kind name : string) (p : Pipeline) : bool :=
  ((componentID =? uuid_Nil) || (pl_ComponentID p =? componentID)) &&
  (empty_string kind || String.eqb (pl_Kind p) kind) &&
  (empty_string name || ilike ("%" +:+ name +:+ "%") (pl_Name p)).

Definition PipelineRepository_FindAll (componentID : UUID) (kind name : string) (p : Pagination)
  : M (Table Pipeline) (Result (list Pipeline * Z)) :=
  Repository_List p (Order [fun r => - pl_CreatedAt r] (Where (in_list componentID kind name))).
End Store.

Section Services.
Context {G : Gorm} {P : Platform} {D : Dispatcher}.

Definition VersionPublisher : Type := option (UUID -> string -> M World (Result unit)).

(** Publication after an edit that is already stored: an error is only logged. *)
Definition publishVersion (versions : VersionPublisher) (pipelineID : UUID) : M World unit :=
  match versions with
  | None => ret tt
  | Some publish => if pipelineID =? uuid_Nil then ret tt else ignore (publish pipelineID "")
  end.
End Services.

(** * Stages *)

Definition normalizeExecutionMode (m : string) : string := ToLower (TrimSpace m).

Module StageService.
Section Service.
Context {G : Gorm} {P : Platform} {D : Dispatcher}.

Record Config := mkConfig {
  templates : option (UUID -> M World (Result unit));
  versions : VersionPublisher;
}.

Definition ensureLivePipeline (pipelineID : UUID) : M World (Result unit) :=
  let* p := zoom w_pipelines (PipelineRepository.GetByID pipelineID) in
  ret (match p with Ok _ => Ok tt | Err _ => Err errPipelineNotFound end).

Definition EnsureStageExists (stageID : UUID) : M World (Result unit) :=
  let* stage := zoom w_stages (StageRepository.GetByID stageID) in
  match stage with
  | Err _ => ret (Err errStageNotFound)
  | Ok stage => ensureLivePipeline (st_PipelineID stage)
  end.

Definition Create (s : Config) (stage : PipelineStage) : M World (Result PipelineStage) :=
  try* _ := ensureLivePipeline (st_PipelineID stage) in
  let mode := normalizeExecutionMode (st_ExecutionMode stage) in
  let mode := if empty_string mode then ExecutionModeParallel else mode in
  if negb (IsValidExecutionMode mode) then ret (Err errBadExecutionMode)
  else
    try* stage := stmt w_stages (fun now => StageRepository.Create now (stage <| st_ExecutionMode := mode |>)) in
    publishVersion (versions s) (st_PipelineID stage) ;;;
    ret (Ok stage).

Definition PipelineIDOf (stageID : UUID) : M World (Result UUID) :=
  let* stage := zoom w_stages (StageRepository.GetByID stageID) in
  ret (match stage with Ok stage => Ok (st_PipelineID stage) | Err _ => Err errStageNotFound end).

Definition ListByPipeline (pipelineID : UUID) : M World (Result (list PipelineStage)) :=
  try* _ := ensureLivePipeline pipelineID in
  zoom w_stages (StageRepository.ListByPipelineID pipelineID).

Definition Update (s : Config) (id : UUID) (input : PipelineStage) : M World (Result PipelineStage) :=
  try* existing := zoom w_stages (StageRepository.GetByID id) in
  let existing := existing <| st_Name := st_Name input |> <| st_Sequence := st_Sequence input |> in
  let mode := normalizeExecutionMode (st_ExecutionMode input) in
  if negb (empty_string mode) && negb (IsValidExecutionMode mode) then ret (Err errBadExecutionMode)
  else
    let existing := if empty_string mode then existing else existing <| st_ExecutionMode := mode |> in
    try* existing := stmt w_stages (fun now => StageRepository.Update now existing) in
    publishVersion (versions s) (st_PipelineID existing) ;;;
    ret (Ok existing).

Definition Delete (s : Config) (id : UUID) : M World (Result unit) :=
  let* stage := zoom w_stages (StageRepository.GetByID id) in
  let pipelineID := match stage with Ok stage => st_PipelineID stage | Err _ => uuid_Nil end in
  try* _ := match templates s with Some cascade => cascade id | None => ret (Ok tt) end in
  try* _ := stmt w_stages (fun now => StageRepository.Delete now id) in
  publishVersion (versions s) pipelineID ;;;
  ret (Ok tt).
End Service.
End StageService.

(** * Task templates *)

Module TaskTemplateService.
Section Service.
Context {G : Gorm} {P : Platform} {D : Dispatcher} (versions : VersionPublisher).

Definition publishVersionForStage (stageID : UUID) : M World unit :=
  match versions with
  | None => ret tt
  | Some publish =>
      let* pipelineID := StageService.PipelineIDOf stageID in
      match pipelineID with
      | Err _ => ret tt
      | Ok pipelineID => if pipelineID =? uuid_Nil then ret tt else ignore (publish pipelineID "")
      end
  end.

Definition Create (t : PipelineTaskTemplate) : M World (Result PipelineTaskTemplate) :=
  try* _ := StageService.EnsureStageExists (tpl_StageID t) in
  try* t := stmt w_templates (fun now => TaskTemplateRepository.Create now t) in
  publishVersionForStage (tpl_StageID t) ;;;
  ret (Ok t).

Definition ListByStage (stageID : UUID) : M World (Result (list PipelineTaskTemplate)) :=
  try* _ := StageService.EnsureStageExists stageID in
  zoom w_templates (TaskTemplateRepository.ListByStageID stageID).

Definition keep (dst curVal def : RawJSON) : RawJSON :=
  if raw_len0 dst then (if raw_len0 curVal then def else curVal) else dst.

(** The submitted row, with the stored values of what was not submitted. *)
Definition kept (id : UUID) (t cur : PipelineTaskTemplate) : PipelineTaskTemplate :=
  t <| tpl_ID := id |> <| tpl_StageID := tpl_StageID cur |>
    <| tpl_ScriptArgs := keep (tpl_ScriptArgs t) (tpl_ScriptArgs cur) empty_array |>
    <| tpl_Command := keep (tpl_Command t) (tpl_Command cur) empty_array |>
    <| tpl_Args := keep (tpl_Args t) (tpl_Args cur) empty_array |>
    <| tpl_Produces := keep (tpl_Produces t) (tpl_Produces cur) empty_array |>
    <| tpl_Consumes := keep (tpl_Consumes t) (tpl_Consumes cur) empty_array |>
    <| tpl_RetryPolicy := keep (tpl_RetryPolicy t) (tpl_RetryPolicy cur) default_retry |>.

Definition Update (id : UUID) (t : PipelineTaskTemplate) : M World (Result PipelineTaskTemplate) :=
  try* cur := zoom w_templates (TaskTemplateRepository.GetByID id) in
  try* t := stmt w_templates (fun now => TaskTemplateRepository.Update now (kept id t cur)) in
  publishVersionForStage (tpl_StageID cur) ;;;
  ret (Ok t).

Definition Delete (id : UUID) : M World (Result unit) :=
  let* cur := zoom w_templates (TaskTemplateRepository.GetByID id) in
  let stageID := match cur with Ok cur => tpl_StageID cur | Err _ => uuid_Nil end in
  try* _ := stmt w_templates (fun now => TaskTemplateRepository.Delete now id) in
  publishVersionForStage stageID ;;;
  ret (Ok tt).
End Service.
End TaskTemplateService.

(** * Pipelines *)

(** The phases that block a deletion. *)
Definition activePhases : list string := ["Pending"; "Running"; "WaitingApproval"].

Record PipelineListOpts := mkPipelineListOpts {
  plo_ComponentID : UUID; plo_Kind : string; plo_Name : string }.

(** Also the default it writes into the row. *)
Definition normalizeConcurrencyPolicy (p : Pipeline) : Result Pipeline :=
  let policy := pl_ConcurrencyPolicy p in
  if empty_string policy then Ok (p <| pl_ConcurrencyPolicy := ConcurrencyAllow |>)
  else if String.eqb policy ConcurrencyAllow || String.eqb policy ConcurrencyQueue ||
          String.eqb policy ConcurrencyForbid then Ok p
  else Err (EApi (DomainErrorWithReasons KindPipeline StatusBadRequest 8 "Invalid Concurrency Policy"
         ["concurrencyPolicy 必须是 allow / queue / forbid 之一"])).

Module PipelineService.
Section Service.
Context {G : Gorm} {P : Platform} {D : Dispatcher} (versions : VersionPublisher).

Definition Create (p : Pipeline) : M World (Result Pipeline) :=
  match normalizeConcurrencyPolicy p with
  | Err e => ret (Err e)
  | Ok p => stmt w_pipelines (fun now => PipelineRepository.Create now (p <| pl_Version := 1 |>))
  end.

Definition Get (id : UUID) : M World (Result Pipeline) := zoom w_pipelines (PipelineRepository.GetByID id).
Definition GetByID (id : UUID) : M World (Result Pipeline) := zoom w_pipelines (PipelineRepository.GetByID id).
Definition ListByComponent (componentID : UUID) (p : Pagination) : M World (Result (list Pipeline * Z)) :=
  zoom w_pipelines (PipelineRepository.FindByComponentID componentID p).
Definition List (opts : PipelineListOpts) (p : Pagination) : M World (Result (list Pipeline * Z)) :=
  zoom w_pipelines (PipelineRepository_FindAll (plo_ComponentID opts) (plo_Kind opts) (plo_Name opts) p).

Definition Update (id : UUID) (p : Pipeline) : M World (Result unit) :=
  try* existing := Get id in
  let existing := existing <| pl_Name := pl_Name p |> <| pl_Kind := pl_Kind p |>
    <| pl_Description := pl_Description p |> <| pl_Params := pl_Params p |> in
  match normalizeConcurrencyPolicy p with
  | Err e => ret (Err e)
  | Ok p =>
      let existing := existing <| pl_ConcurrencyPolicy := pl_ConcurrencyPolicy p |> in
      match versions with
      | Some publish =>
          try* _ := stmt w_pipelines (fun now => PipelineRepository.Update now existing) in
          publish id (pl_CreatedBy p)
      | None =>
          try* _ := stmt w_pipelines (fun now =>
            PipelineRepository.Update now (existing <| pl_Version := pl_Version existing + 1 |>)) in
          ret (Ok tt)
      end
  end.

Definition still_active (n : Z) : GoError :=
  EApi (DomainErrorWithReasons KindPipeline StatusConflict 1
    "pipeline still has in-progress runs; terminate them before deleting"
    [Sprintf "%d 条运行仍在进行中（Pending/Running/WaitingApproval），请先终止后再删除" [AInt n]]).

Definition Delete (id : UUID) : M World (Result unit) :=
  try* n := zoom w_runs (PipelineRunRepository.CountActiveByPipeline id activePhases) in
  if 0 <? n then ret (Err (still_active n))
  else
    try* _ := stmt w_pipelines (fun now => PipelineRepository.Delete now id) in
    ret (Ok tt).
End Service.
End PipelineService.
