(* ===== verification/RunHandlers.v ===== *)
(** The HTTP face of the run subsystem: what every handler shares, the rows as
    the console reads them, and the handlers of [internal/run/handler].

    A handler answers a request on the state of the hub; gin's routing and the
    middleware in front ([Middleware]) have already run, and what they left on
    the context is an argument where a handler reads it. *)
From stdpp Require Import base list strings gmap sorting.
From Stdlib Require Import ZArith Lia Ascii.
From S2P Require Import Prelude Common Gorm Json GoLib RunnerProto RunStore PipelineStore TargetStore.
From S2P Require Import EditStore World Middleware PipelineVersions RunDispatch RunTrigger RunControl RunSweeps.

Open Scope Z_scope.

(** * Requests and replies *)

(** A query parameter may be absent. *)
Record HttpRequest := mkHttpRequest {
  hq_Param : string -> string; hq_GetQuery : string -> option string;
  hq_Header : string -> string; hq_Body : RawJSON }.

Definition Query_of (rq : HttpRequest) (name : string) : string := default "" (hq_GetQuery rq name).
Definition DefaultQuery (rq : HttpRequest) (name def : string) : string := default def (hq_GetQuery rq name).

Definition page_of (rq : HttpRequest) : Pagination :=
  ParsePagination (Atoi (Query_of rq "page")) (Atoi (Query_of rq "pageSize")).

Definition NoContent : Response := mkResponse 204 [] NoBody.

Definition PagedData (items : list json) (total : Z) (p : Pagination) : json :=
  JObj [("items", JArr items); ("total", JNum total); ("page", JNum (Page p)); ("pageSize", JNum (PageSize p))].
Definition OKPaged (items : list json) (total : Z) (p : Pagination) : Response :=
  OK_ (RawDoc (PagedData items total p)).

(** [common.Fail(c, status, err)], or the reply of a result. *)
Definition fail_or {A} (status : Z) (r : Result A) (reply : A -> Response) : Response :=
  match r with Err e => Fail status e | Ok a => reply a end.
(** [common.AbortWithError(c, err)], or the reply of a result. *)
Definition abort_or {A} (r : Result A) (reply : A -> Response) : Response :=
  match r with Err e => AbortWithError (Some e) | Ok a => reply a end.

Definition bad_param (e : GoError) : Response := AbortWithError (Some (EApi (WithError ErrBadRequest (Some e)))).

(** [uuid.Parse(c.Param(name))] and [c.ShouldBindJSON], each with the two ways
    the handlers refuse. *)
Definition path_uuid {P : Platform} {A} (refuse : GoError -> A) (rq : HttpRequest) (name : string)
    (k : UUID -> A) : A :=
  match parse_uuid (hq_Param rq name) with Err e => refuse e | Ok id => k id end.
Definition body_of {T A} {C : Codec T} (refuse : GoError -> A) (rq : HttpRequest) (k : T -> A) : A :=
  match UnmarshalE (A := T) (hq_Body rq) with Err e => refuse e | Ok v => k v end.

Definition fails {S} (e : GoError) : M S Response := ret (Fail StatusBadRequest e).
Definition aborts {S} (e : GoError) : M S Response := ret (bad_param e).

(** [time.Time] as encoding/json prints and reads it. *)
Class TimeText : Type := { time_text : Time -> string; text_time : string -> option Time }.

Definition Codec_Time {X : TimeText} : Codec Time := {|
  zero := time_Zero;
  enc := fun t => JStr (time_text t);
  dec := fun v => match v with
    | JStr s => match text_time s with Some t => (t, true) | None => (time_Zero, false) end
    | JNull => (time_Zero, true)
    | _ => (time_Zero, false)
    end;
  wf := fun t => text_time (time_text t) = Some t;
|}.

(** * Rows as documents *)

Section Rows.
Context {P : Platform} {X : TimeText}.

Definition uuid_field (name : string) (id : UUID) : list (string * json) := field Codec_UUID name id.
Definition time_field (name : string) (t : Time) : list (string * json) := field Codec_Time name t.
Definition int_field (name : string) (n : Z) : list (string * json) := field int64 name n.
(** A pointer with [omitempty]. *)
Definition ptr_field {A} (C : Codec A) (name : string) (o : option A) : list (string * json) :=
  match o with Some a => [(name, enc a)] | None => [] end.
Definition text_field (name s : string) : list (string * json) := field _ name s.
Definition text_opt (name s : string) : list (string * json) := field_opt _ name empty_string s.

Definition enc_PipelineRun (r : PipelineRun) : json := JObj (concat [
  uuid_field "id" (run_ID r); uuid_field "pipelineId" (run_PipelineID r); uuid_field "targetId" (run_TargetID r);
  ptr_field Codec_UUID "orgId" (run_OrgID r); ptr_field Codec_UUID "environmentId" (run_EnvironmentID r);
  text_field "crName" (run_CRName r); text_field "crNamespace" (run_CRNamespace r);
  text_opt "commitSha" (run_CommitSHA r); raw_field "params" (run_Params r);
  int_field "pipelineVersion" (run_PipelineVersion r); text_field "phase" (run_Phase r);
  field_opt int64 "timeoutSeconds" empty_Z (run_TimeoutSeconds r); text_opt "triggeredBy" (run_TriggeredBy r);
  text_opt "triggerSource" (run_TriggerSource r); ptr_field Codec_Time "startTime" (run_StartTime r);
  ptr_field Codec_Time "completionTime" (run_CompletionTime r); text_opt "message" (run_Message r);
  time_field "createdAt" (run_CreatedAt r); time_field "updatedAt" (run_UpdatedAt r)]).

Definition enc_TaskRun (r : TaskRun) : json := JObj (concat [
  uuid_field "id" (task_ID r); uuid_field "pipelineRunId" (task_PipelineRunID r);
  ptr_field Codec_UUID "taskTemplateId" (task_TaskTemplateID r); text_field "crName" (task_CRName r);
  text_field "taskName" (task_TaskName r); text_field "stageName" (task_StageName r);
  text_field "type" (task_Type r); text_field "phase" (task_Phase r); int_field "retryCount" (task_RetryCount r);
  ptr_field int32 "exitCode" (task_ExitCode r); ptr_field Codec_Time "startTime" (task_StartTime r);
  ptr_field Codec_Time "completionTime" (task_CompletionTime r); text_opt "logsRef" (task_LogsRef r);
  text_opt "message" (task_Message r); time_field "createdAt" (task_CreatedAt r);
  time_field "updatedAt" (task_UpdatedAt r)]).

(** The payload stays inside. *)
Definition enc_DispatchJob (r : DispatchJob) : json := JObj (concat [
  uuid_field "id" (job_ID r); uuid_field "pipelineRunId" (job_PipelineRunID r);
  uuid_field "targetId" (job_TargetID r); text_field "state" (job_State r); int_field "attempts" (job_Attempts r);
  text_opt "lastError" (job_LastError r); ptr_field Codec_Time "nextRetryAt" (job_NextRetryAt r);
  time_field "createdAt" (job_CreatedAt r); time_field "updatedAt" (job_UpdatedAt r)]).

Definition enc_TaskRunLog (r : TaskRunLog) : json := JObj (concat [
  uuid_field "id" (log_ID r); uuid_field "pipelineRunId" (log_PipelineRunID r);
  text_field "taskName" (log_TaskName r); text_opt "stream" (log_Stream r); text_field "chunk" (log_Chunk r);
  time_field "createdAt" (log_CreatedAt r)]).

Definition enc_PipelineApproval (r : PipelineApproval) : json := JObj (concat [
  uuid_field "id" (appr_ID r); uuid_field "orgId" (appr_OrgID r); uuid_field "runId" (appr_RunID r);
  ptr_field Codec_UUID "taskRunId" (appr_TaskRunID r); uuid_field "componentId" (appr_ComponentID r);
  uuid_field "pipelineId" (appr_PipelineID r); text_field "status" (appr_Status r);
  text_field "requestedBy" (appr_RequestedBy r); text_opt "approver" (appr_Approver r);
  text_opt "assignee" (appr_Assignee r); text_opt "decisionComment" (appr_DecisionComment r);
  time_field "createdAt" (appr_CreatedAt r); ptr_field Codec_Time "decidedAt" (appr_DecidedAt r)]).

Definition enc_ApprovalPolicy (r : ApprovalPolicy) : json := JObj (concat [
  uuid_field "id" (pol_ID r); uuid_field "componentId" (pol_ComponentID r);
  ptr_field Codec_UUID "environmentId" (pol_EnvironmentID r); text_field "mode" (pol_Mode r);
  field_opt int64 "minApprovals" empty_Z (pol_MinApprovals r); text_opt "assignees" (pol_Assignees r);
  field_opt int64 "timeoutSeconds" empty_Z (pol_TimeoutSeconds r); text_opt "createdBy" (pol_CreatedBy r);
  time_field "createdAt" (pol_CreatedAt r); time_field "updatedAt" (pol_UpdatedAt r)]).

Definition enc_RolloutRun (r : RolloutRun) : json := JObj (concat [
  uuid_field "id" (rr_ID r); uuid_field "taskRunId" (rr_TaskRunID r); text_field "workloadRef" (rr_WorkloadRef r);
  text_field "phase" (rr_Phase r); int_field "currentStepIndex" (rr_CurrentStepIndex r);
  int_field "currentWeight" (rr_CurrentWeight r); raw_field "stepHistory" (rr_StepHistory r);
  ptr_field Codec_Time "startTime" (rr_StartTime r); ptr_field Codec_Time "completionTime" (rr_CompletionTime r)]).

Definition enc_StageProgressRow (r : StageProgressRow) : json := JObj (concat [
  text_field "name" (spr_Name r); int_field "sequence" (spr_Sequence r);
  text_field "executionMode" (spr_ExecutionMode r); text_field "status" (spr_Status r);
  int_field "done" (spr_Done r); int_field "total" (spr_Total r)]).
End Rows.

(** * The Run Center's query *)

Section FindAll.
Context {G : Gorm}.

(** JOIN pipelines ON p.id = pipeline_id, live ones of the component; [pipelines]
    are the rows the statement sees. *)
Definition of_component (pipelines : list Pipeline) (componentID : UUID) (r : PipelineRun) : bool :=
  (componentID =? uuid_Nil) ||
  existsb (fun p => (pl_ID p =? run_PipelineID r) && (pl_ComponentID p =? componentID) && live (pl_DeletedAt p))
    pipelines.

Definition in_run_center (pipelines : list Pipeline) (phase : string) (componentID : UUID)
    (createdAfter : option Time) (triggeredBy : string) (r : PipelineRun) : bool :=
  of_component pipelines componentID r && (empty_string phase || String.eqb (run_Phase r) phase) &&
  match createdAfter with Some t => t <=? run_CreatedAt r | None => true end &&
  (empty_string triggeredBy || String.eqb (run_TriggeredBy r) triggeredBy).

Definition FindAll (pipelines : list Pipeline) (p : Pagination) (phase : string) (componentID : UUID)
    (createdAfter : option Time) (triggeredBy : string) : M (Table PipelineRun) (Result (list PipelineRun * Z)) :=
  Repository_List p (Order [fun r => - run_CreatedAt r]
    (Where (in_run_center pipelines phase componentID createdAfter triggeredBy))).
End FindAll.

(** * Bodies *)

Section Bodies.
Context {P : Platform}.

Definition Codec_TriggerRequest : Codec TriggerRequest := {|
  zero := mkTriggerRequest None [] "" "" "" "" [] "" 0 "" "";
  enc := fun p => JObj (concat [
    ptr_field Codec_UUID "targetId" (tq_TargetID p);
    field_opt (Codec_list (C := Codec_UUID)) "targetIds" empty_list (tq_TargetIDs p);
    text_opt "targetNamespace" (tq_TargetNamespace p); text_opt "repoUrl" (tq_RepoURL p);
    text_opt "repoRef" (tq_RepoRef p); text_opt "repoPath" (tq_RepoPath p);
    field_opt _ "params" empty_list (tq_Params p); text_opt "commitSha" (tq_CommitSHA p);
    field_opt int64 "timeoutSeconds" empty_Z (tq_TimeoutSeconds p); text_opt "triggeredBy" (tq_TriggeredBy p)]);
  dec := dec_struct (mkTriggerRequest None [] "" "" "" "" [] "" 0 "" "")
    (fields_ret (fun a b c d e f g h i j => mkTriggerRequest a b c d e f g h i j "") <@>
       dec_field (Codec_ptr Codec_UUID) "targetId" <@> dec_field (Codec_list (C := Codec_UUID)) "targetIds" <@>
       dec_field _ "targetNamespace" <@> dec_field _ "repoUrl" <@> dec_field _ "repoRef" <@>
       dec_field _ "repoPath" <@> dec_field _ "params" <@> dec_field _ "commitSha" <@>
       dec_field int64 "timeoutSeconds" <@> dec_field _ "triggeredBy");
  wf := fun _ => True;
|}.

(** [{"mode", "environmentId", "minApprovals", "assignees", "timeoutSeconds"}] *)
Record policyReq := mkPolicyReq {
  py_EnvironmentID : option UUID; py_Mode : string; py_MinApprovals : Z; py_Assignees : RawJSON;
  py_TimeoutSeconds : Z }.
Definition Codec_policyReq : Codec policyReq := {|
  zero := mkPolicyReq None "" 0 RawEmpty 0;
  enc := fun p => JObj (concat [
    ptr_field Codec_UUID "environmentId" (py_EnvironmentID p); text_field "mode" (py_Mode p);
    field_opt int64 "minApprovals" empty_Z (py_MinApprovals p); raw_field "assignees" (py_Assignees p);
    field_opt int64 "timeoutSeconds" empty_Z (py_TimeoutSeconds p)]);
  dec := dec_struct (mkPolicyReq None "" 0 RawEmpty 0)
    (fields_ret mkPolicyReq <@> dec_field (Codec_ptr Codec_UUID) "environmentId" <@> dec_field _ "mode" <@>
       dec_field int64 "minApprovals" <@> dec_raw_field "assignees" <@> dec_field int64 "timeoutSeconds");
  wf := fun _ => True;
|}.
End Bodies.

Record ApprovalDecisionRequest := mkApprovalDecisionRequest {
  ad_Approved : bool; ad_Approver : string; ad_Reason : string; ad_Ticket : string }.
#[global] Instance Codec_ApprovalDecisionRequest : Codec ApprovalDecisionRequest := {|
  zero := mkApprovalDecisionRequest false "" "" "";
  enc := fun p => JObj (concat [
    field _ "approved" (ad_Approved p); field_opt _ "approver" empty_string (ad_Approver p);
    field_opt _ "reason" empty_string (ad_Reason p); field_opt _ "ticket" empty_string (ad_Ticket p)]);
  dec := dec_struct (mkApprovalDecisionRequest false "" "" "")
    (fields_ret mkApprovalDecisionRequest <@> dec_field _ "approved" <@> dec_field _ "approver" <@>
       dec_field _ "reason" <@> dec_field _ "ticket");
  wf := fun _ => True;
|}.
#[global] Instance CodecLaws_ApprovalDecisionRequest : CodecLaws ApprovalDecisionRequest.
Proof. split; [|done]. intros [] _. struct_roundtrip. Qed.

Record RolloutControlRequest := mkRolloutControlRequest {
  ro_Action : string; ro_Operator : string; ro_Reason : string; ro_Ticket : string }.
#[global] Instance Codec_RolloutControlRequest : Codec RolloutControlRequest := {|
  zero := mkRolloutControlRequest "" "" "" "";
  enc := fun p => JObj (concat [
    field _ "action" (ro_Action p); field_opt _ "operator" empty_string (ro_Operator p);
    field_opt _ "reason" empty_string (ro_Reason p); field_opt _ "ticket" empty_string (ro_Ticket p)]);
  dec := dec_struct (mkRolloutControlRequest "" "" "" "")
    (fields_ret mkRolloutControlRequest <@> dec_field _ "action" <@> dec_field _ "operator" <@>
       dec_field _ "reason" <@> dec_field _ "ticket");
  wf := fun _ => True;
|}.
#[global] Instance CodecLaws_RolloutControlRequest : CodecLaws RolloutControlRequest.
Proof. split; [|done]. intros [] _. struct_roundtrip. Qed.

(** A release bound onto a row that may hold values already: a field that is
    absent keeps them, [null] clears a pointer and a raw column, and leaves the
    others alone. *)
Section Release.
Context {P : Platform} {X : TimeText}.

Definition onto {A} (C : Codec A) (name : string) (cur : A) : Fields A := fun kvs =>
  match get_key name kvs with Some v => dec v | None => (cur, true) end.
Definition ptr_onto {A} (C : Codec A) (name : string) (cur : option A) : Fields (option A) := fun kvs =>
  match get_raw name kvs with
  | Some v => @dec _ (Codec_ptr C) v
  | None => (cur, true)
  end.
Definition raw_onto (name : string) (cur : RawJSON) : Fields RawJSON := fun kvs =>
  (match get_raw name kvs with Some v => RawDoc v | None => cur end, true).

Definition RolloutRun_onto (cur : RolloutRun) : Fields RolloutRun :=
  fields_ret mkRolloutRun <@> onto Codec_UUID "id" (rr_ID cur) <@> onto Codec_UUID "taskRunId" (rr_TaskRunID cur) <@>
    onto _ "workloadRef" (rr_WorkloadRef cur) <@> onto _ "phase" (rr_Phase cur) <@>
    onto int64 "currentStepIndex" (rr_CurrentStepIndex cur) <@> onto int64 "currentWeight" (rr_CurrentWeight cur) <@>
    raw_onto "stepHistory" (rr_StepHistory cur) <@> ptr_onto Codec_Time "startTime" (rr_StartTime cur) <@>
    ptr_onto Codec_Time "completionTime" (rr_CompletionTime cur).

Definition zero_rollout : RolloutRun := mkRolloutRun uuid_Nil uuid_Nil "" "" 0 0 RawEmpty None None.

(** [c.ShouldBindJSON(cur)] *)
Definition bind_release (cur : RolloutRun) (body : RawJSON) : Result RolloutRun :=
  match body with
  | RawEmpty | RawBad _ => Err err_json_syntax
  | RawDoc v => let '(r, ok) := dec_struct cur (RolloutRun_onto cur) v in if ok then Ok r else Err err_json_type
  end.
End Release.

(** * The handlers of a run ([pipeline_run.go]) *)

Module PipelineRunHandler.
Section Handlers.
Context {G : Gorm} {P : Platform} {D : Dispatcher} {X : TimeText} {V : MetaV1} (svc : PipelineRunService).
#[local] Existing Instance Codec_TriggerRequest.

Definition id_of {A} (rq : HttpRequest) (name : string) (k : UUID -> M World A) (refuse : GoError -> M World A)
  : M World A := path_uuid refuse rq name k.
Definition by_id (rq : HttpRequest) (k : UUID -> M World Response) : M World Response :=
  id_of rq "id" k fails.

(** Who triggers is what the body says. *)
Definition Trigger (rq : HttpRequest) : M World Response :=
  by_id rq (fun pipelineID =>
    body_of (T := TriggerRequest) fails rq (fun req =>
      let* runs := RunTrigger.Trigger svc pipelineID req in
      ret (abort_or runs (fun runs => Created_ (RawDoc (JArr (enc_PipelineRun <$> runs))))))).

Definition Get (rq : HttpRequest) : M World Response :=
  by_id rq (fun id =>
    let* item := RunControl.Get id in
    ret (fail_or StatusNotFound item (fun r => OK_ (RawDoc (enc_PipelineRun r))))).

Definition paged_runs (p : Pagination) (r : Result (list PipelineRun * Z)) : Response :=
  fail_or StatusInternalServerError r (fun '(items, total) => OKPaged (enc_PipelineRun <$> items) total p).

Definition ListByPipeline (rq : HttpRequest) : M World Response :=
  by_id rq (fun pipelineID =>
    let p := page_of rq in
    let* r := RunControl.ListByPipeline pipelineID p in ret (paged_runs p r)).

(** An optional filter that does not parse is refused. *)
Definition filter_of {A B} (rq : HttpRequest) (name : string) (none : A) (parse : string -> Result A)
    (k : A -> M B Response) : M B Response :=
  let raw := Query_of rq name in
  if empty_string raw then k none
  else match parse raw with Err e => fails e | Ok a => k a end.

Definition parse_after (raw : string) : Result (option Time) :=
  match text_time raw with
  | Some t => Ok (Some t)
  | None => Err (EFmt "invalid createdAfter %q: want RFC3339, e.g. 2026-09-01T00:00:00Z" [AStr raw])
  end.

Definition ListAll (rq : HttpRequest) : M World Response :=
  let p := page_of rq in
  filter_of rq "componentId" uuid_Nil parse_uuid (fun componentID =>
  filter_of rq "createdAfter" None parse_after (fun createdAfter =>
    let* w := get in
    let* r := zoom w_runs (FindAll (rows (w_pipelines w)) p (Query_of rq "phase") componentID createdAfter
                             (Query_of rq "triggeredBy")) in
    ret (paged_runs p r))).

Definition ListTasks (rq : HttpRequest) : M World Response :=
  by_id rq (fun id =>
    let* r := RunControl.ListTasks id in
    ret (fail_or StatusInternalServerError r (fun items => OK_ (RawDoc (JArr (enc_TaskRun <$> items)))))).

Definition Progress (rq : HttpRequest) : M World Response :=
  by_id rq (fun id =>
    let* r := RunControl.Progress id in
    ret (fail_or StatusNotFound r (fun '(run, tasks) => OK_ (RawDoc (JObj
      [("phase", JStr (run_Phase run)); ("message", JStr (run_Message run));
       ("tasks", JArr (enc_TaskRun <$> tasks))]))))).

Definition StageProgress (rq : HttpRequest) : M World Response :=
  by_id rq (fun id =>
    let* r := RunSweeps.StageProgress id in
    ret (fail_or StatusNotFound r (fun '(run, stages) => OK_ (RawDoc (JObj
      [("run", JObj [("id", JStr (uuid_String (run_ID run))); ("phase", JStr (run_Phase run));
                     ("message", JStr (run_Message run))]);
       ("stages", JArr (enc_StageProgressRow <$> stages))]))))).

Definition Redispatch (rq : HttpRequest) : M World Response :=
  by_id rq (fun id =>
    let* r := RunControl.Redispatch id in
    ret (fail_or StatusInternalServerError r (fun job => OK_ (RawDoc (enc_DispatchJob job))))).

(** The path's task, else the query's, else the log of the run itself. *)
Definition task_of (rq : HttpRequest) : string :=
  default_str RunLevelLogBucket (default_str (Query_of rq "task") (hq_Param rq "name")).

Definition GetLogs (rq : HttpRequest) : M World Response :=
  by_id rq (fun id =>
    let p := page_of rq in
    let* r := RunControl.GetLogs id (task_of rq) p in
    ret (fail_or StatusInternalServerError r (fun '(items, total) => OKPaged (enc_TaskRunLog <$> items) total p))).

(** The identity a decision is recorded for: the body's, else the caller's. *)
Definition named_or_subject (c : Context_) (named : string) : string :=
  default_str (default "" (CurrentSubject c)) named.

(** The context carries the reason and the ticket to the audit record. *)
Definition Approve (rq : HttpRequest) (c : Context_) : M World (Response * Context_) :=
  let refuse e := ret (Fail StatusBadRequest e, c) in
  id_of rq "id" (fun pipelineID =>
  id_of rq "runId" (fun runID =>
  body_of refuse rq (fun req : ApprovalDecisionRequest =>
    let taskName := hq_Param rq "taskName" in
    let approver := named_or_subject c (ad_Approver req) in
    let c := SetAuditReason c (ad_Reason req) (ad_Ticket req) in
    let* r := RunControl.Approve svc pipelineID runID taskName (ad_Approved req) approver in
    ret (fail_or StatusInternalServerError r (fun _ => OK_ (RawDoc (JObj
      [("message", JStr "approval decision dispatched"); ("taskName", JStr taskName);
       ("approved", JBool (ad_Approved req))]))), c))) refuse) refuse.

Definition ControlRollout (rq : HttpRequest) (c : Context_) : M World (Response * Context_) :=
  let refuse e := ret (Fail StatusBadRequest e, c) in
  id_of rq "id" (fun runID =>
  body_of refuse rq (fun req : RolloutControlRequest =>
    let taskName := hq_Param rq "name" in
    let operator := named_or_subject c (ro_Operator req) in
    let c := SetAuditReason c (ro_Reason req) (ro_Ticket req) in
    let* r := RunControl.ControlRollout runID taskName (ro_Action req) operator in
    ret (fail_or StatusInternalServerError r (fun _ => OK_ (RawDoc (JObj
      [("message", JStr "rollout control dispatched"); ("taskName", JStr taskName);
       ("action", JStr (ro_Action req))]))), c))) refuse.

Definition Cancel (rq : HttpRequest) (c : Context_) : M World Response :=
  by_id rq (fun id =>
    let* r := CancelRun id (default "" (CurrentSubject c)) in
    ret (abort_or r (fun _ => OK_ (RawDoc (JObj
      [("message", JStr "cancel dispatched"); ("runId", JStr (uuid_String id))]))))).

Definition RerunTask (rq : HttpRequest) (c : Context_) : M World Response :=
  by_id rq (fun id =>
    let taskName := hq_Param rq "name" in
    let* r := RunControl.RerunTask id taskName (default "" (CurrentSubject c)) in
    ret (abort_or r (fun _ => OK_ (RawDoc (JObj
      [("message", JStr "rerun dispatched"); ("runId", JStr (uuid_String id)); ("taskName", JStr taskName)]))))).
End Handlers.
End PipelineRunHandler.

(** * The live log of a run ([run_stream.go]) *)

(** One server-sent event. *)
Record Sse := mkSse { sse_event : string; sse_data : json }.
Definition end_event : Sse := mkSse "end" (JObj [("reason", JStr "terminal")]).

Module LogStream.
(** The closure's variables: what was sent, by the chunk's identifier, the
    time of the last chunk, and the events written so far. *)
Record State := mkState { sent : gset UUID; cursor : Time; out : list Sse }.
#[global] Instance State_eta : Eta State := fun s => mkState (sent s) (cursor s) (out s).

Definition batch : Z := 500.
Definition isTerminalRunPhase (p : string) : bool :=
  String.eqb p "Succeeded" || String.eqb p "Failed" || String.eqb p "Cancelled".

Inductive Outcome := More | Done | Gone.

Section Stream.
Context {G : Gorm} {P : Platform} {D : Dispatcher} {X : TimeText} {V : MetaV1}.
(** Whether the client takes the n-th write. *)
Context (writes : nat -> bool).

Definition writeEvent (e : Sse) (s : State) : bool * State :=
  if writes (length (out s)) then (true, s <| out := out s ++ [e] |>) else (false, s).

(** The loop over a batch: how many chunks were new, or the client is gone. *)
Fixpoint send_chunks (chunks : list TaskRunLog) (fresh : nat) (s : State) : option nat * State :=
  match chunks with
  | [] => (Some fresh, s)
  | l :: chunks' =>
      if decide (log_ID l ∈ sent s) then send_chunks chunks' fresh s
      else
        let s := s <| sent := {[log_ID l]} ∪ sent s |> <| cursor := log_CreatedAt l |> in
        let '(ok, s) := writeEvent (mkSse "log" (enc_TaskRunLog l)) s in
        if ok then send_chunks chunks' (S fresh) s else (None, s)
  end.

(** One round of the replay. *)
Definition round (runID : UUID) (s : State) : M World (Outcome * State) :=
  let* r := StreamLogTail runID (cursor s) batch in
  ret (match r with
       | Err _ => (Done, s)
       | Ok chunks =>
           match send_chunks chunks 0 s with
           | (None, s) => (Gone, s)
           | (Some 0%nat, s) => (Done, s)
           | (Some _, s) => (More, s)
           end
       end).

(** The history, a batch after the other until one has nothing new; whether
    the client is still there. *)
Fixpoint replay (fuel : nat) (runID : UUID) (s : State) : M World (Go (bool * State)) :=
  match fuel with
  | O => ret Hangs
  | S fuel' =>
      let* r := round runID s in
      match r with
      | (More, s) => replay fuel' runID s
      | (Done, s) => ret (Returns (true, s))
      | (Gone, s) => ret (Returns (false, s))
      end
  end.

(** The end of a run that is over; whether the stream goes on. *)
Definition finish (runID : UUID) (s : State) : M World (bool * State) :=
  let* run := RunControl.Get runID in
  ret (match run with
       | Ok run => if isTerminalRunPhase (run_Phase run) then (false, (writeEvent end_event s).2) else (true, s)
       | Err _ => (true, s)
       end).

(** What a request answers: a refusal, or a stream that is still open or not. *)
Inductive Answer := Refused (r : Response) | Streams (open : bool) (s : State).

Definition start : State := mkState ∅ time_Zero [].

(** Up to the ticker; a round of the replay that goes on sends a chunk that was
    not sent before, so one more than the chunks there are is enough. *)
Definition StreamLogs (rq : HttpRequest) : M World (Go Answer) :=
  path_uuid (fun e => ret (Returns (Refused (Fail StatusBadRequest e)))) rq "id" (fun runID =>
    let* w := get in
    let* r := replay (S (length (rows (w_logs w)))) runID start in
    match r with
    | Returns (true, s) => let* f := finish runID s in ret (Returns (Streams f.1 f.2))
    | Returns (false, s) => ret (Returns (Streams false s))
    | Panics m => ret (Panics m)
    | Hangs => ret Hangs
    end).

(** One tick: a batch, then the end of a run that is over. *)
Definition poll (runID : UUID) (s : State) : M World (bool * State) :=
  let* r := StreamLogTail runID (cursor s) batch in
  match r with
  | Err _ => ret (true, s)
  | Ok chunks =>
      match send_chunks chunks 0 s with
      | (None, s) => ret (false, s)
      | (Some _, s) => finish runID s
      end
  end.
End Stream.
End LogStream.

(** * Releases ([release.go]) *)

Section Releases.
Context {G : Gorm} {P : Platform} {D : Dispatcher}.
Definition ReleaseService_Create (m : RolloutRun) : M World (Result RolloutRun) :=
  stmt w_rollouts (fun now => RolloutRunRepository.Create now m).
Definition ReleaseService_Get (id : UUID) : M World (Result RolloutRun) :=
  zoom w_rollouts (RolloutRunRepository.GetByID id).
Definition ReleaseService_Delete (id : UUID) : M World (Result Z) :=
  stmt w_rollouts (fun now => RolloutRunRepository.Delete now id).
End Releases.

Module ReleaseHandler.
Section Handlers.
Context {G : Gorm} {P : Platform} {D : Dispatcher} {X : TimeText}.

Definition by_id (rq : HttpRequest) (k : UUID -> M World Response) : M World Response := path_uuid fails rq "id" k.

Definition Create (rq : HttpRequest) : M World Response :=
  match bind_release zero_rollout (hq_Body rq) with
  | Err e => fails e
  | Ok in_ =>
      let* r := ReleaseService_Create in_ in
      ret (fail_or StatusInternalServerError r (fun m => Created_ (RawDoc (enc_RolloutRun m))))
  end.

(** A run that does not parse is no filter. *)
Definition List (rq : HttpRequest) : M World Response :=
  let p := page_of rq in
  let prID := let v := Query_of rq "pipelineRunId" in
              if empty_string v then None else match parse_uuid v with Ok id => Some id | Err _ => None end in
  let scope := Query_of rq "scope" in
  if negb (empty_string scope) && negb (String.eqb scope "global") then
    fails (EFmt "invalid scope %q: releases are global, only scope=global is supported" [AStr scope])
  else
    let* r := ReleaseService_List p prID (Query_of rq "state") in
    ret (fail_or StatusBadRequest r (fun '(items, total) => OKPaged (enc_RolloutRun <$> items) total p)).

Definition Get (rq : HttpRequest) : M World Response :=
  by_id rq (fun id =>
    let* r := ReleaseService_Get id in
    ret (fail_or StatusNotFound r (fun m => OK_ (RawDoc (enc_RolloutRun m))))).

(** The body is read onto the stored row. *)
Definition Update (rq : HttpRequest) : M World Response :=
  by_id rq (fun id =>
    let* r := ReleaseService_Get id in
    match r with
    | Err e => ret (Fail StatusNotFound e)
    | Ok existing =>
        match bind_release existing (hq_Body rq) with
        | Err e => fails e
        | Ok existing =>
            let* r := ReleaseService_Update id existing in
            ret (fail_or StatusInternalServerError r (fun m => OK_ (RawDoc (enc_RolloutRun m))))
        end
    end).

Definition Delete (rq : HttpRequest) : M World Response :=
  by_id rq (fun id =>
    let* r := ReleaseService_Delete id in
    ret (fail_or StatusInternalServerError r (fun _ => NoContent))).
End Handlers.
End ReleaseHandler.

(** * The approval center ([approval_center.go]) *)

Module ApprovalCenterHandler.
Section Handlers.
Context {G : Gorm} {P : Platform} {D : Dispatcher} {X : TimeText} (svc : PipelineRunService).
(** The text of a value as the client sent it, and how it is read. *)
Context (raw_text : json -> string) (parse : string -> RawJSON).
#[local] Existing Instance Codec_policyReq.

(** A limit that does not parse is none. *)
Definition List (rq : HttpRequest) (c : Context_) : M World Response :=
  let limit := default 0 (Atoi (Query_of rq "limit")) in
  let* items := ApprovalCenter (DefaultQuery rq "view" "pending") (default "" (CurrentSubject c)) limit in
  ret (fail_or StatusBadRequest items (fun l => OK_ (RawDoc (JArr (enc_PipelineApproval <$> l))))).

Definition ListPolicies (rq : HttpRequest) : M World Response :=
  path_uuid fails rq "id" (fun componentID =>
    let* items := GetApprovalPolicies svc componentID in
    ret (fail_or StatusInternalServerError items (fun l => OK_ (RawDoc (JArr (enc_ApprovalPolicy <$> l)))))).

Definition submitted_policy (componentID : UUID) (in_ : policyReq) : ApprovalPolicy :=
  mkApprovalPolicy uuid_Nil componentID (py_EnvironmentID in_) (py_Mode in_) (py_MinApprovals in_)
    (match py_Assignees in_ with RawDoc v => raw_text v | _ => "" end) (py_TimeoutSeconds in_) "" time_Zero time_Zero.

Definition UpsertPolicy (rq : HttpRequest) (c : Context_) : M World Response :=
  path_uuid fails rq "id" (fun componentID => body_of fails rq (fun in_ : policyReq =>
    let* r := UpsertApprovalPolicy svc parse (submitted_policy componentID in_) (default "" (CurrentSubject c)) in
    ret (fail_or StatusBadRequest r (fun p => OK_ (RawDoc (enc_ApprovalPolicy p)))))).
End Handlers.
End ApprovalCenterHandler.
