(* ===== verification/ConsoleHandlers.v ===== *)
(** The HTTP face of pipeline definitions and targets
    ([internal/pipeline/handler], [internal/target/handler]): pipelines, stages,
    templates, versions and triggers, targets with their bundle for a Runner's
    installation, and the ledger of agent operations with its event stream;
    and the generic handlers of [common/handler.go]. *)
From stdpp Require Import base list strings gmap sorting.
From Stdlib Require Import ZArith Lia Ascii.
From S2P Require Import Prelude Common Gorm Json GoLib RunnerProto RunStore PipelineStore TargetStore.
From S2P Require Import EditStore World Middleware PipelineTriggers PipelineVersions AgentOps PipelineEdit RunHandlers.

Open Scope Z_scope.

(** * Rows as documents *)

Section Rows.
Context {P : Platform} {X : TimeText}.

(** [common.Base] and [common.BaseNoSoftDelete] *)
Definition base_fields (id : UUID) (createdAt updatedAt : Time) : list (string * json) :=
  uuid_field "id" id ++ time_field "createdAt" createdAt ++ time_field "updatedAt" updatedAt.
Definition dec_base {A} (f : UUID -> Time -> Time -> A) : Fields A :=
  fields_ret f <@> dec_field Codec_UUID "id" <@> dec_field Codec_Time "createdAt" <@> dec_field Codec_Time "updatedAt".

(** A raw column without [omitempty]. *)
Definition raw_always (name : string) (r : RawJSON) : list (string * json) :=
  [(name, match r with RawDoc v => v | _ => JNull end)].

Definition zero_Pipeline : Pipeline := mkPipeline uuid_Nil time_Zero time_Zero None uuid_Nil "" "" "" "" 0 "" RawEmpty.
Definition Codec_Pipeline : Codec Pipeline := {|
  zero := zero_Pipeline;
  enc := fun p => JObj (concat [
    base_fields (pl_ID p) (pl_CreatedAt p) (pl_UpdatedAt p); uuid_field "componentId" (pl_ComponentID p);
    text_field "name" (pl_Name p); text_field "kind" (pl_Kind p); text_field "description" (pl_Description p);
    text_opt "createdBy" (pl_CreatedBy p); int_field "version" (pl_Version p);
    text_field "concurrencyPolicy" (pl_ConcurrencyPolicy p); raw_field "params" (pl_Params p)]);
  dec := dec_struct zero_Pipeline
    (dec_base (fun i c u => mkPipeline i c u None) <@> dec_field Codec_UUID "componentId" <@> dec_field _ "name" <@>
       dec_field _ "kind" <@> dec_field _ "description" <@> dec_field _ "createdBy" <@> dec_field int64 "version" <@>
       dec_field _ "concurrencyPolicy" <@> dec_raw_field "params");
  wf := fun _ => True;
|}.

Definition zero_Stage : PipelineStage := mkPipelineStage uuid_Nil time_Zero time_Zero None uuid_Nil "" 0 "".
Definition Codec_Stage : Codec PipelineStage := {|
  zero := zero_Stage;
  enc := fun p => JObj (concat [
    base_fields (st_ID p) (st_CreatedAt p) (st_UpdatedAt p); uuid_field "pipelineId" (st_PipelineID p);
    text_field "name" (st_Name p); int_field "sequence" (st_Sequence p);
    text_field "executionMode" (st_ExecutionMode p)]);
  dec := dec_struct zero_Stage
    (dec_base (fun i c u => mkPipelineStage i c u None) <@> dec_field Codec_UUID "pipelineId" <@>
       dec_field _ "name" <@> dec_field int64 "sequence" <@> dec_field _ "executionMode");
  wf := fun _ => True;
|}.

Definition zero_Template : PipelineTaskTemplate :=
  mkPipelineTaskTemplate uuid_Nil time_Zero time_Zero None uuid_Nil "" "" 0 "" "" RawEmpty RawEmpty RawEmpty RawEmpty
    RawEmpty RawEmpty RawEmpty RawEmpty RawEmpty 0 false.
Definition Codec_Template : Codec PipelineTaskTemplate := {|
  zero := zero_Template;
  enc := fun p => JObj (concat [
    base_fields (tpl_ID p) (tpl_CreatedAt p) (tpl_UpdatedAt p); uuid_field "stageId" (tpl_StageID p);
    text_field "name" (tpl_Name p); text_field "type" (tpl_Type p); int_field "displayOrder" (tpl_DisplayOrder p);
    text_opt "image" (tpl_Image p); text_opt "scriptPath" (tpl_ScriptPath p);
    raw_field "scriptArgs" (tpl_ScriptArgs p); raw_field "command" (tpl_Command p); raw_field "args" (tpl_Args p);
    raw_field "produces" (tpl_Produces p); raw_field "consumes" (tpl_Consumes p);
    raw_field "releaseConfig" (tpl_ReleaseConfig p); raw_field "rolloutConfig" (tpl_RolloutConfig p);
    raw_field "approvalConfig" (tpl_ApprovalConfig p); raw_field "retryPolicy" (tpl_RetryPolicy p);
    int_field "timeoutSeconds" (tpl_TimeoutSeconds p); field_opt _ "privileged" empty_bool (tpl_Privileged p)]);
  dec := dec_struct zero_Template
    (dec_base (fun i c u => mkPipelineTaskTemplate i c u None) <@> dec_field Codec_UUID "stageId" <@>
       dec_field _ "name" <@> dec_field _ "type" <@> dec_field int64 "displayOrder" <@> dec_field _ "image" <@>
       dec_field _ "scriptPath" <@> dec_raw_field "scriptArgs" <@> dec_raw_field "command" <@> dec_raw_field "args" <@>
       dec_raw_field "produces" <@> dec_raw_field "consumes" <@> dec_raw_field "releaseConfig" <@>
       dec_raw_field "rolloutConfig" <@> dec_raw_field "approvalConfig" <@> dec_raw_field "retryPolicy" <@>
       dec_field int64 "timeoutSeconds" <@> dec_field _ "privileged");
  wf := fun _ => True;
|}.

(** The Runner's secrets and the soft-delete mark are tagged ["-"]: they are
    neither printed nor read. *)
Definition zero_Target : Target :=
  mkTarget uuid_Nil time_Zero time_Zero "" "" "" "" "" "" None None None None "" None.
Definition Codec_Target : Codec Target := {|
  zero := zero_Target;
  enc := fun p => JObj (concat [
    base_fields (tg_ID p) (tg_CreatedAt p) (tg_UpdatedAt p); text_field "name" (tg_Name p);
    text_field "vendor" (tg_Vendor p); text_field "region" (tg_Region p); text_field "targetKind" (tg_TargetKind p);
    text_field "status" (tg_Status p); text_opt "agentVersion" (tg_AgentVersion p);
    ptr_field Codec_Time "lastHeartbeatAt" (tg_LastHeartbeatAt p); text_field "accessMode" (tg_AccessMode p);
    ptr_field Codec_string "credentialRef" (tg_CredentialRef p)]);
  dec := dec_struct zero_Target
    (dec_base (fun i c u n v r k s a h m cr => mkTarget i c u n v r k s a h None None None m cr) <@>
       dec_field _ "name" <@> dec_field _ "vendor" <@> dec_field _ "region" <@> dec_field _ "targetKind" <@>
       dec_field _ "status" <@> dec_field _ "agentVersion" <@> dec_field (Codec_ptr Codec_Time) "lastHeartbeatAt" <@>
       dec_field _ "accessMode" <@> dec_field (Codec_ptr Codec_string) "credentialRef");
  wf := fun _ => True;
|}.

Definition enc_AgentOp (r : AgentOp) : json := JObj (concat [
  uuid_field "id" (op_ID r); uuid_field "targetId" (op_TargetID r); ptr_field Codec_UUID "envId" (op_EnvID r);
  text_field "opType" (op_OpType r); text_field "status" (op_Status r); text_opt "detail" (op_Detail r);
  text_opt "message" (op_Message r); time_field "createdAt" (op_CreatedAt r); time_field "updatedAt" (op_UpdatedAt r)]).

Definition enc_AgentOpLog (r : AgentOpLog) : json := JObj (concat [
  uuid_field "id" (ol_ID r); uuid_field "opId" (ol_OpID r); int_field "seq" (ol_Seq r);
  text_opt "stream" (ol_Stream r); text_field "chunk" (ol_Chunk r); time_field "createdAt" (ol_CreatedAt r)]).

Definition enc_OpEvent (e : OpEvent) : json := JObj (concat [
  text_field "kind" (ev_Kind e);
  match ev_Status e with Some op => [("status", enc_AgentOp op)] | None => [] end;
  match ev_Log e with Some l => [("log", enc_AgentOpLog l)] | None => [] end]).

Definition enc_PipelineVersion (r : PipelineVersion) : json := JObj (concat [
  uuid_field "id" (ver_ID r); uuid_field "pipelineId" (ver_PipelineID r); int_field "version" (ver_Version r);
  raw_always "snapshot" (ver_Snapshot r); text_opt "createdBy" (ver_CreatedBy r);
  time_field "createdAt" (ver_CreatedAt r)]).

Definition enc_VersionSummary (r : VersionSummary) : json := JObj (concat [
  int_field "version" (vs_Version r); text_opt "createdBy" (vs_CreatedBy r); time_field "createdAt" (vs_CreatedAt r);
  int_field "stages" (vs_Stages r); int_field "tasks" (vs_Tasks r);
  ptr_field Codec_bool "identicalToPrevious" (vs_IdenticalToPrevious r); field _ "isCurrent" (vs_IsCurrent r)]).

Definition change_text (c : ChangeType) : string :=
  match c with ChangeAdded => "added" | ChangeRemoved => "removed" | ChangeModified => "modified" end.
Definition enc_FieldChange (r : FieldChange) : json := JObj (concat [
  text_field "field" (fc_Field r); text_field "from" (fc_From r); text_field "to" (fc_To r)]).
Definition changes_opt (l : list FieldChange) : list (string * json) :=
  match l with [] => [] | _ => [("fields", JArr (enc_FieldChange <$> l))] end.
Definition enc_StageDiff (r : StageDiff) : json := JObj (concat [
  text_field "name" (sd_Name r); text_field "change" (change_text (sd_Change r)); changes_opt (sd_Fields r)]).
Definition enc_TaskDiff (r : TaskDiff) : json := JObj (concat [
  text_field "stage" (td_Stage r); text_field "name" (td_Name r); text_field "change" (change_text (td_Change r));
  changes_opt (td_Fields r)]).
Definition enc_DiffSummary (r : DiffSummary) : json := JObj (concat [
  int_field "stagesAdded" (sum_StagesAdded r); int_field "stagesRemoved" (sum_StagesRemoved r);
  int_field "stagesModified" (sum_StagesModified r); int_field "tasksAdded" (sum_TasksAdded r);
  int_field "tasksRemoved" (sum_TasksRemoved r); int_field "tasksModified" (sum_TasksModified r)]).
Definition enc_SnapshotDiff (r : SnapshotDiff) : json := JObj (concat [
  int_field "fromVersion" (df_FromVersion r); int_field "toVersion" (df_ToVersion r);
  time_field "fromCreatedAt" (df_FromCreatedAt r); time_field "toCreatedAt" (df_ToCreatedAt r);
  [("stages", JArr (enc_StageDiff <$> df_Stages r))]; [("tasks", JArr (enc_TaskDiff <$> df_Tasks r))];
  [("summary", enc_DiffSummary (df_Summary r))]; field _ "identical" (df_Identical r)]).

Definition enc_RollbackResult (r : RollbackResult) : json := JObj (concat [
  uuid_field "pipelineId" (rb_PipelineID r); int_field "restoredVersion" (rb_RestoredVersion r);
  int_field "newVersion" (rb_NewVersion r); int_field "stages" (rb_Stages r); int_field "tasks" (rb_Tasks r)]).

(** The first eleven characters of a token tell which secret is configured. *)
Definition tokenPrefix (t : PipelineTrigger) : string :=
  if (11 <? String.length (trig_Token t))%nat then String.substring 0 11 (trig_Token t) else "".

Definition enc_PipelineTrigger (r : PipelineTrigger) : json := JObj (concat [
  uuid_field "id" (trig_ID r); uuid_field "pipelineId" (trig_PipelineID r); text_field "name" (trig_Name r);
  text_field "type" (trig_Type r); field _ "enabled" (trig_Enabled r); raw_field "spec" (trig_Spec r);
  text_opt "tokenPrefix" (tokenPrefix r); ptr_field Codec_Time "lastTriggeredAt" (trig_LastTriggeredAt r);
  text_opt "createdBy" (trig_CreatedBy r); time_field "createdAt" (trig_CreatedAt r);
  time_field "updatedAt" (trig_UpdatedAt r)]).
End Rows.

(** * The generic handlers ([common/handler.go]) *)

(** [CRUDService]: what [RegisterCRUD] asks of a service; Create and Update
    fill in the struct they are given. *)
Class CRUDService (S T : Type) : Type := {
  crud_Create : T -> M S (Result T);
  crud_Get : UUID -> M S (Result T);
  crud_Update : UUID -> T -> M S (Result T);
  crud_Delete : UUID -> M S (Result unit);
}.

Module RegisterCRUD.
Section Handlers.
Context {P : Platform} {S T : Type} {I : CRUDService S T} {C : Codec T}.

Definition reply (r : Result T) (f : RawJSON -> Response) : Response := abort_or r (fun t => f (RawDoc (enc t))).

Definition Post (rq : HttpRequest) : M S Response :=
  body_of aborts rq (fun in_ => let* r := crud_Create in_ in ret (reply r Created_)).
Definition Get (rq : HttpRequest) : M S Response :=
  path_uuid aborts rq "id" (fun id => let* r := crud_Get id in ret (reply r OK_)).
Definition Put (rq : HttpRequest) : M S Response :=
  path_uuid aborts rq "id" (fun id => body_of aborts rq (fun in_ => let* r := crud_Update id in_ in ret (reply r OK_))).
Definition Delete (rq : HttpRequest) : M S Response :=
  path_uuid aborts rq "id" (fun id => let* r := crud_Delete id in ret (abort_or r (fun _ => NoContent))).
End Handlers.
End RegisterCRUD.

(** * Pipelines, stages, templates *)

Section Definitions_.
Context {G : Gorm} {P : Platform} {D : Dispatcher} {X : TimeText}.
#[local] Existing Instances Codec_Pipeline Codec_Stage Codec_Template.

Definition doc {T} {C : Codec T} (t : T) : RawJSON := RawDoc (enc t).
Definition docs {T} {C : Codec T} (l : list T) : list json := enc <$> l.
Definition paged {T} {C : Codec T} (p : Pagination) (r : Result (list T * Z)) : Response :=
  fail_or StatusInternalServerError r (fun '(items, total) => OKPaged (docs items) total p).
End Definitions_.

Module PipelineHandler.
Section Handlers.
Context {G : Gorm} {P : Platform} {D : Dispatcher} {X : TimeText} (versions : VersionPublisher).
#[local] Existing Instances Codec_Pipeline.

Definition Create (rq : HttpRequest) (c : Context_) : M World Response :=
  body_of fails rq (fun in_ : Pipeline =>
    let in_ := match CurrentSubject c with Some createdBy => in_ <| pl_CreatedBy := createdBy |> | None => in_ end in
    let* r := PipelineService.Create in_ in
    ret (fail_or StatusInternalServerError r (fun p => Created_ (doc p)))).

Definition Get (rq : HttpRequest) : M World Response :=
  path_uuid fails rq "id" (fun id =>
    let* r := PipelineService.Get id in ret (fail_or StatusNotFound r (fun p => OK_ (doc p)))).

(** The body is answered, with the policy its check has filled in. *)
Definition Update (rq : HttpRequest) : M World Response :=
  path_uuid fails rq "id" (fun id => body_of fails rq (fun in_ : Pipeline =>
    let* r := PipelineService.Update versions id in_ in
    ret (fail_or StatusInternalServerError r (fun _ =>
      OK_ (doc (match normalizeConcurrencyPolicy in_ with Ok p => p | Err _ => in_ end)))))).

Definition Delete (rq : HttpRequest) : M World Response :=
  path_uuid fails rq "id" (fun id =>
    let* r := PipelineService.Delete id in
    ret (match r with
         | Ok _ => NoContent
         | Err (EApi ae) => Fail (ae_Code ae) (EApi ae)
         | Err e => Fail StatusInternalServerError e
         end)).

Definition List (rq : HttpRequest) : M World Response :=
  let raw := Query_of rq "componentId" in
  let go componentID :=
    let p := page_of rq in
    let* r := PipelineService.List (mkPipelineListOpts componentID (Query_of rq "kind") (Query_of rq "name")) p in
    ret (paged p r) in
  if empty_string raw then go uuid_Nil
  else match parse_uuid raw with
       | Err _ => fails (EFmt "invalid componentId: %q" [AStr raw])
       | Ok id => go id
       end.

Definition ListByComponent (rq : HttpRequest) : M World Response :=
  path_uuid fails rq "id" (fun componentID =>
    let p := page_of rq in let* r := PipelineService.ListByComponent componentID p in ret (paged p r)).
End Handlers.
End PipelineHandler.

Module StageHandler.
Section Handlers.
Context {G : Gorm} {P : Platform} {D : Dispatcher} {X : TimeText} (svc : StageService.Config).
#[local] Existing Instances Codec_Stage.

Definition Create (rq : HttpRequest) : M World Response :=
  path_uuid aborts rq "id" (fun pipelineID => body_of aborts rq (fun in_ : PipelineStage =>
    let* r := StageService.Create svc (in_ <| st_PipelineID := pipelineID |>) in
    ret (abort_or r (fun st => Created_ (doc st))))).
Definition List (rq : HttpRequest) : M World Response :=
  path_uuid aborts rq "id" (fun pipelineID =>
    let* r := StageService.ListByPipeline pipelineID in
    ret (abort_or r (fun items => OK_ (RawDoc (JArr (docs items)))))).
Definition Update (rq : HttpRequest) : M World Response :=
  path_uuid aborts rq "id" (fun id => body_of aborts rq (fun in_ : PipelineStage =>
    let* r := StageService.Update svc id in_ in ret (abort_or r (fun st => OK_ (doc st))))).
Definition Delete (rq : HttpRequest) : M World Response :=
  path_uuid aborts rq "id" (fun id =>
    let* r := StageService.Delete svc id in ret (abort_or r (fun _ => NoContent))).
End Handlers.
End StageHandler.

Module TaskTemplateHandler.
Section Handlers.
Context {G : Gorm} {P : Platform} {D : Dispatcher} {X : TimeText} (versions : VersionPublisher).
#[local] Existing Instances Codec_Template.

Definition Create (rq : HttpRequest) : M World Response :=
  path_uuid aborts rq "id" (fun stageID => body_of aborts rq (fun in_ : PipelineTaskTemplate =>
    let* r := TaskTemplateService.Create versions (in_ <| tpl_StageID := stageID |>) in
    ret (abort_or r (fun t => Created_ (doc t))))).
Definition List (rq : HttpRequest) : M World Response :=
  path_uuid aborts rq "id" (fun stageID =>
    let* r := TaskTemplateService.ListByStage stageID in
    ret (abort_or r (fun items => OK_ (RawDoc (JArr (docs items)))))).
Definition Update (rq : HttpRequest) : M World Response :=
  path_uuid aborts rq "id" (fun id => body_of aborts rq (fun in_ : PipelineTaskTemplate =>
    let* r := TaskTemplateService.Update versions id in_ in ret (abort_or r (fun t => OK_ (doc t))))).
Definition Delete (rq : HttpRequest) : M World Response :=
  path_uuid aborts rq "id" (fun id =>
    let* r := TaskTemplateService.Delete versions id in ret (abort_or r (fun _ => NoContent))).
End Handlers.
End TaskTemplateHandler.

(** * Versions ([version.go]) *)

Module PipelineVersionHandler.
Section Handlers.
Context {G : Gorm} {P : Platform} {D : Dispatcher} {X : TimeText} {T : JSONText}.
Import PipelineVersionService.

Definition bad_number (msg : string) : M World Response :=
  aborts (EApi (DomainError KindPipeline StatusBadRequest 2 msg)).
(** A positive number, or the refusal. *)
Definition positive (raw msg : string) (k : Z -> M World Response) : M World Response :=
  match Atoi raw with Some n => if n <=? 0 then bad_number msg else k n | None => bad_number msg end.
Definition parseVersion (rq : HttpRequest) (k : Z -> M World Response) : M World Response :=
  positive (hq_Param rq "version") "invalid version (want a positive integer)" k.

Definition List (rq : HttpRequest) : M World Response :=
  path_uuid aborts rq "id" (fun pipelineID =>
    let go limit :=
      let* items := PipelineVersionService.List pipelineID limit in
      ret (abort_or items (fun l => OK_ (RawDoc (JArr (enc_VersionSummary <$> l))))) in
    let raw := Query_of rq "limit" in
    if empty_string raw then go 0 else positive raw "invalid limit (want a positive integer)" go).

Definition Get (rq : HttpRequest) : M World Response :=
  path_uuid aborts rq "id" (fun pipelineID => parseVersion rq (fun version =>
    let* item := PipelineVersionService.Get pipelineID version in
    ret (abort_or item (fun v => OK_ (RawDoc (enc_PipelineVersion v)))))).

(** From the version of the query to that of the path. *)
Definition Compare (rq : HttpRequest) : M World Response :=
  path_uuid aborts rq "id" (fun pipelineID => parseVersion rq (fun to =>
    positive (Query_of rq "against") "invalid against (want a positive integer version number)" (fun from =>
      let* diff := PipelineVersionService.Compare pipelineID from to in
      ret (abort_or diff (fun d => OK_ (RawDoc (enc_SnapshotDiff d))))))).

Definition Rollback (rq : HttpRequest) (c : Context_) : M World Response :=
  path_uuid aborts rq "id" (fun pipelineID => parseVersion rq (fun version =>
    let* res := PipelineVersionService.Rollback pipelineID version (default "" (CurrentSubject c)) in
    ret (abort_or res (fun r => OK_ (RawDoc (enc_RollbackResult r)))))).
End Handlers.
End PipelineVersionHandler.

(** * Triggers ([trigger.go]) *)

Section TriggerBodies.
Record createTriggerReq := mkCreateTriggerReq {
  ct_Name : string; ct_Type : string; ct_Enabled : option bool; ct_Spec : RawJSON }.
#[global] Instance Codec_createTriggerReq : Codec createTriggerReq := {|
  zero := mkCreateTriggerReq "" "" None RawEmpty;
  enc := fun p => JObj (concat [field _ "name" (ct_Name p); field _ "type" (ct_Type p);
    field_opt (Codec_ptr Codec_bool) "enabled" empty_ptr (ct_Enabled p); raw_field "spec" (ct_Spec p)]);
  dec := dec_struct (mkCreateTriggerReq "" "" None RawEmpty)
    (fields_ret mkCreateTriggerReq <@> dec_field _ "name" <@> dec_field _ "type" <@>
       dec_field (Codec_ptr Codec_bool) "enabled" <@> dec_raw_field "spec");
  wf := fun _ => True;
|}.

Record updateTriggerReq := mkUpdateTriggerReq { ut_Name : string; ut_Enabled : bool; ut_Spec : RawJSON }.
#[global] Instance Codec_updateTriggerReq : Codec updateTriggerReq := {|
  zero := mkUpdateTriggerReq "" false RawEmpty;
  enc := fun p => JObj (concat [field _ "name" (ut_Name p); field _ "enabled" (ut_Enabled p);
    raw_field "spec" (ut_Spec p)]);
  dec := dec_struct (mkUpdateTriggerReq "" false RawEmpty)
    (fields_ret mkUpdateTriggerReq <@> dec_field _ "name" <@> dec_field _ "enabled" <@> dec_raw_field "spec");
  wf := fun _ => True;
|}.
End TriggerBodies.

Definition go_reply {S A} (m : M S (Go A)) (f : A -> Response) : M S (Go Response) :=
  let* r := m in ret (go_bind r (fun a => Returns (f a))).
Definition go_fails {S} (e : GoError) : M S (Go Response) := ret (Returns (Fail StatusBadRequest e)).
Definition Error_ (code : Z) (msg : string) : Response := mkResponse code [] (Plain [("error", msg)]).

Module TriggerHandler.
Section Handlers.
Context {G : Gorm} {P : Platform} {D : Dispatcher} {X : TimeText} (svc : TriggerService).

(** The submitted row; its other columns are zero. *)
Definition submitted (name type : string) (enabled : bool) (spec : RawJSON) : PipelineTrigger :=
  mkPipelineTrigger uuid_Nil uuid_Nil name type enabled spec "" None "" time_Zero time_Zero.

(** The token of a webhook is answered here, once. *)
Definition created_reply (t : PipelineTrigger) : Response :=
  mkResponse StatusCreated [] (Document (JObj (("data", enc_PipelineTrigger t) ::
    (if String.eqb (trig_Type t) TriggerTypeWebhook then [("token", JStr (trig_Token t))] else [])))).

Definition Create (rq : HttpRequest) (c : Context_) : M World (Go Response) :=
  path_uuid go_fails rq "id" (fun pipelineID => body_of go_fails rq (fun in_ : createTriggerReq =>
    let trig := submitted (ct_Name in_) (ct_Type in_) (default true (ct_Enabled in_)) (ct_Spec in_) in
    go_reply (Triggers.Create pipelineID trig (default "" (CurrentSubject c)))
      (fun created => fail_or StatusBadRequest created created_reply))).

Definition List (rq : HttpRequest) : M World Response :=
  path_uuid fails rq "id" (fun pipelineID =>
    let pg := page_of rq in
    let* r := Triggers.List pipelineID pg in
    ret (fail_or StatusInternalServerError r (fun '(items, total) =>
      OKPaged (enc_PipelineTrigger <$> items) total pg))).

(** The pipeline of the path is not looked at. *)
Definition Update (rq : HttpRequest) : M World (Go Response) :=
  path_uuid go_fails rq "triggerId" (fun id => body_of go_fails rq (fun in_ : updateTriggerReq =>
    go_reply (Triggers.Update id (submitted (ut_Name in_) "" (ut_Enabled in_) (ut_Spec in_)))
      (fun updated => fail_or StatusBadRequest updated (fun t => OK_ (RawDoc (enc_PipelineTrigger t)))))).

Definition Delete (rq : HttpRequest) : M World Response :=
  path_uuid fails rq "triggerId" (fun id =>
    let* r := Triggers.Delete id in ret (fail_or StatusInternalServerError r (fun _ => NoContent))).

Definition Rotate (rq : HttpRequest) : M World Response :=
  path_uuid fails rq "triggerId" (fun id =>
    let* r := Triggers.Rotate id in
    ret (fail_or StatusBadRequest r (fun token => OK_ (RawDoc (JObj [("token", JStr token)]))))).

Definition CronPreview (rq : HttpRequest) : M World (Go Response) :=
  body_of go_fails rq (fun in_ : CronSpec =>
    go_reply (Triggers.PreviewCron (cs_Expr in_) 5)
      (fun r => fail_or StatusBadRequest r (fun times =>
         OK_ (RawDoc (JObj [("next", JArr ((fun t => JStr (FormatRFC3339 t)) <$> times))]))))).

(** The header's token, else the query's. *)
Definition presented (rq : HttpRequest) : string :=
  default_str (Query_of rq "token") (hq_Header rq "X-Webhook-Token").

Definition WebhookInvoke (rq : HttpRequest) : M World Response :=
  match parse_uuid (hq_Param rq "triggerId") with
  | Err _ => ret (Error_ StatusNotFound "not found")
  | Ok id =>
      let* trig := Triggers.AuthorizeWebhook id (presented rq) in
      match trig with
      | None => ret (Error_ StatusUnauthorized "invalid token")
      | Some trig =>
          if negb (trig_Enabled trig) then ret (Error_ StatusConflict "trigger disabled")
          else
            let* err := Triggers.InvokeWebhook svc trig in
            ret (match err with
                 | Some e => Fail StatusInternalServerError e
                 | None => OK_ (RawDoc (JObj [("message", JStr "triggered"); ("trigger", JStr (trig_Name trig))]))
                 end)
      end
  end.
End Handlers.
End TriggerHandler.

(** * The installation bundle of a Runner ([joinbundle.go]) *)

Definition ErrJoinBundleUnavailable : GoError :=
  ESentinel "join-bundle unavailable: HUB_PUBLIC_URL or TLS CA not configured".
(** The sentinel's text comes first; what follows is plain. *)
Definition unavailable (detail : string) : GoError := EWrap ("%w: " +:+ detail) [] ErrJoinBundleUnavailable.

(** The file, its PEM block and the key of its certificate. *)
Class CATools : Type := {
  os_ReadFile : string -> Result string;
  utf8_Valid : string -> bool;
  pem_Decode : string -> option (string * string);
  x509_SubjectPublicKeyInfo : string -> Result string;
}.

(** [filepath.Clean] of a path that does not start at the root. *)
Definition relative_step (acc : list string) (part : string) : list string :=
  if empty_string part || String.eqb part "." then acc
  else if String.eqb part ".." && bool_decide (last acc <> None /\ last acc <> Some "..") then removelast acc
  else acc ++ [part].
Definition rooted_step (acc : list string) (part : string) : list string :=
  if empty_string part || String.eqb part "." then acc
  else if String.eqb part ".." then removelast acc else acc ++ [part].
Definition filepath_Clean (path : string) : string :=
  let parts := Split "/"%char path in
  if HasPrefix path "/" then "/" +:+ String.concat "/" (foldl rooted_step [] parts)
  else match foldl relative_step [] parts with [] => "." | l => String.concat "/" l end.
(** [filepath.Join(filepath.Dir(path), name)] *)
Definition sibling (path name : string) : string :=
  filepath_Clean (String.concat "/" (removelast (Split "/"%char path) ++ [name])).

Record JoinBundle := mkJoinBundle {
  jb_TargetName : string; jb_GatewayURL : string; jb_APIBaseURL : string; jb_CAPem : string;
  jb_CAFingerprint : string; jb_EnrollToken : string; jb_ExpiresIn : string; jb_RunnerVersion : string }.
Definition enc_JoinBundle (b : JoinBundle) : json := JObj (concat [
  text_field "targetName" (jb_TargetName b); text_field "gatewayUrl" (jb_GatewayURL b);
  text_field "apiBaseUrl" (jb_APIBaseURL b); text_field "caPem" (jb_CAPem b);
  text_field "caFingerprint" (jb_CAFingerprint b); text_field "enrollToken" (jb_EnrollToken b);
  text_field "expiresIn" (jb_ExpiresIn b); text_field "runnerVersion" (jb_RunnerVersion b)]).

Record JoinBundleIssuer := mkJoinBundleIssuer {
  ji_publicURL : string; ji_caFile : string; ji_runnerVersion : string }.
Definition NewJoinBundleIssuer (publicURL caFile tlsCertFile runnerVersion : string) : JoinBundleIssuer :=
  mkJoinBundleIssuer publicURL
    (if empty_string caFile && negb (empty_string tlsCertFile) then sibling tlsCertFile "ca.crt" else caFile)
    runnerVersion.

(** Targets as the service sees them in the hub's state. *)
Section Targets.
Context {G : Gorm} {P : Platform} {D : Dispatcher}.

Definition target_Get (id : UUID) : M World (Result Target) := zoom w_targets (TargetService.Get id).
Definition GenerateEnrollToken_ (id : UUID) : M World (Result string) :=
  let* b := rand_read in
  stmt w_targets (fun now => TargetService.GenerateEnrollToken now
    (match b with Ok b => Ok (hex_encode b) | Err e => Err e end) id).

Definition target_crud : CRUDService World Target := {|
  crud_Create := fun tg => stmt w_targets (fun now => TargetService.Create now tg);
  crud_Get := target_Get;
  crud_Update := fun id tg => stmt w_targets (fun now => TargetService.Update now id tg);
  crud_Delete := fun id => let* r := stmt w_targets (fun now => TargetService.Delete now id) in
                           ret (match r with Ok _ => Ok tt | Err e => Err e end);
|}.
End Targets.

Module JoinBundles.
Section Issuer.
Context {G : Gorm} {P : Platform} {D : Dispatcher} {F : CATools} (j : JoinBundleIssuer).

Definition certificate (content : string) : option string :=
  match pem_Decode content with
  | Some (kind, der) => if String.eqb kind "CERTIFICATE" then Some der else None
  | None => None
  end.

(** The file as it is, and the fingerprint of its public key. *)
Definition loadCA : Result (string * string) :=
  let file := ji_caFile j in
  if empty_string file then Err ErrJoinBundleUnavailable
  else match os_ReadFile file with
  | Err e => Err (unavailable ("read CA " +:+ file +:+ ": " +:+ Error e))
  | Ok content =>
      if negb (utf8_Valid content) then Err (unavailable ("CA " +:+ file +:+ " is not PEM"))
      else match certificate content with
      | None => Err (unavailable ("CA " +:+ file +:+ " has no CERTIFICATE block"))
      | Some der =>
          match x509_SubjectPublicKeyInfo der with
          | Err e => Err (unavailable ("parse CA " +:+ file +:+ ": " +:+ Error e))
          | Ok spki => Ok (content, "sha256:" +:+ hex_encode (Sha256.Sum256 spki))
          end
      end
  end.

Definition Issue (id : UUID) : M World (Result JoinBundle) :=
  if empty_string (ji_publicURL j) then ret (Err ErrJoinBundleUnavailable)
  else match loadCA with
  | Err e => ret (Err e)
  | Ok (caPem, fingerprint) =>
      try* tg := target_Get id in
      try* token := GenerateEnrollToken_ id in
      ret (Ok (mkJoinBundle (tg_Name tg) (ji_publicURL j +:+ "/gateway/ws") (ji_publicURL j) caPem fingerprint token
                 "24h" (ji_runnerVersion j)))
  end.
End Issuer.
End JoinBundles.

(** * Targets ([target.go]) *)

Definition StatusAccepted : Z := 202.
Definition StatusNotImplemented : Z := 501.

Module TargetHandler.
Section Handlers.
Context {G : Gorm} {P : Platform} {D : Dispatcher} {X : TimeText} {F : CATools}.
#[local] Existing Instances Codec_Target target_crud.

(** The collaborators [main] may have set. *)
Record Config := mkConfig {
  ops : option AgentOpService; runnerVersion : string; bundle : option JoinBundleIssuer }.
Context (h : Config).

(** The generic handlers on "/targets". *)
Definition Post (rq : HttpRequest) : M World Response := RegisterCRUD.Post rq.
Definition GetTarget (rq : HttpRequest) : M World Response := RegisterCRUD.Get rq.
Definition Put (rq : HttpRequest) : M World Response := RegisterCRUD.Put rq.
Definition DeleteTarget (rq : HttpRequest) : M World Response := RegisterCRUD.Delete rq.

Definition List (rq : HttpRequest) : M World Response :=
  let p := page_of rq in
  let* r := zoom w_targets (TargetService.List p) in ret (paged p r).

Definition EnrollToken (rq : HttpRequest) : M World Response :=
  path_uuid fails rq "id" (fun id =>
    let* r := GenerateEnrollToken_ id in
    ret (abort_or r (fun token => OK_ (RawDoc (JObj
      [("targetId", JStr (uuid_String id)); ("enrollToken", JStr token); ("expiresIn", JStr "24h")]))))).

Definition JoinBundle_ (rq : HttpRequest) : M World Response :=
  match bundle h with
  | None => ret (Fail StatusNotImplemented
      (EFmt "join-bundle unavailable: HUB_PUBLIC_URL / TLS CA not configured (ADR-0002)" []))
  | Some j =>
      path_uuid fails rq "id" (fun id =>
        let* r := JoinBundles.Issue j id in
        ret (match r with
             | Ok b => OK_ (RawDoc (enc_JoinBundle b))
             | Err e => if errors_Is e ErrJoinBundleUnavailable then Fail StatusNotImplemented e
                        else AbortWithError (Some e)
             end))
  end.

Definition queueAgentOp (opType : string) (rq : HttpRequest) : M World Response :=
  path_uuid fails rq "id" (fun id =>
    match ops h with
    | None => ret (Fail StatusNotImplemented (EFmt "agent op store not wired (install/upgrade unavailable)" []))
    | Some svc =>
        let* tg := target_Get id in
        match tg with
        | Err e => ret (AbortWithError (Some e))
        | Ok _ =>
            let* op := AgentOps.Create svc
              (mkAgentOp uuid_Nil id None opType "" (runnerVersion h) "" time_Zero time_Zero None) in
            ret (abort_or op (fun op =>
              Reply StatusAccepted (mkEnvelope (RawDoc (enc_AgentOp op)) "" "" [])))
        end
    end).
Definition Install (rq : HttpRequest) : M World Response := queueAgentOp AgentOpInstall rq.
Definition Upgrade (rq : HttpRequest) : M World Response := queueAgentOp AgentOpUpgrade rq.
End Handlers.
End TargetHandler.

(** * The ledger of agent operations ([agent_op.go]) *)

(** A slice expression of Go on [int] bounds. *)
Definition go_slice {A} (l : list A) (start stop : Z) : Go (list A) :=
  if (0 <=? start) && (start <=? stop) && (stop <=? Z.of_nat (length l))
  then Returns (take (Z.to_nat (stop - start)) (drop (Z.to_nat start) l))
  else Panics "slice bounds out of range".

(** The hub's state and the fan-out of events, which is not part of it. *)
Section OpHub.
Context {G : Gorm} {P : Platform} {D : Dispatcher}.
Record OpHub := mkOpHub { oh_world : World; oh_stream : OpStream.State }.
#[global] Instance OpHub_eta : Eta OpHub := fun s => mkOpHub (oh_world s) (oh_stream s).
End OpHub.

Module AgentOpHandler.
(** What the stream has written: an event, or the comment that keeps it open. *)
Inductive Written := Event (e : Sse) | Ping.
(** A refusal, or a stream that is over, or one that listens on its channel. *)
Inductive Answer := Refused (r : Response) | Closed (out : list Written) | Listening (out : list Written).
(** What the [select] of the loop picks. *)
Inductive Pick := ClientGone | Heartbeat | Incoming.

Section Handlers.
Context {G : Gorm} {P : Platform} {D : Dispatcher} {X : TimeText} (svc : AgentOpService).

Definition Get (rq : HttpRequest) : M World Response :=
  path_uuid fails rq "id" (fun id =>
    let* op := AgentOps.Get id in ret (abort_or op (fun op => OK_ (RawDoc (enc_AgentOp op))))).

Definition ListByTarget (rq : HttpRequest) : M World Response :=
  path_uuid fails rq "id" (fun id =>
    let p := page_of rq in
    let* r := AgentOps.ListByTarget id p in
    ret (fail_or StatusInternalServerError r (fun '(items, total) => OKPaged (enc_AgentOp <$> items) total p))).

(** The page of a list, cut out in memory. *)
Definition page_bounds (p : Pagination) (n : Z) : Z * Z :=
  let start := Z.min (Offset p) n in
  (start, Z.min (wrap64 (start + PageSize p)) n).
Definition ListAll (rq : HttpRequest) : M World (Go Response) :=
  let p := page_of rq in
  let* r := AgentOps.ListByStatus (Query_of rq "status") in
  match r with
  | Err e => ret (Returns (Fail StatusInternalServerError e))
  | Ok all_ =>
      let total := Z.of_nat (length all_) in
      let '(start, stop) := page_bounds p total in
      ret (go_bind (go_slice all_ start stop) (fun items => Returns (OKPaged (enc_AgentOp <$> items) total p)))
  end.

Definition decided_reply (id : UUID) (status : string) (err : option GoError) : Response :=
  match err with
  | Some e => AbortWithError (Some e)
  | None => OK_ (RawDoc (JObj [("id", JStr (uuid_String id)); ("status", JStr status)]))
  end.

Definition Approve (rq : HttpRequest) (c : Context_) : M World Response :=
  path_uuid fails rq "id" (fun id =>
    let* err := AgentOps.ApproveUpgrade svc id (default "" (CurrentSubject c)) in
    ret (decided_reply id AgentOpQueued err)).

(** The body is optional, and its error dropped. *)
Definition reason_of (body : RawJSON) : string :=
  match body with
  | RawDoc v => (dec_struct "" (dec_field Codec_string "reason") v).1
  | _ => ""
  end.
Definition Reject (rq : HttpRequest) (c : Context_) : M World Response :=
  path_uuid fails rq "id" (fun id =>
    let* err := AgentOps.RejectUpgrade id (reason_of (hq_Body rq)) (default "" (CurrentSubject c)) in
    ret (decided_reply id AgentOpFailed err)).

(** ** The event stream *)

(** Whether the client takes the n-th write. *)
Context (writes : nat -> bool).

Definition write (w : Written) (out : list Written) : bool * list Written :=
  if writes (length out) then (true, out ++ [w]) else (false, out).
Definition event_of (kind : string) (data : json) : Written := Event (mkSse kind data).
Definition status_event (op : AgentOp) : OpEvent := mkOpEvent OpEventStatus (Some op) None.
Definition log_event (l : AgentOpLog) : OpEvent := mkOpEvent OpEventLog None (Some l).
Definition op_event (e : OpEvent) : Written := event_of (ev_Kind e) (enc_OpEvent e).
Definition end_written : Written := Event end_event.

Fixpoint write_all (l : list Written) (out : list Written) : bool * list Written :=
  match l with
  | [] => (true, out)
  | w :: l' => let '(ok, out) := write w out in if ok then write_all l' out else (false, out)
  end.

(** The state of the operation, then its history; a finished one ends there. *)
Definition connect (rq : HttpRequest) : M World (Answer * option UUID) :=
  let refused r := ret (Refused r, None) in
  path_uuid (fun e => refused (Fail StatusBadRequest e)) rq "id" (fun id =>
    let* op := AgentOps.Get id in
    match op with
    | Err e => refused (AbortWithError (Some e))
    | Ok op =>
        let '(ok, out) := write (op_event (status_event op)) [] in
        if negb ok then ret (Closed out, None)
        else
          let* logs := AgentOps.Logs id in
          let logs := match logs with Ok l => l | Err _ => [] end in
          let '(ok, out) := write_all (op_event ∘ log_event <$> logs) out in
          if negb ok then ret (Closed out, None)
          else if IsTerminalAgentOpStatus (op_Status op) then ret (Closed (write end_written out).2, None)
          else ret (Listening out, Some id)
    end).

(** [ch] is the channel [make] gives.  Without a fan-out the subscription
    dereferences nil. *)
Definition Stream (wired : bool) (ch : OpStream.Chan) (rq : HttpRequest) : M OpHub (Go Answer) :=
  let* r := zoom oh_world (connect rq) in
  match r.2 with
  | None => ret (Returns r.1)
  | Some id =>
      if wired then zoom oh_stream (fun s => (Returns r.1, OpStream.Subscribe id ch s))
      else ret (Panics "nil pointer dereference")
  end.

Definition terminal_event (e : OpEvent) : bool :=
  String.eqb (ev_Kind e) OpEventStatus &&
  match ev_Status e with Some op => IsTerminalAgentOpStatus (op_Status op) | None => false end.

(** One turn of the loop; the deferred [cancel] runs when it returns.  An
    [Incoming] turn with nothing to take does not happen. *)
Definition turn (id : UUID) (ch : OpStream.Chan) (pick : Pick) (out : list Written)
  : M OpStream.State Answer := fun s =>
  let over out s := (Closed out, OpStream.cancel id ch s) in
  match pick with
  | ClientGone => over out s
  | Heartbeat => let '(ok, out) := write Ping out in if ok then (Listening out, s) else over out s
  | Incoming =>
      match OpStream.receive id ch s with
      | (None, s) => (Listening out, s)
      | (Some ev, s) =>
          let '(ok, out) := write (op_event ev) out in
          if negb ok then over out s
          else if terminal_event ev then over (write end_written out).2 s
          else (Listening out, s)
      end
  end.
End Handlers.
End AgentOpHandler.
