(* ===== verification/Upkeep.v ===== *)
(** What the hub does around its core: the retention job
    ([internal/retention]), the notification centre with its mail channel
    ([internal/notification]), and the search over the service tree
    ([internal/search]). *)
From stdpp Require Import base list strings gmap sorting.
From Stdlib Require Import ZArith Lia Ascii.
From S2P Require Import Prelude Common Gorm Json GoLib RunnerProto RunStore PipelineStore TargetStore.
From S2P Require Import EditStore OrgStore SiteStore PermStore RateLimit World Admin Middleware RunHandlers.

Open Scope Z_scope.

(** * Retention ([retention.go]) *)

Record RetentionGC := mkRetentionGC {
  AuditLogDays : Z; RunLogDays : Z; ArtifactVersions : Z; Batch : Z }.
Definition DefaultBatch : Z := 1000.
Definition NewRetentionGC (auditDays runDays artifactVersions batch : Z) : RetentionGC :=
  mkRetentionGC auditDays runDays artifactVersions (if batch <=? 0 then DefaultBatch else batch).

Module Retention.
Definition terminalPhases : list string := ["Succeeded"; "Failed"; "Error"; "Canceled"].

Definition Disabled (g : RetentionGC) : bool :=
  (AuditLogDays g <=? 0) && (RunLogDays g <=? 0) && (ArtifactVersions g <=? 0).

Section Collector.
Context {G : Gorm} {P : Platform}.

(** The tables the job deletes from. *)
Record State := mkState { rt_runs : Table PipelineRun; rt_tasks : Table TaskRun; rt_artifacts : Table Artifact }.
#[global] Instance State_eta : Eta State := fun s => mkState (rt_runs s) (rt_tasks s) (rt_artifacts s).

Definition cutoff (now : Time) (days : Z) : Time := AddDate Local now 0 0 (- days).

Definition retired (limit : Time) (r : PipelineRun) : bool :=
  bool_decide (run_Phase r ∈ terminalPhases) &&
  match run_CompletionTime r with Some t => t <? limit | None => run_UpdatedAt r <? limit end.

(** The tasks first; the runs go whether or not the tasks did.  The ids are
    bound as ANY(?) of a slice; what the statement does with them is the
    database's answer, as for every statement that may fail. *)
Definition delete_runs (now : Time) (ids : list UUID) : M State unit :=
  let* _ := zoom rt_tasks (db_Delete now (fun t => bool_decide (task_PipelineRunID t ∈ ids))) in
  let* _ := zoom rt_runs (db_Delete now (fun r => bool_decide (run_ID r ∈ ids))) in
  ret tt.

(** An error of the query leaves its list empty. *)
Definition retire_runs (g : RetentionGC) (now : Time) : M State unit :=
  if RunLogDays g <=? 0 then ret tt
  else
    let* found := zoom rt_runs (db_Find (LimitQ (Batch g) (Where (retired (cutoff now (RunLogDays g)))))) in
    match found with
    | Ok (r :: l) => delete_runs now (run_ID <$> r :: l)
    | _ => ret tt
    end.

(** ROW_NUMBER() OVER (PARTITION BY component_id ORDER BY created_at DESC): the
    rows beyond the n-th of their component, in a list that is newest first. *)
Definition of_component_row (a b : Artifact) : bool := art_ComponentID a =? art_ComponentID b.
Fixpoint beyond (n : Z) (seen rows : list Artifact) : list UUID :=
  match rows with
  | [] => []
  | a :: rows' =>
      let rest := beyond n (seen ++ [a]) rows' in
      if n <=? Z.of_nat (length (filter (fun b => of_component_row a b = true) seen)) then art_ID a :: rest else rest
  end.

(** One statement: the rows are numbered and deleted together or not at all. *)
Definition roll_artifacts (g : RetentionGC) (now : Time) : M State unit :=
  if ArtifactVersions g <=? 0 then ret tt
  else
    let* found := zoom rt_artifacts (db_Find (Order [fun a => - art_CreatedAt a] (Where (fun _ => true)))) in
    match found with
    | Err _ => ret tt
    | Ok l =>
        let gone := beyond (ArtifactVersions g) [] l in
        let* _ := zoom rt_artifacts (db_Delete now (fun a => bool_decide (art_ID a ∈ gone))) in ret tt
    end.

(** One pass.  The audit statement names a table, [audit_logs], that no
    migration and no model makes: it fails and changes nothing. *)
Definition collectOnce (g : RetentionGC) (now : Time) : M State unit :=
  retire_runs g now ;;; roll_artifacts g now.
End Collector.
End Retention.

(** * Notifications *)

(** Tables whose primary key is the subject: [First], and an INSERT with ON
    CONFLICT (subject) DO UPDATE.  [row_created] is the row an INSERT makes:
    gorm replaces a zero field by its column's default and stamps the times. *)
Class SubjectRow (R : Type) : Type := { row_subject : R -> string; row_created : Time -> R -> R }.
Class SubjectTables : Type := {
  ST : Type -> Type;
  st_rows : forall {R}, ST R -> gmap string R;
  st_First : forall {R}, string -> ST R -> Result R * ST R;
  st_Upsert : forall {R} `{SubjectRow R}, Time -> (R -> R -> R) -> R -> ST R -> Result R * ST R;
}.
Class SubjectTablesLaws (T : SubjectTables) : Prop := {
  st_First_spec : forall {R} k (t : ST R) r t', st_First k t = (r, t') ->
    st_rows t' = st_rows t /\
    match r with
    | Ok row => st_rows t !! k = Some row
    | Err e => errors_Is e ErrRecordNotFound = true -> st_rows t !! k = None
    end;
  st_Upsert_spec : forall {R} `{SubjectRow R} now merge (row : R) (t : ST R) r t',
    st_Upsert now merge row t = (r, t') ->
    match r with
    | Ok row' => row' = row_created now row /\
        st_rows t' = <[row_subject row := match st_rows t !! row_subject row with
                                          | Some old => merge old (row_created now row)
                                          | None => row_created now row
                                          end]> (st_rows t)
    | Err _ => st_rows t' = st_rows t
    end;
}.

(** [models.NotificationRead]; its soft-delete column is never set. *)
Record NotificationRead := mkNotificationRead {
  nr_Subject : string; nr_LastReadAt : Time; nr_CreatedAt : Time; nr_UpdatedAt : Time }.
#[global] Instance NotificationRead_eta : Eta NotificationRead := fun r =>
  mkNotificationRead (nr_Subject r) (nr_LastReadAt r) (nr_CreatedAt r) (nr_UpdatedAt r).
#[global] Instance NotificationRead_row : SubjectRow NotificationRead := {|
  row_subject := nr_Subject;
  row_created := fun now r => r <| nr_CreatedAt := stamp now (nr_CreatedAt r) |> <| nr_UpdatedAt := stamp now (nr_UpdatedAt r) |>;
|}.

(** [models.Subscription] *)
Record Subscription := mkSubscription {
  sb_Subject : string; sb_Email : string; sb_Events : string; sb_Enabled : bool;
  sb_CreatedAt : Time; sb_UpdatedAt : Time }.
#[global] Instance Subscription_eta : Eta Subscription := fun r =>
  mkSubscription (sb_Subject r) (sb_Email r) (sb_Events r) (sb_Enabled r) (sb_CreatedAt r) (sb_UpdatedAt r).
(** The column of the switch has the default true, so false is never written. *)
#[global] Instance Subscription_row : SubjectRow Subscription := {|
  row_subject := sb_Subject;
  row_created := fun now r => r <| sb_Events := default_str "approval_required" (sb_Events r) |> <| sb_Enabled := true |>
    <| sb_CreatedAt := stamp now (sb_CreatedAt r) |> <| sb_UpdatedAt := stamp now (sb_UpdatedAt r) |>;
|}.

Definition Wants (s : Subscription) (evt : string) : bool :=
  if empty_string (sb_Events s) then String.eqb evt "approval_required"
  else existsb (fun e => String.eqb (TrimSpace e) evt) (Split ","%char (sb_Events s)).

Record Notification := mkNotification {
  nt_ID : string; nt_Type : string; nt_Title : string; nt_Body : string; nt_Link : string; nt_CreatedAt : Time }.

Definition errReadStoreUnavailable : GoError := ESentinel "notification: read store unavailable".

Module ReadStore.
Section Store.
Context {T : SubjectTables}.
Definition LastReadAt (subject : string) : M (ST NotificationRead) (Result Time) :=
  let* r := st_First subject in
  ret (match r with
       | Ok row => Ok (nr_LastReadAt row)
       | Err e => if errors_Is e ErrRecordNotFound then Ok time_Zero else Err e
       end).
(** GREATEST of the two times. *)
Definition forward (old new : NotificationRead) : NotificationRead :=
  old <| nr_LastReadAt := Z.max (nr_LastReadAt old) (nr_LastReadAt new) |>.
Definition AdvanceTo (now : Time) (subject : string) (at_ : Time) : M (ST NotificationRead) (option GoError) :=
  let* r := st_Upsert now forward (mkNotificationRead subject at_ time_Zero time_Zero) in ret (err_of r).
End Store.
End ReadStore.

Module SubscriptionStore.
Section Store.
Context {T : SubjectTables}.
Definition unsubscribed (subject : string) : Subscription := mkSubscription subject "" "" false time_Zero time_Zero.
Definition Get (subject : string) : M (ST Subscription) (Result Subscription) :=
  let* r := st_First subject in
  ret (match r with
       | Ok s => Ok s
       | Err e => if errors_Is e ErrRecordNotFound then Ok (unsubscribed subject) else Err e
       end).
Definition overwrite (old new : Subscription) : Subscription :=
  old <| sb_Email := sb_Email new |> <| sb_Events := sb_Events new |> <| sb_Enabled := sb_Enabled new |>
      <| sb_UpdatedAt := sb_UpdatedAt new |>.
Definition Upsert (now : Time) (sub : Subscription) : M (ST Subscription) (Result Subscription) :=
  st_Upsert now overwrite sub.
End Store.
End SubscriptionStore.

Module Notifications.
(** The collaborators [main] may have set. *)
Record Config := mkConfig { reads : bool; subs : bool; mailer : bool }.

(** A message handed to the mail client. *)
Record Mail := mkMail { ml_to : string; ml_subject : string; ml_body : string }.

Section Service.
Context {G : Gorm} {P : Platform} {D : Dispatcher} {T : SubjectTables} {X : TimeText} (cfg : Config).

Record State := mkState { n_world : World; n_reads : ST NotificationRead; n_subs : ST Subscription; n_outbox : list Mail }.
#[global] Instance State_eta : Eta State := fun s => mkState (n_world s) (n_reads s) (n_subs s) (n_outbox s).
Definition now_at : M State Time := fun s => (w_now (n_world s), s).

Definition SubscriptionOf (subject : string) : M State (Result Subscription) :=
  if negb (subs cfg) then ret (Ok (SubscriptionStore.unsubscribed subject))
  else zoom n_subs (SubscriptionStore.Get subject).

Definition UpsertSubscription (sub : Subscription) : M State (Result Subscription) :=
  if negb (subs cfg) then ret (Err errReadStoreUnavailable)
  else let* now := now_at in zoom n_subs (SubscriptionStore.Upsert now sub).

(** Whether a message goes out; its delivery is not waited for. *)
Definition Dispatch (evt subject title body : string) : M State unit :=
  if negb (subs cfg) || negb (mailer cfg) then ret tt
  else
    let* sub := zoom n_subs (SubscriptionStore.Get subject) in
    match sub with
    | Err _ => ret tt
    | Ok sub =>
        if negb (sb_Enabled sub) || empty_string (sb_Email sub) || negb (Wants sub evt) then ret tt
        else modify (fun s => s <| n_outbox := n_outbox s ++ [mkMail (sb_Email sub) title body] |>)
    end.

Definition run_link (a : PipelineApproval) (pid : Result UUID) : string :=
  match pid with
  | Ok id => if id =? uuid_Nil then "/runs/" +:+ uuid_String (appr_RunID a)
             else "/pipelines/" +:+ uuid_String id +:+ "/runs/" +:+ uuid_String (appr_RunID a)
  | Err _ => "/runs/" +:+ uuid_String (appr_RunID a)
  end.
Definition body_text (a : PipelineApproval) : string :=
  (if empty_string (appr_RequestedBy a) then "有一条等待审批的运行"
   else "发起人 " +:+ appr_RequestedBy a +:+ " 发起的运行等待您审批") +:+
  (let c := TrimSpace (uuid_String (appr_ComponentID a)) in
   if String.eqb c (uuid_String uuid_Nil) then "" else "（组件 " +:+ String.substring 0 8 c +:+ "）").
Definition notice (a : PipelineApproval) (pid : Result UUID) : Notification :=
  mkNotification (uuid_String (appr_ID a)) "approval" "待审批的流水线运行" (body_text a) (run_link a pid) (appr_CreatedAt a).

(** The loop over the pending approvals: the notices and how many are unread. *)
Fixpoint notices (since : option Time) (pending : list PipelineApproval) : M State (list Notification * Z) :=
  match pending with
  | [] => ret ([], 0)
  | a :: pending' =>
      let* pid := zoom n_world (zoom w_runs (PipelineRunRepository.PipelineIDOf (appr_RunID a))) in
      let unread := match since with Some t => t <? appr_CreatedAt a | None => true end in
      let* rest := notices since pending' in
      ret (notice a pid :: rest.1, if unread then 1 + rest.2 else rest.2)
  end.

Definition clamp_limit (limit : Z) : Z :=
  let limit := if limit <=? 0 then 50 else limit in if 100 <? limit then 100 else limit.

(** A cursor that cannot be read stands at the beginning of time. *)
Definition List (subject : string) (limit : Z) : M State (Result (list Notification * Z)) :=
  try* pending := zoom n_world (zoom w_approvals (PipelineApprovalRepository.ListPending (clamp_limit limit))) in
  let* since :=
    if reads cfg && negb (empty_string subject)
    then let* r := zoom n_reads (ReadStore.LastReadAt subject) in
         ret (Some (match r with Ok t => t | Err _ => time_Zero end))
    else ret None in
  let* out := notices since pending in ret (Ok out).

Definition MarkRead (subject : string) (at_ : Time) : M State (option GoError) :=
  if negb (reads cfg) then ret (Some errReadStoreUnavailable)
  else
    let* now := now_at in
    zoom n_reads (ReadStore.AdvanceTo now subject (if at_ =? time_Zero then now else at_)).

(** ** Handlers ([handler.go]) *)

Definition enc_Notification (n : Notification) : json := JObj (concat [
  text_field "id" (nt_ID n); text_field "type" (nt_Type n); text_field "title" (nt_Title n);
  text_field "body" (nt_Body n); text_field "link" (nt_Link n); time_field "createdAt" (nt_CreatedAt n)]).

Definition ListHandler (c : Context_) : M State Response :=
  let* r := List (default "" (CurrentSubject c)) 50 in
  ret (fail_or StatusInternalServerError r (fun '(items, unread) => OK_ (RawDoc (JObj
    [("data", JArr (enc_Notification <$> items)); ("total", JNum (Z.of_nat (length items)));
     ("unreadCount", JNum unread)])))).

Definition err_subject : GoError := EFmt "subject required" [].
Definition StatusServiceUnavailable : Z := 503.

(** A body that does not bind leaves what was read of it. *)
Definition read_mark (body : RawJSON) : option Time :=
  match body with
  | RawDoc v => (dec_struct None (dec_field (Codec_ptr Codec_Time) "readAt") v).1
  | _ => None
  end.
Definition ReadMark (rq : HttpRequest) (c : Context_) : M State Response :=
  let subject := default "" (CurrentSubject c) in
  if empty_string subject then ret (Fail StatusUnauthorized err_subject)
  else
    let* now := now_at in
    let at_ := default now (read_mark (hq_Body rq)) in
    let* r := MarkRead subject at_ in
    ret (match r with
         | Some e => Fail (if errors_Is e errReadStoreUnavailable then StatusServiceUnavailable
                           else StatusInternalServerError) e
         | None => OK_ (RawDoc (JObj [("lastReadAt", enc (Codec := Codec_Time) at_)]))
         end).

Definition Codec_Subscription : Codec Subscription := {|
  zero := mkSubscription "" "" "" false time_Zero time_Zero;
  enc := fun p => JObj (concat [
    text_field "subject" (sb_Subject p); text_field "email" (sb_Email p); text_field "events" (sb_Events p);
    field _ "enabled" (sb_Enabled p); time_field "createdAt" (sb_CreatedAt p); time_field "updatedAt" (sb_UpdatedAt p)]);
  dec := dec_struct (mkSubscription "" "" "" false time_Zero time_Zero)
    (fields_ret mkSubscription <@> dec_field _ "subject" <@> dec_field _ "email" <@> dec_field _ "events" <@>
       dec_field _ "enabled" <@> dec_field Codec_Time "createdAt" <@> dec_field Codec_Time "updatedAt");
  wf := fun _ => True;
|}.

Definition GetSubscription (c : Context_) : M State Response :=
  let subject := default "" (CurrentSubject c) in
  if empty_string subject then ret (Fail StatusUnauthorized err_subject)
  else
    let* r := SubscriptionOf subject in
    ret (fail_or StatusInternalServerError r (fun s => OK_ (RawDoc (enc (Codec := Codec_Subscription) s)))).

Definition supportedEvents : list string := ["approval_required"; "run_finished"; "run_failed"].
(** The first event that is not supported. *)
Fixpoint unsupported (events : list string) : option string :=
  match events with
  | [] => None
  | e :: events' =>
      let e := TrimSpace e in
      if negb (empty_string e) && negb (bool_decide (e ∈ supportedEvents)) then Some e else unsupported events'
  end.
Definition validateEvents (events : string) : option GoError :=
  if empty_string (TrimSpace events) then None
  else match unsupported (Split ","%char events) with
       | Some e => Some (EFmt "不支持的事件类型 %q（可选 approval_required/run_finished/run_failed）" [AStr e])
       | None => None
       end.

Definition has_at (s : string) : bool := match cut "@"%char s with Some _ => true | None => false end.

Definition PutSubscription (rq : HttpRequest) (c : Context_) : M State Response :=
  let subject := default "" (CurrentSubject c) in
  if empty_string subject then ret (Fail StatusUnauthorized err_subject)
  else
    body_of (T := Subscription) (C := Codec_Subscription) fails rq (fun in_ =>
      if negb (empty_string (sb_Email in_)) && negb (has_at (sb_Email in_)) then fails (EFmt "email 格式非法" [])
      else match validateEvents (sb_Events in_) with
      | Some e => fails e
      | None =>
          let* r := UpsertSubscription (in_ <| sb_Subject := subject |>) in
          ret (fail_or StatusInternalServerError r (fun s => OK_ (RawDoc (enc (Codec := Codec_Subscription) s))))
      end).
End Service.
End Notifications.

(** * Search ([internal/search]) *)

(** ** LIKE and ILIKE of Postgres

    A pattern is read as tokens; one that ends with the escape character is an
    error.  [sql_lower] is the database's lower(), [text_rank] the position of
    a text in its collation. *)
Class SqlText : Type := { sql_lower : string -> string; text_rank : string -> Z }.

Definition backslash : ascii := ascii_of_nat 92.
Definition percent : ascii := "%"%char.
Definition underscore : ascii := "_"%char.

Inductive LikeToken := LChar (c : ascii) | LOne | LMany.
Fixpoint like_tokens (p : list ascii) : option (list LikeToken) :=
  match p with
  | [] => Some []
  | c :: p' =>
      if Ascii.eqb c backslash then
        match p' with [] => None | d :: p'' => cons (LChar d) <$> like_tokens p'' end
      else cons (if Ascii.eqb c percent then LMany else if Ascii.eqb c underscore then LOne else LChar c)
             <$> like_tokens p'
  end.
Fixpoint like_match (t : list LikeToken) (s : list ascii) : bool :=
  match t with
  | [] => match s with [] => true | _ => false end
  | LChar c :: t' => match s with x :: s' => Ascii.eqb c x && like_match t' s' | [] => false end
  | LOne :: t' => match s with _ :: s' => like_match t' s' | [] => false end
  | LMany :: t' =>
      (fix any (s : list ascii) : bool :=
         like_match t' s || match s with [] => false | _ :: s' => any s' end) s
  end.
(** Bytes; a text and a pattern are UTF-8. *)
Definition bytes (s : string) : list ascii := String.list_ascii_of_string s.
Definition ilike {Q : SqlText} (s p : string) : bool :=
  match like_tokens (bytes (sql_lower p)) with Some t => like_match t (bytes (sql_lower s)) | None => false end.

(** ** The repository ([search/repository/search.go]) *)

Definition escape_char (c : ascii) : string :=
  if Ascii.eqb c backslash || Ascii.eqb c percent || Ascii.eqb c underscore
  then String backslash (String c "") else String c "".
Fixpoint escapeLike (q : string) : string :=
  match q with "" => "" | String c q' => escape_char c +:+ escapeLike q' end.
Definition likePattern (q : string) : string := "%" +:+ escapeLike q +:+ "%".
Definition prefixPattern (q : string) : string := escapeLike q +:+ "%".
Definition joinPath (parts : list string) : string :=
  String.concat " / " (filter (fun p => empty_string p = false) parts).

Definition TypeService : string := "service".
Definition TypeComponent : string := "component".
Definition TypePipeline : string := "pipeline".
Definition AllTypes : list string := [TypeService; TypeComponent; TypePipeline].
Definition IsValidType (t : string) : bool := bool_decide (t ∈ AllTypes).
Record Hit := mkHit { hit_Type : string; hit_ID : UUID; hit_Name : string; hit_Path : string; hit_Keyword : string }.
Definition enc_Hit {P : Platform} (h : Hit) : json := JObj (concat [
  text_field "type" (hit_Type h); uuid_field "id" (hit_ID h); text_field "name" (hit_Name h);
  text_field "path" (hit_Path h); text_opt "keyword" (hit_Keyword h)]).

Module SearchRepository.
Section Repo.
Context {G : Gorm} {P : Platform} {O : ObjectStore} {Q : SqlText}.

(** The live organization above a tree, then what lies between it and a row:
    the rows the JOINs find, by their names. *)
Section Joins.
Context (s : Admin).

Definition row_by {R} (key : R -> UUID) (id : UUID) (l : list R) : option R :=
  list_find (fun r => key r = id) l ≫= fun p => Some p.2.
Definition org_of (treeID : UUID) : option Org :=
  st ← row_by tree_ID treeID (rows (a_trees s));
  o ← row_by org_ID (tree_OrgID st) (rows (a_orgs s));
  if live (org_DeletedAt o) then Some o else None.
Definition service_path (svc : Service) : option (list string) :=
  o ← org_of (svc_ServiceTreeID svc); Some [org_Name o].
Definition component_path (c : Component) : option (list string) :=
  svc ← row_by svc_ID (cmp_ServiceID c) (rows (a_services s));
  if live (svc_DeletedAt svc) then up ← service_path svc; Some (up ++ [svc_Name svc]) else None.
Definition pipeline_path (p : Pipeline) : option (list string) :=
  c ← row_by cmp_ID (pl_ComponentID p) (rows (a_components s));
  if live (cmp_DeletedAt c) then up ← component_path c; Some (up ++ [cmp_Name c]) else None.
End Joins.

Definition found {A} (o : option A) : bool := match o with Some _ => true | None => false end.

(** Exact, then prefix, then anywhere; then by name. *)
Definition relevance (q name : string) : Z :=
  if String.eqb (sql_lower name) (sql_lower q) then 0 else if ilike name (prefixPattern q) then 1 else 2.
Definition by_relevance {R} (name : R -> string) (q : string) : list (R -> Z) :=
  [fun r => relevance q (name r); fun r => text_rank (name r)].
Definition named (q : string) (texts : list string) : bool := existsb (fun t => ilike t (likePattern q)) texts.

Definition service_hit (s : Admin) (x : Service) : Hit :=
  mkHit TypeService (svc_ID x) (svc_Name x) (joinPath (default [] (service_path s x))) (svc_Key x).
Definition component_hit (s : Admin) (x : Component) : Hit :=
  mkHit TypeComponent (cmp_ID x) (cmp_Name x) (joinPath (default [] (component_path s x))) (cmp_Key x).
Definition pipeline_hit (s : Admin) (x : Pipeline) : Hit :=
  mkHit TypePipeline (pl_ID x) (pl_Name x) (joinPath (default [] (pipeline_path s x))) (pl_Kind x).

(** A SELECT over the joined tables, with the path of each row. *)
Definition select {R} {Mod : Model R} (proj : Admin -> Table R) `{!Setter proj} (visible : Admin -> R -> bool)
    (name : R -> string) (hit : Admin -> R -> Hit) (q : string) (limit : Z) : M Admin (Result (list Hit)) :=
  let* s := get in
  try* l := zoom proj (db_Find (LimitQ limit (Order (by_relevance name q) (Where (visible s))))) in
  ret (Ok (hit s <$> l)).

Definition SearchServices (q : string) (limit : Z) : M Admin (Result (list Hit)) :=
  select a_services (fun s x => found (service_path s x) && named q [svc_Name x; svc_Key x]) svc_Name service_hit q limit.
Definition SearchComponents (q : string) (limit : Z) : M Admin (Result (list Hit)) :=
  select a_components (fun s x => found (component_path s x) && named q [cmp_Name x; cmp_Key x]) cmp_Name component_hit q limit.
Definition SearchPipelines (q : string) (limit : Z) : M Admin (Result (list Hit)) :=
  select a_pipelines (fun s x => found (pipeline_path s x) && named q [pl_Name x]) pl_Name pipeline_hit q limit.
End Repo.
End SearchRepository.

(** ** The service ([search/service/search.go]) and its handler *)

(** [Store] *)
Class SearchStore (S : Type) : Type := {
  find_services : string -> Z -> M S (Result (list Hit));
  find_components : string -> Z -> M S (Result (list Hit));
  find_pipelines : string -> Z -> M S (Result (list Hit));
}.
#[global] Instance repository_search {G : Gorm} {P : Platform} {O : ObjectStore} {Q : SqlText} : SearchStore Admin := {|
  find_services := SearchRepository.SearchServices; find_components := SearchRepository.SearchComponents;
  find_pipelines := SearchRepository.SearchPipelines;
|}.

Module SearchService.
Definition DefaultLimit : Z := 20.
Definition MaxLimit : Z := 50.

Definition invalidTypeError (value : string) : GoError :=
  EApi (NewAPIError KindBase StatusBadRequest 2
    ("invalid search type: " +:+ value +:+ " (allowed: " +:+ String.concat "," AllTypes +:+ ")")).
Definition invalidLimitError (value : string) : GoError :=
  EApi (NewAPIError KindBase StatusBadRequest 3 ("invalid search limit: " +:+ value +:+ " (max 50)")).

(** In the caller's order, each once. *)
Fixpoint parse_parts (parts : list string) (types : list string) : Result (list string) :=
  match parts with
  | [] => Ok types
  | part :: parts' =>
      let t := ToLower (TrimSpace part) in
      if empty_string t then parse_parts parts' types
      else if negb (IsValidType t) then Err (invalidTypeError t)
      else parse_parts parts' (if bool_decide (t ∈ types) then types else types ++ [t])
  end.
Definition ParseTypes (raw : string) : Result (list string) :=
  match parse_parts (Split ","%char raw) [] with
  | Ok [] => Ok AllTypes
  | r => r
  end.

Definition ParseLimit (raw : string) : Result Z :=
  let raw := TrimSpace raw in
  if empty_string raw then Ok DefaultLimit
  else match Atoi raw with
  | None => Err (invalidLimitError raw)
  | Some n => if n <=? 0 then Ok DefaultLimit else if MaxLimit <? n then Err (invalidLimitError raw) else Ok n
  end.

Section Service.
Context {S : Type} {I : SearchStore S}.

Definition search_type (t q : string) (limit : Z) : M S (Result (list Hit)) :=
  if String.eqb t TypeService then find_services q limit
  else if String.eqb t TypeComponent then find_components q limit
  else if String.eqb t TypePipeline then find_pipelines q limit
  else ret (Err (invalidTypeError t)).
Fixpoint search_types (types : list string) (q : string) (limit : Z) : M S (Result (list Hit)) :=
  match types with
  | [] => ret (Ok [])
  | t :: types' =>
      try* batch := search_type t q limit in
      try* rest := search_types types' q limit in
      ret (Ok (batch ++ rest))
  end.
Definition Search (q : string) (types : list string) (limit : Z) : M S (Result (list Hit)) :=
  let q := TrimSpace q in
  if empty_string q then ret (Ok [])
  else
    let types := match types with [] => AllTypes | _ => types end in
    let limit := if limit <=? 0 then DefaultLimit else limit in
    search_types types q (Z.min limit MaxLimit).

Definition SearchHandler {P : Platform} (rq : HttpRequest) : M S Response :=
  match ParseTypes (Query_of rq "type") with
  | Err e => fails e
  | Ok types =>
      match ParseLimit (Query_of rq "limit") with
      | Err e => fails e
      | Ok limit =>
          let* r := Search (Query_of rq "q") types limit in
          ret (fail_or StatusInternalServerError r (fun hits => OK_ (RawDoc (JArr (enc_Hit <$> hits)))))
      end
  end.
End Service.
End SearchService.
