(* ===== verification/AdminLogic.v ===== *)
(** Reasoning about handlers over [Admin], as [WorldLogic] does over [World].

    [asame s s'] says that a computation only read; [Reads] computations do so
    from any state, and the tactic [reads] proves it along their text. *)
From stdpp Require Import base list strings gmap.
From Stdlib Require Import ZArith Lia.
From S2P Require Import Prelude Common Gorm Json GoLib RunnerProto RunStore PipelineStore TargetStore.
From S2P Require Import EditStore OrgStore SiteStore PermStore RateLimit.
From S2P Require Import World Admin WorldLogic.

Open Scope Z_scope.

Section States.
Context {G : Gorm} {GL : GormLaws G} {P : Platform} {O : ObjectStore}.

Record asame (s s' : Admin) : Prop := mkASame {
  asame_now : a_now s' = a_now s;
  asame_orgs : tsame (a_orgs s) (a_orgs s');
  asame_trees : tsame (a_trees s) (a_trees s');
  asame_services : tsame (a_services s) (a_services s');
  asame_components : tsame (a_components s) (a_components s');
  asame_deps : tsame (a_deps s) (a_deps s');
  asame_environments : tsame (a_environments s) (a_environments s');
  asame_configs : tsame (a_configs s) (a_configs s');
  asame_config_history : tsame (a_config_history s) (a_config_history s');
  asame_artifacts : tsame (a_artifacts s) (a_artifacts s');
  asame_pipelines : tsame (a_pipelines s) (a_pipelines s');
  asame_stages : tsame (a_stages s) (a_stages s');
  asame_templates : tsame (a_templates s) (a_templates s');
  asame_runs : tsame (a_runs s) (a_runs s');
  asame_targets : tsame (a_targets s) (a_targets s');
  asame_agent_ops : tsame (a_agent_ops s) (a_agent_ops s');
  asame_bindings : tsame (a_bindings s) (a_bindings s');
  asame_component_roles : tsame (a_component_roles s) (a_component_roles s');
  asame_platform_roles : tsame (a_platform_roles s) (a_platform_roles s');
  asame_platform_bindings : tsame (a_platform_bindings s) (a_platform_bindings s');
  asame_ownership : tsame (a_ownership s) (a_ownership s');
  asame_mappings : tsame (a_mappings s) (a_mappings s');
  asame_requests : tsame (a_requests s) (a_requests s');
  asame_tokens : tsame (a_tokens s) (a_tokens s');
  asame_audit : tsame (a_audit s) (a_audit s');
  asame_snapshots : tsame (a_snapshots s) (a_snapshots s');
  asame_var_groups : tsame (a_var_groups s) (a_var_groups s');
  asame_var_bindings : tsame (a_var_bindings s) (a_var_bindings s');
  asame_env_groups : tsame (a_env_groups s) (a_env_groups s');
  asame_credentials : tsame (a_credentials s) (a_credentials s');
  asame_bucket : a_bucket s' = a_bucket s;
  asame_limits : a_limits s' = a_limits s;
}.

#[global] Instance asame_refl : Reflexive asame.
Proof. intros s. split; (done || apply tsame_refl). Qed.
#[global] Instance asame_trans : Transitive asame.
Proof. intros s1 s2 s3 [] []. split; solve [congruence | eapply tsame_trans; eassumption]. Qed.

(** A field holding a table: replacing it by the same rows changes nothing. *)
Class AField {R} (proj : Admin -> Table R) {S : Setter proj} : Prop := {
  afield_get : forall s t, proj (set_field proj (fun _ => t) s) = t;
  afield_same : forall s t, tsame (proj s) t -> asame s (set_field proj (fun _ => t) s);
}.

Ltac afield :=
  split; [done|]; intros s t Ht; split; first [exact Ht | done | apply tsame_refl].
#[global] Instance orgs_afield : AField a_orgs. Proof. afield. Qed.
#[global] Instance trees_afield : AField a_trees. Proof. afield. Qed.
#[global] Instance services_afield : AField a_services. Proof. afield. Qed.
#[global] Instance components_afield : AField a_components. Proof. afield. Qed.
#[global] Instance deps_afield : AField a_deps. Proof. afield. Qed.
#[global] Instance environments_afield : AField a_environments. Proof. afield. Qed.
#[global] Instance configs_afield : AField a_configs. Proof. afield. Qed.
#[global] Instance config_history_afield : AField a_config_history. Proof. afield. Qed.
#[global] Instance artifacts_afield : AField a_artifacts. Proof. afield. Qed.
#[global] Instance pipelines_afield : AField a_pipelines. Proof. afield. Qed.
#[global] Instance stages_afield : AField a_stages. Proof. afield. Qed.
#[global] Instance templates_afield : AField a_templates. Proof. afield. Qed.
#[global] Instance runs_afield : AField a_runs. Proof. afield. Qed.
#[global] Instance targets_afield : AField a_targets. Proof. afield. Qed.
#[global] Instance agent_ops_afield : AField a_agent_ops. Proof. afield. Qed.
#[global] Instance bindings_afield : AField a_bindings. Proof. afield. Qed.
#[global] Instance component_roles_afield : AField a_component_roles. Proof. afield. Qed.
#[global] Instance platform_roles_afield : AField a_platform_roles. Proof. afield. Qed.
#[global] Instance platform_bindings_afield : AField a_platform_bindings. Proof. afield. Qed.
#[global] Instance ownership_afield : AField a_ownership. Proof. afield. Qed.
#[global] Instance mappings_afield : AField a_mappings. Proof. afield. Qed.
#[global] Instance requests_afield : AField a_requests. Proof. afield. Qed.
#[global] Instance tokens_afield : AField a_tokens. Proof. afield. Qed.
#[global] Instance audit_afield : AField a_audit. Proof. afield. Qed.
#[global] Instance snapshots_afield : AField a_snapshots. Proof. afield. Qed.
#[global] Instance var_groups_afield : AField a_var_groups. Proof. afield. Qed.
#[global] Instance var_bindings_afield : AField a_var_bindings. Proof. afield. Qed.
#[global] Instance env_groups_afield : AField a_env_groups. Proof. afield. Qed.
#[global] Instance credentials_afield : AField a_credentials. Proof. afield. Qed.

Definition Reads {A} (m : M Admin A) : Prop := forall s, asame s (m s).2.

Lemma reads_ret {A} (a : A) : Reads (ret a).
Proof. intros s. reflexivity. Qed.
Lemma reads_now : Reads now_.
Proof. intros s. reflexivity. Qed.
Lemma reads_random : Reads random_.
Proof. intros s. split; (done || apply tsame_refl). Qed.
Lemma reads_bind {A B} (m : M Admin A) (k : A -> M Admin B) :
  Reads m -> (forall a, Reads (k a)) -> Reads (bind m k).
Proof.
  intros Hm Hk s. unfold bind. specialize (Hm s). destruct (m s) as [a s']. simpl in Hm.
  etransitivity; [exact Hm|apply Hk].
Qed.
Lemma reads_try {E A B} (m : M Admin (Res E A)) (k : A -> M Admin (Res E B)) :
  Reads m -> (forall a, Reads (k a)) -> Reads (try_bind m k).
Proof. intros Hm Hk. apply reads_bind; [done|]. intros [a|e]; [apply Hk|apply reads_ret]. Qed.
Lemma reads_zoom {R A} (proj : Admin -> Table R) {S : Setter proj} {F : AField proj}
    (m : M (Table R) A) : TRead m -> Reads (zoom proj m).
Proof.
  intros Hm s. unfold zoom. specialize (Hm (proj s)). destruct (m (proj s)) as [a t].
  by apply afield_same.
Qed.
Lemma reads_on {R A} (proj : Admin -> Table R) {S : Setter proj} {F : AField proj}
    (m : Time -> M (Table R) A) : (forall now, TRead (m now)) -> Reads (on proj m).
Proof. intros Hm. apply reads_bind; [apply reads_now|]. intros now. by apply reads_zoom. Qed.

Lemma wp_reads {A} (m : M Admin A) (Q : A -> Admin -> Prop) s :
  Reads m -> (forall a s', m s = (a, s') -> asame s s' -> Q a s') -> wp m Q s.
Proof.
  intros Hm HQ. apply wp_run. intros a s' E. apply HQ; [done|]. specialize (Hm s).
  by rewrite E in Hm.
Qed.

Lemma wp_reads_and {A} (m : M Admin A) (Q : A -> Admin -> Prop) s :
  Reads m -> wp m Q s -> wp m (fun r s' => asame s s' /\ Q r s') s.
Proof. intros Hm HQ. split; [apply Hm|exact HQ]. Qed.

Lemma wp_on {T A} (proj : Admin -> T) {S : Setter proj} (m : Time -> M T A) Q s :
  wp (m (a_now s)) (fun a t' => Q a (set_field proj (fun _ => t') s)) (proj s) ->
  wp (on proj m) Q s.
Proof. intros H. unfold on. apply wp_bind. apply (wp_zoom proj). exact H. Qed.

(** A statement that only reads one table, on a state seen up to [asame]. *)
Lemma wp_read_zoom {R A} (proj : Admin -> Table R) {S : Setter proj} {F : AField proj}
    (m : M (Table R) A) (Q : A -> Admin -> Prop) s :
  TRead m -> wp m (fun a _ => forall s', asame s s' -> Q a s') (proj s) -> wp (zoom proj m) Q s.
Proof.
  intros Hm HQ. apply (wp_zoom proj). apply wp_run. intros a t E.
  assert (Ht := Hm (proj s)). rewrite E in Ht. unfold wp in HQ. rewrite E in HQ. apply HQ.
  by apply afield_same.
Qed.
Lemma wp_read_on {R A} (proj : Admin -> Table R) {S : Setter proj} {F : AField proj}
    (m : Time -> M (Table R) A) (Q : A -> Admin -> Prop) s :
  TRead (m (a_now s)) ->
  wp (m (a_now s)) (fun a _ => forall s', asame s s' -> Q a s') (proj s) -> wp (on proj m) Q s.
Proof. intros Hm HQ. unfold on. apply wp_bind. exact (wp_read_zoom proj _ Q s Hm HQ). Qed.
End States.

(** Solves a [Reads] or [TRead] goal by following the text of the handler. *)
Ltac reads_step :=
  match goal with
  | |- AField _ => apply _
  | |- Reads (ret _) => apply reads_ret
  | |- Reads (bind _ _) => apply reads_bind; [|intros ?]
  | |- Reads (try_bind _ _) => apply reads_try; [|intros ?]
  | |- Reads (zoom _ _) => apply reads_zoom
  | |- Reads (on _ _) => apply reads_on; [|intros ?]
  | |- Reads (match ?x with _ => _ end) => destruct x
  | |- Reads now_ => apply reads_now
  | |- Reads random_ => apply reads_random
  | |- Reads (let _ := _ in _) => cbv zeta
  | _ => quiet_step
  | |- Reads ?m => let h := head_of m in progress unfold h
  end.
Create HintDb reads.
Ltac reads := repeat first [reads_step | solve [auto with reads]].
