(* ===== verification/PermTheory.v ===== *)
(** Who holds a permission: the rows of the permission tables that grant an
    action, what [HasPermission] and [HasPlatformPermission] compute of them,
    for any state and for one whose statements succeed, and the two guards of
    a component-scoped route. *)
From stdpp Require Import base list strings gmap sorting.
From Stdlib Require Import ZArith Lia.
From S2P Require Import Prelude Common Gorm Json GoLib RunnerProto RunStore PipelineStore TargetStore.
From S2P Require Import EditStore OrgStore PermStore World Admin Permissions Middleware WorldLogic Frames.
From S2P Require Import AdminLogic.

Open Scope Z_scope.

Lemma elem_of_add_actions p a acc : p ∈ add_actions acc a <-> p ∈ acc \/ p ∈ a.
Proof.
  unfold add_actions. revert acc. induction a as [|x a IH]; intros acc; simpl; [set_solver|].
  rewrite IH. case_bool_decide; set_solver.
Qed.

Lemma existsb_eqb p (l : list string) : existsb (fun a => String.eqb a p) l = true <-> p ∈ l.
Proof.
  rewrite existsb_exists. split.
  - intros (x & Hx & ->%String.eqb_eq). by apply list_elem_of_In.
  - intros Hp. exists p. by rewrite <- list_elem_of_In, String.eqb_refl.
Qed.

(** [First] without an order answers the row with the smallest key. *)
Lemma First_min {G : Gorm} {GL : GormLaws G} {R : Type} `{Model R} (q : Query R) (t t' : Table R) r :
  q_order q = [] -> db_First q t = (Ok r, t') ->
  forall x, x ∈ rows t -> alive x = true -> q_where q x = true -> pk r <= pk x.
Proof.
  intros Ho E x Hx Ha Hw. apply First_spec in E as (_ & _ & l' & Hq).
  apply query_result_nolimit in Hq as [Hp Hs]; [|done|done].
  assert (Hin : x ∈ r :: l') by (rewrite Hp; by apply elem_of_selected).
  apply (Sorted_StronglySorted _) in Hs. apply StronglySorted_inv in Hs as [_ Hall].
  apply elem_of_cons in Hin as [->|Hin]; [lia|]. rewrite Forall_forall in Hall.
  specialize (Hall x Hin). unfold by_keys in Hall. simpl in Hall. rewrite Ho in Hall. simpl in Hall.
  rewrite orb_true_iff, andb_true_iff, Z.ltb_lt, Z.eqb_eq in Hall. lia.
Qed.

Section Grants.
Context {G : Gorm} {GL : GormLaws G} {P : Platform} {O : ObjectStore}.

(** ** The rows that grant an action *)

Definition registered (s : Admin) (kind : string) (roleID : UUID) (p : string) : Prop :=
  exists m, m ∈ rows (a_mappings s) /\ ram_RoleKind m = kind /\ ram_RoleID m = roleID /\
            ram_Action m = p.

Definition role_action (s : Admin) (roleID : UUID) (p : string) : Prop :=
  exists cr, cr ∈ rows (a_component_roles s) /\ cr_ID cr = roleID /\
             (p ∈ unmarshalActions (cr_Actions cr) \/ registered s "component" roleID p).

Definition contributes (s : Admin) (b : ComponentRoleBinding) (p : string) : Prop :=
  exists roleID, crb_ComponentRoleID b = Some roleID /\ role_action s roleID p.

(** A binding covers the subject itself or one of the groups, until it expires. *)
Definition covers (now : Time) (componentID : UUID) (subject : string) (groups : list string)
    (b : ComponentRoleBinding) : Prop :=
  crb_ComponentID b = componentID /\
  ((crb_SubjectType b = "user" /\ crb_SubjectID b = subject) \/
   (crb_SubjectType b = "group" /\ crb_SubjectID b ∈ groups)) /\
  (forall t, crb_ExpiresAt b = Some t -> now < t).

Definition bound (s : Admin) (componentID : UUID) (subject : string) (groups : list string)
    (p : string) : Prop :=
  exists b, b ∈ rows (a_bindings s) /\
            covers (a_now s) componentID subject groups b /\ contributes s b p.

Definition is_owner (subject : string) (groups : list string) (c : Component) : Prop :=
  cmp_OwnerSub c = Some subject \/ exists g, cmp_OwnerGroup c = Some g /\ g ∈ groups.

Definition owns_component (s : Admin) (componentID : UUID) (subject : string)
    (groups : list string) : Prop :=
  exists c, c ∈ rows (a_components s) /\ cmp_ID c = componentID /\ cmp_DeletedAt c = None /\
            is_owner subject groups c.

(** The administrator role is the one of that name with the smallest key. *)
Definition admin_action (s : Admin) (p : string) : Prop :=
  exists cr, cr ∈ rows (a_component_roles s) /\ cr_Name cr = "component-admin" /\
    (forall cr', cr' ∈ rows (a_component_roles s) -> cr_Name cr' = "component-admin" ->
                 cr_ID cr <= cr_ID cr') /\
    p ∈ unmarshalActions (cr_Actions cr).

Definition holds (s : Admin) (componentID : UUID) (subject : string) (groups : list string)
    (p : string) : Prop :=
  bound s componentID subject groups p \/
  (owns_component s componentID subject groups /\ admin_action s p).

Definition platform_role_action (s : Admin) (roleID : UUID) (p : string) : Prop :=
  exists pr, pr ∈ rows (a_platform_roles s) /\ pr_ID pr = roleID /\
             (p ∈ unmarshalActions (pr_Actions pr) \/ registered s "platform" roleID p).

Definition platform_holds (s : Admin) (orgID : option UUID) (subject : string)
    (groups : list string) (p : string) : Prop :=
  exists b, b ∈ rows (a_platform_bindings s) /\
            PlatformRoleBindingRepository.matching (a_now s) orgID subject groups b = true /\
            platform_role_action s (prb_PlatformRoleID b) p.

(** Every statement of the lookup succeeds, and role and component ids are keys. *)
Record authz_ready (s : Admin) : Prop := mkReady {
  ready_bindings : healthy (a_bindings s);
  ready_roles : healthy (a_component_roles s);
  ready_mappings : healthy (a_mappings s);
  ready_components : healthy (a_components s);
  ready_platform_bindings : healthy (a_platform_bindings s);
  ready_platform_roles : healthy (a_platform_roles s);
  ready_role_keys : NoDup (cr_ID <$> rows (a_component_roles s));
  ready_component_keys : NoDup (cmp_ID <$> rows (a_components s));
  ready_platform_keys : NoDup (pr_ID <$> rows (a_platform_roles s));
}.

Lemma ready_asame s s' : asame s s' -> authz_ready s -> authz_ready s'.
Proof.
  intros HS []. destruct HS.
  repeat match goal with H : tsame _ _ |- _ => destruct H as [? ?] end.
  split; try (match goal with H : rows ?t = _ |- NoDup (_ <$> rows ?t) => rewrite H end); eauto.
Qed.

(** Reading leaves the granting rows alone. *)
Ltac transport HS :=
  destruct HS; repeat match goal with H : tsame _ _ |- _ => destruct H as [? _] end;
  repeat match goal with H : rows ?t = _ |- context [rows ?t] => rewrite H end;
  try match goal with H : a_now ?s = _ |- context [a_now ?s] => rewrite H end.

Lemma registered_asame s s' k r p : asame s s' -> registered s' k r p <-> registered s k r p.
Proof. intros HS. unfold registered. by transport HS. Qed.
Lemma role_action_asame s s' r p : asame s s' -> role_action s' r p <-> role_action s r p.
Proof. intros HS. unfold role_action, registered. by transport HS. Qed.
Lemma contributes_asame s s' b p : asame s s' -> contributes s' b p <-> contributes s b p.
Proof. intros HS. unfold contributes. by setoid_rewrite (role_action_asame _ _ _ _ HS). Qed.
Lemma owns_asame s s' c u g : asame s s' -> owns_component s' c u g <-> owns_component s c u g.
Proof. intros HS. unfold owns_component. by transport HS. Qed.
Lemma admin_action_asame s s' p : asame s s' -> admin_action s' p <-> admin_action s p.
Proof. intros HS. unfold admin_action. by transport HS. Qed.
Lemma platform_role_asame s s' r p :
  asame s s' -> platform_role_action s' r p <-> platform_role_action s r p.
Proof. intros HS. unfold platform_role_action, registered. by transport HS. Qed.

(** ** The lookups *)

Lemma wp_mapped kind id s (Q : list string -> Admin -> Prop) :
  (forall acts s', asame s s' -> (forall p, p ∈ acts -> registered s kind id p) ->
     (authz_ready s -> forall p, registered s kind id p -> p ∈ acts) -> Q acts s') ->
  wp (mappedActions bindingSvc kind id) Q s.
Proof.
  intros HQ. unfold mappedActions; simpl. apply wp_bind. unfold RoleAPIMappingService.ActionsForRole.
  apply wp_try. apply (wp_read_zoom a_mappings); [apply read_Find|]. apply wp_Find.
  - intros l t' _ (l' & Hp & _ & ->) s' Hs. do 2 apply wp_ret. unfold limit_rows; simpl.
    assert (Hl : forall m, m ∈ l' <-> m ∈ rows (a_mappings s) /\ ram_RoleKind m = kind /\ ram_RoleID m = id).
    { intros m. rewrite Hp, elem_of_selected. simpl. unfold RoleAPIMappingRepository.of_role.
      rewrite andb_true_iff, String.eqb_eq, Z.eqb_eq. tauto. }
    apply HQ; [done| |].
    + intros p (m & -> & (Hm & ? & ?)%Hl)%list_elem_of_fmap. by exists m.
    + intros _ p (m & Hm & ? & ? & <-). apply list_elem_of_fmap. exists m. split; [done|]. by apply Hl.
  - intros e t' _ Hh s' Hs. apply wp_ret. apply HQ; [done|set_solver|]. intros HR. destruct Hh. apply HR.
Qed.

Lemma wp_role_by_id id s (Q : Result ComponentRole -> Admin -> Prop) :
  (forall cr s', asame s s' -> cr ∈ rows (a_component_roles s) -> cr_ID cr = id -> Q (Ok cr) s') ->
  (forall e s', asame s s' ->
     (authz_ready s -> forall cr, cr ∈ rows (a_component_roles s) -> cr_ID cr <> id) -> Q (Err e) s') ->
  wp (zoom a_component_roles (ComponentRoleRepository.GetByID id)) Q s.
Proof.
  intros HO HE. apply (wp_read_zoom a_component_roles); [apply read_First|]. apply wp_First.
  - intros cr t' _ _ Hw Hin s' Hs. apply HO; [done|done|]. simpl in Hw. by apply Z.eqb_eq.
  - intros e t' _ Hh Hnone _ s' Hs. apply HE; [done|]. intros HR cr Hin Hid.
    assert (Hcr : cr ∈ selected (fun r => cr_ID r =? id) (rows (a_component_roles s))).
    { apply elem_of_selected. simpl. by rewrite Hid, Z.eqb_refl. }
    pose proof (Hnone (Hh (ready_roles _ HR))) as E. simpl in E. rewrite E in Hcr.
    by apply not_elem_of_nil in Hcr.
Qed.

Lemma wp_binding_actions b acc s (Q : list string -> Admin -> Prop) :
  (forall acts s', asame s s' ->
     (forall p, p ∈ acts -> p ∈ acc \/ contributes s b p) ->
     (forall p, p ∈ acc -> p ∈ acts) ->
     (authz_ready s -> forall p, contributes s b p -> p ∈ acts) -> Q acts s') ->
  wp (binding_actions bindingSvc acc b) Q s.
Proof.
  intros HQ. unfold binding_actions. destruct (crb_ComponentRoleID b) as [roleID|] eqn:Eb.
  2:{ apply wp_ret. apply HQ; [reflexivity|auto..|]. intros _ p (r & ? & _). congruence. }
  apply wp_bind, wp_role_by_id.
  - intros cr s1 H1 Hcr Hid. apply wp_bind, wp_mapped. intros acts s2 H2 Ha Hb. apply wp_ret.
    apply HQ; [by etransitivity| | |].
    + intros p. rewrite !elem_of_add_actions. intros [[?|Hp]|Hp]; [by left| |]; right;
        exists roleID; (split; [done|]); exists cr; repeat split; auto.
      right. rewrite <- (registered_asame _ _ _ _ _ H1). auto.
    + intros p Hp. rewrite !elem_of_add_actions. auto.
    + intros HR p (r & Hr & cr' & Hcr' & Hid' & Hp). simplify_eq. rewrite !elem_of_add_actions.
      assert (cr' = cr) as -> by (eapply (key_unique cr_ID); [apply HR|..]; congruence || done).
      destruct Hp as [Hp|Hp]; [by left; right|]. right.
      apply Hb; [by eapply ready_asame|]. by rewrite (registered_asame _ _ _ _ _ H1).
  - intros e s1 H1 Hn. apply wp_ret, HQ; [done|by left|done|].
    intros HR p (r & Hr & cr & Hcr & Hid & _). simplify_eq. by destruct (Hn HR cr Hcr).
Qed.

Lemma wp_bindings_actions bs acc s (Q : list string -> Admin -> Prop) :
  (forall acts s', asame s s' ->
     (forall p, p ∈ acts -> p ∈ acc \/ exists b, b ∈ bs /\ contributes s b p) ->
     (forall p, p ∈ acc -> p ∈ acts) ->
     (authz_ready s -> forall b p, b ∈ bs -> contributes s b p -> p ∈ acts) -> Q acts s') ->
  wp (bindings_actions bindingSvc bs acc) Q s.
Proof.
  revert acc s. induction bs as [|b bs IH]; intros acc s HQ; simpl.
  { apply wp_ret. apply HQ; [reflexivity|auto|auto|set_solver]. }
  apply wp_bind, wp_binding_actions. intros acts1 s1 H1 A1 A2 A3. apply IH.
  intros acts2 s2 H2 B1 B2 B3. apply HQ; [by etransitivity| | |].
  - intros p [Hp|(b' & Hb' & Hp)]%B1.
    + apply A1 in Hp as [?|?]; [by left|]. right. exists b. split; [left|done].
    + right. exists b'. split; [by right|]. by rewrite <- (contributes_asame _ _ _ _ H1).
  - auto.
  - intros HR b' p [->|Hb']%elem_of_cons Hp; [auto|].
    eapply B3; [by eapply ready_asame|exact Hb'|]. by rewrite (contributes_asame _ _ _ _ H1).
Qed.

Lemma wp_owner_actions componentID subject groups s (Q : Result (list string) -> Admin -> Prop) :
  (forall r s', asame s s' ->
     (forall acts p, r = Ok acts -> p ∈ acts ->
        owns_component s componentID subject groups /\ admin_action s p) ->
     (authz_ready s -> forall p, owns_component s componentID subject groups -> admin_action s p ->
        exists acts, r = Ok acts /\ p ∈ acts) -> Q r s') ->
  wp (ownerActions bindingSvc componentID subject groups) Q s.
Proof.
  intros HQ. unfold ownerActions; simpl.
  apply wp_try. apply (wp_read_zoom a_components); [apply read_First|]. apply wp_First.
  2:{ intros e t' _ Hh Hnone _ s' Hs. apply HQ; [done|done|].
      intros HR p (c & Hc & Hid & Hd & _) _.
      pose proof (Hnone (Hh (ready_components _ HR))) as E. exfalso.
      assert (Hin : c ∈ selected (fun r => pk r =? componentID) (rows (a_components s))).
      { apply elem_of_selected. simpl. by rewrite Hd, Hid, Z.eqb_refl. }
      simpl in E, Hin. rewrite E in Hin. by apply not_elem_of_nil in Hin. }
  intros c t' _ Ha Hw Hc s1 H1. simpl in Ha, Hw. apply Z.eqb_eq in Hw.
  assert (Hd : cmp_DeletedAt c = None) by (by destruct (cmp_DeletedAt c)).
  set (owner := _ || _). assert (Ho : owner = true <-> is_owner subject groups c).
  { subst owner. unfold is_owner. rewrite orb_true_iff. f_equiv.
    - destruct (cmp_OwnerSub c) as [o|]; [|by split]. rewrite String.eqb_eq. naive_solver.
    - destruct (cmp_OwnerGroup c) as [g|]; [|naive_solver]. rewrite bool_decide_eq_true. naive_solver. }
  destruct owner; simpl.
  2:{ apply wp_ret. apply HQ; [done|set_solver|]. intros HR p (c' & Hc' & Hid & _ & Hown) _.
      assert (c' = c) as -> by (eapply (key_unique cmp_ID); [apply HR|..]; congruence || done).
      apply Ho in Hown. done. }
  apply wp_try. apply (wp_zoom a_component_roles). apply wp_run. intros r t E.
  assert (H2 : asame s1 (set_field a_component_roles (fun _ => t) s1)).
  { apply afield_same. pose proof (read_First (Where (fun r => String.eqb (cr_Name r) "component-admin"))
      (a_component_roles s1)) as Ht. unfold ComponentRoleRepository.GetByName in E. by rewrite E in Ht. }
  destruct r as [cr|e].
  - pose proof (First_min (Where (fun r => String.eqb (cr_Name r) "component-admin")) _ _ _ eq_refl E) as Hmin. apply First_Ok in E as (_ & _ & Hn & Hin).
    simpl in Hn. apply String.eqb_eq in Hn. apply wp_ret. apply HQ; [by etransitivity| |].
    + intros acts p [= <-] Hp. split; [exists c; repeat split; [done..|by apply Ho]|].
      rewrite <- (admin_action_asame _ _ _ H1). exists cr. repeat split; [done..| |done].
      intros cr' Hin' Hn'. apply (Hmin cr'); [done|done|]. simpl. by rewrite Hn'.
    + intros HR p _ Had. rewrite <- (admin_action_asame _ _ _ H1) in Had.
      destruct Had as (cr' & Hin' & Hn' & Hmin' & Hp). eexists. split; [done|].
      assert (cr' = cr) as <-; [|done].
      eapply (key_unique cr_ID); [apply (ready_asame _ _ H1 HR)|done|done|].
      specialize (Hmin' cr Hin Hn). specialize (Hmin cr' Hin' eq_refl). simpl in Hmin.
      rewrite Hn' in Hmin. specialize (Hmin eq_refl). lia.
  - apply HQ; [by etransitivity|done|]. intros HR p _ Had. exfalso.
    rewrite <- (admin_action_asame _ _ _ H1) in Had. destruct Had as (cr & Hin & Hn & _).
    apply First_Err in E as (_ & Hnone). specialize (Hnone (ready_roles _ (ready_asame _ _ H1 HR))).
    assert (Hcr : cr ∈ selected (fun r => String.eqb (cr_Name r) "component-admin")
                         (rows (a_component_roles s1))).
    { apply elem_of_selected. simpl. by rewrite Hn. }
    simpl in Hnone. rewrite Hnone in Hcr. by apply not_elem_of_nil in Hcr.
Qed.

Lemma matching_covers now cid subject groups b :
  BindingRepository.matching now cid subject groups b = true <-> covers now cid subject groups b.
Proof.
  unfold BindingRepository.matching, covers, names_subject, withActiveGrant.
  rewrite !andb_true_iff, orb_true_iff, !andb_true_iff, !String.eqb_eq, Z.eqb_eq, bool_decide_eq_true.
  destruct (crb_ExpiresAt b) as [t|]; [rewrite Z.ltb_lt|]; naive_solver.
Qed.

Lemma matching_rows now cid subject groups s l :
  query_result (Where (BindingRepository.matching now cid subject groups)) (rows (a_bindings s)) l ->
  forall b, b ∈ l <-> b ∈ rows (a_bindings s) /\ covers now cid subject groups b.
Proof.
  intros [Hp _]%query_result_nolimit b; [|done|done]. rewrite Hp, elem_of_selected. simpl.
  rewrite matching_covers. tauto.
Qed.

(** ** Both permission checks *)

Lemma wp_HasPermission componentID subject groups p s (Q : Result bool -> Admin -> Prop) :
  (forall r s', asame s s' ->
     (r = Ok true -> holds s componentID subject groups p) ->
     (authz_ready s -> exists b, r = Ok b /\ (holds s componentID subject groups p -> b = true)) ->
     Q r s') ->
  wp (HasPermission bindingSvc componentID subject groups p) Q s.
Proof.
  intros HQ. unfold HasPermission, ResolveComponentActions. apply wp_try, wp_try.
  apply (wp_read_on a_bindings); [apply read_Find|]. apply wp_Find.
  2:{ intros e t' _ Hh s' Hs. apply HQ; [done|done|]. intros HR. destruct Hh. apply HR. }
  intros bs t' _ Hbs s1 H1. pose proof (matching_rows _ _ _ _ _ _ Hbs) as Hm.
  apply wp_bind, wp_bindings_actions. intros acts s2 H2 A1 _ A2.
  apply wp_bind, wp_owner_actions. intros r s3 H3 B1 B2. do 2 apply wp_ret.
  assert (H12 : asame s s2) by (by etransitivity). apply HQ; [by etransitivity| |].
  - intros [= Hp]. rewrite existsb_eqb in Hp.
    assert (Hp' : p ∈ acts \/ exists own, r = Ok own /\ p ∈ own).
    { destruct r as [own|e]; [|by left]. rewrite elem_of_add_actions in Hp. naive_solver. }
    destruct Hp' as [Hp'|(own & -> & Hown)].
    + left. apply A1 in Hp' as [Hn|(b & [Hb Hb']%Hm & Hc)]; [by apply not_elem_of_nil in Hn|].
      exists b. split; [done|]. split; [done|]. by rewrite <- (contributes_asame _ _ _ _ H1).
    + right. destruct (B1 _ _ eq_refl Hown) as [Ho Ha].
      by rewrite <- (owns_asame _ _ _ _ _ H12), <- (admin_action_asame _ _ _ H12).
  - intros HR. eexists. split; [done|]. rewrite existsb_eqb. intros [(b & Hb & Hb' & Hc)|[Ho Ha]].
    + assert (Hp : p ∈ acts).
      { eapply A2; [by eapply ready_asame|by apply Hm|]. by rewrite (contributes_asame _ _ _ _ H1). }
      destruct r; [apply elem_of_add_actions; by left|done].
    + destruct (B2 (ready_asame _ _ H12 HR) p) as (own & -> & Hp);
        [by rewrite (owns_asame _ _ _ _ _ H12)|by rewrite (admin_action_asame _ _ _ H12)|].
      apply elem_of_add_actions. by right.
Qed.

Lemma wp_platform_role_by_id id s (Q : Result PlatformRole -> Admin -> Prop) :
  (forall pr s', asame s s' -> pr ∈ rows (a_platform_roles s) -> pr_ID pr = id -> Q (Ok pr) s') ->
  (forall e s', asame s s' ->
     (authz_ready s -> forall pr, pr ∈ rows (a_platform_roles s) -> pr_ID pr <> id) -> Q (Err e) s') ->
  wp (zoom a_platform_roles (PlatformRoleRepository.GetByID id)) Q s.
Proof.
  intros HO HE. apply (wp_read_zoom a_platform_roles); [apply read_First|]. apply wp_First.
  - intros pr t' _ _ Hw Hin s' Hs. apply HO; [done|done|]. simpl in Hw. by apply Z.eqb_eq.
  - intros e t' _ Hh Hnone _ s' Hs. apply HE; [done|]. intros HR pr Hin Hid.
    assert (Hpr : pr ∈ selected (fun r => pr_ID r =? id) (rows (a_platform_roles s))).
    { apply elem_of_selected. simpl. by rewrite Hid, Z.eqb_refl. }
    pose proof (Hnone (Hh (ready_platform_roles _ HR))) as E. simpl in E. rewrite E in Hpr.
    by apply not_elem_of_nil in Hpr.
Qed.

Lemma wp_platform_grants p bs s (Q : bool -> Admin -> Prop) :
  (forall b s', asame s s' ->
     (b = true -> exists x, x ∈ bs /\ platform_role_action s (prb_PlatformRoleID x) p) ->
     (authz_ready s -> forall x, x ∈ bs -> platform_role_action s (prb_PlatformRoleID x) p -> b = true) ->
     Q b s') ->
  wp (platform_grants bindingSvc p bs) Q s.
Proof.
  revert s. induction bs as [|x bs IH]; intros s HQ; simpl.
  { apply wp_ret. apply HQ; [reflexivity|done|set_solver]. }
  assert (Hrest : forall s', asame s s' ->
    (authz_ready s -> ~ platform_role_action s (prb_PlatformRoleID x) p) ->
    wp (platform_grants bindingSvc p bs) Q s').
  { intros s' Hs Hx. apply IH. intros b s2 H2 A1 A2. apply HQ; [by etransitivity| |].
    - intros (y & Hy & Hp)%A1. exists y. rewrite <- (platform_role_asame _ _ _ _ Hs). set_solver.
    - intros HR y [->|Hy]%elem_of_cons Hp; [by destruct (Hx HR)|].
      eapply A2; [by eapply ready_asame|done|]. by rewrite (platform_role_asame _ _ _ _ Hs). }
  apply wp_bind, wp_platform_role_by_id.
  2:{ intros e s1 H1 Hn. apply Hrest; [done|]. intros HR (pr & Hpr & Hid & _). by destruct (Hn HR pr Hpr). }
  intros pr s1 H1 Hpr Hid. destruct (existsb _ _) eqn:Ea; [rewrite existsb_eqb in Ea|].
  { apply wp_ret. apply HQ; [done| |done]. intros _. exists x. split; [left|]. exists pr. auto. }
  apply wp_bind, wp_mapped. intros acts s2 H2 M1 M2.
  assert (H12 : asame s s2) by (by etransitivity).
  destruct (existsb _ acts) eqn:Eb; [rewrite existsb_eqb in Eb|].
  { apply wp_ret. apply HQ; [done| |done]. intros _. exists x. split; [left|]. exists pr.
    repeat split; [done..|]. right. rewrite <- (registered_asame _ _ _ _ _ H1). auto. }
  apply Hrest; [done|]. intros HR (pr' & Hpr' & Hid' & Hp).
  assert (pr' = pr) as -> by (eapply (key_unique pr_ID); [apply HR|..]; congruence || done).
  destruct Hp as [Hp|Hp]; [apply existsb_eqb in Hp; congruence|].
  assert (p ∈ acts) as Hin%existsb_eqb; [|congruence].
  apply M2; [by eapply ready_asame|]. by rewrite (registered_asame _ _ _ _ _ H1).
Qed.

Lemma wp_HasPlatformPermission orgID subject groups p s (Q : Result bool -> Admin -> Prop) :
  (forall r s', asame s s' ->
     (r = Ok true -> platform_holds s orgID subject groups p) ->
     (authz_ready s -> exists b, r = Ok b /\ (platform_holds s orgID subject groups p -> b = true)) ->
     Q r s') ->
  wp (HasPlatformPermission bindingSvc orgID subject groups p) Q s.
Proof.
  intros HQ. unfold HasPlatformPermission. apply wp_try.
  apply (wp_read_on a_platform_bindings); [apply read_Find|]. apply wp_Find.
  2:{ intros e t' _ Hh s' Hs. apply HQ; [done|done|]. intros HR. destruct Hh. apply HR. }
  intros bs t' _ [Hp _]%query_result_nolimit s1 H1; [|done|done].
  assert (Hm : forall b, b ∈ bs <-> b ∈ rows (a_platform_bindings s) /\
    PlatformRoleBindingRepository.matching (a_now s) orgID subject groups b = true).
  { intros b. rewrite Hp, elem_of_selected. simpl. tauto. }
  apply wp_bind, wp_platform_grants. intros b s2 H2 A1 A2. apply wp_ret.
  apply HQ; [by etransitivity| |].
  - intros [= ->]. destruct (A1 eq_refl) as (x & [Hx Hx']%Hm & Hr). exists x. repeat split; [done..|].
    by rewrite <- (platform_role_asame _ _ _ _ H1).
  - intros HR. exists b. split; [done|]. intros (x & Hx & Hx' & Hr).
    eapply A2; [by eapply ready_asame|by apply Hm|]. by rewrite (platform_role_asame _ _ _ _ H1).
Qed.
End Grants.

(** * The guards of a component-scoped route

    As one verdict: either the request goes on, or it is answered with an
    error, and nothing is written. *)

Section Access.
Context {G : Gorm} {GL : GormLaws G} {P : Platform} {O : ObjectStore}.

(** A middleware that consults the state and then goes on or refuses: [None]
    lets the request pass. *)
Definition gate (v : Request -> Context_ -> M Admin (option Response)) : HandlerFunc (S := Admin) :=
  fun next rq c =>
    let* refused := v rq c in
    match refused with None => next rq c | Some r => ret (r, c) end.

Definition refuse (code : Z) (e : GoError) : M Admin (option Response) := ret (Some (Fail code e)).

Definition located (res : Resource) (rq : Request) (param : string)
    (k : UUID -> M Admin (option Response)) : M Admin (option Response) :=
  match resourceID rq param with
  | Err e => refuse StatusBadRequest e
  | Ok id =>
      let* r := locateComponent (Some permLocator) res id in
      match r with Err e => refuse (locateStatus e) e | Ok cid => k cid end
  end.

Definition answered (denial : GoError) (allowed : Result bool) : M Admin (option Response) :=
  match allowed with
  | Err e => refuse StatusInternalServerError e
  | Ok false => refuse StatusForbidden denial
  | Ok true => ret None
  end.

Definition ownership_verdict (res : Resource) (param : string) (rq : Request) (c : Context_)
  : M Admin (option Response) :=
  located res rq param (fun cid =>
    let* orgIDs := resolveOrgIDs orgRepo (CurrentOrgs c) in
    match orgIDs with
    | Err e => refuse StatusInternalServerError e
    | Ok orgIDs =>
        let* allowed := ResourceOwnershipService.AllowsComponent cid orgIDs in
        answered errOutOfOrg allowed
    end).

Definition permission_verdict (res : Resource) (param perm : string) (rq : Request) (c : Context_)
  : M Admin (option Response) :=
  match CurrentSubject c with
  | None => refuse StatusUnauthorized errNoSubject
  | Some subject =>
      located res rq param (fun cid =>
        let* allowed := HasPermission bindingSvc cid subject (CurrentGroups c) perm in
        answered errForbidden allowed)
  end.

Lemma ownership_gate res param perm h rq c s :
  RequireResourceOwnership ResourceOwnershipService.AllowsComponent orgRepo (Some permLocator)
    (mkRequirement res param perm) h rq c s = gate (ownership_verdict res param) h rq c s.
Proof.
  unfold RequireResourceOwnership, gate, ownership_verdict, located, answered, refuse,
    decide_access, abort, bind, ret.
  cbn [rr_Param rr_Resource rr_Permission].
  repeat case_match; simplify_eq; done.
Qed.

Lemma permission_gate res param perm h rq c s :
  RequirePermission (HasPermission bindingSvc) (Some permLocator) (mkRequirement res param perm) h rq c s
  = gate (permission_verdict res param perm) h rq c s.
Proof.
  unfold RequirePermission, gate, permission_verdict, located, answered, refuse,
    decide_access, abort, bind, ret.
  cbn [rr_Param rr_Resource rr_Permission].
  repeat case_match; simplify_eq; done.
Qed.

(** ** What the verdicts look at *)

(** The component behind the id a route carries. *)
Definition owner_of (s : Admin) (res : Resource) (id cid : UUID) : Prop :=
  match res with
  | ResourceComponent => cid = id
  | ResourcePipeline => exists p, p ∈ rows (a_pipelines s) /\ pl_ID p = id /\
      pl_DeletedAt p = None /\ pl_ComponentID p = cid
  | ResourceRun => exists r p, r ∈ rows (a_runs s) /\ run_ID r = id /\
      p ∈ rows (a_pipelines s) /\ pl_ID p = run_PipelineID r /\
      pl_DeletedAt p = None /\ pl_ComponentID p = cid
  end.

(** No organization registered, or one of the subject's is among the owners. *)
Definition org_admits (s : Admin) (cid : UUID) (orgs : list string) : Prop :=
  (forall o, o ∈ rows (a_ownership s) -> ro_ResourceType o = ResourceTypeComponent ->
             ro_ResourceID o <> cid) \/
  exists o org, o ∈ rows (a_ownership s) /\ ro_ResourceType o = ResourceTypeComponent /\
    ro_ResourceID o = cid /\ org ∈ rows (a_orgs s) /\ org_DeletedAt org = None /\
    org_Slug org ∈ orgs /\ PermStore.IsAllowed (C := @Codec_list _ Codec_UUID) o (org_ID org) = true.

Lemma owner_unique s res id cid cid' :
  NoDup (pl_ID <$> rows (a_pipelines s)) -> NoDup (run_ID <$> rows (a_runs s)) ->
  owner_of s res id cid -> owner_of s res id cid' -> cid = cid'.
Proof.
  intros Hpl Hrun. destruct res; simpl; [congruence|..].
  - intros (p & Hp & Hid & _ & <-) (p' & Hp' & Hid' & _ & <-). f_equal.
    eapply (key_unique pl_ID); [exact Hpl|done..|congruence].
  - intros (r & p & Hr & Hid & Hp & Hpid & _ & <-) (r' & p' & Hr' & Hid' & Hp' & Hpid' & _ & <-).
    assert (r' = r) as -> by (eapply (key_unique run_ID); [exact Hrun|done..|congruence]).
    f_equal. eapply (key_unique pl_ID); [exact Hpl|done..|congruence].
Qed.

Lemma owner_of_asame s s' res id cid : asame s s' -> owner_of s' res id cid <-> owner_of s res id cid.
Proof.
  intros HS. unfold owner_of. destruct HS.
  repeat match goal with H : tsame _ _ |- _ => destruct H as [? _] end.
  destruct res; repeat match goal with H : rows ?t = _ |- context [rows ?t] => rewrite H end; done.
Qed.

Lemma org_admits_asame s s' cid orgs : asame s s' -> org_admits s' cid orgs <-> org_admits s cid orgs.
Proof.
  intros HS. unfold org_admits. destruct HS.
  repeat match goal with H : tsame _ _ |- _ => destruct H as [? _] end.
  repeat match goal with H : rows ?t = _ |- context [rows ?t] => rewrite H end. done.
Qed.

Lemma holds_asame s s' cid u g p : asame s s' -> holds s' cid u g p <-> holds s cid u g p.
Proof.
  intros HS. unfold holds, bound. setoid_rewrite (contributes_asame _ _ _ _ HS).
  rewrite (owns_asame _ _ _ _ _ HS), (admin_action_asame _ _ _ HS).
  destruct HS as [Hn]. destruct asame_bindings as [Hb _]. by rewrite Hb, Hn.
Qed.

Lemma Fail_code status e : rs_Code (Fail status e) = status.
Proof. by destruct e. Qed.

Lemma wp_located res rq param k s (Q : option Response -> Admin -> Prop) :
  (forall r s', asame s s' -> 400 <= rs_Code r -> Q (Some r) s') ->
  (forall id cid s', asame s s' -> resourceID rq param = Ok id -> owner_of s res id cid -> wp (k cid) Q s') ->
  wp (located res rq param k) Q s.
Proof.
  intros HE HO. unfold located. destruct (resourceID rq param) as [id|e] eqn:Eid.
  2:{ apply wp_ret, HE; [reflexivity|by rewrite Fail_code]. }
  assert (Hl : forall e, 400 <= rs_Code (Fail (locateStatus e) e)).
  { intros e. rewrite Fail_code. unfold locateStatus. by case_match. }
  apply wp_bind. destruct res; simpl.
  - apply wp_ret. by apply (HO id); [reflexivity|..].
  - apply wp_bind, (wp_read_zoom a_pipelines); [apply read_First|]. apply wp_First.
    + intros p t' _ Ha Hw Hp s1 H1. simpl in Ha, Hw. apply Z.eqb_eq in Hw. apply wp_ret.
      apply (HO id); [done|done|]. exists p. repeat split; [done|done|by destruct (pl_DeletedAt p)].
    + intros e t' _ _ _ _ s1 H1. apply wp_ret. apply wp_ret, HE; [done|apply Hl].
  - apply wp_bind, (wp_read_zoom a_runs); [apply read_First|]. apply wp_First.
    2:{ intros e t' _ _ _ _ s1 H1. apply wp_ret. apply wp_ret, HE; [done|apply Hl]. }
    intros r t' _ _ Hw Hr s1 H1. simpl in Hw. apply Z.eqb_eq in Hw.
    apply wp_bind, (wp_read_zoom a_pipelines); [apply read_First|]. apply wp_First.
    + intros p t2 _ Ha Hw' Hp s2 H2. simpl in Ha, Hw'. apply Z.eqb_eq in Hw'. apply wp_ret.
      apply (HO id); [by etransitivity|done|]. exists r, p.
      destruct H1. destruct asame_pipelines as [Ep _]. rewrite Ep in Hp.
      repeat split; [done|done|done|done|by destruct (pl_DeletedAt p)].
    + intros e t2 _ _ _ _ s2 H2. apply wp_ret. apply wp_ret, HE; [by etransitivity|apply Hl].
Qed.

Lemma foldl_slugs (l : list Org) (m : gmap string UUID) k v :
  foldl (fun out o => <[org_Slug o := org_ID o]> out) m l !! k = Some v ->
  m !! k = Some v \/ exists o, o ∈ l /\ org_Slug o = k /\ org_ID o = v.
Proof.
  revert m. induction l as [|o l IH]; intros m; simpl; [by left|].
  intros [Hm|(o' & ? & ?)]%IH; [|right; exists o'; set_solver].
  apply lookup_insert_Some in Hm as [[<- <-]|[_ Hm]]; [right; exists o; set_solver|by left].
Qed.

(** The ids the organization check works with. *)
Lemma wp_orgIDs aliases s (Q : Result (list UUID) -> Admin -> Prop) :
  (forall e s', asame s s' -> Q (Err e) s') ->
  (forall ids s', asame s s' ->
     (forall i, i ∈ ids -> exists o, o ∈ rows (a_orgs s) /\ org_DeletedAt o = None /\
                            org_Slug o ∈ aliases /\ org_ID o = i) -> Q (Ok ids) s') ->
  wp (resolveOrgIDs orgRepo aliases) Q s.
Proof.
  intros HE HO. unfold resolveOrgIDs, orgRepo. destruct aliases as [|a l] eqn:Eal.
  { apply wp_ret, HO; [reflexivity|set_solver]. }
  rewrite <- Eal in *. apply wp_try.
  assert (Eids : OrgRepository.IDsBySlugs aliases = try* orgs :=
            OrgStore.Repository_ListWhere (fun o => bool_decide (org_Slug o ∈ aliases)) in
          ret (Ok (foldl (fun out o => <[org_Slug o := org_ID o]> out) ∅ orgs))) by by subst.
  rewrite Eids. apply (wp_read_zoom a_orgs).
  { apply read_try; [apply read_Find|intros; apply read_ret]. }
  apply wp_try, wp_Find.
  - intros orgs t' _ Hq. apply wp_ret. intros s1 H1. apply wp_ret, HO; [done|].
    intros i (al & Hal & Hi)%list_elem_of_omap.
    apply foldl_slugs in Hi as [Hi|(o & Ho & Hs & <-)]; [by rewrite lookup_empty in Hi|].
    apply (query_result_elem _ _ _ _ Hq) in Ho as (Ha & Hw & Ho). simpl in Ha, Hw.
    exists o. apply bool_decide_eq_true in Hw. repeat split; [done|by destruct (org_DeletedAt o)|done].
  - intros e t' _ _ s1 H1. by apply HE.
Qed.

Lemma wp_AllowsComponent cid ids s (Q : Result bool -> Admin -> Prop) :
  (forall r s', asame s s' ->
     (r = Ok true ->
        (forall o, o ∈ rows (a_ownership s) -> ro_ResourceType o = ResourceTypeComponent ->
                   ro_ResourceID o <> cid) \/
        exists o i, o ∈ rows (a_ownership s) /\ ro_ResourceType o = ResourceTypeComponent /\
          ro_ResourceID o = cid /\ i ∈ ids /\
          PermStore.IsAllowed (C := @Codec_list _ Codec_UUID) o i = true) -> Q r s') ->
  wp (ResourceOwnershipService.AllowsComponent cid ids) Q s.
Proof.
  intros HQ. unfold ResourceOwnershipService.AllowsComponent.
  apply wp_bind, (wp_read_zoom a_ownership); [apply read_First|]. apply wp_First.
  - intros o t' _ _ Hw Ho s1 H1. apply wp_ret, HQ; [done|]. intros [= Hex]. right.
    apply existsb_exists in Hex as (i & Hi & Hal). rewrite <- list_elem_of_In in Hi.
    simpl in Hw. apply andb_true_iff in Hw as [Hty%String.eqb_eq Hid%Z.eqb_eq].
    exists o, i. done.
  - intros e t' _ _ Hsel Hnf s1 H1. apply wp_ret, HQ; [done|].
    destruct (errors_Is e ErrRecordNotFound) eqn:En; [|done]. intros _. left.
    intros o Ho Hty Hid. specialize (Hsel (Hnf eq_refl)).
    apply (not_elem_of_nil o). rewrite <- Hsel. apply elem_of_selected. cbn.
    unfold ResourceOwnershipRepository.owns. rewrite Hty, Hid, String.eqb_refl, Z.eqb_refl. done.
Qed.

(** What passing each check means; a refusal is an error answer, and neither
    writes. *)
Lemma wp_ownership_verdict res param rq c s (Q : option Response -> Admin -> Prop) :
  (forall r s', asame s s' -> 400 <= rs_Code r -> Q (Some r) s') ->
  (forall id cid s', asame s s' -> resourceID rq param = Ok id -> owner_of s res id cid ->
     org_admits s cid (CurrentOrgs c) -> Q None s') ->
  wp (ownership_verdict res param rq c) Q s.
Proof.
  intros HE HO. apply wp_located; [done|]. intros id cid s1 H1 Hid Hown.
  apply wp_bind, wp_orgIDs.
  { intros e s2 H2. apply wp_ret, HE; [by etransitivity|by rewrite Fail_code]. }
  intros ids s2 H2 Hids. apply wp_bind, wp_AllowsComponent. intros r s3 H3 Hr.
  assert (H02 : asame s s2) by by etransitivity. assert (H03 : asame s s3) by by etransitivity.
  destruct r as [[]|e]; simpl; apply wp_ret.
  2,3: by apply HE; [done|rewrite Fail_code].
  apply (HO id cid); [done..|]. apply (org_admits_asame s s1); [done|].
  rewrite <- (org_admits_asame s1 s2) by done.
  destruct (Hr eq_refl) as [Hn|(o & i & Ho & Hty & Hcid & Hi & Hal)]; [by left|right].
  apply Hids in Hi as (org & Horg & Hd & Hslug & <-). exists o, org.
  destruct H2. destruct asame_orgs as [Eo _]. rewrite Eo. done.
Qed.

Lemma wp_permission_verdict res param perm rq c s (Q : option Response -> Admin -> Prop) :
  (forall r s', asame s s' -> 400 <= rs_Code r -> Q (Some r) s') ->
  (forall u id cid s', asame s s' -> CurrentSubject c = Some u -> resourceID rq param = Ok id ->
     owner_of s res id cid -> holds s cid u (CurrentGroups c) perm -> Q None s') ->
  wp (permission_verdict res param perm rq c) Q s.
Proof.
  intros HE HO. unfold permission_verdict. destruct (CurrentSubject c) as [u|] eqn:Eu.
  2:{ apply wp_ret, HE; [reflexivity|by rewrite Fail_code]. }
  apply wp_located; [done|]. intros id cid s1 H1 Hid Hown.
  apply wp_bind, wp_HasPermission. intros r s2 H2 Hr _.
  assert (H02 : asame s s2) by by etransitivity.
  destruct r as [[]|e]; simpl; apply wp_ret.
  2,3: by apply HE; [done|rewrite Fail_code].
  apply (HO u id cid); [done..|]. rewrite <- (holds_asame s s1) by done. auto.
Qed.

(** Both guards of a route. *)
Lemma wp_wrap cfg a res param perm h rq c s (Q : Response * Context_ -> Admin -> Prop) :
  auth cfg = Some a ->
  (forall r s', asame s s' -> 400 <= rs_Code r -> Q (r, c) s') ->
  (forall id u cid cid' s', asame s s' -> resourceID rq param = Ok id -> CurrentSubject c = Some u ->
     owner_of s res id cid -> org_admits s cid (CurrentOrgs c) ->
     owner_of s res id cid' -> holds s cid' u (CurrentGroups c) perm -> wp (h rq c) Q s') ->
  wp (wrap cfg res param perm h rq c) Q s.
Proof.
  intros Ha HE HO. unfold wrap. rewrite Ha. unfold wp. rewrite ownership_gate. fold (wp (gate
    (ownership_verdict res param) (RequirePermission (HasPermission bindingSvc) (Some permLocator)
      (mkRequirement res param perm) h) rq c) Q s).
  unfold gate at 1. apply wp_bind, wp_ownership_verdict; [intros; by apply wp_ret, HE|].
  intros id cid s1 H1 Hid Hown Horg. unfold wp. rewrite permission_gate.
  fold (wp (gate (permission_verdict res param perm) h rq c) Q s1).
  unfold gate. apply wp_bind, wp_permission_verdict.
  { intros r s2 H2 Hr. apply wp_ret, HE; [by etransitivity|done]. }
  intros u id' cid' s2 H2 Hu Hid' Hown' Hh. rewrite Hid in Hid'. injection Hid' as <-.
  apply (HO id u cid cid'); [by etransitivity|done..| |].
  - by rewrite <- (owner_of_asame s s1).
  - by rewrite <- (holds_asame s s1).
Qed.
End Access.
