(* ===== verification/AuthzProperties.v ===== *)
(** What the authentication and authorization pipeline guarantees: who passes
    the guards of a route, what a rejected request leaves behind, and the life
    of a personal access token. *)
From stdpp Require Import base list strings gmap sorting.
From Stdlib Require Import ZArith Lia Ascii.
From S2P Require Import Prelude Common Gorm Json GoLib RunnerProto RunStore PipelineStore TargetStore.
From S2P Require Import EditStore OrgStore PermStore RateLimit World Admin Permissions.
From S2P Require Import Middleware WorldLogic Frames AdminLogic PermTheory.
From S2P Require Import Instances.

Open Scope Z_scope.

Section Authorization.
Context {G : Gorm} {GL : GormLaws G} {P : Platform} {O : ObjectStore}.

(** C4: [HasPermission] decides exactly who holds an action on a component:
    a live role binding of the subject or of one of their groups whose role
    grants it, or ownership of the component.  It writes nothing, it never
    grants too much even when statements fail, and when they all succeed it
    answers and grants every action that is held. *)
Theorem HasPermission_exact componentID subject groups p s :
  let '(r, s') := HasPermission bindingSvc componentID subject groups p s in
  asame s s' /\
  (r = Ok true -> holds s componentID subject groups p) /\
  (authz_ready s -> exists b, r = Ok b /\ (b = true <-> holds s componentID subject groups p)).
Proof.
  destruct (HasPermission _ _ _ _ _ _) as [r s'] eqn:E. revert r s' E. apply wp_run.
  apply wp_HasPermission. intros r s' Hs Hr Hb. split; [done|split; [done|]].
  intros HR. destruct (Hb HR) as (b & -> & Hh). exists b. split; [done|]. split; [|done].
  intros ->. auto.
Qed.

(** C3: A component-scoped route runs its handler only for an authenticated
    subject that holds the route's permission on the component behind the id in
    the path, and whose organizations the component admits; the handler then
    runs on untouched data.  Every other request is answered with an error
    that does not depend on the handler, and nothing is written. *)
Theorem guarded_route cfg a res param perm rq c s :
  auth cfg = Some a ->
  NoDup (pl_ID <$> rows (a_pipelines s)) -> NoDup (run_ID <$> rows (a_runs s)) ->
  (exists r s', 400 <= rs_Code r /\ asame s s' /\
     forall h, wrap cfg res param perm h rq c s = ((r, c), s')) \/
  (exists id cid u s', asame s s' /\
     resourceID rq param = Ok id /\ owner_of s res id cid /\ CurrentSubject c = Some u /\
     org_admits s cid (CurrentOrgs c) /\ holds s cid u (CurrentGroups c) perm /\
     forall h, wrap cfg res param perm h rq c s = h rq c s').
Proof.
  intros Ha Hpl Hrun.
  pose proof (wp_ownership_verdict res param rq c s (fun v s1 => asame s s1 /\
    match v with Some r => 400 <= rs_Code r
    | None => exists id cid, resourceID rq param = Ok id /\ owner_of s res id cid /\
                             org_admits s cid (CurrentOrgs c) end)) as Hown.
  destruct (ownership_verdict res param rq c s) as [v s1] eqn:E1. unfold wp in Hown.
  rewrite E1 in Hown. simpl in Hown. destruct Hown as [H1 Hv]; [by intros|by naive_solver|].
  assert (Hw : forall h, wrap cfg res param perm h rq c s = match v with
    | None => gate (permission_verdict res param perm) h rq c s1 | Some r => ((r, c), s1) end).
  { intros h. unfold wrap. rewrite Ha, ownership_gate. unfold gate at 1, bind. rewrite E1.
    destruct v; [done|]. apply permission_gate. }
  destruct v as [r|]; [left; by exists r, s1|].
  pose proof (wp_permission_verdict res param perm rq c s1 (fun v s2 => asame s1 s2 /\
    match v with Some r => 400 <= rs_Code r
    | None => exists u id cid, CurrentSubject c = Some u /\ resourceID rq param = Ok id /\
        owner_of s1 res id cid /\ holds s1 cid u (CurrentGroups c) perm end)) as Hperm.
  destruct (permission_verdict res param perm rq c s1) as [v s2] eqn:E2. unfold wp in Hperm.
  rewrite E2 in Hperm. simpl in Hperm. destruct Hperm as [H2 Hv2]; [by intros|by naive_solver|].
  assert (Hw' : forall h, wrap cfg res param perm h rq c s = match v with
    | None => h rq c s2 | Some r => ((r, c), s2) end).
  { intros h. rewrite Hw. unfold gate, bind. rewrite E2. by destruct v. }
  assert (H02 : asame s s2) by by etransitivity.
  destruct v as [r|]; [left; by exists r, s2|right].
  destruct Hv as (id & cid & Hid & Ho & Horg), Hv2 as (u & id' & cid' & Hu & Hid' & Ho' & Hh).
  rewrite Hid in Hid'. injection Hid' as <-. rewrite (owner_of_asame s s1) in Ho' by done.
  rewrite (holds_asame s s1) in Hh by done.
  rewrite (owner_unique s res id cid' cid) in Hh by done.
  exists id, cid, u, s2. done.
Qed.

(** ** Authentication *)

(** What the collaborators of the authenticator are: sessions and tokens of the
    identity provider are looked up without touching the database, and personal
    access tokens are [verifyPAT]'s. *)
Record hub_authenticator (a : Authenticator (S := Admin)) : Prop := mkHubAuthenticator {
  ha_verifier : forall tok, Reads (verifier a tok);
  ha_pat : patVerifier a = Some verifyPAT;
  ha_session : forall verify rq, sessionVerifier a = Some verify -> Reads (verify rq);
}.

(** The identity a request is let in with. *)
Definition issued_for_hub (a : Authenticator (S := Admin)) (claims : keycloakClaims) : Prop :=
  kc_AuthorizedParty claims = clientID a.

Lemma wp_verifyPAT tok s (Q : Result string -> Admin -> Prop) :
  (forall e s', asame s s' -> Q (Err e) s') ->
  (forall row t, row ∈ rows (a_tokens s) -> pat_TokenHash row = PATService.token_hash tok ->
     pat_RevokedAt row = None ->
     match pat_ExpiresAt row with Some x => a_now s <= x | None => True end ->
     Q (Ok (pat_Subject row)) (set_field a_tokens (fun _ => t) s)) ->
  wp (verifyPAT tok) Q s.
Proof.
  intros HE HO. unfold verifyPAT, PATService.Verify. apply wp_try, wp_bind, (wp_zoom a_tokens).
  apply wp_First.
  2:{ intros e t' Ht _ _ _. apply wp_ret, HE. by apply afield_same. }
  intros row t' Ht _ Hw Hin. simpl in Hw. apply String.eqb_eq in Hw.
  assert (Hs : asame s (set_field a_tokens (fun _ => t') s)) by by apply afield_same.
  destruct (pat_RevokedAt row) eqn:Er; [apply wp_ret, HE; done|].
  apply wp_bind. unfold wp at 1; simpl. destruct (match pat_ExpiresAt row with Some _ => _ | None => _ end) eqn:Ex.
  { apply wp_ret, HE. done. }
  apply wp_bind, wp_on, wp_run. intros _ t2 _. apply wp_ret, wp_ret.
  apply (HO row t2); [done..|]. destruct (pat_ExpiresAt row); [by apply Z.ltb_ge|done].
Qed.

Lemma Authenticate_verdict a rq c s :
  hub_authenticator a ->
  (exists e s1, asame s s1 /\ forall h, Authenticate a h rq c s = (Fail StatusUnauthorized e, c, s1)) \/
  (exists claims s1, issued_for_hub a claims /\
     forall h, Authenticate a h rq c s = h rq (c <| c_claims := Some claims |>) s1).
Proof.
  intros [Hv Hp Hs]. unfold Authenticate.
  assert (Hb : forall s0, asame s s0 ->
    (exists e s1, asame s s1 /\ forall h, bearer a h rq c s0 = (Fail StatusUnauthorized e, c, s1)) \/
    (exists claims s1, issued_for_hub a claims /\
       forall h, bearer a h rq c s0 = h rq (c <| c_claims := Some claims |>) s1)).
  { intros s0 H0. unfold bearer. destruct (BearerToken _) as [[|ch tok]|];
      [left; exists errMissingBearer, s0; done| |left; exists errMissingBearer, s0; done].
    rewrite Hp. destruct (HasPrefix _ _).
    - pose proof (wp_verifyPAT (String ch tok) s0 (fun r s1 => match r with Err _ => asame s0 s1 | Ok _ => True end)) as Hw.
      unfold wp in Hw. unfold bind. destruct (verifyPAT (String ch tok) s0) as [[sub|e] s1]; simpl in Hw.
      + right. by exists (mkClaims sub "" [] [] (clientID a)), s1.
      + left. exists e, s1. split; [|done]. etransitivity; [done|]. by apply Hw.
    - specialize (Hv (String ch tok) s0). unfold bind. destruct (verifier a (String ch tok) s0) as [[cl|e] s1]; simpl in Hv.
      + destruct (String.eqb_spec (kc_AuthorizedParty cl) (clientID a)); simpl;
          [right; by exists cl, s1|left; exists errWrongClient, s1]. split; [by etransitivity|done].
      + left. exists e, s1. split; [by etransitivity|done]. }
  destruct (sessionVerifier a) as [verify|] eqn:Ev; [|by apply Hb].
  specialize (Hs verify rq eq_refl s). unfold bind. destruct (verify rq s) as [[id|e] s1]; simpl in Hs.
  - right. eexists _, s1. split; [|done]. done.
  - by apply Hb.
Qed.

(** Authentication comes before everything else.  A request is either
    rejected with 401, the same whatever the handler, the rate limiter and the
    CORS list are, leaving every table and every rate-limit bucket alone, so
    that failed log-ins are neither audited nor throttled; or it goes on with
    claims that were issued for this client. *)
Theorem rejected_before_limiter a rq c s :
  hub_authenticator a ->
  (exists e s1, asame s s1 /\ forall cfg h, auth cfg = Some a ->
     api cfg h rq c s = ((add_headers security_headers (Fail StatusUnauthorized e), c), s1)) \/
  (exists claims s1, issued_for_hub a claims /\ forall cfg h, auth cfg = Some a ->
     api cfg h rq c s =
       SecurityHeaders (authenticated cfg h) rq (c <| c_claims := Some claims |>) s1).
Proof.
  intros Ha. destruct (Authenticate_verdict a rq c s Ha) as [(e & s1 & Hs & H)|(cl & s1 & Hi & H)].
  - left. exists e, s1. split; [done|]. intros cfg h Hc. unfold api. rewrite Hc.
    unfold SecurityHeaders, bind. by rewrite H.
  - right. exists cl, s1. split; [done|]. intros cfg h Hc. unfold api. rewrite Hc.
    unfold SecurityHeaders, bind. by rewrite H.
Qed.

(** ** Personal access tokens *)

Definition unexpired (row : PersonalAccessToken) (now : Time) : Prop :=
  match pat_ExpiresAt row with Some x => now <= x | None => True end.

(** A token that is in the table under a hash of its own. *)
Definition stored (s : Admin) (tok : string) (row : PersonalAccessToken) : Prop :=
  row ∈ rows (a_tokens s) /\ pat_TokenHash row = PATService.token_hash tok /\
  forall x, x ∈ rows (a_tokens s) -> pat_TokenHash x = PATService.token_hash tok -> x = row.

Lemma wp_verify_live tok row s (Q : Result string -> Admin -> Prop) :
  stored s tok row -> healthy (a_tokens s) -> pat_RevokedAt row = None -> unexpired row (a_now s) ->
  (forall s', Q (Ok (pat_Subject row)) s') -> wp (verifyPAT tok) Q s.
Proof.
  intros (Hin & Hh & Hu) Hok Hr Hx HQ. unfold verifyPAT, PATService.Verify.
  apply wp_try, wp_bind, (wp_zoom a_tokens). eapply (wp_First_only _ _ row); [done..| | |].
  - simpl. rewrite Hh. apply String.eqb_refl.
  - intros y Hy _ Hw%String.eqb_eq. by apply Hu.
  - intros t' Ht. rewrite Hr. apply wp_bind. unfold wp at 1; simpl.
    assert (match pat_ExpiresAt row with Some t => t <? a_now s | None => false end = false) as ->.
    { unfold unexpired in Hx. destruct (pat_ExpiresAt row); [by apply Z.ltb_ge|done]. }
    apply wp_bind, wp_on, wp_run. intros _ t2 _. apply wp_ret, wp_ret, HQ.
Qed.

(** No usable row under this hash: the token is refused. *)
Lemma verify_refused tok s :
  (forall x, x ∈ rows (a_tokens s) -> pat_TokenHash x = PATService.token_hash tok ->
     pat_RevokedAt x = None -> ~ unexpired x (a_now s)) ->
  exists e s', verifyPAT tok s = (Err e, s').
Proof.
  intros Hu. pose proof (wp_verifyPAT tok s (fun r _ => exists e, r = Err e)) as Hv. unfold wp in Hv.
  destruct (verifyPAT tok s) as [r s']. simpl in Hv.
  assert (exists e, r = Err e) as [e ->]; [|by exists e, s'].
  apply Hv; [by eauto|]. intros x t Hin Hh Hr Hx. destruct (Hu x Hin Hh Hr Hx).
Qed.

Lemma wp_PAT_Create subject input s (Q : Result (PersonalAccessToken * string) -> Admin -> Prop) :
  (forall e s', tsame (a_tokens s) (a_tokens s') -> Q (Err e) s') ->
  (forall row tok s', (healthy (a_tokens s) -> healthy (a_tokens s')) ->
     rows (a_tokens s') = rows (a_tokens s) ++ [row] -> pat_Subject row = subject ->
     pat_TokenHash row = PATService.token_hash tok -> pat_RevokedAt row = None ->
     pat_ExpiresAt row = cti_ExpiresAt input ->
     (forall x, x ∈ rows (a_tokens s) -> pat_TokenHash x <> PATService.token_hash tok) ->
     Q (Ok (row, tok)) s') ->
  wp (PATService.Create subject input) Q s.
Proof.
  intros HE HO. unfold PATService.Create.
  destruct (_ && _); [apply wp_ret, HE, tsame_refl|]. destruct (_ <? _)%nat; [apply wp_ret, HE, tsame_refl|].
  apply wp_try, wp_bind. unfold wp at 1; simpl.
  destruct (rand_Read (a_uuids s)) as [b|e]; apply wp_ret; [|apply HE, tsame_refl].
  set (tok := PATPrefix +:+ hex_encode b). apply wp_try, wp_on. simpl. apply wp_run.
  intros [row|e] t E; apply Create_spec in E as (Hh & Hres).
  2:{ destruct Hres as [Hr _]. apply HE. by split. }
  destruct Hres as ((id & _ & _ & _ & ->) & Hr & Hc). apply wp_ret. apply HO; [done..|].
  intros x Hx Hxh. rewrite Forall_forall in Hc. specialize (Hc x Hx). simpl in Hc.
  rewrite Hxh in Hc. by rewrite String.eqb_refl in Hc.
Qed.

Lemma wp_Revoke subject id s (Q : Result unit -> Admin -> Prop) :
  (forall e s', tsame (a_tokens s) (a_tokens s') -> Q (Err e) s') ->
  (forall s', rows (a_tokens s') = (fun r => if (pat_ID r =? id) && String.eqb (pat_Subject r) subject &&
       PATRepository.unrevoked r then r <| pat_RevokedAt := Some (a_now s) |> else r) <$> rows (a_tokens s) ->
     Q (Ok tt) s') ->
  wp (PATService.Revoke subject id) Q s.
Proof.
  intros HE HO. unfold PATService.Revoke, void. apply wp_try, wp_on, wp_Updates.
  - intros t' _ Hr. apply wp_ret, HO. exact Hr.
  - intros e t' Ht _. by apply HE.
Qed.

Lemma verify_accepted tok row s :
  stored s tok row -> healthy (a_tokens s) -> pat_RevokedAt row = None -> unexpired row (a_now s) ->
  exists s', verifyPAT tok s = (Ok (pat_Subject row), s').
Proof.
  intros Hst Hok Hr Hx. pose proof (wp_verify_live tok row s (fun r _ => r = Ok (pat_Subject row))
    Hst Hok Hr Hx (fun _ => eq_refl)) as Hv. unfold wp in Hv.
  destruct (verifyPAT tok s) as [r s']. exists s'. simpl in Hv. by rewrite Hv.
Qed.

Lemma PAT_Create_stored subject input s row tok s1 :
  PATService.Create subject input s = (Ok (row, tok), s1) ->
  stored s1 tok row /\ pat_Subject row = subject /\ pat_RevokedAt row = None.
Proof.
  intros E. cut (wp (PATService.Create subject input) (fun r s1 => forall row tok, r = Ok (row, tok) ->
    stored s1 tok row /\ pat_Subject row = subject /\ pat_RevokedAt row = None) s).
  { rewrite wp_run. intros Hw. exact (Hw _ _ E _ _ eq_refl). }
  apply wp_PAT_Create; [done|]. intros row0 tok0 s' _ Hr Hsub Hh Hrev _ Hfresh row' tok' [= <- <-].
  split; [|done]. split; [rewrite Hr; set_solver|]. split; [done|].
  intros x Hx Hxh. rewrite Hr in Hx. apply elem_of_app in Hx as [Hx|Hx%list_elem_of_singleton]; [|done].
  by destruct (Hfresh x Hx).
Qed.

(** What happens to tokens: any of them is presented, created or revoked by
    anyone, and time goes by. *)
Inductive TokenEvent :=
| TokenPresented (tok : string) | TokenCreated (subject : string) (input : CreateTokenInput)
| TokenRevoked (subject : string) (id : UUID) | TokenClock (now : Time).
Definition token_event (e : TokenEvent) : M Admin unit :=
  match e with
  | TokenPresented tok => verifyPAT tok ;;; ret tt
  | TokenCreated subject input => PATService.Create subject input ;;; ret tt
  | TokenRevoked subject id => PATService.Revoke subject id ;;; ret tt
  | TokenClock now => modify (fun s => s <| a_now := now |>)
  end.
Fixpoint token_events (l : list TokenEvent) : M Admin unit :=
  match l with [] => ret tt | e :: l' => token_event e ;;; token_events l' end.

(** Not the revocation of this token by its owner. *)
Definition spares (row : PersonalAccessToken) (e : TokenEvent) : Prop :=
  match e with TokenRevoked who id => ~ (who = pat_Subject row /\ id = pat_ID row) | _ => True end.

(** The token of [row] is in the table, with its owner and its expiry. *)
Definition traced (s : Admin) (tok : string) (row r : PersonalAccessToken) : Prop :=
  stored s tok r /\ pat_ID r = pat_ID row /\ pat_Subject r = pat_Subject row /\ pat_ExpiresAt r = pat_ExpiresAt row.

(** What became of it: once revoked it stays so, and only its owner's revocation
    revokes it. *)
Definition carried (spared : Prop) (tok : string) (row r : PersonalAccessToken) (s' : Admin) : Prop :=
  exists r', traced s' tok row r' /\ (pat_RevokedAt r <> None -> pat_RevokedAt r' <> None) /\
    (spared -> pat_RevokedAt r' = pat_RevokedAt r).

Lemma carried_same (spared : Prop) tok row r s s' :
  traced s tok row r -> rows (a_tokens s') = rows (a_tokens s) -> carried spared tok row r s'.
Proof. intros [Hst Hr] E. exists r. split; [|done]. split; [|done]. unfold stored. by rewrite E. Qed.

Lemma traced_map tok row r s s' (f : PersonalAccessToken -> PersonalAccessToken) :
  traced s tok row r -> rows (a_tokens s') = f <$> rows (a_tokens s) ->
  (forall x, pat_ID (f x) = pat_ID x /\ pat_TokenHash (f x) = pat_TokenHash x /\ pat_Subject (f x) = pat_Subject x /\
     pat_ExpiresAt (f x) = pat_ExpiresAt x) -> traced s' tok row (f r).
Proof.
  intros [(Hin & Hh & Hu) (Hid & Hsub & Hx)] E Hf. destruct (Hf r) as (F1 & F2 & F3 & F4).
  split; [|by rewrite F1, F3, F4]. unfold stored. rewrite E, F2. split_and!; [by apply list_elem_of_fmap_2|done|].
  intros x (y & -> & Hy)%list_elem_of_fmap Hxh. destruct (Hf y) as (_ & G2 & _). rewrite G2 in Hxh. by rewrite (Hu y Hy Hxh).
Qed.

Lemma carried_event (e : TokenEvent) tok row r s : traced s tok row r ->
  carried (spares row e) tok row r (token_event e s).2.
Proof.
  intros Ht. assert (Hwp : wp (token_event e) (fun _ s' => carried (spares row e) tok row r s') s);
    [|by rewrite wp_run in Hwp; apply (Hwp (token_event e s).1), surjective_pairing].
  destruct e as [tok'|subject input|who id|now]; cbn [token_event].
  - apply wp_bind. unfold verifyPAT, PATService.Verify. apply wp_try, wp_bind, (wp_zoom a_tokens), wp_First.
    2:{ intros e t [Hr _] _ _ _. by apply wp_ret, wp_ret, (carried_same _ _ _ _ s). }
    intros x t [Hr _] _ _ _. destruct (pat_RevokedAt x); [by apply wp_ret, wp_ret, (carried_same _ _ _ _ s)|].
    apply wp_bind. unfold wp at 1; simpl. destruct (match pat_ExpiresAt x with Some _ => _ | None => _ end);
      [by apply wp_ret, wp_ret, (carried_same _ _ _ _ s)|].
    apply wp_bind, wp_on. unfold PATRepository.TouchLastUsed. apply wp_bind, wp_Updates.
    + intros t2 _ Hr2. apply wp_ret, wp_ret, wp_ret, wp_ret. simpl in Hr2. rewrite Hr in Hr2.
      eexists. split; [eapply traced_map; [exact Ht|exact Hr2|]; intros y; simpl; by destruct (_ =? _)|].
      simpl. by destruct (_ =? _).
    + intros e t2 [Hr2 _] _. apply wp_ret, wp_ret, wp_ret, wp_ret, (carried_same _ _ _ _ s); [done|]. simpl in *. congruence.
  - apply wp_bind, wp_PAT_Create; [by intros e s' [E _]; apply wp_ret, (carried_same _ _ _ _ s)|].
    intros row' tok' s' _ Hr _ Hh _ _ Hfresh. apply wp_ret. destruct Ht as [(Hin & Hrh & Hu) Hsame].
    exists r. split; [|done]. split; [|done]. split; [rewrite Hr; set_solver|]. split; [done|].
    intros x Hx Hxh. rewrite Hr in Hx. apply elem_of_app in Hx as [Hx| ->%list_elem_of_singleton]; [by apply Hu|].
    exfalso. apply (Hfresh r Hin). by rewrite Hrh, <- Hxh, Hh.
  - apply wp_bind, wp_Revoke; [by intros e s' [E _]; apply wp_ret, (carried_same _ _ _ _ s)|].
    intros s' Hr. apply wp_ret. eexists. split; [eapply traced_map; [exact Ht|exact Hr|]; intros y; simpl; by destruct (_ && _)|].
    split.
    + simpl. by destruct (_ && _).
    + intros Hs. destruct Ht as [_ (Hid & Hsub & _)]. destruct (_ && _) eqn:E; [|done].
      apply andb_true_iff in E as [[E1%Z.eqb_eq E2%String.eqb_eq]%andb_true_iff _]. destruct Hs. split; congruence.
  - by apply wp_modify, (carried_same _ _ _ _ s).
Qed.

Lemma carried_events l tok row : forall r s, traced s tok row r ->
  carried (Forall (spares row) l) tok row r (token_events l s).2.
Proof.
  induction l as [|e l IH]; intros r s Ht; [by apply (carried_same _ _ _ _ s)|].
  destruct (carried_event e tok row r s Ht) as (r1 & Ht1 & Hr1 & Hs1). cbn [token_events]. unfold bind.
  destruct (token_event e s) as [u s1]. simpl in *. destruct (IH r1 s1 Ht1) as (r2 & Ht2 & Hr2 & Hs2).
  exists r2. split; [done|]. split; [auto|]. intros [He Hl]%Forall_cons. by rewrite Hs2, Hs1.
Qed.

(** Its owner's revocation revokes it, if nothing has yet. *)
Lemma revoked_traced row tok r s s2 : traced s tok row r ->
  PATService.Revoke (pat_Subject row) (pat_ID row) s = (Ok tt, s2) ->
  exists r', traced s2 tok row r' /\ pat_RevokedAt r' <> None.
Proof.
  intros Ht Er. pose proof (wp_Revoke (pat_Subject row) (pat_ID row) s
    (fun res s2 => res = Ok tt -> exists r', traced s2 tok row r' /\ pat_RevokedAt r' <> None)) as Hv.
  rewrite wp_run in Hv. refine (Hv _ _ _ _ Er eq_refl); [done|]. intros s' Hr _.
  eexists. split; [eapply traced_map; [exact Ht|exact Hr|]; intros y; simpl; by destruct (_ && _)|].
  destruct Ht as [_ (Hid & Hsub & _)]. simpl. rewrite Hid, Hsub, Z.eqb_refl, String.eqb_refl. simpl.
  unfold PATRepository.unrevoked. by destruct (pat_RevokedAt r) eqn:E; simpl; rewrite ?E.
Qed.

(** What a traced row means for who presents the token. *)
Lemma traced_refused tok row r s : traced s tok row r ->
  pat_RevokedAt r <> None \/ ~ unexpired row (a_now s) -> exists e s', verifyPAT tok s = (Err e, s').
Proof.
  intros [(_ & _ & Hu) (_ & _ & Hx)] Hor. apply verify_refused. intros x Hin Hh Hrev Hexp.
  rewrite (Hu x Hin Hh) in Hrev, Hexp. unfold unexpired in *. rewrite Hx in Hexp. by destruct Hor.
Qed.

Lemma foreign_revoke other row s res s2 :
  other <> pat_Subject row -> row ∈ rows (a_tokens s) -> NoDup (pat_ID <$> rows (a_tokens s)) ->
  PATService.Revoke other (pat_ID row) s = (res, s2) -> rows (a_tokens s2) = rows (a_tokens s).
Proof.
  intros Hne Hin Hnd Er. pose proof (wp_Revoke other (pat_ID row) s
    (fun _ s2 => rows (a_tokens s2) = rows (a_tokens s))) as Hv. rewrite wp_run in Hv.
  refine (Hv _ _ _ _ Er); [by intros e s' [? _]|]. intros s' ->.
  rewrite <- (list_fmap_id (rows (a_tokens s))) at 2. apply list_fmap_ext. intros i x Hx%list_elem_of_lookup_2.
  destruct (Z.eqb_spec (pat_ID x) (pat_ID row)) as [Ek|]; [|done].
  rewrite (key_unique pat_ID _ x row Hnd Hx Hin Ek). by rewrite (proj2 (String.eqb_neq _ _)).
Qed.

(** C35: The life of a personal access token.  A created token is stored under
    its hash alone.  Whatever happens to the tokens afterwards, however often it
    is presented and whoever creates and revokes others: while it has not
    expired and its owner has not revoked it, it verifies as its owner; once
    expired it is refused, and once its owner has revoked it, it is refused
    for ever.  Nobody else can revoke it. *)
Theorem PAT_lifecycle subject input s row tok s1 :
  PATService.Create subject input s = (Ok (row, tok), s1) ->
  stored s1 tok row /\ pat_Subject row = subject /\
  (forall l, let s2 := (token_events l s1).2 in
     (Forall (spares row) l -> healthy (a_tokens s2) -> unexpired row (a_now s2) ->
        exists s3, verifyPAT tok s2 = (Ok subject, s3)) /\
     (~ unexpired row (a_now s2) -> exists e s3, verifyPAT tok s2 = (Err e, s3)) /\
     (forall s3 l', PATService.Revoke subject (pat_ID row) s2 = (Ok tt, s3) ->
        exists e s4, verifyPAT tok (token_events l' s3).2 = (Err e, s4))) /\
  (forall other now res s2, other <> subject ->
     NoDup (pat_ID <$> rows (a_tokens s1)) ->
     PATService.Revoke other (pat_ID row) (s1 <| a_now := now |>) = (res, s2) ->
     rows (a_tokens s2) = rows (a_tokens s1)).
Proof.
  intros E. destruct (PAT_Create_stored _ _ _ _ _ _ E) as (Hst & Hsub & Hrev). subst subject.
  split; [done|]. split; [done|]. split.
  - intros l s2. destruct (carried_events l tok row row s1) as (r & Ht & _ & Hs); [by split|]. split_and!.
    + intros Hl Hok Hx. destruct Ht as [Hst2 (_ & Hsub & Hexp)]. rewrite <- Hsub.
      apply verify_accepted; [exact Hst2|exact Hok|by rewrite Hs|]. unfold unexpired. by rewrite Hexp.
    + intros Hx. eapply traced_refused; [exact Ht|by right].
    + intros s3 l' Er. destruct (revoked_traced _ _ _ _ _ Ht Er) as (r3 & Ht3 & Hr3).
      destruct (carried_events l' tok row r3 s3 Ht3) as (r4 & Ht4 & Hr4 & _). eapply traced_refused; [exact Ht4|left; auto].
  - intros other now res s2 Hne Hnd Er.
    pose proof (foreign_revoke other row (s1 <| a_now := now |>) res s2 Hne) as Hf.
    cbn in Hf. apply Hf; [apply Hst|exact Hnd|exact Er].
Qed.

(** ** Tokens on routes of owned components *)

(** The component behind the path is registered to some organization. *)
Definition route_owned (s : Admin) (res : Resource) (rq : Request) (param : string) : Prop :=
  forall id cid, resourceID rq param = Ok id -> owner_of s res id cid ->
    exists o, o ∈ rows (a_ownership s) /\ ro_ResourceType o = ResourceTypeComponent /\ ro_ResourceID o = cid.

Lemma wrap_orgless cfg a res param perm rq c s h h' :
  auth cfg = Some a -> CurrentOrgs c = [] -> route_owned s res rq param ->
  wrap cfg res param perm h rq c s = wrap cfg res param perm h' rq c s.
Proof.
  intros Ha Hc Ho. unfold wrap. rewrite Ha, !ownership_gate. unfold gate, bind.
  pose proof (wp_ownership_verdict res param rq c s (fun v _ => v <> None)) as Hv. unfold wp in Hv.
  destruct (ownership_verdict res param rq c s) as [[r|] s1]; [done|]. exfalso. apply Hv; [done| |done].
  intros id cid s' _ Hid Hcid [Hn|(o & org & _ & _ & _ & _ & _ & Hin & _)].
  - destruct (Ho id cid Hid Hcid) as (o & Hin & Hty & Hc'). by destruct (Hn o Hin Hty).
  - rewrite Hc in Hin. by apply not_elem_of_nil in Hin.
Qed.

(** The chain behind the authenticator treats two handlers alike that answer
    alike in the context it builds. *)
Lemma authenticated_ext cfg rq c s claims h h' :
  c_claims c = Some claims ->
  (forall c' s', CurrentOrgs c' = OrgsFromGroups (kc_Groups claims) ->
     a_ownership s' = a_ownership s -> a_pipelines s' = a_pipelines s -> a_runs s' = a_runs s ->
     h rq c' s' = h' rq c' s') ->
  authenticated cfg h rq c s = authenticated cfg h' rq c s.
Proof.
  intros Hc Hh. unfold authenticated, UserContext. rewrite Hc.
  set (c' := _ <| c_orgAdmins := _ |>). assert (Hc' : CurrentOrgs c' = OrgsFromGroups (kc_Groups claims)) by done.
  unfold AuditMiddleware, bind.
  assert (Hcors : forall s', a_ownership s' = a_ownership s -> a_pipelines s' = a_pipelines s ->
     a_runs s' = a_runs s ->
     (if empty_string (origins cfg) then h else CORS (Split ","%char (origins cfg)) h) rq c' s' =
     (if empty_string (origins cfg) then h' else CORS (Split ","%char (origins cfg)) h') rq c' s').
  { intros s' H1 H2 H3. specialize (Hh c' s' Hc' H1 H2 H3). destruct (empty_string _); [done|].
    unfold CORS, bind. repeat case_match; simplify_eq; congruence. }
  destruct (limiter cfg) as [rl|]; [|by rewrite Hcors].
  unfold RateLimitHandler, bind. destruct (disabled _); [by rewrite Hcors|].
  unfold limit_allow, now_, bind, zoom. destruct (RateLimit.allow _ _ _ _) as [[] l]; [|done].
  by rewrite Hcors.
Qed.

Lemma BearerToken_app tok : BearerToken ("Bearer " +:+ tok) = Some tok.
Proof.
  unfold BearerToken, TrimPrefix, HasPrefix. simpl. destruct tok as [|x tok]; simpl; [done|].
  do 2 f_equal. induction tok as [|y tok IH] in x |- *; simpl; [done|]. by rewrite IH.
Qed.

(** A personal access token carries no groups, so no organization: on a
    component registered to any organization the token never reaches a guarded
    handler, whatever its owner may do in the console. *)
Theorem PAT_never_enters_owned cfg a res param perm rq c tok s h h' :
  auth cfg = Some a -> hub_authenticator a ->
  (forall verify, sessionVerifier a = Some verify -> forall s, exists e, verify rq s = (Err e, s)) ->
  rq_Header rq "Authorization" = "Bearer " +:+ tok -> HasPrefix tok patTokenPrefix = true ->
  route_owned s res rq param ->
  api cfg (wrap cfg res param perm h) rq c s = api cfg (wrap cfg res param perm h') rq c s.
Proof.
  intros Ha [_ Hp _] Hses Hhd Hpre Hown. unfold api. rewrite Ha. unfold SecurityHeaders.
  assert (Hb : bearer a (authenticated cfg (wrap cfg res param perm h)) rq c s =
               bearer a (authenticated cfg (wrap cfg res param perm h')) rq c s).
  2:{ unfold bind, Authenticate. destruct (sessionVerifier a) as [verify|]; [|by rewrite Hb].
      destruct (Hses _ eq_refl s) as [e He]. unfold bind. by rewrite He, Hb. }
  unfold bearer. rewrite Hhd, BearerToken_app.
  destruct tok as [|ch tok]; [done|]. rewrite Hp, Hpre. unfold bind.
  pose proof (wp_verifyPAT (String ch tok) s (fun r s1 => forall sub, r = Ok sub ->
    a_ownership s1 = a_ownership s /\ a_pipelines s1 = a_pipelines s /\ a_runs s1 = a_runs s)) as Hk.
  unfold wp in Hk. destruct (verifyPAT (String ch tok) s) as [[sub|e] s1]; [|done]. simpl in Hk.
  specialize (Hk ltac:(done) ltac:(done) sub eq_refl).
  destruct Hk as (H1 & H2 & H3). eapply authenticated_ext; [done|]. simpl.
  intros c' s' Hc' E1 E2 E3. eapply wrap_orgless; [done..|]. unfold route_owned, owner_of in *.
  by rewrite E1, E2, E3, H1, H2, H3.
Qed.
End Authorization.

(** * The concrete hub *)

Lemma HasPermission_exact_witness :
  holds demo_admin 7 "ben" [] "run:trigger" /\ ~ holds demo_admin 7 "ben" [] "component:manage".
Proof.
  pose proof (HasPermission_exact (O := list_store) 7 "ben" [] "run:trigger" demo_admin) as H1.
  pose proof (HasPermission_exact (O := list_store) 7 "ben" [] "component:manage" demo_admin) as H2.
  assert (HR : authz_ready demo_admin).
  { split; try (exact (Forall_nil_2 _)); apply (bool_decide_unpack _); vm_compute; exact I. }
  destruct (HasPermission bindingSvc 7 "ben" [] "run:trigger" demo_admin) as [r1 s1] eqn:E1.
  destruct (HasPermission bindingSvc 7 "ben" [] "component:manage" demo_admin) as [r2 s2] eqn:E2.
  assert (r1 = Ok true) as -> by (apply (f_equal fst) in E1; vm_compute in E1; congruence).
  assert (r2 = Ok false) as -> by (apply (f_equal fst) in E2; vm_compute in E2; congruence).
  destruct H1 as (_ & H1 & _), H2 as (_ & _ & H2). split; [exact (H1 eq_refl)|].
  destruct (H2 HR) as (b & [= <-] & Hb). intros Hh. apply Hb in Hh. discriminate.
Defined.

(** Ben, as the identity provider describes him. *)
Definition ben_context : Context_ :=
  empty_context <| c_subject := Some "ben" |> <| c_groups := Some ["/acme/dev"] |>
    <| c_orgs := Some ["acme"] |>.

Lemma guarded_route_witness :
  exists s', asame demo_admin s' /\ owner_of demo_admin ResourcePipeline 10 7 /\
    holds demo_admin 7 "ben" ["/acme/dev"] "run:trigger" /\
    wrap demo_config ResourcePipeline "id" "run:trigger" ok_handler (demo_post "") ben_context demo_admin
    = ok_handler (demo_post "") ben_context s'.
Proof.
  assert (Hp : NoDup (pl_ID <$> rows (a_pipelines demo_admin)))
    by (apply (bool_decide_unpack _); vm_compute; exact I).
  assert (Hr : NoDup (run_ID <$> rows (a_runs demo_admin)))
    by (apply (bool_decide_unpack _); vm_compute; exact I).
  destruct (guarded_route (O := list_store) demo_config demo_authenticator ResourcePipeline "id"
    "run:trigger" (demo_post "") ben_context demo_admin eq_refl Hp Hr)
    as [(r & s' & Hcode & _ & Hh)|(id & cid & u & s' & Hs & Hid & Ho & Hu & _ & Hh & Hrun)].
  - exfalso. specialize (Hh ok_handler).
    assert (Hc : rs_Code (wrap demo_config ResourcePipeline "id" "run:trigger" ok_handler (demo_post "")
      ben_context demo_admin).1.1 = 200) by (vm_compute; reflexivity).
    rewrite Hh in Hc. cbn [fst] in Hc. lia.
  - assert (id = 10) as -> by (vm_compute in Hid; congruence).
    assert (u = "ben") as -> by (vm_compute in Hu; congruence).
    assert (Ho7 : owner_of demo_admin ResourcePipeline 10 7)
      by (exists demo_pipeline; repeat split; left).
    rewrite (owner_unique demo_admin ResourcePipeline 10 cid 7 Hp Hr Ho Ho7) in Hh.
    exists s'. exact (conj Hs (conj Ho7 (conj Hh (Hrun ok_handler)))).
Defined.

Lemma demo_hub_authenticator : hub_authenticator demo_authenticator.
Proof. split; [intros tok; apply reads_ret|reflexivity|discriminate]. Qed.

Lemma rejected_before_limiter_witness :
  exists e s1, asame demo_admin s1 /\ forall rl,
    api (mkConfig (Some demo_authenticator) rl "https://evil") ok_handler (demo_http "GET" "Bearer eve-token")
      empty_context demo_admin
    = ((add_headers security_headers (Fail StatusUnauthorized e), empty_context), s1).
Proof.
  destruct (rejected_before_limiter (O := list_store) demo_authenticator (demo_http "GET" "Bearer eve-token")
    empty_context demo_admin demo_hub_authenticator) as [(e & s1 & Hs & H)|(cl & s1 & _ & H)].
  - exists e, s1. split; [exact Hs|]. intros rl. apply H. reflexivity.
  - exfalso. specialize (H demo_config ok_handler eq_refl).
    assert (Hl : rs_Code (api demo_config ok_handler (demo_http "GET" "Bearer eve-token") empty_context demo_admin).1.1 = 401)
      by (vm_compute; reflexivity).
    rewrite H in Hl. vm_compute in Hl. discriminate.
Defined.

Definition ci_token : CreateTokenInput := mkCreateTokenInput "ci" "" (Some (1500 * Second)).
Definition with_token : Result (PersonalAccessToken * string) * Admin :=
  PATService.Create "ana" ci_token demo_admin.

(** The token is presented twice, and somebody else tries to revoke it. *)
Definition token_used (tok : string) (id : UUID) : list TokenEvent :=
  [TokenPresented tok; TokenRevoked "eve" id; TokenClock (1200 * Second); TokenPresented tok].

Definition ci_created : PersonalAccessToken * string :=
  match with_token.1 with Ok p => p | Err _ => (mkPersonalAccessToken 0 "" "" "" "" "" None None None 0, "") end.
Definition ci_used : list TokenEvent := token_used ci_created.2 (pat_ID ci_created.1).

Lemma PAT_lifecycle_witness :
  with_token.1 = Ok ci_created /\
  (exists s2, verifyPAT ci_created.2 (token_events ci_used with_token.2).2 = (Ok "ana", s2)) /\
  (exists e s2, verifyPAT ci_created.2 (token_events (ci_used ++ [TokenClock (1600 * Second)]) with_token.2).2 = (Err e, s2)).
Proof.
  assert (E : with_token = (Ok (ci_created.1, ci_created.2), with_token.2)) by (vm_compute; reflexivity).
  split; [vm_compute; reflexivity|].
  destruct (PAT_lifecycle (O := list_store) "ana" ci_token demo_admin ci_created.1 ci_created.2 with_token.2 E) as (_ & _ & Hlife & _).
  split.
  - apply Hlife; [|vm_compute; constructor|vm_compute; discriminate]. repeat constructor. vm_compute. by intros [? _].
  - apply Hlife. vm_compute. intros H. exact (H eq_refl).
Defined.

(** Ana owns component 7 and may run its pipelines, but not with a token. *)
Lemma PAT_never_enters_owned_witness :
  match with_token with
  | (Ok (_, tok), s) =>
      serve ("Bearer " +:+ tok) s = 403 /\
      forall h', demo_route (demo_post ("Bearer " +:+ tok)) empty_context s =
        api demo_config (wrap demo_config ResourcePipeline "id" "run:trigger" h')
          (demo_post ("Bearer " +:+ tok)) empty_context s
  | _ => False
  end.
Proof.
  destruct with_token as [[[row tok]|e] s] eqn:E.
  2:{ apply (f_equal (fun x => match x.1 with Ok _ => true | Err _ => false end)) in E.
      vm_compute in E. discriminate. }
  assert (Ht : tok = match with_token with (Ok (_, t), _) => t | _ => "" end) by (by rewrite E).
  assert (Hs : s = with_token.2) by (by rewrite E). clear E.
  split; [subst; vm_compute; reflexivity|]. intros h'. unfold demo_route.
  apply (PAT_never_enters_owned (O := list_store) demo_config demo_authenticator) with (tok := tok).
  - reflexivity.
  - exact demo_hub_authenticator.
  - discriminate.
  - reflexivity.
  - subst; vm_compute; reflexivity.
  - intros id cid Hid (p & Hp & Hpid & _ & <-).
    exists (mkResourceOwnership 70 ResourceTypeComponent 7 1 RawEmpty 5).
    subst s. split; [left|]. split; [reflexivity|].
    assert (rows (a_pipelines with_token.2) = [demo_pipeline]) as Hr by (vm_compute; reflexivity).
    rewrite Hr in Hp. apply list_elem_of_singleton in Hp as ->. reflexivity.
Defined.
