(* ===== verification/CascadeTheory.v ===== *)
(** What a cascading deletion leaves ([internal/cascade/deleter.go]). *)
From stdpp Require Import base list strings gmap sorting.
From Stdlib Require Import ZArith Lia.
From S2P Require Import Prelude Common Gorm Json GoLib RunnerProto RunStore PipelineStore TargetStore.
From S2P Require Import EditStore OrgStore SiteStore PermStore RateLimit World Admin.
From S2P Require Import WorldLogic Frames AdminLogic Catalog.

Open Scope Z_scope.

(** * Tables *)

(** The rows under the deletion are gone or dead; the others are as they were. *)
Record swept {R} `{Model R} (under : R -> bool) (l l' : list R) : Prop := mkSwept {
  swept_gone : forall r, r ∈ l' -> under r = true -> alive r = false;
  swept_kept : filter (fun r => under r = false) l' = filter (fun r => under r = false) l;
}.

(** A deletion does not move a row out of its parent. *)
Class StaysUnder {R} `{Model R} (under : R -> bool) : Prop :=
  stays_under : forall now r r', deleted now r = Some r' -> under r' = under r /\ alive r' = false.

Lemma delete_rows_swept {R} `{Model R} (under : R -> bool) {SU : StaysUnder under} now (l : list R) :
  swept under l (delete_rows now under l).
Proof.
  unfold delete_rows. split.
  - intros r (x & Hx & Ex)%list_elem_of_omap Hu. destruct (alive x && under x) eqn:E.
    + by apply stays_under in Ex as [_ ?].
    + injection Ex as ->. by rewrite Hu, andb_true_r in E.
  - induction l as [|x l IH]; [done|]. simpl. destruct (alive x && under x) eqn:E.
    + apply andb_true_iff in E as [_ Hu]. rewrite (filter_cons_False _ x l) by congruence.
      destruct (deleted now x) as [x'|] eqn:Ed; [|exact IH].
      apply stays_under in Ed as [Hu' _]. rewrite filter_cons_False by congruence. exact IH.
    + rewrite !filter_cons. by case_decide; rewrite <- IH.
Qed.

(** The rows whose key is among the selected ones. *)
Definition under_ids {R} (key : R -> UUID) (ids : list UUID) (r : R) : bool := bool_decide (key r ∈ ids).

Ltac stays := intros now r r' E; simpl in E; first [discriminate | injection E as <-; done].
#[export] Instance stage_stays ids : StaysUnder (under_ids st_PipelineID ids).
Proof. stays. Qed.
#[export] Instance template_stays ids : StaysUnder (under_ids tpl_StageID ids).
Proof. stays. Qed.
#[export] Instance pipeline_stays ids : StaysUnder (under_ids pl_ComponentID ids).
Proof. stays. Qed.
#[export] Instance environment_stays ids : StaysUnder (under_ids env_ComponentID ids).
Proof. stays. Qed.
#[export] Instance config_stays ids : StaysUnder (under_ids cfg_ComponentID ids).
Proof. stays. Qed.
#[export] Instance binding_stays ids : StaysUnder (under_ids crb_ComponentID ids).
Proof. stays. Qed.
#[export] Instance component_stays ids : StaysUnder (under_ids cmp_ID ids).
Proof. stays. Qed.
#[export] Instance service_stays id : StaysUnder (fun svc => svc_ID svc =? id).
Proof. stays. Qed.

(** The artifacts under the deletion are handed to the collector. *)
Definition retired (now : Time) (under : Artifact -> bool) (a a' : Artifact) : Prop :=
  if under a then
    art_CleanupState a' = CleanupStatePendingDeletion /\
    (art_CleanupState a <> CleanupStatePendingDeletion -> a' = mark_artifact now a) /\
    (art_CleanupState a = CleanupStatePendingDeletion -> a' = a)
  else a' = a.

Lemma retired_rows now (under : Artifact -> bool) (l : list Artifact) :
  Forall2 (retired now under) l
    (update_rows now (fun a => under a && negb (String.eqb (art_CleanupState a) CleanupStatePendingDeletion))
       (mark_artifact now) l).
Proof.
  unfold update_rows. rewrite Forall2_fmap_r. apply Forall_Forall2_diag, Forall_true. intros a.
  unfold retired. simpl. destruct (under a); [|done]. simpl.
  destruct (String.eqb_spec (art_CleanupState a) CleanupStatePendingDeletion); simpl; [by repeat split|].
  split; [done|]. split; [done|by intros].
Qed.

Section Cascading.
Context {G : Gorm} {GL : GormLaws G} {P : Platform} {O : ObjectStore} {X : Transactions}.
Context {XL : TransactionsLaws X}.

(** * The whole subtree *)

(** [s'] is [s] with the selected components deleted and everything in them
    deleted or retired; the other tables, the history of the configuration
    and the runs among them, are those of [s]. *)
Definition subtree_deleted (scope : Component -> bool) (s s' : Admin) : Prop :=
  exists s1 templates stages pipelines environments configs bindings artifacts components,
    asame s s1 /\
    s' = s1 <| a_templates := templates |> <| a_stages := stages |> <| a_pipelines := pipelines |>
            <| a_environments := environments |> <| a_configs := configs |> <| a_bindings := bindings |>
            <| a_artifacts := artifacts |> <| a_components := components |> /\
    swept (under_ids tpl_StageID (stages_of scope s)) (rows (a_templates s)) (rows templates) /\
    swept (under_ids st_PipelineID (pipelines_of scope s)) (rows (a_stages s)) (rows stages) /\
    swept (under_ids pl_ComponentID (ids_of scope s)) (rows (a_pipelines s)) (rows pipelines) /\
    swept (under_ids env_ComponentID (ids_of scope s)) (rows (a_environments s)) (rows environments) /\
    swept (under_ids cfg_ComponentID (ids_of scope s)) (rows (a_configs s)) (rows configs) /\
    swept (under_ids crb_ComponentID (ids_of scope s)) (rows (a_bindings s)) (rows bindings) /\
    Forall2 (retired (a_now s) (under_ids art_ComponentID (ids_of scope s)))
      (rows (a_artifacts s)) (rows artifacts) /\
    swept (under_ids cmp_ID (ids_of scope s)) (rows (a_components s)) (rows components).

Lemma wp_delete_step {R B} `{Model R} (proj : Admin -> Table R) {S : Setter proj} (sub : Admin -> B)
    (p : B -> R -> bool) (Q : Result unit -> Admin -> Prop) s :
  (forall t', rows t' = delete_rows (a_now s) (p (sub s)) (rows (proj s)) ->
     Q (Ok tt) (set_field proj (fun _ => t') s)) ->
  (forall e s', Q (Err e) s') ->
  wp (void (on_sub proj sub (fun now b => db_Delete now (p b)))) Q s.
Proof.
  intros HO HE. apply wp_try. unfold on_sub. apply wp_bind, wp_get. apply (wp_zoom proj).
  apply wp_Delete; [|by intros]. intros t' _ Ht. apply wp_ret. by apply HO.
Qed.

Lemma wp_deleteComponents scope s :
  wp (deleteComponents scope) (fun r s' => r = Ok tt -> subtree_deleted scope s s') s.
Proof.
  unfold deleteComponents, steps. simpl.
  apply wp_try, wp_delete_step; [intros templates Htpl|done].
  apply wp_try, wp_delete_step; [intros stages Hst|done].
  apply wp_try, wp_delete_step; [intros pipelines Hpl|done].
  apply wp_try, wp_delete_step; [intros environments Henv|done].
  apply wp_try, wp_delete_step; [intros configs Hcfg|done].
  apply wp_try, wp_delete_step; [intros bindings Hcrb|done].
  apply wp_try, wp_try. unfold on_sub. apply wp_bind, wp_get. apply (wp_zoom a_artifacts).
  apply wp_Updates; [|by intros]. intros artifacts _ Hart. apply wp_ret.
  apply wp_try, wp_delete_step; [intros components Hcmp|done].
  apply wp_ret. intros _.
  exists s, templates, stages, pipelines, environments, configs, bindings, artifacts, components.
  unfold ids_of, pipelines_of, stages_of in *. simpl in *.
  rewrite Htpl, Hst, Hpl, Henv, Hcfg, Hcrb, Hart, Hcmp.
  split; [reflexivity|]. split; [reflexivity|].
  split_and!; try apply delete_rows_swept; try apply _. apply retired_rows.
Qed.

(** ** Active runs *)

(** A live run in an active phase of a pipeline, deleted or not, of a component. *)
Definition active_under (in_component : UUID -> Prop) (s : Admin) : Prop :=
  exists r p, r ∈ rows (a_runs s) /\
    run_Phase r ∈ activePhases /\ p ∈ rows (a_pipelines s) /\ pl_ID p = run_PipelineID r /\
    in_component (pl_ComponentID p).

Definition in_service (s : Admin) (serviceID : UUID) (componentID : UUID) : Prop :=
  exists c, c ∈ rows (a_components s) /\ cmp_ID c = componentID /\ cmp_ServiceID c = serviceID.

Lemma elem_of_pipeline_ids ids l x :
  x ∈ pipeline_ids ids l <-> exists p, p ∈ l /\ pl_ID p = x /\ pl_ComponentID p ∈ ids.
Proof.
  unfold pipeline_ids. rewrite list_elem_of_fmap. setoid_rewrite list_elem_of_filter. naive_solver.
Qed.

Lemma elem_of_component_ids scope l x :
  x ∈ component_ids scope l <-> exists c, c ∈ l /\ cmp_ID c = x /\ scope c = true.
Proof.
  unfold component_ids. rewrite list_elem_of_fmap. setoid_rewrite list_elem_of_filter. naive_solver.
Qed.

(** Counting the active runs of some pipelines. *)
Lemma wp_count_under (sub : Admin -> list UUID) s :
  wp (on_sub a_runs sub (fun _ pipelines => db_Count (run_under pipelines activePhases)))
    (fun r s' => asame s s' /\
       match r with
       | Ok n => 0 < n <-> exists x, x ∈ rows (a_runs s) /\ run_Phase x ∈ activePhases /\
                                     run_PipelineID x ∈ sub s
       | Err _ => ~ healthy (a_runs s)
       end) s.
Proof.
  unfold on_sub. apply wp_bind, wp_get. apply (wp_read_zoom a_runs); [apply read_Count|].
  apply wp_Count; [|by intros]. intros t' _ s' Hs. split; [done|].
  set (sel := selected (run_under (sub s) activePhases) (rows (a_runs s))).
  assert (Hsel : forall x, x ∈ sel <->
    x ∈ rows (a_runs s) /\ run_Phase x ∈ activePhases /\ run_PipelineID x ∈ sub s).
  { intros x. subst sel. rewrite elem_of_selected. unfold run_under. simpl.
    rewrite andb_true_iff, !bool_decide_eq_true. naive_solver. }
  destruct sel as [|x sel']; simpl; split; try lia.
  - intros (x & Hx%Hsel). by apply not_elem_of_nil in Hx.
  - intros _. exists x. apply Hsel. left.
Qed.

Lemma wp_countActiveByComponent id s :
  wp (countActiveByComponent id activePhases) (fun r s' => asame s s' /\
    match r with Ok n => 0 < n <-> active_under (eq id) s | Err _ => ~ healthy (a_runs s) end) s.
Proof.
  eapply wp_mono; [apply wp_count_under|]. intros [n|e] s' [Hs H]; (split; [done|]); [|done].
  rewrite H. setoid_rewrite elem_of_pipeline_ids. setoid_rewrite list_elem_of_singleton.
  unfold active_under. naive_solver.
Qed.

Lemma wp_countActiveByService id s :
  wp (countActiveByService id activePhases) (fun r s' => asame s s' /\
    match r with Ok n => 0 < n <-> active_under (in_service s id) s | Err _ => ~ healthy (a_runs s) end) s.
Proof.
  eapply wp_mono; [apply wp_count_under|]. intros [n|e] s' [Hs H]; (split; [done|]); [|done].
  rewrite H. setoid_rewrite elem_of_pipeline_ids. setoid_rewrite elem_of_component_ids.
  setoid_rewrite Z.eqb_eq. unfold active_under, in_service. naive_solver.
Qed.

Lemma active_asame (Pc Pc' : UUID -> Prop) s s' :
  (forall c, Pc c <-> Pc' c) -> asame s s' -> active_under Pc s <-> active_under Pc' s'.
Proof.
  intros Hc HS. unfold active_under. destruct HS. repeat match goal with H : tsame _ _ |- _ => destruct H as [? _] end.
  repeat match goal with H : rows ?t = _ |- context [rows ?t] => rewrite H end. by setoid_rewrite Hc.
Qed.

Lemma in_service_asame s s' id c : asame s s' -> in_service s id c <-> in_service s' id c.
Proof. intros HS. unfold in_service. by rewrite (proj1 (asame_components _ _ HS)). Qed.

(** * The two deletions *)

Lemma subtree_asame scope s s1 s' : asame s s1 -> subtree_deleted scope s1 s' -> subtree_deleted scope s s'.
Proof.
  intros HS (s2 & t1 & t2 & t3 & t4 & t5 & t6 & t7 & t8 & H2 & -> & Hrest).
  exists s2, t1, t2, t3, t4, t5, t6, t7, t8. split; [by transitivity s1|]. split; [done|].
  unfold stages_of, pipelines_of, ids_of in *. rewrite (asame_now _ _ HS) in Hrest. destruct HS.
  repeat match goal with H : tsame _ _ |- _ => destruct H as [H _]; try rewrite H in Hrest; clear H end.
  exact Hrest.
Qed.

(** A transaction that answers without an error ran its body. *)
Lemma wp_Tx {S A} (body : M S (Result A)) (Q : Result A -> S -> Prop) s :
  (forall a s', body s = (Ok a, s') -> Q (Ok a) s') -> (forall e, Q (Err e) s) -> wp (db_Tx body) Q s.
Proof.
  intros HO HE. apply wp_run. intros r s' E. apply Tx_spec in E as [(a & -> & E)|(e & -> & ->)]; auto.
Qed.

Lemma wp_DeleteComponentSubtree guard id (free : Admin -> Prop) s :
  wp guard (fun r s' => asame s s' /\ (r = Ok tt -> free s)) s ->
  wp (DeleteComponentSubtree id (Some guard)) (fun r s' =>
    match r with
    | Ok _ => free s /\ subtree_deleted (fun c => cmp_ID c =? id) s s'
    | Err _ => s' = s
    end) s.
Proof.
  intros Hg. apply wp_Tx; [|done]. intros [] s'. simpl. revert s'.
  cut (wp (try* _ := guard in deleteComponents (fun c => cmp_ID c =? id)) (fun r s' => r = Ok tt ->
    free s /\ subtree_deleted (fun c => cmp_ID c =? id) s s') s).
  { intros H s' E. unfold wp in H. rewrite E in H. by apply H. }
  apply wp_try. eapply wp_mono; [exact Hg|]. intros [[]|e] s1 [Hs Hf]; [|done].
  eapply wp_mono; [apply wp_deleteComponents|]. intros r s' Hd ->. split; [by apply Hf|].
  eapply subtree_asame; [exact Hs|by apply Hd].
Qed.

(** A deleted service: its components first, then its own row. *)
Definition service_deleted (id : UUID) (s s' : Admin) : Prop :=
  exists s1 services, subtree_deleted (fun c => cmp_ServiceID c =? id) s s1 /\
    s' = s1 <| a_services := services |> /\
    swept (fun svc => svc_ID svc =? id) (rows (a_services s)) (rows services).

Lemma service_asame id s s1 s' : asame s s1 -> service_deleted id s1 s' -> service_deleted id s s'.
Proof.
  intros HS (s2 & services & Hd & -> & Hsw). exists s2, services.
  split; [by eapply subtree_asame|]. split; [done|]. by rewrite <- (proj1 (asame_services _ _ HS)).
Qed.

Lemma wp_DeleteServiceSubtree guard id (free : Admin -> Prop) s :
  wp guard (fun r s' => asame s s' /\ (r = Ok tt -> free s)) s ->
  wp (DeleteServiceSubtree id (Some guard)) (fun r s' =>
    match r with Ok _ => free s /\ service_deleted id s s' | Err _ => s' = s end) s.
Proof.
  intros Hg. apply wp_Tx; [|done]. intros [] s'. simpl. revert s'.
  match goal with |- forall s', ?b s = _ -> _ =>
    cut (wp b (fun r s' => r = Ok tt -> free s /\ service_deleted id s s') s) end.
  { intros H s' E. unfold wp in H. rewrite E in H. by apply H. }
  apply wp_try. eapply wp_mono; [exact Hg|]. intros [[]|e] s1 [Hs Hf]; [|done].
  apply wp_try. eapply wp_mono; [apply wp_deleteComponents|]. intros [[]|e] s2 Hd; [|done].
  specialize (Hd eq_refl). apply wp_try, wp_on, wp_Delete; [|done].
  intros services _ Ht. apply wp_ret. intros _. split; [by apply Hf|].
  assert (Hsvc : rows (a_services s2) = rows (a_services s)).
  { destruct Hd as (s3 & t1 & t2 & t3 & t4 & t5 & t6 & t7 & t8 & H3 & -> & _).
    change (rows (a_services s3) = rows (a_services s)).
    by rewrite (proj1 (asame_services _ _ H3)), (proj1 (asame_services _ _ Hs)). }
  exists s2, services. split; [by eapply subtree_asame|]. split; [done|].
  rewrite Ht, Hsvc. apply (delete_rows_swept (fun svc => svc_ID svc =? id)).
Qed.
End Cascading.
