(* ===== verification/CatalogProperties.v ===== *)
(** Guarantees of the service tree: deletions take the whole subtree or
    nothing and never a running one; the dependency graph stays acyclic, and
    the search that guards it always ends. *)
From stdpp Require Import base list relations strings gmap sorting.
From Stdlib Require Import ZArith Lia.
From S2P Require Import Prelude Common Gorm Json GoLib RunnerProto RunStore PipelineStore TargetStore.
From S2P Require Import EditStore OrgStore SiteStore PermStore RateLimit World Admin Catalog WorldLogic.
From S2P Require Import Frames Instances AdminLogic CascadeTheory.

Open Scope Z_scope.

(** * The graph of a list of rows *)

Definition depends (edges : list ComponentDependency) (a b : UUID) : Prop :=
  exists e, e ∈ edges /\ dep_ComponentID e = a /\ dep_DependsOnID e = b.

Definition acyclic (edges : list ComponentDependency) : Prop := forall a, ~ tc (depends edges) a a.

Lemma elem_of_adj edges a b : b ∈ adj edges a <-> depends edges a b.
Proof.
  unfold adj, depends. rewrite list_elem_of_fmap. split.
  - intros (e & -> & [<- He]%list_elem_of_filter). eauto.
  - intros (e & He & <- & <-). exists e. by rewrite list_elem_of_filter.
Qed.

Lemma depends_mono edges edges' a b :
  (forall e, e ∈ edges -> e ∈ edges') -> depends edges a b -> depends edges' a b.
Proof. intros Hs (e & He & Hab). exists e. auto. Qed.

Lemma acyclic_mono edges edges' :
  (forall e, e ∈ edges -> e ∈ edges') -> acyclic edges' -> acyclic edges.
Proof.
  intros Hs Ha a Ht. apply (Ha a). revert Ht. generalize a at 2 4. intros b.
  induction 1 as [x y Hxy|x y z Hxy _ IH].
  - by apply tc_once, (depends_mono edges).
  - apply (tc_l _ _ y); [by apply (depends_mono edges)|done].
Qed.

(** A new edge can only close a cycle through a path back. *)
Lemma depends_snoc edges e a b :
  depends (edges ++ [e]) a b <->
  depends edges a b \/ (a = dep_ComponentID e /\ b = dep_DependsOnID e).
Proof.
  unfold depends. split.
  - intros (x & [Hx| ->%list_elem_of_singleton]%elem_of_app & <- & <-); [left; eauto|by right].
  - intros [(x & Hx & Hab)|[-> ->]].
    + exists x. rewrite elem_of_app. auto.
    + exists e. rewrite elem_of_app, list_elem_of_singleton. auto.
Qed.

Lemma path_through edges e a b :
  tc (depends (edges ++ [e])) a b ->
  tc (depends edges) a b \/
  (rtc (depends edges) a (dep_ComponentID e) /\ rtc (depends edges) (dep_DependsOnID e) b) \/
  rtc (depends edges) (dep_DependsOnID e) (dep_ComponentID e).
Proof.
  induction 1 as [x y Hxy%depends_snoc|x y z Hxy%depends_snoc _ IH].
  - destruct Hxy as [?|[-> ->]]; [left; by apply tc_once|]. right; left. by split.
  - destruct Hxy as [Hxy|[-> ->]].
    + destruct IH as [?|[[? ?]|?]]; [left; by eapply tc_l| |by do 2 right].
      right; left. split; [by eapply rtc_l|done].
    + destruct IH as [?|[[? ?]|?]]; [|by do 2 right..].
      right; left. split; [done|by apply tc_rtc].
Qed.

Lemma acyclic_snoc edges e :
  acyclic edges -> ~ rtc (depends edges) (dep_DependsOnID e) (dep_ComponentID e) ->
  acyclic (edges ++ [e]).
Proof.
  intros Ha Hn a [H|[[H1 H2]|H]]%path_through; [by eapply Ha| |done].
  apply Hn. by transitivity a.
Qed.

(** * The search *)

Lemma push_next_spec nexts seen stack seen' stack' :
  foldl push_next (seen, stack) nexts = (seen', stack') ->
  exists new, seen' = new ++ seen /\ stack' = new ++ stack /\ NoDup new /\
    (forall x, x ∈ new <-> x ∈ nexts /\ x ∉ seen).
Proof.
  revert seen stack. induction nexts as [|x nexts IH]; intros seen stack E.
  { injection E as <- <-. exists []. split; [done|]. split; [done|]. split; [constructor|]. set_solver. }
  simpl in E. case_bool_decide as Hx.
  - destruct (IH _ _ E) as (new & -> & -> & Hnd & Hnew). exists new. split_and!; [done..|].
    intros y. rewrite Hnew, elem_of_cons. split; [tauto|]. intros [[->|?] ?]; tauto.
  - destruct (IH _ _ E) as (new & -> & -> & Hnd & Hnew). exists (new ++ [x]).
    rewrite <- !app_assoc. split_and!; [done..| |].
    + apply NoDup_app. split; [done|]. split; [|apply NoDup_singleton].
      intros y Hy ->%list_elem_of_singleton. apply Hnew in Hy as [_ Hy]. apply Hy. left.
    + intros y. rewrite elem_of_app, list_elem_of_singleton, Hnew, !elem_of_cons.
      destruct (decide (y = x)) as [->|]; tauto.
Qed.

Section Search.
Context (edges : list ComponentDependency) (from to : UUID).

Definition targets : list UUID := remove_dups (dep_DependsOnID <$> edges).
Definition unseen (seen : list UUID) : list UUID := filter (fun x => x ∉ seen) targets.

(** Seen nodes are reachable; those no longer on the stack were expanded. *)
Definition searching (st : list UUID * list UUID) : Prop :=
  let '(seen, stack) := st in
  to ∈ seen /\ (forall x, x ∈ seen -> rtc (depends edges) to x) /\
  (forall x, x ∈ stack -> x ∈ seen) /\
  (forall x, x ∈ seen -> x ∉ stack -> x <> from /\ forall y, depends edges x y -> y ∈ seen).

Definition work (st : list UUID * list UUID) : Z :=
  let '(seen, stack) := st in Z.of_nat (length (unseen seen) + length stack).

Lemma unseen_drop new seen :
  NoDup new -> (forall x, x ∈ new -> x ∈ targets /\ x ∉ seen) ->
  (length (unseen (new ++ seen)) + length new <= length (unseen seen))%nat.
Proof.
  intros Hnd Hnew. rewrite <- length_app. apply submseteq_length, NoDup_submseteq.
  - apply NoDup_app. split; [by apply NoDup_filter, NoDup_remove_dups|]. split; [|done].
    intros x [Hx _]%list_elem_of_filter Hn. apply Hx, elem_of_app. by left.
  - intros x [Hx|Hx]%elem_of_app; unfold unseen in *; rewrite !list_elem_of_filter in *.
    + destruct Hx as [Hx ?]. split; [|done]. intros ?. apply Hx, elem_of_app. by right.
    + by destruct (Hnew x Hx).
Qed.

Lemma seen_all (seen : list UUID) x y :
  (forall x, x ∈ seen -> forall y, depends edges x y -> y ∈ seen) ->
  rtc (depends edges) x y -> x ∈ seen -> y ∈ seen.
Proof. intros Hc. induction 1 as [|x y z Hxy _ IH]; [done|]. intros Hx. by eapply IH, Hc. Qed.

Lemma search_round st :
  searching st ->
  match search_step edges from st with
  | inl st' => searching st' /\ 0 <= work st' < work st
  | inr b => b = true <-> rtc (depends edges) to from
  end.
Proof.
  destruct st as [seen stack]. intros (Hto & Hreach & Hstack & Hdone). unfold search_step.
  destruct stack as [|cur stack].
  { split; [done|]. intros Hr. exfalso.
    destruct (Hdone from) as [? _]; [|apply not_elem_of_nil|done].
    eapply seen_all; [|exact Hr|done]. intros x Hx. apply Hdone; [done|apply not_elem_of_nil]. }
  destruct (Z.eqb_spec cur from) as [->|Hne].
  { split; [|done]. intros _. apply Hreach, Hstack. left. }
  destruct (foldl _ _ _) as [seen' stack'] eqn:E.
  apply push_next_spec in E as (new & -> & -> & Hnd & Hnew). split; [split_and!|].
  - apply elem_of_app. by right.
  - intros x [Hx|Hx]%elem_of_app; [|by apply Hreach]. apply Hnew in Hx as [Hx _].
    apply elem_of_adj in Hx. eapply rtc_r; [|exact Hx]. apply Hreach, Hstack. left.
  - intros x. rewrite !elem_of_app. intros [?|?]; [by left|]. right. apply Hstack. by right.
  - intros x Hx Hns. rewrite elem_of_app in Hns. destruct (decide (x = cur)) as [->|Hxc].
    + split; [done|]. intros y Hy. apply elem_of_app. destruct (decide (y ∈ seen)) as [?|Hy']; [by right|].
      left. apply Hnew. split; [by apply elem_of_adj|done].
    + apply elem_of_app in Hx as [Hx|Hx]; [tauto|]. destruct (Hdone x Hx) as [Hf Hs].
      { rewrite elem_of_cons. tauto. }
      split; [done|]. intros y Hy. apply elem_of_app. right. by apply Hs.
  - assert (Hin : forall x, x ∈ new -> x ∈ targets /\ x ∉ seen).
    { intros x Hx. apply Hnew in Hx as [Hx Hn]. split; [|done]. apply elem_of_remove_dups.
      apply elem_of_adj in Hx as (e & He & _ & <-). by apply list_elem_of_fmap_2. }
    pose proof (unseen_drop new seen Hnd Hin). unfold work. rewrite length_app. simpl. lia.
Qed.

Theorem closesCycle_reaches :
  exists b, closesCycle edges from to = Returns b /\ (b = true <-> rtc (depends edges) to from).
Proof.
  destruct (loop_result searching work (fun b => b = true <-> rtc (depends edges) to from)
    (search_step edges from) (search_fuel edges) ([to], [to])) as (b & E & Hb).
  - intros st. apply search_round.
  - split_and!; [left|..]; intros x; rewrite ?list_elem_of_singleton; [by intros ->|done|].
    by intros -> [].
  - assert (length (unseen [to]) <= length edges)%nat.
    { unfold unseen. etransitivity; [apply length_filter|]. unfold targets.
      rewrite <- (length_fmap dep_DependsOnID edges). apply submseteq_length, NoDup_submseteq.
      - apply NoDup_remove_dups.
      - intros x. apply elem_of_remove_dups. }
    unfold work, search_fuel. simpl. lia.
  - exists b. unfold closesCycle. by rewrite E.
Qed.
End Search.

(** * Guarantees and evaluations on concrete trees *)

Section Deletion.
Context {G : Gorm} {GL : GormLaws G} {P : Platform} {O : ObjectStore} {X : Transactions}.
Context {XL : TransactionsLaws X}.

Lemma wp_component_guard id s :
  wp (ComponentService.guard ComponentService.wired id) (fun r s' =>
    asame s s' /\ (r = Ok tt -> ~ active_under (eq id) s) /\
    (healthy (a_runs s) -> active_under (eq id) s -> exists n, r = Err (ComponentService.still_active n))) s.
Proof.
  apply wp_try. eapply wp_mono; [apply wp_countActiveByComponent|]. intros [n|e] s' [Hs Hn].
  - apply wp_ret. split; [done|]. destruct (Z.ltb_spec 0 n); split; [done|eauto|intros _; rewrite <- Hn; lia|].
    intros _ Ha%Hn. lia.
  - split; [done|]. split; [done|]. intros ?. done.
Qed.

Lemma wp_service_guard id s :
  wp (ServiceService.guard ServiceService.wired id) (fun r s' =>
    asame s s' /\ (r = Ok tt -> ~ active_under (in_service s id) s) /\
    (healthy (a_runs s) -> active_under (in_service s id) s ->
     exists n, r = Err (ServiceService.still_active n))) s.
Proof.
  apply wp_try. eapply wp_mono; [apply wp_countActiveByService|]. intros [n|e] s' [Hs Hn].
  - apply wp_ret. split; [done|]. destruct (Z.ltb_spec 0 n); split; [done|eauto|intros _; rewrite <- Hn; lia|].
    intros _ Ha%Hn. lia.
  - split; [done|]. split; [done|]. intros ?. done.
Qed.

(** The transactions, from whatever state they start in. *)
Lemma wp_component_transaction s id :
  wp (DeleteComponentSubtree id (Some (ComponentService.guard ComponentService.wired id)))
    (fun r s' => match r with
       | Ok _ => ~ active_under (eq id) s /\ subtree_deleted (fun c => cmp_ID c =? id) s s'
       | Err _ => s' = s end) s.
Proof.
  apply (wp_DeleteComponentSubtree _ id (fun s => ~ active_under (eq id) s)).
  eapply wp_mono; [apply wp_component_guard|]. naive_solver.
Qed.

Lemma wp_service_transaction s id :
  wp (DeleteServiceSubtree id (Some (ServiceService.guard ServiceService.wired id)))
    (fun r s' => match r with
       | Ok _ => ~ active_under (in_service s id) s /\ service_deleted id s s'
       | Err _ => s' = s end) s.
Proof.
  apply (wp_DeleteServiceSubtree _ id (fun s => ~ active_under (in_service s id) s)).
  eapply wp_mono; [apply wp_service_guard|]. naive_solver.
Qed.

Lemma wp_component_Delete s id :
  wp (ComponentService.Delete ComponentService.wired id) (fun r s' =>
    match r with
    | Ok _ => ~ active_under (eq id) s /\ subtree_deleted (fun c => cmp_ID c =? id) s s'
    | Err _ => asame s s'
    end /\
    (healthy (a_runs s) -> active_under (eq id) s ->
     exists n, r = Err (ComponentService.still_active n))) s.
Proof.
  apply wp_try. eapply wp_mono; [exact (wp_component_guard id s)|]. intros [[]|e] s1 (Hs & Hf & Ha); [|by split].
  eapply wp_mono; [apply wp_component_transaction|]. intros r s' Hr.
  split; [|intros _ Hact; by destruct (Hf eq_refl)].
  destruct r as [[]|e]; [|by subst]. destruct Hr as [_ Hd]. split; [by apply Hf|]. by eapply subtree_asame.
Qed.

Lemma wp_service_Delete s id :
  wp (ServiceService.Delete ServiceService.wired id) (fun r s' =>
    match r with
    | Ok _ => ~ active_under (in_service s id) s /\ service_deleted id s s'
    | Err _ => asame s s'
    end /\
    (healthy (a_runs s) -> active_under (in_service s id) s ->
     exists n, r = Err (ServiceService.still_active n))) s.
Proof.
  apply wp_try. eapply wp_mono; [exact (wp_service_guard id s)|]. intros [[]|e] s1 (Hs & Hf & Ha); [|by split].
  eapply wp_mono; [apply wp_service_transaction|]. intros r s' Hr.
  split; [|intros _ Hact; by destruct (Hf eq_refl)].
  destruct r as [[]|e]; [|by subst]. destruct Hr as [_ Hd]. split; [by apply Hf|]. by eapply service_asame.
Qed.

(** C23: Deleting a component or a service takes its whole subtree or nothing:
    on success its pipelines, stages, task templates, environments,
    configuration and role bindings are gone, its artifacts are handed to the
    collector, and every other row, the configuration history and the runs
    included, is as it was; after an error nothing has changed.  It is refused
    while a run under it is pending, running or waiting for approval, and the
    check is repeated inside the transaction: even a run that started after
    the first check keeps the subtree. *)
Theorem deletion_whole_and_guarded s id :
  wp (ComponentService.Delete ComponentService.wired id) (fun r s' =>
    match r with
    | Ok _ => ~ active_under (eq id) s /\ subtree_deleted (fun c => cmp_ID c =? id) s s'
    | Err _ => asame s s'
    end /\
    (healthy (a_runs s) -> active_under (eq id) s ->
     exists n, r = Err (ComponentService.still_active n))) s /\
  wp (ServiceService.Delete ServiceService.wired id) (fun r s' =>
    match r with
    | Ok _ => ~ active_under (in_service s id) s /\ service_deleted id s s'
    | Err _ => asame s s'
    end /\
    (healthy (a_runs s) -> active_under (in_service s id) s ->
     exists n, r = Err (ServiceService.still_active n))) s /\
  wp (DeleteComponentSubtree id (Some (ComponentService.guard ComponentService.wired id)))
    (fun r s' => active_under (eq id) s -> (exists e, r = Err e) /\ s' = s) s /\
  wp (DeleteServiceSubtree id (Some (ServiceService.guard ServiceService.wired id)))
    (fun r s' => active_under (in_service s id) s -> (exists e, r = Err e) /\ s' = s) s.
Proof.
  split_and!; [apply wp_component_Delete|apply wp_service_Delete| |].
  - eapply wp_mono; [apply wp_component_transaction|]. intros [[]|e] s' Hr Hact; [by destruct Hr|eauto].
  - eapply wp_mono; [apply wp_service_transaction|]. intros [[]|e] s' Hr Hact; [by destruct Hr|eauto].
Qed.
End Deletion.

(** * The dependency graph *)

Section Graph.
Context {G : Gorm} {GL : GormLaws G} {P : Platform} {O : ObjectStore} {X : Transactions}.
Context {XL : TransactionsLaws X}.

(** The operations that meet the graph. *)
Inductive GraphOp : Type :=
| AddDependency (componentID dependsOnID : UUID)
| RemoveDependency (componentID dependsOnID : UUID)
| CreateComponent (c : Component)
| DeleteComponent (id : UUID)
| DeleteService (id : UUID).

Definition perform (op : GraphOp) (s : Admin) : Admin :=
  match op with
  | AddDependency a b => (DependencyService.Add a b s).2
  | RemoveDependency a b => (DependencyService.Remove a b s).2
  | CreateComponent c => (ComponentService.Create ComponentService.wired c s).2
  | DeleteComponent id => (ComponentService.Delete ComponentService.wired id s).2
  | DeleteService id => (ServiceService.Delete ServiceService.wired id s).2
  end.

Definition after (ops : list GraphOp) (s : Admin) : Admin := foldl (fun s op => perform op s) s ops.

Definition present (s : Admin) (id : UUID) : Prop :=
  exists c, c ∈ rows (a_components s) /\ cmp_ID c = id /\ cmp_DeletedAt c = None.

(** Statements on the components and on the edges succeed, and edges have ids. *)
Definition graph_ready (s : Admin) : Prop :=
  healthy (a_components s) /\ healthy (a_deps s) /\ uuid_Nil ∉ (dep_ID <$> rows (a_deps s)).

Lemma wp_get_component id (Q : Result Component -> Admin -> Prop) s :
  (forall c s', asame s s' -> Q (Ok c) s') ->
  (forall e s', asame s s' -> ~ (healthy (a_components s) /\ present s id) -> Q (Err e) s') ->
  wp (zoom a_components (Repository_GetByID id)) Q s.
Proof.
  intros HO HE. apply (wp_read_zoom a_components); [apply read_First|].
  apply wp_First; [intros c t' _ _ _ _ s' Hs; by apply HO|].
  intros e t' _ He Hn _ s' Hs. apply HE; [done|]. intros [Hh (c & Hc & <- & Hd)].
  specialize (Hn (He Hh)). apply (not_elem_of_nil c). rewrite <- Hn. apply elem_of_selected.
  simpl. rewrite Hd, Z.eqb_refl. done.
Qed.

Lemma read_exists a b : TRead (DependencyRepository.Exists a b).
Proof. apply read_try; [apply read_Count|]. intros n. apply read_ret. Qed.

Lemma wp_exists a b (t : Table ComponentDependency) :
  wp (DependencyRepository.Exists a b)
    (fun r _ => ok_or false r = true -> depends (rows t) a b) t.
Proof.
  apply wp_try, wp_Count; [|by intros]. intros t' _. apply wp_ret. simpl.
  destruct (selected _ _) as [|d l] eqn:E; [done|]. intros _. exists d.
  assert (Hd : d ∈ d :: l) by left. rewrite <- E in Hd. apply elem_of_selected in Hd as (_ & Hd & Hin).
  unfold DependencyRepository.edge in Hd. rewrite andb_true_iff, !Z.eqb_eq in Hd. tauto.
Qed.

(** An INSERT with the reason of its failure. *)
Lemma wp_Create_all {R} `{Model R} now r (Q : Result R -> Table R -> Prop) t :
  (forall r' t', inserted now (rows t) r r' -> rows t' = rows t ++ [r'] ->
     Forall (fun x => clash x r = false) (rows t) -> Q (Ok r') t') ->
  (forall e t', tsame t t' ->
     (~ healthy t \/ Exists (fun x => clash x r = true) (rows t) \/ pk r ∈ (pk <$> rows t)) -> Q (Err e) t') ->
  wp (db_Create now r) Q t.
Proof.
  intros HO HE. apply wp_run. intros res t' E. apply Create_spec in E as (Hh & Hres).
  destruct res as [r'|e]; [destruct Hres as (? & ? & ?); by apply HO|].
  destruct Hres as (? & _ & ?). by apply HE.
Qed.

Lemma rtc_iff {A} (R R' : relation A) : (forall x y, R x y <-> R' x y) -> forall x y, rtc R x y <-> rtc R' x y.
Proof. intros H x y. split; (eapply rtc_subrel; intros ? ?; apply H). Qed.

(** One attempt to add an edge: it answers, and adds the edge exactly when the
    components exist, the edge is new and no path leads back. *)
Lemma wp_Add a b s :
  wp (DependencyService.Add a b) (fun g s' => exists r, g = Returns r /\
    match r with
    | Ok d => rows (a_deps s') = rows (a_deps s) ++ [d] /\ dep_ComponentID d = a /\
              dep_DependsOnID d = b /\ ~ depends (rows (a_deps s)) a b /\
              ~ rtc (depends (rows (a_deps s))) b a
    | Err _ => asame s s' /\
        (graph_ready s -> present s a -> present s b ->
         depends (rows (a_deps s)) a b \/ rtc (depends (rows (a_deps s))) b a)
    end) s.
Proof.
  unfold DependencyService.Add. destruct (Z.eqb_spec a b) as [->|Hab].
  { apply wp_ret. eexists. split; [done|]. split; [done|]. intros _ _ _. right. apply rtc_refl. }
  apply wp_bind, wp_get_component; [intros c s1 H1|].
  2:{ intros e s1 H1 Hn. apply wp_ret. eexists. split; [done|]. split; [done|].
      intros (Hh & _) Ha. by destruct Hn. }
  apply wp_bind, wp_get_component; [intros c2 s2 H2|].
  2:{ intros e s2 H2 Hn. apply wp_ret. eexists. split; [done|]. split; [by transitivity s1|].
      intros (Hh & _) _ Hb. destruct Hn. destruct (asame_components _ _ H1) as [Er Eh].
      unfold present. rewrite Er. auto. }
  assert (H12 : asame s s2) by (by transitivity s1).
  destruct (asame_deps _ _ H12) as [Er Eh].
  apply wp_bind, (wp_read_zoom a_deps); [apply read_exists|].
  eapply wp_mono; [apply wp_exists|]. intros dup t2 Hdup s3 H3.
  assert (H13 : asame s s3) by (by transitivity s2). destruct (asame_deps _ _ H3) as [Er3 Eh3].
  destruct (ok_or false dup) eqn:Ed.
  { apply wp_ret. eexists. split; [done|]. split; [done|]. intros _ _ _. left. rewrite <- Er. by apply Hdup. }
  apply wp_bind, (wp_read_zoom a_deps); [apply read_Find|].
  apply wp_Find; intros x t' _ Hx s4 H4; (assert (H14 : asame s s4) by (by transitivity s3)).
  2:{ apply wp_ret. eexists. split; [done|]. split; [done|]. intros (_ & Hh & _). destruct Hx; auto. }
  apply query_result_nolimit in Hx as [Hx _]; [|done..].
  assert (Hrows : forall e, e ∈ x <-> e ∈ rows (a_deps s)).
  { intros e. rewrite Hx, elem_of_selected, <- Er, <- Er3. simpl. tauto. }
  assert (Hdep : forall y z, depends x y z <-> depends (rows (a_deps s)) y z).
  { intros y z. unfold depends. by setoid_rewrite Hrows. }
  destruct (closesCycle_reaches x a b) as (bb & -> & Hbb). rewrite (rtc_iff _ _ Hdep) in Hbb.
  destruct (asame_deps _ _ H14) as [Er4 Eh4].
  destruct bb.
  { apply wp_ret. eexists. split; [done|]. split; [done|]. intros _ _ _. right. by apply Hbb. }
  apply wp_bind, wp_on. eapply wp_mono.
  - apply (wp_Create_all _ _ (fun r t' => match r with
      | Ok d => rows t' = rows (a_deps s) ++ [d] /\ dep_ComponentID d = a /\ dep_DependsOnID d = b /\
                ~ depends (rows (a_deps s)) a b
      | Err _ => tsame (a_deps s4) t' /\ (graph_ready s -> depends (rows (a_deps s)) a b) end)).
    + intros r' t4 (id & _ & _ & _ & ->) Ht Hcl. rewrite Ht, Er4. rewrite Er4 in Hcl. split_and!; [done..|].
      intros (y & Hy & Ha & Hb). rewrite Forall_forall in Hcl. specialize (Hcl y Hy). simpl in Hcl.
      by rewrite Ha, Hb, !Z.eqb_refl in Hcl.
    + intros e t4 Ht Hwhy. split; [done|]. intros (_ & Hh & Hnil).
      rewrite Er4 in Hwhy. destruct Hwhy as [Hn|[Hcl|Hin]]; [by destruct Hn; auto| |done].
      apply Exists_exists in Hcl as (y & Hy & Hc). exists y. split; [done|]. simpl in Hc.
      by rewrite andb_true_iff, !Z.eqb_eq in Hc.
  - intros r t4 Hr. apply wp_ret. exists r. split; [done|]. destruct r as [d|e].
    + destruct Hr as (Ht & Ha & Hb & Hn). simpl. split_and!; [by rewrite Ht|done..|]. by intros Hp%Hbb.
    + destruct Hr as [Ht Hg]. split; [|intros HG _ _; left; by apply Hg].
      etransitivity; [exact H14|]. by apply (afield_same (proj := a_deps)).
Qed.

(** ** Over any history *)

Lemma subtree_keeps_deps scope s s' : subtree_deleted scope s s' -> rows (a_deps s') = rows (a_deps s).
Proof.
  intros (s1 & t1 & t2 & t3 & t4 & t5 & t6 & t7 & t8 & H1 & -> & _).
  exact (proj1 (asame_deps _ _ H1)).
Qed.

Lemma reads_GetOrgID id : Reads (ComponentService.GetOrgID id).
Proof.
  apply reads_bind; [|intros r; apply reads_ret]. intros s. unfold on_sub, bind, get.
  apply (reads_zoom a_trees), read_First.
Qed.

Lemma wp_bindOwner c s :
  wp (ComponentService.bindOwner ComponentService.wired c) (fun _ s' => rows (a_deps s') = rows (a_deps s)) s.
Proof.
  unfold ComponentService.bindOwner. simpl. destruct (ComponentService.owner_of c) as [[ty sub]|]; [|by apply wp_ret].
  apply wp_try, wp_reads; [reads|]. intros [r|e] s1 _ H1; [|exact (proj1 (asame_deps _ _ H1))].
  apply wp_bind, wp_reads; [apply reads_GetOrgID|]. intros o s2 _ H2. apply wp_try, wp_on, wp_run.
  intros b t _. assert (H12 : asame s s2) by (by transitivity s1). pose proof (proj1 (asame_deps _ _ H12)).
  by destruct b.
Qed.

Lemma perform_acyclic op s : acyclic (rows (a_deps s)) -> acyclic (rows (a_deps (perform op s))).
Proof.
  intros Ha. destruct op as [a b|a b|c|id|id]; simpl.
  - pose proof (wp_Add a b s) as H. unfold wp in H. destruct H as (r & _ & H). destruct r as [d|e].
    + destruct H as (-> & Hda & Hdb & _ & Hn). apply acyclic_snoc; [done|]. by rewrite Hda, Hdb.
    + destruct H as [Hs _]. by rewrite (proj1 (asame_deps _ _ Hs)).
  - assert (H : wp (DependencyService.Remove a b)
      (fun _ s' => forall e, e ∈ rows (a_deps s') -> e ∈ rows (a_deps s)) s).
    { apply wp_try, wp_on, wp_Delete; [|intros e t' [Ht _] _; simpl; by rewrite Ht].
      intros t' _ Ht. apply wp_ret. simpl. rewrite Ht. unfold delete_rows.
      intros e (x & Hx & Ee)%list_elem_of_omap. destruct (_ && _); [done|]. by injection Ee as ->. }
    eapply acyclic_mono; [exact H|done].
  - assert (H : wp (ComponentService.Create ComponentService.wired c)
      (fun _ s' => rows (a_deps s') = rows (a_deps s)) s).
    { apply wp_try, wp_on, wp_run. intros [c'|e] t _; [|done]. apply wp_bind.
      eapply wp_mono; [apply wp_bindOwner|]. intros r s' Hs. by apply wp_ret. }
    unfold wp in H. by rewrite H.
  - pose proof (wp_component_Delete s id) as H. unfold wp in H. destruct H as [H _].
    destruct (ComponentService.Delete _ _ _).1.
    + destruct H as [_ H%subtree_keeps_deps]. by rewrite H.
    + by rewrite (proj1 (asame_deps _ _ H)).
  - pose proof (wp_service_Delete s id) as H. unfold wp in H. destruct H as [H _].
    destruct (ServiceService.Delete _ _ _).1.
    + destruct H as [_ (s1 & t & H%subtree_keeps_deps & -> & _)]. simpl. by rewrite H.
    + by rewrite (proj1 (asame_deps _ _ H)).
Qed.

(** C24: The dependency graph of the components is acyclic and stays so through
    any sequence of operations that meet it.  Adding an edge always answers
    (the search for a cycle ends), and when the statements succeed it adds the
    edge exactly if it is new and no path leads back from its target. *)
Theorem dependency_graph_acyclic ops s a b :
  acyclic (rows (a_deps s)) ->
  acyclic (rows (a_deps (after ops s))) /\
  exists r s', DependencyService.Add a b s = (Returns r, s') /\
    match r with
    | Ok d => rows (a_deps s') = rows (a_deps s) ++ [d] /\ dep_ComponentID d = a /\ dep_DependsOnID d = b
    | Err _ => asame s s'
    end /\
    (graph_ready s -> present s a -> present s b ->
     is_ok r = true <->
     ~ depends (rows (a_deps s)) a b /\ ~ rtc (depends (rows (a_deps s))) b a).
Proof.
  intros Ha. split.
  { revert s Ha. induction ops as [|op ops IH]; intros s Ha; [done|]. simpl. by apply IH, perform_acyclic. }
  pose proof (wp_Add a b s) as H. unfold wp in H. destruct (DependencyService.Add a b s) as [g s'].
  destruct H as (r & Hg & H). simpl in Hg, H. subst g. exists r, s'. split; [done|]. destruct r as [d|e]; simpl.
  - destruct H as (? & ? & ? & ? & ?). done.
  - destruct H as [? H]. split; [done|]. intros HG Hpa Hpb. split; [done|].
    intros [? ?]. by destruct (H HG Hpa Hpb).
Qed.
End Graph.

(** * On the demo hub *)

(** The running hub refuses to give up component 7; once its run has ended the
    component goes with its subtree, and component 8 keeps its rows. *)
Lemma deletion_whole_and_guarded_witness :
  let delete := ComponentService.Delete ComponentService.wired 7 in
  (delete demo_admin).1 = Err (ComponentService.still_active 1) /\
  asame demo_admin (delete demo_admin).2 /\
  (delete idle_admin).1 = Ok tt /\ ~ active_under (eq 7) idle_admin /\
  subtree_deleted (fun c => cmp_ID c =? 7) idle_admin (delete idle_admin).2 /\
  cfg_ComponentID <$> rows (a_configs (delete idle_admin).2) = [8].
Proof.
  destruct (deletion_whole_and_guarded demo_admin 7) as ([H1 _] & _).
  destruct (deletion_whole_and_guarded idle_admin 7) as ([H2 _] & _).
  assert (E1 : (ComponentService.Delete ComponentService.wired 7 demo_admin).1 =
    Err (ComponentService.still_active 1)) by (vm_compute; reflexivity).
  assert (E2 : (ComponentService.Delete ComponentService.wired 7 idle_admin).1 = Ok tt)
    by (vm_compute; reflexivity).
  rewrite E1 in H1. rewrite E2 in H2. destruct H2 as [H2 H2'].
  split; [exact E1|]. split; [exact H1|]. split; [exact E2|]. split; [exact H2|]. split; [exact H2'|].
  vm_compute. reflexivity.
Defined.

(** Component 7 depends on 8: the edge back is refused. *)
Definition linked_admin : Admin := after [AddDependency 7 8] demo_admin.

Lemma dependency_graph_acyclic_witness :
  acyclic (rows (a_deps (after [AddDependency 8 7; RemoveDependency 7 8; AddDependency 8 7] linked_admin))) /\
  exists e s', DependencyService.Add 8 7 linked_admin = (Returns (Err e), s') /\ asame linked_admin s'.
Proof.
  assert (H0 : acyclic (rows (a_deps demo_admin))).
  { intros x Hx. inversion Hx as [? ? (e & He & _)|? ? ? (e & He & _)]; exact (not_elem_of_nil e He). }
  destruct (dependency_graph_acyclic [AddDependency 7 8] demo_admin 7 8 H0) as [H1 _].
  destruct (dependency_graph_acyclic [AddDependency 8 7; RemoveDependency 7 8; AddDependency 8 7]
    linked_admin 8 7 H1) as [H2 (r & s' & E & Hr & _)].
  split; [exact H2|]. destruct r as [d|e].
  - exfalso. assert (Eb : is_ok (match (DependencyService.Add 8 7 linked_admin).1 with
      | Returns r => r | _ => Err ErrRecordNotFound end) = false) by (vm_compute; reflexivity).
    rewrite E in Eb. discriminate.
  - exists e, s'. split; [exact E|exact Hr].
Defined.
