(* ===== verification/ArtifactProperties.v ===== *)
(** What one pass of the artifact collector does, what the collector guarantees and achieves, and what the
    reconciliation reports ([internal/artifact/service]). *)
From stdpp Require Import base list strings gmap sorting.
From Stdlib Require Import ZArith Lia.
From S2P Require Import Prelude Common Gorm Json GoLib RunnerProto RunStore PipelineStore TargetStore.
From S2P Require Import EditStore OrgStore SiteStore PermStore RateLimit World Admin.
From S2P Require Import WorldLogic Frames AdminLogic Catalog CascadeTheory CatalogProperties.
From S2P Require Import Artifacts Instances.

Open Scope Z_scope.

Notation expired := ArtifactRepository.expired.

(** * The fate of the rows *)

Definition mark_pending (a : Artifact) : Artifact := a <| art_CleanupState := CleanupStatePendingDeletion |>.

(** Rows named in [gone] are dropped, those in [kept] marked. *)
Definition settle (gone kept : list UUID) (l : list Artifact) : list Artifact :=
  omap (fun a => if decide (art_ID a ∈ gone) then None
                 else Some (if decide (art_ID a ∈ kept) then mark_pending a else a)) l.

Lemma settle_none l : settle [] [] l = l.
Proof. unfold settle. induction l as [|a l IH]; [done|]. simpl. f_equal. exact IH. Qed.

Lemma settle_delete now id gone kept l :
  delete_rows now (fun a => pk a =? id) (settle gone kept l) = settle (id :: gone) kept l.
Proof.
  unfold delete_rows, settle. induction l as [|a l IH]; [done|]. simpl.
  destruct (decide (art_ID a ∈ gone)) as [Hg|Hg].
  { rewrite (decide_True (P := art_ID a ∈ id :: gone)) by (by right). exact IH. }
  simpl. assert (Hid : art_ID (if decide (art_ID a ∈ kept) then mark_pending a else a) = art_ID a)
    by by case_decide. rewrite Hid. destruct (Z.eqb_spec (art_ID a) id) as [->|Hne].
  - rewrite (decide_True (P := id ∈ id :: gone)) by left. exact IH.
  - rewrite (decide_False (P := art_ID a ∈ id :: gone)) by (rewrite elem_of_cons; tauto).
    f_equal. exact IH.
Qed.

Lemma settle_mark now id gone kept l :
  update_rows now (fun a => art_ID a =? id) mark_pending (settle gone kept l) = settle gone (id :: kept) l.
Proof.
  unfold update_rows, settle. induction l as [|a l IH]; [done|]. simpl.
  destruct (decide (art_ID a ∈ gone)) as [Hg|Hg]; [exact IH|]. simpl. f_equal; [|exact IH].
  destruct (decide (art_ID a ∈ kept)) as [Hk|Hk]; simpl.
  - rewrite (decide_True (P := art_ID a ∈ id :: kept)) by (by right). by destruct (_ =? _).
  - destruct (Z.eqb_spec (art_ID a) id) as [->|Hne].
    + by rewrite (decide_True (P := id ∈ id :: kept)) by left.
    + by rewrite (decide_False (P := art_ID a ∈ id :: kept)) by (rewrite elem_of_cons; tauto).
Qed.

Lemma elem_of_settle gone kept l a :
  a ∈ settle gone kept l <->
  exists x, x ∈ l /\ art_ID x ∉ gone /\ a = if decide (art_ID x ∈ kept) then mark_pending x else x.
Proof.
  unfold settle. rewrite list_elem_of_omap. split.
  - intros (x & Hx & E). exists x. case_decide; [done|]. by injection E as <-.
  - intros (x & Hx & Hg & ->). exists x. split; [done|]. by rewrite decide_False.
Qed.

Lemma wp_and_l {S A} (m : M S A) (Q1 Q2 : A -> S -> Prop) s :
  wp m Q1 s -> wp m Q2 s -> wp m (fun a s' => Q1 a s' /\ Q2 a s') s.
Proof. done. Qed.

Section Pass.
Context {G : Gorm} {GL : GormLaws G} {P : Platform} {O : ObjectStore}.

(** The answers of the object store to the deletions of a pass, in order. *)
Fixpoint deletions (store : bool) (keys : list string) (b : Bucket) : list bool * Bucket :=
  match keys with
  | [] => ([], b)
  | k :: keys' =>
      let '(r, b1) := if store then store_Delete k b else (None, b) in
      let '(outs, b2) := deletions store keys' b1 in
      (match r with None => true | Some _ => false end :: outs, b2)
  end.

Lemma deletions_length store keys b : length (deletions store keys b).1 = length keys.
Proof.
  revert b. induction keys as [|k keys IH]; intros b; [done|]. simpl.
  destruct (if store then _ else _) as [r b1]. specialize (IH b1).
  destruct (deletions store keys b1) as [outs b2]. simpl in *. by rewrite IH.
Qed.

(** The ids of the rows whose object was (not) removed. *)
Definition ids_with (o : bool) (l : list Artifact) (outs : list bool) : list UUID :=
  (fun ao => art_ID ao.1) <$> filter (fun ao => ao.2 = o) (zip l outs).

(** [s] with another artifact table and another bucket. *)
Definition gc_state (s : Admin) (t : Table Artifact) (b : Bucket) : Admin :=
  s <| a_artifacts := t |> <| a_bucket := b |>.

Lemma ids_with_cons o a l out outs :
  ids_with o (a :: l) (out :: outs) = if decide (out = o) then art_ID a :: ids_with o l outs else ids_with o l outs.
Proof. unfold ids_with. simpl. rewrite filter_cons. simpl. by case_decide. Qed.

(** What a pass over [l] did to the rows [R]: rows are only dropped when the
    store had removed their object, only marked when it had refused; on a
    healthy table all of them are, and the report counts them. *)
Definition collected (store : bool) (l : list Artifact) (gone0 kept0 : list UUID) (R : list Artifact)
    (rep0 rep : ArtifactGC.GCReport) (s s' : Admin) : Prop :=
  exists gone kept t',
    let '(outs, b') := deletions store (art_StorageKey <$> l) (a_bucket s) in
    s' = gc_state s t' b' /\ (healthy (a_artifacts s) -> healthy t') /\
    rows t' = settle (gone ++ gone0) (kept ++ kept0) R /\
    gone ⊆ ids_with true l outs /\ kept ⊆ ids_with false l outs /\
    (healthy (a_artifacts s) ->
       gone ≡ₚ ids_with true l outs /\ kept ≡ₚ ids_with false l outs /\
       ArtifactGC.rep_Deleted rep = ArtifactGC.rep_Deleted rep0 + Z.of_nat (length gone) /\
       ArtifactGC.rep_ObjectsFailed rep = ArtifactGC.rep_ObjectsFailed rep0 + Z.of_nat (length kept) /\
       ArtifactGC.rep_RowsFailed rep = ArtifactGC.rep_RowsFailed rep0).

Lemma collected_nil store gone0 kept0 R rep s :
  rows (a_artifacts s) = settle gone0 kept0 R -> collected store [] gone0 kept0 R rep rep s s.
Proof.
  intros HR. exists [], [], (a_artifacts s). simpl. split; [by destruct s|]. split_and!; try done.
  intros _. split_and!; try done; simpl; lia.
Qed.

(** The pass goes on from the state its first row leaves. *)
Lemma collected_cons (store : bool) a l gone0 kept0 R rep0 rep1 rep (s s1 s' : Admin) :
  let '(r, b1) := if store then store_Delete (art_StorageKey a) (a_bucket s) else (None, a_bucket s) in
  let out := match r with None => true | Some _ => false end in
  (exists t1 g1 k1, s1 = gc_state s t1 b1 /\ (healthy (a_artifacts s) -> healthy t1) /\
     g1 ⊆ (if out then [art_ID a] else []) /\ k1 ⊆ (if out then [] else [art_ID a]) /\
     (healthy (a_artifacts s) -> g1 = (if out then [art_ID a] else []) /\ k1 = (if out then [] else [art_ID a]) /\
       ArtifactGC.rep_Deleted rep1 = ArtifactGC.rep_Deleted rep0 + Z.of_nat (length g1) /\
       ArtifactGC.rep_ObjectsFailed rep1 = ArtifactGC.rep_ObjectsFailed rep0 + Z.of_nat (length k1) /\
       ArtifactGC.rep_RowsFailed rep1 = ArtifactGC.rep_RowsFailed rep0) /\
     collected store l (g1 ++ gone0) (k1 ++ kept0) R rep1 rep s1 s') ->
  collected store (a :: l) gone0 kept0 R rep0 rep s s'.
Proof.
  destruct (if store then store_Delete (art_StorageKey a) (a_bucket s) else (None, a_bucket s))
    as [r b1] eqn:Ed.
  cbv zeta. intros (t1 & g1 & k1 & -> & Hh1 & Hg1 & Hk1 & Hall1 & (gone & kept & t' & H)).
  simpl in H. exists (gone ++ g1), (kept ++ k1), t'. rewrite fmap_cons. simpl. rewrite Ed.
  destruct (deletions store (art_StorageKey <$> l) b1) as [outs b2].
  destruct H as (-> & Hh & HR & Hg & Hk & Hall). rewrite <- !app_assoc, !ids_with_cons.
  assert (Hsub : forall (x g : list UUID) o id,
    x ⊆ ids_with o l outs -> g ⊆ (if decide ((match r with None => true | Some _ => false end) = o) then [id] else []) ->
    x ++ g ⊆ (if decide ((match r with None => true | Some _ => false end) = o) then id :: ids_with o l outs
              else ids_with o l outs)).
  { intros x g o id Hx Hg' y [Hy|Hy]%elem_of_app.
    - apply Hx in Hy. case_decide; [by right|done].
    - apply Hg' in Hy. case_decide; [|by apply not_elem_of_nil in Hy].
      apply list_elem_of_singleton in Hy as ->. left. }
  split; [done|]. split; [auto|]. split; [done|].
  split; [apply Hsub; [done|]; by destruct r|]. split; [apply Hsub; [done|]; by destruct r|].
  intros Hhs. destruct (Hall1 Hhs) as (-> & -> & HD1 & HO1 & HR1).
  destruct (Hall (Hh1 Hhs)) as (Pg & Pk & HD & HO & HRf). rewrite !length_app.
  split_and!; [rewrite Pg|rewrite Pk|lia|lia|congruence];
    destruct r; simpl; rewrite ?app_nil_r; try done; by rewrite Permutation_app_comm.
Qed.

Lemma wp_collect_rows g l gone0 kept0 R rep s :
  rows (a_artifacts s) = settle gone0 kept0 R ->
  wp (ArtifactGC.collect_rows g rep l)
    (fun rep' s' => collected (ArtifactGC.gc_store g) l gone0 kept0 R rep rep' s s') s.
Proof.
  revert gone0 kept0 rep s. induction l as [|a l IH]; intros gone0 kept0 rep s HR.
  { apply wp_ret. by apply collected_nil. }
  simpl. apply wp_bind. unfold ArtifactGC.collect_row, ArtifactGC.delete_object. apply wp_bind.
  pose proof (fun rep1 rep' s1 s' =>
    collected_cons (ArtifactGC.gc_store g) a l gone0 kept0 R rep rep1 rep' s s1 s') as Hcons.
  assert (Hd : wp (if ArtifactGC.gc_store g then zoom a_bucket (store_Delete (art_StorageKey a)) else ret None)
    (fun r s1 => (if ArtifactGC.gc_store g then store_Delete (art_StorageKey a) (a_bucket s)
                  else (None, a_bucket s)) = (r, a_bucket s1) /\
                 s1 = gc_state s (a_artifacts s) (a_bucket s1)) s).
  { destruct (ArtifactGC.gc_store g); [|apply wp_ret; by destruct s].
    apply (wp_zoom a_bucket), wp_run. intros r b E. simpl. by destruct s. }
  eapply wp_mono; [exact Hd|]. clear Hd. intros r s1 [Ed E1]. rewrite Ed in Hcons. cbv zeta in Hcons.
  set (b1 := a_bucket s1) in *. clearbody b1. subst s1. destruct r as [e|].
  - apply wp_bind, wp_on, wp_Updates.
    + intros t' Hh Ht. apply wp_ret. eapply wp_mono; [apply (IH gone0 (art_ID a :: kept0))|].
      { simpl. rewrite Ht. simpl. rewrite HR. apply settle_mark. }
      intros rep' s' Hc. eapply Hcons. exists t', [], [art_ID a]. split; [done|]. split; [exact Hh|].
      split; [done|]. split; [done|]. split; [|exact Hc]. intros _. split_and!; try done;
        unfold ArtifactGC.object_failed; destruct (_ <? _); simpl; lia.
    + intros e' t' [Ht Hh] Hn. apply wp_ret. eapply wp_mono; [apply (IH gone0 kept0)|].
      { simpl. rewrite Ht. exact HR. }
      intros rep' s' Hc. eapply Hcons. exists t', [], []. split; [done|]. split; [exact Hh|].
      split; [done|]. split; [by apply list_subseteq_nil|]. split; [by intros ?|exact Hc].
  - apply wp_bind, wp_on, wp_Delete.
    + intros t' Hh Ht. apply wp_ret. eapply wp_mono; [apply (IH (art_ID a :: gone0) kept0)|].
      { simpl. rewrite Ht. simpl. rewrite HR. apply settle_delete. }
      intros rep' s' Hc. eapply Hcons. exists t', [art_ID a], []. split; [done|]. split; [exact Hh|].
      split; [done|]. split; [done|]. split; [|exact Hc]. intros _. split_and!; simpl; try done; lia.
    + intros e' t' [Ht Hh] Hn. apply wp_ret. eapply wp_mono; [apply (IH gone0 kept0)|].
      { simpl. rewrite Ht. exact HR. }
      intros rep' s' Hc. eapply Hcons. exists t', [], []. split; [done|]. split; [exact Hh|].
      split; [by apply list_subseteq_nil|]. split; [done|]. split; [by intros ?|exact Hc].
Qed.

(** ** The whole pass *)

Definition first_report (g : ArtifactGC.Config) (now : Time) (l : list Artifact) : ArtifactGC.GCReport :=
  ArtifactGC.mkGCReport now (ArtifactGC.gc_batch g) (Z.of_nat (length l)) 0 0 0 [].

Lemma wp_RunOnce g now s :
  wp (ArtifactGC.RunOnce g now) (fun r s' =>
    match r with
    | Ok rep => exists l,
        query_result (ArtifactRepository.expiredQuery now (ArtifactGC.gc_batch g)) (rows (a_artifacts s)) l /\
        ArtifactGC.rep_Scanned rep = Z.of_nat (length l) /\
        collected (ArtifactGC.gc_store g) l [] [] (rows (a_artifacts s)) (first_report g now l) rep s s'
    | Err _ => asame s s' /\ ~ healthy (a_artifacts s)
    end) s.
Proof.
  unfold ArtifactGC.RunOnce. apply wp_try, (wp_zoom a_artifacts), wp_Find.
  2:{ intros e t' Ht Hn. split; [|done]. by apply (afield_same (proj := a_artifacts)). }
  intros l t' [Ht Hh] Hq. apply wp_bind. fold (first_report g now l).
  assert (Hsc : wp (ArtifactGC.collect_rows g (first_report g now l) l)
    (fun rep _ => ArtifactGC.rep_Scanned rep = Z.of_nat (length l)) (set_field a_artifacts (fun _ => t') s)).
  { assert (Hgen : forall l' rep s1, wp (ArtifactGC.collect_rows g rep l')
      (fun rep' _ => ArtifactGC.rep_Scanned rep' = ArtifactGC.rep_Scanned rep) s1).
    { induction l' as [|a l' IH]; intros rep s1; [by apply wp_ret|]. simpl. apply wp_bind.
      assert (Hrow : wp (ArtifactGC.collect_row g rep a)
        (fun rep' _ => ArtifactGC.rep_Scanned rep' = ArtifactGC.rep_Scanned rep) s1).
      { apply wp_bind, wp_run. intros [e|] s2 _; apply wp_bind, wp_run; intros r s3 _; apply wp_ret.
        - unfold ArtifactGC.object_failed. by destruct (_ <? _).
        - by destruct r. }
      eapply wp_mono; [exact Hrow|]. intros rep' s2 Hrep. eapply wp_mono; [apply IH|].
      intros rep2 s3 ->. exact Hrep. }
    apply (Hgen l (first_report g now l)). }
  eapply wp_mono; [eapply wp_and_l; [exact Hsc|apply (wp_collect_rows g l [] [] (rows (a_artifacts s)))]|].
  { simpl. by rewrite settle_none. }
  intros rep s' [Hsc' Hc]. apply wp_ret. exists l. split; [exact Hq|]. split; [exact Hsc'|].
  destruct Hc as (gone & kept & t2 & Hc). exists gone, kept, t2. simpl in Hc.
  destruct (deletions _ _ _) as [outs b']. destruct Hc as (-> & Hh2 & HR & Hg & Hk & Hall).
  split; [done|]. split; [auto|]. split; [exact HR|]. split; [exact Hg|]. split; [exact Hk|]. auto.
Qed.

(** On a healthy table: exactly the refused rows stay, marked. *)
Lemma tick_rows g now s :
  healthy (a_artifacts s) ->
  let s' := (ArtifactGC.collectOnce g now s).2 in
  exists l outs b',
    query_result (ArtifactRepository.expiredQuery now (ArtifactGC.gc_batch g)) (rows (a_artifacts s)) l /\
    deletions (ArtifactGC.gc_store g) (art_StorageKey <$> l) (a_bucket s) = (outs, b') /\
    healthy (a_artifacts s') /\
    exists gone kept, gone ≡ₚ ids_with true l outs /\ kept ≡ₚ ids_with false l outs /\
      rows (a_artifacts s') = settle gone kept (rows (a_artifacts s)).
Proof.
  intros Hh. pose proof (wp_RunOnce g now s) as H. unfold wp in H. unfold ArtifactGC.collectOnce, bind.
  destruct (ArtifactGC.RunOnce g now s) as [[rep|e] s']; simpl in *; [|by destruct H].
  destruct H as (l & Hq & _ & gone & kept & t' & H).
  destruct (deletions _ _ _) as [outs b'] eqn:Ed. destruct H as (-> & Hh' & HR & _ & _ & Hall).
  rewrite !app_nil_r in HR. exists l, outs, b'. split; [exact Hq|]. split; [done|]. split; [by apply Hh'|].
  exists gone, kept. destruct (Hall Hh) as (Hg & Hk & _). done.
Qed.

Definition ticks (g : ArtifactGC.Config) (times : list Time) (s : Admin) : Admin :=
  foldl (fun s now => (ArtifactGC.collectOnce g now s).2) s times.
End Pass.

(** * Batches, oldest first *)

Definition expiry (a : Artifact) : Z := default 0 (art_ExpiresAt a).

Lemma expired_alt now a : expired now a = true <-> exists t, art_ExpiresAt a = Some t /\ t < now.
Proof.
  unfold expired. destruct (art_ExpiresAt a) as [t|]; [rewrite Z.ltb_lt|]; naive_solver.
Qed.

Lemma expired_later T now a : T <= now -> expired T a = true -> expired now a = true.
Proof. rewrite !expired_alt. intros ? (t & ? & ?). exists t. split; [done|lia]. Qed.

Lemma by_expiry a b : by_keys [expiry] a b -> expiry a <= expiry b.
Proof. unfold by_keys. simpl. rewrite orb_true_iff, andb_true_iff, Z.ltb_lt, Z.eqb_eq. lia. Qed.

Lemma filter_empty_list {A} (Q : A -> Prop) `{!forall x, Decision (Q x)} (l : list A) :
  (forall x, x ∈ l -> ~ Q x) -> filter Q l = [].
Proof.
  intros Hn. induction l as [|x l IH]; [done|]. rewrite filter_cons_False by (apply Hn; left).
  apply IH. intros y Hy. apply Hn. by right.
Qed.

Lemma filter_full_list {A} (Q : A -> Prop) `{!forall x, Decision (Q x)} (l : list A) :
  (forall x, x ∈ l -> Q x) -> filter Q l = l.
Proof.
  intros Hq. induction l as [|x l IH]; [done|]. rewrite filter_cons_True by (apply Hq; left).
  f_equal. apply IH. intros y Hy. apply Hq. by right.
Qed.

(** In a list sorted by expiry the rows expired at [T] come first. *)
Lemma sorted_prefix T (l : list Artifact) :
  Sorted (by_keys [expiry]) l -> Forall (fun a => is_Some (art_ExpiresAt a)) l ->
  l = filter (fun a => expired T a = true) l ++ filter (fun a => expired T a = false) l.
Proof.
  intros Hs%(Sorted_StronglySorted _) Hf. induction Hs as [|a l Hs IH Ha]; [done|].
  apply Forall_cons in Hf as [[t Ht] Hf]. specialize (IH Hf).
  rewrite !filter_cons. destruct (expired T a) eqn:E; simpl.
  - f_equal. exact IH.
  - assert (Hnone : filter (fun a => expired T a = true) l = []).
    { apply filter_empty_list. intros b Hb Eb. rewrite Forall_forall in Ha.
      specialize (Ha b Hb). apply by_expiry in Ha. apply expired_alt in Eb as (tb & Etb & Hlt).
      unfold expiry in Ha. rewrite Ht, Etb in Ha. simpl in Ha. unfold expired in E. rewrite Ht in E.
      apply Z.ltb_ge in E. lia. }
    rewrite Hnone in *. simpl. f_equal. exact IH.
Qed.

(** Of the rows expired at [T], a batch holds as many as it can. *)
Lemma batch_share T n (l : list Artifact) :
  Sorted (by_keys [expiry]) l -> Forall (fun a => is_Some (art_ExpiresAt a)) l ->
  length (filter (fun a => expired T a = true) (drop n l)) =
  (length (filter (fun a => expired T a = true) l) - n)%nat.
Proof.
  intros Hs Hf. set (E := filter (fun a => expired T a = true) l).
  set (L := filter (fun a => expired T a = false) l).
  assert (El : l = E ++ L) by (by apply sorted_prefix). rewrite El, drop_app, filter_app, length_app.
  rewrite (filter_empty_list _ (drop (n - length E) L)).
  2:{ intros x Hx Ex. apply (subseteq_drop (n - length E)) in Hx. apply list_elem_of_filter in Hx as [Hx _]. congruence. }
  assert (Hd : filter (fun a => expired T a = true) (drop n E) = drop n E).
  { apply filter_full_list. intros x Hx. apply (subseteq_drop n) in Hx. by apply list_elem_of_filter in Hx as [? _]. }
  rewrite Hd, length_drop. simpl. lia.
Qed.

(** * One tick *)

Section Collection.
Context {G : Gorm} {GL : GormLaws G} {P : Platform} {O : ObjectStore}.

(** The store never refuses a deletion, or there is none. *)
Definition accepting (g : ArtifactGC.Config) : Prop :=
  ArtifactGC.gc_store g = true -> forall k b, (store_Delete k b).1 = None.

Lemma deletions_accepted g keys b :
  accepting g -> (deletions (ArtifactGC.gc_store g) keys b).1 = replicate (length keys) true.
Proof.
  intros Ha. revert b. induction keys as [|k keys IH]; intros b; [done|]. simpl.
  destruct (if ArtifactGC.gc_store g then store_Delete k b else (None, b)) as [r b1] eqn:E.
  assert (r = None) as ->.
  { unfold accepting in Ha. destruct (ArtifactGC.gc_store g); [|by injection E as <-].
    specialize (Ha eq_refl k b). by rewrite E in Ha. }
  specialize (IH b1). destruct (deletions _ keys b1) as [outs b2]. simpl in *. by rewrite IH.
Qed.

Lemma ids_with_all o (l : list Artifact) :
  ids_with o l (replicate (length l) true) = if decide (true = o) then art_ID <$> l else [].
Proof.
  induction l as [|a l IH]; simpl; [by case_decide|]. rewrite ids_with_cons, IH. by case_decide.
Qed.

Lemma settle_app gone kept l1 l2 : settle gone kept (l1 ++ l2) = settle gone kept l1 ++ settle gone kept l2.
Proof. apply omap_app. Qed.

Lemma settle_all gone l : (forall a, a ∈ l -> art_ID a ∈ gone) -> settle gone [] l = [].
Proof.
  unfold settle. induction l as [|a l IH]; intros Hl; [done|]. simpl.
  rewrite decide_True by (apply Hl; left). apply IH. intros b Hb. apply Hl. by right.
Qed.

Lemma settle_others gone l : (forall a, a ∈ l -> art_ID a ∉ gone) -> settle gone [] l = l.
Proof.
  unfold settle. induction l as [|a l IH]; intros Hl; [done|]. simpl.
  rewrite decide_False by (apply Hl; left). f_equal. apply IH. intros b Hb. apply Hl. by right.
Qed.

Lemma selected_split (p : Artifact -> bool) (l : list Artifact) :
  l ≡ₚ selected p l ++ filter (fun a => p a = false) l.
Proof.
  unfold selected. induction l as [|a l IH]; [done|]. rewrite !filter_cons. simpl.
  destruct (p a) eqn:E; simpl.
  - by f_equiv.
  - rewrite <- Permutation_middle. by f_equiv.
Qed.

(** The oldest expired rows go, as many as the batch holds. *)
Lemma tick_accepted g now s :
  healthy (a_artifacts s) -> NoDup (art_ID <$> rows (a_artifacts s)) -> accepting g -> 0 < ArtifactGC.gc_batch g ->
  let s' := (ArtifactGC.collectOnce g now s).2 in
  exists l', l' ≡ₚ selected (expired now) (rows (a_artifacts s)) /\ Sorted (by_keys [expiry]) l' /\
    healthy (a_artifacts s') /\
    rows (a_artifacts s') ≡ₚ drop (Z.to_nat (ArtifactGC.gc_batch g)) l' ++
      filter (fun a => expired now a = false) (rows (a_artifacts s)).
Proof.
  intros Hh Hnd Ha Hb s'. destruct (tick_rows g now s Hh) as (l & outs & b' & Hq & Ed & Hh' & gone & kept & Hg & Hk & HR).
  fold s' in Hh', HR. pose proof (deletions_accepted g (art_StorageKey <$> l) (a_bucket s) Ha) as Ho.
  rewrite Ed in Ho. simpl in Ho. rewrite length_fmap in Ho. subst outs. rewrite ids_with_all in Hg, Hk.
  rewrite decide_True in Hg by done. rewrite decide_False in Hk by done. apply Permutation_nil_r in Hk as ->.
  destruct Hq as (l' & Hp & Hs & Hl). unfold limit_rows, ArtifactRepository.expiredQuery, LimitQ in *.
  replace (0 <? ArtifactGC.gc_batch g) with true in * by (symmetry; by apply Z.ltb_lt). simpl in *.
  rewrite drop_0 in Hl. set (n := Z.to_nat (ArtifactGC.gc_batch g)) in *. exists l'.
  split; [exact Hp|]. split; [exact Hs|]. split; [exact Hh'|]. rewrite HR.
  set (rest := drop n l' ++ filter (fun a => expired now a = false) (rows (a_artifacts s))).
  assert (Hrows : rows (a_artifacts s) ≡ₚ l ++ rest).
  { rewrite (selected_split (expired now) (rows (a_artifacts s))), <- Hp. subst rest l.
    by rewrite app_assoc, take_drop. }
  assert (Hsettle : settle gone [] (rows (a_artifacts s)) ≡ₚ settle gone [] (l ++ rest)) by (unfold settle; by rewrite Hrows).
  rewrite Hsettle, settle_app, settle_all, settle_others; [done| |].
  - intros a Hin Hga. rewrite Hg in Hga. rewrite Hrows, fmap_app in Hnd.
    apply NoDup_app in Hnd as (_ & Hdis & _). apply (Hdis _ Hga). by apply list_elem_of_fmap_2.
  - intros a Hin. rewrite Hg. by apply list_elem_of_fmap_2.
Qed.

Lemma tick_state g now s :
  healthy (a_artifacts s) -> NoDup (art_ID <$> rows (a_artifacts s)) -> accepting g -> 0 < ArtifactGC.gc_batch g ->
  let s' := (ArtifactGC.collectOnce g now s).2 in
  healthy (a_artifacts s') /\ NoDup (art_ID <$> rows (a_artifacts s')) /\
  (forall a, a ∈ rows (a_artifacts s) -> expired now a = false -> a ∈ rows (a_artifacts s')) /\
  (forall a, a ∈ rows (a_artifacts s') -> a ∈ rows (a_artifacts s)) /\
  (forall T, T <= now ->
     length (filter (fun a => expired T a = true) (rows (a_artifacts s'))) =
     (length (filter (fun a => expired T a = true) (rows (a_artifacts s))) - Z.to_nat (ArtifactGC.gc_batch g))%nat).
Proof.
  intros Hh Hnd Ha Hb s'. destruct (tick_accepted g now s Hh Hnd Ha Hb) as (l' & Hp & Hs & Hh' & HR).
  fold s' in Hh', HR. split; [exact Hh'|].
  assert (Hall : rows (a_artifacts s) ≡ₚ l' ++ filter (fun a => expired now a = false) (rows (a_artifacts s)))
    by (rewrite Hp; apply selected_split).
  split_and!.
  - rewrite HR. rewrite Hall in Hnd. rewrite fmap_app in *. apply NoDup_app in Hnd as (H1 & H2 & H3).
    apply NoDup_app. split.
    { rewrite <- (take_drop (Z.to_nat (ArtifactGC.gc_batch g)) l'), fmap_app in H1.
      by apply NoDup_app in H1 as (_ & _ & ?). }
    split; [|done].
    intros x Hx. apply H2. rewrite fmap_drop in Hx. by apply (subseteq_drop _ _ _ Hx).
  - intros a Hin Hna. rewrite HR. apply elem_of_app. right. by apply list_elem_of_filter.
  - intros a Hin. rewrite HR in Hin. rewrite Hall. apply elem_of_app in Hin as [Hin|Hin]; apply elem_of_app.
    + left. by apply (subseteq_drop _ _ _ Hin).
    + by right.
  - intros T HT. set (E := fun a => expired T a = true).
    assert (Hno : filter E (filter (fun a => expired now a = false) (rows (a_artifacts s))) = []).
    { apply filter_empty_list. intros a [Hf _]%list_elem_of_filter Ht%(expired_later T now); [congruence|done]. }
    assert (Hlen : forall l1 l2, l1 ≡ₚ l2 -> length (filter E l1) = length (filter E l2)) by (by intros ?? ->).
    rewrite (Hlen _ _ HR), (Hlen _ _ Hall), !filter_app, !length_app, Hno. simpl.
    rewrite !Nat.add_0_r. apply batch_share; [done|]. apply Forall_forall. intros a Hin.
    rewrite Hp in Hin. apply elem_of_selected in Hin as (_ & He & _).
    apply expired_alt in He as (t & -> & _). eauto.
Qed.

Lemma drained g T times s :
  healthy (a_artifacts s) -> NoDup (art_ID <$> rows (a_artifacts s)) -> accepting g ->
  0 < ArtifactGC.gc_batch g -> Forall (fun t => T <= t) times ->
  (length (filter (fun a => expired T a = true) (rows (a_artifacts s)))
   <= length times * Z.to_nat (ArtifactGC.gc_batch g))%nat ->
  (forall a, a ∈ rows (a_artifacts (ticks g times s)) ->
     a ∈ rows (a_artifacts s) /\ expired T a = false) /\
  (forall a, a ∈ rows (a_artifacts s) -> Forall (fun t => expired t a = false) times ->
     a ∈ rows (a_artifacts (ticks g times s))).
Proof.
  intros Hh Hnd Ha Hb. revert s Hh Hnd. induction times as [|now times IH]; intros s Hh Hnd HT Hn; simpl in *.
  - split; [|done]. intros a Hin. split; [done|]. destruct (expired T a) eqn:E; [|done]. exfalso.
    assert (Hf : a ∈ filter (fun a => expired T a = true) (rows (a_artifacts s))) by (by apply list_elem_of_filter).
    destruct (filter _ _); [by apply not_elem_of_nil in Hf|simpl in Hn; lia].
  - apply Forall_cons in HT as [HT0 HT].
    destruct (tick_state g now s Hh Hnd Ha Hb) as (Hh' & Hnd' & Hkeep & Hsub & Hlen).
    destruct (IH _ Hh' Hnd' HT) as [H1 H2].
    { rewrite (Hlen T HT0). lia. }
    split; [intros a [Hin He]%H1; split; [by apply Hsub|done]|]. intros a Hin [Hna Hnas]%Forall_cons. apply H2; [|done]. by apply Hkeep.
Qed.

(** C25: Collection makes progress: as long as the object store takes the
    deletions, every row that had expired by [T] is gone after enough ticks at
    or after [T] (their number over the batch size, rounded up), however many
    rows expire later meanwhile; no row is touched before it expires. *)
Theorem gc_drains g T times s :
  healthy (a_artifacts s) -> NoDup (art_ID <$> rows (a_artifacts s)) -> accepting g ->
  0 < ArtifactGC.gc_batch g -> Forall (fun t => T <= t) times ->
  (length (filter (fun a => expired T a = true) (rows (a_artifacts s)))
   <= length times * Z.to_nat (ArtifactGC.gc_batch g))%nat ->
  (forall a, a ∈ rows (a_artifacts (ticks g times s)) ->
     a ∈ rows (a_artifacts s) /\ expired T a = false) /\
  (forall a, a ∈ rows (a_artifacts s) -> Forall (fun t => expired t a = false) times ->
     a ∈ rows (a_artifacts (ticks g times s))).
Proof. apply drained. Qed.


(** ** One pass, whatever fails *)

Lemma elem_of_ids_with o (l : list Artifact) outs id :
  id ∈ ids_with o l outs <-> exists a, (a, o) ∈ zip l outs /\ art_ID a = id.
Proof.
  unfold ids_with. rewrite list_elem_of_fmap. split.
  - intros ([a o'] & -> & [Ho Hin]%list_elem_of_filter). simpl in *. subst. eauto.
  - intros (a & Hin & <-). exists (a, o). split; [done|]. by apply list_elem_of_filter.
Qed.

Lemma zip_elem_l {A B} (l : list A) (k : list B) a b : (a, b) ∈ zip l k -> a ∈ l.
Proof. intros H. apply elem_of_zip_with in H as (x & y & E & Hx & _). by injection E as -> ->. Qed.

Lemma zip_functional {A B} (l : list A) (k : list B) a b1 b2 :
  NoDup l -> (a, b1) ∈ zip l k -> (a, b2) ∈ zip l k -> b1 = b2.
Proof.
  revert k. induction l as [|x l IH]; intros [|y k] Hnd H1 H2; simpl in *;
    try by apply not_elem_of_nil in H1.
  apply NoDup_cons in Hnd as [Hx Hnd].
  apply elem_of_cons in H1 as [E1|H1]; apply elem_of_cons in H2 as [E2|H2]; simplify_eq; try done.
  - by apply zip_elem_l in H2.
  - by apply zip_elem_l in H1.
  - by apply (IH k).
Qed.

Lemma query_result_NoDup {R} `{Model R} (q : Query R) (l res : list R) :
  NoDup (pk <$> l) -> query_result q l res -> NoDup res.
Proof.
  intros Hnd (l' & Hp & _ & ->). assert (Hl : NoDup l').
  { rewrite Hp. apply NoDup_filter. by eapply NoDup_fmap_1. }
  assert (Hd : forall n, NoDup (drop n l')).
  { intros n. rewrite <- (take_drop n l') in Hl. by apply NoDup_app in Hl as (_ & _ & ?). }
  unfold limit_rows. destruct (q_limit q) as [n|]; [|done].
  specialize (Hd (q_offset q)). rewrite <- (take_drop n (drop _ _)) in Hd. by apply NoDup_app in Hd as (? & _ & _).
Qed.

(** A pass of the collector never loses track of an object: a row only
    disappears after the store confirmed the deletion of its object, a refused
    row stays and is marked for the next pass, and nothing outside the batch
    of expired rows is touched, whatever statement fails.  When the statements
    succeed, every row of the batch is settled and the report adds up. *)
Theorem gc_pass g now s :
  NoDup (art_ID <$> rows (a_artifacts s)) ->
  wp (ArtifactGC.RunOnce g now) (fun r s' =>
    match r with
    | Err _ => asame s s' /\ ~ healthy (a_artifacts s)
    | Ok rep => exists l outs t' b',
        query_result (ArtifactRepository.expiredQuery now (ArtifactGC.gc_batch g)) (rows (a_artifacts s)) l /\
        deletions (ArtifactGC.gc_store g) (art_StorageKey <$> l) (a_bucket s) = (outs, b') /\
        s' = gc_state s t' b' /\
        (forall a, a ∈ rows (a_artifacts s) -> a ∉ l -> a ∈ rows t') /\
        (forall a, a ∈ rows (a_artifacts s) ->
           a ∈ rows t' \/ mark_pending a ∈ rows t' \/ (a, true) ∈ zip l outs) /\
        (forall a', a' ∈ rows t' ->
           a' ∈ rows (a_artifacts s) \/ exists a, (a, false) ∈ zip l outs /\ a' = mark_pending a) /\
        (healthy (a_artifacts s) ->
           (forall a, (a, true) ∈ zip l outs -> art_ID a ∉ art_ID <$> rows t') /\
           (forall a, (a, false) ∈ zip l outs -> mark_pending a ∈ rows t') /\
           ArtifactGC.rep_Deleted rep + ArtifactGC.rep_ObjectsFailed rep = ArtifactGC.rep_Scanned rep /\
           ArtifactGC.rep_RowsFailed rep = 0)
    end) s.
Proof.
  intros Hnd. eapply wp_mono; [apply wp_RunOnce|]. intros [rep|e] s' H; [|done].
  destruct H as (l & Hq & Hsc & gone & kept & t' & H).
  pose proof (deletions_length (ArtifactGC.gc_store g) (art_StorageKey <$> l) (a_bucket s)) as Hlen.
  destruct (deletions _ _ _) as [outs b'] eqn:Ed. destruct H as (Es & _ & HR & Hg & Hk & Hall).
  rewrite !app_nil_r in HR. simpl in Hlen. rewrite length_fmap in Hlen.
  assert (Hl : forall a, a ∈ l -> a ∈ rows (a_artifacts s)).
  { intros a Hin. by eapply query_result_elem in Hin as (_ & _ & ?). }
  assert (Hone : forall a b, a ∈ rows (a_artifacts s) -> b ∈ l -> art_ID a = art_ID b -> a = b).
  { intros a b Hx Hy He. apply (key_unique art_ID (rows (a_artifacts s))); auto. }
  assert (Hfate : forall o a, a ∈ rows (a_artifacts s) -> art_ID a ∈ ids_with o l outs -> (a, o) ∈ zip l outs).
  { intros o a Hin (b & Hb & He)%elem_of_ids_with. by rewrite (Hone a b Hin (zip_elem_l _ _ _ _ Hb) (eq_sym He)). }
  exists l, outs, t', b'. rewrite HR. split; [exact Hq|]. split; [exact Ed|]. split; [exact Es|].
  split_and!.
  - intros a Hin Hout. apply elem_of_settle. exists a. split; [done|].
    split; [|rewrite decide_False; [done|]]; intros Hx; apply Hg in Hx || apply Hk in Hx;
      apply Hfate, zip_elem_l in Hx; done.
  - intros a Hin. destruct (decide (art_ID a ∈ gone)) as [Hx|Hx]; [right; right; by apply Hfate, Hg|].
    destruct (decide (art_ID a ∈ kept)) as [Hy|Hy]; [right; left|left]; apply elem_of_settle; exists a;
      (split; [done|]; split; [done|]); [by rewrite decide_True|by rewrite decide_False].
  - intros a' (x & Hin & _ & ->)%elem_of_settle. case_decide as Hx; [right|by left].
    exists x. split; [|done]. by apply Hfate, Hk.
  - intros Hh. destruct (Hall Hh) as (Pg & Pk & HD & HO & HRf). split_and!.
    + intros a Ha (x & He & (y & Hy & Hn & ->)%elem_of_settle)%list_elem_of_fmap. apply Hn. rewrite Pg.
      apply elem_of_ids_with. exists a. split; [done|]. rewrite He. by case_decide.
    + intros a Ha. apply elem_of_settle. exists a. pose proof (Hl a (zip_elem_l _ _ _ _ Ha)) as Hin.
      assert (Hy : art_ID a ∈ kept) by (rewrite Pk; apply elem_of_ids_with; eauto).
      split; [done|]. split; [|by rewrite decide_True]. intros Hx. rewrite Pg in Hx.
      pose proof (zip_functional l outs a true false (query_result_NoDup (R := Artifact) _ (rows (a_artifacts s)) l Hnd Hq)
        (Hfate true a Hin Hx) Ha). done.
    + rewrite HD, HO, Hsc, Pg, Pk. simpl. unfold ids_with. rewrite !length_fmap.
      clear -Hlen. revert outs Hlen. induction l as [|a l IH]; intros [|o outs] Hlen; simpl in *; try done.
      rewrite !filter_cons. specialize (IH outs ltac:(lia)). destruct o; simpl; lia.
    + by rewrite HRf.
Qed.

(** ** Refusals *)

(** Objects the store never gives up. *)
Definition refused (a : Artifact) : Prop := forall b, (store_Delete (art_StorageKey a) b).1 <> None.

Lemma deletions_refused (l : list Artifact) b :
  Forall refused l -> (deletions true (art_StorageKey <$> l) b).1 = replicate (length l) false.
Proof.
  intros Hl. revert b. induction Hl as [|a l Ha Hl IH]; intros b; [done|]. simpl. specialize (Ha b).
  destruct (store_Delete (art_StorageKey a) b) as [r b1]. specialize (IH b1).
  destruct (deletions true _ b1) as [outs b2]. simpl in *. destruct r; [|done]. by rewrite IH.
Qed.

Lemma ids_with_refused o (l : list Artifact) :
  ids_with o l (replicate (length l) false) = if decide (false = o) then art_ID <$> l else [].
Proof.
  induction l as [|a l IH]; simpl; [by case_decide|]. rewrite ids_with_cons, IH. by case_decide.
Qed.

Definition marked (kept : list UUID) (a : Artifact) : Artifact :=
  if decide (art_ID a ∈ kept) then mark_pending a else a.

Lemma marked_fields kept a :
  art_ID (marked kept a) = art_ID a /\ art_StorageKey (marked kept a) = art_StorageKey a /\
  art_ExpiresAt (marked kept a) = art_ExpiresAt a.
Proof. unfold marked. by case_decide. Qed.

Lemma settle_marks kept l : settle [] kept l = marked kept <$> l.
Proof.
  unfold settle. induction l as [|a l IH]; [done|]. simpl. by f_equal.
Qed.

(** Enough rows that expire before all others and whose objects stay. *)
Record stuck_rows (batch : Z) (stuck : list UUID) (times : list Time) (l : list Artifact) : Prop := mkStuck {
  stuck_batch : 0 < batch <= Z.of_nat (length stuck);
  stuck_ids : NoDup stuck;
  stuck_row : forall id, id ∈ stuck -> exists a, a ∈ l /\ art_ID a = id /\
    Forall (fun now => expired now a = true) times;
  stuck_refused : forall a, a ∈ l -> art_ID a ∈ stuck -> refused a;
  stuck_first : forall a x, a ∈ l -> art_ID a ∈ stuck -> x ∈ l -> art_ID x ∉ stuck ->
    is_Some (art_ExpiresAt x) -> expiry a < expiry x;
}.

Lemma stuck_mark kept batch stuck times l :
  stuck_rows batch stuck times l -> stuck_rows batch stuck times (marked kept <$> l).
Proof.
  intros [Hb Hnd Hrow Href Hfirst]. split; [done|done|..].
  - intros id (a & Ha & Hid & Hex)%Hrow. exists (marked kept a). split; [by apply list_elem_of_fmap_2|].
    destruct (marked_fields kept a) as (-> & _ & He). split; [done|]. unfold expired in *. by rewrite He.
  - intros a (x & -> & Hx)%list_elem_of_fmap. destruct (marked_fields kept x) as (-> & Hkey & _).
    unfold refused. rewrite Hkey. by apply Href.
  - intros a y (xa & -> & Hxa)%list_elem_of_fmap Ha (xy & -> & Hxy)%list_elem_of_fmap. unfold expiry in *.
    destruct (marked_fields kept xa) as (Hi & _ & ->), (marked_fields kept xy) as (-> & _ & ->).
    rewrite Hi in Ha. by apply Hfirst.
Qed.

(** A batch of stuck rows is all a tick sees. *)
Lemma stuck_batch_only batch stuck now times (l res : list Artifact) :
  stuck_rows batch stuck (now :: times) l ->
  query_result (ArtifactRepository.expiredQuery now batch) l res ->
  forall a, a ∈ res -> art_ID a ∈ stuck.
Proof.
  intros [Hb Hnd Hrow Href Hfirst] (l' & Hp & Hs & ->) x Hx.
  unfold limit_rows, ArtifactRepository.expiredQuery, LimitQ in *.
  replace (0 <? batch) with true in * by (symmetry; apply Z.ltb_lt; lia). simpl in *. rewrite drop_0 in Hx.
  destruct (decide (art_ID x ∈ stuck)) as [?|Hout]; [done|exfalso].
  apply list_elem_of_lookup in Hx as (i & Hi). pose proof (lookup_lt_Some _ _ _ Hi) as Hlt.
  rewrite length_take in Hlt. rewrite lookup_take_lt in Hi by lia.
  assert (Hsub : stuck ⊆+ (art_ID <$> take i l')).
  { apply NoDup_submseteq; [done|]. intros id Hid.
    destruct (Hrow id Hid) as (a & Ha & Hida & [Hex _]%Forall_cons).
    assert (Hal : a ∈ l') by (rewrite Hp; apply elem_of_selected; done).
    assert (Hxl : x ∈ l /\ expired now x = true).
    { apply list_elem_of_lookup_2 in Hi. rewrite Hp in Hi. by apply elem_of_selected in Hi as (_ & ? & ?). }
    destruct Hxl as [Hxl Hxe]. apply expired_alt in Hxe as (tx & Etx & _).
    assert (Hlt' : expiry a < expiry x).
    { apply (Hfirst a x); [done|by rewrite Hida|done|done|by rewrite Etx]. }
    rewrite <- Hida. apply list_elem_of_fmap_2.
    apply list_elem_of_lookup in Hal as (j & Hj). destruct (decide (j < i)%nat) as [Hji|Hji].
    { apply list_elem_of_lookup. exists j. by rewrite lookup_take_lt. }
    exfalso. assert (expiry x <= expiry a); [|lia].
    destruct (decide (j = i)) as [->|Hne]; [rewrite Hi in Hj; injection Hj as ->; lia|].
    apply by_expiry. apply (Sorted_StronglySorted _) in Hs. rewrite <- (take_drop (S i) l') in Hs.
    eapply StronglySorted_app_1_elem_of; [exact Hs|..]; apply list_elem_of_lookup.
    - exists i. rewrite lookup_take_lt by lia. exact Hi.
    - exists (j - S i)%nat. rewrite lookup_drop. by replace (S i + (j - S i))%nat with j by lia. }
  apply submseteq_length in Hsub. rewrite length_fmap, length_take in Hsub. lia.
Qed.

(** Collection can starve: when a batch of the oldest expired rows has
    objects the store refuses to delete, every tick looks at them again and at
    nothing else, and no row is ever deleted, however many deletable ones have
    expired since. *)
Theorem gc_starves g stuck times s :
  healthy (a_artifacts s) -> NoDup (art_ID <$> rows (a_artifacts s)) -> ArtifactGC.gc_store g = true ->
  stuck_rows (ArtifactGC.gc_batch g) stuck times (rows (a_artifacts s)) ->
  art_ID <$> rows (a_artifacts (ticks g times s)) = art_ID <$> rows (a_artifacts s).
Proof.
  intros Hh Hnd Hst. revert s Hh Hnd. induction times as [|now times IH]; intros s Hh Hnd HS; [done|]. simpl.
  destruct (tick_rows g now s Hh) as (l & outs & b' & Hq & Ed & Hh' & gone & kept & Hg & Hk & HR).
  assert (Hin : forall a, a ∈ l -> a ∈ rows (a_artifacts s)).
  { intros a Ha. by eapply query_result_elem in Ha as (_ & _ & ?). }
  assert (Href : Forall refused l).
  { apply Forall_forall. intros a Ha. eapply stuck_refused; [exact HS|by apply Hin|].
    by eapply (stuck_batch_only _ stuck now times). }
  pose proof (deletions_refused l (a_bucket s) Href) as Ho. rewrite Hst in Ed. rewrite Ed in Ho. simpl in Ho.
  subst outs. rewrite ids_with_refused in Hg. rewrite decide_False in Hg by done.
  apply Permutation_nil_r in Hg as ->. rewrite settle_marks in HR.
  assert (Hids : art_ID <$> rows (a_artifacts (ArtifactGC.collectOnce g now s).2) = art_ID <$> rows (a_artifacts s)).
  { rewrite HR, <- list_fmap_compose. apply list_fmap_ext. intros i a _. simpl.
    by destruct (marked_fields kept a) as (-> & _). }
  rewrite IH; [done|done|by rewrite Hids|]. rewrite HR.
  destruct (stuck_mark kept _ _ _ _ HS) as [Hb Hn Hrow Hr Hf]. split; [done|done| |done|done].
  intros id (a & Ha & Hid & [_ Hex]%Forall_cons)%Hrow. eauto.
Qed.

(** ** Deleted components *)

Lemma retired_fields now under a a' :
  retired now under a a' -> art_ID a' = art_ID a /\ art_ComponentID a' = art_ComponentID a /\
    (under a = true -> (art_CleanupState a = CleanupStatePendingDeletion -> expired (now + 1) a = true) ->
     expired (now + 1) a' = true).
Proof.
  unfold retired. destruct (under a); [|by intros ->].
  destruct (decide (art_CleanupState a = CleanupStatePendingDeletion)) as [E|E].
  - intros (_ & _ & ->); [|done]. split_and!; [done|done|auto].
  - intros (_ & -> & _); [|done]. split_and!; [done|done|]. intros _ _. apply expired_alt.
    exists now. split; [done|lia].
Qed.

(** Deleting a component gives its artifacts to the collector, which then
    reclaims them: after enough ticks later than the deletion no row of the
    component is left, provided the rows that were waiting for deletion before
    had an expiry in the past, as the collector and earlier deletions leave
    them. *)
Theorem deleted_artifacts_reclaimed {X : Transactions} {XL : TransactionsLaws X} g times id s :
  (ComponentService.Delete ComponentService.wired id s).1 = Ok tt ->
  (exists c, c ∈ rows (a_components s) /\ cmp_ID c = id) ->
  (forall a, a ∈ rows (a_artifacts s) -> art_CleanupState a = CleanupStatePendingDeletion ->
     expired (a_now s + 1) a = true) ->
  let s1 := (ComponentService.Delete ComponentService.wired id s).2 in
  healthy (a_artifacts s1) -> NoDup (art_ID <$> rows (a_artifacts s)) -> accepting g ->
  0 < ArtifactGC.gc_batch g -> Forall (fun t => a_now s < t) times ->
  (length (rows (a_artifacts s)) <= length times * Z.to_nat (ArtifactGC.gc_batch g))%nat ->
  forall a, a ∈ rows (a_artifacts (ticks g times s1)) -> art_ComponentID a <> id.
Proof.
  intros Hok (c & Hc & Hcid) Hpend s1 Hh Hnd Ha Hb Ht Hn.
  pose proof (wp_component_Delete s id) as H. unfold wp in H. rewrite Hok in H. destruct H as [[_ H] _].
  fold s1 in H. destruct H as (s0 & t1 & t2 & t3 & t4 & t5 & t6 & artifacts & t8 & _ & E & _ & _ & _ & _ & _ & _ & Hart & _).
  assert (Er : rows (a_artifacts s1) = rows artifacts) by (by rewrite E). rewrite <- Er in Hart.
  assert (Hids : art_ID <$> rows (a_artifacts s1) = art_ID <$> rows (a_artifacts s)).
  { clear -Hart. induction Hart as [|a a' l l' Hr _ IH]; [done|]. rewrite !fmap_cons, IH. f_equal.
    by destruct (retired_fields _ _ _ _ Hr) as (-> & _). }
  assert (Hlen : length (rows (a_artifacts s1)) = length (rows (a_artifacts s))).
  { by rewrite <- (length_fmap art_ID), Hids, length_fmap. }
  destruct (drained g (a_now s + 1) times s1) as [Hd _]; [done|by rewrite Hids|done|done| | |].
  { eapply Forall_impl; [exact Ht|]. simpl. lia. }
  { etransitivity; [apply length_filter|]. by rewrite Hlen. }
  intros a Hin Hcomp. apply Hd in Hin as [Hin He].
  destruct (Forall2_elem_r _ _ _ _ Hart Hin) as (a0 & Ha0 & Hr).
  destruct (retired_fields _ _ _ _ Hr) as (_ & Hc0 & Hexp). rewrite He in Hexp.
  discriminate Hexp; [|auto]. unfold under_ids. rewrite <- Hc0, Hcomp. apply bool_decide_eq_true_2.
  apply elem_of_component_ids. exists c. split; [done|]. split; [done|]. by apply Z.eqb_eq.
Qed.
End Collection.

(** * The theorems on the demonstration hub *)

Lemma list_store_accepting g : accepting (O := list_store) g.
Proof. done. Qed.

Lemma no_faults {O : ObjectStore} (s : Admin) : ListGorm.faults (a_artifacts s) = [] -> healthy (a_artifacts s).
Proof. intros E. simpl. by rewrite E. Qed.

(** A collector that takes one row at a time. *)
Definition slow_gc : ArtifactGC.Config := ArtifactGC.NewArtifactGC true 1.

Definition stale_on {O : ObjectStore} (b : Bucket) : Admin := (demo_admin_on b)
  <| a_runs := table [demo_run 100 PipelineRunSucceeded] |>
  <| a_artifacts := table [demo_artifact 300 7 None; demo_artifact 301 8 (Some 5); demo_artifact 302 8 (Some 3);
       demo_artifact 303 7 (Some 90)] |>.

Definition stale_admin : Admin := stale_on (O := list_store) [].

Lemma gc_drains_witness :
  let s' := ticks slow_gc [10; 20] stale_admin in
  (forall a, a ∈ rows (a_artifacts s') -> expired 10 a = false) /\
  art_ID <$> rows (a_artifacts s') = [300; 303].
Proof.
  destruct (gc_drains slow_gc 10 [10; 20] stale_admin) as [H _].
  - by apply no_faults.
  - apply (bool_decide_eq_true_1 _). vm_compute. reflexivity.
  - apply list_store_accepting.
  - reflexivity.
  - repeat constructor; discriminate.
  - vm_compute. lia.
  - split; [intros a Ha; apply (H a Ha)|vm_compute; reflexivity].
Defined.

Lemma gc_pass_witness :
  exists rep s', ArtifactGC.RunOnce slow_gc 10 stale_admin = (Ok rep, s') /\
    art_ID <$> rows (a_artifacts s') = [300; 301; 303] /\
    (forall a', a' ∈ rows (a_artifacts s') ->
      a' ∈ rows (a_artifacts stale_admin) \/ exists a, a' = mark_pending a) /\
    ArtifactGC.rep_Deleted rep = 1.
Proof.
  assert (Hnd : NoDup (art_ID <$> rows (a_artifacts stale_admin)))
    by (apply (bool_decide_eq_true_1 _); vm_compute; reflexivity).
  pose proof (gc_pass slow_gc 10 stale_admin Hnd) as H. unfold wp in H.
  assert (E : exists rep, (ArtifactGC.RunOnce slow_gc 10 stale_admin).1 = Ok rep /\ ArtifactGC.rep_Deleted rep = 1)
    by (eexists; split; vm_compute; reflexivity).
  destruct E as (rep & E & HD).
  assert (Eids : art_ID <$> rows (a_artifacts (ArtifactGC.RunOnce slow_gc 10 stale_admin).2) = [300; 301; 303])
    by (vm_compute; reflexivity).
  destruct (ArtifactGC.RunOnce slow_gc 10 stale_admin) as [r s']. simpl in E, Eids, H. subst r.
  exists rep, s'. split; [reflexivity|]. split; [exact Eids|]. split; [|exact HD].
  destruct H as (l & outs & t' & b' & _ & _ & -> & _ & _ & H & _).
  intros a' [Ha|(a & _ & Ha)]%H; [by left|right; by exists a].
Defined.

(** A store that never gives up the object of artifact 302. *)
#[local] Instance jammed_store : ObjectStore := {|
  Bucket := list string;
  bucket_keys := fun b => b;
  store_Delete := fun k b =>
    if String.eqb k ("components/" +:+ uuid_text 302) then (Some (ELib "s3: access denied"), b)
    else (None, filter (fun x => x <> k) b);
  store_ListObjects := fun _ _ b => (Ok (b, false), b);
  store_PresignDownload := fun k _ b => (Ok k, b);
  store_PresignUpload := fun k _ b => (Ok k, b);
|}.

Definition jammed_admin : Admin := stale_on (O := jammed_store) [].

Lemma gc_starves_witness :
  let s' := ticks (O := jammed_store) slow_gc [10; 20; 200] jammed_admin in
  art_ID <$> rows (a_artifacts s') = [300; 301; 302; 303] /\
  art_CleanupState <$> rows (a_artifacts s') =
    [CleanupStateActive; CleanupStateActive; CleanupStatePendingDeletion; CleanupStateActive].
Proof.
  split.
  - change [300; 301; 302; 303] with (art_ID <$> rows (a_artifacts jammed_admin)).
    apply (gc_starves (O := jammed_store) slow_gc [302] [10; 20; 200] jammed_admin).
    + by apply no_faults.
    + apply (bool_decide_eq_true_1 _). vm_compute. reflexivity.
    + reflexivity.
    + split.
      * vm_compute. split; [reflexivity|discriminate].
      * apply (bool_decide_eq_true_1 _). vm_compute. reflexivity.
      * intros id ->%list_elem_of_singleton. exists (demo_artifact 302 8 (Some 3)).
        split; [simpl; set_solver|]. split; [reflexivity|]. repeat constructor.
      * intros a Ha Hid%list_elem_of_singleton b. simpl in Ha.
        rewrite !elem_of_cons in Ha.
        destruct Ha as [->|[->|[->|[->|[]%not_elem_of_nil]]]]; try discriminate Hid.
        vm_compute. discriminate.
      * intros a x Ha Hid%list_elem_of_singleton Hx Hn [t Ht]. simpl in Ha, Hx.
        rewrite !elem_of_cons in Ha, Hx.
        destruct Ha as [->|[->|[->|[->|[]%not_elem_of_nil]]]]; try discriminate Hid.
        destruct Hx as [->|[->|[->|[->|[]%not_elem_of_nil]]]]; try discriminate Ht; try reflexivity.
        exfalso. apply Hn. left.
  - vm_compute. reflexivity.
Defined.

Lemma deleted_artifacts_reclaimed_witness :
  let s1 := (ComponentService.Delete ComponentService.wired 7 stale_admin).2 in
  let times := [1000 * Second + 1; 1000 * Second + 2; 1000 * Second + 3; 1000 * Second + 4] in
  art_ID <$> rows (a_artifacts s1) = [300; 301; 302; 303] /\
  forall a, a ∈ rows (a_artifacts (ticks (O := list_store) slow_gc times s1)) -> art_ComponentID a <> 7.
Proof.
  cbv zeta. split; [vm_compute; reflexivity|].
  apply (deleted_artifacts_reclaimed (O := list_store) slow_gc _ 7 stale_admin).
  - vm_compute. reflexivity.
  - exists (demo_component 7 (Some "ana")). split; [simpl; set_solver|reflexivity].
  - intros a Ha Hc. exfalso. simpl in Ha.
    repeat (apply elem_of_cons in Ha as [->|Ha]; [discriminate Hc|]). by apply not_elem_of_nil in Ha.
  - apply no_faults. vm_compute. reflexivity.
  - apply (bool_decide_eq_true_1 _). vm_compute. reflexivity.
  - apply list_store_accepting.
  - reflexivity.
  - repeat constructor.
  - vm_compute. lia.
Defined.
