(* ===== verification/VersionTheory.v ===== *)
(** Snapshots and versions: the documents are read back as written, what a
    comparison calls identical, and the tables after publishing and while a
    version is rolled back: emptied, filled again from the snapshot,
    published. *)
From stdpp Require Import base list strings gmap sorting pretty.
From Stdlib Require Import ZArith Lia.
From S2P Require Import Prelude Common Gorm Json RunnerProto RunStore PipelineStore TargetStore.
From S2P Require Import EditStore World WorldLogic Frames PipelineVersions.

Open Scope Z_scope.

(** * Raw fields *)

Lemma get_raw_app name l1 l2 :
  get_raw name (l1 ++ l2) = match get_raw name l2 with Some v => Some v | None => get_raw name l1 end.
Proof.
  unfold get_raw. rewrite foldl_app.
  generalize (foldl (fun acc kv => if key_match name kv.1 then Some kv.2 else acc) None l1) as a.
  induction l2 as [|kv l2 IH] using rev_ind; intros a; [done|].
  rewrite !foldl_app. simpl. destruct (key_match name kv.1); auto.
Qed.

Lemma get_raw_skip {A} (C : Codec A) name name' a l :
  key_match name name' = false -> get_raw name (field C name' a ++ l) = get_raw name l.
Proof.
  intros H. rewrite get_raw_app. unfold field, get_raw at 2. simpl. rewrite H. by destruct (get_raw name l).
Qed.
Lemma get_raw_skip_opt {A} (C : Codec A) name name' e a l :
  key_match name name' = false -> get_raw name (field_opt C name' e a ++ l) = get_raw name l.
Proof. intros H. unfold field_opt. destruct (e a); [done|]. by apply (get_raw_skip C). Qed.
Lemma get_raw_skip_raw name name' r l :
  key_match name name' = false -> get_raw name (raw_field name' r ++ l) = get_raw name l.
Proof.
  intros H. rewrite get_raw_app. destruct r as [| |v]; simpl; try by destruct (get_raw name l).
  unfold get_raw at 2. simpl. rewrite H. by destruct (get_raw name l).
Qed.
Lemma get_key_skip_raw name name' r l :
  key_match name name' = false -> get_key name (raw_field name' r ++ l) = get_key name l.
Proof.
  intros H. rewrite get_key_app. destruct r as [| |v]; simpl; try by destruct (get_key name l).
  unfold get_key at 2. simpl. rewrite H. by destruct (get_key name l).
Qed.

Lemma dec_own_raw name r l :
  get_raw name l = None -> raw_bad r = false -> dec_raw_field name (raw_field name r ++ l) = (r, true).
Proof.
  intros Hl Hr. unfold dec_raw_field. rewrite get_raw_app, Hl. destruct r as [| |v]; try done.
  unfold get_raw, raw_field. simpl. by rewrite key_match_refl.
Qed.

(** Leads a field's decoder to its own entry, past the others. *)
Ltac skip_entries :=
  repeat (first [rewrite get_key_skip by reflexivity | rewrite get_key_skip_opt by reflexivity
               | rewrite get_key_skip_raw by reflexivity | rewrite get_raw_skip by reflexivity
               | rewrite get_raw_skip_opt by reflexivity | rewrite get_raw_skip_raw by reflexivity]).
Ltac own_field :=
  unfold dec_field, dec_raw_field; skip_entries;
  first [ apply dec_own_field | apply dec_own_field_opt | apply dec_own_raw ];
  [ .. | try (simpl; auto with json; fail) ].
Ltac snapshot_roundtrip :=
  cbn [dec enc dec_struct concat];
  repeat (first [ apply fields_ap_ok; [| own_field ] ]); try reflexivity.

#[global] Instance CodecLaws_SnapshotTask : CodecLaws SnapshotTask.
Proof.
  split; [|done]. intros [] (H1 & H2 & H3). cbn in H1, H2, H3.
  rewrite !andb_true_iff, !negb_true_iff in H3. destruct_and!. unfold Codec_SnapshotTask.
  snapshot_roundtrip; first [apply _ | (skip_entries; done) | done].
Qed.

#[global] Instance CodecLaws_SnapshotStage : CodecLaws SnapshotStage.
Proof.
  split; [|done]. intros [] (H1 & H2). cbn in H1, H2. unfold Codec_SnapshotStage.
  snapshot_roundtrip; first [apply _ | (skip_entries; done) | done].
Qed.

Section Snapshots.
Context {P : Platform}.

#[global] Instance CodecLaws_Snapshot : CodecLaws Snapshot.
Proof.
  pose proof CodecLaws_UUID. split; [|done]. intros [] (H1 & H2 & H3). cbn in H1, H2, H3. unfold Codec_Snapshot.
  snapshot_roundtrip; first [apply _ | (skip_entries; done) | done].
Qed.
End Snapshots.

(** * Comparison *)

Section Diff.
Context {T : JSONText}.

(** No difference so far. *)
Definition no_diff (d : DiffState) : Prop := d.1.1 = [] /\ d.1.2 = [].

Lemma no_diff_stage d x : ~ no_diff (add_stage d x).
Proof. destruct d as [[ss ts] n]. intros [H _]. by destruct ss. Qed.
Lemma no_diff_task d x : ~ no_diff (add_task d x).
Proof. destruct d as [[ss ts] n]. intros [_ H]. by destruct ts. Qed.

(** A loop adds nothing exactly when no round does. *)
Lemma foldl_no_diff {A} (f : DiffState -> A -> DiffState) (quiet : A -> Prop) :
  (forall d x, no_diff (f d x) <-> no_diff d /\ quiet x) ->
  forall l d, no_diff (foldl f d l) <-> no_diff d /\ Forall quiet l.
Proof.
  intros Hf. induction l as [|x l IH]; intros d; simpl.
  - split; [by intros; split|tauto].
  - rewrite IH, Hf, Forall_cons. tauto.
Qed.

(** ** Names *)

Lemma foldl_insert_lookup {A} (name : A -> string) (l : list A) (m : gmap string A) k :
  NoDup (name <$> l) -> (forall x, x ∈ l -> m !! name x = None) ->
  forall v, foldl (fun m x => <[name x := x]> m) m l !! k = Some v <->
    m !! k = Some v \/ (v ∈ l /\ name v = k).
Proof.
  revert m. induction l as [|x l IH]; intros m Hnd Hm v; simpl.
  - split; [by left|]. intros [?|[Hv _]]; [done|by apply elem_of_nil in Hv].
  - apply NoDup_cons in Hnd as [Hx Hnd]. rewrite IH; [|done|].
    + rewrite lookup_insert_Some, elem_of_cons. specialize (Hm x ltac:(left)). split.
      * intros [[[<- <-]|[? ?]]|[? ?]]; auto.
      * intros [Hv|[[->|Hv] <-]]; [|by left; left|by right]. left. right. split; [|done].
        intros <-. congruence.
    + intros y Hy. rewrite lookup_insert_ne; [by apply Hm; right|]. intros E. apply Hx. rewrite E.
      apply list_elem_of_fmap. by exists y.
Qed.

Lemma indexStages_spec l k v :
  NoDup (ss_Name <$> l) -> indexStages l !! k = Some v <-> v ∈ l /\ ss_Name v = k.
Proof.
  intros H. unfold indexStages. rewrite foldl_insert_lookup by done.
  split; [intros [?|?]; [done|done]|by right].
Qed.
Lemma indexTasks_spec l k v :
  NoDup (sk_Name <$> l) -> indexTasks l !! k = Some v <-> v ∈ l /\ sk_Name v = k.
Proof.
  intros H. unfold indexTasks. rewrite foldl_insert_lookup by done.
  split; [intros [?|?]; [done|done]|by right].
Qed.

(** ** Fields *)

Lemma change_nil f a b : change f a b = [] <-> a = b.
Proof. unfold change. destruct (String.eqb_spec a b); naive_solver. Qed.

Lemma itoa_inj a b : itoa a = itoa b <-> a = b.
Proof.
  split; [|by intros ->]. unfold itoa. simpl. intros H. apply (inj pretty).
  assert (Happ : forall s, s +:+ "" = s).
  { induction s as [|c s IHs]; [done|]. exact (f_equal (String c) IHs). }
  by rewrite <- (Happ (pretty a)), H, Happ.
Qed.

(** The tasks agree in every field, the documents in their canonical text. *)
Definition same_task (a b : SnapshotTask) : Prop :=
  sk_Type a = sk_Type b /\ sk_DisplayOrder a = sk_DisplayOrder b /\ sk_Image a = sk_Image b /\
  sk_ScriptPath a = sk_ScriptPath b /\ sk_TimeoutSeconds a = sk_TimeoutSeconds b /\
  Forall2 (fun x y => canonical x = canonical y) (task_raws a) (task_raws b).

Lemma taskFieldChanges_nil a b : taskFieldChanges a b = [] <-> same_task a b.
Proof.
  unfold taskFieldChanges, same_task, task_raws.
  assert (Happ : forall l1 l2 : list FieldChange, l1 ++ l2 = [] <-> l1 = [] /\ l2 = []).
  { intros l1 l2. destruct l1; naive_solver. }
  rewrite !Happ, !change_nil, !itoa_inj. split.
  - intros H. destruct_and!. split_and!; try done. by repeat constructor.
  - intros (? & ? & ? & ? & ? & H).
    repeat match goal with H : Forall2 _ (_ :: _) (_ :: _) |- _ => apply Forall2_cons in H as [? H] end.
    split_and!; done.
Qed.

Lemma stageFieldChanges_nil a b :
  stageFieldChanges a b = [] <-> ss_Sequence a = ss_Sequence b /\ ss_ExecutionMode a = ss_ExecutionMode b.
Proof.
  unfold stageFieldChanges. destruct (Z.eqb_spec (ss_Sequence a) (ss_Sequence b)); simpl; [|naive_solver].
  rewrite change_nil. tauto.
Qed.

(** ** The loops *)

Lemma to_stage_no_diff m d s :
  no_diff (diff_to_stage m d s) <-> no_diff d /\ exists p, m !! ss_Name s = Some p /\
    ss_Sequence p = ss_Sequence s /\ ss_ExecutionMode p = ss_ExecutionMode s.
Proof.
  unfold diff_to_stage. destruct (m !! ss_Name s) as [p|].
  - destruct (stageFieldChanges p s) as [|c l] eqn:E.
    + apply stageFieldChanges_nil in E. naive_solver.
    + split; [by intros ?%no_diff_stage|]. intros (_ & p' & [= <-] & H%stageFieldChanges_nil). congruence.
  - split; [by intros ?%no_diff_stage|]. naive_solver.
Qed.

Lemma from_stage_no_diff m d s :
  no_diff (diff_from_stage m d s) <-> no_diff d /\ is_Some (m !! ss_Name s).
Proof.
  unfold diff_from_stage. destruct (m !! ss_Name s) as [p|]; [naive_solver|].
  split; [by intros ?%no_diff_stage|]. by intros [_ [? ?]].
Qed.

Lemma to_tasks_no_diff m d s :
  no_diff (diff_to_tasks m d s) <-> no_diff d /\
  Forall (fun t => exists p old, m !! ss_Name s = Some p /\
    indexTasks (ss_Tasks p) !! sk_Name t = Some old /\ same_task old t) (ss_Tasks s).
Proof.
  unfold diff_to_tasks. apply foldl_no_diff. intros d' t. destruct (m !! ss_Name s) as [p|].
  2: { split; [by intros ?%no_diff_task|]. naive_solver. }
  destruct (indexTasks (ss_Tasks p) !! sk_Name t) as [old|] eqn:Eo.
  2: { split; [by intros ?%no_diff_task|]. naive_solver. }
  destruct (taskFieldChanges old t) as [|c l] eqn:E.
  - apply taskFieldChanges_nil in E. naive_solver.
  - split; [by intros ?%no_diff_task|]. intros (_ & p' & o & [= <-] & Eo' & H%taskFieldChanges_nil). congruence.
Qed.

Lemma from_tasks_no_diff m d s :
  no_diff (diff_from_tasks m d s) <-> no_diff d /\
  Forall (fun t => exists p, m !! ss_Name s = Some p /\ is_Some (indexTasks (ss_Tasks p) !! sk_Name t)) (ss_Tasks s).
Proof.
  unfold diff_from_tasks. apply foldl_no_diff. intros d' t. destruct (m !! ss_Name s) as [p|].
  2: { split; [by intros ?%no_diff_task|]. naive_solver. }
  destruct (indexTasks (ss_Tasks p) !! sk_Name t) as [new|] eqn:E; [naive_solver|].
  split; [by intros ?%no_diff_task|]. intros (_ & p' & [= <-] & [? ?]). congruence.
Qed.

Lemma SliceStable_nil {A} less (l : list A) : SliceStable less l = [] <-> l = [].
Proof.
  split; [|by intros ->]. destruct l as [|x l]; [done|]. simpl.
  destruct (SliceStable less l) as [|y l']; simpl; [done|by destruct (less y x)].
Qed.

Lemma Identical_iff from to v1 v2 t1 t2 :
  df_Identical (DiffSnapshots from to v1 v2 t1 t2) = true <->
  Forall (fun s => exists p, indexStages (sn_Stages from) !! ss_Name s = Some p /\
    ss_Sequence p = ss_Sequence s /\ ss_ExecutionMode p = ss_ExecutionMode s) (sn_Stages to) /\
  Forall (fun s => is_Some (indexStages (sn_Stages to) !! ss_Name s)) (sn_Stages from) /\
  Forall (fun s => Forall (fun t => exists p old, indexStages (sn_Stages from) !! ss_Name s = Some p /\
    indexTasks (ss_Tasks p) !! sk_Name t = Some old /\ same_task old t) (ss_Tasks s)) (sn_Stages to) /\
  Forall (fun s => Forall (fun t => exists p, indexStages (sn_Stages to) !! ss_Name s = Some p /\
    is_Some (indexTasks (ss_Tasks p) !! sk_Name t)) (ss_Tasks s)) (sn_Stages from).
Proof.
  unfold DiffSnapshots. set (d := foldl (diff_from_tasks _) _ _).
  transitivity (no_diff d).
  - unfold no_diff. destruct d as [[ss ts] n]. simpl.
    rewrite <- (SliceStable_nil stage_diff_less ss), <- (SliceStable_nil task_diff_less ts).
    destruct (SliceStable stage_diff_less ss), (SliceStable task_diff_less ts); naive_solver.
  - unfold d. rewrite (foldl_no_diff _ _ (from_tasks_no_diff _)), (foldl_no_diff _ _ (to_tasks_no_diff _)),
      (foldl_no_diff _ _ (from_stage_no_diff _)), (foldl_no_diff _ _ (to_stage_no_diff _)).
    assert (no_diff ([], [], mkDiffSummary 0 0 0 0 0 0)) by done. tauto.
Qed.

(** ** Lists of named things up to their order *)

(** [l2] rearranged corresponds to [l1], name by name. *)
Definition same_list {A} (name : A -> string) (R : A -> A -> Prop) (l1 l2 : list A) : Prop :=
  exists l, (l2 ≡ₚ l) /\ Forall2 (fun a b => name a = name b /\ R a b) l1 l.

Lemma same_list_iff {A} (name : A -> string) (R : A -> A -> Prop) l1 l2 :
  NoDup (name <$> l1) -> NoDup (name <$> l2) ->
  same_list name R l1 l2 <->
  (forall b, b ∈ l2 -> exists a, a ∈ l1 /\ name a = name b /\ R a b) /\
  (forall a, a ∈ l1 -> exists b, b ∈ l2 /\ name b = name a).
Proof.
  intros H1 H2. split.
  - intros (l & Hp & HF). split.
    + intros b Hb. rewrite Hp in Hb. apply list_elem_of_lookup in Hb as (i & Hi).
      destruct (Forall2_lookup_r _ _ _ _ _ HF Hi) as (a & Ha & ? & ?). exists a.
      split_and!; [by eapply list_elem_of_lookup_2|done|done].
    + intros a (i & Hi)%list_elem_of_lookup. destruct (Forall2_lookup_l _ _ _ _ _ HF Hi) as (b & Hb & E & _).
      exists b. split; [|done]. rewrite Hp. by eapply list_elem_of_lookup_2.
  - revert l2 H2. induction l1 as [|a l1 IH]; intros l2 H2 [Hto Hfrom].
    + exists []. split; [|constructor]. destruct l2 as [|b l2]; [done|].
      destruct (Hto b ltac:(left)) as (a & Ha%elem_of_nil & _). done.
    + destruct (Hfrom a ltac:(left)) as (b & Hb & Eb). apply list_elem_of_split in Hb as (l & r & ->).
      assert (Hnd : NoDup (name <$> b :: l ++ r)).
      { eapply NoDup_Permutation_proper; [|exact H2]. f_equiv. by rewrite Permutation_middle. }
      apply NoDup_cons in H1 as [Ha H1]. apply NoDup_cons in Hnd as [Hb Hnd].
      destruct (IH H1 (l ++ r) Hnd) as (l' & Hp & HF).
      { split.
        - intros b' Hb'. destruct (Hto b') as (a' & Ha' & E' & HR); [set_solver|].
          apply elem_of_cons in Ha' as [->|Ha']; [|by exists a'].
          destruct Hb. rewrite Eb, E'. by apply list_elem_of_fmap_2.
        - intros a' Ha'. destruct (Hfrom a') as (b' & Hb' & E'); [by right|]. exists b'. split; [|done].
          assert (b' <> b); [|set_solver]. intros ->. apply Ha. rewrite <- Eb, E'. by apply list_elem_of_fmap_2. }
      exists (b :: l'). split; [by rewrite <- Permutation_middle, Hp|]. constructor; [|done]. split; [done|].
      destruct (Hto b) as (a' & Ha' & E' & HR); [set_solver|].
      apply elem_of_cons in Ha' as [->|Ha']; [done|]. destruct Ha. rewrite <- Eb, <- E'. by apply list_elem_of_fmap_2.
Qed.

(** The stages agree, their tasks up to order. *)
Definition same_stage (a b : SnapshotStage) : Prop :=
  ss_Sequence a = ss_Sequence b /\ ss_ExecutionMode a = ss_ExecutionMode b /\
  same_list sk_Name same_task (ss_Tasks a) (ss_Tasks b).

Definition distinct_names (s : Snapshot) : Prop :=
  NoDup (ss_Name <$> sn_Stages s) /\ forall st, st ∈ sn_Stages s -> NoDup (sk_Name <$> ss_Tasks st).

Lemma Identical_same from to v1 v2 t1 t2 :
  distinct_names from -> distinct_names to ->
  df_Identical (DiffSnapshots from to v1 v2 t1 t2) = true <->
  same_list ss_Name same_stage (sn_Stages from) (sn_Stages to).
Proof.
  intros [Hf Hft] [Ht Htt]. rewrite Identical_iff, same_list_iff, !Forall_forall by done. split.
  - intros (H1 & H2 & H3 & H4). split.
    + intros b Hb. destruct (H1 b Hb) as (a & (Ha & Ea)%indexStages_spec & Es & Em); [|done].
      exists a. split_and!; [done|done|]. do 2 (split; [done|]). apply same_list_iff; [by apply Hft|by apply Htt|]. split.
      * specialize (H3 b Hb). rewrite Forall_forall in H3. intros t (p & old & Ep & Eo & Hs)%H3.
        apply indexStages_spec in Ep as [Hp Ep]; [|done].
        assert (p = a) as -> by (apply (key_unique ss_Name _ _ _ Hf); [done|done|congruence]).
        apply indexTasks_spec in Eo as [Ho Eo]; [by exists old|by apply Hft].
      * specialize (H4 a Ha). rewrite Forall_forall in H4. intros t (p & Ep & new & En)%H4.
        apply indexStages_spec in Ep as [Hp Ep]; [|done].
        assert (p = b) as -> by (apply (key_unique ss_Name _ _ _ Ht); [done|done|congruence]).
        apply indexTasks_spec in En as [Hn En]; [by exists new|by apply Htt].
    + intros a Ha. destruct (H2 a Ha) as (b & (Hb & Eb)%indexStages_spec); [|done]. by exists b.
  - intros (H1 & H2).
    assert (Hstage : forall b, b ∈ sn_Stages to -> exists a, a ∈ sn_Stages from /\ ss_Name a = ss_Name b /\ same_stage a b /\
      indexStages (sn_Stages from) !! ss_Name b = Some a).
    { intros b Hb. destruct (H1 b Hb) as (a & Ha & Ea & Hs). exists a. split_and!; try done. by apply indexStages_spec. }
    split_and!.
    + intros b (a & _ & _ & (Es & Em & _) & Hi)%Hstage. by exists a.
    + intros a (b & Hb & Eb)%H2. exists b. by apply indexStages_spec.
    + intros b Hb. destruct (Hstage b Hb) as (a & Ha & Ea & (_ & _ & Hl) & Hi). apply Forall_forall. intros t Htb.
      apply same_list_iff in Hl as [Hl _]; [|by apply Hft|by apply Htt]. destruct (Hl t Htb) as (old & Ho & Eo & Hs).
      exists a, old. split_and!; [done| |done]. apply indexTasks_spec; [by apply Hft|done].
    + intros a Ha. destruct (H2 a Ha) as (b & Hb & Eb). destruct (Hstage b Hb) as (a' & Ha' & Ea' & (_ & _ & Hl) & _).
      assert (a' = a) as -> by (apply (key_unique ss_Name _ _ _ Hf); [done|done|congruence]).
      apply same_list_iff in Hl as [_ Hl]; [|by apply Hft|by apply Htt].
      apply Forall_forall. intros t (t' & Ht' & Et)%Hl. exists b. split; [by apply indexStages_spec|].
      exists t'. apply indexTasks_spec; [by apply Htt|done].
Qed.
End Diff.

(** * Decoded snapshots hold documents *)

Lemma dec_raw_clean name kvs : raw_bad (dec_raw_field name kvs).1 = false.
Proof. unfold dec_raw_field. by destruct (get_raw name kvs). Qed.

Lemma fields_ap_fst {A B} (f : Fields (A -> B)) (x : Fields A) kvs :
  (fields_ap f x kvs).1 = (f kvs).1 (x kvs).1.
Proof. unfold fields_ap. by destruct (f kvs), (x kvs). Qed.

Lemma dec_task_clean v : existsb raw_bad (task_raws (dec v : SnapshotTask * bool).1) = false.
Proof.
  destruct v as [| | | | | |kvs]; try reflexivity. cbn [dec Codec_SnapshotTask dec_struct].
  rewrite !fields_ap_fst. unfold task_raws, existsb. cbn [fst fields_ret sk_ScriptArgs sk_Command sk_Args
    sk_Produces sk_Consumes sk_ReleaseConfig sk_RolloutConfig sk_ApprovalConfig sk_RetryPolicy].
  by rewrite !dec_raw_clean.
Qed.

Lemma dec_tasks_clean v : existsb (fun t => existsb raw_bad (task_raws t)) (dec v : list SnapshotTask * bool).1 = false.
Proof.
  destruct v as [| | | | |l|]; try reflexivity. cbn -[dec Codec_SnapshotTask]. 
  apply not_true_is_false. rewrite existsb_exists. intros (t & Ht%list_elem_of_In & Hb).
  apply list_elem_of_fmap in Ht as (d & -> & (v & -> & _)%list_elem_of_fmap).
  exact (eq_true_false_abs _ Hb (dec_task_clean v)).
Qed.

Definition stage_clean (st : SnapshotStage) : Prop := forall t, t ∈ ss_Tasks st -> existsb raw_bad (task_raws t) = false.

Lemma existsb_false {A} (f : A -> bool) l x : existsb f l = false -> x ∈ l -> f x = false.
Proof.
  intros H Hx. apply not_true_is_false. intros Hf. apply not_true_iff_false in H. apply H, existsb_exists.
  exists x. split; [by apply list_elem_of_In|done].
Qed.

Lemma dec_field_clean name kvs t :
  t ∈ (dec_field (Codec_list (A := SnapshotTask)) name kvs).1 -> existsb raw_bad (task_raws t) = false.
Proof.
  unfold dec_field. destruct (get_key name kvs) as [v|]; [|by intros ?%elem_of_nil].
  intros Ht. pose proof (dec_tasks_clean v) as H. by apply (existsb_false _ _ _ H).
Qed.

Lemma dec_stage_clean v : stage_clean (dec v : SnapshotStage * bool).1.
Proof.
  destruct v as [| | | | | |kvs]; try (intros t Ht; by apply elem_of_nil in Ht).
  cbn [dec Codec_SnapshotStage dec_struct]. rewrite !fields_ap_fst. intros t. apply dec_field_clean.
Qed.

Lemma dec_stages_clean `{Platform} kvs st :
  st ∈ (dec_field (Codec_list (A := SnapshotStage)) "stages" kvs).1 -> stage_clean st.
Proof.
  unfold dec_field. destruct (get_key "stages" kvs) as [v|]; [|by intros ?%elem_of_nil].
  destruct v as [| | | | |l|]; try (by intros ?%elem_of_nil).
  intros (d & -> & (v & -> & _)%list_elem_of_fmap)%list_elem_of_fmap. apply dec_stage_clean.
Qed.

Lemma DecodeSnapshot_clean `{Platform} raw snap :
  DecodeSnapshot raw = Ok snap -> forall st, st ∈ sn_Stages snap -> stage_clean st.
Proof.
  unfold DecodeSnapshot, UnmarshalE, Unmarshal. destruct raw as [|text|v]; try done. simpl raw_len0.
  destruct (dec v : Snapshot * bool) as [s ok] eqn:E. destruct ok; [|done]. intros [= <-] st.
  assert (Hs : (dec v : Snapshot * bool).1 = s) by (by rewrite E). clear E. subst s.
  destruct v as [| | | | | |kvs]; try (by intros ?%elem_of_nil).
  cbn [dec Codec_Snapshot dec_struct]. rewrite !fields_ap_fst. apply dec_stages_clean.
Qed.

Section Tables.
Context {G : Gorm} {GL : GormLaws G} {P : Platform} {D : Dispatcher}.

(** The live stages of a pipeline, and the live tasks of a stage. *)
Definition live_stages (pid : UUID) (w : World) : list PipelineStage :=
  selected (fun s => st_PipelineID s =? pid) (rows (w_stages w)).
Definition live_tasks (sid : UUID) (w : World) : list PipelineTaskTemplate :=
  selected (fun t => tpl_StageID t =? sid) (rows (w_templates w)).

Definition kill_stage (now : Time) (s : PipelineStage) : PipelineStage := s <| st_DeletedAt := Some now |>.
Definition kill_template (now : Time) (t : PipelineTaskTemplate) : PipelineTaskTemplate :=
  t <| tpl_DeletedAt := Some now |>.

Lemma selected_delete_stages now p q l :
  selected q (delete_rows now p l) = selected (fun r : PipelineStage => q r && negb (p r)) l.
Proof. by apply (selected_delete now (kill_stage now)). Qed.
Lemma selected_delete_templates now p q l :
  selected q (delete_rows now p l) = selected (fun r : PipelineTaskTemplate => q r && negb (p r)) l.
Proof. by apply (selected_delete now (kill_template now)). Qed.
Lemma stage_keys_delete now p l : st_ID <$> delete_rows now p l = st_ID <$> l.
Proof. by apply (fmap_delete now (kill_stage now)). Qed.
Lemma template_keys_delete now p l : tpl_ID <$> delete_rows now p l = tpl_ID <$> l.
Proof. by apply (fmap_delete now (kill_template now)). Qed.
Lemma template_stages_delete now p l : tpl_StageID <$> delete_rows now p l = tpl_StageID <$> l.
Proof. by apply (fmap_delete now (kill_template now)). Qed.

(** Every template belongs to a stage (the foreign key), and no row has the
    nil identifier. *)
Record sound_definition (w : World) : Prop := mkSoundDefinition {
  sd_stages : healthy (w_stages w);
  sd_templates : healthy (w_templates w);
  sd_stage_keys : NoDup (st_ID <$> rows (w_stages w));
  sd_stage_nil : uuid_Nil ∉ (st_ID <$> rows (w_stages w));
  sd_template_nil : uuid_Nil ∉ (tpl_ID <$> rows (w_templates w));
  sd_foreign : forall sid, sid ∈ (tpl_StageID <$> rows (w_templates w)) -> sid ∈ (st_ID <$> rows (w_stages w));
}.

(** * Clearing *)

Definition in_stages (l : list PipelineStage) (sid : UUID) : bool := bool_decide (sid ∈ (st_ID <$> l)).

Record cleared (l : list PipelineStage) (w w' : World) : Prop := mkCleared {
  cl_now : w_now w' = w_now w;
  cl_sound : sound_definition w';
  cl_stage_keys : st_ID <$> rows (w_stages w') = st_ID <$> rows (w_stages w);
  cl_stages : forall q, selected q (rows (w_stages w')) =
    selected (fun s => q s && negb (in_stages l (st_ID s))) (rows (w_stages w));
  cl_templates : forall q, selected q (rows (w_templates w')) =
    selected (fun t => q t && negb (in_stages l (tpl_StageID t))) (rows (w_templates w));
}.

Lemma in_stages_snoc l st sid : in_stages (l ++ [st]) sid = in_stages l sid || (sid =? st_ID st).
Proof.
  unfold in_stages. apply eq_bool_prop_intro. rewrite orb_True, !bool_decide_spec, fmap_app, elem_of_app.
  simpl. rewrite list_elem_of_singleton, Is_true_true, Z.eqb_eq. done.
Qed.

(** Soundness only depends on the keys. *)
Lemma sound_definition_keys w w' :
  sound_definition w -> healthy (w_stages w') -> healthy (w_templates w') ->
  st_ID <$> rows (w_stages w') = st_ID <$> rows (w_stages w) ->
  tpl_ID <$> rows (w_templates w') = tpl_ID <$> rows (w_templates w) ->
  tpl_StageID <$> rows (w_templates w') = tpl_StageID <$> rows (w_templates w) ->
  sound_definition w'.
Proof. intros [] H1 H2 E1 E2 E3. split; rewrite ?E1, ?E2, ?E3; done. Qed.

Lemma cleared_nil w w' : sound_definition w -> same w w' -> cleared [] w w'.
Proof.
  intros Hs Hw. destruct (same_stages _ _ Hw) as [E1 H1], (same_templates _ _ Hw) as [E2 H2].
  split; [apply Hw| |by rewrite E1|intros q; rewrite E1|intros q; rewrite E2];
    [|apply selected_ext; intros; by rewrite andb_true_r..].
  apply (sound_definition_keys w); rewrite ?E1, ?E2; try done; [apply H1|apply H2]; apply Hs.
Qed.

(** One round: the stage's templates, then the stage. *)
Lemma wp_clear_round l st w0 w (Q : Result unit -> World -> Prop) :
  cleared l w0 w -> NoDup (st_ID <$> rows (w_stages w0)) ->
  (forall w', cleared (l ++ [st]) w0 w' -> Q (Ok tt) w') ->
  wp (try* _ := stmt w_templates (fun now => TaskTemplateRepository.DeleteByStageID now (st_ID st)) in
      try* _ := stmt w_stages (fun now => StageRepository.Delete now (st_ID st)) in
      ret (Ok tt)) Q w.
Proof.
  intros [Hnow Hs Hk Hst Htp] Hnd HQ.
  apply wp_try, wp_stmt, wp_Delete; [|by intros e t _ Hn; destruct Hn; apply Hs].
  intros tt1 Hh1 Er1. cbn.
  apply wp_try, wp_stmt, wp_Delete; [|by intros e t _ Hn; destruct Hn; apply Hs].
  intros ts1 Hh2 Er2. cbn in Er2. apply wp_ret, HQ. split; cbn.
  - done.
  - apply (sound_definition_keys w); cbn; rewrite ?Er1, ?Er2;
      [done|apply Hh2, Hs|apply Hh1, Hs|apply stage_keys_delete|apply template_keys_delete|apply template_stages_delete].
  - by rewrite Er2, stage_keys_delete.
  - intros q. rewrite Er2, selected_delete_stages, Hst. apply selected_ext. intros r _ _.
    rewrite in_stages_snoc, negb_orb. by rewrite andb_assoc, <- !andb_assoc, (andb_comm (negb (st_ID r =? _))).
  - intros q. rewrite Er1, selected_delete_templates, Htp. apply selected_ext. intros r _ _.
    rewrite in_stages_snoc, negb_orb. by rewrite <- !andb_assoc, (andb_comm (negb (tpl_StageID r =? _))).
Qed.

Lemma wp_clearStructure pid w (Q : Result unit -> World -> Prop) :
  sound_definition w ->
  (forall l w', (l ≡ₚ live_stages pid w) -> cleared l w w' -> Q (Ok tt) w') ->
  wp (PipelineVersionService.clearStructure pid) Q w.
Proof.
  intros Hs HQ. unfold PipelineVersionService.clearStructure.
  apply wp_try, (wp_zoom w_stages), wp_Find; [|by intros e t _ Hn; destruct Hn; apply Hs].
  intros l t Ht Hq. apply query_result_nolimit in Hq as [Hperm _]; [|done|done].
  apply (wp_for_each_err (fun pre => cleared pre w)).
  - apply cleared_nil; [done|by apply field_same].
  - intros pre st post w1 _ Hc. apply (wp_clear_round pre _ w); [done|apply Hs|done].
  - intros w1 Hc. by apply (HQ l).
Qed.

Lemma cleared_live l pid w w' :
  sound_definition w -> (l ≡ₚ live_stages pid w) -> cleared l w w' ->
  live_stages pid w' = [] /\ (forall q, q <> pid -> live_stages q w' = live_stages q w) /\
  (forall sid, live_tasks sid w' = if in_stages l sid then [] else live_tasks sid w).
Proof.
  intros Hs Hl Hc. assert (Hin : forall s, s ∈ l <-> alive s = true /\ st_PipelineID s = pid /\ s ∈ rows (w_stages w)).
  { intros s. rewrite Hl. unfold live_stages. rewrite elem_of_selected, Z.eqb_eq. done. }
  split_and!.
  - unfold live_stages. rewrite (cl_stages _ _ _ Hc). apply selected_none. intros s Hr Ha.
    apply andb_false_iff. destruct (Z.eqb_spec (st_PipelineID s) pid) as [E|]; [right|by left].
    apply negb_false_iff, bool_decide_eq_true, list_elem_of_fmap. exists s. split; [done|]. by apply Hin.
  - intros q Hne. unfold live_stages. rewrite (cl_stages _ _ _ Hc). apply selected_ext. intros s Hr Ha.
    destruct (Z.eqb_spec (st_PipelineID s) q) as [E|]; [|done]. apply negb_true_iff, bool_decide_eq_false.
    intros (s' & Eid & (_ & Epid & Hr')%Hin)%list_elem_of_fmap.
    assert (s = s'); [|congruence]. apply (key_unique st_ID _ _ _ (sd_stage_keys _ Hs)); done.
  - intros sid. unfold live_tasks. rewrite (cl_templates _ _ _ Hc). destruct (in_stages l sid) eqn:E.
    + apply selected_none. intros t _ _. destruct (Z.eqb_spec (tpl_StageID t) sid) as [->|]; [|done]. by rewrite E.
    + apply selected_ext. intros t _ _. destruct (Z.eqb_spec (tpl_StageID t) sid) as [->|]; [|done]. by rewrite E.
Qed.

(** * Materializing *)

Definition restored_task (sid : UUID) (now : Time) (t : SnapshotTask) (r : PipelineTaskTemplate) : Prop :=
  exists id, r = created id now (PipelineVersionService.template_row_of sid t).

(** A row made for a snapshot stage, with exactly the rows of its tasks. *)
Definition restored_stage (pid : UUID) (w : World) (st : SnapshotStage) (row : PipelineStage) : Prop :=
  row = created (st_ID row) (w_now w) (PipelineVersionService.stage_row_of pid st) /\
  Forall2 (restored_task (st_ID row) (w_now w)) (ss_Tasks st) (live_tasks (st_ID row) w).

Definition restored (pid : UUID) (stages : list SnapshotStage) (w : World) : Prop :=
  Forall2 (restored_stage pid w) stages (live_stages pid w).

(** What the unique indexes demand of a snapshot. *)
Definition sound_plan (stages : list SnapshotStage) : Prop :=
  NoDup (ss_Sequence <$> stages) /\ Forall (fun st => NoDup (sk_Name <$> ss_Tasks st)) stages.

Lemma NoDup_mid {A K} (f : A -> K) pre x post y :
  NoDup (f <$> pre ++ x :: post) -> y ∈ pre -> f y <> f x.
Proof.
  rewrite fmap_app, fmap_cons, NoDup_app. intros (_ & H & _) Hy E. apply (H (f y)).
  - apply list_elem_of_fmap. by exists y.
  - rewrite E. left.
Qed.


Lemma wp_materialize_tasks name sid ts w (Q : Result unit -> World -> Prop) :
  sound_definition w -> sid ∈ (st_ID <$> rows (w_stages w)) -> live_tasks sid w = [] ->
  NoDup (sk_Name <$> ts) ->
  (forall w', sound_definition w' -> w_now w' = w_now w -> w_stages w' = w_stages w ->
     Forall2 (restored_task sid (w_now w)) ts (live_tasks sid w') ->
     (forall x, x <> sid -> live_tasks x w' = live_tasks x w) -> Q (Ok tt) w') ->
  wp (for_each_err ts (PipelineVersionService.materialize_task name sid)) Q w.
Proof.
  intros Hs Hsid Hnone Hnd HQ.
  apply (wp_for_each_err (fun pre w' => sound_definition w' /\ w_now w' = w_now w /\ w_stages w' = w_stages w /\
    Forall2 (restored_task sid (w_now w)) pre (live_tasks sid w') /\
    forall x, x <> sid -> live_tasks x w' = live_tasks x w)).
  - split_and!; try done. rewrite Hnone. constructor.
  - intros pre t post w1 -> ([] & Hnow & Hst & Hdone & Hoth).
    apply wp_bind, wp_stmt, wp_Create_fresh; [done|done| |].
    + apply Forall_forall. intros x Hx. apply not_true_is_false. simpl.
      intros [[[Ha _]%andb_true_iff Esid%Z.eqb_eq]%andb_true_iff Ename%String.eqb_eq]%andb_true_iff.
      destruct (Forall2_elem_r _ _ _ x Hdone) as (t' & Ht' & id & E).
      { apply elem_of_selected. split_and!; [done|by apply Z.eqb_eq|done]. }
      apply (NoDup_mid sk_Name _ _ _ _ Hnd Ht'). rewrite <- Ename, E. done.
    + intros r' tt1 Hh (id & Hid & Hfresh & _ & ->) Hr. apply wp_ret. split_and!; cbn; [|done|done|..].
      * split; cbn; rewrite ?Hr, ?fmap_app; try done.
        -- rewrite not_elem_of_app. split; [done|]. simpl. rewrite list_elem_of_singleton. by intros <-.
        -- intros x. rewrite elem_of_app. intros [Hx|Hx%list_elem_of_singleton]; [auto|]. subst. by rewrite Hst.
      * change (Forall2 (restored_task sid (w_now w)) (pre ++ [t]) (live_tasks sid (w1 <| w_templates := tt1 |>))).
        unfold live_tasks. cbn. rewrite Hr, selected_app. apply Forall2_app; [done|]. unfold selected.
        rewrite filter_cons. simpl. rewrite Z.eqb_refl. constructor; [|constructor]. exists id. by rewrite Hnow.
      * intros x Hx. rewrite <- Hoth by done. unfold live_tasks. cbn. rewrite Hr, selected_app.
        unfold selected at 2. rewrite filter_cons. simpl. destruct (Z.eqb_spec sid x) as [->|]; [done|]. apply app_nil_r.
  - intros w' (H1 & H2 & H3 & H4 & H5). by apply HQ.
Qed.

(** The state after some of the stages. *)
Record materialized (pid : UUID) (w : World) (pre : list SnapshotStage) (w' : World) : Prop := mkMaterialized {
  mt_sound : sound_definition w';
  mt_now : w_now w' = w_now w;
  mt_keys : forall sid, sid ∈ (st_ID <$> rows (w_stages w)) -> sid ∈ (st_ID <$> rows (w_stages w'));
  mt_restored : restored pid pre w';
  mt_stages : forall q, q <> pid -> live_stages q w' = live_stages q w;
  mt_tasks : forall sid, sid ∈ (st_ID <$> rows (w_stages w)) -> live_tasks sid w' = live_tasks sid w;
}.

Lemma live_stage_key pid w s : s ∈ live_stages pid w -> st_ID s ∈ (st_ID <$> rows (w_stages w)).
Proof. intros (_ & _ & H)%elem_of_selected. apply list_elem_of_fmap. by exists s. Qed.

Lemma live_tasks_fresh sid w :
  sound_definition w -> sid ∉ (st_ID <$> rows (w_stages w)) -> live_tasks sid w = [].
Proof.
  intros Hs Hsid. apply selected_none. intros t Ht _. apply Z.eqb_neq. intros <-. apply Hsid, Hs.
  apply list_elem_of_fmap. by exists t.
Qed.

(** The row of a new stage joins the table. *)
Lemma stage_inserted pid st w ts1 id :
  sound_definition w -> healthy ts1 -> id <> uuid_Nil -> id ∉ (st_ID <$> rows (w_stages w)) ->
  let row := created id (w_now w) (PipelineVersionService.stage_row_of pid st) in
  rows ts1 = rows (w_stages w) ++ [row] ->
  let w1 := set_field w_stages (fun _ => ts1) w in
  sound_definition w1 /\ live_stages pid w1 = live_stages pid w ++ [row] /\
  (forall q, q <> pid -> live_stages q w1 = live_stages q w).
Proof.
  intros [] Hh Hid Hfresh row Hr w1. split_and!.
  - split; cbn; rewrite ?Hr, ?fmap_app; try done.
    + apply NoDup_app. split; [done|]. split; [|apply NoDup_singleton].
      intros x Hx Hx'%list_elem_of_singleton. by subst.
    + rewrite not_elem_of_app. split; [done|]. simpl. rewrite list_elem_of_singleton. by intros <-.
    + intros x Hx. apply elem_of_app. left. auto.
  - unfold live_stages. cbn. rewrite Hr, selected_app. f_equal. unfold selected. rewrite filter_cons. simpl.
    by rewrite Z.eqb_refl.
  - intros q Hq. unfold live_stages. cbn. rewrite Hr, selected_app. unfold selected at 2. rewrite filter_cons. simpl.
    destruct (Z.eqb_spec pid q) as [->|]; [done|]. apply app_nil_r.
Qed.

Lemma wp_materialize_stage pid w pre st post w1 (Q : Result unit -> World -> Prop) :
  sound_plan (pre ++ st :: post) -> materialized pid w pre w1 ->
  (forall w2, materialized pid w (pre ++ [st]) w2 -> Q (Ok tt) w2) ->
  wp (PipelineVersionService.materialize_stage pid st) Q w1.
Proof.
  intros [Hseq Htn] [Hs Hnow Hkeys Hdone Hst Htk] HQ. unfold PipelineVersionService.materialize_stage.
  apply wp_bind, wp_stmt, wp_Create_fresh; [apply Hs|apply Hs| |].
  - apply Forall_forall. intros x Hx. apply not_true_is_false. simpl.
    intros [[[Ha _]%andb_true_iff Epid%Z.eqb_eq]%andb_true_iff Eseq%Z.eqb_eq]%andb_true_iff.
    destruct (Forall2_elem_r _ _ _ x Hdone) as (st' & Hst' & E & _).
    { apply elem_of_selected. split_and!; [done|by apply Z.eqb_eq|done]. }
    apply (NoDup_mid ss_Sequence _ _ _ _ Hseq Hst'). rewrite <- Eseq, E. done.
  - intros r' ts1 Hh (id & Hid & Hfresh & _ & ->) Hr. cbn in Hfresh.
    destruct (stage_inserted pid st w1 ts1 id Hs Hh Hid Hfresh Hr) as (Hs1 & Hl1 & Hl1').
    set (row := created id (w_now w1) (PipelineVersionService.stage_row_of pid st)) in *.
    set (w1' := set_field w_stages (fun _ => ts1) w1) in *.
    assert (Erow : st_ID row = id) by done. rewrite Erow.
    apply wp_materialize_tasks; [done| | |by apply Forall_app, proj2, Forall_cons, proj1 in Htn|].
    + cbn. rewrite Hr, fmap_app. apply elem_of_app. right. simpl. left.
    + change (live_tasks id w1 = []). by apply live_tasks_fresh.
    + intros w2 Hs2 Hnow2 Est2 Hts Hoth.
      assert (Els : forall q, live_stages q w2 = live_stages q w1') by (intros q; unfold live_stages; by rewrite Est2).
      assert (Hold : forall x, x ∈ (st_ID <$> rows (w_stages w1)) -> live_tasks x w2 = live_tasks x w1).
      { intros x Hx. rewrite Hoth; [done|]. by intros ->. }
      apply HQ. split; [done|by rewrite Hnow2| | | |].
      * intros sid Hsid%Hkeys. rewrite Est2. cbn. rewrite Hr, fmap_app. apply elem_of_app. by left.
      * unfold restored. rewrite Els, Hl1. apply Forall2_app.
        -- apply (Forall2_impl_in _ _ _ _ Hdone). intros s x _ Hx [E HF]. unfold restored_stage.
           rewrite Hnow2, (Hold (st_ID x)) by (by apply (live_stage_key pid)). done.
        -- constructor; [|constructor]. unfold restored_stage. rewrite Hnow2. done.
      * intros q Hq. rewrite Els, Hl1', Hst; done.
      * intros sid Hsid. rewrite Hold, Htk; auto.
Qed.

Lemma wp_materialize pid stages w (Q : Result unit -> World -> Prop) :
  sound_plan stages -> sound_definition w -> live_stages pid w = [] ->
  (forall w', materialized pid w stages w' -> Q (Ok tt) w') ->
  wp (for_each_err stages (PipelineVersionService.materialize_stage pid)) Q w.
Proof.
  intros Hp Hs Hnone HQ. apply (wp_for_each_err (materialized pid w)).
  - split; try done. unfold restored. rewrite Hnone. constructor.
  - intros pre st post w1 -> Hm. by apply (wp_materialize_stage pid w pre st post).
  - done.
Qed.

(** * Publishing *)

(** The snapshot of the live definition: stages by sequence, each with its
    tasks by display order. *)
Definition describes (p : Pipeline) (w : World) (snap : Snapshot) : Prop :=
  exists stages by_stage, snap = BuildSnapshot p stages by_stage /\
    (stages ≡ₚ live_stages (pl_ID p) w) /\ Sorted (by_keys [st_Sequence]) stages /\
    forall st, st ∈ stages -> exists ts, by_stage !! st_ID st = Some ts /\
      (ts ≡ₚ live_tasks (st_ID st) w) /\ Sorted (by_keys [tpl_DisplayOrder]) ts.

(** The pipeline's row, and its counter against the recorded versions. *)
Record sound_history (p : Pipeline) (w : World) : Prop := mkSoundHistory {
  sh_pipelines : healthy (w_pipelines w);
  sh_versions : healthy (w_versions w);
  sh_rows : sound_rows (rows (w_pipelines w));
  sh_row : p ∈ rows (w_pipelines w);
  sh_live : alive p = true;
  sh_nil : uuid_Nil ∉ (ver_ID <$> rows (w_versions w));
  sh_counter : forall v, v ∈ rows (w_versions w) -> ver_PipelineID v = pl_ID p -> ver_Version v <= pl_Version p;
}.

(** The columns hold documents (a jsonb column holds nothing else). *)
Record sound_documents (p : Pipeline) (w : World) : Prop := mkSoundDocuments {
  sdoc_params : raw_bad (pl_Params p) = false;
  sdoc_tasks : forall st t, st ∈ live_stages (pl_ID p) w -> t ∈ live_tasks (st_ID st) w ->
    existsb raw_bad (task_raws (snapshot_task t)) = false;
}.

Lemma wp_pipeline_row p w (Q : Result Pipeline -> World -> Prop) :
  sound_history p w -> (forall w', same w w' -> Q (Ok p) w') ->
  wp (zoom w_pipelines (PipelineRepository.GetByID (pl_ID p))) Q w.
Proof.
  intros [] HQ. apply (wp_zoom w_pipelines), (wp_First_only _ _ p); try done.
  - apply Z.eqb_refl.
  - intros y Hy _ E%Z.eqb_eq. by apply (sound_key _ _ _ sh_rows0).
  - intros t Ht. apply HQ. by apply field_same.
Qed.

Lemma sound_definition_same w w' : sound_definition w -> same w w' -> sound_definition w'.
Proof.
  intros Hs Hw. destruct (same_stages _ _ Hw) as [E1 H1], (same_templates _ _ Hw) as [E2 H2].
  apply (sound_definition_keys w); rewrite ?E1, ?E2; try done; [apply H1|apply H2]; apply Hs.
Qed.
Lemma live_stages_same q w w' : same w w' -> live_stages q w' = live_stages q w.
Proof. intros Hw. unfold live_stages. by destruct (same_stages _ _ Hw) as [-> _]. Qed.
Lemma live_tasks_same q w w' : same w w' -> live_tasks q w' = live_tasks q w.
Proof. intros Hw. unfold live_tasks. by destruct (same_templates _ _ Hw) as [-> _]. Qed.

Lemma wp_currentSnapshot p w (Q : Result Snapshot -> World -> Prop) :
  sound_history p w -> sound_definition w ->
  (forall snap w', same w w' -> describes p w snap -> Q (Ok snap) w') ->
  wp (PipelineVersionService.currentSnapshot (pl_ID p)) Q w.
Proof.
  intros Hh Hs HQ. unfold PipelineVersionService.currentSnapshot.
  apply wp_try, wp_pipeline_row; [done|]. intros w1 Hw1.
  apply wp_try, (wp_zoom w_stages), wp_Find.
  2: { intros e t _ Hn. destruct Hn. by apply (sd_stages _ (sound_definition_same _ _ Hs Hw1)). }
  intros stages t Ht Hq. apply query_result_nolimit in Hq as [Hperm Hsort]; [|done|done].
  change (selected _ _) with (live_stages (pl_ID p) w1) in Hperm. rewrite (live_stages_same _ _ _ Hw1) in Hperm.
  assert (Hnd : NoDup (st_ID <$> stages)).
  { rewrite Hperm. unfold live_stages. pose proof (sd_stage_keys _ Hs) as Hnd.
    eapply sublist_NoDup; [exact Hnd|]. by apply fmap_sublist, sublist_filter. }
  apply wp_try, (wp_fold_err (fun pre acc w' => same w w' /\ forall st, st ∈ pre -> exists ts,
    acc !! st_ID st = Some ts /\ (ts ≡ₚ live_tasks (st_ID st) w) /\ Sorted (by_keys [tpl_DisplayOrder]) ts)).
  - split; [etransitivity; [exact Hw1|by apply field_same]|]. by intros st ?%elem_of_nil.
  - intros pre st post acc w2 El [Hw2 Hacc]. apply wp_try, (wp_zoom w_templates), wp_Find.
    2: { intros e t' _ Hn. destruct Hn. by apply (sd_templates _ (sound_definition_same _ _ Hs Hw2)). }
    intros ts t' Ht' Hq. apply query_result_nolimit in Hq as [Hperm' Hsort']; [|done|done].
    change (selected _ _) with (live_tasks (st_ID st) w2) in Hperm'. rewrite (live_tasks_same _ _ _ Hw2) in Hperm'.
    apply wp_ret. split; [etransitivity; [exact Hw2|by apply field_same]|].
    intros st' [Hst'| ->%list_elem_of_singleton]%elem_of_app; [|exists ts; by rewrite lookup_insert_eq].
    rewrite lookup_insert_ne; [by apply Hacc|]. rewrite El in Hnd. intros E.
    by apply (NoDup_mid st_ID _ _ _ _ Hnd Hst').
  - intros acc w2 [Hw2 Hacc]. apply wp_ret, HQ; [done|]. by exists stages, acc.
Qed.

Context {T : JSONText}.

(** The text of the newest recorded version. *)
Definition latest_text (pid : UUID) (w : World) (text : string) : Prop :=
  exists v, v ∈ rows (w_versions w) /\ ver_PipelineID v = pid /\
    PipelineVersionService.stored_text (ver_Snapshot v) = text /\
    forall v', v' ∈ rows (w_versions w) -> ver_PipelineID v' = pid -> ver_Version v' <= ver_Version v.

(** The next version, holding [body]. *)
Record recorded (p : Pipeline) (body : json) (who : string) (w w' : World) : Prop := mkRecorded {
  rc_now : w_now w' = w_now w;
  rc_version : exists id, rows (w_versions w') = rows (w_versions w) ++
    [mkPipelineVersion id (pl_ID p) (pl_Version p + 1) (RawDoc body) who (w_now w)];
  rc_pipelines : rows (w_pipelines w') =
    save_rows (w_now w) (p <| pl_Version := pl_Version p + 1 |>) (rows (w_pipelines w));
  rc_healthy : healthy (w_pipelines w');
  rc_stages : rows (w_stages w') = rows (w_stages w);
  rc_templates : rows (w_templates w') = rows (w_templates w);
}.

Lemma wp_record_version p body who w w0 (Q : Result unit -> World -> Prop) :
  sound_history p w0 -> same w0 w -> w_now w0 <> time_Zero ->
  (forall w', recorded p body who w0 w' -> Q (Ok tt) w') ->
  wp (PipelineVersionService.record_version (pl_ID p) body who) Q w.
Proof.
  intros Hh Hw Hnz HQ. unfold PipelineVersionService.record_version.
  assert (Hh1 : forall w1, same w0 w1 -> sound_history p w1).
  { intros w1 Hw1. destruct Hh, (same_pipelines _ _ Hw1) as [E1 H1], (same_versions _ _ Hw1) as [E2 H2].
    split; rewrite ?E1, ?E2; auto. }
  apply wp_try, wp_pipeline_row; [by apply Hh1|]. intros w1 Hw1.
  assert (Hw01 : same w0 w1) by (by etransitivity). destruct (Hh1 w1 Hw01).
  apply wp_try, wp_stmt, (wp_Save_row _ _ p); try done.
  intros tp Htp Hrp. cbn -[healthy]. apply wp_try, wp_stmt, wp_Create_fresh; try done.
  - apply Forall_forall. intros v Hv. apply andb_false_iff. cbn.
    destruct (Z.eqb_spec (ver_PipelineID v) (pl_ID p)) as [E|]; [right|by left].
    apply Z.eqb_neq. specialize (sh_counter0 v Hv E). lia.
  - intros v tv Htv (id & _ & _ & _ & ->) Hrv. apply wp_ret, HQ. pose proof (same_now _ _ Hw01) as Hn.
    destruct (same_pipelines _ _ Hw01) as [E1 _], (same_versions _ _ Hw01) as [E2 _],
      (same_stages _ _ Hw01) as [E3 _], (same_templates _ _ Hw01) as [E4 _].
    split; cbn; [done| |by rewrite Hrp, E1, Hn|done|done|done]. exists id.
    rewrite Hrv. cbn. by rewrite E2, Hn.
Qed.

Lemma MarshalSnapshot_described p w snap :
  sound_documents p w -> describes p w snap -> exists body, MarshalSnapshot snap = Ok body.
Proof.
  intros [Hp Ht] (stages & by_stage & -> & Hst & _ & Hby). unfold MarshalSnapshot.
  assert (E : existsb raw_bad (snapshot_raws (BuildSnapshot p stages by_stage)) = false).
  { apply not_true_is_false. rewrite existsb_exists. intros (r & [<-|Hr]%in_inv & Hbad); [cbn in Hbad; unfold rawOrEmpty in Hbad; congruence|].
    apply list_elem_of_In, list_elem_of_bind in Hr as (st & Hr & (st0 & -> & Hst0)%list_elem_of_fmap). cbn in Hr.
    apply list_elem_of_bind in Hr as (t & Hr & (t0 & -> & Ht0)%list_elem_of_fmap).
    destruct (Hby st0 Hst0) as (ts & Ets & Hperm & _). rewrite Ets in Ht0. simpl in Ht0. rewrite Hperm in Ht0.
    rewrite Hst in Hst0. specialize (Ht st0 t0 Hst0 Ht0). apply Is_true_false in Ht. apply Ht.
    apply Is_true_true, existsb_exists. exists r. split; [by apply list_elem_of_In|done]. }
  rewrite E. by eexists.
Qed.

(** Publishing a sound definition: nothing when its text is the newest
    version's, the next version otherwise. *)
Lemma wp_Publish p who w (Q : Result unit -> World -> Prop) :
  sound_history p w -> sound_definition w -> sound_documents p w -> w_now w <> time_Zero ->
  (forall snap body w', describes p w snap -> MarshalSnapshot snap = Ok body ->
     (latest_text (pl_ID p) w (marshal_text body) /\ same w w') \/ recorded p body who w w' -> Q (Ok tt) w') ->
  wp (PipelineVersionService.Publish (pl_ID p) who) Q w.
Proof.
  intros Hh Hs Hd Hnz HQ. unfold PipelineVersionService.Publish.
  apply wp_try, wp_currentSnapshot; [done|done|]. intros snap w1 Hw1 Hdesc.
  destruct (MarshalSnapshot_described p w snap Hd Hdesc) as (body & Eb). rewrite Eb.
  assert (Hrec : forall w2, same w w2 -> wp (PipelineVersionService.record_version (pl_ID p) body who) Q w2).
  { intros w2 Hw2. apply (wp_record_version _ _ _ _ w); [done..|]. intros w' Hr. apply (HQ snap body); auto. }
  apply wp_bind, (wp_zoom w_versions). apply wp_run. intros res t E.
  pose proof (First_spec _ _ _ _ E) as (Er & Hht & Hres).
  assert (Hw2 : same w (set_field w_versions (fun _ => t) w1)).
  { etransitivity; [exact Hw1|]. apply field_same. by split. }
  destruct (same_versions _ _ Hw1) as [Ev Hhv]. destruct res as [v|e].
  - destruct (String.eqb_spec (PipelineVersionService.stored_text (ver_Snapshot v)) (marshal_text body)) as [Et|]; [|by apply Hrec].
    apply wp_ret, (HQ snap body); [done|done|]. left. split; [|done]. exists v.
    destruct Hres as (l' & Hq). apply query_result_nolimit in Hq as [Hperm Hsort]; [|done|done].
    assert (Hall : forall x, x ∈ v :: l' <-> ver_PipelineID x = pl_ID p /\ x ∈ rows (w_versions w)).
    { intros x. rewrite Hperm, elem_of_selected, Ev. cbn. rewrite Z.eqb_eq. tauto. }
    destruct (proj1 (Hall v) ltac:(left)) as [Epid Hin]. split_and!; [done|done|done|].
    intros v' Hv' Ep'. assert (Hv'l : v' ∈ v :: l') by (by apply Hall).
    apply elem_of_cons in Hv'l as [->|Hv'l]; [lia|].
    apply Sorted_StronglySorted, StronglySorted_inv in Hsort as [_ Hle]; [|apply _].
    rewrite Forall_forall in Hle. specialize (Hle v' Hv'l). unfold by_keys in Hle. cbn in Hle. 
    apply orb_true_iff in Hle as [Hle%Z.ltb_lt|[Hle%Z.eqb_eq _]%andb_true_iff]; lia.
  - destruct Hres as [[-> _]|[_ Hn]]; [by apply Hrec|]. destruct Hn. apply Hhv, Hh.
Qed.
End Tables.
