(* ===== verification/AgentOpProperties.v ===== *)
(** How the ledger of agent operations evolves, what it guarantees, and
    evaluations on the concrete hub. *)
From stdpp Require Import base list strings gmap relations.
From Stdlib Require Import ZArith Lia.
From S2P Require Import Prelude Common Gorm Json RunnerProto RunStore PipelineStore TargetStore EditStore.
From S2P Require Import World WorldLogic RunDispatch Frames Gateway Instances AgentOps.

Open Scope Z_scope.

(** * One row *)

(** A legal transition: only status, message and time of update change. *)
Definition op_edge (o o' : AgentOp) : Prop :=
  IsValidAgentOpTransition (op_Status o) (op_Status o') = true /\
  o' = o <| op_Status := op_Status o' |> <| op_Message := op_Message o' |> <| op_UpdatedAt := op_UpdatedAt o' |>.

Definition op_reach : AgentOp -> AgentOp -> Prop := rtc op_edge.
#[global] Instance op_reach_preorder : PreOrder op_reach := rtc_po.

Lemma transition_not_terminal from to :
  IsValidAgentOpTransition from to = true -> IsTerminalAgentOpStatus from = false.
Proof.
  unfold IsValidAgentOpTransition, IsTerminalAgentOpStatus.
  destruct (String.eqb_spec from AgentOpPendingApproval) as [->|]; [done|].
  destruct (String.eqb_spec from AgentOpQueued) as [->|]; [done|].
  by destruct (String.eqb_spec from AgentOpRunning) as [->|].
Qed.

Lemma op_reach_terminal o o' :
  op_reach o o' -> IsTerminalAgentOpStatus (op_Status o) = true -> o' = o.
Proof. intros [|? ? ? [Ht _] _] Hterm; [done|]. apply transition_not_terminal in Ht. congruence. Qed.

(** Who the operation is for and what it does never change. *)
Definition op_identity (o : AgentOp) : UUID * UUID * option UUID * string * string * Time :=
  (op_ID o, op_TargetID o, op_EnvID o, op_OpType o, op_Detail o, op_CreatedAt o).

Lemma op_reach_identity o o' : op_reach o o' -> op_identity o' = op_identity o.
Proof. induction 1 as [|? ? ? [_ E] _ IH]; [done|]. rewrite IH, E. done. Qed.

Lemma op_reach_status o o' :
  op_reach o o' -> rtc (fun a b => IsValidAgentOpTransition a b = true) (op_Status o) (op_Status o').
Proof. induction 1 as [|a b c [Ht _] _ IH]; [constructor|by eapply rtc_l]. Qed.

(** * The table *)

(** Every row moved along legal transitions; new rows came at the end. *)
Definition ops_evolve (l l' : list AgentOp) : Prop :=
  exists l1 new, l' = l1 ++ new /\ Forall2 op_reach l l1.

#[global] Instance ops_evolve_preorder : PreOrder ops_evolve.
Proof.
  split.
  - intros l. exists l, []. split; [by rewrite app_nil_r|]. reflexivity.
  - intros l1 l2 l3 (m1 & n1 & -> & H1) (m2 & n2 & -> & H2).
    apply Forall2_app_inv_l in H2 as (m1' & n1' & Hm & Hn & ->).
    exists m1', (n1' ++ n2). split; [by rewrite app_assoc|]. by etransitivity.
Qed.

Lemma evolve_update now id from to message l :
  IsValidAgentOpTransition from to = true ->
  ops_evolve l (update_rows now (AgentOpRepository.in_status id from)
    (fun op => op <| op_Status := to |> <| op_Message := message |>) l).
Proof.
  intros Ht. eexists _, []. split; [by rewrite app_nil_r|]. unfold update_rows.
  induction l as [|o l IH]; constructor; [|exact IH].
  destruct (alive o && AgentOpRepository.in_status id from o) eqn:E; [|constructor].
  apply andb_true_iff in E as [_ [_ E%String.eqb_eq]%andb_true_iff]. apply rtc_once. split; [|done].
  cbn. by rewrite E.
Qed.

Section Table.
Context {G : Gorm} {GL : GormLaws G} {P : Platform} {D : Dispatcher}.

Definition ledger (w w' : World) : Prop :=
  ops_evolve (rows (w_agent_ops w)) (rows (w_agent_ops w')).
#[global] Instance ledger_frame : Frame ledger.
Proof.
  split; [split|].
  - intros w. unfold ledger. reflexivity.
  - intros w1 w2 w3 H1 H2. unfold ledger in *. by etransitivity.
  - intros w w' Hs. unfold ledger. by destruct (same_agent_ops _ _ Hs) as [-> _].
Qed.

Lemma ledger_UpdateStatus id from to message :
  IsValidAgentOpTransition from to = true ->
  Preserves ledger (AgentOps.UpdateStatus id from to message).
Proof.
  intros Ht w. unfold AgentOps.UpdateStatus.
  change (wp (stmt w_agent_ops (fun now => AgentOpRepository.UpdateStatus now id from to message))
    (fun _ w' => ledger w w') w).
  apply wp_stmt, wp_bind, wp_Updates.
  - intros t _ Hr. apply wp_ret. unfold ledger. cbn. rewrite Hr. by apply evolve_update.
  - intros e t [Hr _] _. apply wp_ret. unfold ledger. cbn. by rewrite Hr.
Qed.

Lemma ledger_Create op :
  Preserves ledger (stmt w_agent_ops (fun now => AgentOpRepository.Create now op)).
Proof.
  intros w. change (wp (stmt w_agent_ops (fun now => AgentOpRepository.Create now op))
    (fun _ w' => ledger w w') w).
  apply wp_stmt, wp_Create.
  - intros r t _ _ Hr. unfold ledger. cbn. rewrite Hr. eexists _, _. split; [done|].
    reflexivity.
  - intros e t [Hr _]. unfold ledger. cbn. by rewrite Hr.
Qed.
End Table.

#[export] Hint Extern 1 (Ignores ledger _) => (intros ? ?; unfold ledger; reflexivity) : typeclass_instances.
#[export] Hint Resolve ledger_Create : frames.

(** * The operations *)

Section Service.
Context {G : Gorm} {GL : GormLaws G} {P : Platform} {D : Dispatcher} (s : AgentOpService).

(** The collaborators do not touch the ledger. *)
Record outside : Prop := mkOutside {
  out_dispatch : forall d op, op_dispatcher s = Some d -> Preserves ledger (d op);
  out_stream : forall p id ev, op_stream s = Some p -> Preserves ledger (p id ev);
}.

Context (O : outside).

Lemma ledger_tryDispatch op : Preserves ledger (AgentOps.tryDispatch s op).
Proof.
  unfold AgentOps.tryDispatch. destruct (op_dispatcher s) as [d|] eqn:E; frame. by apply (out_dispatch O).
Qed.
Lemma ledger_publishOp op : Preserves ledger (AgentOps.publishOp s op).
Proof.
  unfold AgentOps.publishOp. destruct (op_stream s) as [p|] eqn:E; frame. by apply (out_stream O).
Qed.

#[local] Hint Resolve ledger_tryDispatch ledger_publishOp : frames.

Lemma ledger_ApplyStatus id to message : Preserves ledger (AgentOps.ApplyStatus s id to message).
Proof.
  unfold AgentOps.ApplyStatus. destruct (negb (IsValidAgentOpStatus to)); [frame|].
  apply pr_try; [frame|]. intros op. destruct (IsValidAgentOpTransition (op_Status op) to) eqn:E; simpl; [|frame].
  apply pr_bind; [by apply ledger_UpdateStatus|]. intros ?. frame.
Qed.
End Service.

(** Every operation of the service. *)
Inductive OpCall : Type :=
| CallCreate (op : AgentOp)
| CallApprove (id : UUID) (approver : string)
| CallReject (id : UUID) (reason rejector : string)
| CallSweepApprovals (maxAge : Duration)
| CallReconcileInstall (targetID : UUID)
| CallSweepUpgrades (maxAge : Duration)
| CallApplyStatus (id : UUID) (to message : string)
| CallAppendLog (id : UUID) (stream chunk : string)
| CallReconcileUpgrade (targetID : UUID) (version : string)
| CallDrain (targetID : UUID).

Definition op_call {G : Gorm} {P : Platform} {D : Dispatcher} (s : AgentOpService) (c : OpCall) : M World unit :=
  match c with
  | CallCreate op => ignore (AgentOps.Create s op)
  | CallApprove id approver => ignore (AgentOps.ApproveUpgrade s id approver)
  | CallReject id reason rejector => ignore (AgentOps.RejectUpgrade id reason rejector)
  | CallSweepApprovals maxAge => ignore (AgentOps.SweepApprovalTimeouts maxAge)
  | CallReconcileInstall targetID => ignore (AgentOps.ReconcileInstall s targetID)
  | CallSweepUpgrades maxAge => ignore (AgentOps.SweepUpgradeTimeouts s maxAge)
  | CallApplyStatus id to message => ignore (AgentOps.ApplyStatus s id to message)
  | CallAppendLog id stream chunk => ignore (AgentOps.AppendLog s id stream chunk)
  | CallReconcileUpgrade targetID version => ignore (AgentOps.ReconcileUpgrade s targetID version)
  | CallDrain targetID => ignore (AgentOps.DrainTarget s targetID)
  end.

Section Calls.
Context {G : Gorm} {GL : GormLaws G} {P : Platform} {D : Dispatcher} (s : AgentOpService) (O : outside s).

#[local] Hint Extern 1 (Preserves ledger (AgentOps.tryDispatch _ _)) => (by apply ledger_tryDispatch) : frames.
#[local] Hint Extern 1 (Preserves ledger (AgentOps.ApplyStatus _ _ _ _)) => (by apply ledger_ApplyStatus) : frames.
#[local] Hint Extern 1 (Preserves ledger (AgentOps.UpdateStatus _ AgentOpPendingApproval _ _)) =>
  (by apply ledger_UpdateStatus) : frames.

Lemma ledger_call c : Preserves ledger (op_call s c).
Proof.
  destruct c; simpl; apply pr_ignore.
  - unfold AgentOps.Create. frame.
  - unfold AgentOps.ApproveUpgrade. frame.
  - unfold AgentOps.RejectUpgrade. frame.
  - unfold AgentOps.SweepApprovalTimeouts. frame.
  - unfold AgentOps.ReconcileInstall. frame.
  - unfold AgentOps.SweepUpgradeTimeouts. frame.
  - frame.
  - unfold AgentOps.AppendLog. frame. by apply (out_stream s O).
  - unfold AgentOps.ReconcileUpgrade. frame.
  - unfold AgentOps.DrainTarget. frame.
Qed.

Lemma ledger_calls cs : Preserves ledger (for_each cs (op_call s)).
Proof. apply pr_for_each, ledger_call. Qed.
End Calls.

(** * Guarantees of the ledger *)

Section Ledger.
Context {G : Gorm} {GL : GormLaws G} {P : Platform} {D : Dispatcher}.

(** C38: Over any sequence of operations of the service, every recorded operation
    keeps its place, target, kind and argument, and its status only moves along
    the legal transitions; once it has succeeded or failed, its row never
    changes again. *)
Theorem agent_ops_settle s calls w :
  outside s ->
  wp (for_each calls (op_call s)) (fun _ w' => forall i o, rows (w_agent_ops w) !! i = Some o ->
    exists o', rows (w_agent_ops w') !! i = Some o' /\ op_identity o' = op_identity o /\
      rtc (fun a b => IsValidAgentOpTransition a b = true) (op_Status o) (op_Status o') /\
      (IsTerminalAgentOpStatus (op_Status o) = true -> o' = o)) w.
Proof.
  intros O. apply (wp_preserves (R := ledger)); [by apply ledger_calls|].
  intros _ w' (l1 & new & El & HF) i o Hi.
  destruct (Forall2_lookup_l _ _ _ _ _ HF Hi) as (o' & Ho' & Hreach). exists o'. split_and!.
  - rewrite El. by apply lookup_app_l_Some.
  - by apply op_reach_identity.
  - by apply op_reach_status.
  - by apply op_reach_terminal.
Qed.

(** ** Who hands an upgrade over *)

(** Two services that differ at most in what their dispatchers do with an
    upgrade. *)
Definition agree_but_upgrades (s1 s2 : AgentOpService) : Prop :=
  op_stream s1 = op_stream s2 /\
  match op_dispatcher s1, op_dispatcher s2 with
  | Some d1, Some d2 => forall op w, op_OpType op <> AgentOpUpgrade -> d1 op w = d2 op w
  | None, None => True
  | _, _ => False
  end.

Definition approves (c : OpCall) : bool := match c with CallApprove _ _ => true | _ => false end.

Lemma tryDispatch_agree s1 s2 op w :
  agree_but_upgrades s1 s2 ->
  op_Status op <> AgentOpQueued \/ op_OpType op <> AgentOpUpgrade ->
  AgentOps.tryDispatch s1 op w = AgentOps.tryDispatch s2 op w.
Proof.
  intros [_ Hd] Hop. unfold AgentOps.tryDispatch.
  destruct (op_dispatcher s1) as [d1|], (op_dispatcher s2) as [d2|]; try done.
  destruct (String.eqb_spec (op_Status op) AgentOpQueued) as [Eq|]; simpl; [|done].
  destruct (negb _ && negb _); [done|]. unfold ignore, bind. destruct Hop as [|Hop]; [done|]. by rewrite Hd.
Qed.

Lemma created_op op w r w1 :
  stmt w_agent_ops (fun now => AgentOpRepository.Create now op) w = (Ok r, w1) ->
  exists id, r = created id (w_now w) op.
Proof.
  assert (H : wp (stmt w_agent_ops (fun now => AgentOpRepository.Create now op))
    (fun res _ => forall r, res = Ok r -> exists id, r = created id (w_now w) op) w).
  { apply wp_stmt, wp_Create; [|by intros]. intros r' t _ (id & _ & _ & _ & ->) _ ? [= <-]. by exists id. }
  intros E. rewrite wp_run in H. by apply (H _ _ E).
Qed.

Lemma Create_agree s1 s2 op w :
  agree_but_upgrades s1 s2 -> AgentOps.Create s1 op w = AgentOps.Create s2 op w.
Proof.
  intros Ha. unfold AgentOps.Create. destruct (negb _); [done|]. destruct (op_TargetID op =? uuid_Nil); [done|].
  cbv zeta. unfold try_bind, bind at 1 3. destruct (stmt w_agent_ops _ w) as [[r|e] w1] eqn:E; [|done].
  apply created_op in E as (id & ->). unfold bind.
  rewrite (tryDispatch_agree s1 s2); [done|done|]. cbn.
  destruct (String.eqb_spec (op_OpType op) AgentOpUpgrade) as [->|]; [by left|by right].
Qed.

Lemma hand_over_agree s1 s2 ops w :
  agree_but_upgrades s1 s2 -> (forall op, op ∈ ops -> op_OpType op <> AgentOpUpgrade) ->
  for_each ops (AgentOps.tryDispatch s1) w = for_each ops (AgentOps.tryDispatch s2) w.
Proof.
  intros Ha. revert w. induction ops as [|op ops IH]; intros w Hall; [done|]. simpl. unfold bind.
  rewrite (tryDispatch_agree s1 s2) by (try done; right; apply Hall; left).
  destruct (AgentOps.tryDispatch s2 op w) as [? w2]. apply IH. intros op' Hop'. apply Hall. by right.
Qed.

Lemma DrainTarget_agree s1 s2 targetID w :
  agree_but_upgrades s1 s2 -> AgentOps.DrainTarget s1 targetID w = AgentOps.DrainTarget s2 targetID w.
Proof.
  intros Ha. unfold AgentOps.DrainTarget, try_bind, bind, zoom.
  destruct (AgentOpRepository.ListQueuedByTarget targetID (w_agent_ops w)) as [[ops|e] t] eqn:E; [|done].
  apply Find_spec in E as (_ & _ & Hq). rewrite (hand_over_agree s1 s2); [done|done|].
  intros op Hop Hu. apply (query_result_elem _ _ _ _ Hq) in Hop as (_ & Hk & _). cbn in Hk.
  apply andb_true_iff in Hk as [_ Hk%String.eqb_eq]. by rewrite Hk in Hu.
Qed.

(** C39: Only an approval hands an upgrade over: whatever the dispatcher would do
    with an upgrade makes no difference to any sequence of operations without
    one.  In particular an upgrade approved while its Runner is away is not
    handed over when the Runner comes back and its queue is drained. *)
Theorem only_approval_dispatches_upgrades s1 s2 calls w :
  agree_but_upgrades s1 s2 -> Forall (fun c => approves c = false) calls ->
  for_each calls (op_call s1) w = for_each calls (op_call s2) w.
Proof.
  intros Ha Hc. revert w. induction Hc as [|c calls Hc _ IH]; intros w; [done|]. simpl. unfold bind.
  assert (Heq : op_call s1 c w = op_call s2 c w).
  { pose proof (Create_agree s1 s2) as H1. pose proof (DrainTarget_agree s1 s2) as H2.
    destruct s1 as [d1 p1], s2 as [d2 p2]. destruct (proj1 Ha : p1 = p2).
    destruct c; try done; simpl; unfold ignore, bind; [by rewrite H1|by rewrite H2]. }
  rewrite Heq. destruct (op_call s2 c w). apply IH.
Qed.
End Ledger.

(** * The concrete hub *)

(** A dispatcher that sends the bare operation. *)
Definition demo_dispatch (op : AgentOp) : M World (option GoError) :=
  send (op_TargetID op) (MessageAgentOp (mkAgentOpDispatch (uuid_text (op_ID op))
    (uuid_text (op_TargetID op)) "" (op_OpType op) (op_Detail op) "" "")).
Definition demo_ops : AgentOpService := mkAgentOpService (Some demo_dispatch) None.
(** One that drops upgrades. *)
Definition deaf_ops : AgentOpService :=
  mkAgentOpService (Some (fun op => if String.eqb (op_OpType op) AgentOpUpgrade then ret None else demo_dispatch op))
    None.

Definition demo_op (id : UUID) (type status : string) : AgentOp :=
  mkAgentOp id 31 None type status "v2" "" (900 * Second) (900 * Second) None.

(** Target 31 is away; its upgrade waits for approval, another has failed. *)
Definition ops_hub : World :=
  demo <| w_agent_ops := table [demo_op 95 AgentOpUpgrade AgentOpPendingApproval;
                                demo_op 96 AgentOpExec AgentOpFailed] |>.

Lemma demo_ops_outside : outside demo_ops.
Proof.
  split; [|done]. intros d op [= <-] w. unfold demo_dispatch, ledger, send, zoom.
  destruct (d_send _ _ _) as [a l]. cbn. reflexivity.
Qed.

Definition late_success : list OpCall :=
  [CallApprove 95 "bo"; CallApplyStatus 96 AgentOpSucceeded "ok"; CallApplyStatus 95 AgentOpRunning ""].

Lemma agent_ops_settle_witness :
  let w' := (for_each late_success (op_call demo_ops) ops_hub).2 in
  op_Status <$> rows (w_agent_ops w') = [AgentOpRunning; AgentOpFailed] /\
  rows (w_agent_ops w') !! 1%nat = Some (demo_op 96 AgentOpExec AgentOpFailed).
Proof.
  split; [vm_compute; reflexivity|].
  destruct (agent_ops_settle (D := hub_dispatcher) demo_ops late_success ops_hub demo_ops_outside
    1%nat (demo_op 96 AgentOpExec AgentOpFailed) eq_refl) as (o' & Ho' & _ & _ & Hfinal).
  rewrite (Hfinal eq_refl) in Ho'. exact Ho'.
Defined.

(** Approved while target 31 was away, the upgrade stays queued after the
    target is back and drained. *)
Definition came_back : World := relink [31] (op_call demo_ops (CallApprove 95 "bo") ops_hub).2.

Lemma only_approval_dispatches_upgrades_witness :
  for_each [CallDrain 31] (op_call demo_ops) came_back = for_each [CallDrain 31] (op_call deaf_ops) came_back /\
  let w' := (for_each [CallDrain 31] (op_call demo_ops) came_back).2 in
  op_Status <$> rows (w_agent_ops w') = [AgentOpQueued; AgentOpFailed] /\ delivered (w_link w') = [].
Proof.
  split; [|vm_compute; split; reflexivity].
  apply (only_approval_dispatches_upgrades (D := hub_dispatcher)).
  - split; [reflexivity|]. cbn. intros op w Hne. destruct (String.eqb_spec (op_OpType op) AgentOpUpgrade); [contradiction|reflexivity].
  - constructor; [reflexivity|constructor].
Defined.
