(* ===== verification/VersionProperties.v ===== *)
(** What the history of a pipeline definition guarantees: documents survive
    their encoding, a comparison calls identical what is, a rollback restores
    the snapshot; with evaluations on the concrete hub. *)
From stdpp Require Import base list strings gmap sorting pretty.
From Stdlib Require Import ZArith Lia.
From S2P Require Import Prelude Common Gorm Json RunnerProto RunStore PipelineStore TargetStore.
From S2P Require Import EditStore World WorldLogic Frames PipelineVersions VersionTheory.
From S2P Require Import  Instances.

Open Scope Z_scope.

(** * Encoding *)

(** The integers of a snapshot fit Go's [int]. *)
Definition ints_fit (s : Snapshot) : Prop :=
  Forall (fun st => in_range 64 (ss_Sequence st) = true /\
    Forall (fun t => in_range 64 (sk_DisplayOrder t) = true /\ in_range 64 (sk_TimeoutSeconds t) = true)
      (ss_Tasks st)) (sn_Stages s).

Section Encoding.
Context {P : Platform}.

(** A snapshot that could be marshalled is read back from its document
    exactly as it was: every stage and task, every raw column with its
    document, absent columns still absent. *)
Theorem Snapshot_roundtrip s body :
  MarshalSnapshot s = Ok body -> ints_fit s ->
  uuid_Parse (uuid_String (sn_PipelineID s)) = Some (sn_PipelineID s) ->
  DecodeSnapshot (RawDoc body) = Ok s.
Proof.
  unfold MarshalSnapshot. destruct (existsb raw_bad (snapshot_raws s)) eqn:Eb; [done|].
  intros E Hints Hid. assert (body = enc s) as -> by congruence. unfold DecodeSnapshot. simpl raw_len0. cbv iota.
  change (RawDoc (enc s)) with (Marshal s). rewrite UnmarshalE_Marshal; [done|].
  pose proof (existsb_false _ _ (sn_Params s) Eb) as Hp.
  assert (Hraw : forall st t r, st ∈ sn_Stages s -> t ∈ ss_Tasks st -> r ∈ task_raws t -> raw_bad r = false).
  { intros st t r Hst Ht Hr. apply (existsb_false _ _ _ Eb). right. apply list_elem_of_bind. exists st.
    split; [|done]. apply list_elem_of_bind. by exists t. }
  split; [exact Hid|]. split; [apply Hp; left|]. apply Forall_forall. intros st Hst.
  unfold ints_fit in Hints. rewrite Forall_forall in Hints. destruct (Hints st Hst) as [Hseq Hts].
  split; [exact Hseq|]. apply Forall_forall. intros t Ht. rewrite Forall_forall in Hts.
  destruct (Hts t Ht) as [Ho Hto]. split; [exact Ho|]. split; [exact Hto|].
  apply forallb_forall. intros r Hr%list_elem_of_In. apply negb_true_iff. by apply (Hraw st t).
Qed.
End Encoding.

(** * Comparison *)

Section Comparison.
Context {T : JSONText}.

(** Two snapshots whose stages have distinct names, and whose tasks have
    distinct names within their stage, are called identical exactly when their
    stages correspond by name, in any order, with equal sequence and execution
    mode, and so do the tasks of each, with equal fields and JSON columns equal
    up to key order; the name, kind, description and parameters do not count. *)
Theorem DiffSnapshots_identical from to v1 v2 t1 t2 :
  distinct_names from -> distinct_names to ->
  df_Identical (DiffSnapshots from to v1 v2 t1 t2) = true <->
  same_list ss_Name same_stage (sn_Stages from) (sn_Stages to).
Proof. apply Identical_same. Qed.
End Comparison.

(** * Rolling back *)

Section Rolling.
Context {G : Gorm} {GL : GormLaws G} {P : Platform} {D : Dispatcher} {T : JSONText}.

Lemma default_raw_clean d r : raw_bad d = false -> raw_bad r = false -> raw_bad (default_raw d r) = false.
Proof. unfold default_raw. by destruct (raw_len0 r). Qed.
Lemma jsonOr_clean d r : raw_bad d = false -> raw_bad r = false -> raw_bad (jsonOr r d) = false.
Proof. unfold jsonOr. by destruct (raw_len0 r || raw_is_null r). Qed.

(** The rows of a clean snapshot hold documents. *)
Lemma restored_task_clean sid now t r :
  restored_task sid now t r -> existsb raw_bad (task_raws t) = false ->
  existsb raw_bad (task_raws (snapshot_task r)) = false.
Proof.
  intros (id & ->) H. unfold task_raws, existsb in *. rewrite !orb_false_iff in H. destruct_and!.
  cbn -[default_raw jsonOr raw_bad]. unfold rawOrEmpty.
  rewrite !default_raw_clean by (try apply jsonOr_clean; done). by rewrite !orb_false_iff.
Qed.

Lemma restored_documents p stages w :
  raw_bad (pl_Params p) = false -> (forall st, st ∈ stages -> stage_clean st) ->
  restored (pl_ID p) stages w -> sound_documents p w.
Proof.
  intros Hp Hc Hr. split; [done|]. intros row r Hrow Hin.
  destruct (Forall2_elem_r _ _ _ _ Hr Hrow) as (st & Hst & _ & HF).
  destruct (Forall2_elem_r _ _ _ _ HF Hin) as (t & Ht & Hrt). by eapply restored_task_clean, Hc.
Qed.

(** What a rollback leaves of the rest of the state. *)
Definition untouched_pipelines (pid : UUID) (w w' : World) : Prop :=
  forall q, q <> pid -> live_stages q w' = live_stages q w /\
    forall s, s ∈ live_stages q w -> live_tasks (st_ID s) w' = live_tasks (st_ID s) w.

Definition history_frame : World -> World -> Prop := both (keeps w_pipelines) (keeps w_versions).

Lemma clear_history pid : Preserves history_frame (PipelineVersionService.clearStructure pid).
Proof. unfold history_frame, PipelineVersionService.clearStructure. frame. Qed.
Lemma materialize_history pid stages :
  Preserves history_frame (for_each_err stages (PipelineVersionService.materialize_stage pid)).
Proof.
  unfold history_frame, PipelineVersionService.materialize_stage, PipelineVersionService.materialize_task. frame.
Qed.

Lemma sound_history_frame p w w' : history_frame w w' -> sound_history p w -> sound_history p w'.
Proof. intros [[[E1 H1] _] [[E2 H2] _]] []. split; rewrite ?E1, ?E2; auto. Qed.

Lemma restored_rows pid stages w w' :
  w_now w' = w_now w -> rows (w_stages w') = rows (w_stages w) -> rows (w_templates w') = rows (w_templates w) ->
  restored pid stages w -> restored pid stages w'.
Proof.
  intros En Es Et. unfold restored, restored_stage, live_stages, live_tasks. by rewrite En, Es, Et.
Qed.

Definition recorded_as (pid : UUID) (v : Z) (target : PipelineVersion) (w : World) : Prop :=
  0 < v /\ target ∈ rows (w_versions w) /\ ver_PipelineID target = pid /\ ver_Version target = v /\
  forall x, x ∈ rows (w_versions w) -> ver_PipelineID x = pid -> ver_Version x = v -> x = target.

Lemma wp_Get_version pid v target w (Q : Result PipelineVersion -> World -> Prop) :
  healthy (w_versions w) -> recorded_as pid v target w -> (forall w', same w w' -> Q (Ok target) w') ->
  wp (PipelineVersionService.Get pid v) Q w.
Proof.
  intros Hh (Hv & Hin & Ep & Ev & Hu) HQ. unfold PipelineVersionService.Get. rewrite (proj2 (Z.leb_gt _ _) Hv).
  apply wp_bind, (wp_zoom w_versions), (wp_First_only _ _ target); try done.
  - cbn. by rewrite Ep, Ev, !Z.eqb_refl.
  - intros y Hy _. cbn. rewrite andb_true_iff, !Z.eqb_eq. intros [? ?]. by apply Hu.
  - intros t Ht. apply wp_ret, HQ. by apply field_same.
Qed.

(** The structure part of a rollback: cleared and filled again. *)
Lemma wp_rebuild {A} pid stages w (k : M World (Result A)) (Q : Result A -> World -> Prop) :
  sound_definition w -> sound_plan stages ->
  (forall w', history_frame w w' -> sound_definition w' -> restored pid stages w' ->
     untouched_pipelines pid w w' -> wp k Q w') ->
  wp (try* _ := PipelineVersionService.clearStructure pid in
      try* _ := for_each_err stages (PipelineVersionService.materialize_stage pid) in k) Q w.
Proof.
  intros Hs Hplan HQ. apply wp_try. eapply wp_framed; [apply (clear_history pid)| |].
  { apply (wp_clearStructure _ _ (fun r w1 => exists l, r = Ok tt /\ (l ≡ₚ live_stages pid w) /\ cleared l w w1)); [done|].
    intros l w1 Hl Hc. by exists l. }
  intros ? w1 Hf1 (l & -> & Hl & Hc). destruct (cleared_live l pid w w1 Hs Hl Hc) as (Hnone & Hoth & Htk).
  apply wp_try. eapply wp_framed; [apply (materialize_history pid)| |].
  { apply (wp_materialize _ _ _ (fun r w2 => r = Ok tt /\ materialized pid w1 stages w2)); [done|apply Hc|done|done]. }
  intros ? w2 Hf2 (-> & [Hs2 _ _ Hr2 Hst2 Htk2]). apply HQ; [by etransitivity|done|done|].
  intros q Hq. split; [by rewrite Hst2, Hoth|]. intros s Hin.
  assert (Hkey : st_ID s ∈ (st_ID <$> rows (w_stages w))) by (by apply (live_stage_key q)).
  rewrite Htk2 by (by rewrite (cl_stage_keys _ _ _ Hc)). rewrite Htk.
  assert (E : in_stages l (st_ID s) = false); [|by rewrite E]. apply bool_decide_eq_false.
  intros (s' & Eid & Hs')%list_elem_of_fmap. rewrite Hl in Hs'.
  apply elem_of_selected in Hin as (_ & Eq%Z.eqb_eq & Hin). apply elem_of_selected in Hs' as (_ & Eq'%Z.eqb_eq & Hin').
  assert (s = s') as -> by (by apply (key_unique st_ID _ _ _ (sd_stage_keys _ Hs))). congruence.
Qed.

Definition task_count (s : Snapshot) : Z := foldl (fun n st => n + Z.of_nat (length (ss_Tasks st))) 0 (sn_Stages s).

(** The history afterwards, for the document [body] of the live definition: as
    before when that is the text of the newest version, else extended by a
    version that holds it. *)
Definition history_after (p : Pipeline) (who : string) (n : Z) (w w' : World) : Prop :=
  exists snap body, describes p w' snap /\ MarshalSnapshot snap = Ok body /\
    ((n = pl_Version p /\ latest_text (pl_ID p) w (marshal_text body) /\ rows (w_versions w') = rows (w_versions w)) \/
     (n = pl_Version p + 1 /\ exists id, rows (w_versions w') =
        rows (w_versions w) ++ [mkPipelineVersion id (pl_ID p) n (RawDoc body) who (w_now w)])).

Lemma describes_rows p w w' snap :
  rows (w_stages w') = rows (w_stages w) -> rows (w_templates w') = rows (w_templates w) ->
  describes p w snap -> describes p w' snap.
Proof. intros Es Et. unfold describes, live_stages, live_tasks. by rewrite Es, Et. Qed.

(** Publishing and reading the pipeline's version back. *)
Lemma wp_publish_and_read p who w (Q : Result RollbackResult -> World -> Prop) (res : Z -> RollbackResult) :
  sound_history p w -> sound_definition w -> sound_documents p w -> w_now w <> time_Zero ->
  (forall n w', w_now w' = w_now w -> rows (w_stages w') = rows (w_stages w) ->
     rows (w_templates w') = rows (w_templates w) -> history_after p who n w w' -> Q (Ok (res n)) w') ->
  wp (try* _ := PipelineVersionService.Publish (pl_ID p) who in
      let* q := zoom w_pipelines (PipelineRepository.GetByID (pl_ID p)) in
      ret (Ok (res (match q with Ok q => pl_Version q | Err _ => 0 end)))) Q w.
Proof.
  intros Hh Hs Hd Hnz HQ. apply wp_try, wp_Publish; [done..|].
  intros snap body w1 Hdesc Hbody [[Hlast Hw1]|Hr].
  - apply wp_bind, wp_pipeline_row.
    { destruct (same_pipelines _ _ Hw1) as [E1 H1], (same_versions _ _ Hw1) as [E2 H2], Hh.
      split; rewrite ?E1, ?E2; auto. }
    intros w2 Hw2. assert (Hw : same w w2) by (by etransitivity). apply wp_ret, HQ; try apply Hw.
    exists snap, body. split; [|split; [done|left; split_and!; [done|done|apply (same_versions _ _ Hw)]]].
    destruct (same_stages _ _ Hw) as [Es _], (same_templates _ _ Hw) as [Et _]. by apply (describes_rows p w).
  - destruct Hr as [Hnow (id & Hv) Hp Hhp Hst Htp]. destruct Hh.
    assert (Hin : pk p ∈ (pk <$> rows (w_pipelines w))) by (by apply list_elem_of_fmap_2).
    assert (Hsound : sound_rows (rows (w_pipelines w1))).
    { rewrite Hp. apply (sound_save _ p); try done. }
    apply wp_bind, (wp_zoom w_pipelines),
      (wp_First_only _ _ (updated (w_now w) (p <| pl_Version := pl_Version p + 1 |>))); try done.
    + rewrite Hp. apply elem_of_save_rows. left. by split.
    + cbn. apply Z.eqb_refl.
    + intros y Hy _ E%Z.eqb_eq. apply (sound_key _ _ _ Hsound); [done| |done].
      rewrite Hp. apply elem_of_save_rows. left. by split.
    + intros t Ht. apply wp_ret, HQ; cbn; try done. exists snap, body. split; [by apply (describes_rows p w)|].
      split; [done|right]. split; [done|]. by exists id.
Qed.

(** C36: Rolling a pipeline back to a recorded version replaces its live stages
    and tasks by exactly those of the snapshot, in order, each row made from its
    entry; other pipelines keep theirs, no recorded version is changed, and the
    result is recorded: the document of the definition as it now is becomes the
    next version, unless it is the very text of the newest one.  It reports the new version and how many stages and tasks it made. *)
Theorem Rollback_restores p v who target snap w :
  sound_definition w -> sound_history p w -> w_now w <> time_Zero -> raw_bad (pl_Params p) = false ->
  recorded_as (pl_ID p) v target w ->
  DecodeSnapshot (ver_Snapshot target) = Ok snap -> sound_plan (sn_Stages snap) ->
  wp (PipelineVersionService.Rollback (pl_ID p) v who) (fun r w' => exists n,
    r = Ok (mkRollbackResult (pl_ID p) v n (Z.of_nat (length (sn_Stages snap))) (task_count snap)) /\
    restored (pl_ID p) (sn_Stages snap) w' /\ untouched_pipelines (pl_ID p) w w' /\
    history_after p who n w w') w.
Proof.
  intros Hs Hh Hnz Hparams Hrec Hdec Hplan. unfold PipelineVersionService.Rollback.
  apply wp_try, (wp_Get_version _ _ target); [apply Hh|done|]. intros w1 Hw1. rewrite Hdec.
  assert (Hf1 : history_frame w w1) by (by apply frame_same).
  apply wp_bind, wp_pipeline_row; [by apply (sound_history_frame _ w)|]. intros w2 Hw2.
  assert (Hw : same w w2) by (by etransitivity). clear w1 Hw1 Hf1 Hw2.
  apply wp_rebuild; [by apply (sound_definition_same w)|done|]. intros w3 Hf3 Hs3 Hr3 Hu3.
  assert (Hf : history_frame w w3) by (etransitivity; [by apply frame_same|done]).
  assert (Hn3 : w_now w3 = w_now w) by apply Hf.
  apply (wp_publish_and_read p who w3 _
    (fun n => mkRollbackResult (pl_ID p) v n (Z.of_nat (length (sn_Stages snap))) (task_count snap)));
    [by apply (sound_history_frame _ w)|done|by eapply restored_documents, Hr3; [|apply (DecodeSnapshot_clean _ _ Hdec)]|congruence|].
  intros n w4 Hn4 Est Etp Hafter. exists n. split; [done|]. split; [by apply (restored_rows _ _ w3)|]. split.
  - intros q Hq. destruct (Hu3 q Hq) as [E1 E2]. unfold live_stages, live_tasks in *.
    rewrite Est, Etp. rewrite E1. destruct (same_stages _ _ Hw) as [Es _], (same_templates _ _ Hw) as [Et _].
    rewrite Es. split; [done|]. intros s Hin. rewrite E2 by (by rewrite Es). by rewrite Et.
  - destruct Hf as [_ [[Ev _] _]]. unfold history_after, latest_text in *. by rewrite <- Ev, <- Hn3.
Qed.
End Rolling.

(** * The concrete hub *)

(** [json.Marshal] writes no white space, Postgres prints a jsonb column with a
    space after every colon and comma. *)
Fixpoint print_json (comma colon : string) (v : json) : string :=
  match v with
  | JNull => "null"
  | JBool b => if b then "true" else "false"
  | JNum z => pretty z
  | JStr s => dquote +:+ s +:+ dquote
  | JArr l => "[" +:+ String.concat comma (map (print_json comma colon) l) +:+ "]"
  | JObj kvs => "{" +:+ String.concat comma
      (map (fun kv => dquote +:+ kv.1 +:+ dquote +:+ colon +:+ print_json comma colon kv.2) kvs) +:+ "}"
  | JFloat literal => literal
  end.

#[local] Instance printed_text : JSONText := {|
  marshal_text := print_json "," ":";
  column_text := print_json ", " ": ";
|}.

Definition demo_snapshot_task (name image : string) (order : Z) (command : RawJSON) : SnapshotTask :=
  mkSnapshotTask name TaskTypeBuild order image "" RawEmpty command RawEmpty RawEmpty RawEmpty RawEmpty
    RawEmpty RawEmpty RawEmpty 60.

Definition demo_command (flip : bool) : RawJSON :=
  let a := ("shell", JStr "sh") in let b := ("level", JNum 2) in
  RawDoc (JObj (if flip then [b; a] else [a; b])).

Definition demo_snapshot : Snapshot :=
  mkSnapshot 10 "release" "custom" "" RawEmpty
    [mkSnapshotStage "build" 1 ExecutionModeSerial
       [demo_snapshot_task "compile" "go:1" 1 (demo_command false); demo_snapshot_task "lint" "go:1" 2 RawEmpty];
     mkSnapshotStage "ship" 2 "" []].

(** Reordered, renamed, the keys of a document swapped. *)
Definition demo_snapshot_moved : Snapshot :=
  mkSnapshot 10 "release-2" "custom" "" RawEmpty
    [mkSnapshotStage "ship" 2 "" [];
     mkSnapshotStage "build" 1 ExecutionModeSerial
       [demo_snapshot_task "lint" "go:1" 2 RawEmpty; demo_snapshot_task "compile" "go:1" 1 (demo_command true)]].

Definition demo_body : json := enc demo_snapshot.

Lemma Snapshot_roundtrip_witness :
  MarshalSnapshot demo_snapshot = Ok demo_body /\ DecodeSnapshot (RawDoc demo_body) = Ok demo_snapshot.
Proof.
  assert (E : MarshalSnapshot demo_snapshot = Ok demo_body) by reflexivity. split; [exact E|].
  apply (Snapshot_roundtrip demo_snapshot); [exact E| |reflexivity]. repeat constructor.
Defined.

Lemma DiffSnapshots_identical_witness :
  distinct_names demo_snapshot /\
  same_list ss_Name same_stage (sn_Stages demo_snapshot) (sn_Stages demo_snapshot_moved).
Proof.
  assert (Hd : forall s, bool_decide (NoDup (ss_Name <$> sn_Stages s)) &&
      forallb (fun st => bool_decide (NoDup (sk_Name <$> ss_Tasks st))) (sn_Stages s) = true -> distinct_names s).
  { intros s [H1%bool_decide_eq_true H2]%andb_true_iff. split; [exact H1|]. intros st Hst.
    rewrite forallb_forall in H2. eapply bool_decide_eq_true, H2, list_elem_of_In, Hst. }
  split; [apply Hd; vm_compute; reflexivity|].
  apply (DiffSnapshots_identical demo_snapshot demo_snapshot_moved 1 2 0 0);
    [apply Hd; vm_compute; reflexivity..|vm_compute; reflexivity].
Defined.

(** Version 1 of the demo pipeline held this snapshot. *)
Definition demo_version : PipelineVersion := mkPipelineVersion 70 10 1 (RawDoc demo_body) "ana" (800 * Second).
Definition rollback_hub : World := demo <| w_versions := table [demo_version] |>.

Lemma Rollback_restores_witness :
  let out := PipelineVersionService.Rollback 10 1 "bo" rollback_hub in
  out.1 = Ok (mkRollbackResult 10 1 4 2 2) /\
  restored 10 (sn_Stages demo_snapshot) out.2 /\
  st_Name <$> live_stages 10 out.2 = ["build"; "ship"] /\
  ver_Version <$> rows (w_versions out.2) = [1; 4].
Proof.
  destruct (Rollback_restores (G := ListGorm.gorm) (D := hub_dispatcher) demo_pipeline 1 "bo" demo_version
    demo_snapshot rollback_hub) as (n & E & Hr & _ & Hh).
  - split; try (by constructor).
    + apply (bool_decide_unpack _). vm_compute. constructor.
    + apply (bool_decide_unpack _). vm_compute. constructor.
    + apply (bool_decide_unpack _). vm_compute. constructor.
    + cbn. intros sid Hsid. set_unfold in Hsid. set_unfold. naive_solver.
  - split; try (by constructor); try (by left).
    + split; [apply (bool_decide_unpack _); vm_compute; constructor|]. intros x y Hx Hy.
      apply list_elem_of_singleton in Hx, Hy. by subst.
    + apply (bool_decide_unpack _). vm_compute. constructor.
    + intros v Hv _. apply list_elem_of_singleton in Hv. subst. by vm_compute.
  - by vm_compute.
  - reflexivity.
  - split_and!; [done|by left|done|done|]. intros x Hx _ _. by apply list_elem_of_singleton in Hx.
  - vm_compute. reflexivity.
  - split; [apply (bool_decide_unpack _); vm_compute; constructor|].
    repeat constructor; apply (bool_decide_unpack _); vm_compute; constructor.
  - assert (En : (PipelineVersionService.Rollback 10 1 "bo" rollback_hub).1 = Ok (mkRollbackResult 10 1 4 2 2))
      by (vm_compute; reflexivity).
    split; [exact En|]. split; [exact Hr|]. split; vm_compute; reflexivity.
Defined.
