(* ===== verification/ConfigTheory.v ===== *)
(** Snapshot bodies, their comparison, and what capturing and rolling back do
    to the rows of a scope ([internal/component/service/config_version.go]). *)
From stdpp Require Import base list strings gmap sorting.
From Stdlib Require Import ZArith Lia.
From S2P Require Import Prelude Common Gorm Json GoLib RunnerProto RunStore PipelineStore TargetStore.
From S2P Require Import EditStore OrgStore SiteStore PermStore RateLimit World Admin.
From S2P Require Import PipelineVersions ConfigVersions WorldLogic Frames AdminLogic VersionTheory CascadeTheory.

Open Scope Z_scope.

(** * Sorting by a string key *)

Lemma ltb_leb a b : String.ltb a b = negb (String.leb b a).
Proof.
  unfold String.ltb, String.leb. rewrite String.compare_antisym. by destruct (String.compare b a).
Qed.

Section SliceStable.
Context {A : Type} (key : A -> string).

Definition keyed_le (a b : A) : Prop := String.le (key a) (key b).
Definition keyed_less (a b : A) : bool := String.ltb (key a) (key b).

#[local] Instance keyed_le_trans : Transitive keyed_le.
Proof. intros a b c. unfold keyed_le. apply (transitivity (R := String.le)). Qed.

Lemma insert_before_perm x (l : list A) : insert_before keyed_less x l ≡ₚ x :: l.
Proof.
  induction l as [|y l IH]; [done|]. simpl. destruct (keyed_less y x); [|done]. rewrite IH. constructor.
Qed.

Lemma SliceStable_perm (l : list A) : SliceStable keyed_less l ≡ₚ l.
Proof.
  unfold SliceStable. induction l as [|x l IH]; [done|]. simpl. by rewrite insert_before_perm, IH.
Qed.

Lemma insert_before_sorted x (l : list A) :
  StronglySorted keyed_le l -> StronglySorted keyed_le (insert_before keyed_less x l).
Proof.
  induction 1 as [|y l Hs IH Hy]; simpl; [by repeat constructor|]. destruct (keyed_less y x) eqn:E.
  - constructor; [exact IH|]. rewrite insert_before_perm. constructor; [|done].
    unfold keyed_less in E. rewrite ltb_leb in E. unfold keyed_le.
    destruct (total String.le (key y) (key x)) as [?|Hx]; [done|]. unfold String.le in Hx.
    destruct (String.leb (key x) (key y)); done.
  - assert (keyed_le x y).
    { unfold keyed_less in E. rewrite ltb_leb, negb_false_iff in E. unfold keyed_le, String.le. by rewrite E. }
    constructor; [by constructor|]. constructor; [done|]. eapply Forall_impl; [exact Hy|].
    intros z Hz. by transitivity y.
Qed.

Lemma SliceStable_sorted (l : list A) : StronglySorted keyed_le (SliceStable keyed_less l).
Proof.
  unfold SliceStable. induction l as [|x l IH]; [constructor|]. by apply insert_before_sorted.
Qed.

(** Sorted lists without repeated keys are determined by their elements. *)
Lemma sorted_unique (l k : list A) :
  NoDup (key <$> l) -> StronglySorted keyed_le l -> StronglySorted keyed_le k -> l ≡ₚ k -> l = k.
Proof.
  intros Hnd Hl Hk Hp. apply (StronglySorted_unique_strong keyed_le); [|done|done|done].
  intros x y Hx Hy Hxy Hyx. rewrite <- Hp in Hy. apply (key_unique key l); [done..|].
  by apply (anti_symm String.le).
Qed.
End SliceStable.

Lemma list_filter_iff_in {A} (Q1 Q2 : A -> Prop) `{!forall x, Decision (Q1 x), !forall x, Decision (Q2 x)}
    (l : list A) :
  (forall x, x ∈ l -> Q1 x <-> Q2 x) -> filter Q1 l = filter Q2 l.
Proof.
  induction l as [|x l IH]; intros Hq; [done|]. rewrite !filter_cons, IH by (intros y Hy; apply Hq; by right).
  specialize (Hq x ltac:(left)). repeat case_decide; naive_solver.
Qed.

Lemma filter_swap {A} (Q1 Q2 : A -> Prop) `{!forall x, Decision (Q1 x), !forall x, Decision (Q2 x)} (l : list A) :
  filter Q1 (filter Q2 l) = filter Q2 (filter Q1 l).
Proof. rewrite !list_filter_filter. apply list_filter_iff. tauto. Qed.

Lemma filter_True {A} (l : list A) : filter (fun _ => True) l = l.
Proof. induction l as [|x l IH]; [done|]. by rewrite filter_cons_True, IH. Qed.

(** * Bodies *)

Definition masked_entry (e : ConfigSnapshotEntry) : Prop :=
  ce_IsSecret e = true -> ce_Value e = secret_mask.

(** What a capture records: sorted by key, secrets masked. *)
Record well_captured (l : list ConfigSnapshotEntry) : Prop := mkWellCaptured {
  wc_sorted : StronglySorted (keyed_le ce_Key) l;
  wc_masked : Forall masked_entry l;
}.

Lemma BuildConfigSnapshot_perm rows : BuildConfigSnapshot rows ≡ₚ snapshot_entry <$> rows.
Proof. apply (SliceStable_perm ce_Key). Qed.

Lemma BuildConfigSnapshot_captured rows : well_captured (BuildConfigSnapshot rows).
Proof.
  split; [apply (SliceStable_sorted ce_Key)|]. rewrite BuildConfigSnapshot_perm, Forall_fmap.
  apply Forall_true. intros r. unfold masked_entry. simpl. by intros ->.
Qed.

Lemma BuildConfigSnapshot_keys rows : ce_Key <$> BuildConfigSnapshot rows ≡ₚ cfg_Key <$> rows.
Proof. rewrite BuildConfigSnapshot_perm, <- list_fmap_compose. done. Qed.

(** Rows whose entries are those of a captured body give it back. *)
Lemma BuildConfigSnapshot_exact rows l :
  well_captured l -> NoDup (ce_Key <$> l) -> snapshot_entry <$> rows ≡ₚ l -> BuildConfigSnapshot rows = l.
Proof.
  intros [Hs _] Hnd Hp. symmetry. apply (sorted_unique ce_Key); [done|done| |].
  - apply (SliceStable_sorted ce_Key).
  - by rewrite BuildConfigSnapshot_perm.
Qed.

Lemma Decode_Encode l : DecodeConfigSnapshot (RawDoc (EncodeConfigSnapshot l)) = Ok l.
Proof.
  assert (E : UnmarshalE (Marshal l) = Ok l) by (apply UnmarshalE_Marshal; by apply Forall_true).
  unfold DecodeConfigSnapshot. change (RawDoc (EncodeConfigSnapshot l)) with (Marshal l). by rewrite E.
Qed.

(** * Comparison *)

(** What the comparison says of one key, given its entry on both sides. *)
Definition key_change (k : string) (from to : option ConfigSnapshotEntry) : option ConfigKeyDiff :=
  match from, to with
  | None, None => None
  | None, Some e => Some (mkConfigKeyDiff k ConfigChangeAdded "" (ce_Value e))
  | Some p, None => Some (mkConfigKeyDiff k ConfigChangeRemoved (ce_Value p) "")
  | Some p, Some e =>
      if negb (String.eqb (ce_Value p) (ce_Value e))
      then Some (mkConfigKeyDiff k ConfigChangeModified (ce_Value p) (ce_Value e))
      else if negb (String.eqb (ce_SecretRef p) (ce_SecretRef e))
      then Some (mkConfigKeyDiff k ConfigChangeModified (ce_SecretRef p) (ce_SecretRef e))
      else None
  end.

Lemma indexEntries_spec l k v :
  NoDup (ce_Key <$> l) -> indexEntries l !! k = Some v <-> v ∈ l /\ ce_Key v = k.
Proof.
  intros H. unfold indexEntries. rewrite foldl_insert_lookup by done.
  split; [intros [?|?]; [done|done]|by right].
Qed.

Lemma indexEntries_self l e : NoDup (ce_Key <$> l) -> e ∈ l -> indexEntries l !! ce_Key e = Some e.
Proof. intros H He. by apply indexEntries_spec. Qed.

Lemma diff_to_entry_change from to e :
  NoDup (ce_Key <$> to) -> e ∈ to ->
  diff_to_entry from e = option_list (key_change (ce_Key e) (from !! ce_Key e) (indexEntries to !! ce_Key e)).
Proof.
  intros Hnd He. rewrite indexEntries_self by done. unfold diff_to_entry, key_change, entryFields.
  destruct (from !! ce_Key e) as [p|]; [|done].
  destruct (String.eqb _ _); [|done]. by destruct (String.eqb _ _).
Qed.

Lemma diff_from_entry_change (from : list ConfigSnapshotEntry) to e :
  NoDup (ce_Key <$> from) -> e ∈ from ->
  diff_from_entry to e =
    match to !! ce_Key e with
    | None => option_list (key_change (ce_Key e) (indexEntries from !! ce_Key e) None)
    | Some _ => []
    end.
Proof. intros Hnd He. by rewrite indexEntries_self by done. Qed.

Lemma key_change_key k from to d : key_change k from to = Some d -> kd_Key d = k.
Proof.
  unfold key_change. destruct from as [p|], to as [e|]; try by intros [= <-].
  destruct (negb _); [by intros [= <-]|]. destruct (negb _); [by intros [= <-]|done].
Qed.

Lemma elem_of_option_list {A} (o : option A) x : x ∈ option_list o <-> o = Some x.
Proof. destruct o; simpl; [rewrite list_elem_of_singleton|rewrite elem_of_nil]; naive_solver. Qed.

(** The two loops find every change of a key, once. *)
Lemma diff_elem from to d :
  NoDup (ce_Key <$> from) -> NoDup (ce_Key <$> to) ->
  d ∈ (to ≫= diff_to_entry (indexEntries from)) ++ (from ≫= diff_from_entry (indexEntries to)) <->
  key_change (kd_Key d) (indexEntries from !! kd_Key d) (indexEntries to !! kd_Key d) = Some d.
Proof.
  intros Hf Ht. rewrite elem_of_app, !list_elem_of_bind. split.
  - intros [(e & Hd & He)|(e & Hd & He)].
    + rewrite (diff_to_entry_change _ to), elem_of_option_list in Hd by done.
      by rewrite (key_change_key _ _ _ _ Hd).
    + rewrite (diff_from_entry_change from) in Hd by done.
      destruct (indexEntries to !! ce_Key e) eqn:E; [by apply not_elem_of_nil in Hd|].
      apply elem_of_option_list in Hd. rewrite (key_change_key _ _ _ _ Hd). by rewrite E.
  - intros Hd. destruct (indexEntries to !! kd_Key d) as [e|] eqn:Et.
    + left. pose proof Et as [He Hk]%indexEntries_spec; [|done]. exists e. split; [|done].
      rewrite (diff_to_entry_change _ to), elem_of_option_list by done. by rewrite Hk, Et.
    + right. destruct (indexEntries from !! kd_Key d) as [p|] eqn:Ef; [|done].
      pose proof Ef as [Hp Hk]%indexEntries_spec; [|done]. exists p. split; [|done].
      rewrite (diff_from_entry_change from) by done. rewrite Hk, Et, elem_of_option_list. by rewrite Ef.
Qed.

Lemma NoDup_keys_bind {A B} (f : A -> string) (g : B -> string) (h : A -> list B) (l : list A) :
  NoDup (f <$> l) -> (forall a, a ∈ l -> (length (h a) <= 1)%nat /\ forall b, b ∈ h a -> g b = f a) ->
  NoDup (g <$> (l ≫= h)).
Proof.
  induction l as [|a l IH]; intros Hnd Hh; [constructor|]. apply NoDup_cons in Hnd as [Ha Hnd].
  simpl. rewrite fmap_app. apply NoDup_app. destruct (Hh a ltac:(left)) as [Hlen Hg]. split_and!.
  - destruct (h a) as [|b [|]]; simpl in *; [constructor|apply NoDup_singleton|lia].
  - intros k (b & -> & Hb)%list_elem_of_fmap (b' & Ek & (a' & Hb' & Ha')%list_elem_of_bind)%list_elem_of_fmap.
    destruct (Hh a' ltac:(by right)) as [_ Hg']. rewrite (Hg b Hb), (Hg' b' Hb') in Ek.
    apply Ha. rewrite Ek. by apply list_elem_of_fmap_2.
  - apply IH; [done|]. intros a' Ha'. apply Hh. by right.
Qed.

Lemma diff_to_entry_key from e d : d ∈ diff_to_entry from e -> kd_Key d = ce_Key e.
Proof.
  unfold diff_to_entry. destruct (from !! _); [destruct (entryFields _ _) as [|[]]|];
    rewrite ?list_elem_of_singleton, ?elem_of_nil; by (intros ->) || by intros [].
Qed.
Lemma diff_from_entry_key to e d :
  d ∈ diff_from_entry to e -> kd_Key d = ce_Key e /\ to !! ce_Key e = None.
Proof.
  unfold diff_from_entry. destruct (to !! _); rewrite ?list_elem_of_singleton, ?elem_of_nil; by (intros ->) || by intros [].
Qed.

Lemma diff_keys_NoDup from to :
  NoDup (ce_Key <$> from) -> NoDup (ce_Key <$> to) ->
  NoDup (kd_Key <$> (to ≫= diff_to_entry (indexEntries from)) ++ (from ≫= diff_from_entry (indexEntries to))).
Proof.
  intros Hf Ht. rewrite fmap_app. apply NoDup_app. split_and!.
  - apply (NoDup_keys_bind ce_Key); [done|]. intros e He. split; [|apply diff_to_entry_key].
    unfold diff_to_entry. destruct (indexEntries from !! _); [destruct (entryFields _ _) as [|[]]|]; simpl; lia.
  - intros k (d & -> & (e & Hd & He)%list_elem_of_bind)%list_elem_of_fmap
      (d' & Ek & (e' & Hd' & He')%list_elem_of_bind)%list_elem_of_fmap.
    apply diff_to_entry_key in Hd. apply diff_from_entry_key in Hd' as [Hd' Hn]. rewrite Hd, Hd' in Ek.
    rewrite <- Ek, indexEntries_self in Hn; done.
  - apply (NoDup_keys_bind ce_Key); [done|]. intros e He. split; [|intros d Hd; by apply diff_from_entry_key in Hd as [? _]].
    unfold diff_from_entry. destruct (indexEntries to !! _); simpl; lia.
Qed.

(** * Rolling the rows of a scope back *)

Section Scope.
Context {G : Gorm} {GL : GormLaws G} {P : Platform} {O : ObjectStore} {X : Transactions} {T : JSONText}.
Context (componentID : UUID) (environmentID : option UUID) (by_ : option string).

Notation scope := (ComponentConfigRepository.in_scope componentID environmentID).
Notation fresh e := (ConfigSnapshotService.fresh_row componentID environmentID e by_).
Notation roll r e := (ConfigSnapshotService.rolled_row r e by_).

Definition inside (l : list ComponentConfig) : list ComponentConfig := filter (fun c => scope c = true) l.
Definition outside (l : list ComponentConfig) : list ComponentConfig := filter (fun c => scope c = false) l.

Lemma elem_of_inside c l : c ∈ inside l <-> scope c = true /\ c ∈ l.
Proof. unfold inside. by rewrite list_elem_of_filter. Qed.

(** The row of entry [e] after the rollback of the rows [L0]: the one that was
    there, rewritten, or a new one. *)
Definition written (now : Time) (L0 : list ComponentConfig) (e : ConfigSnapshotEntry) (r' : ComponentConfig) : Prop :=
  (exists r, r ∈ inside L0 /\ cfg_Key r = ce_Key e /\ r' = updated now (roll r e)) \/
  ((forall r, r ∈ inside L0 -> cfg_Key r <> ce_Key e) /\
   exists id, id <> uuid_Nil /\ r' = created id now (fresh e)).

Lemma written_row now L0 e r' :
  written now L0 e r' -> scope r' = true /\ cfg_Key r' = ce_Key e /\
    cfg_IsSecret r' = ce_IsSecret e /\ cfg_SecretRef r' = ce_SecretRef e /\
    (ce_IsSecret e = false -> cfg_Value r' = ce_Value e).
Proof.
  intros [(r & [Hs _]%elem_of_inside & Hk & ->)|(_ & id & _ & ->)]; simpl.
  - split; [exact Hs|]. done.
  - unfold ComponentConfigRepository.in_scope. simpl. rewrite Z.eqb_refl, bool_decide_eq_true_2 by done.
    split; [done|]. split; [done|]. split; [done|]. split; [done|]. by intros ->.
Qed.

Lemma written_entry now L0 e r' : written now L0 e r' -> masked_entry e -> snapshot_entry r' = e.
Proof.
  intros (_ & Hk & Hs & Hr & Hv)%written_row Hm. unfold snapshot_entry. rewrite Hk, Hs, Hr.
  destruct e as [k v [] ref]; simpl in *; [by rewrite Hm|by rewrite Hv].
Qed.

(** The loop over the entries, after the entries [pre]. *)
Record rolled (now : Time) (pre : list ConfigSnapshotEntry) (L0 L : list ComponentConfig) : Prop := mkRolled {
  ro_ids : NoDup (cfg_ID <$> L);
  ro_keys : NoDup (cfg_Key <$> inside L);
  ro_out : outside L = outside L0;
  ro_rest : forall r, scope r = true -> cfg_Key r ∉ ce_Key <$> pre -> r ∈ L <-> r ∈ L0;
  ro_done : forall e, e ∈ pre -> exists r', r' ∈ L /\ written now L0 e r';
}.

Lemma rolled_start now L : NoDup (cfg_ID <$> L) -> NoDup (cfg_Key <$> inside L) -> rolled now [] L L.
Proof. intros Hi Hk. split; try done. by intros e ?%elem_of_nil. Qed.

(** No row has the key: a new one is added. *)
Lemma rolled_create now pre L0 L e r' :
  rolled now pre L0 L -> ce_Key e ∉ ce_Key <$> pre ->
  (forall r, r ∈ inside L -> cfg_Key r <> ce_Key e) ->
  inserted now L (fresh e) r' -> rolled now (pre ++ [e]) L0 (L ++ [r']).
Proof.
  intros [Hi Hk Ho Hr Hd] He Hn (id & Hid & Hnew & _ & ->).
  assert (Hw : written now L0 e (created id now (fresh e))).
  { right. split; [|eauto]. intros r [Hs Hin]%elem_of_inside Hke. apply (Hn r); [|done].
    apply elem_of_inside. split; [done|]. apply Hr; [done|by rewrite Hke|done]. }
  pose proof (written_row _ _ _ _ Hw) as (Hsc & Hke & _). split.
  - rewrite fmap_app. apply NoDup_app. split_and!; [done| |apply NoDup_singleton].
    intros x Hx ->%list_elem_of_singleton. done.
  - unfold inside. rewrite filter_app, fmap_app. apply NoDup_app. split; [exact Hk|].
    rewrite filter_cons_True by done. split; [|apply NoDup_singleton].
    intros x (r & -> & Hin)%list_elem_of_fmap Hx%list_elem_of_singleton. apply (Hn r Hin). by rewrite Hx, Hke.
  - unfold outside in *. rewrite filter_app, Ho, filter_cons_False by congruence. apply app_nil_r.
  - intros r Hs Hrk. rewrite fmap_app, elem_of_app, fmap_cons, fmap_nil, list_elem_of_singleton in Hrk.
    rewrite elem_of_app, list_elem_of_singleton, Hr by tauto. split; [|auto]. intros [?| ->]; [done|].
    exfalso. apply Hrk. by right.
  - intros x [Hx| ->%list_elem_of_singleton]%elem_of_app.
    + destruct (Hd x Hx) as (r & Hin & Hw'). exists r. split; [|done]. apply elem_of_app. by left.
    + eexists. split; [|exact Hw]. apply elem_of_app. right. by left.
Qed.

(** A row has the key: it is rewritten in place. *)
Lemma rolled_save now pre L0 L e r :
  rolled now pre L0 L -> ce_Key e ∉ ce_Key <$> pre -> r ∈ inside L -> cfg_Key r = ce_Key e ->
  rolled now (pre ++ [e]) L0 (save_rows now (roll r e) L).
Proof.
  intros [Hi Hk Ho Hr Hd] He Hin Hke. pose proof Hin as [Hs HrL]%elem_of_inside.
  assert (Hr0 : r ∈ inside L0).
  { apply elem_of_inside. split; [done|]. apply Hr; [done|by rewrite Hke|done]. }
  assert (Hw : written now L0 e (updated now (roll r e))) by (left; eauto).
  pose proof (written_row _ _ _ _ Hw) as (Hsc & Hke' & _).
  assert (Heq : forall x, x ∈ L -> cfg_ID x = cfg_ID r -> x = r).
  { intros x Hx Hid. by apply (key_unique cfg_ID L). }
  set (f := fun x : ComponentConfig => if bool_decide (pk x = pk (roll r e)) then updated now (roll r e) else x).
  assert (Hf : forall x, x ∈ L -> scope (f x) = scope x /\ cfg_Key (f x) = cfg_Key x).
  { intros x Hx. unfold f. case_bool_decide as E; [|done]. simpl in E. apply Heq in E as ->; [|done].
    split; [by rewrite Hs|]. by rewrite Hke', Hke. }
  assert (Hfilter : forall b, filter (fun c => scope c = b) (f <$> L) = f <$> filter (fun c => scope c = b) L).
  { intros b. clear -Hf. induction L as [|x l IH]; [done|]. rewrite fmap_cons, !filter_cons.
    destruct (Hf x ltac:(left)) as [-> _]. case_decide; rewrite IH; try done; intros y Hy; apply Hf; by right. }
  change (save_rows now (roll r e) L) with (f <$> L). split.
  - erewrite <- list_fmap_compose, list_fmap_ext; [exact Hi|]. intros i x _. simpl. unfold f.
    case_bool_decide as E; [|done]. simpl in E. by rewrite E.
  - unfold inside. rewrite Hfilter, <- list_fmap_compose. erewrite list_fmap_ext; [exact Hk|].
    intros i x Hx%list_elem_of_lookup_2. apply elem_of_inside in Hx as [_ Hx]. simpl. by destruct (Hf x Hx).
  - unfold outside in *. rewrite Hfilter, <- Ho, <- list_fmap_id. apply list_fmap_ext.
    intros i x Hx%list_elem_of_lookup_2. apply list_elem_of_filter in Hx as [Hsx Hx]. unfold f.
    case_bool_decide as E; [|done]. simpl in E. apply Heq in E; [|done]. congruence.
  - intros x Hsx Hxk. rewrite fmap_app, elem_of_app, fmap_cons, fmap_nil, list_elem_of_singleton in Hxk.
    rewrite <- Hr by tauto. change (f <$> L) with (save_rows now (roll r e) L). rewrite elem_of_save_rows. split.
    + intros [[-> _]|[? _]]; [|done]. exfalso. apply Hxk. by right.
    + intros Hx. right. split; [done|]. simpl. intros E. apply Heq in E as ->; [|done]. apply Hxk. by right.
  - intros x [Hx| ->%list_elem_of_singleton]%elem_of_app.
    + destruct (Hd x Hx) as (y & Hy & Hw'). exists y. split; [|done].
      apply (elem_of_save_rows now (roll r e) L y). right. split; [done|]. simpl. intros E.
      apply Heq in E as ->; [|done]. apply He. rewrite <- Hke.
      apply written_row in Hw' as (_ & -> & _). by apply list_elem_of_fmap_2.
    + eexists. split; [|exact Hw]. apply (elem_of_save_rows now (roll r e) L). left. split; [done|].
      simpl. by apply list_elem_of_fmap_2.
Qed.

(** ** The handlers *)

(** [s] with another configuration table. *)
Definition with_configs (s : Admin) (t : Table ComponentConfig) : Admin := s <| a_configs := t |>.

Lemma wp_apply_entry pre L0 e s :
  rolled (a_now s) pre L0 (rows (a_configs s)) -> ce_Key e ∉ ce_Key <$> pre ->
  wp (ConfigSnapshotService.apply_entry componentID environmentID by_ e)
    (fun r s' => match r with
                 | Ok _ => exists t, s' = with_configs s t /\ rolled (a_now s) (pre ++ [e]) L0 (rows t)
                 | Err _ => True end) s.
Proof.
  intros HR He. unfold ConfigSnapshotService.apply_entry. apply wp_bind, (wp_zoom a_configs), wp_First.
  - intros r t [Ht Hh] _ [Hs Hk%String.eqb_eq]%andb_true_iff Hin. apply wp_try, wp_on. simpl.
    apply wp_Save_known; [|intros t' _ Ht'|done].
    { simpl. rewrite Ht. by apply list_elem_of_fmap_2. }
    apply wp_ret. exists t'. split; [done|]. rewrite Ht', Ht. apply rolled_save; [done..| |done].
    by apply elem_of_inside.
  - intros err t [Ht Hh] _ Hnone _. case_bool_decide as E; [|by apply wp_ret]. apply wp_try, wp_on. simpl.
    apply wp_Create; [|done]. intros r' t' _ Hi Ht'. apply wp_ret. exists t'. split; [done|].
    rewrite Ht in *. rewrite Ht'. apply rolled_create; [done..| |done].
    intros r [Hs Hin]%elem_of_inside Hk. apply (not_elem_of_nil r). rewrite <- (Hnone E).
    apply elem_of_selected. simpl. by rewrite Hs, Hk, String.eqb_refl.
Qed.

(** The rows of the scope without an entry. *)
Definition stale (keep : list string) (c : ComponentConfig) : bool :=
  scope c && bool_decide (cfg_Key c ∉ keep).
Definition kept (keep : list string) (l : list ComponentConfig) : list ComponentConfig :=
  filter (fun c => stale keep c = false) l.

Lemma delete_config now id (l : list ComponentConfig) :
  delete_rows now (fun c => pk c =? id) l = filter (fun c => cfg_ID c <> id) l.
Proof.
  unfold delete_rows. induction l as [|c l IH]; [done|]. rewrite filter_cons. simpl.
  destruct (Z.eqb_spec (cfg_ID c) id); case_decide; try done. f_equal. exact IH.
Qed.

Lemma wp_drop_stale keep l s :
  wp (for_each_err l (ConfigSnapshotService.drop_stale keep))
    (fun r s' => match r with
     | Ok _ => exists t, s' = with_configs s t /\ rows t = filter (fun c => cfg_ID c ∉ cfg_ID <$> filter (fun x => cfg_Key x ∉ keep) l) (rows (a_configs s))
     | Err _ => True end) s.
Proof.
  apply (wp_for_each_err (fun pre s' => exists t, s' = with_configs s t /\ rows t = filter (fun c => cfg_ID c ∉ cfg_ID <$> filter (fun x => cfg_Key x ∉ keep) pre) (rows (a_configs s)))).
  - exists (a_configs s). split; [by destruct s|]. simpl. rewrite (list_filter_iff_in _ (fun _ => True)); [by rewrite filter_True|]. intros c _. set_solver.
  - intros pre x post s' _ (t & -> & Ht). unfold ConfigSnapshotService.drop_stale. case_bool_decide as Hk.
    + apply wp_ret. exists t. split; [done|]. by rewrite filter_app, filter_cons_False, app_nil_r by tauto.
    + apply wp_try, wp_on, wp_Delete; [|done]. intros t' _ Ht'. apply wp_ret. exists t'. split; [done|].
      rewrite Ht', delete_config. simpl. rewrite Ht, list_filter_filter, filter_app, filter_cons_True by done.
      apply list_filter_iff. intros c. rewrite fmap_app, elem_of_app, fmap_cons, list_elem_of_singleton. tauto.
  - auto.
Qed.

(** The rows after the rollback to [entries]. *)
Definition restored (now : Time) (entries : list ConfigSnapshotEntry) (L0 L : list ComponentConfig) : Prop :=
  exists L', rolled now entries L0 L' /\ L = kept (ce_Key <$> entries) L'.

Lemma wp_applyEntries entries s :
  NoDup (cfg_ID <$> rows (a_configs s)) -> NoDup (cfg_Key <$> inside (rows (a_configs s))) ->
  NoDup (ce_Key <$> entries) ->
  wp (ConfigSnapshotService.applyEntries componentID environmentID entries by_)
    (fun r s' => match r with
     | Ok _ => exists t, s' = with_configs s t /\ restored (a_now s) entries (rows (a_configs s)) (rows t)
     | Err _ => True end) s.
Proof.
  intros Hi Hk He. unfold ConfigSnapshotService.applyEntries. apply wp_try.
  apply (wp_for_each_err (fun pre s' => exists t, s' = with_configs s t /\ rolled (a_now s) pre (rows (a_configs s)) (rows t))); [|intros pre e post s' -> (t & -> & HR)|].
  - exists (a_configs s). split; [by destruct s|]. by apply rolled_start.
  - eapply wp_mono; [apply (wp_apply_entry pre (rows (a_configs s)) e); [exact HR|]|].
    + rewrite fmap_app, fmap_cons in He. apply NoDup_app in He as (_ & He & _).
      intros Hx. apply (He _ Hx). by left.
    + intros [[]|err] s' Hs; [|done]. destruct Hs as (t' & -> & HR'). by exists t'.
  - intros s' (t & -> & HR). apply wp_try, (wp_zoom a_configs), wp_Find; [|done].
    intros l t' [Ht' _] Hq. apply query_result_nolimit in Hq as [Hp _]; [|done|done]. simpl in Hp.
    eapply wp_mono; [apply wp_drop_stale|]. intros [[]|err] s' Hs; [|done]. destruct Hs as (t2 & -> & Ht2).
    exists t2. split; [done|]. exists (rows t). split; [exact HR|]. rewrite Ht2. simpl. rewrite Ht'.
    apply list_filter_iff_in. intros c Hc. split.
    + intros Hn. destruct (stale _ c) eqn:E; [|done]. exfalso. apply Hn.
      apply andb_true_iff in E as [Hs Hkc%bool_decide_eq_true]. apply list_elem_of_fmap_2, list_elem_of_filter.
      split; [done|]. rewrite Hp. by apply elem_of_selected.
    + intros Hn (x & Hid & [Hx Hin]%list_elem_of_filter)%list_elem_of_fmap. rewrite Hp in Hin.
      apply elem_of_selected in Hin as (_ & Hs & Hin). destruct HR as [Hids _ _ _ _].
      rewrite (key_unique cfg_ID (rows t) c x) in Hn by done. unfold stale in Hn.
      by rewrite Hs, bool_decide_eq_true_2 in Hn.
Qed.

Lemma inside_kept keep l c : c ∈ inside (kept keep l) <-> scope c = true /\ cfg_Key c ∈ keep /\ c ∈ l.
Proof.
  rewrite elem_of_inside. unfold kept, stale. rewrite list_elem_of_filter. split.
  - intros (Hs & Hf & Hin). rewrite Hs in Hf. simpl in Hf. apply bool_decide_eq_false in Hf.
    split; [done|]. split; [|done]. by apply dec_stable.
  - intros (Hs & Hk & Hin). split; [done|]. split; [|done]. rewrite Hs. simpl.
    apply bool_decide_eq_false_2. tauto.
Qed.

Lemma restored_facts now entries L0 L :
  restored now entries L0 L ->
  outside L = outside L0 /\
  (forall r', r' ∈ inside L -> exists e, e ∈ entries /\ written now L0 e r') /\
  (Forall masked_entry entries -> NoDup (ce_Key <$> entries) -> snapshot_entry <$> inside L ≡ₚ entries).
Proof.
  intros (L' & [Hi Hk Ho _ Hd] & ->). rewrite <- Ho.
  assert (Hin : forall r', r' ∈ inside (kept (ce_Key <$> entries) L') -> exists e, e ∈ entries /\ written now L0 e r').
  { intros r' (Hs & (e & Hke & He)%list_elem_of_fmap & Hr')%inside_kept. exists e. split; [done|].
    destruct (Hd e He) as (r & Hr & Hw). pose proof (written_row _ _ _ _ Hw) as (Hs' & Hk' & _).
    rewrite (key_unique cfg_Key (inside L') r' r); [done|done|..|congruence]; by apply elem_of_inside. }
  split; [|split; [exact Hin|]].
  - unfold outside, kept. rewrite list_filter_filter. apply list_filter_iff. intros c. unfold stale.
    split; [by intros [? _]|]. intros Hs. by rewrite Hs.
  - intros Hm He. apply NoDup_Permutation.
    + apply (NoDup_fmap_1 ce_Key). rewrite <- list_fmap_compose. unfold kept, inside.
      rewrite filter_swap. eapply sublist_NoDup; [exact Hk|]. apply fmap_sublist, sublist_filter.
    + by apply (NoDup_fmap_1 ce_Key).
    + intros x. rewrite list_elem_of_fmap. rewrite Forall_forall in Hm. split.
      * intros (r' & -> & Hr'). destruct (Hin r' Hr') as (e & He' & Hw).
        rewrite (written_entry now L0 e r'); auto.
      * intros Hx. destruct (Hd x Hx) as (r & Hr & Hw). exists r.
        pose proof (written_row _ _ _ _ Hw) as (Hs' & Hk' & _).
        split; [symmetry; apply (written_entry now L0); auto|]. apply inside_kept. rewrite Hk'.
        split; [done|]. split; [by apply list_elem_of_fmap_2|done].
Qed.
End Scope.

(** * Version numbers *)

Section Versions.
Context {G : Gorm} {GL : GormLaws G} {P : Platform} {O : ObjectStore} {X : Transactions} {T : JSONText}.
Context {XL : TransactionsLaws X}.

Notation of_scope c k := (ConfigSnapshotRepository.in_scope c k).

Definition versions (c : UUID) (k : string) (l : list ConfigSnapshot) : list ConfigSnapshot :=
  filter (fun v => of_scope c k v = true) l.

Lemma elem_of_versions c k l v : v ∈ versions c k l <-> of_scope c k v = true /\ v ∈ l.
Proof. unfold versions. by rewrite list_elem_of_filter. Qed.

(** A recorded body that shows no secret. *)
Definition recorded (v : ConfigSnapshot) : Prop :=
  forall entries, DecodeConfigSnapshot (snap_Snapshot v) = Ok entries -> Forall masked_entry entries.

(** The versions of every scope are numbered from one, in the order of their
    recording. *)
Definition numbered (l : list ConfigSnapshot) : Prop :=
  forall c k, snap_Version <$> versions c k l = seqZ 1 (Z.of_nat (length (versions c k l))).

Record sound_versions (l : list ConfigSnapshot) : Prop := mkSoundVersions {
  sv_numbered : numbered l;
  sv_recorded : Forall recorded l;
}.

Lemma sound_versions_nil : sound_versions [].
Proof. split; [by intros c k|done]. Qed.

Lemma versions_app c k l1 l2 : versions c k (l1 ++ l2) = versions c k l1 ++ versions c k l2.
Proof. apply filter_app. Qed.

Lemma sound_append l v :
  sound_versions l -> recorded v ->
  snap_Version v = Z.of_nat (length (versions (snap_ComponentID v) (snap_ScopeKey v) l)) + 1 ->
  sound_versions (l ++ [v]).
Proof.
  intros [Hn Hr] Hv Hver. split; [|apply Forall_app; by repeat constructor].
  intros c k. rewrite versions_app, fmap_app, length_app, Hn. unfold versions at 2 4.
  rewrite filter_cons. case_decide as Hs; rewrite filter_nil.
  - apply andb_true_iff in Hs as [<-%Z.eqb_eq <-%String.eqb_eq]. rewrite fmap_cons, fmap_nil, Hver. simpl.
    rewrite Nat2Z.inj_add, seqZ_app by lia. simpl. f_equal. unfold seqZ. simpl. f_equal. lia.
  - simpl. by rewrite Nat.add_0_r, app_nil_r.
Qed.

Lemma seqZ_newest n (x : Z) : 0 <= n -> x ∈ seqZ 1 n -> (forall y, y ∈ seqZ 1 n -> y <= x) -> x = n.
Proof.
  intros Hn Hx Hmax. apply elem_of_seqZ in Hx. specialize (Hmax n).
  rewrite elem_of_seqZ in Hmax. lia.
Qed.

Lemma version_bound c k l x : numbered l -> x ∈ versions c k l -> 1 <= snap_Version x <= Z.of_nat (length (versions c k l)).
Proof.
  intros Hn Hx. assert (H : snap_Version x ∈ snap_Version <$> versions c k l) by (by apply list_elem_of_fmap_2).
  rewrite Hn in H. apply elem_of_seqZ in H. lia.
Qed.

(** The first row of the versions in descending order. *)
Lemma newest_version c k (l res : list ConfigSnapshot) :
  numbered l -> query_result (LimitQ 1 (ConfigSnapshotRepository.newest c k)) l res ->
  (match res with row :: _ => snap_Version row | [] => 0 end) = Z.of_nat (length (versions c k l)).
Proof.
  intros Hn (l' & Hp & Hs & ->). simpl in *.
  assert (Hp' : l' ≡ₚ versions c k l) by exact Hp. clear Hp. unfold limit_rows. simpl. rewrite drop_0.
  destruct l' as [|x l']; simpl.
  { apply Permutation_nil_l in Hp'. by rewrite <- Hp'. }
  assert (Hx : x ∈ versions c k l) by (rewrite <- Hp'; left). simpl.
  apply seqZ_newest; [lia| |].
  - rewrite <- Hn. by apply list_elem_of_fmap_2.
  - rewrite <- Hn. intros y (v & -> & Hv)%list_elem_of_fmap. rewrite <- Hp' in Hv.
    apply elem_of_cons in Hv as [->|Hv]; [done|]. apply Sorted_StronglySorted in Hs; [|apply _].
    apply StronglySorted_inv in Hs as [_ Hs]. rewrite Forall_forall in Hs. specialize (Hs v Hv).
    unfold by_keys in Hs. simpl in Hs. rewrite orb_true_iff, andb_true_iff, Z.ltb_lt, Z.eqb_eq in Hs. lia.
Qed.

(** ** Growth of the table *)

(** The recorded versions are still there, and what is new keeps the order. *)
Definition grows (s s' : Admin) : Prop :=
  sound_versions (rows (a_snapshots s)) ->
  sound_versions (rows (a_snapshots s')) /\ exists new, rows (a_snapshots s') = rows (a_snapshots s) ++ new.

#[export] Instance grows_refl : Reflexive grows.
Proof. intros s H. split; [done|]. exists []. by rewrite app_nil_r. Qed.
#[export] Instance grows_trans : Transitive grows.
Proof.
  intros s1 s2 s3 H12 H23 H. destruct (H12 H) as (H2 & n1 & E1). destruct (H23 H2) as (H3 & n2 & E2).
  split; [done|]. exists (n1 ++ n2). by rewrite E2, E1, app_assoc.
Qed.

Lemma grows_same s s' : rows (a_snapshots s') = rows (a_snapshots s) -> grows s s'.
Proof. intros E H. rewrite E. split; [done|]. exists []. by rewrite app_nil_r. Qed.
Lemma grows_asame s s' : asame s s' -> grows s s'.
Proof. intros []. apply grows_same. by destruct asame_snapshots. Qed.

(** Computations whose states are related by a preorder. *)
Definition Steps (R : Admin -> Admin -> Prop) {A} (m : M Admin A) : Prop := forall s, R s (m s).2.

Section Steps.
Context (R : Admin -> Admin -> Prop) {PO : PreOrder R}.

Lemma Steps_ret {A} (a : A) : Steps R (ret a).
Proof. intros s. apply PO. Qed.
Lemma Steps_bind {A B} (m : M Admin A) (k : A -> M Admin B) :
  Steps R m -> (forall a, Steps R (k a)) -> Steps R (bind m k).
Proof.
  intros Hm Hk s. unfold bind. specialize (Hm s). destruct (m s) as [a s1]. etransitivity; [exact Hm|apply Hk].
Qed.
Lemma Steps_try {E A B} (m : M Admin (Res E A)) (k : A -> M Admin (Res E B)) :
  Steps R m -> (forall a, Steps R (k a)) -> Steps R (try_bind m k).
Proof. intros Hm Hk. apply Steps_bind; [done|]. intros [a|e]; [apply Hk|apply Steps_ret]. Qed.
Lemma Steps_for_each_err {A} (l : list A) (body : A -> M Admin (Result unit)) :
  (forall x, Steps R (body x)) -> Steps R (for_each_err l body).
Proof. intros Hb. induction l as [|x l IH]; simpl; [apply Steps_ret|]. apply Steps_try; [apply Hb|done]. Qed.
Lemma Steps_Tx {A} (m : M Admin (Result A)) : Steps R m -> Steps R (db_Tx m).
Proof.
  intros Hm s. apply (wp_Tx m (fun _ s' => R s s')); [|intros e; apply PO].
  intros a s' E. specialize (Hm s). by rewrite E in Hm.
Qed.
Lemma Steps_wp {A} (m : M Admin A) s : Steps R m -> wp m (fun _ s' => R s s') s.
Proof. intros Hm. apply Hm. Qed.
End Steps.

Lemma Steps_mono (R R' : Admin -> Admin -> Prop) {A} (m : M Admin A) :
  (forall s s', R s s' -> R' s s') -> Steps R m -> Steps R' m.
Proof. intros HR Hm s. apply HR, Hm. Qed.

(** The same recorded versions. *)
Definition same_versions (s s' : Admin) : Prop := rows (a_snapshots s') = rows (a_snapshots s).
#[export] Instance same_versions_preorder : PreOrder same_versions.
Proof. unfold same_versions. split; [done|]. intros s1 s2 s3 E1 E2. by rewrite E2. Qed.
#[export] Instance grows_preorder : PreOrder grows.
Proof. split; apply _. Qed.

Lemma same_asame s s' : asame s s' -> same_versions s s'.
Proof. intros []. by destruct asame_snapshots. Qed.
Lemma Steps_reads {A} (m : M Admin A) : Reads m -> Steps same_versions m.
Proof. intros Hm s. apply same_asame, Hm. Qed.

(** Statements on other tables. *)
Class OtherTable {R} (proj : Admin -> R) {S : Setter proj} : Prop :=
  other_table : forall s t, a_snapshots (set_field proj (fun _ => t) s) = a_snapshots s.
#[export] Instance configs_other : OtherTable a_configs. Proof. done. Qed.
#[export] Instance config_history_other : OtherTable a_config_history. Proof. done. Qed.

Lemma Steps_zoom {R A} (proj : Admin -> R) {S : Setter proj} {OT : OtherTable proj} (m : M R A) :
  Steps same_versions (zoom proj m).
Proof. intros s. unfold same_versions, zoom. destruct (m (proj s)) as [a t]. simpl. by rewrite other_table. Qed.
Lemma Steps_on {R A} (proj : Admin -> R) {S : Setter proj} {OT : OtherTable proj} (m : Time -> M R A) :
  Steps same_versions (on proj m).
Proof. apply Steps_bind; [apply _|apply Steps_reads, reads_now|]. intros now. by apply Steps_zoom. Qed.

Lemma Steps_applyEntries c env entries by_ :
  Steps same_versions (ConfigSnapshotService.applyEntries c env entries by_).
Proof.
  apply Steps_try; [apply _| |intros _; apply Steps_try; [apply _|apply Steps_zoom; apply _|intros l]].
  - apply Steps_for_each_err; [apply _|]. intros e. apply Steps_bind; [apply _|apply Steps_zoom; apply _|].
    intros [r|err]; [|case_bool_decide; [|apply Steps_ret; apply _]];
      (apply Steps_try; [apply _|apply Steps_on; apply _|]); intros ?; apply Steps_ret; apply _.
  - apply Steps_for_each_err; [apply _|]. intros r. unfold ConfigSnapshotService.drop_stale.
    case_bool_decide; [apply Steps_ret; apply _|].
    apply Steps_try; [apply _|apply Steps_on; apply _|]. intros ?. apply Steps_ret. apply _.
Qed.

(** The lock, a decision, and the row after the newest. *)
Lemma lock_latest c k s :
  wp (zoom a_snapshots (ConfigSnapshotRepository.LockLatest c k))
    (fun r s' => asame s s' /\
       match r with
       | Ok n => numbered (rows (a_snapshots s)) -> n = Z.of_nat (length (versions c k (rows (a_snapshots s'))))
       | Err _ => True
       end) s.
Proof.
  apply (wp_zoom a_snapshots). unfold ConfigSnapshotRepository.LockLatest. apply wp_try, wp_Find.
  - intros l t' Ht Hq. apply wp_ret. split; [by apply (afield_same (proj := a_snapshots))|]. intros Hn.
    simpl. destruct Ht as [-> _]. by apply newest_version.
  - intros e t' Ht _. split; [by apply (afield_same (proj := a_snapshots))|done].
Qed.

Lemma append_grows c env latest comment body by_ s :
  (sound_versions (rows (a_snapshots s)) -> forall v, snap_Snapshot v = body -> recorded v) ->
  (numbered (rows (a_snapshots s)) -> latest = Z.of_nat (length (versions c (ScopeKeyOf env) (rows (a_snapshots s))))) ->
  wp (ConfigSnapshotService.append c env latest comment body by_)
    (fun r s' => grows s s' /\
       match r with
       | Ok v => exists t', s' = s <| a_snapshots := t' |> /\ rows t' = rows (a_snapshots s) ++ [v] /\
           snap_ComponentID v = c /\ snap_EnvironmentID v = env /\ snap_ScopeKey v = ScopeKeyOf env /\
           snap_Version v = latest + 1 /\ snap_Comment v = comment /\ snap_Snapshot v = body /\
           snap_CreatedBy v = by_
       | Err _ => asame s s'
       end) s.
Proof.
  intros Hb Hl. unfold ConfigSnapshotService.append. apply wp_on, wp_Create.
  - intros v t' _ (id & _ & _ & _ & ->) Ht'. split.
    + intros Hs. simpl. rewrite Ht'. split; [|by eexists]. apply sound_append; [done| |].
      * by apply Hb.
      * simpl. by rewrite <- Hl by apply Hs.
    + exists t'. split; [done|]. split; [exact Ht'|]. done.
  - intros e t' Ht. assert (HS : asame s (set_field a_snapshots (fun _ => t') s))
      by (by apply (afield_same (proj := a_snapshots))).
    split; [by apply grows_asame|done].
Qed.
End Versions.
