(* ===== verification/ConfigProperties.v ===== *)
(** What versioning the configuration of a component guarantees
    ([internal/component/service/config.go], [config_version.go],
    [internal/component/models/config_version.go]). *)
From stdpp Require Import base list strings gmap sorting.
From Stdlib Require Import ZArith Lia.
From S2P Require Import Prelude Common Gorm Json GoLib RunnerProto RunStore PipelineStore TargetStore.
From S2P Require Import EditStore OrgStore SiteStore PermStore RateLimit World Admin.
From S2P Require Import PipelineVersions ConfigVersions WorldLogic Frames AdminLogic CascadeTheory ConfigTheory.
From S2P Require Import Instances VersionProperties.

Open Scope Z_scope.

(** * Comparison *)

(** The comparison of two captured bodies lists, in key order and each key
    once, exactly the keys whose value or secret reference differs or that one
    side lacks, with the right classification and contents; its totals count
    them, and it says "identical" exactly when there is none. *)
Theorem config_diff_exact from to a b ta tb :
  NoDup (ce_Key <$> from) -> NoDup (ce_Key <$> to) ->
  let d := DiffConfigSnapshots from to a b ta tb in
  let change k := key_change k (indexEntries from !! k) (indexEntries to !! k) in
  (forall x, x ∈ cd_Keys d <-> change (kd_Key x) = Some x) /\
  NoDup (kd_Key <$> cd_Keys d) /\ StronglySorted (keyed_le kd_Key) (cd_Keys d) /\
  (cd_Added d, cd_Removed d, cd_Modified d) =
    (count_change ConfigChangeAdded (cd_Keys d), count_change ConfigChangeRemoved (cd_Keys d),
     count_change ConfigChangeModified (cd_Keys d)) /\
  (cd_Identical d = true <-> forall k, change k = None).
Proof.
  intros Hf Ht d change. set (keys := (to ≫= diff_to_entry (indexEntries from)) ++
    (from ≫= diff_from_entry (indexEntries to))).
  assert (Hp : cd_Keys d ≡ₚ keys) by apply (SliceStable_perm kd_Key).
  assert (Hin : forall x, x ∈ cd_Keys d <-> change (kd_Key x) = Some x)
    by (intros x; rewrite Hp; by apply diff_elem).
  assert (Hc : forall c, count_change c keys = count_change c (cd_Keys d)).
  { intros c. unfold count_change. by rewrite Hp. }
  split; [exact Hin|]. split; [rewrite Hp; by apply diff_keys_NoDup|].
  split; [apply (SliceStable_sorted kd_Key)|]. split; [by rewrite <- !Hc|].
  change (cd_Identical d) with (match cd_Keys d with [] => true | _ => false end). split.
  - intros Hi k. destruct (change k) as [x|] eqn:E; [|done]. pose proof (key_change_key _ _ _ _ E) as Hk.
    rewrite <- Hk in E. apply Hin in E. destruct (cd_Keys d); [by apply not_elem_of_nil in E|done].
  - intros Hn. destruct (cd_Keys d) as [|x l] eqn:E; [done|]. specialize (Hin x).
    rewrite Hn in Hin. exfalso. assert (None = Some x) by (apply Hin; left). done.
Qed.

(** * Versions *)

Section Versions.
Context {G : Gorm} {GL : GormLaws G} {P : Platform} {O : ObjectStore} {X : Transactions} {T : JSONText}.
Context {XL : TransactionsLaws X}.

Lemma captured_recorded rows v :
  snap_Snapshot v = RawDoc (EncodeConfigSnapshot (BuildConfigSnapshot rows)) -> recorded v.
Proof.
  intros E entries Hd. rewrite E, Decode_Encode in Hd. injection Hd as <-.
  apply BuildConfigSnapshot_captured.
Qed.

#[local] Notation Grows m := (Steps grows m).


Lemma Grows_same {A} (m : M Admin A) : Steps same_versions m -> Grows m.
Proof. apply Steps_mono. intros s s'. apply grows_same. Qed.

Lemma latest_of_scope c k s s1 s2 n :
  asame s s1 -> same_versions s1 s2 ->
  (numbered (rows (a_snapshots s)) -> n = Z.of_nat (length (versions c k (rows (a_snapshots s1))))) ->
  numbered (rows (a_snapshots s2)) -> n = Z.of_nat (length (versions c k (rows (a_snapshots s2)))).
Proof. intros H1%same_asame H2 Hl Hn. rewrite H2. apply Hl. by rewrite <- H1, <- H2. Qed.

Lemma Grows_Capture c env comment by_ : Grows (ConfigSnapshotService.Capture c env comment by_).
Proof.
  unfold ConfigSnapshotService.Capture. apply Steps_try; [apply _|apply Grows_same, Steps_zoom; apply _|].
  intros rows. cbv zeta. apply Steps_Tx; [apply _|]. intros s.
  refine (_ : wp _ (fun _ s' => grows s s') s). apply wp_try. eapply wp_mono; [apply lock_latest|].
  intros [latest|e] s1 [HS Hl]; [|by apply grows_asame]. apply wp_bind.
  eapply (wp_mono _ (fun _ s2 => asame s1 s2)).
  { destruct (0 <? latest); [|by apply wp_ret]. apply wp_reads; [reads|]. done. }
  intros same s2 HS2. assert (H02 : asame s s2) by (by etransitivity).
  destruct same; [apply wp_ret; by apply grows_asame|]. apply wp_try.
  eapply wp_mono; [apply append_grows|].
  - intros _ v. apply captured_recorded.
  - eapply latest_of_scope; [exact HS|by apply same_asame|exact Hl].
  - intros [v|e] s3 [Hg _]; apply wp_ret || idtac; by etransitivity; [apply grows_asame|].
Qed.

Lemma Grows_record_change s c action o n comment by_ :
  Grows (ComponentConfigService.record_change s c action o n comment by_).
Proof.
  unfold ComponentConfigService.record_change. apply Steps_bind; [apply _| |intros key].
  { apply Grows_same, Steps_reads. unfold ComponentConfigService.envKeySnapshot. reads. }
  apply Steps_bind; [apply _|apply Grows_same, Steps_on; apply _|]. intros _.
  destruct (ComponentConfigService.ccs_snapshots s); [|apply Steps_ret; apply _].
  apply Steps_bind; [apply _|apply Grows_Capture|]. intros _. apply Steps_ret; apply _.
Qed.

Lemma Grows_Upsert s c by_ : Grows (ComponentConfigService.Upsert s c by_).
Proof.
  apply Steps_try; [apply _|apply Grows_same, Steps_on; apply _|]. intros c'.
  apply Steps_bind; [apply _|apply Grows_record_change|]. intros _. apply Steps_ret; apply _.
Qed.

Lemma Grows_Delete s id by_ : Grows (ComponentConfigService.Delete s id by_).
Proof.
  apply Steps_try; [apply _|apply Grows_same, Steps_reads; reads|]. intros old.
  apply Steps_try; [apply _|apply Grows_same, Steps_on; apply _|]. intros _.
  apply Steps_bind; [apply _|apply Grows_record_change|]. intros _. apply Steps_ret; apply _.
Qed.

Lemma wp_version_of c k v s :
  wp (ConfigSnapshotService.version_of c k v) (fun r s' => asame s s' /\
    match r with
    | Ok row => row ∈ rows (a_snapshots s) /\ ConfigSnapshotRepository.in_scope c k row = true /\ snap_Version row = v
    | Err _ => True
    end) s.
Proof.
  apply wp_bind, (wp_zoom a_snapshots), wp_First.
  - intros r t Ht _ [Hs Hv%Z.eqb_eq]%andb_true_iff Hr. apply wp_ret.
    split; [by apply (afield_same (proj := a_snapshots))|done].
  - intros e t Ht _ _ _. apply wp_ret. split; [by apply (afield_same (proj := a_snapshots))|done].
Qed.

(** The end of a rollback: the new version repeats [target]. *)
Lemma wp_record_rollback c env comment target by_ s :
  target ∈ rows (a_snapshots s) ->
  wp (try* latest := zoom a_snapshots (ConfigSnapshotRepository.LockLatest c (ScopeKeyOf env)) in
      ConfigSnapshotService.append c env latest comment (snap_Snapshot target) by_)
    (fun r s' => grows s s' /\
       match r with
       | Ok v => exists s1 t', asame s s1 /\ s' = s1 <| a_snapshots := t' |> /\
           rows t' = rows (a_snapshots s) ++ [v] /\ snap_Snapshot v = snap_Snapshot target /\
           (numbered (rows (a_snapshots s)) ->
            snap_Version v = Z.of_nat (length (versions c (ScopeKeyOf env) (rows (a_snapshots s)))) + 1)
       | Err _ => True
       end) s.
Proof.
  intros Ht. apply wp_try. eapply wp_mono; [apply lock_latest|].
  intros [latest|e] s1 [HS Hl]; [|split; [by apply grows_asame|done]].
  pose proof (same_asame _ _ HS) as E. unfold same_versions in E.
  eapply wp_mono; [apply append_grows|].
  - intros [_ Hr] v Ev. rewrite Forall_forall, E in Hr. specialize (Hr target Ht).
    unfold recorded in *. by rewrite Ev.
  - by rewrite E in *.
  - intros [v|e] s2 [Hg H]; (split; [by etransitivity; [apply grows_asame|]|]); [|done].
    destruct H as (t' & -> & Hrows & _ & _ & _ & Hv & _ & Hb & _). exists s1, t'. rewrite E in *.
    split; [done|]. split; [done|]. split; [done|]. split; [done|]. intros Hn. by rewrite Hv, Hl.
Qed.

Lemma Grows_Rollback c env v comment by_ : Grows (ConfigSnapshotService.Rollback c env v comment by_).
Proof.
  intros s. refine (_ : wp _ (fun _ s' => grows s s') s). unfold ConfigSnapshotService.Rollback. cbv zeta.
  apply wp_try. eapply wp_mono; [apply wp_version_of|]. intros [target|e] s1 [HS Ht]; [|by apply grows_asame].
  destruct Ht as (Ht & _ & _). pose proof (same_asame _ _ HS) as E1.
  destruct (DecodeConfigSnapshot (snap_Snapshot target)) as [entries|e]; [|apply wp_ret; by apply grows_asame].
  apply wp_Tx; [|intros _; by apply grows_asame]. intros r s2 Er.
  assert (H : wp (try* _ := ConfigSnapshotService.applyEntries c env entries by_ in
    try* latest := zoom a_snapshots (ConfigSnapshotRepository.LockLatest c (ScopeKeyOf env)) in
    ConfigSnapshotService.append c env latest (Sprintf "回滚到 v%d：%s" [AInt v; AStr comment]) (snap_Snapshot target) by_)
    (fun _ s' => grows s s') s1).
  { apply wp_try. eapply wp_mono; [apply (Steps_wp same_versions), Steps_applyEntries|].
    intros [[]|e] s3 E3; [|by apply grows_same; rewrite E3].
    eapply wp_mono; [apply wp_record_rollback; by rewrite E3, E1|]. intros r' s4 [Hg _].
    etransitivity; [apply grows_same|exact Hg]. by rewrite E3. }
  unfold wp in H. by rewrite Er in H.
Qed.

(** The operations that write configuration. *)
Inductive ConfigOp : Type :=
| OpUpsert (c : ComponentConfig) (by_ : option string)
| OpDelete (id : UUID) (by_ : option string)
| OpRollback (componentID : UUID) (environmentID : option UUID) (version : Z) (comment : string) (by_ : option string).

Definition perform (s : Admin) (op : ConfigOp) : Admin :=
  match op with
  | OpUpsert c by_ => (ComponentConfigService.Upsert ComponentConfigService.wired c by_ s).2
  | OpDelete id by_ => (ComponentConfigService.Delete ComponentConfigService.wired id by_ s).2
  | OpRollback c env v comment by_ => (ConfigSnapshotService.Rollback c env v comment by_ s).2
  end.

Definition performed (ops : list ConfigOp) (s : Admin) : Admin := foldl perform s ops.

(** C28: Over any history of changes, deletions and rollbacks the recorded
    versions are only added to: those of a scope are numbered one, two, three
    and so on in the order of their recording, none is rewritten or lost, and
    none carries a secret in the clear. *)
Theorem config_versions_append_only ops s :
  sound_versions (rows (a_snapshots s)) ->
  sound_versions (rows (a_snapshots (performed ops s))) /\
  exists new, rows (a_snapshots (performed ops s)) = rows (a_snapshots s) ++ new.
Proof.
  change (grows s (performed ops s)). unfold performed. revert s. induction ops as [|op ops IH]; intros s; [reflexivity|].
  simpl. etransitivity; [|apply IH]. destruct op; [apply Grows_Upsert|apply Grows_Delete|apply Grows_Rollback].
Qed.

(** ** Rolling back *)

(** C27: A rollback answers an error and changes nothing, or restores the
    configuration of its scope: every row there comes from an entry of the
    version rolled back to, the others are gone, rows of other scopes are
    untouched, and capturing the scope again gives exactly the body of that
    version, which is recorded once more under the next number.  (The row of a
    secret that still existed ends up holding the mask of the body.) *)
Theorem config_rollback_exact c env v comment by_ s :
  NoDup (cfg_ID <$> rows (a_configs s)) -> NoDup (cfg_Key <$> inside c env (rows (a_configs s))) ->
  (forall target, target ∈ versions c (ScopeKeyOf env) (rows (a_snapshots s)) -> snap_Version target = v ->
     exists entries, DecodeConfigSnapshot (snap_Snapshot target) = Ok entries /\ well_captured entries /\
       NoDup (ce_Key <$> entries)) ->
  wp (ConfigSnapshotService.Rollback c env v comment by_) (fun r s' =>
    match r with
    | Err _ => asame s s'
    | Ok snap => exists target entries,
        target ∈ versions c (ScopeKeyOf env) (rows (a_snapshots s)) /\ snap_Version target = v /\
        DecodeConfigSnapshot (snap_Snapshot target) = Ok entries /\
        BuildConfigSnapshot (inside c env (rows (a_configs s'))) = entries /\
        (forall r, r ∈ inside c env (rows (a_configs s')) -> exists e, e ∈ entries /\
           written c env by_ (a_now s) (rows (a_configs s)) e r) /\
        outside c env (rows (a_configs s')) = outside c env (rows (a_configs s)) /\
        rows (a_snapshots s') = rows (a_snapshots s) ++ [snap] /\
        snap_Snapshot snap = snap_Snapshot target /\
        (numbered (rows (a_snapshots s)) ->
           snap_Version snap = Z.of_nat (length (versions c (ScopeKeyOf env) (rows (a_snapshots s)))) + 1)
    end) s.
Proof.
  intros Hi Hk Hbody. unfold ConfigSnapshotService.Rollback. cbv zeta.
  apply wp_try. eapply wp_mono; [apply wp_version_of|]. intros [target|e] s1 [HS Ht]; [|done].
  destruct Ht as (Ht & Hscope & Hv). pose proof (same_asame _ _ HS) as E1.
  assert (Hin : target ∈ versions c (ScopeKeyOf env) (rows (a_snapshots s))) by (by apply elem_of_versions).
  destruct (Hbody target Hin Hv) as (entries & Hd & Hwc & He). rewrite Hd.
  assert (Ec : rows (a_configs s1) = rows (a_configs s)) by (by destruct HS as [_ _ _ _ _ _ _ [? _]]).
  assert (En : a_now s1 = a_now s) by (by destruct HS).
  apply wp_Tx; [|done]. intros snap s' Er.
  assert (H : wp (try* _ := ConfigSnapshotService.applyEntries c env entries by_ in
    try* latest := zoom a_snapshots (ConfigSnapshotRepository.LockLatest c (ScopeKeyOf env)) in
    ConfigSnapshotService.append c env latest (Sprintf "回滚到 v%d：%s" [AInt v; AStr comment]) (snap_Snapshot target) by_)
    (fun r s' => match r with
     | Ok snap => restored c env by_ (a_now s) entries (rows (a_configs s)) (rows (a_configs s')) /\
         rows (a_snapshots s') = rows (a_snapshots s) ++ [snap] /\ snap_Snapshot snap = snap_Snapshot target /\
         (numbered (rows (a_snapshots s)) ->
           snap_Version snap = Z.of_nat (length (versions c (ScopeKeyOf env) (rows (a_snapshots s)))) + 1)
     | Err _ => True end) s1).
  { apply wp_try. eapply wp_mono; [apply wp_applyEntries; by rewrite ?Ec|].
    intros [[]|e] s3 H3; [|done]. destruct H3 as (t & -> & HR).
    eapply wp_mono; [apply wp_record_rollback; simpl; by rewrite E1|]. intros [snap'|e] s4 [_ H4]; [|done].
    destruct H4 as (s5 & t' & [_ _ _ _ _ _ _ [E5 _]] & -> & Hr & Hs & Hn). simpl in *. rewrite E1 in *.
    rewrite E5. simpl. rewrite <- En, <- Ec. auto. }
  unfold wp in H. rewrite Er in H. destruct H as (HR & Hr & Hs & Hn).
  destruct (restored_facts _ _ _ _ _ _ _ HR) as (Ho & Hw & Hp). exists target, entries.
  split; [done|]. split; [done|]. split; [done|]. split; [|auto].
  apply BuildConfigSnapshot_exact; [done|done|]. apply Hp; [apply Hwc|done].
Qed.
End Versions.

(** * On the demonstration hub *)

(** Marshalled without spaces, printed by Postgres with them. *)
#[local] Instance demo_text : JSONText := {|
  marshal_text := print_json "," ":";
  column_text := print_json ", " ": ";
|}.

Definition unsaved_config (key value : string) (secret : bool) : ComponentConfig :=
  mkComponentConfig uuid_Nil 7 None key value secret "" "" None None time_Zero time_Zero.

(** Two settings and a secret; then one setting changes and another goes. *)
Definition config_ops : list ConfigOp :=
  [OpUpsert (unsaved_config "PORT" "80" false) (Some "ana");
   OpUpsert (unsaved_config "TOKEN" "s3cr3t" true) (Some "ana");
   OpUpsert (unsaved_config "HOST" "a" false) (Some "ana");
   OpUpsert ((unsaved_config "HOST" "b" false) <| cfg_ID := 3 |>) (Some "ben");
   OpDelete 1 (Some "ben")].

Definition configured : Admin := performed config_ops demo_admin.

Definition plain_entry (key value : string) : ConfigSnapshotEntry := mkConfigSnapshotEntry key value false "".

Definition configured_rows : list ConfigSnapshot := Eval vm_compute in rows (a_snapshots configured).
Lemma configured_rows_eq : rows (a_snapshots configured) = configured_rows.
Proof. vm_compute. reflexivity. Qed.

(** The third version, and what it decodes to. *)
Definition third_body : list ConfigSnapshotEntry :=
  [plain_entry "HOST" "a"; plain_entry "PORT" "80"; mkConfigSnapshotEntry "TOKEN" secret_mask true ""].

Lemma third_version target :
  target ∈ configured_rows -> snap_Version target = 3 -> DecodeConfigSnapshot (snap_Snapshot target) = Ok third_body.
Proof.
  unfold configured_rows. rewrite !elem_of_cons.
  intros [->|[->|[->|[->|[->|[]%not_elem_of_nil]]]]] Hv; try discriminate Hv. vm_compute. reflexivity.
Qed.

Example configured_versions :
  (fun v => (snap_Version v, snap_Comment v)) <$> rows (a_snapshots configured) =
  [(1, "配置变更 PORT"); (2, "配置变更 TOKEN"); (3, "配置变更 HOST"); (4, "配置变更 HOST"); (5, "删除配置 PORT")].
Proof. vm_compute. reflexivity. Qed.

Lemma config_diff_exact_witness :
  let d := DiffConfigSnapshots [plain_entry "HOST" "a"; plain_entry "PORT" "80"]
             [plain_entry "HOST" "b"; plain_entry "ZONE" "x"] 3 5 0 0 in
  cd_Keys d = [mkConfigKeyDiff "HOST" ConfigChangeModified "a" "b"; mkConfigKeyDiff "PORT" ConfigChangeRemoved "80" "";
               mkConfigKeyDiff "ZONE" ConfigChangeAdded "" "x"] /\
  (cd_Added d, cd_Removed d, cd_Modified d) = (1, 1, 1) /\ NoDup (kd_Key <$> cd_Keys d).
Proof.
  cbv zeta. split; [vm_compute; reflexivity|]. split; [vm_compute; reflexivity|].
  apply (config_diff_exact [plain_entry "HOST" "a"; plain_entry "PORT" "80"]
    [plain_entry "HOST" "b"; plain_entry "ZONE" "x"] 3 5 0 0); by apply (bool_decide_eq_true_1 _).
Defined.

Lemma config_versions_append_only_witness :
  sound_versions (rows (a_snapshots configured)) /\ length (rows (a_snapshots configured)) = 5%nat.
Proof.
  split; [|vm_compute; reflexivity].
  destruct (config_versions_append_only config_ops demo_admin) as [H _]; [apply sound_versions_nil|exact H].
Defined.

(** Back to the third version: PORT is created again, HOST is rewritten, and
    the secret ends up holding the mask. *)
Lemma config_rollback_exact_witness :
  let rollback := ConfigSnapshotService.Rollback 7 None 3 "oops" (Some "ben") in
  wp rollback (fun r s' => is_ok r = true -> BuildConfigSnapshot (inside 7 None (rows (a_configs s'))) = third_body)
    configured /\
  is_ok (rollback configured).1 = true /\
  (fun r => (cfg_Key r, cfg_Value r)) <$> rows (a_configs (rollback configured).2) =
    [("TOKEN", secret_mask); ("HOST", "a"); ("PORT", "80")] /\
  length (rows (a_snapshots (rollback configured).2)) = 6%nat.
Proof.
  split; [|split_and!; vm_compute; reflexivity].
  assert (Hv : forall target, target ∈ versions 7 (ScopeKeyOf None) (rows (a_snapshots configured)) ->
    snap_Version target = 3 -> DecodeConfigSnapshot (snap_Snapshot target) = Ok third_body).
  { intros target [_ Ht]%elem_of_versions Hv. rewrite configured_rows_eq in Ht. exact (third_version target Ht Hv). }
  eapply wp_mono; [apply config_rollback_exact|].
  - apply (bool_decide_eq_true_1 _); vm_compute; reflexivity.
  - apply (bool_decide_eq_true_1 _); vm_compute; reflexivity.
  - intros target Ht Hn. exists third_body. split; [exact (Hv target Ht Hn)|]. split; [split|].
    + repeat constructor.
    + repeat constructor; intros [=].
    + by apply (bool_decide_eq_true_1 _).
  - intros [snap|e] s' H; [intros _|discriminate]. destruct H as (target & entries & Ht & Hn & Hd & -> & _).
    rewrite (Hv target Ht Hn) in Hd. by injection Hd as <-.
Defined.
