(* ===== verification/CredentialProperties.v ===== *)
(** The credential store behaves as a map from identifiers to secrets, whatever
    the envelope ([internal/credentials]), and a secret reaches only the Runner
    it is meant for ([cmd/hub/agentop_dispatcher.go]). *)
From stdpp Require Import base list strings gmap.
From Stdlib Require Import ZArith Lia Ascii.
From S2P Require Import Prelude Common Gorm Json GoLib RunnerProto RunStore PipelineStore TargetStore.
From S2P Require Import EditStore OrgStore SiteStore PermStore RateLimit World Admin WorldLogic Frames.
From S2P Require Import Instances Credentials AdminLogic.

Open Scope Z_scope.

(** * Text *)

Lemma substring_all (s : string) : String.substring 0 (String.length s) s = s.
Proof. induction s as [|c s IH]; [done|]. simpl. by rewrite IH. Qed.

Lemma substring_left (s1 s2 : string) : String.substring 0 (String.length s1) (s1 +:+ s2) = s1.
Proof. induction s1 as [|c s IH]; simpl; [by destruct s2|]. by rewrite IH. Qed.

Lemma substring_right (s1 s2 : string) n :
  String.substring (String.length s1) n (s1 +:+ s2) = String.substring 0 n s2.
Proof. induction s1 as [|c s IH]; simpl; [done|]. exact IH. Qed.

Lemma split_at n s1 s2 :
  String.length s1 = n ->
  String.substring 0 n (s1 +:+ s2) = s1 /\
  String.substring n (String.length (s1 +:+ s2) - n) (s1 +:+ s2) = s2.
Proof.
  intros <-. split; [apply substring_left|]. rewrite substring_right, string_length_append.
  replace (_ + _ - _)%nat with (String.length s2) by lia. apply substring_all.
Qed.

Lemma HasPrefix_app p s : HasPrefix (p +:+ s) p = true.
Proof. unfold HasPrefix. induction p as [|c p IH]; simpl; [by destruct s|]. by destruct (Ascii.ascii_dec c c). Qed.

Lemma TrimPrefix_app p s : TrimPrefix (p +:+ s) p = s.
Proof.
  unfold TrimPrefix. rewrite HasPrefix_app, substring_right, string_length_append.
  replace (String.length p + String.length s - String.length p)%nat with (String.length s) by lia.
  apply substring_all.
Qed.

Section Vault.
Context {G : Gorm} {GL : GormLaws G} {P : Platform} {O : ObjectStore} {C : AESGCM} {CL : AESGCMLaws C}.
Context (k : string).

(** What a stored value stands for. *)
Definition reading (stored : string) : string :=
  match Decrypt k stored with Ok v => v | Err _ => stored end.

Definition sealed (stored plaintext : string) : Prop :=
  exists nonce, String.length nonce = 12%nat /\ stored = sealed_value k nonce plaintext.

Lemma Decrypt_sealed stored p : NewCipher k = Ok tt -> sealed stored p -> Decrypt k stored = Ok p.
Proof.
  intros Hk (n & Hn & ->). unfold Decrypt, sealed_value. rewrite HasPrefix_app. simpl negb.
  assert (He : empty_string k = false) by (destruct k; [discriminate Hk|done]). rewrite He.
  rewrite TrimPrefix_app, b64_roundtrip, Hk. simpl.
  destruct (split_at NonceSize n (gcm_Seal k n p) Hn) as [-> ->].
  rewrite string_length_append, Hn, Open_Seal. done.
Qed.

(** What a successful encryption answers: with a key, the envelope under the
    next nonce of the random source, which is thereby spent. *)
Definition enveloped (s s' : Admin) (v p : string) : Prop :=
  reading v = p /\ (k <> "" -> exists n, nonce_Read (a_uuids s) = Ok n /\ v = sealed_value k n p /\ a_uuids s' = S (a_uuids s)).

Lemma wp_Encrypt p s :
  wp (CredentialService.Encrypt k p) (fun r s' => asame s s' /\ (a_uuids s <= a_uuids s')%nat /\
    match r with Ok v => enveloped s s' v p | Err _ => True end) s.
Proof.
  unfold CredentialService.Encrypt, enveloped. destruct (empty_string k) eqn:Ek.
  - apply empty_string_zero in Ek. apply wp_ret. split; [reflexivity|]. split; [lia|]. split; [|done].
    unfold reading, Decrypt. rewrite Ek. by destruct (HasPrefix p prefix).
  - destruct (NewCipher k) as [[]|e] eqn:Hk; [|by apply wp_ret].
    apply wp_try, wp_run. intros r s' Er. unfold CredentialService.read_nonce in Er. injection Er as Er <-.
    assert (HS : asame s (s <| a_uuids := S (a_uuids s) |>)) by (split; (done || apply tsame_refl)).
    destruct r as [n|e]; [|by split; [|split; [simpl; lia|]]]. apply wp_ret. split; [exact HS|]. split; [simpl; lia|]. split.
    + unfold reading. rewrite (Decrypt_sealed (sealed_value k n p) p Hk); [done|].
      exists n. split; [by apply (nonce_full (a_uuids s))|done].
    + intros _. by exists n.
Qed.

Lemma enveloped_sealed s s' v p : k <> "" -> enveloped s s' v p -> sealed v p.
Proof.
  intros Hk [_ H]. destruct (H Hk) as (n & Hn & -> & _). exists n. split; [by apply (nonce_full (a_uuids s))|done].
Qed.

(** ** The abstract store *)

(** The rows [l] stand for the secrets [m]. *)
Record stands_for (l : list Credential) (m : gmap UUID string) : Prop := mkStandsFor {
  sf_ids : NoDup (cred_ID <$> l);
  sf_lookup : forall id v, m !! id = Some v <->
    exists c, c ∈ l /\ alive c = true /\ cred_ID c = id /\ reading (cred_Value c) = v;
}.

Lemma stands_none l m id c : stands_for l m -> m !! id = None -> c ∈ l -> alive c = true -> cred_ID c <> id.
Proof.
  intros [_ Hm] Hn Hc Ha Hid. assert (m !! id = Some (reading (cred_Value c))) by (apply Hm; eauto). congruence.
Qed.

(** A new row. *)
Lemma stands_insert now l m id c :
  stands_for l m -> id ∉ cred_ID <$> l -> live (cred_DeletedAt c) = true ->
  m !! id = None /\ stands_for (l ++ [created id now c]) (<[id := reading (cred_Value c)]> m).
Proof.
  intros Hs Hid Hl. pose proof Hs as [Hnd Hm].
  assert (Hn : m !! id = None).
  { destruct (m !! id) as [v|] eqn:E; [|done]. apply Hm in E as (x & Hx & _ & <- & _).
    exfalso. by apply Hid, list_elem_of_fmap_2. }
  split; [exact Hn|]. split.
  - rewrite fmap_app. apply NoDup_app. split; [done|]. split; [|apply NoDup_singleton].
    intros x Hx ->%list_elem_of_singleton. done.
  - intros id' v. rewrite lookup_insert_Some. split.
    + intros [[<- <-]|[Hne (x & Hx & Hr)%Hm]].
      * exists (created id now c). split; [|done]. apply elem_of_app. right. by left.
      * exists x. split; [apply elem_of_app; by left|done].
    + intros (x & [Hx| ->%list_elem_of_singleton]%elem_of_app & Ha & Hi & Hr).
      * right. split; [|apply Hm; eauto]. intros ->. rewrite <- Hi in Hid. by apply Hid, list_elem_of_fmap_2.
      * left. by subst.
Qed.

(** A row written over. *)
Lemma stands_save now l m c :
  stands_for l m -> cred_ID c ∈ cred_ID <$> l -> live (cred_DeletedAt c) = true ->
  stands_for (save_rows now c l) (<[cred_ID c := reading (cred_Value c)]> m).
Proof.
  intros [Hnd Hm] Hid Hl. split.
  - change (NoDup (pk <$> save_rows now c l)). by rewrite pks_save_rows.
  - intros id v. rewrite lookup_insert_Some. split.
    + intros [[<- <-]|[Hne (x & Hx & Ha & Hi & Hr)%Hm]].
      * exists (updated now c). split; [apply elem_of_save_rows; by left|done].
      * exists x. split; [|done]. apply elem_of_save_rows. right. split; [done|]. simpl. by rewrite Hi.
    + intros (x & [[-> _]|[Hx Hne]]%elem_of_save_rows & Ha & Hi & Hr); simpl in *.
      * left. by subst.
      * right. split; [congruence|]. apply Hm. eauto.
Qed.

Lemma stands_delete now l m id :
  stands_for l m -> stands_for (delete_rows now (fun c => pk c =? id) l) (delete id m).
Proof.
  intros [Hnd Hm]. assert (Hin : forall x, x ∈ delete_rows now (fun c => pk c =? id) l <->
    (x ∈ l /\ (alive x && (cred_ID x =? id)) = false) \/
    (exists c, c ∈ l /\ alive c = true /\ cred_ID c = id /\ x = c <| cred_DeletedAt := Some now |>)).
  { intros x. unfold delete_rows. rewrite list_elem_of_omap. split.
    - intros (c & Hc & E). destruct (alive c && (pk c =? id)) eqn:Ec.
      + right. apply andb_true_iff in Ec as [Ha Hi%Z.eqb_eq]. injection E as <-. by exists c.
      + left. injection E as <-. done.
    - intros [[Hx E]|(c & Hc & Ha & Hi & ->)]; [exists x; split; [done|]; change (pk x) with (cred_ID x); by rewrite E|]. exists c.
      simpl. simpl in Ha. rewrite Ha, Hi, Z.eqb_refl. done. }
  split.
  - assert (E : cred_ID <$> delete_rows now (fun c => pk c =? id) l = cred_ID <$> l); [|by rewrite E].
    clear. unfold delete_rows. induction l as [|c l IH]; [done|]. simpl.
    destruct (live (cred_DeletedAt c) && (cred_ID c =? id)); simpl; f_equal; exact IH.
  - intros id' v. rewrite lookup_delete_Some, Hm. split.
    + intros [Hne (x & Hx & Ha & Hi & Hr)]. exists x. split; [|done]. apply Hin. left. split; [done|].
      apply andb_false_iff. right. apply Z.eqb_neq. congruence.
    + intros (x & [[Hx E]|(c & Hc & _ & _ & ->)]%Hin & Ha & Hi & Hr); [|done].
      split; [|eauto]. intros <-. by rewrite Ha, Hi, Z.eqb_refl in E.
Qed.

(** ** At rest

    Every row, deleted ones included, holds the envelope of what it stands for,
    sealed under a nonce of its own: one read of the random source, which the
    hub has made and spent on that row alone. *)
Definition at_rest (spent : nat) (l : list Credential) : Prop :=
  exists read_for : UUID -> nat,
    (forall c, c ∈ l -> (read_for (cred_ID c) < spent)%nat /\ exists n, nonce_Read (read_for (cred_ID c)) = Ok n /\
       cred_Value c = sealed_value k n (reading (cred_Value c))) /\
    (forall c c', c ∈ l -> c' ∈ l -> read_for (cred_ID c) = read_for (cred_ID c') -> cred_ID c = cred_ID c').

Lemma at_rest_keep u u' l l' :
  at_rest u l -> (u <= u')%nat ->
  (forall c, c ∈ l' -> exists x, x ∈ l /\ cred_ID x = cred_ID c /\ cred_Value x = cred_Value c) -> at_rest u' l'.
Proof.
  intros (f & Hf & Hinj) Hu Hl. exists f. split.
  - intros c (x & Hx & <- & <-)%Hl. destruct (Hf x Hx) as [? ?]. split; [lia|done].
  - intros c c' (x & Hx & <- & _)%Hl (x' & Hx' & <- & _)%Hl. by apply Hinj.
Qed.

Lemma at_rest_put u u' l l' id n p :
  at_rest u l -> (u < u')%nat -> nonce_Read u = Ok n -> reading (sealed_value k n p) = p ->
  (forall c, c ∈ l' -> (cred_ID c = id /\ cred_Value c = sealed_value k n p) \/
     (cred_ID c <> id /\ exists x, x ∈ l /\ cred_ID x = cred_ID c /\ cred_Value x = cred_Value c)) -> at_rest u' l'.
Proof.
  intros (f & Hf & Hinj) Hu Hn Hp Hl. exists (fun i => if decide (i = id) then u else f i). split.
  - intros c [[-> ->]|[Hne (x & Hx & Ei & Ev)]]%Hl.
    + rewrite decide_True by done. split; [done|]. exists n. by rewrite Hp.
    + rewrite decide_False by done. rewrite <- Ei, <- Ev. destruct (Hf x Hx) as [? ?]. split; [lia|done].
  - intros c c' [[-> _]|[Hne (x & Hx & Ei & _)]]%Hl [[-> _]|[Hne' (x' & Hx' & Ei' & _)]]%Hl.
    + done.
    + rewrite decide_True, decide_False by done. rewrite <- Ei'. destruct (Hf x' Hx') as [? _]. lia.
    + rewrite decide_False, decide_True by done. rewrite <- Ei. destruct (Hf x Hx) as [? _]. lia.
    + rewrite !decide_False by done. rewrite <- Ei, <- Ei'. by apply Hinj.
Qed.

Lemma created_rows now id' c x l : x ∈ l ++ [created id' now c] -> id' ∉ cred_ID <$> l ->
  (cred_ID x = id' /\ cred_Value x = cred_Value c) \/ (cred_ID x <> id' /\ exists y, y ∈ l /\ cred_ID y = cred_ID x /\ cred_Value y = cred_Value x).
Proof.
  intros [Hx| ->%list_elem_of_singleton]%elem_of_app Hid; [right|by left].
  split; [intros <-; by apply Hid, list_elem_of_fmap_2|by exists x].
Qed.

Lemma saved_rows now c x l : x ∈ save_rows now c l ->
  (cred_ID x = cred_ID c /\ cred_Value x = cred_Value c) \/
  (cred_ID x <> cred_ID c /\ exists y, y ∈ l /\ cred_ID y = cred_ID x /\ cred_Value y = cred_Value x).
Proof.
  intros [[-> _]|[Hx Hne]]%elem_of_save_rows; [by left|right]. split; [exact Hne|by exists x].
Qed.

Lemma deleted_rows now p x (l : list Credential) : x ∈ delete_rows now p l ->
  exists y, y ∈ l /\ cred_ID y = cred_ID x /\ cred_Value y = cred_Value x.
Proof.
  unfold delete_rows. rewrite list_elem_of_omap. intros (c & Hc & E). exists c. split; [done|].
  destruct (alive c && p c); injection E as <-; done.
Qed.

(** The store stands for the map and, with a key, holds envelopes only. *)
Definition vault (s : Admin) (m : gmap UUID string) : Prop :=
  stands_for (rows (a_credentials s)) m /\ (k <> "" -> at_rest (a_uuids s) (rows (a_credentials s))).

Lemma vault_same s s' m : asame s s' -> (a_uuids s <= a_uuids s')%nat -> vault s m -> vault s' m.
Proof.
  intros HS Hu [H1 H2]. assert (Er : rows (a_credentials s') = rows (a_credentials s)) by (by destruct HS; destruct asame_credentials).
  split; [by rewrite Er|]. intros Hk. rewrite Er. eapply at_rest_keep; [by apply H2|done|]. intros c Hc. by exists c.
Qed.

(** The value to be written by an update, and what it is. *)
Lemma wp_next_value id in_ m s : vault s m ->
  wp (CredentialService.next_value k id in_) (fun r s' => asame s s' /\ (a_uuids s <= a_uuids s')%nat /\
    match r with
    | Ok v => if empty_string (cred_Value in_)
              then m !! id = Some (reading v) /\ exists x, x ∈ rows (a_credentials s) /\ cred_ID x = id /\ cred_Value x = v
              else enveloped s s' v (cred_Value in_)
    | Err _ => True
    end) s.
Proof.
  intros [[_ Hm] _]. unfold CredentialService.next_value. destruct (empty_string (cred_Value in_)); [|apply wp_Encrypt].
  apply wp_try, (wp_zoom a_credentials), wp_First.
  - intros c t Ht Ha Hi%Z.eqb_eq Hc. apply wp_ret. split; [by apply (afield_same (proj := a_credentials))|]. split; [done|].
    split; [apply Hm; by exists c|by exists c].
  - intros e t Ht _ _ _. split; [by apply (afield_same (proj := a_credentials))|done].
Qed.

(** C29: The credential store refines a map from identifiers to secrets: a
    creation adds a fresh entry, an update replaces the entry's secret or,
    given none, keeps it, a deletion removes it, and a read answers exactly the
    secret in the map.  With a key configured every row holds an authenticated
    envelope of its secret, whichever operation wrote it, and no two rows were
    sealed with the same read of the random source.  An error leaves the rows
    as they were. *)
Theorem credentials_refine_vault s m id in_ :
  vault s m -> live (cred_DeletedAt in_) = true -> id <> uuid_Nil ->
  wp (CredentialService.Create k in_) (fun r s' =>
    match r with
    | Ok c => m !! cred_ID c = None /\ vault s' (<[cred_ID c := cred_Value in_]> m)
    | Err _ => asame s s' /\ vault s' m
    end) s /\
  wp (CredentialService.Update k id in_) (fun r s' =>
    match r with
    | Ok _ => exists v, (if empty_string (cred_Value in_) then m !! id = Some v else v = cred_Value in_) /\
                vault s' (<[id := v]> m)
    | Err _ => asame s s' /\ vault s' m
    end) s /\
  wp (CredentialService.Delete id) (fun r s' =>
    match r with
    | Ok _ => vault s' (delete id m)
    | Err _ => asame s s' /\ vault s' m
    end) s /\
  wp (CredentialService.Get k id) (fun r s' => (asame s s' /\ vault s' m) /\
    match r with
    | Ok c => cred_ID c = id /\ m !! id = Some (cred_Value c)
    | Err _ => healthy (a_credentials s) -> m !! id = None
    end) s.
Proof.
  intros Hv Hl Hid. pose proof Hv as [Hm Hrest]. split_and!.
  - apply wp_try. eapply wp_mono; [apply wp_Encrypt|]. intros [v|e] s1 (HS & Hu & H); [|split; [done|by eapply vault_same]].
    destruct H as [Hr Hseal]. assert (Er : rows (a_credentials s1) = rows (a_credentials s)) by (by destruct HS; destruct asame_credentials).
    apply wp_on, wp_Create.
    + intros c t _ (id' & _ & Hfresh & _ & ->) Ht. rewrite Er in *. simpl.
      set (c := in_ <| cred_Value := v |>) in *.
      destruct (stands_insert (a_now s1) _ m id' c Hm Hfresh Hl) as [Hn Hs]. split; [done|]. split; simpl.
      * rewrite Ht, <- Hr. exact Hs.
      * intros Hk. destruct (Hseal Hk) as (n & Hn' & -> & Hspent). rewrite Ht, Hspent.
        eapply at_rest_put; [by apply Hrest|lia|exact Hn'|exact Hr|]. intros x Hx. by apply (created_rows (a_now s1) id' c).
    + intros e t Ht. assert (HS' : asame s (set_field a_credentials (fun _ => t) s1))
        by (etransitivity; [exact HS|]; by apply (afield_same (proj := a_credentials))).
      split; [exact HS'|]. by eapply vault_same.
  - apply wp_try. eapply wp_mono; [by apply wp_next_value|]. intros [v|e] s1 (HS & Hu & Hval); [|split; [done|by eapply vault_same]].
    apply wp_on, wp_run. intros r t E. apply Save_spec in E as [Hh Hres].
    assert (Er : rows (a_credentials s1) = rows (a_credentials s)) by (by destruct HS; destruct asame_credentials).
    set (c := in_ <| cred_Value := v |> <| cred_ID := id |>) in *. destruct r as [c'|e].
    + exists (reading v). split; [destruct (empty_string _); apply Hval|]. simpl. rewrite Er in Hres.
      assert (Hput : stands_for (rows t) (<[id := reading v]> m) /\ forall x, x ∈ rows t ->
        (cred_ID x = id /\ cred_Value x = v) \/
        (cred_ID x <> id /\ exists y, y ∈ rows (a_credentials s) /\ cred_ID y = cred_ID x /\ cred_Value y = cred_Value x)).
      { destruct Hres as [(Hin & _ & ->)|(Hin & (id' & _ & Hfresh & [Hn|Hn] & ->) & ->)]; [|done|].
        - split; [apply (stands_save _ _ m c Hm Hin Hl)|]. intros x. apply saved_rows.
        - simpl in Hn. subst id'. split; [apply (stands_insert (a_now s1) _ m id c Hm Hfresh Hl)|].
          intros x Hx. by apply (created_rows (a_now s1) id c). }
      split; [apply Hput|]. intros Hk. destruct (empty_string (cred_Value in_)).
      * destruct Hval as (_ & x & Hx & Hxi & Hxv). eapply at_rest_keep; [by apply Hrest|exact Hu|].
        intros y [[Hyi Hyv]|[_ Hy]]%(proj2 Hput); [exists x; split_and!; congruence|exact Hy].
      * destruct Hval as [Hr Hseal]. destruct (Hseal Hk) as (n & Hn & -> & Hspent). simpl. rewrite Hspent.
        eapply at_rest_put; [by apply Hrest|lia|exact Hn|by rewrite Hr|]. apply Hput.
    + assert (HS' : asame s (set_field a_credentials (fun _ => t) s1))
        by (etransitivity; [exact HS|]; apply (afield_same (proj := a_credentials)); split; [apply Hres|done]).
      split; [exact HS'|]. by eapply vault_same.
  - apply wp_try, wp_on, wp_Delete.
    + intros t _ Ht. apply wp_ret. split; simpl; rewrite Ht; [by apply stands_delete|].
      intros Hk. eapply at_rest_keep; [by apply Hrest|done|]. intros c. apply deleted_rows.
    + intros e t Ht _. assert (HS' := afield_same (proj := a_credentials) s t Ht). split; [exact HS'|]. by eapply vault_same.
  - apply wp_try, (wp_zoom a_credentials), wp_First.
    + intros c t Ht Ha Hi%Z.eqb_eq Hc. apply wp_ret. assert (HS' := afield_same (proj := a_credentials) s t Ht).
      split; [split; [exact HS'|by eapply vault_same]|].
      unfold CredentialService.decrypted. assert (Hval : m !! id = Some (reading (cred_Value c))) by (apply Hm; eauto).
      unfold reading in Hval. by destruct (Decrypt k (cred_Value c)).
    + intros e t Ht He Hnone _. assert (HS' := afield_same (proj := a_credentials) s t Ht).
      split; [split; [exact HS'|by eapply vault_same]|]. intros Hh.
      destruct (m !! id) as [v|] eqn:E; [|done]. exfalso. apply Hm in E as (c & Hc & Ha & Hi & _).
      apply (not_elem_of_nil c). rewrite <- (Hnone (He Hh)). apply elem_of_selected. split; [done|].
      split; [by apply Z.eqb_eq|done].
Qed.
End Vault.

(** * On the demonstration hub *)

(** A cipher that only marks what it sealed. *)
#[local] Instance marking : AESGCM := {|
  gcm_Seal := fun k n p => "<" +:+ p +:+ ">";
  gcm_Open := fun k n c => Some (String.substring 1 (String.length c - 2) c);
  nonce_Read := fun i => Ok "nonce-nonce-";
|}.
#[local] Instance marking_laws : AESGCMLaws marking.
Proof.
  split; [|by intros i n [= <-]]. intros k n p.
  change (Some (String.substring 0 (String.length (p +:+ ">") - 1) (p +:+ ">")) = Some p).
  rewrite string_length_append. simpl.
  replace (String.length p + 1 - 1)%nat with (String.length p) by lia. by rewrite substring_left.
Qed.

Definition demo_key : string := "0123456789abcdef".

Definition secret_input (value : string) : Credential := of_input (mkCredentialInput "kube" "kubeconfig" "" "" value).

Definition vault_created : Admin := (CredentialService.Create demo_key (secret_input "s3cr3t") demo_admin).2.
Definition vault_after : Admin := (CredentialService.Update demo_key 1 (secret_input "") vault_created).2.

(** A metadata edit keeps the secret (and forgets when the row was created);
    what is stored is the envelope of the first nonce read. *)
Lemma credentials_refine_vault_witness :
  (exists m, vault demo_key vault_created m /\ m !! 1 = Some "s3cr3t") /\
  (cred_Value <$> rows (a_credentials vault_after)) = ["enc:v1:" +:+ b64_encode "nonce-nonce-<s3cr3t>"] /\
  (CredentialService.Get demo_key 1 vault_after).1 =
    Ok (mkCredential 1 time_Zero (a_now demo_admin) None "kube" "kubeconfig" "" "" "s3cr3t").
Proof.
  split; [|split; vm_compute; reflexivity].
  assert (H0 : vault demo_key demo_admin ∅).
  { split; [split; [constructor|]|].
    - intros id v. rewrite lookup_empty. split; [done|]. by intros (c & ?%elem_of_nil & _).
    - intros _. exists (fun _ => 0%nat). split; [intros c Hc|intros c c' Hc]; by apply not_elem_of_nil in Hc. }
  destruct (credentials_refine_vault demo_key demo_admin ∅ 1 (secret_input "s3cr3t") H0 eq_refl ltac:(done)) as (H1 & _).
  pose proof (proj1 (wp_run _ _ _) H1) as H. clear H1.
  assert (E : exists c, (CredentialService.Create demo_key (secret_input "s3cr3t") demo_admin).1 = Ok c /\ cred_ID c = 1)
    by (eexists; split; vm_compute; reflexivity).
  destruct E as (c & E & Hc). specialize (H (Ok c) vault_created). simpl in H.
  destruct H as (_ & H).
  { unfold vault_created. rewrite <- E. apply surjective_pairing. }
  exists (<[cred_ID c := "s3cr3t"]> ∅). split; [exact H|]. rewrite Hc. apply lookup_insert_eq.
Defined.

(** * Which secret reaches which Runner *)

Section Secrets.
Context {G : Gorm} {GL : GormLaws G} {P : Platform} {O : ObjectStore} {C : AESGCM} {D : Dispatcher} {DL : DispatcherLaws D}.
Context (k : string).

(** The environment's credential, in the store [m]. *)
Definition holds_secret (s : Admin) (m : gmap UUID string) (op : AgentOp) (secret : string) : Prop :=
  exists env credID, env ∈ rows (a_environments s) /\ op_EnvID op = Some (env_ID env) /\
    env_Access env = EnvAccessKubeconfig /\ uuid_Parse (ac_KubeCredRef (env_AccessConfig env)) = Some credID /\
    m !! credID = Some secret.

Lemma wp_wrap_err {S A} f args (m : M S (Result A)) Q s :
  wp m (fun r s' => Q (match r with Ok a => Ok a | Err e => Err (EWrap f args e) end) s') s ->
  wp (wrap_err f args m) Q s.
Proof. intros H. unfold wrap_err. apply wp_bind. eapply wp_mono; [exact H|]. intros a s' Ha. exact Ha. Qed.

Lemma wp_credential_of env m s0 s :
  stands_for k (rows (a_credentials s)) m -> asame s0 s ->
  wp (credential_of k env) (fun r s' => asame s0 s' /\
    forall secret, r = Ok secret -> exists credID,
      uuid_Parse (ac_KubeCredRef (env_AccessConfig env)) = Some credID /\ m !! credID = Some secret) s.
Proof.
  intros Hm Hs. unfold credential_of. destruct (empty_string _); [by apply wp_ret|].
  destruct (uuid_Parse _) as [credID|]; [|by apply wp_ret].
  apply wp_try, wp_wrap_err, (wp_zoom a_credentials), wp_First.
  - intros c t Ht Ha Hi%Z.eqb_eq Hc. apply wp_ret. split.
    { etransitivity; [exact Hs|]. by apply (afield_same (proj := a_credentials)). }
    destruct (Decrypt k (cred_Value c)) as [v|e] eqn:Ed; [|done]. intros secret [= <-]. exists credID. split; [done|].
    apply Hm. exists c. split_and!; try done. unfold reading. by rewrite Ed.
  - intros e t Ht _ _ _. split; [|done]. etransitivity; [exact Hs|]. by apply (afield_same (proj := a_credentials)).
Qed.

Lemma wp_buildPayload op m s :
  stands_for k (rows (a_credentials s)) m ->
  wp (buildPayload k op) (fun r s' => asame s s' /\
    forall p, r = Ok p -> aod_OpID p = uuid_String (op_ID op) /\ aod_OpType p = op_OpType op /\
      aod_Detail p = op_Detail op /\ (aod_Kubeconfig p <> "" -> holds_secret s m op (aod_Kubeconfig p))) s.
Proof.
  intros Hm. unfold buildPayload. destruct (op_EnvID op) as [envID|] eqn:Ev.
  2: { apply wp_ret. split; [reflexivity|]. by intros p [= <-]. }
  apply wp_try, wp_wrap_err, (wp_zoom a_environments), wp_First.
  2: { intros e t Ht _ _ _. split; [|done]. by apply (afield_same (proj := a_environments)). }
  intros env t Ht _ Hi%Z.eqb_eq Hin. set (s1 := set_field _ _ s).
  assert (S1 : asame s s1) by by apply (afield_same (proj := a_environments)).
  destruct (String.eqb_spec (env_Access env) EnvAccessKubeconfig) as [Ha|Ha]; simpl.
  2: { apply wp_ret. split; [exact S1|]. by intros p [= <-]. }
  apply wp_try. eapply wp_mono; [apply (wp_credential_of env m s s1); [exact Hm|exact S1]|].
  intros [plain|e] s2 [S2 Hp]; [|done]. apply wp_ret. split; [exact S2|]. intros p [= <-]. split_and!; try done.
  intros _. destruct (Hp plain eq_refl) as (credID & Hu & Hl). exists env, credID. simpl. split_and!; try done.
  rewrite Ev. by rewrite <- Hi.
Qed.

(** C30: Whatever the dispatcher sends for an operation is one frame to the
    operation's own target, with the operation's identity and command; a secret
    in it is the one the credential store holds for the environment the
    operation was created in, whose access is by kubeconfig.  An installation is
    never sent, nothing goes to a target that is not connected, and an error
    means that nothing was sent.  The tables are only read. *)
Theorem secrets_reach_their_target op m w :
  stands_for k (rows (a_credentials (wd_admin w))) m ->
  wp (Dispatch k op) (fun r w' =>
    asame (wd_admin w) (wd_admin w') /\
    (delivered (wd_link w') = delivered (wd_link w) \/
     exists p, delivered (wd_link w') = delivered (wd_link w) ++ [(op_TargetID op, MessageAgentOp p)] /\
       r = None /\ connected (op_TargetID op) (wd_link w) = true /\
       op_OpType op <> AgentOpInstall /\ aod_OpID p = uuid_String (op_ID op) /\ aod_Detail p = op_Detail op /\
       (aod_Kubeconfig p <> "" -> holds_secret (wd_admin w) m op (aod_Kubeconfig p)))) w.
Proof.
  intros Hm. unfold Dispatch. destruct (_ && _) eqn:Et; [apply wp_ret; split; [reflexivity|by left]|].
  assert (Ht : op_OpType op <> AgentOpInstall) by (intros E; by rewrite E in Et).
  apply wp_bind, (wp_zoom wd_admin). eapply wp_mono; [by apply wp_buildPayload|].
  intros [p|e] s' [HS Hp]; [|apply wp_ret; split; [exact HS|by left]].
  destruct (Hp p eq_refl) as (Hid & _ & Hd & Hsec). apply (wp_zoom wd_link), wp_run. intros r l' E.
  split; [exact HS|]. destruct r as [e|].
  - left. by apply send_err in E.
  - right. apply send_ok in E as [Hdel Hc]. exists p. by split_and!.
Qed.
End Secrets.

(** * On the demonstration hub *)

#[local] Existing Instance marking.

Lemma stands_for_one {C : AESGCM} k (c : Credential) :
  alive c = true -> stands_for k [c] {[cred_ID c := reading k (cred_Value c)]}.
Proof.
  intros Ha. split; [apply NoDup_singleton|]. intros id v. rewrite lookup_singleton_Some. split.
  - intros [<- <-]. exists c. by rewrite list_elem_of_singleton.
  - by intros (x & ->%list_elem_of_singleton & _ & <- & <-).
Qed.

Definition kube_environment : Environment :=
  mkEnvironment 400 5 5 7 "prod" "Prod" 30 EnvTypeProduction "acme-c7" EnvAccessKubeconfig None
    (mkEnvAccessConfig "ref" (uuid_text 1) "" false "" "" "" false []) EnvStatusVerified None "".

Definition exec_on_prod : AgentOp :=
  mkAgentOp 500 30 (Some 400) AgentOpExec AgentOpQueued "kubectl get pods" "" 5 5 None.

Definition wired (online : list UUID) : Wired := mkWired
  (vault_created <| a_environments := table [kube_environment] |>) (demo_hub online : Link).

Lemma vault_row : exists c, rows (a_credentials vault_created) = [c] /\ alive c = true /\ cred_ID c = 1 /\
  reading demo_key (cred_Value c) = "s3cr3t".
Proof. eexists. split; [vm_compute; reflexivity|]. vm_compute. repeat split. Qed.

(** The kubeconfig of the environment reaches target 30, and nobody when it is
    away. *)
Lemma secrets_reach_their_target_witness :
  (forall p, delivered (wd_link (Dispatch demo_key exec_on_prod (wired [30])).2) = [(30, MessageAgentOp p)] ->
     aod_Kubeconfig p <> "" -> holds_secret (wd_admin (wired [30])) {[1 := "s3cr3t"]} exec_on_prod (aod_Kubeconfig p)) /\
  delivered (wd_link (Dispatch demo_key exec_on_prod (wired [30])).2) =
    [(30, MessageAgentOp (mkAgentOpDispatch (uuid_text 500) (uuid_text 30) (uuid_text 400) AgentOpExec
            "kubectl get pods" "acme-c7" "s3cr3t"))] /\
  (Dispatch demo_key exec_on_prod (wired [])).1 = Some ErrNoRunner.
Proof.
  split; [|split; vm_compute; reflexivity].
  assert (Hm : stands_for demo_key (rows (a_credentials (wd_admin (wired [30])))) {[1 := "s3cr3t"]}).
  { destruct vault_row as (c & Hr & Ha & Hi & Hv). change (rows (a_credentials (wd_admin (wired [30]))))
      with (rows (a_credentials vault_created)). rewrite Hr, <- Hi, <- Hv. by apply stands_for_one. }
  intros p Hp Hne. destruct (secrets_reach_their_target demo_key exec_on_prod {[1 := "s3cr3t"]} (wired [30]) Hm)
    as (_ & [H|H]); [rewrite Hp in H; discriminate H|].
  destruct H as (p' & E & _ & _ & _ & _ & _ & Hsec). rewrite Hp in E. injection E as <-. exact (Hsec Hne).
Defined.
