(* ===== verification/PlatformProperties.v ===== *)
(** What an environment's status stands for ([internal/environment]), and what
    the change window and the login mode guarantee ([internal/platform]). *)
From stdpp Require Import base list strings gmap.
From Stdlib Require Import ZArith Lia Ascii.
From S2P Require Import Prelude Common Gorm Json GoLib RunnerProto RunStore PipelineStore TargetStore.
From S2P Require Import EditStore OrgStore SiteStore PermStore RateLimit World Admin Permissions Middleware.
From S2P Require Import WorldLogic RunDispatch RunTrigger Frames Instances PipelineVersions Environments.
From S2P Require Import Settings AdminLogic.

Open Scope Z_scope.

(** * The report *)

(** What the hub can tell of an environment without reaching out to it. *)
Definition reachable (now : Time) (env : Environment) (target : option Target) : Prop :=
  configured env = true /\
  (env_Access env = EnvAccessAgent -> exists t beat, target = Some t /\ tg_Status t = TargetStatusOnline /\
     tg_LastHeartbeatAt t = Some beat /\ now - beat < 5 * Minute).

Definition failing (l : list TestItem) : bool := existsb (has_status "fail") l.

Lemma failing_item name ok d l : failing (item name ok d :: l) = negb ok || failing l.
Proof. by destruct ok. Qed.
Lemma failing_skip name d l : failing (skip name d :: l) = failing l.
Proof. done. Qed.
Create Rewrite HintDb failing.
#[local] Hint Rewrite failing_item failing_skip : failing.

Definition online_now (now : Time) (target : option Target) : bool :=
  match target with
  | Some t => String.eqb (tg_Status t) TargetStatusOnline && isFresh now (tg_LastHeartbeatAt t)
  | None => false end.

Lemma online_now_true now target :
  online_now now target = true <-> exists t beat, target = Some t /\ tg_Status t = TargetStatusOnline /\
    tg_LastHeartbeatAt t = Some beat /\ now - beat < 5 * Minute.
Proof.
  unfold online_now, isFresh, Sub. destruct target as [t|]; [|split; [done|by intros (? & ? & ? & _)]].
  rewrite andb_true_iff, String.eqb_eq. split.
  - intros [Hs Hb]. destruct (tg_LastHeartbeatAt t) as [beat|] eqn:E; [|done].
    apply Z.ltb_lt in Hb. exists t, beat. split_and!; try done. unfold Minute, Second in *. lia.
  - intros (t' & beat & [= <-] & Hs & Hb & Hlt). rewrite Hb. split; [done|]. apply Z.ltb_lt.
    unfold Minute, Second in *. lia.
Qed.

Lemma failing_items now env target :
  failing (test_items now env target) = false <-> reachable now env target.
Proof.
  unfold test_items, reachable, configured. change (match target with Some t => _ | None => false end)
    with (online_now now target).
  destruct (String.eqb_spec (env_Access env) EnvAccessAgent) as [Ha|Hna].
  - autorewrite with failing. rewrite !orb_false_iff, !negb_false_iff, online_now_true, andb_true_iff.
    cbn. naive_solver.
  - assert (Hag : (env_Access env = EnvAccessAgent -> exists t beat, target = Some t /\
      tg_Status t = TargetStatusOnline /\ tg_LastHeartbeatAt t = Some beat /\ now - beat < 5 * Minute) <-> True)
      by (split; [done|by intros _ ?]).
    rewrite Hag. destruct (String.eqb_spec (env_Access env) EnvAccessKubeconfig) as [Hk|Hnk];
      [|destruct (String.eqb_spec (env_Access env) EnvAccessSSH) as [Hs|Hns]];
      autorewrite with failing; cbn; rewrite ?orb_false_iff, ?negb_false_iff, ?andb_true_iff; naive_solver.
Qed.

Lemma test_status_spec report :
  test_status report = if failing (tr_Items report) then EnvStatusFailed else EnvStatusVerified.
Proof. done. Qed.

Definition passed (l : list TestItem) : nat := length (filter (fun it => has_status "pass" it = true) l).
Definition counted (l : list TestItem) : nat := length (filter (fun it => has_status "skip" it = false) l).

Lemma passed_cons it l : passed (it :: l) = ((if has_status "pass" it then 1 else 0) + passed l)%nat.
Proof. unfold passed. rewrite filter_cons. by destruct (has_status "pass" it). Qed.
Lemma counted_cons it l : counted (it :: l) = ((if has_status "skip" it then 0 else 1) + counted l)%nat.
Proof. unfold counted. rewrite filter_cons. by destruct (has_status "skip" it). Qed.

Lemma passed_le l : (passed l <= counted l)%nat.
Proof.
  induction l as [|it l IH]; [done|]. rewrite passed_cons, counted_cons. unfold has_status.
  destruct (String.eqb_spec (ti_Status it) "pass") as [->|]; simpl; [lia|]. case_match; lia.
Qed.

(** Every item passes, fails or is skipped, so the counts meet exactly when
    nothing fails. *)
Lemma counts_meet l :
  Forall (fun it => ti_Status it ∈ ["pass"; "fail"; "skip"]) l -> passed l = counted l <-> failing l = false.
Proof.
  induction 1 as [|it l Hit Hl IH]; [done|]. rewrite passed_cons, counted_cons. pose proof (passed_le l) as Hle.
  unfold failing, has_status in *. simpl. set_unfold in Hit. destruct Hit as [-> |[-> |[-> |[]]]]; simpl.
  - rewrite <- IH. lia.
  - split; [lia|done].
  - rewrite <- IH. lia.
Qed.

Lemma test_items_statuses now env target :
  Forall (fun it => ti_Status it ∈ ["pass"; "fail"; "skip"]) (test_items now env target).
Proof.
  assert (Hi : forall name ok d, ti_Status (item name ok d) ∈ ["pass"; "fail"; "skip"])
    by (intros name [] d; set_solver).
  assert (Hs : forall name d, ti_Status (skip name d) ∈ ["pass"; "fail"; "skip"]) by set_solver.
  unfold test_items. repeat case_match; repeat (constructor; [apply Hi || apply Hs|]); constructor.
Qed.

(** * The operations *)

Section Operations.
Context {G : Gorm} {GL : GormLaws G} {P : Platform} {O : ObjectStore} {T : JSONText}.

(** The row [env] is what the environments hold under its identifier, and the
    other rows are as they were. *)
Definition stored_env (env : Environment) (s s' : Admin) : Prop :=
  env ∈ rows (a_environments s') /\
  forall e, env_ID e <> env_ID env -> e ∈ rows (a_environments s') <-> e ∈ rows (a_environments s).

(** What the test relies on when it looks the target up. *)
Definition seen_target (env : Environment) (s : Admin) (target : option Target) : Prop :=
  match target with
  | Some t => t ∈ rows (a_targets s) /\ alive t = true /\ tg_ID t = env_TargetID env
  | None => healthy (a_targets s) -> selected (fun t => pk t =? env_TargetID env) (rows (a_targets s)) = []
  end.

Lemma read_GetByID {R} `{Model R} id : TRead (R := R) (Repository_GetByID id).
Proof. apply read_First. Qed.

Lemma wp_now_ (Q : Time -> Admin -> Prop) s : Q (a_now s) s -> wp now_ Q s.
Proof. done. Qed.

(** What [Test] reports and stores. *)
Definition test_report (now : Time) (env : Environment) (target : option Target) : TestReport :=
  let report := buildTestReport now env target in
  report <| tr_Status := test_status report |> <| tr_TestedAt := FormatRFC3339 now |>.

Lemma test_report_exact now env target (report := test_report now env target) :
  (tr_Status report = EnvStatusVerified <-> reachable now env target) /\
  (tr_Status report = EnvStatusFailed <-> ~ reachable now env target) /\
  (tr_Passed report = tr_Total report <-> reachable now env target).
Proof.
  rewrite <- failing_items. change (tr_Status report) with
    (if failing (test_items now env target) then EnvStatusFailed else EnvStatusVerified).
  change (tr_Passed report) with (Z.of_nat (passed (test_items now env target))).
  change (tr_Total report) with (Z.of_nat (counted (test_items now env target))).
  rewrite <- (counts_meet _ (test_items_statuses now env target)).
  rewrite Nat2Z.inj_iff, (counts_meet _ (test_items_statuses now env target)).
  destruct (failing _); naive_solver.
Qed.

(** A connection test that succeeds gives the environment the status
    "verified" exactly when its access is configured and, for access through
    the agent, the target is online with a heartbeat less than five minutes
    old; otherwise "failed".  The report counts as many passed items as it
    counts items exactly then.  The row carries the status, the time and the
    text of the very report that is answered, and no other row changes. *)
Theorem connection_test_exact id s :
  wp (EnvironmentService.Test id) (fun r s' =>
    match r with
    | Ok report => exists env target,
        env ∈ rows (a_environments s) /\ alive env = true /\ env_ID env = id /\ seen_target env s target /\
        (tr_Status report = EnvStatusVerified <-> reachable (a_now s) env target) /\
        (tr_Status report = EnvStatusFailed <-> ~ reachable (a_now s) env target) /\
        (tr_Passed report = tr_Total report <-> reachable (a_now s) env target) /\
        stored_env (updated (a_now s) (EnvironmentService.tested (a_now s) env report)) s s'
    | Err _ => asame s s'
    end) s.
Proof.
  unfold EnvironmentService.Test. apply wp_try, (wp_zoom a_environments), wp_First.
  2: { intros e t Ht _ _ _. by apply (afield_same (proj := a_environments)). }
  intros env t Ht Ha Hi%Z.eqb_eq Hin. set (s1 := set_field _ _ s).
  assert (S1 : asame s s1) by by apply (afield_same (proj := a_environments)).
  apply wp_bind, (wp_zoom a_targets).
  apply (wp_mono _ (fun r t' => tsame (a_targets s) t' /\
    seen_target env s (match r with Ok t => Some t | Err _ => None end))).
  { apply wp_First.
    - intros tg t' Ht' Hat Hit%Z.eqb_eq Hint. done.
    - intros e t' Ht' He Hnone _. split; [done|]. intros Hh. by apply Hnone, He. }
  intros r t' [Ht' Hseen]. set (s2 := set_field a_targets _ s1).
  assert (S2 : asame s s2) by (etransitivity; [exact S1|]; apply (afield_same (proj := a_targets)); exact Ht').
  set (target := match r with Ok t => Some t | Err _ => None end) in *.
  apply wp_bind, wp_now_. change (a_now s2) with (a_now s). fold (test_report (a_now s) env target).
  apply wp_try, wp_on, wp_Save_known.
  - change (rows (a_environments s2)) with (rows t). rewrite (proj1 Ht).
    change (pk env ∈ pk <$> rows (a_environments s)). by apply list_elem_of_fmap_2.
  - intros tb _ Hr. apply wp_ret. exists env, target. destruct (test_report_exact (a_now s) env target) as (H1 & H2 & H3).
    assert (Hrows : rows tb = save_rows (a_now s) (EnvironmentService.tested (a_now s) env
      (test_report (a_now s) env target)) (rows (a_environments s))) by (rewrite <- (proj1 Ht); exact Hr).
    split_and!; try done. split.
    + change (updated (a_now s) (EnvironmentService.tested (a_now s) env (test_report (a_now s) env target)) ∈ rows tb).
      rewrite Hrows. apply elem_of_save_rows. left. split; [done|].
      change (pk env ∈ pk <$> rows (a_environments s)). by apply list_elem_of_fmap_2.
    + intros e He. change (e ∈ rows tb <-> e ∈ rows (a_environments s)). rewrite Hrows, elem_of_save_rows.
      split; [by intros [[-> _]|[He' _]]|]. intros Hin'. by right.
  - intros e tb Htb _. etransitivity; [exact S2|]. by apply (afield_same (proj := a_environments)).
Qed.

End Operations.

(** * On the demonstration hub *)

Definition agent_environment (status : string) : Environment :=
  mkEnvironment 400 5 5 7 "beta" "Beta" 30 EnvTypeTest "acme-c7-beta" EnvAccessAgent None
    (mkEnvAccessConfig "" "" "" false "" "" "" false []) status None "".

Definition environment_hub (beat : option Time) : Admin := demo_admin
  <| a_environments := table [agent_environment EnvStatusUnconfigured] |>
  <| a_targets := table [(demo_target 30 "edge" TargetStatusOnline) <| tg_LastHeartbeatAt := beat |>] |>.

(** An update stores the status it is given: no test is needed for "verified". *)
Example verified_without_test :
  env_Status <$> rows (a_environments (EnvironmentService.Update 400 (agent_environment EnvStatusVerified)
    (environment_hub None)).2) = [EnvStatusVerified].
Proof. vm_compute. reflexivity. Qed.

#[local] Instance demo_text : JSONText := {| marshal_text := fun _ => "{}"; column_text := fun _ => "{}" |}.

(** A heartbeat 999 s old, and one of a second ago. *)
Definition stale_hub : Admin := environment_hub (Some (1 * Second)).

Lemma connection_test_exact_witness :
  match (EnvironmentService.Test 400 stale_hub).1 with
  | Ok report => tr_Status report <> EnvStatusVerified
  | Err _ => False end /\
  (env_Status <$> rows (a_environments (EnvironmentService.Test 400 (environment_hub (Some (999 * Second)))).2) =
    [EnvStatusVerified]).
Proof.
  split; [|vm_compute; reflexivity].
  pose proof (connection_test_exact 400 stale_hub) as H. unfold wp in H.
  assert (Hok : is_ok (EnvironmentService.Test 400 stale_hub).1 = true) by (vm_compute; reflexivity).
  destruct (EnvironmentService.Test 400 stale_hub).1 as [report|e]; [|discriminate Hok].
  destruct H as (env & target & Hin & _ & _ & Hseen & Hv & _).
  assert (env = agent_environment EnvStatusUnconfigured) as -> by by apply list_elem_of_singleton in Hin.
  rewrite Hv. intros [_ H]. destruct (H eq_refl) as (t & beat & -> & _ & Hb & Hlt). destruct Hseen as (Ht & _).
  assert (t = (demo_target 30 "edge" TargetStatusOnline) <| tg_LastHeartbeatAt := Some (1 * Second) |>) as ->
    by by apply list_elem_of_singleton in Ht.
  injection Hb as <-. vm_compute in Hlt. discriminate Hlt.
Defined.

(** * The change window and the login mode *)

(** * The window as a set of minutes of the week *)

(** The week has 10080 minutes, the first of them Sunday's midnight.  A window
    opens at minute [start] of each allowed day and stays open until the next
    time the clock shows [end_]. *)
Definition open_minute (cw : ChangeWindow) (start end_ minute : Z) : Prop :=
  exists day k, 0 <= day < 7 /\ weekdayAllowed cw day = true /\
    0 <= k < (end_ - start) mod 1440 /\ minute = (1440 * day + start + k) mod 10080.

Lemma clock_number_range s max n : clock_number s max = Some n -> 0 <= n <= max.
Proof.
  unfold clock_number. destruct (Atoi s) as [z|]; [|done].
  destruct (Z.ltb_spec z 0), (Z.ltb_spec max z); simpl; intros [= <-]; lia.
Qed.

Lemma parseHHMM_range s n : parseHHMM s = Ok n -> 0 <= n < 1440.
Proof.
  unfold parseHHMM. destruct (Split ":"%char (TrimSpace s)) as [|hh [|mm [|? ?]]]; try done.
  destruct (_ || _); [done|]. destruct (clock_number hh 23) as [h|] eqn:Eh; [|done].
  destruct (clock_number mm 59) as [m|] eqn:Em; [|done]. intros [= <-].
  apply clock_number_range in Eh, Em. lia.
Qed.

(** The three branches of the code are that set. *)
Lemma in_clock_window_open cw weekday minutes start end_ :
  cw_Enabled cw = true -> parseHHMM (cw_Start cw) = Ok start -> parseHHMM (cw_End cw) = Ok end_ ->
  0 <= weekday < 7 -> 0 <= minutes < 1440 ->
  in_clock_window cw weekday minutes = true <-> open_minute cw start end_ (1440 * weekday + minutes).
Proof.
  intros He Hs Hn Hw Hm. unfold in_clock_window. rewrite He, Hs, Hn. simpl.
  apply parseHHMM_range in Hs, Hn.
  assert (Hfwd : forall d k, 0 <= d < 7 -> weekdayAllowed cw d = true -> 0 <= k < (end_ - start) mod 1440 ->
    1440 * weekday + minutes = (1440 * d + start + k) mod 10080 -> open_minute cw start end_ (1440 * weekday + minutes))
    by (intros d k; exists d, k; done).
  destruct (Z.leb_spec start end_).
  - assert (El : (end_ - start) mod 1440 = end_ - start) by (apply Z.mod_small; lia).
    destruct (Z.ltb_spec minutes start), (Z.leb_spec end_ minutes); simpl; (split; [|]); try done.
    all: try (intros (d & k & Hd & Ha & Hk & E); rewrite El in Hk; exfalso; rewrite Z.mod_small in E; lia).
    + intros Ha. apply (Hfwd weekday (minutes - start)); [lia|done|lia|]. rewrite Z.mod_small; lia.
    + intros (d & k & Hd & Ha & Hk & E). rewrite El in Hk. rewrite Z.mod_small in E by lia.
      assert (weekday = d) as -> by lia. done.
  - assert (El : (end_ - start) mod 1440 = end_ - start + 1440)
      by (symmetry; apply (Z.mod_unique _ _ (-1)); lia).
    assert (Hprev : (weekday + 6) mod 7 = if weekday =? 0 then 6 else weekday - 1)
      by (destruct (Z.eqb_spec weekday 0); [subst; done|symmetry; apply (Z.mod_unique _ _ 1); lia]).
    destruct (Z.leb_spec start minutes); [|destruct (Z.ltb_spec minutes end_)]; simpl; split; try done.
    + intros Ha. apply (Hfwd weekday (minutes - start)); [lia|done|lia|]. rewrite Z.mod_small; lia.
    + intros (d & k & Hd & Ha & Hk & E). rewrite El in Hk.
      assert (weekday = d) as ->; [|done].
      destruct (Z.lt_ge_cases (1440 * d + start + k) 10080) as [?|?].
      * rewrite Z.mod_small in E by lia. lia.
      * rewrite <- (Z.mod_unique _ 10080 1 (1440 * d + start + k - 10080)) in E by lia. lia.
    + rewrite Hprev. intros Ha. destruct (Z.eqb_spec weekday 0) as [->|].
      * apply (Hfwd 6 (minutes - start + 1440)); [lia|done|lia|]. apply (Z.mod_unique _ _ 1); lia.
      * apply (Hfwd (weekday - 1) (minutes - start + 1440)); [lia|done|lia|]. rewrite Z.mod_small; lia.
    + intros (d & k & Hd & Ha & Hk & E). rewrite El in Hk. rewrite Hprev.
      destruct (Z.lt_ge_cases (1440 * d + start + k) 10080) as [?|?].
      * rewrite Z.mod_small in E by lia. assert (weekday = d + 1) as -> by lia.
        destruct (Z.eqb_spec (d + 1) 0); [lia|]. by replace (d + 1 - 1) with d by lia.
      * rewrite <- (Z.mod_unique _ 10080 1 (1440 * d + start + k - 10080)) in E by lia.
        assert (weekday = 0) as -> by lia. assert (d = 6) as -> by lia. done.
    + intros (d & k & Hd & Ha & Hk & E). rewrite El in Hk. exfalso.
      destruct (Z.lt_ge_cases (1440 * d + start + k) 10080) as [?|?].
      * rewrite Z.mod_small in E by lia. lia.
      * rewrite <- (Z.mod_unique _ 10080 1 (1440 * d + start + k - 10080)) in E by lia. lia.
Qed.

(** A clock reading is a minute of the week. *)
Lemma clock_reading loc t :
  0 <= Weekday loc t < 7 /\ 0 <= HourOf loc t * 60 + MinuteOf loc t < 1440.
Proof.
  unfold Weekday, HourOf, MinuteOf. split; [apply Z.mod_pos_bound; lia|].
  pose proof (Z.mod_pos_bound (local_sec loc t) 86400). pose proof (Z.mod_pos_bound (local_sec loc t) 3600).
  assert (0 <= local_sec loc t mod 86400 / 3600 <= 23) by (split; [apply Z.div_pos|apply Z.lt_succ_r, Z.div_lt_upper_bound]; lia).
  assert (0 <= local_sec loc t mod 3600 / 60 <= 59) by (split; [apply Z.div_pos|apply Z.lt_succ_r, Z.div_lt_upper_bound]; lia).
  lia.
Qed.

Definition week_minute (loc : Location) (t : Time) : Z :=
  1440 * Weekday loc t + (HourOf loc t * 60 + MinuteOf loc t).

(** The window admits the instant. *)
Definition admits (loc : Location) (cw : ChangeWindow) (t : Time) : Prop :=
  cw_Enabled cw = true -> exists start end_,
    parseHHMM (cw_Start cw) = Ok start /\ parseHHMM (cw_End cw) = Ok end_ /\
    open_minute cw start end_ (week_minute loc t).

Lemma InWindow_admits loc cw t : InWindow loc cw t = true <-> admits loc cw t.
Proof.
  unfold InWindow, admits. destruct (clock_reading loc t) as [Hw Hm].
  destruct (cw_Enabled cw) eqn:He; [|unfold in_clock_window; rewrite He; done].
  destruct (parseHHMM (cw_Start cw)) as [a|e] eqn:Ea; [destruct (parseHHMM (cw_End cw)) as [b|e] eqn:Eb|].
  - rewrite (in_clock_window_open cw _ _ a b) by done. split.
    + intros H _. by exists a, b.
    + intros H. destruct (H eq_refl) as (a' & b' & [= <-] & [= <-] & H'). exact H'.
  - unfold in_clock_window. rewrite He, Ea, Eb. split; [done|]. intros H. by destruct (H eq_refl) as (? & ? & _ & ? & _).
  - unfold in_clock_window. rewrite He, Ea. split; [done|]. intros H. by destruct (H eq_refl) as (? & ? & ? & _).
Qed.

(** * The gate in front of a trigger *)

Section Gate.
Context {MX : MetaV1} {G : Gorm} {P : Platform} {D : Dispatcher} {I : SettingStore World} {T : JSONText} {X : JSONReader}.

Lemma Trigger_ungated s pipelineID req w w1 :
  check_change_window s w = (Ok tt, w1) ->
  Trigger s pipelineID req w = Trigger (s <| changeWindowGuard := None |>) pipelineID req w1.
Proof.
  intros E. unfold Trigger at 1, try_bind at 1, bind at 1. rewrite E. by destruct s.
Qed.

(** C32: With the change window of the settings in front of it, a trigger from
    any source runs exactly when the minute of the week lies in the window: one
    that opens at the start time of an allowed day and lasts until the end time,
    past midnight when that comes first.  Outside, or when the stored times
    cannot be read as times, it is refused and nothing is written; when the
    setting cannot be fetched, or the window is off, it runs as if there were
    no gate. *)
Theorem triggers_only_in_window s pipelineID req w r w1 :
  changeWindowGuard s = Some (change_window_gate time_Now) -> LoadChangeWindow w = (r, w1) ->
  (forall cw, r = Ok cw -> ~ admits Local cw (w_now w1) ->
     Trigger s pipelineID req w = (Err (outside_window cw), w1)) /\
  ((forall cw, r = Ok cw -> admits Local cw (w_now w1)) ->
     Trigger s pipelineID req w = Trigger (s <| changeWindowGuard := None |>) pipelineID req w1).
Proof.
  intros Hg Hl.
  assert (E : check_change_window s w = (match r with
    | Ok cw => if InWindow Local cw (w_now w1) then Ok tt else Err (outside_window cw)
    | Err _ => Ok tt end, w1)).
  { unfold check_change_window. rewrite Hg. unfold change_window_gate, bind at 1 2. rewrite Hl.
    destruct r as [cw|e]; [|done]. unfold bind, time_Now, ret. simpl. by destruct (InWindow Local cw (w_now w1)). }
  split.
  - intros cw -> Hn. destruct (InWindow Local cw (w_now w1)) eqn:Ei; [by apply InWindow_admits in Ei|].
    unfold Trigger, try_bind, bind at 1. by rewrite E.
  - intros Ha. apply Trigger_ungated. rewrite E. destruct r as [cw|e]; [|done].
    by rewrite (proj2 (InWindow_admits Local cw (w_now w1)) (Ha cw eq_refl)).
Qed.
End Gate.

(** * The setting *)

#[export] Instance GormSettingStore_laws {K : SettingsTable} {L : SettingsTableLaws K} : SettingStoreLaws KV.
Proof.
  split.
  - intros k t r t' E. cbn [setting_Get GormSettingStore] in E. unfold Get, try_bind, bind in E.
    destruct (kv_First k t) as [[row|e] t1] eqn:E1; injection E as <- <-;
      destruct (kv_First_spec _ _ _ _ E1) as [Hr Hk]; simpl; rewrite Hr; (split; [done|]).
    + by rewrite lookup_fmap, Hk.
    + intros He. by rewrite lookup_fmap, Hk.
  - intros k v t r t' E. apply kv_Save_spec in E. simpl in *. destruct r; [|by rewrite E].
    destruct E as [at_ ->]. by rewrite fmap_insert.
Qed.

Section Saved.
Context {S : Type} {I : SettingStore S} {L : SettingStoreLaws S} {T : JSONText} {X : JSONReader}.

(** The text of a window is read back as its document. *)
Definition reads_back (cw : ChangeWindow) : Prop :=
  parse_text (marshal_text (enc cw)) = RawDoc (enc cw) /\ marshal_text (enc cw) <> "".

Lemma Validate_wf cw : Validate cw = None -> wf cw.
Proof.
  unfold Validate. destruct (parseHHMM (cw_Start cw)); [|done]. destruct (parseHHMM (cw_End cw)); [|done].
  simpl. induction (cw_Weekdays cw) as [|d l IH]; [constructor|]. simpl.
  destruct (bad_weekday d) eqn:Ed; [done|]. intros H. constructor; [|by apply IH].
  unfold bad_weekday in Ed. apply orb_false_iff in Ed as [?%Z.ltb_ge ?%Z.ltb_ge].
  apply andb_true_iff. split; [apply Z.leb_le|apply Z.ltb_lt]; lia.
Qed.

Lemma Parse_printed cw : Validate cw = None -> reads_back cw -> ParseChangeWindow (marshal_text (enc cw)) = cw.
Proof.
  intros Hv [Hp Hne]. unfold ParseChangeWindow. destruct (empty_string _) eqn:E; [by apply empty_string_zero in E|].
  rewrite Hp. unfold Unmarshal. by rewrite roundtrip by by apply Validate_wf.
Qed.

Lemma Load_stored cw s :
  settings s !! SettingKeyChangeWindow = Some (marshal_text (enc cw)) -> Validate cw = None -> reads_back cw ->
  wp LoadChangeWindow (fun r s' => settings s' = settings s /\ forall cw', r = Ok cw' -> cw' = cw) s.
Proof.
  intros Hs Hv Hb. apply wp_run. intros r s' E. unfold LoadChangeWindow, bind in E.
  destruct (setting_Get SettingKeyChangeWindow s) as [r1 s1] eqn:E1. injection E as <- <-.
  destruct (Get_spec _ _ _ _ E1) as [Hr Hk]. split; [done|]. destruct r1 as [raw|e].
  - assert (raw = marshal_text (enc cw)) as -> by congruence. intros cw' [= <-]. by apply Parse_printed.
  - destruct (errors_Is e ErrRecordNotFound) eqn:Ee; [|done]. specialize (Hk eq_refl). congruence.
Qed.

(** A window the administrator's request stores is the window every later
    reading answers, from the gate and from the settings page, and no other
    setting changes; a request that is not answered 200 stores nothing.  The
    default window that is answered before anything is stored is itself
    refused when sent back. *)
Theorem change_window_saved body s :
  wp (PutChangeWindow body) (fun r s1 =>
    (rs_Code r = StatusOK -> exists cw, UnmarshalE (A := ChangeWindow) body = Ok cw /\ Validate cw = None /\
       (forall k, k <> SettingKeyChangeWindow -> settings s1 !! k = settings s !! k) /\
       (reads_back cw -> wp LoadChangeWindow (fun r2 s2 => settings s2 = settings s1 /\
          forall cw', r2 = Ok cw' -> cw' = cw) s1)) /\
    (rs_Code r <> StatusOK -> settings s1 = settings s)) s /\
  (PutChangeWindow (Marshal (zero : ChangeWindow)) s).1 =
    Fail StatusBadRequest (EWrap "开始时间非法: %w" [] (EFmt "%q 须为严格两位 HH:MM" [AStr ""])).
Proof.
  split; [|done]. apply wp_run. intros r s1. unfold PutChangeWindow, SaveChangeWindow, EncodeChangeWindow.
  destruct (UnmarshalE (A := ChangeWindow) body) as [cw|e]; [|intros [= <- <-]; split; [|done]; by destruct e].
  destruct (Validate cw) as [e|] eqn:Hv; [intros [= <- <-]; split; [|done]; by destruct e|].
  unfold bind. destruct (setting_Put _ _ s) as [[[]|e] s2] eqn:E; intros [= <- <-];
    apply Put_spec in E; (split; [|done || (intros; done)]).
  - intros _. exists cw. split_and!; try done.
    + intros k Hk. rewrite E. by rewrite lookup_insert_ne.
    + intros Hb. apply Load_stored; [|done..]. rewrite E. apply lookup_insert_eq.
  - by destruct e.
Qed.
End Saved.

(** * The login mode *)

Section LoginMode.
Context {S : Type} {I : SettingStore S} {L : SettingStoreLaws S} (seed : string).

(** The mode a store stands for. *)
Definition mode_of (m : gmap string string) : string :=
  match m !! loginModeKey with Some v => if empty_string v then seed else v | None => seed end.

(** The cache of a process that alone writes the setting. *)
Definition coherent (s : SettingLoginMode.State S) : Prop :=
  SettingLoginMode.lm_cache s = "" \/ SettingLoginMode.lm_cache s = mode_of (settings (SettingLoginMode.lm_store s)).

(** Behind its cache the service is the plain setting: a reading answers the
    stored mode or the seed, and a change that is accepted is the next
    reading. *)
Lemma login_mode_coherent mode s :
  coherent s ->
  wp (SettingLoginMode.Get seed) (fun r s' => coherent s' /\
    settings (SettingLoginMode.lm_store s') = settings (SettingLoginMode.lm_store s) /\
    forall v, r = Ok v -> v = mode_of (settings (SettingLoginMode.lm_store s))) s /\
  wp (SettingLoginMode.Set_ mode) (fun r s' => coherent s' /\
    (is_ok r = true -> mode_of (settings (SettingLoginMode.lm_store s')) = mode) /\
    (is_ok r = false -> settings (SettingLoginMode.lm_store s') = settings (SettingLoginMode.lm_store s))) s.
Proof.
  intros Hc. split; apply wp_run.
  - intros r s'. unfold SettingLoginMode.Get, bind at 1, get.
    destruct (empty_string (SettingLoginMode.lm_cache s)) eqn:Ee; simpl.
    + apply empty_string_zero in Ee. unfold bind at 1, zoom.
      destruct (setting_Get loginModeKey (SettingLoginMode.lm_store s)) as [r1 t1] eqn:E.
      destruct (Get_spec _ _ _ _ E) as [Ht Hk]. destruct r1 as [v|e].
      * intros [= <- <-]. simpl. unfold coherent, mode_of. simpl. rewrite Ht, Hk.
        split; [by right|]. split; [done|]. by intros v' [= <-].
      * destruct (errors_Is e ErrRecordNotFound) eqn:En; intros [= <- <-]; unfold coherent; simpl;
          (split; [by left|]); (split; [done|]); [|done].
        intros v' [= <-]. unfold mode_of. by rewrite (Hk eq_refl).
    + intros [= <- <-]. split; [done|]. split; [done|]. intros v [= <-].
      destruct Hc as [Hc|Hc]; [by rewrite Hc in Ee|done].
  - intros r s'. unfold SettingLoginMode.Set_. destruct (_ && _) eqn:Em; [intros [= <- <-]; done|].
    unfold try_bind, bind, zoom. destruct (setting_Put _ _ _) as [[[]|e] t1] eqn:E; intros [= <- <-];
      apply Put_spec in E; unfold coherent, mode_of; simpl.
    + rewrite E, lookup_insert_eq. destruct (empty_string mode) eqn:Ee; [apply empty_string_zero in Ee; by subst|].
      split; [by right|done].
    + rewrite E. split; [exact Hc|done].
Qed.
End LoginMode.

(** * On the demonstration hub *)

(** Ten in the evening to six, the nights that start on a Wednesday. *)
Definition night_window (days : list Z) : ChangeWindow := mkChangeWindow true "22:00" "06:00" days.

(** The hub's settings hold the window [cw] alone. *)
Definition fixed_setting (cw : ChangeWindow) : SettingStore World := {|
  setting_Get := fun k w =>
    (if String.eqb k SettingKeyChangeWindow then Ok "window" else Err ErrRecordNotFound, w);
  setting_Put := fun k v w => (Err (ELib "read-only"), w);
  settings := fun _ => ∅;
|}.

Definition only_document {A} {C : Codec A} (a : A) : JSONReader := fun _ => RawDoc (enc a).

Definition gated (days : list Z) : PipelineRunService :=
  demo_service <| changeWindowGuard := Some (change_window_gate (I := fixed_setting (night_window days))
    (X := only_document (night_window days)) time_Now) |>.

(** The demonstration hub's clock shows a quarter past midnight on a Thursday. *)
Lemma triggers_only_in_window_witness :
  Trigger (gated [4]) 10 demo_request demo = (Err (outside_window (night_window [4])), demo) /\
  is_ok (Trigger (gated [3]) 10 demo_request demo).1 = true.
Proof.
  split.
  - assert (Hl : LoadChangeWindow (I := fixed_setting (night_window [4])) (X := only_document (night_window [4])) demo
      = (Ok (night_window [4]), demo)) by reflexivity.
    destruct (triggers_only_in_window (gated [4]) 10 demo_request demo _ _ eq_refl Hl) as [H _].
    apply H; [reflexivity|]. rewrite <- InWindow_admits. vm_compute. discriminate.
  - vm_compute. reflexivity.
Defined.

(** A table that is its rows. *)
#[local] Instance plain_settings : SettingsTable := {|
  KV := gmap string Setting;
  kv_rows := fun t => t;
  kv_First := fun k t => (match t !! k with Some row => Ok row | None => Err ErrRecordNotFound end, t);
  kv_Save := fun row t => (Ok tt, <[set_Key row := row]> t);
|}.
#[local] Instance plain_settings_laws : SettingsTableLaws plain_settings.
Proof.
  split.
  - intros k t r t' E. injection E as <- <-. split; [done|]. simpl in *. destruct (@lookup string Setting _ _ k t) eqn:Et; [reflexivity|intros _; reflexivity].
  - intros [k v at_] t r t' E. injection E as <- <-. by exists at_.
Qed.
#[local] Instance named_text : JSONText := {| marshal_text := fun _ => "window"; column_text := fun _ => "window" |}.
#[local] Instance night_reader : JSONReader := only_document (night_window [3]).

Definition after_put : KV := (PutChangeWindow (Marshal (night_window [3])) ∅).2.

Lemma change_window_saved_witness :
  (forall cw, (LoadChangeWindow after_put).1 = Ok cw -> cw = night_window [3]) /\
  (LoadChangeWindow after_put).1 = Ok (night_window [3]).
Proof.
  split; [|vm_compute; reflexivity].
  destruct (proj1 (change_window_saved (Marshal (night_window [3])) (∅ : KV))) as [H _].
  assert (H200 : rs_Code (PutChangeWindow (Marshal (night_window [3])) (∅ : KV)).1 = StatusOK) by (vm_compute; reflexivity).
  destruct (H H200) as (cw & Hu & _ & _ & Hl). vm_compute in Hu. injection Hu as <-.
  assert (Hb : reads_back (night_window [3])) by (split; [reflexivity|discriminate]).
  destruct (Hl Hb) as [_ HH]. intros cw Hcw. apply HH. exact Hcw.
Defined.
