(* ===== verification/LocalStorageProperties.v ===== *)
(** What a signed URL of the disk backend opens, and what it does not
    ([internal/artifact/storage/local.go]). *)
From stdpp Require Import base list strings gmap pretty sorting.
From Stdlib Require Import ZArith Lia Ascii.
From S2P Require Import Prelude Common Gorm Json GoLib RunnerProto RunStore PipelineStore TargetStore.
From S2P Require Import EditStore OrgStore SiteStore PermStore RateLimit World Admin.
From S2P Require Import Artifacts LocalStorage.

Open Scope Z_scope.

(** * Decimal numbers *)

Lemma digit_of_char x : (x < 10)%N -> digit_of (pretty_N_char x) = Some (Z.of_N x).
Proof.
  intros Hx. assert (x = 0 \/ x = 1 \/ x = 2 \/ x = 3 \/ x = 4 \/ x = 5 \/ x = 6 \/ x = 7 \/ x = 8 \/ x = 9)%N
    as H by lia. by destruct_or!; subst.
Qed.

Lemma digits_pretty_go x s : digits_value (pretty_N_go x s) 0 = digits_value s (Z.of_N x).
Proof.
  revert s. induction (N.lt_wf_0 x) as [x _ IH]; intros s.
  assert (x = 0 \/ 0 < x)%N as [->|Hx] by lia; [by rewrite pretty_N_go_0|].
  rewrite pretty_N_go_step, IH by (done || by apply N.div_lt). simpl.
  rewrite digit_of_char by (apply N.mod_lt; lia). f_equal.
  rewrite N2Z.inj_div, N2Z.inj_mod. pose proof (Z.div_mod (Z.of_N x) 10). simpl. lia.
Qed.

Lemma digits_pretty (n : N) : digits_value (pretty n) 0 = Some (Z.of_N n).
Proof. unfold pretty, pretty_N. case_decide as E; [by subst|]. by rewrite digits_pretty_go. Qed.

(** ** Characters *)

Definition lacks (c : ascii) (s : string) : Prop := cut c s = None.

Lemma lacks_String c x s : lacks c (String x s) <-> x <> c /\ lacks c s.
Proof.
  unfold lacks. simpl. destruct (Ascii.eqb_spec x c); [naive_solver|]. destruct (cut c s) as [[? ?]|]; naive_solver.
Qed.
Lemma lacks_app c s1 s2 : lacks c (s1 +:+ s2) <-> lacks c s1 /\ lacks c s2.
Proof.
  induction s1 as [|x s1 IH]; [by split; [|intros [_ ?]]|]. change (String x s1 +:+ s2) with (String x (s1 +:+ s2)).
  rewrite !lacks_String, IH. naive_solver.
Qed.
Lemma cut_app c s r : lacks c s -> cut c (s +:+ String c r) = Some (s, r).
Proof.
  induction s as [|x s IH]; intros Hs.
  - simpl. by rewrite Ascii.eqb_refl.
  - apply lacks_String in Hs as [Hne Hs]. change (String x s +:+ String c r) with (String x (s +:+ String c r)).
    simpl. destruct (Ascii.eqb_spec x c); [done|]. by rewrite IH.
Qed.

Lemma lacks_pretty_go c x s : digit_of c = None -> lacks c s -> lacks c (pretty_N_go x s).
Proof.
  intros Hc. revert s. induction (N.lt_wf_0 x) as [x _ IH]; intros s Hs.
  assert (x = 0 \/ 0 < x)%N as [->|Hx] by lia; [by rewrite pretty_N_go_0|].
  rewrite pretty_N_go_step by done. apply IH; [by apply N.div_lt|]. apply lacks_String. split; [|done].
  intros <-. rewrite digit_of_char in Hc; [done|]. apply N.mod_lt. lia.
Qed.
Lemma lacks_pretty c (z : Z) : digit_of c = None -> c <> "-"%char -> lacks c (pretty z).
Proof.
  intros Hc Hm. assert (Hn : forall n : N, lacks c (pretty n)).
  { intros n. unfold pretty, pretty_N. case_decide; [|by apply lacks_pretty_go].
    apply lacks_String. split; [|done]. by intros <-. }
  destruct z as [|p|p]; [apply (Hn 0%N)|apply (Hn (Npos p))|].
  change (pretty (Z.neg p)) with ("-" +:+ pretty (Npos p)). apply lacks_app. split; [|apply Hn].
  apply lacks_String. split; [congruence|done].
Qed.

Lemma Atoi_digits s n : digits_value s 0 = Some n -> s <> "" -> in_range 64 n = true -> Atoi s = Some n.
Proof.
  intros Hs Hne Hr. unfold Atoi. destruct s as [|c s]; [done|].
  assert (c <> "-"%char /\ c <> "+"%char) as [H1 H2]
    by (split; intros ->; discriminate Hs).
  assert (Hu : unsigned_value (String c s) = Some n) by exact Hs.
  destruct c as [[] [] [] [] [] [] [] []]; try done; cbv iota; rewrite Hu; rewrite Hr; reflexivity.
Qed.

Lemma Atoi_pretty z : in_range 64 z = true -> Atoi (pretty z) = Some z.
Proof.
  intros Hr. assert (Hne : forall n : N, pretty n <> "").
  { intros n E. idtac. pose proof (digits_pretty n) as H. rewrite E in H. injection H as H.
    assert (n = 0%N) as -> by lia. discriminate E. }
  destruct z as [|p|p].
  - done.
  - apply Atoi_digits; [apply (digits_pretty (Npos p))|apply (Hne (Npos p))|done].
  - change (pretty (Z.neg p)) with (String "-" (pretty (Npos p))). unfold Atoi.
    assert (Hu : unsigned_value (pretty (Npos p)) = Some (Zpos p)).
    { unfold unsigned_value. rewrite digits_pretty. specialize (Hne (Npos p)). by destruct (pretty (Npos p)). }
    rewrite Hu. simpl Z.opp. cbn [fmap option_fmap option_map]. change (- Z.pos p) with (Z.neg p). by rewrite Hr.
Qed.

(** * The signed text determines what was signed *)

Lemma append_nil s : s +:+ "" = s.
Proof. induction s as [|c s IH]; [done|]. change (String c (s +:+ "") = String c s). by rewrite IH. Qed.

Lemma append_assoc s1 s2 s3 : (s1 +:+ s2) +:+ s3 = s1 +:+ (s2 +:+ s3).
Proof. induction s1 as [|c s IH]; [done|]. change (String c ((s +:+ s2) +:+ s3) = String c (s +:+ (s2 +:+ s3))). by rewrite IH. Qed.

Lemma Sprintf_payload method key exp :
  payload method key exp = pretty exp +:+ String "|" (method +:+ String "|" key).
Proof. unfold payload. cbn. by rewrite append_nil. Qed.

Lemma payload_inj m k e m' k' e' :
  lacks "|" m -> lacks "|" m' -> payload m k e = payload m' k' e' -> m = m' /\ k = k' /\ e = e'.
Proof.
  intros Hm Hm' E. rewrite !Sprintf_payload in E.
  assert (E1 := f_equal (cut "|") E). rewrite !cut_app in E1 by (apply lacks_pretty; done).
  injection E1 as E1 E2. apply (inj pretty) in E1. assert (E3 := f_equal (cut "|") E2).
  rewrite !cut_app in E3 by done. by injection E3 as -> ->.
Qed.

(** * Escaping *)

Lemma unescape_plain c s : c <> percent -> PathUnescape (String c s) = String c <$> PathUnescape s.
Proof. intros H. cbn. destruct (Ascii.eqb_spec c percent); done. Qed.

Lemma unhex_upper n : 0 <= n < 16 -> unhex (upper_hex n) = Some n.
Proof.
  intros Hn. assert (Hall : forallb (fun d => bool_decide (unhex (upper_hex d) = Some d)) (seqZ 0 16) = true)
    by reflexivity.
  rewrite forallb_forall in Hall. apply (bool_decide_eq_true_1 _), Hall, list_elem_of_In, elem_of_seqZ. lia.
Qed.

Lemma unescape_escape s : PathUnescape (PathEscape s) = Some s.
Proof.
  induction s as [|c s IH]; [done|]. cbn [PathEscape]. destruct (path_safe c) eqn:Es.
  - rewrite unescape_plain, IH; [done|]. by intros ->.
  - cbn [PathUnescape]. change (Ascii.eqb percent percent) with true. cbv iota.
    pose proof (byte_range c) as Hc. pose proof (Z.mod_pos_bound (byte_of c) 16).
    rewrite (unhex_upper (byte_of c / 16)) by (split; [apply Z.div_pos|apply Z.div_lt_upper_bound]; lia).
    rewrite unhex_upper, IH by lia. cbn [fmap option_fmap option_map].
    rewrite <- (Z.div_mod (byte_of c) 16) by done. by rewrite char_of_byte.
Qed.

(** * Paths *)

Definition plain_part (part : string) : Prop := bad_part part = false /\ lacks "/" part.

Lemma Split_lacks c s : lacks c s -> Split c s = [s].
Proof.
  induction s as [|x s IH]; [done|]. intros [Hne Hs]%lacks_String. simpl.
  destruct (Ascii.eqb_spec x c); [done|]. by rewrite IH.
Qed.
Lemma Split_app c s r : lacks c s -> Split c (s +:+ String c r) = s :: Split c r.
Proof.
  induction s as [|x s IH]; intros Hs; [simpl; by rewrite Ascii.eqb_refl|].
  apply lacks_String in Hs as [Hne Hs]. change (String x s +:+ String c r) with (String x (s +:+ String c r)).
  simpl. destruct (Ascii.eqb_spec x c); [done|]. by rewrite IH.
Qed.
Lemma Split_parts c s : Forall (lacks c) (Split c s) /\ Split c s <> [].
Proof.
  induction s as [|x s [IH1 IH2]]; [split; [by repeat constructor|done]|]. simpl.
  destruct (Ascii.eqb_spec x c) as [->|Hne]; [split; [by constructor|done]|].
  destruct (Split c s) as [|p l]; [done|]. split; [|done]. apply Forall_cons in IH1 as [H1 H2].
  constructor; [by apply lacks_String|done].
Qed.
Lemma concat_Split s : String.concat "/" (Split "/"%char s) = s.
Proof.
  induction s as [|x s IH]; [done|]. simpl. pose proof (Split_parts "/"%char s) as [_ Hne].
  destruct (Ascii.eqb_spec x "/"%char) as [->|].
  - destruct (Split "/"%char s) as [|p l]; [done|].
    change (String.concat "/" ("" :: p :: l)) with ("" +:+ "/" +:+ String.concat "/" (p :: l)). by rewrite IH.
  - destruct (Split "/"%char s) as [|p l]; [done|]. rewrite <- IH. destruct l as [|q l]; [done|].
    reflexivity.
Qed.

(** A cleaned absolute path below the root of the file system. *)
Definition rooted (path : string) : Prop :=
  exists parts, parts <> [] /\ Forall plain_part parts /\ path = "/" +:+ String.concat "/" parts.

Lemma concat_snoc (l : list string) s : l <> [] -> String.concat "/" l +:+ "/" +:+ s = String.concat "/" (l ++ [s]).
Proof.
  intros Hl. induction l as [|p l IH]; [done|]. destruct l as [|q l]; [done|].
  change (String.concat "/" (p :: q :: l)) with (p +:+ "/" +:+ String.concat "/" (q :: l)).
  change (String.concat "/" ((p :: q :: l) ++ [s])) with (p +:+ "/" +:+ String.concat "/" ((q :: l) ++ [s])).
  rewrite <- IH by done. by rewrite !append_assoc.
Qed.

Lemma Split_rooted parts s :
  Forall (lacks "/") parts -> parts <> [] ->
  Split "/"%char (String.concat "/" parts +:+ "/" +:+ s) = parts ++ Split "/"%char s.
Proof.
  intros Hp Hne. induction Hp as [|p parts Hp Hps IH]; [done|]. destruct parts as [|q l].
  - simpl. apply (Split_app "/"%char p s Hp).
  - change (String.concat "/" (p :: q :: l)) with (p +:+ String "/" (String.concat "/" (q :: l))).
    rewrite append_assoc. change (String "/" (String.concat "/" (q :: l)) +:+ "/" +:+ s) with
      (String "/" (String.concat "/" (q :: l) +:+ "/" +:+ s)). rewrite (Split_app "/"%char p _ Hp). simpl. f_equal. by apply IH.
Qed.

Lemma clean_plain l acc : Forall (fun p => bad_part p = false) l -> foldl clean_step acc l = acc ++ l.
Proof.
  intros Hl. revert acc. induction Hl as [|p l Hp Hl IH]; intros acc; [by rewrite app_nil_r|]. simpl.
  unfold clean_step at 2. unfold bad_part in Hp. apply orb_false_iff in Hp as [Hp ->]. rewrite Hp, IH.
  by rewrite <- (assoc_L (++)).
Qed.

Lemma ValidateKey_parts key : ValidateKey key = None -> Forall (fun p => bad_part p = false) (Split "/"%char key).
Proof.
  unfold ValidateKey, splitPath. destruct (_ || _); [done|]. destruct (HasPrefix key "/"); [done|].
  destruct (existsb bad_part _) eqn:E; [done|]. intros _. apply Forall_forall. intros p Hp.
  destruct (bad_part p) eqn:Eb; [|done]. exfalso. apply not_true_iff_false in E. apply E, existsb_exists.
  exists p. split; [by apply list_elem_of_In|done].
Qed.

Lemma Join_rooted root key : rooted root -> ValidateKey key = None -> Join root key = root +:+ "/" +:+ key.
Proof.
  intros (parts & Hne & Hp & ->) Hk. unfold Join, Clean. rewrite append_assoc.
  change ("/" +:+ (String.concat "/" parts +:+ "/" +:+ key)) with ("" +:+ String "/" (String.concat "/" parts +:+ "/" +:+ key)).
  rewrite (Split_app "/"%char "") by done.
  assert (Hs : Forall (lacks "/") parts) by (eapply Forall_impl; [exact Hp|]; by intros p []).
  pose proof (concat_Split (String.concat "/" parts +:+ "/" +:+ key)) as Hc.
  rewrite Split_rooted in Hc |- * by done.
  change (foldl clean_step [] ("" :: parts ++ Split "/" key)) with (foldl clean_step [] (parts ++ Split "/" key)).
  rewrite clean_plain.
  - rewrite app_nil_l, Hc. done.
  - apply Forall_app. split; [eapply Forall_impl; [exact Hp|]; by intros p []|]. by apply ValidateKey_parts.
Qed.

Lemma HasPrefix_self p s : HasPrefix (p +:+ s) p = true.
Proof. unfold HasPrefix. induction p as [|c p IH]; simpl; [by destruct s|]. by destruct (Ascii.ascii_dec c c). Qed.

Lemma resolve_rooted l key :
  rooted (l_root l) -> ValidateKey key = None -> resolve l key = Ok (l_root l +:+ "/" +:+ key).
Proof.
  intros Hr Hk. unfold resolve. rewrite Hk, Join_rooted by done. rewrite <- append_assoc, HasPrefix_self. done.
Qed.

(** ** A signature is not empty *)

Lemma round_length s kw : length s = 8%nat -> length (Sha256.round s kw) = 8%nat.
Proof. intros H. do 9 (destruct s as [|? s]; try discriminate H). done. Qed.
Lemma rounds_length kws s : length s = 8%nat -> length (foldl Sha256.round s kws) = 8%nat.
Proof. revert s. induction kws as [|kw kws IH]; intros s Hs; [done|]. simpl. by apply IH, round_length. Qed.
Lemma blocks_length n s w : length s = 8%nat -> length (Sha256.blocks n s w) = 8%nat.
Proof.
  revert s w. induction n as [|n IH]; intros s w Hs; [done|]. simpl. apply IH. unfold Sha256.block.
  rewrite length_zip_with, rounds_length; lia.
Qed.
Lemma sign_nonempty l m k e : sign l m k e <> "".
Proof.
  unfold sign, HMAC_SHA256, Sha256.Sum256. set (w := Sha256.words _).
  pose proof (blocks_length (length w / 16) Sha256.init w eq_refl) as H.
  destruct (Sha256.blocks (length w / 16) Sha256.init w) as [|x b]; [done|]. simpl. done.
Qed.

(** * The route *)

Section Route.
Context {F : OSFiles} (l : Local_) (Hroot : rooted (l_root l)).

(** What a request that is let through does to the file of [key]. *)
Definition access (key : string) (rq : StorageRequest) : M FS Served :=
  let path := l_root l +:+ "/" +:+ key in
  if String.eqb (sr_Method rq) "GET" then download path
  else if String.eqb (sr_Method rq) "PUT" then upload path (sr_Body rq)
  else ret (Text StatusMethodNotAllowed "method not allowed").

(** The answers of a request that is not let through. *)
Definition refusal (r : Served) : Prop :=
  r = Text StatusBadRequest "invalid key" \/ r = Text StatusForbidden "invalid or expired signature".

(** The MAC tells the two payloads apart. *)
Definition no_collision (m k : string) (e : Z) (m' k' : string) (e' : Z) : Prop :=
  sign l m k e = sign l m' k' e' -> payload m k e = payload m' k' e'.

Lemma GinHandler_cases now rq fs :
  (refusal (GinHandler l now rq fs).1 /\ (GinHandler l now rq fs).2 = fs) \/
  (exists e, ValidateKey (request_key (sr_Param rq)) = None /\ Atoi (sr_exp rq) = Some e /\ unix_sec now <= e /\
    sr_sig rq = sign l (sr_Method rq) (request_key (sr_Param rq)) e /\
    GinHandler l now rq fs = access (request_key (sr_Param rq)) rq fs).
Proof.
  unfold GinHandler, refusal. set (key := request_key (sr_Param rq)).
  destruct (ValidateKey key) eqn:Hk; [left; split; [by left|done]|].
  destruct (verify l now (sr_Method rq) key (sr_exp rq) (sr_sig rq)) eqn:Hv; [|left; split; [by right|done]].
  right. unfold verify in Hv. destruct (Atoi (sr_exp rq)) as [e|]; [|done].
  destruct (Z.ltb_spec e (unix_sec now)); [done|]. destruct (empty_string (sr_sig rq)); [done|].
  apply String.eqb_eq in Hv. exists e. split_and!; try done. simpl. by rewrite resolve_rooted.
Qed.

Lemma GinHandler_granted now rq e fs :
  ValidateKey (request_key (sr_Param rq)) = None -> Atoi (sr_exp rq) = Some e ->
  sr_sig rq = sign l (sr_Method rq) (request_key (sr_Param rq)) e ->
  GinHandler l now rq fs =
    if e <? unix_sec now then (Text StatusForbidden "invalid or expired signature", fs)
    else access (request_key (sr_Param rq)) rq fs.
Proof.
  intros Hk He Hs. pose proof (sign_nonempty l (sr_Method rq) (request_key (sr_Param rq)) e) as Hne.
  unfold GinHandler, verify. rewrite Hk, He, Hs.
  destruct (e <? unix_sec now); [done|]. destruct (empty_string (sign _ _ _ _)) eqn:E;
    [by apply empty_string_zero in E|]. rewrite String.eqb_refl. simpl. by rewrite resolve_rooted.
Qed.

Lemma request_key_slash key : request_key ("/" +:+ key) = default key (PathUnescape key).
Proof.
  unfold request_key. change (TrimPrefix ("/" +:+ key) "/") with
    (if HasPrefix ("/" +:+ key) "/" then String.substring 1 (String.length ("/" +:+ key) - 1) ("/" +:+ key) else "/" +:+ key).
  rewrite HasPrefix_self. simpl. rewrite Nat.sub_0_r.
  assert (E : forall s, String.substring 0 (String.length s) s = s) by (induction s; simpl; congruence).
  by rewrite E.
Qed.

(** The request a client makes by following a signed URL: the router hands the
    decoded path over. *)
Definition follow (method key : string) (e : Z) (body : string) : StorageRequest :=
  mkStorageRequest method ("/" +:+ key) (pretty e) (sign l method key e) body.

Lemma follow_granted now method key e body fs :
  ValidateKey key = None -> in_range 64 e = true -> default key (PathUnescape key) = key ->
  GinHandler l now (follow method key e body) fs =
    if e <? unix_sec now then (Text StatusForbidden "invalid or expired signature", fs)
    else access key (follow method key e body) fs.
Proof.
  intros Hk He Hd. assert (Hrk : request_key (sr_Param (follow method key e body)) = key)
    by (simpl; by rewrite request_key_slash).
  rewrite (GinHandler_granted now _ e); rewrite ?Hrk; [done|done|by apply Atoi_pretty|done].
Qed.

Lemma follow_refused now method key e body fs :
  lacks "|" method -> default key (PathUnescape key) <> key -> in_range 64 e = true ->
  no_collision method key e method (default key (PathUnescape key)) e ->
  refusal (GinHandler l now (follow method key e body) fs).1 /\ (GinHandler l now (follow method key e body) fs).2 = fs.
Proof.
  intros Hm Hd He Hc. destruct (GinHandler_cases now (follow method key e body) fs) as [H|H]; [exact H|].
  exfalso. destruct H as (e' & _ & Ha & _ & Hs & _). simpl in *. rewrite Atoi_pretty in Ha by done.
  injection Ha as <-. rewrite request_key_slash in Hs. apply Hc in Hs.
  apply payload_inj in Hs as (_ & Hk & _); done.
Qed.

(** C31: The URL the disk backend mints for a method and a key opens exactly
    that file for that method until it expires, unless the key contains a
    percent escape: such a key is decoded twice and its URL is refused.
    Conversely a request that is not refused names a file under the root by a
    valid key, is in time and carries the signature of its method, key and
    expiry; when that signature was minted for another method, key or expiry,
    the MAC collides.  A refusal touches no file. *)
Theorem signed_urls_exact :
  (forall now0 method key expiry url now body fs, presign l now0 method key expiry = Ok url ->
     let e := expiry_of now0 expiry in
     url = l_publicBase l +:+ storageRoute +:+ PathEscape key +:+ "?method=" +:+ method +:+ "&exp=" +:+ pretty e
             +:+ "&sig=" +:+ sign l method key e /\
     PathUnescape (PathEscape key) = Some key /\
     (in_range 64 e = true ->
        (default key (PathUnescape key) = key ->
           GinHandler l now (follow method key e body) fs =
             if e <? unix_sec now then (Text StatusForbidden "invalid or expired signature", fs)
             else access key (follow method key e body) fs) /\
        (default key (PathUnescape key) <> key -> lacks "|" method ->
           no_collision method key e method (default key (PathUnescape key)) e ->
           refusal (GinHandler l now (follow method key e body) fs).1 /\
           (GinHandler l now (follow method key e body) fs).2 = fs))) /\
  (forall now rq fs, let key := request_key (sr_Param rq) in
     (refusal (GinHandler l now rq fs).1 /\ (GinHandler l now rq fs).2 = fs) \/
     exists e, ValidateKey key = None /\ Atoi (sr_exp rq) = Some e /\ unix_sec now <= e /\
       sr_sig rq = sign l (sr_Method rq) key e /\ GinHandler l now rq fs = access key rq fs /\
       forall m0 k0 e0, sr_sig rq = sign l m0 k0 e0 -> lacks "|" m0 -> lacks "|" (sr_Method rq) ->
         no_collision (sr_Method rq) key e m0 k0 e0 -> sr_Method rq = m0 /\ key = k0 /\ e = e0).
Proof.
  split.
  - intros now0 method key expiry url now body fs. unfold presign.
    destruct (ValidateKey key) eqn:Hk; [done|]. intros [= <-]. split_and!.
    + unfold signed_url. cbn. by rewrite append_nil.
    + apply unescape_escape.
    + intros He. split; intros Hd; [by apply follow_granted|]. intros. by apply follow_refused.
  - intros now rq fs. destruct (GinHandler_cases now rq fs) as [H|(e & Hk & Ha & He & Hs & Hg)]; [by left|right].
    exists e. split_and!; try done. intros m0 k0 e0 H0 Hm0 Hm Hc.
    rewrite Hs in H0. apply Hc in H0. by apply payload_inj in H0.
Qed.
End Route.

(** * On a small disk *)

(** Files as a map from paths to contents; directories are made at will. *)
#[local] Instance map_files : OSFiles := {|
  FS := gmap string string;
  os_IsNotExist := fun e => bool_decide (e = ELib "file does not exist");
  os_Remove := fun p fs => (if bool_decide (is_Some (fs !! p)) then None else Some (ELib "file does not exist"), delete p fs);
  os_Open := fun p fs => (match fs !! p with Some c => Ok c | None => Err (ELib "file does not exist") end, fs);
  os_Stat := fun p fs => (Ok tt, fs);
  os_MkdirAll := fun p fs => (Ok tt, fs);
  os_Write := fun p c fs => (Ok tt, <[p := c]> fs);
  os_Rename := fun p q fs => match fs !! p with
    | Some c => (Ok tt, <[q := c]> (delete p fs)) | None => (Err (ELib "file does not exist"), fs) end;
  os_WalkDir := fun root fs => (fun kv => WalkFile kv.1 (Ok (Z.of_nat (String.length kv.2)))) <$>
    filter (fun kv => HasPrefix kv.1 (root +:+ "/") = true) (map_to_list fs);
  os_files := fun fs => (map_to_list fs).*1;
|}.

Definition disk : Local_ := NewLocal "/data" "k3y" "http://hub/".
Definition disk_files : gmap string string := <["/data/c/7/app.tgz" := "bytes"]> ∅.

Lemma disk_rooted : rooted (l_root disk).
Proof.
  exists ["data"]. split; [done|]. split; [|done]. constructor; [by split|constructor].
Qed.

(** The URL opens the file in time, and not a second late; a key with an
    escape in it does not survive the round trip. *)
Lemma signed_urls_exact_witness :
  (GinHandler disk (1000 * Second) (follow disk "GET" "c/7/app.tgz" 1000 "") disk_files).1 = Content "app.tgz" "bytes" /\
  refusal (GinHandler disk (1001 * Second) (follow disk "GET" "c/7/app.tgz" 1000 "") disk_files).1 /\
  refusal (GinHandler disk (1000 * Second) (follow disk "GET" "c/50%25.tgz" 1000 "") disk_files).1.
Proof.
  destruct (signed_urls_exact disk disk_rooted) as [Hmint _]. split_and!.
  - destruct (Hmint (900 * Second) "GET" "c/7/app.tgz" (100 * Second) _ (1000 * Second) "" disk_files eq_refl)
      as (_ & _ & H). destruct (H eq_refl) as [Hg _].
    change (expiry_of (900 * Second) (100 * Second)) with 1000 in Hg. rewrite Hg by reflexivity. vm_compute. reflexivity.
  - destruct (Hmint (900 * Second) "GET" "c/7/app.tgz" (100 * Second) _ (1001 * Second) "" disk_files eq_refl)
      as (_ & _ & H). destruct (H eq_refl) as [Hg _].
    change (expiry_of (900 * Second) (100 * Second)) with 1000 in Hg. rewrite Hg by reflexivity. right. reflexivity.
  - destruct (Hmint (900 * Second) "GET" "c/50%25.tgz" (100 * Second) _ (1000 * Second) "" disk_files eq_refl)
      as (_ & _ & H). destruct (H eq_refl) as [_ Hr].
    change (expiry_of (900 * Second) (100 * Second)) with 1000 in Hr.
    refine (proj1 (Hr _ _ _)); [discriminate|reflexivity|]. intros E. exfalso. revert E. vm_compute. discriminate.
Defined.
