(* ===== verification/OrgProperties.v ===== *)
(** Organizations against Keycloak: what a refused creation does to the groups
    of another organization, and what an edit of a user does to the account
    ([internal/org], [internal/keycloak]). *)
From stdpp Require Import base list strings gmap.
From Stdlib Require Import ZArith Lia.
From S2P Require Import Prelude Common Gorm Json GoLib RunnerProto RunStore PipelineStore TargetStore.
From S2P Require Import EditStore OrgStore SiteStore PermStore RateLimit World Admin.
From S2P Require Import WorldLogic Frames AdminLogic LocalStorage Identity Instances.
From S2P Require Import CredentialProperties LocalStorageProperties.

Open Scope Z_scope.

(** * Accounts *)

(** The users a realm knows, and whether each may log in. *)
Class RealmUsers (H : HTTP) : Type := user_enabled : Realm -> string -> option bool.

(** A PUT of a user that is accepted sets the fields of its body and leaves
    the others. *)
Class RealmUsersLaws (H : HTTP) {U : RealmUsers H} (c : Client) : Prop := {
  put_user : forall id tok kvs r resp r',
    http_Do (mkHttpRequest "PUT" (AdminBaseURL c +:+ "/users/" +:+ PathEscape id) (Some tok) (JsonBody (JObj kvs))) r = (Ok resp, r') ->
    mapAdminStatus (hp_Status resp) = None ->
    user_enabled r' id = match get_key "enabled" kvs with Some (JBool b) => Some b | _ => user_enabled r id end;
}.

Section Accounts.
Context {H : HTTP} {U : RealmUsers H} (c : Client) {L : RealmUsersLaws H c}.

Lemma enabled_of_rep rep : exists kvs, enc_userRep rep = JObj kvs /\ get_key "enabled" kvs = Some (JBool (kr_Enabled rep)).
Proof.
  eexists. split; [reflexivity|]. destruct rep as [[|] [|] e [|] [|] [|]]; reflexivity.
Qed.

Lemma wp_put_user id rep s :
  wp (admin_write c "PUT" ("/users/" +:+ PathEscape id) (Some (enc_userRep rep))) (fun r s' =>
    r = Ok tt -> user_enabled (kc_realm s') id = Some (kr_Enabled rep)) s.
Proof.
  destruct (enabled_of_rep rep) as (kvs & Ek & He). unfold admin_write, adminDo, authorized, Do.
  apply wp_run. intros r s' E Hr. subst r. unfold try_bind, bind, ret, zoom in E.
  destruct (token c s) as [[tok|e] s1]; [|discriminate E]. rewrite Ek in E.
  destruct (http_Do _ (kc_realm s1)) as [[resp|e] r'] eqn:Ed; [|discriminate E]. simpl in E.
  unfold or_status in E. destruct (mapAdminStatus (hp_Status resp)) eqn:Em; [discriminate E|]. injection E as <-.
  change (user_enabled r' id = Some (kr_Enabled rep)).
  by rewrite (put_user id tok kvs _ resp r' Ed Em), He.
Qed.

(** An edit that does not mention the switch turns the account off: after
    a successful update of a user's e-mail alone, and after the required actions
    have been cleared at the end of a forced password change, the user can no
    longer log in. *)
Theorem account_edits_disable id email s :
  wp (UpdateUser c id (mkUserPatch None (Some email))) (fun r s' =>
    r = Ok tt -> user_enabled (kc_realm s') id = Some false) s /\
  wp (ClearRequiredActions c id) (fun r s' =>
    r = Ok tt -> user_enabled (kc_realm s') id = Some false) s /\
  (forall b, id <> "" -> wp (UpdateUser c id (mkUserPatch (Some b) None)) (fun r s' =>
    r = Ok tt -> user_enabled (kc_realm s') id = Some b) s).
Proof.
  split_and!.
  - unfold UpdateUser. destruct (empty_string id); [by apply wp_ret|]. apply (wp_put_user id).
  - apply (wp_put_user id).
  - intros b Hid. unfold UpdateUser. destruct (empty_string id); [by apply wp_ret|]. apply (wp_put_user id).
Qed.
End Accounts.

(** * A slug in use *)

Section Orgs.
Context {G : Gorm} {GL : GormLaws G} {P : Platform} {O : ObjectStore} {H : HTTP}.

(** A creation whose slug is taken, be it by a deleted organization, is
    refused and no row changes, but once the Keycloak side of the new
    organization has been set up its cleaning up runs against the slug: what it
    deletes are the groups of the organization that owns it. *)
Theorem taken_slug_cleans_up c o s :
  (exists x, x ∈ rows (a_orgs (OrgService.o_admin s)) /\ org_Slug x = org_Slug o) ->
  let '(ready, s1) := OrgService.provisioned (Some c) o s in
  wp (OrgService.Create (Some c) o) (fun r s' =>
    is_ok r = false /\ asame (OrgService.o_admin s) (OrgService.o_admin s') /\
    OrgService.o_kc s' = if is_ok ready : bool
      then (OrgService.cleanupOrgKeycloak c (org_Slug o) (OrgService.o_kc s1)).2
      else OrgService.o_kc s1) s.
Proof.
  intros (x & Hx & Hs).
  destruct (OrgService.provisioned (Some c) o s) as [ready s1] eqn:Ep.
  assert (Ha : OrgService.o_admin s1 = OrgService.o_admin s).
  { unfold OrgService.provisioned in Ep. destruct (empty_string _); [by injection Ep as <- <-|].
    unfold bind, zoom in Ep. destruct (OrgService.provisionOrgKeycloak _ _ _ _) as [r k]. by injection Ep as <- <-. }
  apply wp_try, wp_run. intros r0 s0 E0. rewrite Ep in E0. injection E0 as <- <-.
  destruct ready as [[]|e]; [|by rewrite Ha].
  apply wp_bind, (wp_zoom OrgService.o_admin), wp_on, wp_run. intros res t E. apply Create_spec in E as [Hh Hres].
  destruct res as [o'|e].
  - exfalso. destruct Hres as (_ & _ & Hc). rewrite Forall_forall in Hc. rewrite Ha in Hc. specialize (Hc x Hx).
    change (String.eqb (org_Slug x) (org_Slug o) = false) in Hc. by rewrite Hs, String.eqb_refl in Hc.
  - apply wp_bind. unfold OrgService.cleanup. apply (wp_zoom OrgService.o_kc), wp_run. intros [] k Ek.
    apply wp_ret. split; [done|]. split;
      [|by rewrite (Ek : OrgService.cleanupOrgKeycloak c (org_Slug o) (OrgService.o_kc s1) = (tt, k))].
    rewrite <- Ha. apply (afield_same (proj := a_orgs)). split; [apply Hres|exact Hh].
Qed.
End Orgs.

(** * A small realm *)

Record demo_user := mkDemoUser { du_ID : string; du_Name : string; du_Enabled : bool; du_Attributes : Attributes }.
Record demo_realm := mkRealm { rm_groups : list Group; rm_users : list demo_user; rm_next : nat }.

Definition base : string := "https://kc/admin/realms/sdp".
Definition demo_client : Client := NewClient "https://kc/realms/sdp" "sdp-backend" "secret".

Definition ok_reply (body : RawJSON) : Result HttpResponse := Ok (mkHttpResponse StatusOK "" body).
Definition status_reply (status : Z) : Result HttpResponse := Ok (mkHttpResponse status "" RawEmpty).

Definition put_user_in (id : string) (kvs : list (string * json)) (u : demo_user) : demo_user :=
  if String.eqb (PathEscape (du_ID u)) id
  then mkDemoUser (du_ID u) (du_Name u)
         (match get_key "enabled" kvs with Some (JBool b) => b | _ => du_Enabled u end) (du_Attributes u)
  else u.

(** Token, group search and deletion, and the change of a user. *)
#[local] Instance demo_http : HTTP := {|
  Realm := demo_realm;
  http_Do := fun rq r =>
    let path := TrimPrefix (hr_URL rq) base in
    match hr_Method rq, hr_Body rq with
    | "POST", Form _ => (ok_reply (Marshal (mkTokenResp "token" 300)), r)
    | "GET", _ => if HasPrefix path "/groups?search=" then (ok_reply (Marshal (rm_groups r)), r) else (status_reply 404, r)
    | "DELETE", _ =>
        (status_reply 204, mkRealm (filter (fun g => "/groups/" +:+ PathEscape (gr_ID g) <> path) (rm_groups r))
           (rm_users r) (rm_next r))
    | "PUT", JsonBody (JObj kvs) =>
        if negb (existsb (fun u => String.eqb (PathEscape (du_ID u)) (TrimPrefix path "/users/")) (rm_users r))
        then (status_reply 404, r)
        else (status_reply 204, mkRealm (rm_groups r) (put_user_in (TrimPrefix path "/users/") kvs <$> rm_users r) (rm_next r))
    | _, _ => (status_reply 404, r)
    end;
|}.

(** The organization "acme" owns its two groups. *)
Definition acme_realm : demo_realm := mkRealm
  [mkGroup "g1" "acme" "/acme"; mkGroup "g2" "admins" "/acme/admins"; mkGroup "g3" "other" "/other"]
  [mkDemoUser "u1" "ana" true ∅] 4.

Definition acme_state : OrgService.State := OrgService.mkState demo_admin (mkKC (1000 * Second) acme_realm "" 0).

(** Somebody asks for a second "acme"; the groups of the first are gone. *)
Definition second_acme : Org := mkOrg uuid_Nil time_Zero time_Zero None "Acme again" "acme" RawEmpty RawEmpty.

Lemma taken_slug_cleans_up_witness :
  is_ok (OrgService.Create (Some demo_client) second_acme acme_state).1 = false /\
  gr_Path <$> rm_groups (kc_realm (OrgService.o_kc (OrgService.Create (Some demo_client) second_acme acme_state).2)) = ["/other"].
Proof.
  assert (H : exists x, x ∈ rows (a_orgs (OrgService.o_admin acme_state)) /\ org_Slug x = org_Slug second_acme)
    by (exists demo_org; split; [by left|reflexivity]).
  pose proof (taken_slug_cleans_up demo_client second_acme acme_state H) as (Hr & _ & Hk).
  split; [exact Hr|]. rewrite Hk. vm_compute. reflexivity.
Defined.

(** ** Its users *)

#[local] Instance demo_realm_users : RealmUsers demo_http := fun r id =>
  du_Enabled <$> find (fun u => String.eqb (du_ID u) id) (rm_users r).

Lemma PathEscape_eqb a b : String.eqb (PathEscape a) (PathEscape b) = String.eqb a b.
Proof.
  destruct (String.eqb_spec a b) as [->|Hne]; [apply String.eqb_refl|]. apply String.eqb_neq. intros E. apply Hne.
  assert (E' := f_equal PathUnescape E). rewrite !unescape_escape in E'. by injection E'.
Qed.

Lemma find_put id kvs l :
  existsb (fun u => String.eqb (PathEscape (du_ID u)) (PathEscape id)) l = true ->
  du_Enabled <$> find (fun u => String.eqb (du_ID u) id) (put_user_in (PathEscape id) kvs <$> l) =
    match get_key "enabled" kvs with
    | Some (JBool b) => Some b
    | _ => du_Enabled <$> find (fun u => String.eqb (du_ID u) id) l
    end.
Proof.
  induction l as [|u l IH]; [done|]. simpl. rewrite PathEscape_eqb. unfold put_user_in at 1. rewrite PathEscape_eqb.
  destruct (String.eqb (du_ID u) id) eqn:E; simpl; rewrite E; simpl; [|exact IH].
  intros _. unfold put_user_in. rewrite PathEscape_eqb, E. simpl. by destruct (get_key "enabled" kvs) as [[]|].
Qed.

#[local] Instance demo_realm_laws : RealmUsersLaws demo_http demo_client.
Proof.
  split. intros id tok kvs r resp r' E Hs.
  change (AdminBaseURL demo_client) with base in E. unfold http_Do, demo_http in E. cbn [hr_Method hr_URL hr_Body] in E.
  rewrite TrimPrefix_app in E. change ("/users/" +:+ PathEscape id) with ("/users/" +:+ PathEscape id) in E.
  rewrite TrimPrefix_app in E. destruct (existsb _ _) eqn:Ee; simpl in E; injection E as <- <-.
  - unfold user_enabled, demo_realm_users. simpl. by apply find_put.
  - discriminate Hs.
Qed.

(** Ana's new address locks her out. *)
Lemma account_edits_disable_witness :
  user_enabled acme_realm "u1" = Some true /\
  user_enabled (kc_realm (UpdateUser demo_client "u1" (mkUserPatch None (Some "ana@acme")) (OrgService.o_kc acme_state)).2) "u1"
    = Some false.
Proof.
  split; [reflexivity|].
  refine (proj1 (account_edits_disable demo_client "u1" "ana@acme" (OrgService.o_kc acme_state)) _).
  vm_compute. reflexivity.
Defined.
