(* ===== verification/SweepProperties.v ===== *)
(** What the background sweeps and the progress view guarantee, with
    evaluations on the concrete hub. *)
From stdpp Require Import base list strings gmap sorting.
From Stdlib Require Import ZArith Lia.
From S2P Require Import Prelude Common Gorm Json RunnerProto RunStore PipelineStore TargetStore.
From S2P Require Import World WorldLogic RunParams RunSpec RunDispatch RunTrigger RunControl.
From S2P Require Import RunSweeps Frames TriggerTheory ApprovalTheory SweepTheory.
From S2P Require Import ApprovalSweepTheory Instances ControlProperties.
Import DispatchJobRepository.

Open Scope Z_scope.

(** * Counting *)

Definition in_stage (name : string) (t : TaskRun) : bool := String.eqb (task_StageName t) name.
Definition settled (t : TaskRun) : bool :=
  bool_decide (task_Phase t ∈ [TaskRunSucceeded; TaskRunFailed; TaskRunSkipped]).
Definition has_phase (p : TaskRunPhase) (t : TaskRun) : bool := String.eqb (task_Phase t) p.

Definition count (p : TaskRun -> bool) (l : list TaskRun) : Z :=
  Z.of_nat (length (filter (fun t => p t = true) l)).

Lemma count_snoc p l t : count p (l ++ [t]) = count p l + (if p t then 1 else 0).
Proof.
  unfold count. rewrite filter_app, filter_cons, length_app. simpl. destruct (p t); simpl; lia.
Qed.

Lemma count_nonneg p l : 0 <= count p l.
Proof. unfold count. lia. Qed.

Lemma count_le p q l : (forall t, t ∈ l -> p t = true -> q t = true) -> count p l <= count q l.
Proof.
  induction l as [|t l IH] using rev_ind; intros H; [done|]. rewrite !count_snoc.
  specialize (IH ltac:(intros; apply H; [set_solver|done])). specialize (H t ltac:(set_solver)).
  destruct (p t); [rewrite H by done|destruct (q t)]; lia.
Qed.

Lemma count_all p l : count p l = 0 -> forall t, t ∈ l -> p t = false.
Proof.
  induction l as [|t l IH] using rev_ind; intros H x Hx; [by apply elem_of_nil in Hx|].
  rewrite count_snoc in H. pose proof (count_nonneg p l). destruct (p t) eqn:E; [lia|].
  apply elem_of_app in Hx as [Hx| ->%list_elem_of_singleton]; [apply IH; [lia|done]|done].
Qed.

(** The tally of the tasks of one stage. *)
Definition tally_of (name : string) (l : list TaskRun) : tally :=
  mkTally (count (fun t => in_stage name t && settled t) l)
          (count (fun t => in_stage name t && has_phase TaskRunFailed t) l)
          (count (fun t => in_stage name t && has_phase TaskRunRunning t) l)
          (count (in_stage name) l).

Lemma settled_iff t : settled t = String.eqb (task_Phase t) TaskRunSucceeded ||
  String.eqb (task_Phase t) TaskRunFailed || String.eqb (task_Phase t) TaskRunSkipped.
Proof.
  unfold settled. apply Bool.eq_true_iff_eq. rewrite bool_decide_eq_true, !orb_true_iff, !String.eqb_eq.
  set_unfold. tauto.
Qed.

Lemma tally_of_snoc name l t :
  tally_of name (l ++ [t]) =
  if in_stage name t then tally_task (task_Phase t) (tally_of name l) else tally_of name l.
Proof.
  unfold tally_of. rewrite !count_snoc. destruct (in_stage name t); simpl; [|by rewrite !Z.add_0_r].
  unfold tally_task, has_phase. rewrite settled_iff. simpl.
  destruct (_ || _ || _), (String.eqb (task_Phase t) TaskRunFailed), (String.eqb (task_Phase t) TaskRunRunning);
    rewrite ?Z.add_0_r; done.
Qed.

(** What the counting loop has after [l]: a tally for each stage name that
    occurs, and those names once each. *)
Record counted (l : list TaskRun) (acc : gmap string tally * list string) : Prop := mkCounted {
  cd_tally : forall name, acc.1 !! name =
    if bool_decide (name ∈ (task_StageName <$> l)) then Some (tally_of name l) else None;
  cd_names : NoDup acc.2 /\ forall name, name ∈ acc.2 <-> name ∈ (task_StageName <$> l);
}.

Lemma count_tasks_counted l : counted l (count_tasks l).
Proof.
  induction l as [|t l IH] using rev_ind.
  { split.
    - intros name. rewrite bool_decide_eq_false_2 by (rewrite fmap_nil; set_solver). exact (lookup_empty name).
    - split; [constructor|]. intros name. rewrite fmap_nil. done. }
  unfold count_tasks in *. rewrite foldl_app. simpl.
  destruct (foldl _ (∅, []) l) as [counts order]. destruct IH as [Ht [Hnd Hn]]. simpl in *.
  assert (Hold : forall name, tally_of name (l ++ [t]) =
    if decide (task_StageName t = name) then tally_task (task_Phase t) (tally_of name l) else tally_of name l).
  { intros name. rewrite tally_of_snoc. unfold in_stage. destruct (String.eqb_spec (task_StageName t) name);
      [by rewrite decide_True|by rewrite decide_False]. }
  assert (Hfresh : task_StageName t ∉ (task_StageName <$> l) -> tally_of (task_StageName t) l = mkTally 0 0 0 0).
  { intros Hno. unfold tally_of. assert (Hz : forall q, count (fun x => in_stage (task_StageName t) x && q x) l = 0).
    { intros q. unfold count. replace (filter _ l) with (@nil TaskRun); [done|]. symmetry.
      apply elem_of_nil_inv. intros x [[Hx%String.eqb_eq _]%andb_true_iff Hin]%list_elem_of_filter.
      apply Hno. rewrite <- Hx. apply list_elem_of_fmap. by exists x. }
    rewrite !Hz. pose proof (Hz (fun _ => true)) as Hz'. f_equal. rewrite <- Hz'. unfold count. do 2 f_equal.
    apply list_filter_iff. intros x. by rewrite andb_true_r. }
  pose proof (Ht (task_StageName t)) as Hc.
  destruct (counts !! task_StageName t) as [c|] eqn:Ec; case_bool_decide as Hin; try done.
  - injection Hc as ->. split; simpl.
    + intros name. rewrite Hold, fmap_app. destruct (decide (task_StageName t = name)) as [<-|Hne].
      * rewrite lookup_insert_eq. by rewrite bool_decide_eq_true_2 by set_solver.
      * rewrite lookup_insert_ne, Ht by done.
        by rewrite (bool_decide_ext (name ∈ (task_StageName <$> l)) (name ∈ (task_StageName <$> l) ++ [task_StageName t])) by set_solver.
    + split; [done|]. intros name. rewrite Hn, fmap_app. set_solver.
  - split; simpl.
    + intros name. rewrite Hold, fmap_app. destruct (decide (task_StageName t = name)) as [<-|Hne].
      * rewrite lookup_insert_eq, Hfresh by done. by rewrite bool_decide_eq_true_2 by set_solver.
      * rewrite lookup_insert_ne, Ht by done.
        by rewrite (bool_decide_ext (name ∈ (task_StageName <$> l)) (name ∈ (task_StageName <$> l) ++ [task_StageName t])) by set_solver.
    + split.
      * apply NoDup_app. split; [done|]. split; [|apply NoDup_singleton].
        intros x Hx ->%list_elem_of_singleton. by apply Hin, Hn.
      * intros name. rewrite elem_of_app, Hn, fmap_app, elem_of_app. done.
Qed.

(** * The rows *)

(** What a row says about the tasks. *)
Definition row_ok (l : list TaskRun) (r : StageProgressRow) : Prop :=
  spr_Total r = count (in_stage (spr_Name r)) l /\
  spr_Done r = count (fun t => in_stage (spr_Name r) t && settled t) l /\
  (spr_Status r = "failed" <-> exists t, t ∈ l /\ task_StageName t = spr_Name r /\ task_Phase t = TaskRunFailed) /\
  (spr_Status r = "succeeded" <-> 0 < spr_Total r /\
     forall t, t ∈ l -> task_StageName t = spr_Name r ->
       task_Phase t = TaskRunSucceeded \/ task_Phase t = TaskRunSkipped).

Lemma count_eq_all p q l :
  (forall t, t ∈ l -> p t = true -> q t = true) -> count p l = count q l ->
  forall t, t ∈ l -> q t = true -> p t = true.
Proof.
  induction l as [|t l IH] using rev_ind; intros Hpq H x Hx Hq; [by apply elem_of_nil in Hx|].
  rewrite !count_snoc in H.
  assert (Hle : count p l <= count q l) by (apply count_le; intros; apply Hpq; [set_solver|done]).
  pose proof (Hpq t ltac:(set_solver)) as Ht.
  apply elem_of_app in Hx as [Hx| ->%list_elem_of_singleton].
  - apply IH; [intros; apply Hpq; [set_solver|done]| |done|done].
    destruct (p t); [rewrite Ht in H by done|destruct (q t)]; lia.
  - destruct (p t); [done|]. rewrite Hq in H. lia.
Qed.

Lemma count_pos p l : 0 < count p l <-> exists t, t ∈ l /\ p t = true.
Proof.
  split.
  - intros H. destruct (filter (fun t => p t = true) l) as [|t ts] eqn:E.
    + unfold count in H. rewrite E in H. simpl in H. lia.
    + exists t. assert (Hin : t ∈ filter (fun t => p t = true) l) by (rewrite E; left).
      apply list_elem_of_filter in Hin. tauto.
  - intros (t & Hin & Hp). pose proof (count_nonneg p l).
    destruct (decide (count p l = 0)) as [E|]; [|lia]. by rewrite (count_all p l E t Hin) in Hp.
Qed.

(** The tally a stage name shows, present or not. *)
Lemma counted_tally l acc name :
  counted l acc ->
  derive (acc.1 !! name) = derive (Some (tally_of name l)) /\
  match acc.1 !! name with Some c => c = tally_of name l | None => count (in_stage name) l = 0 end.
Proof.
  intros [Ht _]. rewrite Ht. case_bool_decide as Hin; [done|].
  assert (Hz : count (in_stage name) l = 0).
  { destruct (decide (count (in_stage name) l = 0)) as [|Hne]; [done|]. exfalso. apply Hin.
    pose proof (count_nonneg (in_stage name) l).
    destruct (proj1 (count_pos (in_stage name) l)) as (t & Hint & Hs%String.eqb_eq); [lia|].
    rewrite <- Hs. apply list_elem_of_fmap. by exists t. }
  split; [|done]. simpl. by rewrite Hz.
Qed.

Lemma derive_failed name l :
  derive (Some (tally_of name l)) = "failed" <->
  exists t, t ∈ l /\ task_StageName t = name /\ task_Phase t = TaskRunFailed.
Proof.
  set (f := fun t => in_stage name t && has_phase TaskRunFailed t).
  assert (Hf : 0 < count f l <-> exists t, t ∈ l /\ task_StageName t = name /\ task_Phase t = TaskRunFailed).
  { rewrite count_pos. unfold f, in_stage, has_phase. setoid_rewrite andb_true_iff.
    setoid_rewrite String.eqb_eq. done. }
  rewrite <- Hf. unfold derive. simpl. fold f.
  assert (Hle : count f l <= count (in_stage name) l)
    by (apply count_le; intros t _ [? _]%andb_true_iff; done).
  pose proof (count_nonneg f l).
  destruct (Z.eqb_spec (count (in_stage name) l) 0); [split; [done|lia]|].
  destruct (Z.ltb_spec 0 (count f l)); [done|].
  destruct (_ =? _); [split; [done|lia]|]. destruct (_ || _); split; (done || lia).
Qed.

(** A stage whose tally shows neither no task nor a failure. *)
Lemma derive_succeeded name l :
  derive (Some (tally_of name l)) = "succeeded" <->
  0 < count (in_stage name) l /\ forall t, t ∈ l -> task_StageName t = name ->
    task_Phase t = TaskRunSucceeded \/ task_Phase t = TaskRunSkipped.
Proof.
  set (total := count (in_stage name) l). set (f := count (fun t => in_stage name t && has_phase TaskRunFailed t) l).
  set (d := count (fun t => in_stage name t && settled t) l).
  assert (Hf : 0 < f <-> exists t, t ∈ l /\ task_StageName t = name /\ task_Phase t = TaskRunFailed).
  { unfold f. rewrite count_pos. unfold in_stage, has_phase. setoid_rewrite andb_true_iff.
    by setoid_rewrite String.eqb_eq. }
  assert (Hd : d = total <-> forall t, t ∈ l -> task_StageName t = name -> settled t = true).
  { split.
    - intros E t Hin Hs%String.eqb_eq. eapply (count_eq_all _ (in_stage name) l) in E; [|..|exact Hin|exact Hs].
      + by apply andb_true_iff in E as [_ ?].
      + by intros x _ [? _]%andb_true_iff.
    - intros Hall. apply Z.le_antisymm; apply count_le; intros t Hin.
      + by intros [? _]%andb_true_iff.
      + intros Hs. rewrite Hs. simpl. apply Hall; [done|]. by apply String.eqb_eq. }
  setoid_rewrite settled_iff in Hd. setoid_rewrite orb_true_iff in Hd. setoid_rewrite orb_true_iff in Hd.
  setoid_rewrite String.eqb_eq in Hd.
  assert (0 <= total) by apply count_nonneg. unfold derive. simpl. fold total f d.
  destruct (Z.eqb_spec total 0); [split; [done|lia]|].
  destruct (Z.ltb_spec 0 f) as [Hpos|Hzero].
  { apply Hf in Hpos as (t & Hin & Hs & Hp). split; [done|]. intros [_ Hall].
    destruct (Hall t Hin Hs) as [E|E]; rewrite Hp in E; discriminate. }
  destruct (Z.eqb_spec d total) as [E|E].
  - split; [|done]. intros _. split; [lia|]. intros t Hin Hs.
    destruct (proj1 Hd E t Hin Hs) as [[?|?]|?]; [by left| |by right]. exfalso.
    assert (0 < f) by (apply Hf; eauto). lia.
  - assert (Hno : ~ forall t, t ∈ l -> task_StageName t = name ->
      task_Phase t = TaskRunSucceeded \/ task_Phase t = TaskRunSkipped).
    { intros Hall. apply E, Hd. intros t Hin Hs. destruct (Hall t Hin Hs); auto. }
    destruct (_ || _); (split; [done|]); intros [_ ?]; done.
Qed.

(** Both kinds of row show the tally of their own name. *)
Lemma shown_row_ok l acc name row :
  counted l acc -> spr_Name row = name -> spr_Status row = derive (acc.1 !! name) ->
  spr_Done row = match acc.1 !! name with Some c => t_done c | None => 0 end ->
  spr_Total row = match acc.1 !! name with Some c => t_total c | None => 0 end ->
  row_ok l row.
Proof.
  intros Hacc <- Hst Hdone Htot. destruct (counted_tally l acc (spr_Name row) Hacc) as [Hd Hc].
  unfold row_ok. rewrite Hst, Hd, Hdone, Htot, derive_failed, derive_succeeded.
  destruct (acc.1 !! spr_Name row) as [c|].
  - subst c. done.
  - rewrite Hc. split_and!; try done. symmetry. apply Z.le_antisymm; [|apply count_nonneg].
    rewrite <- Hc. apply count_le. by intros t _ [? _]%andb_true_iff.
Qed.

Lemma progress_rows_ok stages tasks row : row ∈ progress_rows stages tasks -> row_ok tasks row.
Proof.
  pose proof (count_tasks_counted tasks) as Hacc. unfold progress_rows.
  destruct (count_tasks tasks) as [counts order] eqn:E.
  intros [(st & -> & _)%list_elem_of_fmap|(name & -> & _)%list_elem_of_fmap]%elem_of_app;
    by eapply (shown_row_ok _ _ _ _ Hacc).
Qed.

(** The names of the stages that were run but are no longer defined, in the
    order of their first task. *)
Definition drifted (stages : list PipelineStage) (tasks : list TaskRun) : list string :=
  filter (fun name => name ∉ st_Name <$> stages) (count_tasks tasks).2.

Lemma progress_rows_names stages tasks :
  spr_Name <$> progress_rows stages tasks = (st_Name <$> stages) ++ drifted stages tasks.
Proof.
  unfold progress_rows, drifted. destruct (count_tasks tasks) as [counts order].
  rewrite fmap_app, <- !list_fmap_compose. f_equal. apply list_fmap_id.
Qed.

Lemma drifted_names stages tasks :
  NoDup (drifted stages tasks) /\
  forall name, name ∈ drifted stages tasks <->
    name ∉ st_Name <$> stages /\ name ∈ task_StageName <$> tasks.
Proof.
  destruct (count_tasks_counted tasks) as [_ [Hnd Hn]]. split; [by apply NoDup_filter|].
  intros name. unfold drifted. by rewrite list_elem_of_filter, Hn.
Qed.

(** * No task is lost or counted twice *)

Definition sumZ (l : list Z) : Z := foldr Z.add 0 l.

Lemma sumZ_fmap_cons {A} (f : A -> Z) x l : sumZ (f <$> x :: l) = f x + sumZ (f <$> l).
Proof. done. Qed.

Lemma sumZ_indicator (names : list string) t :
  NoDup names -> task_StageName t ∈ names ->
  sumZ ((fun n => if in_stage n t then 1 else 0) <$> names) = 1.
Proof.
  assert (Hout : forall ns, task_StageName t ∉ ns -> sumZ ((fun n => if in_stage n t then 1 else 0) <$> ns) = 0).
  { induction ns as [|n ns IH]; [done|]. intros [Hne Hni]%not_elem_of_cons. rewrite sumZ_fmap_cons. unfold in_stage at 1.
    rewrite (proj2 (String.eqb_neq _ _) Hne). by apply IH. }
  induction 1 as [|n ns Hn _ IH]; intros Hin; [by apply elem_of_nil in Hin|].
  rewrite sumZ_fmap_cons. unfold in_stage at 1.
  destruct (String.eqb_spec (task_StageName t) n) as [Heq|Hne].
  - rewrite Hout by (by rewrite Heq). done.
  - apply elem_of_cons in Hin as [?|Hin]; [done|]. rewrite IH by done. done.
Qed.

Lemma sumZ_add {A} (f g : A -> Z) l : sumZ ((fun x => f x + g x) <$> l) = sumZ (f <$> l) + sumZ (g <$> l).
Proof. induction l as [|x l IH]; [done|]. rewrite !sumZ_fmap_cons. lia. Qed.

Lemma sum_counts (names : list string) (tasks : list TaskRun) :
  NoDup names -> (forall t, t ∈ tasks -> task_StageName t ∈ names) ->
  sumZ ((fun n => count (in_stage n) tasks) <$> names) = Z.of_nat (length tasks).
Proof.
  intros Hnd. induction tasks as [|t tasks IH] using rev_ind; intros Hin.
  - simpl. clear. induction names as [|n ns IH]; [done|]. exact IH.
  - rewrite length_app, Nat2Z.inj_add. change (Z.of_nat (length [t])) with 1.
    rewrite <- IH by (intros; apply Hin; set_solver).
    rewrite <- (sumZ_indicator names t Hnd (Hin t ltac:(set_solver))), <- sumZ_add.
    f_equal. apply list_fmap_ext. intros i n _. apply count_snoc.
Qed.

Lemma progress_rows_total stages tasks :
  NoDup (st_Name <$> stages) ->
  sumZ (spr_Total <$> progress_rows stages tasks) = Z.of_nat (length tasks).
Proof.
  intros Hnd. destruct (drifted_names stages tasks) as [Hdnd Hdn].
  rewrite <- (sum_counts ((st_Name <$> stages) ++ drifted stages tasks) tasks).
  - rewrite <- progress_rows_names, <- list_fmap_compose. f_equal. apply list_fmap_ext.
    intros i row Hrow%list_elem_of_lookup_2. by apply progress_rows_ok in Hrow as [? _].
  - apply NoDup_app. split; [done|]. split; [|done]. intros n Hn Hd%Hdn. tauto.
  - intros t Hin. rewrite elem_of_app, Hdn. destruct (decide (task_StageName t ∈ st_Name <$> stages)); [by left|].
    right. split; [done|]. apply list_elem_of_fmap. by exists t.
Qed.

Section Sweeps.
Context {G : Gorm} {GL : GormLaws G} {P : Platform} {D : Dispatcher} {DL : DispatcherLaws D}
  {X : MetaV1}.

(** * Run timeouts *)

Lemma rewrite_selected {R} `{Model R} {ML : ModelLaws R} (f : R -> R) (p : R -> bool) (l sel : list R) :
  sound_rows l -> (forall r, r ∈ sel <-> r ∈ l /\ p r = true) ->
  rewrite_rows f (pk <$> sel) l = (fun r => if p r then f r else r) <$> l.
Proof.
  intros Hs Hsel. apply list_fmap_ext. intros i r Hr%list_elem_of_lookup_2. simpl.
  case_bool_decide as Hx.
  - apply list_elem_of_fmap in Hx as (x & Hid & Hx). apply Hsel in Hx as [Hxl Hp].
    by rewrite (sound_key _ r x Hs Hr Hxl Hid), Hp.
  - destruct (p r) eqn:Hp; [|done]. exfalso. apply Hx. apply list_elem_of_fmap. exists r.
    split; [done|by apply Hsel].
Qed.

(** The run timeout sweep fails exactly the runs that are past their own
    timeout and not finished: each gets the phase Failed, the completion time
    of the sweep and the timeout message, every other run is left as it is,
    and the sweep answers their number.  Hooks may only add runs. *)
Theorem SweepRunTimeouts_outcome s now w :
  collaborators_keep runs_added s -> healthy (w_runs w) -> sound_rows (rows (w_runs w)) ->
  wp (SweepRunTimeouts s now) (fun r w' =>
    r = Ok (Z.of_nat (length (selected (PipelineRunRepository.timed_out now) (rows (w_runs w))))) /\
    exists added, rows (w_runs w') =
      ((fun run => if PipelineRunRepository.timed_out now run
                   then updated (w_now w) (timed_out_run run now) else run) <$> rows (w_runs w)) ++ added) w.
Proof.
  intros Hc Hh Hs. unfold SweepRunTimeouts. apply wp_try, (wp_zoom w_runs), wp_Find.
  2: { intros e t _ Hn. by destruct Hn. }
  intros l t [Et Hht] Hq. apply query_result_nolimit in Hq as [Hperm _]; [|done|done]. simpl in Hperm.
  assert (Hl : forall run, run ∈ l <-> run ∈ rows (w_runs w) /\ PipelineRunRepository.timed_out now run = true).
  { intros run. rewrite Hperm, elem_of_selected. tauto. }
  eapply wp_mono; [apply (timeout_loop s now w l 0 []); try done|].
  - intros run Hrun. by apply Hl.
  - simpl. rewrite Hperm. apply NoDup_fmap_2_strong.
    + intros x y Hx%elem_of_selected Hy%elem_of_selected E. apply (sound_key _ _ _ Hs); tauto.
    + apply NoDup_filter. pose proof (sr_keys _ Hs) as Hnd. by apply NoDup_fmap_1 in Hnd.
  - split; simpl; [done|by apply Hht|by rewrite Et|]. exists []. by rewrite Et, rewrite_rows_nil, app_nil_r.
  - simpl. intros r w' [-> [_ _ _ [ext E]]]. split; [by rewrite Hperm|]. exists ext. rewrite E. f_equal.
    exact (rewrite_selected (timed_out_row now (w_now w)) _ _ _ Hs Hl).
Qed.

(** * Promotion of queued runs *)

Definition queued_run (r : PipelineRun) : bool := String.eqb (run_Phase r) "PendingQueue".

(** The thousand oldest queued runs. *)
Definition is_queue (w : World) (queue : list PipelineRun) : Prop :=
  exists all, (all ≡ₚ selected queued_run (rows (w_runs w))) /\ Sorted (by_keys [run_CreatedAt]) all /\
    queue = take 1000 all.

(** The queue sweep gives each pipeline its free slots in the order its
    runs were created: of the thousand oldest queued runs it promotes, per
    pipeline, the first [limit - active] ones; a promoted run becomes Pending
    and its held jobs become pending, nothing is sent, no other run and no
    other job changes, and no pipeline ends up above the larger of its limit
    and the active runs it already had. *)
Theorem SweepQueued_outcome s w {PL : PlatformLaws P} :
  healthy (w_runs w) -> healthy (w_jobs w) -> sound_rows (rows (w_runs w)) ->
  wp (SweepQueued s) (fun r w' => r = Ok tt /\ w_link w' = w_link w /\
    (forall pid, active_runs pid w' <= Z.max (concurrencyLimit s) (active_runs pid w)) /\
    exists queue ids, is_queue w queue /\
      (forall run, run ∈ rows (w_runs w) ->
         run_ID run ∈ ids <-> run ∈ slots s w queue (run_PipelineID run)) /\
      rows (w_runs w') = rewrite_rows (promoted_row (w_now w)) ids (rows (w_runs w)) /\
      rows (w_jobs w') = update_rows (w_now w) (released_by ids) released (rows (w_jobs w))) w.
Proof.
  intros Hhr Hhj Hs. unfold SweepQueued. apply wp_try, (wp_zoom w_runs), wp_Find.
  2: { intros e t _ Hn. by destruct Hn. }
  intros queue t [Et Hht] (all & Hperm & Hsort & Hq). simpl in Hperm, Hsort, Hq.
  assert (HQ : is_queue w queue) by (exists all; split_and!; [exact Hperm|exact Hsort|exact Hq]).
  assert (Hin : forall run, run ∈ queue -> run ∈ rows (w_runs w) /\ run_Phase run = PipelineRunPendingQueue).
  { intros run Hrun. rewrite Hq in Hrun. apply elem_of_take in Hrun as (i & Hi & _).
    apply list_elem_of_lookup_2 in Hi. rewrite Hperm in Hi.
    apply elem_of_selected in Hi as (_ & Hp%String.eqb_eq & ?). done. }
  assert (Hndq : NoDup queue).
  { rewrite Hq. eapply sublist_NoDup; [|apply sublist_take]. rewrite Hperm. apply NoDup_filter.
    pose proof (sr_keys _ Hs) as Hnd. by apply NoDup_fmap_1 in Hnd. }
  set (pids := map_range (remove_dups (run_PipelineID <$> queue))).
  assert (Hpids : pids ≡ₚ remove_dups (run_PipelineID <$> queue)) by apply map_range_perm.
  apply wp_bind. eapply wp_mono; [apply (wp_sweep_all s w queue pids []); try done|].
  - intros run Hrun. by apply Hin.
  - simpl. rewrite Hpids. apply NoDup_remove_dups.
  - split; simpl; [done|by split; auto| | |done]; rewrite ?Et;
      [by rewrite rewrite_rows_nil|by rewrite update_released_nil].
  - intros [] w' Hw'. simpl in Hw'. apply wp_ret. pose proof Hw' as [_ _ Er Ej El].
    split; [done|]. split; [done|].
    split; [intros pid; by eapply promoting_bound|]. exists queue, (run_ID <$> all_slots s w queue pids).
    split_and!; [done| |done|done]. intros run Hrun. rewrite list_elem_of_fmap. split.
    + intros (r & Hid & Hr). apply all_slots_elem in Hr as (Hrq & _ & Hrs).
      by rewrite (sound_key _ run r Hs Hrun (proj1 (Hin r Hrq)) Hid).
    + intros Hr. exists run. split; [done|]. apply list_elem_of_bind. exists (run_PipelineID run).
      split; [done|]. rewrite Hpids, elem_of_remove_dups. apply list_elem_of_fmap. exists run.
      split; [done|]. by apply slots_elem in Hr as [? _].
Qed.

(** * Approval timeouts *)

(** The five hundred oldest pending approvals. *)
Definition pending_approval (a : PipelineApproval) : bool := String.eqb (appr_Status a) "Pending".
Definition is_scan (w : World) (scan : list PipelineApproval) : Prop :=
  exists all, (all ≡ₚ selected pending_approval (rows (w_approvals w))) /\
    Sorted (by_keys [appr_CreatedAt]) all /\ scan = take 500 all.

(** The approval timeout sweep tells the Runner to reject exactly the pending
    approvals, among the five hundred oldest, whose task template's timeout
    has run out: each attempt is overdue, each surely overdue approval is
    attempted, and in the order they were created; the approvals whose
    verdict the link took, and only those, are closed in the sweep's name and
    counted. *)
Theorem SweepApprovalTimeouts_outcome s now w :
  approvalRepo s = true -> healthy (w_approvals w) -> sweep_start w ->
  wp (SweepApprovalTimeouts s now) (fun r w' => exists scan atts, is_scan w scan /\
    let closed := (told atts (w_link w)).1 in
    sublist (at_approval <$> atts) scan /\
    Forall (fun a => overdue now w (at_approval a) (at_run a) (at_name a)) atts /\
    (forall pa run name, pa ∈ scan -> surely_overdue now w pa run name -> pa ∈ at_approval <$> atts) /\
    r = Ok (Z.of_nat (length closed)) /\
    delivered (w_link w') = delivered (w_link w) ++ (timeout_verdict <$> closed) /\
    rows (w_approvals w') = rewrite_rows (fun pa => timed_out_approval pa now)
      (appr_ID ∘ at_approval <$> closed) (rows (w_approvals w)) /\
    sweep_tables w w') w.
Proof.
  intros Hrepo Hh Hstart. unfold SweepApprovalTimeouts. rewrite Hrepo. simpl.
  apply wp_try, (wp_zoom w_approvals), wp_Find; [|by intros e t _ Hn; destruct Hn].
  intros scan t Ht (all & Hperm & Hsort & Hscan). simpl in Hperm, Hsort.
  assert (Hin : forall pa, pa ∈ scan -> pa ∈ rows (w_approvals w)).
  { intros pa Hpa. rewrite Hscan in Hpa. apply elem_of_take in Hpa as (i & Hi & _).
    apply list_elem_of_lookup_2 in Hi. rewrite Hperm in Hi. by apply elem_of_selected in Hi as (_ & _ & ?). }
  pose proof (sr_keys _ (ss_approvals _ Hstart)) as Hnd.
  assert (Hnds : NoDup (appr_ID <$> scan)).
  { apply NoDup_fmap_2_strong.
    - intros x y Hx Hy. apply (sound_key _ _ _ (ss_approvals _ Hstart)); auto.
    - rewrite Hscan. eapply sublist_NoDup; [|apply sublist_take]. rewrite Hperm.
      by apply NoDup_filter, (NoDup_fmap_1 appr_ID). }
  eapply wp_mono; [apply (closing_loop now w scan [] 0); [done|done|by simpl|]|].
  { split; simpl; [|by apply Ht|done|done| |constructor].
    - by split.
    - by rewrite rewrite_rows_nil, (proj1 Ht). }
  intros r w' (n & atts & -> & Hsub & Hall & [HT _ HL HC HR HD]). exists scan, atts.
  split; [by exists all|]. split_and!; [done|done| |by rewrite HC| |done|done].
  - intros pa run name Hpa Hsure. by destruct (Hall pa Hpa) as [|[]%(fun H => H run name)].
  - simpl in HL. by rewrite HL, told_delivered.
Qed.

(** * The stage progress view *)

(** The stage progress view shows one row per stage of the pipeline, then one
    per stage the run still has tasks of; a row is failed when one of its tasks
    failed, succeeded when it has tasks and all of them succeeded or were
    skipped, and its counters are those of its tasks; over distinct stage names
    the totals add up to the run's tasks, so none is lost or counted twice.
    Nothing changes. *)
Theorem StageProgress_outcome runID w :
  wp (StageProgress runID) (fun r w' => same w w' /\ forall run rows', r = Ok (run, rows') ->
    exists tasks stages,
      (tasks ≡ₚ selected (fun t => task_PipelineRunID t =? runID) (rows (w_tasks w))) /\
      (stages ≡ₚ stages_of (run_PipelineID run) w) /\ Sorted (by_keys [st_Sequence]) stages /\
      (spr_Name <$> rows' = (st_Name <$> stages) ++ drifted stages tasks) /\
      (forall name, name ∈ drifted stages tasks <->
         name ∉ st_Name <$> stages /\ name ∈ task_StageName <$> tasks) /\
      Forall (row_ok tasks) rows' /\
      (NoDup (st_Name <$> stages) ->
         sumZ (spr_Total <$> rows') = Z.of_nat (length tasks))) w.
Proof.
  apply wp_quiet_and; [unfold StageProgress; quiet|].
  unfold StageProgress. apply wp_try, (wp_zoom w_runs), wp_First; [|by intros].
  intros run t1 _ _ _ _. apply wp_try, (wp_zoom w_tasks), wp_Find; [|by intros].
  intros tasks t2 _ Hq2. apply query_result_nolimit in Hq2 as [Htasks _]; [|done|done].
  apply wp_try, (wp_zoom w_stages), wp_Find; [|by intros].
  intros stages t3 _ Hq3. apply query_result_nolimit in Hq3 as [Hstages Hsort]; [|done|done].
  apply wp_ret. intros run' rows' [= <- <-]. exists tasks, stages.
  split_and!; [done|done|done|apply progress_rows_names|apply drifted_names| |apply progress_rows_total].
  apply Forall_forall. apply progress_rows_ok.
Qed.
End Sweeps.

(** * The concrete hub *)

(** Run 54 started long ago, run 55 has just started, runs 56 and 57 wait. *)
Definition started (at_ : Time) (r : PipelineRun) : PipelineRun := r <| run_StartTime := Some at_ |>.
Definition sweep_hub : World :=
  demo <| w_runs := table [started (100 * Second) (demo_run 54 PipelineRunRunning);
                           started (990 * Second) (demo_run 55 PipelineRunRunning);
                           demo_run 56 PipelineRunPendingQueue; demo_run 57 PipelineRunPendingQueue] |>
       <| w_jobs := table [demo_job 76 56 DispatchJobHeld 0; demo_job 77 57 DispatchJobHeld 0] |>.

Lemma sweep_sound : sound_rows (rows (w_runs sweep_hub)).
Proof. apply sound_by_compute; vm_compute; reflexivity. Qed.

(** Only run 54 is failed. *)
Lemma SweepRunTimeouts_outcome_witness :
  (SweepRunTimeouts demo_service (955 * Second) sweep_hub).1 = Ok 1 /\
  run_Phase <$> rows (w_runs (SweepRunTimeouts demo_service (955 * Second) sweep_hub).2) =
    [PipelineRunFailed; PipelineRunRunning; PipelineRunPendingQueue; PipelineRunPendingQueue].
Proof.
  destruct (SweepRunTimeouts_outcome (D := hub_dispatcher) demo_service (955 * Second) sweep_hub)
    as [H _].
  - apply demo_keeps, _.
  - constructor.
  - exact sweep_sound.
  - split; [|vm_compute; reflexivity]. refine (eq_trans H _). vm_compute. reflexivity.
Defined.

(** A limit of three active runs leaves one slot. *)
Definition narrow_service : PipelineRunService := demo_service <| runConcurrencyLimit := 3 |>.

Lemma SweepQueued_outcome_witness :
  (SweepQueued narrow_service sweep_hub).1 = Ok tt /\
  run_Phase <$> rows (w_runs (SweepQueued narrow_service sweep_hub).2) =
    [PipelineRunRunning; PipelineRunRunning; PipelineRunPending; PipelineRunPendingQueue] /\
  job_State <$> rows (w_jobs (SweepQueued narrow_service sweep_hub).2) =
    [DispatchJobPending; DispatchJobHeld].
Proof.
  destruct (SweepQueued_outcome (D := hub_dispatcher) narrow_service sweep_hub) as [H _].
  - constructor.
  - constructor.
  - exact sweep_sound.
  - split; [exact H|]. split; vm_compute; reflexivity.
Defined.

(** The gate's template gives a decision ten seconds. *)
Definition gate_template : PipelineTaskTemplate :=
  (demo_template 42 21 "gate" TaskTypeApproval 1 "")
    <| tpl_ApprovalConfig := RawDoc (JObj [("timeoutSeconds", JNum 10)]) |>.
Definition gate_hub : World := control_hub <| w_templates := table [gate_template] |>.

Lemma gate_start : sweep_start gate_hub.
Proof. split; [by repeat split; constructor|apply control_sound..]. Qed.

Lemma gate_overdue :
  surely_overdue (1000 * Second) gate_hub (demo_approval 80 50 60 "Pending")
    (demo_run 50 PipelineRunWaitingApproval) "gate".
Proof.
  assert (Hx : expires (1000 * Second) (demo_approval 80 50 60 "Pending") gate_template).
  { split; [reflexivity|]. eexists. split; [vm_compute; reflexivity|vm_compute; reflexivity]. }
  split.
  - split; [split|].
    + split; [left|reflexivity].
    + exists (demo_task 60 50 "gate" "deploy" TaskTypeApproval TaskRunRunning). by split_and!; [left|..].
    + discriminate.
    + exists gate_template. split; [|exact Hx].
      exists (mkPipelineStage 21 5 5 None 10 "deploy" 2 ExecutionModeParallel). split; [right; left|].
      split; [reflexivity|]. left.
  - intros tpl (st & _ & _ & Ht). apply elem_of_selected in Ht as (_ & _ & Ht).
    apply list_elem_of_singleton in Ht as ->. exact Hx.
Qed.

(** Run 50's gate is rejected in the sweep's name. *)
Lemma SweepApprovalTimeouts_outcome_witness :
  (SweepApprovalTimeouts demo_service (1000 * Second) gate_hub).1 = Ok 1 /\
  exists scan (atts : list attempt), is_scan gate_hub scan /\
    (demo_approval 80 50 60 "Pending" ∈ scan -> demo_approval 80 50 60 "Pending" ∈ at_approval <$> atts).
Proof.
  split; [vm_compute; reflexivity|].
  destruct (SweepApprovalTimeouts_outcome (D := hub_dispatcher) demo_service (1000 * Second) gate_hub)
    as (scan & atts & Hscan & _ & _ & Hall & _).
  - reflexivity.
  - constructor.
  - exact gate_start.
  - exists scan, atts. split; [exact Hscan|]. intros Hin. exact (Hall _ _ _ Hin gate_overdue).
Defined.

(** Run 50 with a task in each of the two stages and one in a stage since
    renamed. *)
Definition progress_hub : World :=
  control_hub <| w_tasks := table [demo_task 60 50 "compile" "build" TaskTypeBuild TaskRunSucceeded;
                                   demo_task 61 50 "ship" "deploy" TaskTypeBuild TaskRunFailed;
                                   demo_task 62 50 "old" "legacy" TaskTypeBuild TaskRunSucceeded] |>.
Definition progress_view : list StageProgressRow :=
  [mkStageProgressRow "build" 1 ExecutionModeSerial "succeeded" 1 1;
   mkStageProgressRow "deploy" 2 ExecutionModeParallel "failed" 1 1;
   mkStageProgressRow "legacy" 0 "" "succeeded" 1 1].

Lemma StageProgress_outcome_witness :
  exists run, (StageProgress 50 progress_hub).1 = Ok (run, progress_view) /\
    exists tasks, length tasks = 3%nat /\ Forall (row_ok tasks) progress_view.
Proof.
  destruct (StageProgress_outcome (D := hub_dispatcher) 50 progress_hub) as [_ H].
  assert (E : exists run, (StageProgress 50 progress_hub).1 = Ok (run, progress_view))
    by (eexists; vm_compute; reflexivity).
  destruct E as (run & E). exists run. split; [exact E|].
  destruct (H run progress_view E) as (tasks & stages & Htasks & _ & _ & _ & _ & Hrows & _).
  exists tasks. split; [|exact Hrows]. rewrite Htasks. vm_compute. reflexivity.
Defined.
