(* ===== verification/CronTheory.v ===== *)
(** Cron expressions: what the parser accepts, that the search for the next
    fire time ends with the least one, and what the scheduler guarantees.

    In a zone with a fixed offset of whole hours every jump of the search lands
    on the start of the next month, day or hour, and nothing between matched:
    [skips] is that invariant, [loop_result] of [GoLib] does the rest. *)
From Stdlib Require Import Ascii ZArith Lia.
From stdpp Require Import base list strings gmap sorting.
From S2P Require Import Prelude Common Gorm Json GoLib RunnerProto RunStore PipelineStore TargetStore.
From S2P Require Import EditStore World WorldLogic RunDispatch RunTrigger Frames Instances ApprovalTheory.
From S2P Require Import ControlProperties CronExpr PipelineTriggers.

Open Scope Z_scope.

(** * The range loop *)

(** The values [lo], [lo + step], ... up to [hi]. *)
Definition covers (lo hi step v : Z) : bool := (lo <=? v) && (v <=? hi) && ((v - lo) mod step =? 0).

Lemma bit_insert bits v i : 0 <= v < Z.of_nat (length bits) -> 0 <= i ->
  bit (<[Z.to_nat v := true]> bits) i = (i =? v) || bit bits i.
Proof.
  intros Hv Hi. unfold bit. destruct (Z.eqb_spec i v) as [->|Hne]; simpl.
  - rewrite list_lookup_insert_eq by lia. done.
  - rewrite list_lookup_insert_ne; [done|]. intros E. apply Hne. lia.
Qed.

Record filling (lo hi step : Z) (bits0 : list bool) (st : list bool * Z) : Prop := mkFilling {
  fl_size : length st.1 = length bits0;
  fl_pos : lo <= st.2 <= hi + step /\ (st.2 - lo) mod step = 0;
  fl_bits : forall i, 0 <= i -> bit st.1 i = bit bits0 i || (covers lo hi step i && (i <? st.2));
}.

Lemma filling_step lo hi step bits0 st :
  0 <= lo -> lo <= hi < Z.of_nat (length bits0) -> 1 <= step -> hi + step < 2 ^ 63 ->
  filling lo hi step bits0 st ->
  match set_step hi step st with
  | inl st' => filling lo hi step bits0 st' /\ 0 <= Z.max 0 (hi + 1 - st'.2) < Z.max 0 (hi + 1 - st.2)
  | inr r => exists bits, r = Returns bits /\ length bits = length bits0 /\
      forall i, 0 <= i -> bit bits i = bit bits0 i || covers lo hi step i
  end.
Proof.
  intros Hlo Hhi Hst Hov [Hlen [Hv Hmod] Hb]. destruct st as [bits v]. simpl in *.
  destruct (Z.leb_spec v hi) as [Hle|Hgt].
  - rewrite (proj2 (Z.ltb_ge v 0)), (proj2 (Z.leb_gt (Z.of_nat (length bits)) v)) by lia. simpl.
    rewrite wrap64_id by lia. split; [|simpl; lia]. split; simpl; [by rewrite length_insert| |].
    + split; [lia|]. replace (v + step - lo) with (v - lo + 1 * step) by lia. by rewrite Z.mod_add by lia.
    + intros i Hi. rewrite bit_insert, Hb by lia. unfold covers.
      destruct (Z.eqb_spec i v) as [->|Hne]; simpl.
      * rewrite Hmod. rewrite (proj2 (Z.leb_le lo v)), (proj2 (Z.leb_le v hi)), (proj2 (Z.ltb_lt v (v + step))) by lia.
        by rewrite orb_true_r.
      * f_equal. destruct (Z.leb_spec lo i), (Z.leb_spec i hi); simpl; try done.
        destruct (Z.eqb_spec ((i - lo) mod step) 0) as [E|]; [|done]. simpl.
        destruct (Z.ltb_spec i v), (Z.ltb_spec i (v + step)); try done; try lia.
        exfalso. assert (Hiv : (i - v) mod step = 0).
        { replace (i - v) with ((i - lo) - (v - lo)) by lia. rewrite Zminus_mod, E, Hmod. by rewrite Z.mod_0_l by lia. }
        rewrite Z.mod_small in Hiv by lia. lia.
  - exists bits. split_and!; [done|done|]. intros i Hi. rewrite Hb by done. f_equal. unfold covers.
    destruct (Z.leb_spec i hi); simpl; rewrite ?andb_false_r; [|done].
    rewrite (proj2 (Z.ltb_lt i v)) by lia. by rewrite andb_true_r.
Qed.

Lemma set_range_spec bits lo hi step :
  0 <= lo -> lo <= hi < Z.of_nat (length bits) -> Z.of_nat (length bits) <= 100 -> 1 <= step -> hi + step < 2 ^ 63 ->
  exists bits', set_range bits lo hi step = Returns bits' /\ length bits' = length bits /\
    forall i, 0 <= i -> bit bits' i = bit bits i || covers lo hi step i.
Proof.
  intros Hlo Hhi Hsize Hst Hov. unfold set_range.
  destruct (loop_result (filling lo hi step bits) (fun st => Z.max 0 (hi + 1 - st.2))
      (fun r => exists bits', r = Returns bits' /\ length bits' = length bits /\
         forall i, 0 <= i -> bit bits' i = bit bits i || covers lo hi step i) (set_step hi step) 128 (bits, lo))
      as (r & -> & (bits' & -> & ?)).
  - intros st Hf. by apply filling_step.
  - split; simpl; [done|split; [lia|]|].
    + by rewrite Z.sub_diag, Z.mod_0_l by lia.
    + intros i Hi. unfold covers. destruct (Z.leb_spec lo i); simpl; [|by rewrite orb_false_r].
      rewrite (proj2 (Z.ltb_ge i lo)) by lia. by rewrite andb_false_r, orb_false_r.
  - simpl. lia.
  - by exists bits'.
Qed.

(** * Fields *)

Definition item_covers (min max v : Z) (part : string) : bool :=
  match item_of part min max with Ok (lo, hi, step) => covers lo hi step v | Err _ => false end.

Definition field_ok (field : string) (min max : Z) : bool :=
  forallb (fun part => is_ok (item_of part min max)) (Split ","%char field).
(** Some item of the field covers [v]. *)
Definition field_has (field : string) (min max v : Z) : bool :=
  existsb (item_covers min max v) (Split ","%char field).

(** The counter of the range loop does not wrap around. *)
Definition no_wrap (min max : Z) (part : string) : Prop :=
  forall lo hi step, item_of part min max = Ok (lo, hi, step) -> hi + step < 2 ^ 63.
Definition tame (field : string) (min max : Z) : Prop := Forall (no_wrap min max) (Split ","%char field).

Lemma item_of_range part min max lo hi step :
  item_of part min max = Ok (lo, hi, step) -> min <= lo <= hi /\ hi <= max /\ 1 <= step.
Proof.
  unfold item_of. destruct (empty_string part); [done|].
  destruct (item_step part) as [[base st]|] eqn:Es; [|done]. simpl.
  destruct (item_range base min max) as [[a b]|]; [|done]. simpl.
  destruct (Z.ltb_spec a min), (Z.ltb_spec max b), (Z.ltb_spec b a); simpl; try done. intros [= <- <- <-].
  split_and!; try lia. unfold item_step in Es. destruct (cut _ part) as [[x y]|]; [|naive_solver lia].
  destruct (Atoi y) as [n|]; [|done]. destruct (Z.ltb_spec n 1); [done|]. by injection Es as _ <-.
Qed.

Lemma fill_parts_spec min max parts bits :
  0 <= min -> max < Z.of_nat (length bits) <= 100 -> Forall (no_wrap min max) parts ->
  if forallb (fun part => is_ok (item_of part min max)) parts
  then exists bits', fill_parts bits parts min max = Returns (Ok bits') /\ length bits' = length bits /\
    forall i, 0 <= i -> bit bits' i = bit bits i || existsb (item_covers min max i) parts
  else exists e, fill_parts bits parts min max = Returns (Err e).
Proof.
  intros Hmin Hmax Hp. revert bits Hmax. induction Hp as [|part parts Hw _ IH]; intros bits Hmax; simpl.
  { exists bits. split_and!; [done..|]. intros i _. by rewrite orb_false_r. }
  destruct (item_of part min max) as [[[lo hi] step]|e] eqn:E; simpl; [|by exists e].
  pose proof (item_of_range _ _ _ _ _ _ E) as Hr. specialize (Hw _ _ _ E).
  destruct (set_range_spec bits lo hi step) as (b1 & -> & Hl & Hb1); [lia..|]. simpl.
  specialize (IH b1 ltac:(lia)). destruct (forallb _ parts); [|done].
  destruct IH as (b2 & -> & Hl2 & Hb2). exists b2. split_and!; [done|lia|].
  intros i Hi. rewrite Hb2, Hb1 by done. unfold item_covers at 2. by rewrite E, orb_assoc.
Qed.

Lemma bit_replicate n i : bit (replicate n false) i = false.
Proof.
  unfold bit. destruct (replicate n false !! Z.to_nat i) as [b|] eqn:E; [|done].
  apply lookup_replicate in E as [-> _]. done.
Qed.

(** The bit set of an accepted field. *)
Definition field_bits (field : string) (min max : Z) (bits : list bool) : Prop :=
  forall i, 0 <= i -> bit bits i = field_has field min max i.

Lemma parse_field_spec format size field min max k :
  0 <= min -> max < Z.of_nat size <= 100 -> tame field min max ->
  if field_ok field min max
  then exists bits, parse_field format size field min max k = k (String.eqb field "*") bits /\
    field_bits field min max bits
  else exists e, parse_field format size field min max k = Returns (Err e).
Proof.
  intros Hmin Hmax Ht. unfold parse_field, fill, field_ok.
  pose proof (fill_parts_spec min max (Split ","%char field) (replicate size false) Hmin) as H.
  rewrite length_replicate in H. specialize (H Hmax Ht). destruct (forallb _ _).
  - destruct H as (bits & -> & _ & Hb). exists bits. split; [done|]. intros i Hi. by rewrite Hb, bit_replicate.
  - destruct H as (e & ->). by eexists.
Qed.

(** The five fields of an expression, in the order of the text. *)
Definition expr_ok (f0 f1 f2 f3 f4 : string) : bool :=
  field_ok f2 1 31 && field_ok f4 0 6 && field_ok f0 0 59 && field_ok f1 0 23 && field_ok f3 1 12.

Record expr_of (expr f0 f1 f2 f3 f4 : string) (e : Expr) : Prop := mkExprOf {
  eo_raw : ex_raw e = expr;
  eo_minute : field_bits f0 0 59 (ex_minute e);
  eo_hour : field_bits f1 0 23 (ex_hour e);
  eo_dom : field_bits f2 1 31 (ex_dom e);
  eo_month : field_bits f3 1 12 (ex_month e);
  eo_dow : field_bits f4 0 6 (ex_dow e);
  eo_star : ex_domStar e = String.eqb f2 "*" /\ ex_dowStar e = String.eqb f4 "*";
}.

Ltac next_field f :=
  match goal with
  | |- context [parse_field ?fmt ?size f ?min ?max ?k] =>
      let H := fresh "H" in
      pose proof (parse_field_spec fmt size f min max k ltac:(lia) ltac:(lia) ltac:(assumption)) as H;
      destruct (field_ok f min max); [|simpl; rewrite ?andb_false_r; exact H];
      destruct H as (? & -> & ?); cbv beta
  end.

Lemma Parse_five expr f0 f1 f2 f3 f4 :
  StringsFields (TrimSpace expr) = [f0; f1; f2; f3; f4] ->
  tame f0 0 59 -> tame f1 0 23 -> tame f2 1 31 -> tame f3 1 12 -> tame f4 0 6 ->
  if expr_ok f0 f1 f2 f3 f4
  then exists e, Parse expr = Returns (Ok e) /\ expr_of expr f0 f1 f2 f3 f4 e
  else exists err, Parse expr = Returns (Err err).
Proof.
  intros E T0 T1 T2 T3 T4. unfold Parse, expr_ok. rewrite E.
  unfold minDom, maxDom, minDow, maxDow, minMinute, maxMinute, minHour, maxHour, minMonth, maxMonth.
  next_field f2. next_field f4. next_field f0. next_field f1. next_field f3.
  simpl. eexists. split; [reflexivity|]. by split.
Qed.

(** * The search *)

Definition matches (e : Expr) (loc : Location) (t : Time) : bool :=
  bit (ex_month e) (Month loc t) && dayMatches e loc t && bit (ex_hour e) (HourOf loc t) &&
  bit (ex_minute e) (MinuteOf loc t).

(** A search that comes back to where it was. *)
Lemma Next_stuck e loc after s :
  let t := Truncate after Minute + Minute in
  let step := next_step e loc (AddDate loc t 0 0 maxScanDays) in
  step t = inl s -> step s = inl s -> Next e loc after = Hangs.
Proof.
  intros t step H H'. unfold Next. fold t. fold step.
  by rewrite (loop_gets_stuck step next_fuel t s H H').
Qed.

Section FixedZone.
Context (hours : Z).
Let loc := fixed_zone (3600 * hours).

(** The instant a clock in the zone shows [s] seconds. *)
Definition at_local (s : Z) : Time := (s - 3600 * hours) * Second.

Lemma local_sec_at s : local_sec loc (at_local s) = s.
Proof. unfold local_sec, unix_sec, at_local, zone_offset. simpl. rewrite Z.div_mul by done. lia. Qed.

Lemma at_local_sec t : t mod Minute = 0 -> at_local (local_sec loc t) = t.
Proof.
  intros H. unfold at_local, local_sec, unix_sec, zone_offset, Minute, Second in *. simpl.
  Z.to_euclidean_division_equations. lia.
Qed.

Lemma at_local_aligned s : s mod 60 = 0 -> at_local s mod Minute = 0.
Proof. unfold at_local, Minute, Second. Z.to_euclidean_division_equations. lia. Qed.

Lemma local_sec_aligned t : t mod Minute = 0 -> local_sec loc t mod 60 = 0.
Proof. unfold local_sec, unix_sec, zone_offset, Minute, Second. simpl. Z.to_euclidean_division_equations. lia. Qed.

Lemma local_sec_mono t x : t <= x -> local_sec loc t <= local_sec loc x.
Proof. intros H. unfold local_sec, unix_sec, zone_offset. simpl. pose proof (Z.div_le_mono t x Second). unfold Second in *. lia. Qed.

Lemma local_sec_lt t s : t < at_local s -> local_sec loc t < s.
Proof. unfold at_local, local_sec, unix_sec, zone_offset, Second. simpl. Z.to_euclidean_division_equations. lia. Qed.

Lemma Date_fixed y m d h mi s ns :
  0 <= ns < Second ->
  Date y m d h mi s ns loc =
  at_local ((month_first (12 * y + (m - 1)) + (d - 1)) * 86400 + h * 3600 + mi * 60 + s) + ns.
Proof.
  intros Hns. unfold Date, at_local, zone_offset. simpl. rewrite Z.div_small, Z.mod_small by done.
  destruct (Z.eqb_spec (3600 * hours) 0) as [E|_]; [rewrite E; unfold Second; lia|].
  destruct (_ || _); unfold Second; lia.
Qed.

Lemma month_index t : 12 * Year loc t + (Month loc t - 1) = month_of (local_day loc t).
Proof. unfold Year, Month, civil_from_days. simpl. pose proof (Z.div_mod (month_of (local_day loc t)) 12). lia. Qed.

(** ** Where the jumps land *)

Lemma local_day_at d : local_day loc (at_local (d * 86400)) = d.
Proof. unfold local_day. by rewrite local_sec_at, Z.div_mul. Qed.

Lemma clock s : s mod 86400 / 3600 * 3600 + s mod 3600 / 60 * 60 + s mod 60 = s mod 86400.
Proof.
  rewrite <- (Z.mod_mod_divide s 86400 3600) by (by exists 24).
  rewrite <- (Z.mod_mod_divide s 86400 60) by (by exists 1440).
  rewrite <- (Z.mod_mod_divide (s mod 86400) 3600 60) by (by exists 60).
  pose proof (Z.div_mod (s mod 86400) 3600). pose proof (Z.div_mod (s mod 86400 mod 3600) 60). lia.
Qed.

Lemma AddDate_fixed t months days :
  t mod Second = 0 ->
  AddDate loc t 0 months days = at_local ((month_first (month_of (local_day loc t) + months) +
    (Day loc t + days - 1)) * 86400 + local_sec loc t mod 86400).
Proof.
  intros Hns. unfold AddDate. rewrite Date_fixed, Hns by (by rewrite Hns). rewrite Z.add_0_r. f_equal.
  replace (12 * (Year loc t + 0) + (Month loc t + months - 1))
    with (12 * Year loc t + (Month loc t - 1) + months) by lia.
  rewrite month_index. rewrite <- (clock (local_sec loc t)). unfold HourOf, MinuteOf, SecondOf. lia.
Qed.

Lemma at_local_second s : at_local s mod Second = 0.
Proof. unfold at_local. by apply Z.mod_mul. Qed.

Lemma skip_month t :
  AddDate loc (Date (Year loc t) (Month loc t) 1 0 0 0 0 loc) 0 1 0 =
  at_local (month_first (month_of (local_day loc t) + 1) * 86400).
Proof.
  rewrite Date_fixed, month_index by done. rewrite !Z.add_0_r.
  set (first := month_first (month_of (local_day loc t))).
  rewrite AddDate_fixed by apply at_local_second. rewrite local_day_at, local_sec_at, Z.mod_mul by done.
  unfold Day, civil_from_days, first. simpl. rewrite local_day_at, month_of_first.
  unfold day_of. rewrite month_of_first. f_equal. lia.
Qed.

Lemma skip_day t :
  AddDate loc (Date (Year loc t) (Month loc t) (Day loc t) 0 0 0 0 loc) 0 0 1 =
  at_local ((local_day loc t + 1) * 86400).
Proof.
  rewrite Date_fixed, month_index by done. rewrite !Z.add_0_r.
  assert (E : month_first (month_of (local_day loc t)) + (Day loc t - 1) = local_day loc t)
    by (unfold Day, civil_from_days, day_of; simpl; lia).
  rewrite E, AddDate_fixed by apply at_local_second. rewrite local_day_at, local_sec_at, Z.mod_mul by done.
  unfold Day, civil_from_days. simpl. rewrite local_day_at. unfold day_of. f_equal. rewrite !Z.add_0_r. lia.
Qed.

Lemma skip_hour t :
  t mod Minute = 0 -> Truncate t Hour + Hour = at_local ((local_sec loc t / 3600 + 1) * 3600).
Proof.
  unfold Truncate, at_local, local_sec, unix_sec, zone_offset, Hour, Minute, Second. simpl.
  Z.to_euclidean_division_equations. lia.
Qed.

(** ** One round *)

(** Going from [t] to [t'] passes no match and stays on whole minutes. *)
Definition skips (e : Expr) (t t' : Time) : Prop :=
  t' mod Minute = 0 /\ t + Minute <= t' /\
  forall x, x mod Minute = 0 -> t <= x < t' -> matches e loc x = false.

Lemma skips_local e t s :
  t mod Minute = 0 -> s mod 60 = 0 -> local_sec loc t < s ->
  (forall x, local_sec loc t <= local_sec loc x < s -> matches e loc x = false) ->
  skips e t (at_local s).
Proof.
  intros Ht Hs Hlt Hno. split; [by apply at_local_aligned|]. split.
  - pose proof (local_sec_aligned t Ht) as Ha. rewrite <- (at_local_sec t Ht) at 1. unfold at_local, Minute.
    assert (local_sec loc t + 60 <= s) by (Z.to_euclidean_division_equations; lia). unfold Second. lia.
  - intros x _ [Hx1 Hx2]. apply Hno. split; [by apply local_sec_mono|by apply local_sec_lt].
Qed.

Lemma local_day_le t x : local_sec loc t <= local_sec loc x -> local_day loc t <= local_day loc x.
Proof. intros H. unfold local_day. apply Z.div_le_mono; lia. Qed.

Lemma local_day_lt x d : local_sec loc x < d * 86400 -> local_day loc x < d.
Proof. intros H. unfold local_day. apply Z.div_lt_upper_bound; lia. Qed.

Lemma next_step_skips e limit t :
  t mod Minute = 0 ->
  match next_step e loc limit t with
  | inl t' => t < limit /\ skips e t t'
  | inr (Returns (Ok t')) => t' = t /\ t < limit /\ matches e loc t = true
  | inr (Returns (Err _)) => limit <= t
  | inr _ => False
  end.
Proof.
  intros Ht. unfold next_step. destruct (Z.ltb_spec t limit) as [Hlim|Hlim]; simpl; [|done].
  pose proof (Z.mul_div_le (local_sec loc t) 86400 ltac:(lia)) as Hday.
  destruct (bit (ex_month e) (Month loc t)) eqn:Em; simpl.
  2: { split; [done|]. rewrite skip_month. pose proof (month_of_spec (local_day loc t)) as Hm. apply skips_local; [done| | |].
    - rewrite <- (Z.mod_mod_divide _ 86400 60) by (by exists 1440). by rewrite Z.mod_mul.
    - pose proof (Z.mul_succ_div_gt (local_sec loc t) 86400 ltac:(lia)). unfold local_day in *. lia.
    - intros x [Hx1 Hx2%local_day_lt]. apply local_day_le in Hx1.
      assert (E : month_of (local_day loc x) = month_of (local_day loc t)) by (apply month_of_unique; lia).
      unfold matches. assert (Month loc x = Month loc t) as -> by (unfold Month, civil_from_days; simpl; by rewrite E).
      by rewrite Em. }
  destruct (dayMatches e loc t) eqn:Ed; simpl.
  2: { split; [done|]. rewrite skip_day. apply skips_local; [done| | |].
    - rewrite <- (Z.mod_mod_divide _ 86400 60) by (by exists 1440). by rewrite Z.mod_mul.
    - pose proof (Z.mul_succ_div_gt (local_sec loc t) 86400 ltac:(lia)). unfold local_day in *. lia.
    - intros x [Hx1 Hx2%local_day_lt]. apply local_day_le in Hx1.
      assert (E : local_day loc x = local_day loc t) by lia.
      unfold matches. assert (dayMatches e loc x = dayMatches e loc t) as ->
        by (unfold dayMatches, Day, Weekday; by rewrite E).
      by rewrite Ed, andb_false_r. }
  destruct (bit (ex_hour e) (HourOf loc t)) eqn:Eh; simpl.
  2: { split; [done|]. rewrite skip_hour by done. apply skips_local; [done| | |].
    - rewrite <- (Z.mod_mod_divide _ 3600 60) by (by exists 60). by rewrite Z.mod_mul.
    - pose proof (Z.mul_succ_div_gt (local_sec loc t) 3600 ltac:(lia)). lia.
    - intros x Hx. unfold matches. assert (HourOf loc x = HourOf loc t) as ->.
      { unfold HourOf. revert Hx. generalize (local_sec loc x) (local_sec loc t). clear.
        intros a b H. Z.to_euclidean_division_equations. lia. }
      by rewrite Eh, !andb_false_r. }
  destruct (bit (ex_minute e) (MinuteOf loc t)) eqn:Emi; simpl.
  2: { split; [done|]. split; [|split; [lia|]].
    - rewrite <- Z.add_mod_idemp_l, Ht by done. done.
    - intros x Hx Hr. assert (x = t) as -> by (unfold Minute, Second in *; Z.to_euclidean_division_equations; lia).
      unfold matches. by rewrite Emi, andb_false_r. }
  split_and!; [done..|]. unfold matches. by rewrite Em, Ed, Eh, Emi.
Qed.

(** ** The search ends with the least match *)

Definition first_minute (after : Time) : Time := Truncate after Minute + Minute.

Lemma first_minute_spec after :
  first_minute after mod Minute = 0 /\ after < first_minute after /\
  forall x, x mod Minute = 0 -> after < x <-> first_minute after <= x.
Proof.
  unfold first_minute, Truncate, Minute, Second.
  split_and!; [|..|intros x Hx]; Z.to_euclidean_division_equations; lia.
Qed.

Lemma limit_fixed t days : t mod Minute = 0 -> AddDate loc t 0 0 days = t + days * 24 * Hour.
Proof.
  intros Ht. rewrite AddDate_fixed by (unfold Minute, Second in *; Z.to_euclidean_division_equations; lia).
  rewrite <- (at_local_sec t Ht) at 4. unfold Day, civil_from_days, day_of, local_day, at_local. simpl.
  rewrite !Z.add_0_r. pose proof (Z.div_mod (local_sec loc t) 86400 ltac:(lia)). unfold Hour, Minute, Second. lia.
Qed.

(** The result of a search from [first], looking before [limit]. *)
Definition found (e : Expr) (first limit : Time) (r : Result Time) : Prop :=
  match r with
  | Ok t => first <= t < limit /\ t mod Minute = 0 /\ matches e loc t = true /\
      forall x, x mod Minute = 0 -> first <= x < t -> matches e loc x = false
  | Err _ => forall x, x mod Minute = 0 -> first <= x < limit -> matches e loc x = false
  end.

Lemma search_found e first limit fuel :
  first mod Minute = 0 -> limit mod Minute = 0 -> limit - first < Zpos fuel * Minute ->
  exists r, run_loop (loop fuel (next_step e loc limit) first) = Returns r /\ found e first limit r.
Proof.
  intros Hf Hl Hfuel. assert (Hpos : 0 < Minute) by done.
  destruct (loop_result (fun t : Time => t mod Minute = 0 /\ first <= t /\
      forall x, x mod Minute = 0 -> first <= x < t -> matches e loc x = false)
    (fun t : Time => Z.max 0 ((limit - t) / Minute))
    (fun r => exists r', r = Returns r' /\ found e first limit r') (next_step e loc limit) fuel first)
    as (r & -> & r' & -> & Hr); [| | |by exists r'].
  - intros t (Ht & Hft & Hno). pose proof (next_step_skips e limit t Ht) as H.
    destruct (next_step e loc limit t) as [t'|[[t'|err]|m|]]; try done.
    + destruct H as (Hlt & Ht' & Hmin & Hskip). split.
      * split_and!; [done|lia|]. intros x Hx Hr. destruct (Z.lt_ge_cases x t); [apply Hno|apply Hskip]; (done || lia).
      * assert ((limit - t') / Minute <= (limit - t) / Minute - 1).
        { replace ((limit - t) / Minute - 1) with ((limit - t - 1 * Minute) / Minute)
            by (rewrite <- (Z.add_opp_r (limit - t)), <- Z.mul_opp_l, Z.div_add; [lia|done]).
          apply Z.div_le_mono; [done|lia]. }
        assert (1 <= (limit - t) / Minute) by (unfold Minute, Second in *; Z.to_euclidean_division_equations; lia).
        lia.
    + destruct H as (-> & Hlt & Hm). exists (Ok t). split; [done|]. by split_and!.
    + exists (Err err). split; [done|]. intros x Hx Hr. apply Hno; [done|lia].
  - split; [done|]. split; [lia|]. intros x _ Hr. lia.
  - assert ((limit - first) / Minute < Zpos fuel) by (apply Z.div_lt_upper_bound; [done|lia]). lia.
Qed.

Lemma Next_found e after : exists r, Next e loc after = Returns r /\
  found e (first_minute after) (first_minute after + maxScanDays * 24 * Hour) r.
Proof.
  destruct (first_minute_spec after) as (Hm & _ & _). unfold Next. fold (first_minute after).
  rewrite limit_fixed by done.
  destruct (search_found e (first_minute after) (first_minute after + maxScanDays * 24 * Hour) next_fuel)
    as (r & -> & Hr); [done| | |by exists r].
  - rewrite <- Z.add_mod_idemp_l, Hm by done. done.
  - unfold maxScanDays, next_fuel, Hour, Minute, Second. lia.
Qed.
End FixedZone.

(** * Guarantees of the parser, the search and the scheduler *)

(** * Expressions *)

(** An expression is accepted when it has five fields whose list items are
    all well-formed and in range, and refused with an error otherwise; the bit
    sets of an accepted one hold exactly the values some item of the field
    covers: those from its lower to its upper bound in steps. *)
Theorem Parse_fields expr f0 f1 f2 f3 f4 :
  StringsFields (TrimSpace expr) = [f0; f1; f2; f3; f4] ->
  tame f0 0 59 -> tame f1 0 23 -> tame f2 1 31 -> tame f3 1 12 -> tame f4 0 6 ->
  if expr_ok f0 f1 f2 f3 f4
  then exists e, Parse expr = Returns (Ok e) /\ expr_of expr f0 f1 f2 f3 f4 e
  else exists err, Parse expr = Returns (Err err).
Proof. apply Parse_five. Qed.

(** A step near the largest [int] wraps the loop's counter below zero: the
    parser panics instead of refusing or accepting the expression. *)
Lemma Parse_panics : Parse "1/9223372036854775807 * * * *" = Panics "index out of range".
Proof. vm_compute. reflexivity. Qed.

(** ** What an expression means

    Minute, hour and month are in their fields; so is one of the days, the day
    of the month or the day of the week, and both are when one of the two fields
    is a star. *)
Definition fires (f0 f1 f2 f3 f4 : string) (loc : Location) (x : Time) : Prop :=
  field_has f0 0 59 (MinuteOf loc x) = true /\ field_has f1 0 23 (HourOf loc x) = true /\
  field_has f3 1 12 (Month loc x) = true /\
  let dom := field_has f2 1 31 (Day loc x) = true in
  let dow := field_has f4 0 6 (Weekday loc x) = true in
  (dom \/ dow) /\ (f2 = "*" \/ f4 = "*" -> dom /\ dow).

Lemma star_has_day loc x : field_has "*" 1 31 (Day loc x) = true.
Proof.
  assert (H : 1 <= Day loc x <= 31) by apply day_of_range.
  change (covers 1 31 1 (Day loc x) || false = true). unfold covers. rewrite Z.mod_1_r, orb_false_r, !andb_true_iff. lia.
Qed.
Lemma star_has_weekday loc x : field_has "*" 0 6 (Weekday loc x) = true.
Proof.
  assert (H : 0 <= Weekday loc x <= 6) by (unfold Weekday; pose proof (Z.mod_pos_bound (local_day loc x + 4) 7); lia).
  change (covers 0 6 1 (Weekday loc x) || false = true). unfold covers. rewrite Z.mod_1_r, orb_false_r, !andb_true_iff. lia.
Qed.

Lemma matches_fires expr f0 f1 f2 f3 f4 e loc x :
  expr_of expr f0 f1 f2 f3 f4 e -> matches e loc x = true <-> fires f0 f1 f2 f3 f4 loc x.
Proof.
  intros [_ H0 H1 H2 H3 H4 [Hd Hw]]. unfold matches, fires, dayMatches. cbv zeta. rewrite Hd, Hw. clear Hd Hw.
  assert (HM : 0 <= MinuteOf loc x) by (unfold MinuteOf; apply Z.div_pos; [by apply Z.mod_pos_bound|done]).
  assert (HH : 0 <= HourOf loc x) by (unfold HourOf; apply Z.div_pos; [by apply Z.mod_pos_bound|done]).
  assert (Hmo : 0 <= Month loc x) by (unfold Month, civil_from_days; simpl; pose proof (Z.mod_pos_bound (month_of (local_day loc x)) 12); lia).
  assert (HD : 0 <= Day loc x) by (pose proof (day_of_range (local_day loc x)); unfold Day, civil_from_days; simpl; lia).
  assert (HW : 0 <= Weekday loc x) by (unfold Weekday; by apply Z.mod_pos_bound).
  rewrite H0, H1, H3, !H2, !H4, !andb_true_iff by done.
  assert (Hday : (if String.eqb f2 "*" && String.eqb f4 "*" then true
      else if String.eqb f2 "*" then field_has f4 0 6 (Weekday loc x)
      else if String.eqb f4 "*" then field_has f2 1 31 (Day loc x)
      else field_has f2 1 31 (Day loc x) || field_has f4 0 6 (Weekday loc x)) = true <->
    (field_has f2 1 31 (Day loc x) = true \/ field_has f4 0 6 (Weekday loc x) = true) /\
    (f2 = "*" \/ f4 = "*" -> field_has f2 1 31 (Day loc x) = true /\ field_has f4 0 6 (Weekday loc x) = true)).
  { pose proof (star_has_day loc x) as S2. pose proof (star_has_weekday loc x) as S4.
    destruct (String.eqb_spec f2 "*") as [->|N2], (String.eqb_spec f4 "*") as [->|N4]; simpl;
      rewrite ?S2, ?S4, ?orb_true_iff; tauto. }
  rewrite Hday. tauto.
Qed.

(** C37: In a zone of one offset, a whole number of hours, the search for the
    next fire time of an expression always ends, with the first minute after
    the given instant at which its fields say it fires, or with an error when
    there is none in the eight years after. *)
Theorem Next_least expr f0 f1 f2 f3 f4 e hours after :
  StringsFields (TrimSpace expr) = [f0; f1; f2; f3; f4] ->
  tame f0 0 59 -> tame f1 0 23 -> tame f2 1 31 -> tame f3 1 12 -> tame f4 0 6 ->
  Parse expr = Returns (Ok e) ->
  let loc := fixed_zone (3600 * hours) in
  exists r, Next e loc after = Returns r /\
    match r with
    | Ok t => after < t /\ t mod Minute = 0 /\ fires f0 f1 f2 f3 f4 loc t /\
        forall x, x mod Minute = 0 -> after < x < t -> ~ fires f0 f1 f2 f3 f4 loc x
    | Err _ => forall x, x mod Minute = 0 -> after < x ->
        x < first_minute after + maxScanDays * 24 * Hour -> ~ fires f0 f1 f2 f3 f4 loc x
    end.
Proof.
  intros Hf T0 T1 T2 T3 T4 Hp loc. pose proof (Parse_five _ _ _ _ _ _ Hf T0 T1 T2 T3 T4) as Hfive. rewrite Hp in Hfive.
  destruct (expr_ok f0 f1 f2 f3 f4); [|by destruct Hfive as (? & ?)]. destruct Hfive as (e' & [= <-] & He).
  assert (Hno : forall x, matches e loc x = false -> ~ fires f0 f1 f2 f3 f4 loc x)
    by (intros x Hx Hfi; apply (matches_fires _ _ _ _ _ _ _ _ _ He) in Hfi; congruence).
  destruct (Next_found hours e after) as (r & E & H). exists r. split; [exact E|].
  destruct (first_minute_spec after) as (_ & Hlt & Hiff). destruct r as [t|err].
  - destruct H as (Hr & Ht & Hm & Hmin). split_and!; [lia|done|by apply (matches_fires _ _ _ _ _ _ _ _ _ He)|].
    intros x Hx Hx'. apply Hno, Hmin; [done|]. split; [by apply Hiff; [|lia]|lia].
  - intros x Hx Hx1 Hx2. apply Hno, H; [done|]. split; [by apply Hiff; [|lia]|done].
Qed.

(** Half an hour off, the jump to the next full hour lands thirty minutes too
    late: from 10:45 on, 11:00 is passed over. *)
Definition half_past : Location := fixed_zone 19800.
Definition eleven : Expr := parsed "0,30 11 * * *".
Definition jan31_local (h m : Z) : Time := (19753 * 86400 + h * 3600 + m * 60 - 19800) * Second.
Lemma Next_half_hour_zone_late :
  Next eleven half_past (jan31_local 10 45) = Returns (Ok (jan31_local 11 30)) /\
  matches eleven half_past (jan31_local 11 0) = true.
Proof. vm_compute. split; reflexivity. Qed.

(** ** A search that never ends

    2024-09-08 in Santiago: at midnight the clocks go from UTC-4 to UTC-3, so
    the day has no 00:00 and [time.Date] answers 23:00 of the day before. *)
Definition santiago_dst : Z := 19974 * 86400 + 4 * 3600.
Definition santiago : Location := mkLocation (fun sec =>
  if sec <? santiago_dst then (-14400, - 2 ^ 63, santiago_dst) else (-10800, santiago_dst, 2 ^ 63 - 1)).

Definition stuck_at : Time := (santiago_dst - 3600) * Second.

(** The search need not end: where midnight is skipped by daylight saving
    time, moving on to the next day leads back to the same instant.  From
    2024-09-07 noon in Santiago, a schedule for the first of the month is
    searched for however many rounds are granted, although it has fire times. *)
Theorem Next_hangs fuel limit :
  stuck_at < limit ->
  run_loop (loop fuel (next_step (parsed "0 0 1 * *") santiago limit) stuck_at) = Hangs /\
  Next (parsed "0 0 1 * *") santiago (stuck_at - 11 * Hour) = Hangs /\
  matches (parsed "0 0 1 * *") santiago (stuck_at + 23 * 24 * Hour) = true.
Proof.
  intros Hl. split; [|split; [|vm_compute; reflexivity]].
  2: { apply (Next_stuck _ _ _ stuck_at); vm_compute; reflexivity. }
  rewrite loop_stuck; [done|]. unfold next_step. rewrite (proj2 (Z.ltb_lt _ _) Hl). vm_compute. reflexivity.
Qed.

Lemma Next_hangs_witness :
  run_loop (loop 1000000 (next_step (parsed "0 0 1 * *") santiago (stuck_at + 10000 * Hour)) stuck_at) = Hangs.
Proof. refine (proj1 (Next_hangs 1000000 (stuck_at + 10000 * Hour) _)). vm_compute. reflexivity. Defined.

Lemma tame_by_compute field min max :
  forallb (fun part => match item_of part min max with Ok (_, hi, step) => hi + step <? 2 ^ 63 | _ => true end)
    (Split ","%char field) = true -> tame field min max.
Proof.
  intros H. apply Forall_forall. intros part Hin%list_elem_of_In lo hi step E.
  rewrite forallb_forall in H. specialize (H part Hin). rewrite E in H. by apply Z.ltb_lt.
Qed.

(** The thirteenth and Fridays, at noon, an hour east of Greenwich: from
    Wednesday, 31 January 2024 on, the next is Friday, 2 February. *)
Lemma Next_least_witness :
  exists e, Parse "0 12 13 * 5" = Returns (Ok e) /\
    Next e (fixed_zone 3600) jan31 = Returns (Ok ((19755 * 86400 + 11 * 3600) * Second)) /\
    fires "0" "12" "13" "*" "5" (fixed_zone 3600) ((19755 * 86400 + 11 * 3600) * Second) /\
    ~ fires "0" "12" "13" "*" "5" (fixed_zone 3600) ((19754 * 86400 + 11 * 3600) * Second).
Proof.
  exists (parsed "0 12 13 * 5"). assert (Hp : Parse "0 12 13 * 5" = Returns (Ok (parsed "0 12 13 * 5"))) by (vm_compute; reflexivity).
  split; [exact Hp|].
  assert (En : Next (parsed "0 12 13 * 5") (fixed_zone 3600) jan31 = Returns (Ok ((19755 * 86400 + 11 * 3600) * Second)))
    by (vm_compute; reflexivity).
  split; [exact En|].
  destruct (Next_least "0 12 13 * 5" "0" "12" "13" "*" "5" (parsed "0 12 13 * 5") 1 jan31) as (r & E & H);
    [vm_compute; reflexivity|apply tame_by_compute; vm_compute; reflexivity..|exact Hp|].
  change (fixed_zone (3600 * 1)) with (fixed_zone 3600) in *. rewrite En in E. injection E as <-.
  destruct H as (_ & _ & Hf & Hmin). split; [exact Hf|]. apply Hmin; [vm_compute; reflexivity|].
  split; vm_compute; reflexivity.
Defined.

Lemma Parse_fields_witness :
  exists e, Parse "*/15 9-17 * * 1-5" = Returns (Ok e) /\
    expr_of "*/15 9-17 * * 1-5" "*/15" "9-17" "*" "*" "1-5" e.
Proof.
  pose proof (Parse_fields "*/15 9-17 * * 1-5" "*/15" "9-17" "*" "*" "1-5") as H.
  assert (E : expr_ok "*/15" "9-17" "*" "*" "1-5" = true) by (vm_compute; reflexivity). rewrite E in H.
  apply H; [vm_compute; reflexivity|apply tame_by_compute; vm_compute; reflexivity..].
Defined.

(** * The scheduler *)

Section Scheduler.
Context {G : Gorm} {GL : GormLaws G} {P : Platform} {D : Dispatcher}.

(** A fire time has come since the trigger last fired (or was created). *)
Definition fire_time_passed (trig : PipelineTrigger) (now : Time) : Prop :=
  exists e x, cronExprOf (trig_Spec trig) = Returns (Ok e) /\ x mod Minute = 0 /\
    Triggers.fire_base trig < x <= now /\ x < first_minute (Triggers.fire_base trig) + maxScanDays * 24 * Hour /\
    matches e Local x = true.

(** The stored spec makes the parser answer. *)
Definition parses (trig : PipelineTrigger) : Prop := exists r, cronExprOf (trig_Spec trig) = Returns r.

Definition due (now : Time) (trig : PipelineTrigger) : bool :=
  match Triggers.cron_due trig now with Returns b => b | _ => false end.

Lemma cron_due_spec hours trig now :
  Local = fixed_zone (3600 * hours) -> parses trig ->
  Triggers.cron_due trig now = Returns (due now trig) /\ (due now trig = true <-> fire_time_passed trig now).
Proof.
  intros HL (r & Er). unfold due, fire_time_passed. assert (Hex : exists b, Triggers.cron_due trig now = Returns b /\
    (b = true <-> fire_time_passed trig now)).
  { unfold Triggers.cron_due, fire_time_passed. rewrite Er. simpl. destruct r as [e|err].
    2: { exists false. split; [done|]. split; [done|]. by intros (e & x & ? & _). }
    rewrite HL. destruct (Next_found hours e (Triggers.fire_base trig)) as (r & -> & H). simpl. eexists. split; [done|].
    destruct (first_minute_spec (Triggers.fire_base trig)) as (_ & _ & Hiff). destruct r as [t|err]; simpl in H.
    - destruct H as ([Hlo Hhi] & Ht & Hm & Hno). rewrite negb_true_iff, Z.ltb_ge. split.
      + intros Hle. exists e, t. split_and!; [done|done|by apply Hiff|done|done|done].
      + intros (e' & x & [= <-] & Hx & [Hx1 Hx2] & _ & Hmx). destruct (Z.le_gt_cases t now) as [|Hgt]; [done|].
        rewrite Hno in Hmx; [done|done|]. split; [by apply Hiff|lia].
    - split; [done|]. intros (e' & x & [= <-] & Hx & [Hx1 Hx2] & Hx3 & Hmx). rewrite H in Hmx; [done|done|].
      split; [by apply Hiff|done]. }
  destruct Hex as (b & -> & Hb). split; [done|exact Hb].
Qed.

Lemma tick_rows_due s hours now trigs w :
  Local = fixed_zone (3600 * hours) -> Forall parses trigs ->
  Triggers.tick_rows s now trigs w =
  (Returns tt, (for_each (filter (fun t => due now t = true) trigs) (fun t => Triggers.fire_and_stamp s t "cron" now) w).2).
Proof.
  intros HL Hp. revert w. induction Hp as [|t trigs Ht _ IH]; intros w; [done|]. simpl.
  destruct (cron_due_spec hours t now HL Ht) as [-> _]. rewrite filter_cons.
  destruct (due now t); simpl; [|apply IH].
  unfold bind. destruct (Triggers.fire_and_stamp s t "cron" now w) as [[] w1]. simpl. by rewrite IH.
Qed.

(** One tick of the cron scheduler reads the enabled cron triggers and fires,
    one after the other, exactly those that are due: some minute matching the
    expression has come since the trigger last fired or was created.  A
    trigger whose run starts is stamped with the time of the tick; the others,
    and those whose start fails, are left for the next tick. *)
Theorem tick_fires_due s hours w :
  Local = fixed_zone (3600 * hours) -> healthy (w_triggers w) ->
  (forall t, t ∈ rows (w_triggers w) -> TriggerRepository.enabled_type TriggerTypeCron t = true -> parses t) ->
  wp (Triggers.tick s) (fun r w' => r = Returns tt /\ exists claimed w0,
    (claimed ≡ₚ selected (TriggerRepository.enabled_type TriggerTypeCron) (rows (w_triggers w))) /\ same w w0 /\
    (forall t, t ∈ claimed -> due (w_now w) t = true <-> fire_time_passed t (w_now w)) /\
    w' = (for_each (filter (fun t => due (w_now w) t = true) claimed)
           (fun t => Triggers.fire_and_stamp s t "cron" (w_now w)) w0).2) w.
Proof.
  intros HL Hh Hp. unfold Triggers.tick.
  apply wp_bind, (wp_zoom w_triggers), wp_Find; [|by intros e t _ Hn; destruct Hn].
  intros claimed t Ht Hq. apply query_result_nolimit in Hq as [Hperm _]; [|done|done]. simpl in Hperm.
  assert (Hall : Forall parses claimed).
  { apply Forall_forall. intros x Hx. rewrite Hperm in Hx. apply elem_of_selected in Hx as (_ & ? & ?). auto. }
  set (w0 := set_field w_triggers (fun _ => t) w). unfold wp, bind, time_Now. simpl.
  rewrite (tick_rows_due s hours (w_now w) claimed w0 HL Hall). split; [done|].
  exists claimed, w0. split_and!; [done|by apply field_same| |done].
  intros x Hx. rewrite Forall_forall in Hall. by apply (cron_due_spec hours x (w_now w) HL (Hall x Hx)).
Qed.

(** Whatever the request says, the stored trigger is enabled. *)
Lemma Create_enables pid trig who w :
  wp (Triggers.Create pid trig who) (fun r _ => forall t, r = Returns (Ok t) -> trig_Enabled t = true) w.
Proof.
  unfold Triggers.Create. destruct (empty_string _); [by apply wp_ret|]. destruct (negb _); [by apply wp_ret|].
  destruct (validate _ _) as [[[]|e]|m|]; simpl; [|by apply wp_ret..].
  apply wp_bind, wp_try. apply wp_run. intros [t0|e] w1 _; [|by apply wp_ret].
  apply wp_stmt, wp_Create; [|by intros; apply wp_ret].
  intros t tb _ (id & _ & _ & _ & ->) _. apply wp_ret. by intros ? [= <-].
Qed.
End Scheduler.

(** * The concrete hub *)

Definition demo_starter : TriggerService := mkTriggerService (Some (Trigger demo_service)).

Definition demo_trigger (id : UUID) (expr : string) (enabled : bool) : PipelineTrigger :=
  mkPipelineTrigger id 10 "nightly" TriggerTypeCron enabled (RawDoc (JObj [("expr", JStr expr)])) ""
    None "ana" (900 * Second) (900 * Second).

(** The clock shows 00:16:40; the triggers were created at 00:15. *)
Definition cron_hub : World :=
  demo <| w_triggers := table [demo_trigger 90 "* * * * *" true; demo_trigger 91 "*/5 * * * *" true;
                               demo_trigger 92 "* * * * *" false] |>.

Lemma tick_fires_due_witness :
  (Triggers.tick demo_starter cron_hub).1 = Returns tt /\
  trig_LastTriggeredAt <$> rows (w_triggers (Triggers.tick demo_starter cron_hub).2) =
    [Some (1000 * Second); None; None] /\
  run_TriggeredBy <$> rows (w_runs (Triggers.tick demo_starter cron_hub).2) = ["cron:nightly"].
Proof.
  destruct (tick_fires_due (D := hub_dispatcher) demo_starter 0 cron_hub) as [H _].
  - reflexivity.
  - constructor.
  - intros t Hin _. simpl in Hin. set_unfold in Hin.
    destruct Hin as [->|[->|[->|[]]]]; eexists; vm_compute; reflexivity.
  - split; [exact H|]. split; vm_compute; reflexivity.
Defined.

(** The rows are not locked while the triggers fire: two replicas that claimed
    before either stamped both start the run. *)
Definition claimed_rows : list PipelineTrigger := [demo_trigger 90 "* * * * *" true].
Lemma tick_replicas_fire_twice :
  let w1 := (Triggers.tick_rows demo_starter (1000 * Second) claimed_rows cron_hub).2 in
  let w2 := (Triggers.tick_rows demo_starter (1000 * Second) claimed_rows w1).2 in
  length (rows (w_runs w1)) = 1%nat /\ length (rows (w_runs w2)) = 2%nat.
Proof. vm_compute. split; reflexivity. Qed.
