(* ===== verification/PortalProperties.v ===== *)
(** What a log-in, a session and its end guarantee ([internal/auth/handler],
    [internal/session]), and what the directory of users and groups does and
    does not protect ([internal/permission/handler/keycloak_directory.go],
    [internal/realmsettings]). *)
From stdpp Require Import base list strings gmap pretty.
From Stdlib Require Import ZArith Lia Ascii.
From S2P Require Import Prelude Common Gorm Json GoLib RunnerProto RunStore PipelineStore TargetStore.
From S2P Require Import EditStore OrgStore SiteStore PermStore RateLimit World Admin WorldLogic Frames.
From S2P Require Import Permissions Middleware PipelineVersions Credentials Settings LocalStorage Identity.
From S2P Require Import Sessions Directory Instances AdminLogic CredentialProperties LocalStorageProperties OrgProperties VersionProperties.

Open Scope Z_scope.

(** * Text of a cookie *)

Lemma all_chars_app f s1 s2 : all_chars f (s1 +:+ s2) = all_chars f s1 && all_chars f s2.
Proof.
  induction s1 as [|c s IH]; [done|]. change (String c s +:+ s2) with (String c (s +:+ s2)). simpl.
  by rewrite IH, andb_assoc.
Qed.

Lemma all_chars_impl (f g : ascii -> bool) s :
  (forall c, f c = true -> g c = true) -> all_chars f s = true -> all_chars g s = true.
Proof. intros H. induction s as [|c s IH]; [done|]. simpl. rewrite !andb_true_iff. naive_solver. Qed.

(** Letters, digits, and the other characters of an envelope. *)
Definition envelope_byte (c : ascii) : bool := alphanum (byte_of c) || existsb (Z.eqb (byte_of c)) [43; 47; 58; 61].

Lemma b64_char_envelope n : 0 <= n < 64 -> envelope_byte (b64_char n) = true.
Proof.
  intros Hn. assert (Hall : forallb (fun n => envelope_byte (b64_char n)) (seqZ 0 64) = true) by reflexivity.
  rewrite forallb_forall in Hall. apply Hall, list_elem_of_In, elem_of_seqZ. lia.
Qed.

Lemma b64_envelope s : all_chars envelope_byte (b64_encode s) = true.
Proof.
  revert s. fix IH 1. intros [|a [|b [|c s]]]; simpl; [done| | |];
    pose proof (byte_range a); try pose proof (byte_range b); try pose proof (byte_range c);
    rewrite ?b64_char_envelope by bits_lia; [done..|]. apply IH.
Qed.

(** What holds of every byte of an envelope. *)
Lemma envelope_byte_spec c : envelope_byte c = true ->
  cookie_byte c = true /\ trim_byte c = false /\ c <> " "%char /\ c <> ","%char /\ c <> ";"%char /\ c <> quote.
Proof.
  revert c. assert (Hall : forallb (fun n => let c := ascii_of_nat n in implb (envelope_byte c)
    (cookie_byte c && negb (trim_byte c) && negb (Ascii.eqb c " ") && negb (Ascii.eqb c ",") &&
     negb (Ascii.eqb c ";") && negb (Ascii.eqb c quote))) (seq 0 256) = true) by (vm_compute; reflexivity).
  rewrite forallb_forall in Hall. intros c Hc.
  assert (Hin : In (nat_of_ascii c) (seq 0 256)) by (apply in_seq; pose proof (nat_ascii_bounded c); lia).
  specialize (Hall _ Hin). rewrite ascii_nat_embedding in Hall. cbv zeta in Hall. rewrite Hc in Hall. simpl in Hall.
  rewrite !andb_true_iff, !negb_true_iff, !Ascii.eqb_neq in Hall. naive_solver.
Qed.

Lemma filter_chars_all f s : all_chars f s = true -> filter_chars f s = s.
Proof. induction s as [|c s IH]; [done|]. simpl. intros [-> H]%andb_true_iff. by rewrite IH. Qed.

Lemma no_char_cut c s : all_chars (fun x => negb (Ascii.eqb x c)) s = true -> cut_at (String c "") s = None.
Proof.
  induction s as [|x s IH]; [done|]. simpl. intros [Hx H]%andb_true_iff. rewrite IH by done.
  unfold HasPrefix. simpl. apply negb_true_iff, Ascii.eqb_neq in Hx. destruct (ascii_dec c x); [congruence|done].
Qed.

Lemma all_chars_lacks c s : all_chars (fun x => negb (Ascii.eqb x c)) s = true -> lacks c s.
Proof.
  induction s as [|x s IH]; [done|]. simpl. intros [Hx%negb_true_iff H]%andb_true_iff.
  apply lacks_String. split; [by apply Ascii.eqb_neq|auto].
Qed.

Ltac envelope H := eapply all_chars_impl; [|exact H]; intros ? (?&?&?&?&?&?)%envelope_byte_spec;
  rewrite ?negb_true_iff, ?Ascii.eqb_neq; done.

Lemma sanitize_envelope v : all_chars envelope_byte v = true -> sanitizeCookieValue v = v.
Proof.
  intros Hv. unfold sanitizeCookieValue. rewrite filter_chars_all by envelope Hv.
  unfold Contains. by rewrite !no_char_cut by envelope Hv.
Qed.

Lemma parse_envelope v : all_chars envelope_byte v = true -> parseCookieValue v = Some v.
Proof.
  intros Hv. assert (Hu : unquoted v = v).
  { destruct v as [|c v]; [done|]. simpl in Hv |- *. apply andb_true_iff in Hv as [Hc _].
    apply envelope_byte_spec in Hc as (_ & _ & _ & _ & _ & Hq). apply Ascii.eqb_neq in Hq. rewrite Hq.
    by destruct (String.length v). }
  unfold parseCookieValue. rewrite Hu.
  assert (all_chars cookie_byte v = true) as -> by envelope Hv. done.
Qed.

Lemma trim_left_id s : all_chars (fun c => negb (trim_byte c)) s = true -> trim_left s = s.
Proof. destruct s as [|c s]; [done|]. simpl. by intros [->%negb_true_iff _]%andb_true_iff. Qed.
Lemma trim_right_id s : all_chars (fun c => negb (trim_byte c)) s = true -> trim_right s = s.
Proof.
  induction s as [|c s IH]; [done|]. simpl. intros [Hc%negb_true_iff H]%andb_true_iff. rewrite IH, Hc by done.
  by destruct s.
Qed.
Lemma TrimString_id s : all_chars (fun c => negb (trim_byte c)) s = true -> TrimString s = s.
Proof. intros H. unfold TrimString. rewrite trim_left_id by done. by apply trim_right_id. Qed.

(** What a browser keeps of a [Set-Cookie] header and sends back. *)
Definition sent_back (set_cookie : string) : string := default "" (head (Split ";"%char set_cookie)).

Lemma cookie_roundtrip v maxAge secure rq :
  all_chars envelope_byte v = true -> rq_Header rq "Cookie" = sent_back (cookie_text v maxAge secure) ->
  request_cookie CookieName rq = Some v.
Proof.
  intros Hv Hrq. assert (Hname : all_chars (fun c => negb (trim_byte c)) (CookieName +:+ "=" +:+ v) = true).
  { rewrite !all_chars_app. simpl. envelope Hv. }
  assert (Hs : lacks ";" (CookieName +:+ "=" +:+ v)).
  { apply all_chars_lacks. rewrite !all_chars_app. simpl. envelope Hv. }
  assert (Hb : sent_back (cookie_text v maxAge secure) = CookieName +:+ "=" +:+ v).
  { unfold sent_back, cookie_text. rewrite sanitize_envelope by done.
    match goal with |- default _ (head (Split _ (_ +:+ "=" +:+ v +:+ "; Path=/" +:+ ?rest))) = _ =>
      change (CookieName +:+ "=" +:+ v +:+ "; Path=/" +:+ rest) with
             ((CookieName +:+ "=") +:+ v +:+ String ";"%char (" Path=/" +:+ rest)) end.
    rewrite <- string_append_assoc, Split_app by done. done. }
  unfold request_cookie. rewrite Hrq, Hb, Split_lacks by done. simpl omap. unfold named.
  rewrite TrimString_id by done.
  change (CookieName +:+ "=" +:+ v) with (CookieName +:+ String "="%char v). rewrite cut_app by done.
  change (TrimString CookieName) with CookieName. rewrite String.eqb_refl. simpl.
  by rewrite parse_envelope.
Qed.

(** * Pending logins *)

(** A login page handed out, its callback, a round of the collector. *)
Inductive login_event : Type :=
| Issued (at_ : Time) (state verifier : string)
| Taken (at_ : Time) (state : string)
| Collected (at_ : Time).

(** What the last event about a state left: the verifier and when it was
    issued. *)
Definition pending_step (state : string) (p : option (Time * string)) (e : login_event) : option (Time * string) :=
  match e with
  | Issued t st v => if String.eqb st state then Some (t, v) else p
  | Taken _ st => if String.eqb st state then None else p
  | Collected _ => p
  end.
Definition pending (history : list login_event) (state : string) : option (Time * string) :=
  foldl (pending_step state) None history.

Lemma pending_snoc h e state : pending (h ++ [e]) state = pending_step state (pending h state) e.
Proof. unfold pending. by rewrite foldl_app. Qed.

(** The store stands for the history: it may only miss what has expired. *)
Definition stands (h : list login_event) (now : Time) (m : gmap string verifierEntry) : Prop :=
  forall state, match pending h state with
    | Some (t, v) => m !! state = Some (mkVerifierEntry v (t + verifierTTL)) \/
                     (m !! state = None /\ t + verifierTTL < now)
    | None => m !! state = None
    end.

Lemma stands_later h now now' m : now <= now' -> stands h now m -> stands h now' m.
Proof. intros Hn H state. specialize (H state). destruct (pending h state) as [[t v]|]; [|done]. destruct H as [H|[H1 H2]]; [by left|right; split; [done|lia]]. Qed.

Lemma stands_issue h now m state v :
  stands h now m -> stands (h ++ [Issued now state v]) now (verifierStore.set_ now state v m).
Proof.
  intros H st. rewrite pending_snoc. simpl. specialize (H st). unfold verifierStore.set_.
  destruct (String.eqb_spec state st) as [->|Hne]; [left; by rewrite lookup_insert_eq|].
  by rewrite lookup_insert_ne by done.
Qed.

Lemma stands_take h now m state :
  stands h now m -> stands (h ++ [Taken now state]) now (verifierStore.take now state m).2.
Proof.
  intros H st. rewrite pending_snoc. simpl. specialize (H st).
  destruct (String.eqb_spec state st) as [->|Hne]; [by rewrite lookup_delete_eq|].
  by rewrite lookup_delete_ne by done.
Qed.

Lemma stands_gc h now m : stands h now m -> stands (h ++ [Collected now]) now (verifierStore.gc now m).
Proof.
  intros H st. rewrite pending_snoc. simpl. specialize (H st). unfold verifierStore.gc.
  destruct (pending h st) as [[t v]|].
  - destruct H as [H|[H1 H2]].
    + destruct (decide (t + verifierTTL < now)).
      * right. split; [|done]. apply map_lookup_filter_None. right. intros x Hx. rewrite H in Hx. injection Hx as <-.
        simpl. rewrite (proj2 (Z.ltb_lt _ _)) by done. done.
      * left. apply map_lookup_filter_Some. split; [done|]. simpl. apply Z.ltb_ge. lia.
    + right. split; [|done]. apply map_lookup_filter_None. by left.
  - apply map_lookup_filter_None. by left.
Qed.

(** What the callback is given. *)
Definition granted (h : list login_event) (now : Time) (state : string) : option string :=
  match pending h state with
  | Some (t, v) => if t + verifierTTL <? now then None else Some v
  | None => None
  end.

Lemma stands_granted h now m state : stands h now m -> (verifierStore.take now state m).1 = granted h now state.
Proof.
  intros H. specialize (H state). unfold verifierStore.take, granted. simpl.
  destruct (pending h state) as [[t v]|]; [|by rewrite H].
  destruct H as [->|[-> Ht]]; [done|]. by rewrite (proj2 (Z.ltb_lt _ _)).
Qed.

Section Logins.
Context {G : Gorm} {P : Platform} {O : ObjectStore} {H : HTTP} {K : SettingsTable} {C : AESGCM}.
Context {T : JSONText} {X : JSONReader} {E : Entropy}.
Context (k : string) (cl : Client) (h : AuthHandler_).

(** The state and the verifier the next login page gets. *)
Definition next_login (s : Portal) : option (string * string) :=
  let i := a_uuids (po_admin s) in
  match rand_bytes i 16, rand_bytes (S i) 32 with
  | Ok a, Ok b => Some (hex_encode a, b64url_encode (string_of_bytes b))
  | _, _ => None
  end.

(** The histories of a process, from its start on: login pages, callbacks, the
    collector, and anything else that leaves the verifiers alone while time
    goes by. *)
Inductive process : list login_event -> Portal -> Prop :=
| process_start s : po_verifiers s = ∅ -> process [] s
| process_page hist s r st v : process hist s -> next_login s = Some (st, v) ->
    AuthHandler.LoginURL h s = r ->
    process (hist ++ [Issued (a_now (po_admin s)) st v]) r.2
| process_callback hist s body req : process hist s -> UnmarshalE (A := codeReq) body = Ok req ->
    process (hist ++ [Taken (a_now (po_admin s)) (cq_State req)]) (AuthHandler.SessionCode k cl h body s).2
| process_collect hist s : process hist s ->
    process (hist ++ [Collected (a_now (po_admin s))])
      (s <| po_verifiers := verifierStore.gc (a_now (po_admin s)) (po_verifiers s) |>)
| process_other hist s s' : process hist s -> po_verifiers s' = po_verifiers s ->
    a_now (po_admin s) <= a_now (po_admin s') -> process hist s'.
End Logins.

Section Frames.
Context {G : Gorm} {GL : GormLaws G} {P : Platform} {O : ObjectStore} {H : HTTP} {K : SettingsTable} {C : AESGCM}.
Context {CL : AESGCMLaws C} {T : JSONText} {X : JSONReader} {E : Entropy}.
Context (k : string) (cl : Client) (h : AuthHandler_).

Definition portal_now (s : Portal) : Time := a_now (po_admin s).

Lemma Encrypt_now p : Unchanged a_now (CredentialService.Encrypt k p).
Proof. intros s. by destruct (wp_Encrypt k p s) as [[] _]. Qed.
Lemma clock_un {V} (f : Portal -> V) : Unchanged f clock.
Proof. done. Qed.
Lemma Encrypt_portal_now p : Unchanged portal_now (zoom po_admin (CredentialService.Encrypt k p)).
Proof. apply (un_zoom_in _ _ a_now); [done..|apply Encrypt_now]. Qed.
#[local] Hint Resolve Encrypt_portal_now clock_un : unchanged.

Lemma established_verifiers g : Unchanged po_verifiers (AuthHandler.established k h g).
Proof. unchanged. Qed.
Lemma established_now g : Unchanged portal_now (AuthHandler.established k h g).
Proof. unchanged. Qed.
Lemma impersonated_verifiers g : Unchanged po_verifiers (AuthHandler.impersonated cl g).
Proof. unchanged. Qed.
Lemma impersonated_now g : Unchanged portal_now (AuthHandler.impersonated cl g).
Proof. unchanged. Qed.
End Frames.

Section Logins_theory.
Context {G : Gorm} {GL : GormLaws G} {P : Platform} {O : ObjectStore} {H : HTTP} {K : SettingsTable} {C : AESGCM}.
Context {CL : AESGCMLaws C} {T : JSONText} {X : JSONReader} {E : Entropy}.
Context (k : string) (cl : Client) (h : AuthHandler_).

(** A callback whose state was granted: from the exchange of its code on. *)
Definition redeem (req : codeReq) (verifier : string) : M Portal Response :=
  let* g := zoom po_kc (ExchangeCode cl (ah_loginClientID h) (cq_Code req) (ah_redirectURI h) verifier) in
  match g with
  | Err e => ret (Fail StatusBadRequest e)
  | Ok g => let* g := AuthHandler.impersonated cl g in AuthHandler.established k h g
  end.
#[local] Hint Resolve established_verifiers established_now impersonated_verifiers impersonated_now : unchanged.

Lemma redeem_verifiers req v : Unchanged po_verifiers (redeem req v).
Proof. unchanged. Qed.
Lemma redeem_now req v : Unchanged portal_now (redeem req v).
Proof. unchanged. Qed.

Definition spent (state : string) (s : Portal) : Portal := s <| po_verifiers := delete state (po_verifiers s) |>.

Lemma SessionCode_eq body req s : UnmarshalE (A := codeReq) body = Ok req ->
  AuthHandler.SessionCode k cl h body s =
  match (verifierStore.take (portal_now s) (cq_State req) (po_verifiers s)).1 with
  | None => (Fail StatusBadRequest errLoginState, spent (cq_State req) s)
  | Some v => redeem req v (spent (cq_State req) s)
  end.
Proof.
  intros Hb. unfold AuthHandler.SessionCode. rewrite Hb. unfold bind, clock, zoom at 1. cbv beta iota zeta.
  unfold portal_now. destruct (verifierStore.take (a_now (po_admin s)) (cq_State req) (po_verifiers s)) as [v m] eqn:Et.
  assert (set_field po_verifiers (fun _ => m) s = spent (cq_State req) s) as ->.
  { unfold verifierStore.take in Et. injection Et as _ <-. done. }
  simpl fst. by destruct v.
Qed.

Lemma LoginURL_next s st v : next_login s = Some (st, v) ->
  let s' := (AuthHandler.LoginURL h s).2 in
  portal_now s' = portal_now s /\ po_verifiers s' = verifierStore.set_ (portal_now s) st v (po_verifiers s).
Proof.
  unfold next_login, AuthHandler.LoginURL, AuthHandler.drawn, AuthHandler.draw, bind, clock, modify. intros Hn.
  destruct (rand_bytes (a_uuids (po_admin s)) 16) as [a|] eqn:Ea; [|done].
  destruct (rand_bytes (S (a_uuids (po_admin s))) 32) as [b|] eqn:Eb; [|done].
  injection Hn as <- <-. cbv zeta. cbn. by rewrite Eb.
Qed.

Lemma process_stands hist s : process k cl h hist s -> stands hist (portal_now s) (po_verifiers s).
Proof.
  induction 1 as [s Hs|hist s r st v Hp IH Hn <-|hist s body req Hp IH Hb|hist s Hp IH|hist s s' Hp IH Hv Hn].
  - intros st. by rewrite Hs.
  - destruct (LoginURL_next s st v Hn) as [-> ->]. by apply stands_issue.
  - rewrite (SessionCode_eq body req s Hb). pose proof (stands_take _ _ _ (cq_State req) IH) as Ht.
    destruct (verifierStore.take _ _ _).1 as [v|]; [|exact Ht]. by rewrite redeem_now, redeem_verifiers.
  - by apply stands_gc.
  - rewrite Hv. by eapply stands_later.
Qed.

(** No new login page for this state. *)
Definition other_state (state : string) (e : login_event) : Prop :=
  match e with Issued _ st _ => st <> state | _ => True end.

Lemma granted_spent hist t state more now :
  Forall (other_state state) more -> granted (hist ++ Taken t state :: more) now state = None.
Proof.
  intros Hm. assert (Hp : pending (hist ++ Taken t state :: more) state = None); [|unfold granted; by rewrite Hp].
  unfold pending. rewrite foldl_app. simpl. rewrite String.eqb_refl. clear hist.
  induction Hm as [|e more He Hm IH]; [done|]. simpl. destruct e as [? st ?|? st|?]; simpl; [|by destruct (String.eqb st state)|done].
  simpl in He. apply String.eqb_neq in He. by rewrite He.
Qed.

(** C6: the PKCE state of a log-in is good once, for ten minutes, and only in
    the process that issued it: whatever pages, callbacks and collections came
    before, a callback is let through to Keycloak exactly when its state was
    handed out by this process, has not come back since and is at most ten
    minutes old, and then with the verifier of that very page; every other
    callback is refused without a call to Keycloak.  Whatever follows, the
    same callback is refused until a page hands the state out anew. *)
Theorem login_state_single_use hist s body req :
  process k cl h hist s -> UnmarshalE (A := codeReq) body = Ok req ->
  AuthHandler.SessionCode k cl h body s =
    match granted hist (portal_now s) (cq_State req) with
    | None => (Fail StatusBadRequest errLoginState, spent (cq_State req) s)
    | Some verifier => redeem req verifier (spent (cq_State req) s)
    end /\
  (forall more s', process k cl h (hist ++ Taken (portal_now s) (cq_State req) :: more) s' ->
     Forall (other_state (cq_State req)) more ->
     AuthHandler.SessionCode k cl h body s' = (Fail StatusBadRequest errLoginState, spent (cq_State req) s')).
Proof.
  intros Hp Hb. split.
  - rewrite (SessionCode_eq _ _ _ Hb), (stands_granted hist); [done|]. by apply process_stands.
  - intros more s' Hp' Hm. rewrite (SessionCode_eq _ _ _ Hb), (stands_granted (hist ++ Taken (portal_now s) (cq_State req) :: more)).
    + by rewrite granted_spent.
    + by apply process_stands.
Qed.
End Logins_theory.

(** * From a log-in to an identity *)

Section Sessions_theory.
Context {G : Gorm} {GL : GormLaws G} {P : Platform} {O : ObjectStore} {H : HTTP} {K : SettingsTable} {C : AESGCM}.
Context {CL : AESGCMLaws C} {T : JSONText} {X : JSONReader} {E : Entropy}.
Context (k : string) (cl : Client) (h : AuthHandler_).

(** The row of a log-in at [now]. *)
Record opens (claims : IDTokenClaims) (g : GrantResult) (now : Time) (row : Session_) : Prop := mkOpens {
  opens_subject : ss_Subject row = it_Subject claims;
  opens_username : ss_Username row = it_PreferredUsername claims;
  opens_groups : ss_Groups row = AuthHandler.groupsJSON (it_Groups claims);
  opens_expiry : ss_ExpiresAt row = now + CookieMaxAge;
  opens_token : ss_KCToken row = "" \/ sealed k (ss_KCToken row) (gt_AccessToken g);
}.

Lemma sealed_envelope enc p : sealed k enc p -> all_chars envelope_byte enc = true.
Proof. intros (n & _ & ->). unfold sealed_value. rewrite all_chars_app, b64_envelope. done. Qed.

Hypothesis key_valid : NewCipher k = Ok tt.
Lemma key_present : k <> "".
Proof. intros ->. discriminate key_valid. Qed.

Lemma wp_Encrypt_portal p (Q : Result string -> Portal -> Prop) s :
  (forall v s', po_sessions s' = po_sessions s -> portal_now s' = portal_now s -> sealed k v p -> Q (Ok v) s') ->
  (forall e s', po_sessions s' = po_sessions s -> Q (Err e) s') ->
  wp (zoom po_admin (CredentialService.Encrypt k p)) Q s.
Proof.
  intros HO HE. apply (wp_zoom po_admin). eapply wp_mono; [apply wp_Encrypt|].
  intros [v|e] a (Hs & _ & Hv); [|by apply HE]. apply HO; [done|by destruct Hs|].
  by apply (enveloped_sealed k _ _ _ _ key_present Hv).
Qed.

Lemma wp_establishSession g s :
  wp (AuthHandler.establishSession k h g) (fun r s' =>
    match r with
    | Ok hd => exists claims row cookie,
        DecodeIDToken (gt_IDToken g) = Ok claims /\ opens claims g (portal_now s) row /\
        rows (po_sessions s') = rows (po_sessions s) ++ [row] /\ ss_ID row ∉ (pk <$> rows (po_sessions s)) /\
        hd = ("Set-Cookie", cookie_text cookie (CookieMaxAge / Second) (ah_secureCookie h)) /\
        sealed k cookie (uuid_String (ss_ID row))
    | Err _ => True
    end) s.
Proof.
  unfold AuthHandler.establishSession. destruct (empty_string (gt_IDToken g)); [by apply wp_ret|].
  destruct (DecodeIDToken (gt_IDToken g)) as [claims|e]; [|by apply wp_ret].
  apply wp_bind. apply wp_run. intros now s0 [= <- <-]. apply wp_bind. unfold SessionRepository.Create.
  assert (Hrow : forall enc s1, po_sessions s1 = po_sessions s -> portal_now s1 = portal_now s ->
    (enc = "" \/ sealed k enc (gt_AccessToken g)) ->
    wp (let* now := clock in
        zoom po_sessions (db_Create now ((AuthHandler.session_of (a_now (po_admin s)) claims g) <| ss_KCToken := enc |>)))
      (fun r s2 => match r with
         | Err _ => True
         | Ok row => opens claims g (portal_now s) row /\ ss_ID row ∉ (pk <$> rows (po_sessions s)) /\
                     rows (po_sessions s2) = rows (po_sessions s) ++ [row]
         end) s1).
  { intros enc s1 Hs Hn He. apply wp_bind. apply wp_run. intros now s2 [= <- <-]. apply (wp_zoom po_sessions).
    rewrite Hs. apply wp_Create; [|done]. intros row t _ (id & _ & Hid & _ & ->) Ht. split; [by split|]. done. }
  match goal with |- wp _ ?Q0 _ => assert (Hlast : forall r s2, match r with
         | Err _ => True
         | Ok row => opens claims g (portal_now s) row /\ ss_ID row ∉ (pk <$> rows (po_sessions s)) /\
                     rows (po_sessions s2) = rows (po_sessions s) ++ [row]
         end -> Q0 r s2) end.
  { intros [row|e] s2; [|intros _; by apply wp_ret]. intros (Ho & Hid & Hr). apply wp_try.
    apply wp_Encrypt_portal; [|done]. intros cookie s3 Hs _ Hc. apply wp_ret. exists claims, row, cookie. by rewrite Hs. }
  apply wp_try. simpl ss_KCToken. destruct (empty_string (gt_AccessToken g)).
  - apply wp_ret. eapply wp_mono; [apply Hrow; [done|done|by left]|exact Hlast].
  - apply wp_Encrypt_portal.
    + intros enc s1 Hs Hn He. eapply wp_mono; [apply Hrow; [done|done|by right]|exact Hlast].
    + intros e s1 _. by apply (Hlast (Err e) s1).
Qed.

(** ** The session as an identity *)

(** A row among others, in a database that answers. *)
Definition holds (row : Session_) (s : Portal) : Prop :=
  row ∈ rows (po_sessions s) /\ NoDup (pk <$> rows (po_sessions s)) /\ healthy (po_sessions s).

Definition groups_doc (groups : list string) : json := if empty_list groups then JNull else enc groups.
(** What the libraries print reads back. *)
Definition identifier_reads (u : UUID) : Prop := uuid_Parse (uuid_String u) = Some u /\ uuid_String u <> "".
Definition document_reads (d : json) : Prop := parse_text (marshal_text d) = RawDoc d /\ marshal_text d <> "".

Lemma read_cookie cookie p maxAge secure rq :
  sealed k cookie p -> rq_Header rq "Cookie" = sent_back (cookie_text cookie maxAge secure) -> ReadCookie k rq = p.
Proof.
  intros Hc Hrq. unfold ReadCookie. rewrite (cookie_roundtrip cookie maxAge secure) by (done || by eapply sealed_envelope).
  by rewrite (Decrypt_sealed k cookie p).
Qed.

Lemma wp_Get sid u s : uuid_Parse sid = Some u ->
  wp (SessionRepository.Get k sid) (fun r s' => rows (po_sessions s') = rows (po_sessions s) /\
    match r with
    | Ok v => exists row, row ∈ rows (po_sessions s) /\ ss_ID row = u /\ portal_now s < ss_ExpiresAt row /\
                SessionRepository.opened k row = Ok v
    | Err e => forall row, row ∈ rows (po_sessions s) -> ss_ID row = u -> portal_now s < ss_ExpiresAt row ->
                 healthy (po_sessions s) -> exists row', row' ∈ rows (po_sessions s) /\ ss_ID row' = u /\
                   is_ok (SessionRepository.opened k row') = false
    end) s.
Proof.
  intros Hu. unfold SessionRepository.Get. apply wp_bind, wp_run. intros now s0 [= <- <-].
  unfold SessionRepository.by_id. rewrite Hu. apply wp_bind. apply (wp_zoom po_sessions). apply wp_First.
  - intros row t [Ht _] _ Hq Hr. apply andb_true_iff in Hq as [Hid%Z.eqb_eq He%Z.ltb_lt]. apply wp_ret. split; [exact Ht|].
    destruct (SessionRepository.opened k row) as [v|e] eqn:Ho; [by exists row|].
    intros _ _ _ _ _. exists row. by rewrite Ho.
  - intros e t [Ht _] Hh Hn _. apply wp_ret. split; [exact Ht|]. intros row Hr Hid Hx Hhealthy. exfalso.
    specialize (Hn (Hh Hhealthy)). simpl in Hn.
    assert (Hsel : row ∈ selected (SessionRepository.live u (portal_now s)) (rows (po_sessions s))).
    { apply elem_of_selected. split; [done|]. split; [|done]. unfold SessionRepository.live.
      by rewrite Hid, Z.eqb_refl, (proj2 (Z.ltb_lt _ _)). }
    unfold portal_now in Hsel. rewrite Hn in Hsel. by apply elem_of_nil in Hsel.
Qed.

Lemma NoDup_row (s : Portal) row row' : NoDup (pk <$> rows (po_sessions s)) ->
  row ∈ rows (po_sessions s) -> row' ∈ rows (po_sessions s) -> ss_ID row' = ss_ID row -> row' = row.
Proof.
  intros Hnd (i & Hi)%list_elem_of_lookup (j & Hj)%list_elem_of_lookup Heq.
  assert (j = i) as ->; [|congruence].
  eapply (NoDup_lookup _ _ _ (ss_ID row) Hnd).
  - rewrite list_lookup_fmap, Hj. simpl. by f_equal.
  - by rewrite list_lookup_fmap, Hi.
Qed.

Lemma GroupsList_printed row groups : ss_Groups row = AuthHandler.groupsJSON groups ->
  document_reads (groups_doc groups) -> SessionRepository.GroupsList row = groups.
Proof.
  intros Hr [Hp Hne]. unfold SessionRepository.GroupsList. rewrite Hr. unfold AuthHandler.groupsJSON.
  fold (groups_doc groups). destruct (empty_string (marshal_text (groups_doc groups))) eqn:Ee.
  - by apply empty_string_zero in Ee.
  - rewrite Hp. unfold Unmarshal, groups_doc. destruct groups as [|g gs]; [done|]. simpl empty_list. cbv iota. rewrite roundtrip; [done|]. simpl. by apply Forall_true.
Qed.

(** What a request with the cookie of a row is. *)
Lemma session_identity row claims g t0 rq s :
  opens claims g t0 row -> holds row s -> identifier_reads (ss_ID row) -> document_reads (groups_doc (it_Groups claims)) ->
  ReadCookie k rq = uuid_String (ss_ID row) ->
  wp (AuthHandler.sessionVerifier k rq) (fun r s' => rows (po_sessions s') = rows (po_sessions s) /\
    (portal_now s < t0 + CookieMaxAge ->
       r = Ok (mkSessionIdentity (it_Subject claims) (it_PreferredUsername claims) (it_Groups claims) [])) /\
    (t0 + CookieMaxAge <= portal_now s -> is_ok r = false)) s.
Proof.
  intros Ho (Hr & Hnd & Hh) [Hu Hne] Hd Hsid. unfold AuthHandler.sessionVerifier. rewrite Hsid.
  destruct (empty_string (uuid_String (ss_ID row))) eqn:Ee; [by apply empty_string_zero in Ee|].
  assert (Hop : exists v, SessionRepository.opened k row = Ok v /\ ss_Subject v = ss_Subject row /\
                  ss_Username v = ss_Username row /\ ss_Groups v = ss_Groups row).
  { unfold SessionRepository.opened. destruct (empty_string (ss_KCToken row)) eqn:Et; [by exists row|].
    destruct (opens_token _ _ _ _ Ho) as [Ht|Hs]; [by rewrite Ht in Et|]. rewrite (Decrypt_sealed k _ _ key_valid Hs). by eexists. }
  destruct Hop as (v & Hv & Hs & Hn & Hg).
  apply wp_try. eapply wp_mono; [by apply (wp_Get _ (ss_ID row))|]. intros [v'|e] s' [Hrows Hres].
  - destruct Hres as (row' & Hr' & Hid & Hlt & Hv'). assert (row' = row) as -> by by apply (NoDup_row s).
    assert (v' = v) as -> by congruence. apply wp_ret. split; [exact Hrows|].
    rewrite (opens_expiry _ _ _ _ Ho) in Hlt. split; [|lia]. intros _.
    rewrite Hs, Hn, (GroupsList_printed v (it_Groups claims)) by (done || by rewrite Hg, (opens_groups _ _ _ _ Ho)).
    by rewrite (opens_subject _ _ _ _ Ho), (opens_username _ _ _ _ Ho).
  - split; [exact Hrows|]. split; [|done]. intros Hlt. exfalso.
    destruct (Hres row Hr eq_refl) as (row' & Hr' & Hid & Hbad); [by rewrite (opens_expiry _ _ _ _ Ho)|done|].
    assert (row' = row) as -> by by apply (NoDup_row s). by rewrite Hv in Hbad.
Qed.

Lemma reply_not_OK status e : status <> StatusOK -> rs_Code (Fail status e) = StatusOK -> False.
Proof. intros Hn. unfold Fail. by destruct e. Qed.

Lemma wp_established g (Q : Response -> Portal -> Prop) s :
  (forall e s', Q (Fail StatusInternalServerError e) s') ->
  (forall claims row cookie s', let text := cookie_text cookie (CookieMaxAge / Second) (ah_secureCookie h) in
     DecodeIDToken (gt_IDToken g) = Ok claims -> opens claims g (portal_now s) row ->
     rows (po_sessions s') = rows (po_sessions s) ++ [row] -> ss_ID row ∉ (pk <$> rows (po_sessions s)) ->
     sealed k cookie (uuid_String (ss_ID row)) ->
     Q (add_headers [("Set-Cookie", text)] authenticated_reply) s') ->
  wp (AuthHandler.established k h g) Q s.
Proof.
  intros HE HO. unfold AuthHandler.established. apply wp_bind. eapply wp_mono; [apply wp_establishSession|].
  intros [hd|e] s' Hr; apply wp_ret; [|apply HE].
  destruct Hr as (claims & row & cookie & Hd & Ho & Hrows & Hid & -> & Hc). by apply (HO claims row cookie).
Qed.

(** C5: a log-in opens exactly one session, for whom Keycloak named and for
    eight hours: when [Login] answers 200, Keycloak granted the very
    credentials of the request, one row is added, under a new identifier, with
    the subject, the name and the groups of the ID token, and one cookie is
    set; as long as the row is there, a request that sends that cookie back is
    taken for that subject with those groups, by any process with the same
    key, until eight hours after the log-in and not later.  Any other answer
    sets no cookie. *)
Theorem login_opens_session body req s :
  UnmarshalE (A := loginReq) body = Ok req ->
  wp (AuthHandler.Login k cl h body) (fun r s' =>
    (rs_Code r <> StatusOK -> rs_Headers r = []) /\
    (rs_Code r = StatusOK -> exists g claims row text,
       (PasswordGrant cl (ah_loginClientID h) (lq_Username req) (lq_Password req) (po_kc s)).1 = Ok g /\
       DecodeIDToken (gt_IDToken g) = Ok claims /\ opens claims g (portal_now s) row /\
       rows (po_sessions s') = rows (po_sessions s) ++ [row] /\ ss_ID row ∉ (pk <$> rows (po_sessions s)) /\
       rs_Headers r = [("Set-Cookie", text)] /\
       (forall rq s2, rq_Header rq "Cookie" = sent_back text -> holds row s2 ->
          identifier_reads (ss_ID row) -> document_reads (groups_doc (it_Groups claims)) ->
          wp (AuthHandler.sessionVerifier k rq) (fun v _ =>
            (portal_now s2 < portal_now s + 8 * Hour ->
               v = Ok (mkSessionIdentity (it_Subject claims) (it_PreferredUsername claims) (it_Groups claims) [])) /\
            (portal_now s + 8 * Hour <= portal_now s2 -> is_ok v = false)) s2))) s.
Proof.
  intros Hb. unfold AuthHandler.Login. rewrite Hb. apply wp_bind. apply (wp_zoom po_kc), wp_run. intros r kc Hg.
  destruct r as [g|e].
  - apply wp_established.
    + intros e s'. split; [unfold Fail; by destruct e|by intros []%reply_not_OK].
    + intros claims row cookie s' text Hd Ho Hr Hid Hc. split; [done|]. intros _. exists g, claims, row, text.
      rewrite Hg. do 6 (split; [done|]). intros rq s2 Hrq Hh Hi Hdoc.
      eapply wp_mono; [eapply (session_identity row claims g (portal_now s)); try done|by intros v s3 [_ Hv]].
      by eapply read_cookie.
  - destruct (errors_Is e ErrAccountNotFullySetUp).
    { apply wp_bind, wp_run. intros reason s' _. apply wp_ret. by split. }
    destruct (errors_Is e ErrInvalidCredentials); apply wp_ret.
    { by split. }
    split; [unfold Fail; by destruct e|by intros []%reply_not_OK].
Qed.

(** a log-out ends the session of its cookie, and no other: it always
    answers 204 and clears the cookie; against a database that answers, the
    row is gone, every other row stands, and the same cookie is refused from
    then on as long as no row has that identifier again. *)
Theorem logout_ends_session rq u s :
  uuid_Parse (ReadCookie k rq) = Some u -> ReadCookie k rq <> "" -> healthy (po_sessions s) ->
  wp (AuthHandler.Logout k rq) (fun r s' =>
    rs_Code r = StatusNoContent /\ rs_Headers r = [ClearCookie] /\
    (forall row, row ∈ rows (po_sessions s') <-> row ∈ rows (po_sessions s) /\ ss_ID row <> u) /\
    (forall s2, Forall (fun row => ss_ID row <> u) (rows (po_sessions s2)) ->
       is_ok (AuthHandler.sessionVerifier k rq s2).1 = false)) s.
Proof.
  intros Hu Hne Hh. unfold AuthHandler.Logout.
  destruct (empty_string (ReadCookie k rq)) eqn:Ee; [by apply empty_string_zero in Ee|].
  assert (Hv : forall s2, Forall (fun row => ss_ID row <> u) (rows (po_sessions s2)) ->
     is_ok (AuthHandler.sessionVerifier k rq s2).1 = false).
  { intros s2 Hall. change (wp (AuthHandler.sessionVerifier k rq) (fun r _ => is_ok r = false) s2).
    unfold AuthHandler.sessionVerifier. rewrite Ee. apply wp_try.
    eapply wp_mono; [by apply (wp_Get _ u)|]. intros [v|e] s3 [_ Hr]; [|done].
    destruct Hr as (row & Hr & Hid & _). rewrite Forall_forall in Hall. by destruct (Hall row Hr). }
  apply wp_bind. unfold SessionRepository.Delete. apply wp_bind, wp_run. intros now s0 [= <- <-].
  unfold void. apply wp_try. unfold SessionRepository.by_id. rewrite Hu. apply (wp_zoom po_sessions), wp_Delete.
  - intros t _ Ht. apply wp_ret, wp_ret. do 2 (split; [done|]). split; [|exact Hv]. intros row. simpl. rewrite Ht.
    unfold delete_rows. rewrite list_elem_of_omap. simpl. split.
    + intros (x & Hx & Hd). destruct (Z.eqb_spec (ss_ID x) u); [done|]. by injection Hd as <-.
    + intros [Hr Hn]. exists row. split; [done|]. by rewrite (proj2 (Z.eqb_neq _ _)).
  - by intros.
Qed.
End Sessions_theory.

(** * The forced change of a password *)

Section Passwords.
Context {G : Gorm} {P : Platform} {O : ObjectStore} {H : HTTP} {K : SettingsTable} {C : AESGCM}.
Context {T : JSONText} {X : JSONReader} {E : Entropy}.
Context (k : string) (cl : Client) (h : AuthHandler_).

(** Keycloak takes the password, if only for the pending action. *)
Definition password_taken (g : Result GrantResult) : bool :=
  match g with Ok _ => true | Err e => errors_Is e ErrAccountNotFullySetUp end.

Lemma vouched_taken g : match AuthHandler.vouched g with
  | None => password_taken g = true
  | Some r => password_taken g = false /\ rs_Code r <> StatusOK
  end.
Proof.
  destruct g as [g|e]; [done|]. unfold AuthHandler.vouched. simpl.
  destruct (errors_Is e ErrAccountNotFullySetUp); [done|]. destruct (errors_Is e ErrInvalidCredentials); [done|].
  split; [done|]. by intros []%reply_not_OK.
Qed.

(** Only the exchange with Keycloak differs. *)
Definition with_kc (s : Portal) (kc : KC) : Portal := s <| po_kc := kc |>.

Lemma wp_or_500 {A} (m : M KC (Result A)) (f : A -> M Portal Response) (Q : Response -> Portal -> Prop) s kc :
  (forall e kc', m kc = (Err e, kc') -> Q (Fail StatusInternalServerError e) (with_kc s kc')) ->
  (forall a kc', m kc = (Ok a, kc') -> wp (f a) Q (with_kc s kc')) ->
  wp (AuthHandler.or_500 m f) Q (with_kc s kc).
Proof.
  intros HE HO. unfold AuthHandler.or_500. apply wp_bind, (wp_zoom po_kc), wp_run. intros [a|e] kc' Em; [by apply HO|].
  by apply wp_ret, HE.
Qed.

Lemma verifier_kc rq s kc :
  (AuthHandler.sessionVerifier k rq (with_kc s kc)).1 = (AuthHandler.sessionVerifier k rq s).1.
Proof.
  unfold AuthHandler.sessionVerifier. destruct (empty_string _); [done|]. unfold try_bind, bind, SessionRepository.Get, clock, SessionRepository.by_id, bind.
  destruct (uuid_Parse _) as [u|]; [|done]. unfold zoom. simpl.
  destruct (db_First _ _) as [[row|e] t]; simpl; [by destruct (SessionRepository.opened k row)|done].
Qed.

(** The calls of a change, from the state after the grant to the last one. *)
Definition changed (req : passwordReq) (kc1 kc5 : KC) : Prop := exists u kc2 kc3 kc4,
  GetUserByNameExact cl (pq_Username req) kc1 = (Ok u, kc2) /\
  ResetPassword cl (us_ID u) (pq_NewPassword req) false kc2 = (Ok tt, kc3) /\
  ClearRequiredActions cl (us_ID u) kc3 = (Ok tt, kc4) /\ kc5 = (LogoutAll cl (us_ID u) kc4).2.

Definition fit (req : passwordReq) : bool :=
  (8 <=? Z.of_nat (String.length (pq_NewPassword req))) && negb (String.eqb (pq_NewPassword req) (pq_OldPassword req)).

(** What follows a password that was taken. *)
Lemma wp_change req s kc1 :
  wp (AuthHandler.or_500 (GetUserByNameExact cl (pq_Username req)) (fun u =>
      AuthHandler.or_500 (ResetPassword cl (us_ID u) (pq_NewPassword req) false) (fun _ =>
      AuthHandler.or_500 (ClearRequiredActions cl (us_ID u)) (fun _ =>
        let* _ := zoom po_kc (LogoutAll cl (us_ID u)) in
        ret (OK_ (RawDoc (JObj [("changed", JBool true); ("subject", JStr (us_ID u))])))))))
    (fun r s' => exists kc, s' = with_kc s kc /\ (rs_Code r = StatusOK <-> changed req kc1 kc)) (with_kc s kc1).
Proof.
  assert (Hfail : forall e kc, ~ changed req kc1 kc -> exists kc', with_kc s kc = with_kc s kc' /\
    (rs_Code (Fail StatusInternalServerError e) = StatusOK <-> changed req kc1 kc')).
  { intros e kc Hno. exists kc. split; [done|]. split; [by intros []%reply_not_OK|done]. }
  apply wp_or_500; [intros e kc2 E2; apply Hfail; intros (?&?&?&?&?); naive_solver congruence|]. intros u kc2 E2.
  apply wp_or_500; [intros e kc3 E3; apply Hfail; intros (?&?&?&?&?&?&?); naive_solver congruence|]. intros [] kc3 E3.
  apply wp_or_500; [intros e kc4 E4; apply Hfail; intros (?&?&?&?&?&?&?&?); naive_solver congruence|]. intros [] kc4 E4.
  apply wp_bind, (wp_zoom po_kc), wp_run. intros r kc5 E5. apply wp_ret. exists kc5. split; [done|]. split; [|done].
  intros _. exists u, kc2, kc3, kc4. split_and!; try done. change (po_kc (with_kc s kc4)) with kc4 in E5. by rewrite E5.
Qed.

(** C17: the forced change of a password asks for the old one: a new password
    reaches Keycloak only after Keycloak itself took the old one for that very
    name (or refused it for nothing but the pending action), when it has eight
    characters or more and is another one; the change, the cleared actions and
    the log-out at Keycloak then follow in this order for the account of that
    name, and 200 is answered exactly when all of them were accepted.
    Refused, nothing but the check is asked of Keycloak.  The hub's own
    sessions survive the change: every cookie is the identity it was. *)
Theorem password_change_vouched body req s :
  UnmarshalE (A := passwordReq) body = Ok req ->
  let '(g, kc1) := PasswordGrant cl (ah_loginClientID h) (pq_Username req) (pq_OldPassword req) (po_kc s) in
  wp (AuthHandler.Password cl h body) (fun r s' =>
    (fit req = false -> s' = s) /\ (fit req = true -> password_taken g = false -> s' = with_kc s kc1) /\
    (exists kc, s' = with_kc s kc /\
       (rs_Code r = StatusOK <-> fit req = true /\ password_taken g = true /\ changed req kc1 kc)) /\
    (forall rq, (AuthHandler.sessionVerifier k rq s').1 = (AuthHandler.sessionVerifier k rq s).1)) s.
Proof.
  intros Hb. destruct (PasswordGrant cl _ _ _ _) as [g kc1] eqn:Eg.
  apply wp_mono with (Q := fun r s' => (fit req = false -> s' = s) /\
    (fit req = true -> password_taken g = false -> s' = with_kc s kc1) /\
    (exists kc, s' = with_kc s kc /\
       (rs_Code r = StatusOK <-> fit req = true /\ password_taken g = true /\ changed req kc1 kc))); cycle 1.
  { intros r s' (H1 & H2 & kc & -> & H3). split_and!; eauto. intros rq. apply verifier_kc. }
  assert (Hself : s = with_kc s (po_kc s)) by by destruct s.
  unfold AuthHandler.Password. rewrite Hb. unfold minNewPassword, fit. rewrite Z.ltb_antisym.
  destruct (8 <=? _); simpl; [|apply wp_ret; split_and!; [done|done|exists (po_kc s); by split; [|split; [|intros [? _]]]]].
  destruct (String.eqb _ _); simpl; [apply wp_ret; split_and!; [done|done|exists (po_kc s); by split; [|split; [|intros [? _]]]]|].
  apply wp_bind, (wp_zoom po_kc), wp_run. intros g' kc' Eg'. rewrite Eg in Eg'. injection Eg' as <- <-.
  change (set_field po_kc (fun _ => kc1) s) with (with_kc s kc1).
  pose proof (vouched_taken g) as Hv. destruct (AuthHandler.vouched g) as [refusal|].
  { destruct Hv as [-> Hv]. apply wp_ret. split_and!; [done|done|]. exists kc1. split; [done|]. by split; [|intros (_ & ? & _)]. }
  rewrite Hv. eapply wp_mono; [apply wp_change|]. intros r s' (kc & -> & Hc). split_and!; [done|done|]. exists kc. split; [done|]. rewrite Hc. tauto.
Qed.
End Passwords.

(** * Generated passwords *)

Lemma swap_perm i j pw : swap i j pw ≡ₚ pw.
Proof.
  unfold swap. destruct (pw !! i) as [a|] eqn:Ei; [|done]. destruct (pw !! j) as [b|] eqn:Ej; [|done].
  by apply Permutation_insert_swap.
Qed.
Lemma shuffle_perm i draws n pw : shuffle i draws n pw ≡ₚ pw.
Proof. revert n pw. induction i as [|i IH]; intros n pw; [done|]. cbn [shuffle]. by rewrite IH, swap_perm. Qed.

(** A password that passes the policy of a realm. *)
Definition well_formed_password (pw : string) : Prop :=
  String.length pw = 16%nat /\ PasswordClassSatisfied pw = true /\ all_chars (fun c => alphanum (byte_of c)) pw = true.

Lemma all_chars_list f l : all_chars f (String.string_of_list_ascii l) = forallb f l.
Proof. induction l as [|c l IH]; [done|]. simpl. by rewrite IH. Qed.
Lemma length_list l : String.length (String.string_of_list_ascii l) = length l.
Proof. induction l as [|c l IH]; [done|]. simpl. by rewrite IH. Qed.
Lemma existsb_elem {A} (f : A -> bool) l x : x ∈ l -> f x = true -> existsb f l = true.
Proof. intros Hx Hf. apply existsb_exists. exists x. split; [by apply list_elem_of_In|done]. Qed.
Lemma all_chars_get f s n c : all_chars f s = true -> String.get n s = Some c -> f c = true.
Proof.
  revert n. induction s as [|x s IH]; intros n; [by destruct n|]. simpl. intros [Hx Hs]%andb_true_iff.
  destruct n; [by intros [= <-]|by apply IH].
Qed.

Lemma alphabet_at_alphanum i : alphanum (byte_of (alphabet_at i)) = true.
Proof.
  unfold alphabet_at. destruct (String.get _ _) as [c|] eqn:Ec; [|done]. simpl.
  by apply (all_chars_get (fun c => alphanum (byte_of c)) tempPasswordAlphabet (Z.to_nat i)).
Qed.

Lemma temporary_password_well_formed draws : well_formed_password (temporary_password draws).
Proof.
  unfold temporary_password. set (pw := fixed_classes ++ _).
  pose proof (shuffle_perm 15 draws 13 pw) as Hp. set (l := shuffle 15 draws 13 pw) in *.
  assert (Hfix : forall c, c ∈ fixed_classes -> c ∈ l).
  { intros c Hc. rewrite Hp. apply elem_of_app. by left. }
  split; [|split].
  - rewrite length_list, Hp. unfold pw. rewrite length_app, length_fmap, length_seq. done.
  - unfold PasswordClassSatisfied. rewrite String.list_ascii_of_string_of_list_ascii, !andb_true_iff.
    split; [split|].
    + apply (existsb_elem _ _ (alphabet_at 0)); [apply Hfix; set_solver|done].
    + apply (existsb_elem _ _ (alphabet_at 24)); [apply Hfix; set_solver|done].
    + apply (existsb_elem _ _ (alphabet_at 48)); [apply Hfix; set_solver|done].
  - rewrite all_chars_list, forallb_forall. intros c Hc%list_elem_of_In. rewrite Hp in Hc.
    apply elem_of_app in Hc as [Hc|Hc].
    + unfold fixed_classes in Hc. set_unfold. destruct_or! Hc; subst; apply alphabet_at_alphanum.
    + apply list_elem_of_fmap in Hc as (i & -> & _). apply alphabet_at_alphanum.
Qed.

(** * The directory *)

Section Directories.
Context {G : Gorm} {GL : GormLaws G} {P : Platform} {O : ObjectStore} {E : Entropy} {D : Type} {I : KeycloakDirectory D}.
Import KeycloakDirectoryHandler.

Lemma wp_GenerateTemporaryPassword (s : State (D := D)) :
  wp GenerateTemporaryPassword (fun (r : Go string) (s' : State (D := D)) => dy_kc s' = dy_kc s /\
    ((exists msg, r = Panics msg) \/ (exists pw, r = Returns pw /\ well_formed_password pw))) s.
Proof.
  unfold wp, GenerateTemporaryPassword. cbv zeta. cbn [fst snd]. split; [done|].
  match goal with |- context [forallb ?f ?l] => destruct (forallb f l) end; [right|left; by eexists].
  eexists. split; [done|]. apply temporary_password_well_formed.
Qed.

(** The account a creation asks for. *)
Definition asked_account (in_ : createUserReq) (pw : string) (groups : list string) : NewUser :=
  mkNewUser (TrimSpace (cu_Username in_)) (TrimSpace (cu_Email in_)) true ["UPDATE_PASSWORD"] pw groups.

(** C18: an account created without a password gets a generated one that every
    password policy of letters and digits accepts: sixteen characters of the
    alphabet, with a lower-case letter, an upper-case letter and a digit
    whatever the draws are; Keycloak is asked for exactly one account, enabled,
    with this password, to be changed at the first log-in, and the reply
    carries the password that was set.  Where the random source fails nothing
    is asked. *)
Theorem created_account_well_formed in_ groups s :
  cu_InitialPassword in_ = "" -> TrimSpace (cu_Username in_) <> "" ->
  wp (create_user in_ groups) (fun r s' =>
    (exists msg, r = Panics msg /\ dy_kc s' = dy_kc s) \/
    (exists pw, well_formed_password pw /\
       match dir_CreateUser (asked_account in_ pw groups) (dy_kc s) with
       | (Err e, kc) => r = Returns (failDirectory e) /\ dy_kc s' = kc
       | (Ok id, kc) => r = Returns (Created_ (RawDoc (enc_createUserResp (mkCreateUserResp id
           (TrimSpace (cu_Username in_)) (TrimSpace (cu_Email in_)) pw ["UPDATE_PASSWORD"])))) /\ dy_kc s' = kc
       end)) s.
Proof.
  intros Hp Hu. unfold create_user. destruct (empty_string (TrimSpace _)) eqn:Ee; [by apply empty_string_zero in Ee|].
  rewrite Hp. unfold password_or_new. apply wp_bind. simpl empty_string. cbv iota.
  eapply wp_mono; [apply wp_GenerateTemporaryPassword|]. intros r s1 [Hk [[msg ->]|(pw & -> & Hw)]]; [apply wp_ret; left; by eexists|].
  pose proof Hw as (Hl & _). apply wp_bind. rewrite Hl. simpl Z.ltb. cbv iota.
  unfold dir. apply wp_bind, (wp_zoom dy_kc), wp_run. intros r kc Er.
  change (dir_CreateUser (asked_account in_ pw groups) (dy_kc s1) = (r, kc)) in Er. rewrite Hk in Er.
  destruct r as [id|e]; apply wp_ret, wp_ret; right; exists pw; rewrite Er; by split.
Qed.

(** ** Groups that carry an organization *)

(** The group of an organization's members, or of its administrators
    ([OrgService]: "/slug" and "/slug/admins"). *)
Definition carrier_path (slug path : string) : Prop := path = "/" +:+ slug \/ path = "/" +:+ slug +:+ "/admins".

Lemma HasPrefix_before c p s r : lacks c p -> HasPrefix (s +:+ String c r) p = HasPrefix s p.
Proof.
  unfold HasPrefix. revert s. induction p as [|x p IH]; intros s Hp; [by destruct s|].
  apply lacks_String in Hp as [Hx Hp]. destruct s as [|y s]; simpl; [by destruct (ascii_dec x c)|].
  destruct (ascii_dec x y); [|done]. by apply IH.
Qed.

Lemma carrier_org slug path : lacks "/" slug -> slug <> "" -> HasPrefix slug "org:" = false -> carrier_path slug path ->
  HasPrefix path "/org:" = false /\ OrgsFromGroups [path] = [slug].
Proof.
  intros Hl Hne Ho Hp.
  assert (Hpre : HasPrefix path "/org:" = false).
  { destruct Hp as [-> | ->]; [exact Ho|]. change (HasPrefix (slug +:+ "/admins") "org:" = false).
    change (slug +:+ "/admins") with (slug +:+ String "/"%char "admins"). by rewrite HasPrefix_before. }
  split; [exact Hpre|]. unfold OrgsFromGroups. simpl foldl.
  assert (orgSlugFromGroup path = slug) as ->.
  { unfold orgSlugFromGroup, OrgGroupPrefix. rewrite Hpre.
    destruct Hp as [-> | ->]; rewrite TrimPrefix_app; [by rewrite Hl|].
    change (slug +:+ "/admins") with (slug +:+ String "/"%char "admins"). by rewrite cut_app. }
  destruct (empty_string slug) eqn:Ee; [by apply empty_string_zero in Ee|]. done.
Qed.

(** the directory's guard on memberships protects only the carriers of the
    former model: a membership change of a group whose path starts with
    "/org:" is refused without a call to change it; the group that carries an
    organization today, "/slug" or "/slug/admins", passes the guard, and so
    the caller of the directory puts any user into any organization, for that
    is how a token's organizations are read. *)
Theorem membership_guard_exact rq g kc1 slug s :
  dir_GetGroup (dr_Param rq "id") (dy_kc s) = (Ok g, kc1) ->
  let s1 := s <| dy_kc := kc1 |> in
  (HasPrefix (gr_Path g) "/org:" = true ->
     AddGroupMember rq s = (Fail StatusForbidden errCarrierGroup, s1) /\
     RemoveGroupMember rq s = (Fail StatusForbidden errCarrierGroup, s1)) /\
  (lacks "/" slug -> slug <> "" -> HasPrefix slug "org:" = false -> carrier_path slug (gr_Path g) ->
     OrgsFromGroups [gr_Path g] = [slug] /\
     AddGroupMember rq s =
       dir (dir_AddGroupMember (dr_Param rq "id") (dr_Param rq "userId")) (fun _ => ret NoContentReply) s1 /\
     RemoveGroupMember rq s =
       dir (dir_RemoveGroupMember (dr_Param rq "id") (dr_Param rq "userId")) (fun _ => ret NoContentReply) s1).
Proof.
  intros Hg s1. assert (Hguard : forall k, assertMutableGroup rq k s =
    (if HasPrefix (gr_Path g) "/org:" then ret (Fail StatusForbidden errCarrierGroup) else k) s1).
  { intros k. unfold assertMutableGroup, dir, bind, zoom. by rewrite Hg. }
  split; [intros Hp|intros Hl Hne Ho Hc].
  - unfold AddGroupMember, RemoveGroupMember. by rewrite !Hguard, Hp.
  - destruct (carrier_org slug (gr_Path g) Hl Hne Ho Hc) as [Hp Horgs]. split; [done|].
    unfold AddGroupMember, RemoveGroupMember. by rewrite !Hguard, Hp.
Qed.

(** ** A principal that is deleted *)

(** What is left to a subject in the hub. *)
Definition holds_nothing (subjectType id : string) (s : State (D := D)) : Prop :=
  Forall (fun b => prb_SubjectType b = subjectType -> prb_SubjectID b <> id) (rows (a_platform_bindings (dy_admin s))) /\
  Forall (fun b => crb_SubjectType b = subjectType -> crb_SubjectID b <> id) (rows (a_bindings (dy_admin s))) /\
  Forall (fun r => ss_Subject r <> id) (rows (dy_sessions s)).

Definition same_grants (s s' : State (D := D)) : Prop := dy_admin s' = dy_admin s /\ dy_sessions s' = dy_sessions s.

Lemma wp_delete_all {R} `{Model R} now (p : R -> bool) (t : Table R) :
  (forall r, alive r = true) -> (forall r, deleted now r = None) ->
  wp (db_Delete now p) (fun _ t' => healthy t -> Forall (fun r => p r = false) (rows t')) t.
Proof.
  intros Ha Hd. apply wp_Delete; [|by intros]. intros t' _ -> _. apply Forall_forall. intros r Hr.
  unfold delete_rows in Hr. apply list_elem_of_omap in Hr as (x & _ & Hx). rewrite Ha in Hx. simpl in Hx.
  destruct (p x) eqn:Ep; [by rewrite Hd in Hx|]. by injection Hx as <-.
Qed.

Lemma no_pair {R} (f g : R -> string) a b l :
  Forall (fun r => String.eqb (f r) a && String.eqb (g r) b = false) l -> Forall (fun r => f r = a -> g r <> b) l.
Proof. intros Hl. eapply Forall_impl; [exact Hl|]. simpl. intros r Hr Hf Hg. by rewrite Hf, Hg, !String.eqb_refl in Hr. Qed.

Lemma wp_cascade all id subjectType s : id <> "" ->
  wp (cascadeClearForSubject (mkCascadeDeps all all all) subjectType id) (fun _ s' => dy_kc s' = dy_kc s /\
    (all = true -> healthy (a_platform_bindings (dy_admin s)) -> healthy (a_bindings (dy_admin s)) -> healthy (dy_sessions s) ->
       holds_nothing subjectType id s') /\
    (all = false -> s' = s)) s.
Proof.
  intros Hid. unfold cascadeClearForSubject. destruct (empty_string id) eqn:Ee; [by apply empty_string_zero in Ee|].
  destruct all; simpl when; [|by apply wp_bind, wp_ret, wp_bind, wp_ret, wp_ret].
  unfold dropped. apply wp_bind, wp_bind, (wp_zoom dy_admin), wp_on.
  eapply wp_mono; [by apply wp_delete_all|]. intros r1 t1 H1. apply wp_ret.
  apply wp_bind, wp_bind, (wp_zoom dy_admin), wp_on.
  eapply wp_mono; [by apply wp_delete_all|]. intros r2 t2 H2. apply wp_ret.
  apply wp_bind, wp_run. intros now s1 [= <- <-]. apply wp_bind, (wp_zoom dy_sessions). eapply wp_mono; [by apply wp_delete_all|]. intros r3 t3 H3. apply wp_ret.
  split; [done|]. split; [|done]. intros _ Hh1 Hh2 Hh3. split_and!; [by apply no_pair, H1|by apply no_pair, H2|].
  eapply Forall_impl; [exact (H3 Hh3)|]. simpl. intros r Hr Hs. by rewrite Hs, String.eqb_refl in Hr.
Qed.

(** C7: deleting a principal is meant to leave no grant behind, and with the
    repositories wired it leaves none: no platform role, no component role and
    no session of the subject is there when Keycloak is asked to delete the
    account, whatever Keycloak answers.  Made the way [main] makes it, without
    them, the handler leaves every grant and every session in place. *)
Theorem deleted_user_grants rq s :
  let id := dr_Param rq "id" in
  id <> "" ->
  wp (DeleteOrgUser (WithCascade true true true NewKeycloakDirectoryHandler) rq) (fun _ s' =>
    dy_kc s' = (dir_DeleteUser id (dy_kc s)).2 /\
    (healthy (a_platform_bindings (dy_admin s)) -> healthy (a_bindings (dy_admin s)) -> healthy (dy_sessions s) ->
     holds_nothing "user" id s')) s /\
  wp (DeleteOrgUser NewKeycloakDirectoryHandler rq) (fun r s' =>
    dy_kc s' = (dir_DeleteUser id (dy_kc s)).2 /\ same_grants s s' /\
    (is_ok (dir_DeleteUser id (dy_kc s)).1 = true -> rs_Code r = StatusNoContent)) s.
Proof.
  intros id Hid. unfold DeleteOrgUser. cbv zeta. fold id.
  assert (Hdir : forall s1 : State (D := D), dir (dir_DeleteUser id) (fun _ => ret NoContentReply) s1 =
    (match (dir_DeleteUser id (dy_kc s1)).1 with Err e => failDirectory e | Ok _ => NoContentReply end,
     s1 <| dy_kc := (dir_DeleteUser id (dy_kc s1)).2 |>)).
  { intros s1. unfold dir, bind, zoom. destruct (dir_DeleteUser id (dy_kc s1)) as [[u|e] kc]; done. }
  split; apply wp_bind; (eapply wp_mono; [by apply wp_cascade|]); intros [] s1 (Hk & H1 & H2); unfold wp; rewrite Hdir; cbn [fst snd].
  - rewrite Hk. split; [done|]. intros A1 A2 A3. destruct (H1 eq_refl A1 A2 A3) as (?&?&?). by split_and!.
  - rewrite Hk. split; [done|]. rewrite (H2 eq_refl). split; [done|].
    by destruct (dir_DeleteUser id (dy_kc s)) as [[u|e] kc].
Qed.
End Directories.

(** * On a demonstration portal *)

Definition portal_key : string := "0123456789abcdef".
Definition portal_handler : AuthHandler_ :=
  NewAuthHandler "https://kc/realms/sdp" "sdp-login" "https://hub/callback" true "keycloak".

Definition ana_claims : IDTokenClaims := mkIDTokenClaims "sub-ana" "ana" "ana@acme" ["/acme"].
Definition claims_text : string := print_json "," ":" (enc ana_claims).
Definition ana_grant : GrantResult :=
  mkGrantResult "access" ("h." +:+ b64url_encode claims_text +:+ ".s") 300 0 "Bearer" 0.

(** It reads the documents of this portal. *)
#[local] Instance portal_reader : JSONReader := fun s =>
  if String.eqb s claims_text then RawDoc (enc ana_claims)
  else if String.eqb s (print_json "," ":" (enc ["/acme"])) then RawDoc (enc ["/acme"]) else RawEmpty.

#[local] Instance portal_entropy : Entropy := {|
  rand_bytes := fun i n => Ok (replicate n (Z.of_nat i mod 256));
  rand_Int := fun i n => Ok (Z.of_nat i mod n);
|}.

#[local] Existing Instances printed_text marking.
#[local] Existing Instance marking_laws.

(** Ana's realm: her password is "old secret"; it counts what it is asked. *)
#[local] Instance portal_http : HTTP := {|
  Realm := list string;
  http_Do := fun rq r =>
    let asked := r ++ [hr_Method rq +:+ " " +:+ TrimPrefix (hr_URL rq) base] in
    match hr_Method rq, hr_Body rq with
    | "POST", Form values =>
        if existsb (fun kv => String.eqb kv.1 "password" && negb (String.eqb kv.2 "old secret")) values
        then (Ok (mkHttpResponse StatusUnauthorized "" (Marshal (mkKcError "invalid_grant" "Invalid user credentials"))), asked)
        else (ok_reply (Marshal ana_grant), asked)
    | "GET", _ => (ok_reply (Marshal [mkUser "sub-ana" "ana" "" true []]), asked)
    | _, _ => (status_reply 204, asked)
    end;
|}.

#[local] Instance portal_settings : SettingsTable := {|
  KV := gmap string Setting;
  kv_rows := id;
  kv_First := fun k t => (match t !! k with Some row => Ok row | None => Err ErrRecordNotFound end, t);
  kv_Save := fun row t => (Ok tt, <[set_Key row := row]> t);
|}.

Definition portal_kc : KC := mkKC (1000 * Second) [] "" 0.
Definition portal : Portal :=
  mkPortal demo_admin (table []) portal_kc (SettingLoginMode.mkState (∅ : gmap string Setting) "") ∅.
Definition portal_login_page : Portal := (AuthHandler.LoginURL portal_handler portal).2.
Definition issued_state : string := hex_encode (replicate 16 0).
Definition portal_callback : RawJSON := Marshal (mkCodeReq "code" issued_state).
Definition after_callback : Portal :=
  (AuthHandler.SessionCode portal_key demo_client portal_handler portal_callback portal_login_page).2.

(** The callback opens a session; sent again, it is refused. *)
Lemma login_state_single_use_witness :
  rs_Code (AuthHandler.SessionCode portal_key demo_client portal_handler portal_callback portal_login_page).1 = StatusOK /\
  AuthHandler.SessionCode portal_key demo_client portal_handler portal_callback after_callback =
    (Fail StatusBadRequest errLoginState, spent issued_state after_callback).
Proof.
  split; [vm_compute; reflexivity|].
  assert (Hb : UnmarshalE (A := codeReq) portal_callback = Ok (mkCodeReq "code" issued_state)) by (vm_compute; reflexivity).
  assert (Hp : process portal_key demo_client portal_handler
    ([] ++ [Issued (portal_now portal) issued_state (b64url_encode (string_of_bytes (replicate 32 1)))]) portal_login_page).
  { assert (Hs : process portal_key demo_client portal_handler [] portal) by by apply process_start.
    refine (process_page _ _ _ [] portal _ _ _ Hs _ eq_refl). vm_compute. reflexivity. }
  destruct (login_state_single_use _ _ _ _ _ _ _ Hp Hb) as [_ Hreplay].
  refine (Hreplay [] after_callback _ (List.Forall_nil _)).
  exact (process_callback _ _ _ _ _ _ _ Hp Hb).
Defined.

Definition ana_login : RawJSON := Marshal (mkLoginReq "ana" "old secret").
Definition logged_in : Response * Portal := AuthHandler.Login portal_key demo_client portal_handler ana_login portal.
Definition cookie_of (r : Response) : string := default "" (snd <$> head (rs_Headers r)).
Definition with_cookie (r : Response) : Request := mkRequest "GET" "/api/v1/me" (fun _ => "") (fun _ => "")
  (fun name => if String.eqb name "Cookie" then sent_back (cookie_of r) else "") "1.2.3.4".

(** Ana logs in, and her cookie says who she is for eight hours. *)
Lemma login_opens_session_witness :
  rs_Code logged_in.1 = StatusOK /\
  (AuthHandler.sessionVerifier portal_key (with_cookie logged_in.1) logged_in.2).1 =
    Ok (mkSessionIdentity "sub-ana" "ana" ["/acme"] []).
Proof.
  assert (Hok : rs_Code logged_in.1 = StatusOK) by (vm_compute; reflexivity). split; [exact Hok|].
  assert (Hb : UnmarshalE (A := loginReq) ana_login = Ok (mkLoginReq "ana" "old secret")) by (vm_compute; reflexivity).
  destruct (login_opens_session portal_key demo_client portal_handler eq_refl ana_login _ portal Hb) as [_ Hlogin].
  destruct (Hlogin Hok) as (g & claims & row & text & Hg & Hd & Ho & Hr & _ & Hh & Hv).
  assert (g = ana_grant) as -> by (vm_compute in Hg; vm_compute; congruence).
  assert (claims = ana_claims) as -> by (vm_compute in Hd; vm_compute; congruence).
  change (AuthHandler.Login portal_key demo_client portal_handler ana_login portal) with logged_in in *.
  assert (Hrows : rows (po_sessions logged_in.2) = [row]) by exact Hr.
  destruct (Hv (with_cookie logged_in.1) logged_in.2) as [Hlive _].
  - change (sent_back (cookie_of logged_in.1) = sent_back text). unfold cookie_of. rewrite Hh. reflexivity.
  - split; [rewrite Hrows; by left|]. split; [rewrite Hrows; apply NoDup_singleton|vm_compute; constructor].
  - assert (Hid : ss_ID <$> rows (po_sessions logged_in.2) = [1]) by (vm_compute; reflexivity).
    rewrite Hrows in Hid. injection Hid as ->. by split.
  - by split.
  - apply Hlive. vm_compute. reflexivity.
Defined.

(** She logs out. *)
Lemma logout_ends_session_witness :
  let out := AuthHandler.Logout portal_key (with_cookie logged_in.1) logged_in.2 in
  rs_Code out.1 = StatusNoContent /\
  is_ok (AuthHandler.sessionVerifier portal_key (with_cookie logged_in.1) out.2).1 = false.
Proof.
  destruct (logout_ends_session portal_key (with_cookie logged_in.1) 1 logged_in.2) as (Hc & _ & Hr & Hv);
    [vm_compute; reflexivity|intros H; vm_compute in H; discriminate H|vm_compute; constructor|].
  split; [exact Hc|]. apply Hv. apply Forall_forall. intros row Hrow. by apply Hr in Hrow as [_ ?].
Defined.

Definition change_password (old new : string) : RawJSON := Marshal (mkPasswordReq "ana" old new).

(** With a wrong password nothing but the check is asked of the realm; with the
    right one the password changes, and the cookie is still hers. *)
Lemma password_change_vouched_witness :
  let refused := AuthHandler.Password demo_client portal_handler (change_password "guess" "new secret") logged_in.2 in
  let changed := AuthHandler.Password demo_client portal_handler (change_password "old secret" "new secret") logged_in.2 in
  length (kc_realm (po_kc refused.2)) = 2%nat /\ rs_Code refused.1 = StatusUnauthorized /\
  length (kc_realm (po_kc changed.2)) = 7%nat /\ rs_Code changed.1 = StatusOK /\
  (AuthHandler.sessionVerifier portal_key (with_cookie logged_in.1) changed.2).1 =
    (AuthHandler.sessionVerifier portal_key (with_cookie logged_in.1) logged_in.2).1.
Proof.
  assert (Hb : UnmarshalE (A := passwordReq) (change_password "old secret" "new secret") =
    Ok (mkPasswordReq "ana" "old secret" "new secret")) by reflexivity.
  pose proof (password_change_vouched portal_key demo_client portal_handler _ _ logged_in.2 Hb) as Hv.
  destruct (PasswordGrant demo_client _ _ _ _) as [g kc1]. destruct Hv as (_ & _ & _ & Hsession).
  split_and!; [vm_compute; reflexivity..|]. apply Hsession.
Defined.

(** ** The directory *)

(** It answers every call and writes it down; group "g1" carries "acme". *)
Definition noted {A} (call : string) (a : A) : M (list string) (Result A) := fun log => (Ok a, log ++ [call]).
#[local] Instance log_directory : KeycloakDirectory (list string) := {|
  dir_ListUsers := fun _ _ _ => noted "users" [];
  dir_CreateUser := fun u => noted ("create " +:+ nu_Username u +:+ " " +:+ nu_InitialPassword u) "new";
  dir_UpdateUser := fun id _ => noted ("update " +:+ id) tt;
  dir_ResetPassword := fun id _ _ => noted ("reset " +:+ id) tt;
  dir_ListGroups := fun _ => noted "groups" [];
  dir_CreateGroup := fun name => noted ("group " +:+ name) "g9";
  dir_GetGroup := fun id => noted ("get " +:+ id) (mkGroup id "acme" "/acme");
  dir_ListGroupMembers := fun id _ _ => noted ("members " +:+ id) [];
  dir_AddGroupMember := fun g u => noted ("add " +:+ u +:+ " to " +:+ g) tt;
  dir_RemoveGroupMember := fun g u => noted ("remove " +:+ u +:+ " from " +:+ g) tt;
  dir_CreateSubGroup := fun p n => noted ("sub " +:+ p +:+ " " +:+ n) "g8";
  dir_DeleteGroup := fun id => noted ("drop " +:+ id) tt;
  dir_DeleteUser := fun id => noted ("delete " +:+ id) tt;
|}.

Definition ana_session : Session_ := mkSession 1 "ana" "ana" "" "" (9000 * Second) 1 1.
Definition directory : KeycloakDirectoryHandler.State :=
  KeycloakDirectoryHandler.mkState demo_admin (table [ana_session]) ([] : list string).
Definition about (id user : string) : DirRequest :=
  mkDirRequest (fun name => if String.eqb name "id" then id else if String.eqb name "userId" then user else "")
    (fun _ => None) RawEmpty.

Lemma created_account_well_formed_witness :
  exists pw, well_formed_password pw /\
    KeycloakDirectoryHandler.dy_kc (KeycloakDirectoryHandler.create_user (mkCreateUserReq "bob" "" "") [] directory).2 = ["create bob " +:+ pw].
Proof.
  pose proof (created_account_well_formed (mkCreateUserReq "bob" "" "") [] directory eq_refl) as H.
  destruct H as [(msg & H & _)|(pw & Hw & Hr)]; [intros H; vm_compute in H; discriminate H|vm_compute in H; discriminate H|].
  exists pw. split; [exact Hw|]. apply Hr.
Defined.

(** Bob becomes a member of "acme" through the directory. *)
Lemma membership_guard_exact_witness :
  OrgsFromGroups ["/acme"] = ["acme"] /\
  KeycloakDirectoryHandler.dy_kc (KeycloakDirectoryHandler.AddGroupMember (about "g1" "bob") directory).2 = ["get g1"; "add bob to g1"].
Proof.
  assert (Hg : dir_GetGroup (dr_Param (about "g1" "bob") "id") (KeycloakDirectoryHandler.dy_kc directory) =
    (Ok (mkGroup "g1" "acme" "/acme"), ["get g1"])) by (vm_compute; reflexivity).
  destruct (membership_guard_exact (about "g1" "bob") _ _ "acme" directory Hg) as [_ H].
  destruct H as (Ho & Ha & _); [reflexivity|discriminate|reflexivity|by left|].
  split; [exact Ho|]. rewrite Ha. reflexivity.
Defined.

(** Ana's account is deleted; her role on component 7 and her session are not. *)
Lemma deleted_user_grants_witness :
  let meant := KeycloakDirectoryHandler.DeleteOrgUser (WithCascade true true true NewKeycloakDirectoryHandler) (about "ana" "") directory in
  let made := KeycloakDirectoryHandler.DeleteOrgUser NewKeycloakDirectoryHandler (about "ana" "") directory in
  holds_nothing "user" "ana" meant.2 /\ KeycloakDirectoryHandler.dy_kc meant.2 = ["delete ana"] /\
  rs_Code made.1 = StatusNoContent /\ KeycloakDirectoryHandler.dy_kc made.2 = ["delete ana"] /\ same_grants directory made.2 /\
  ~ holds_nothing "user" "ana" made.2.
Proof.
  destruct (deleted_user_grants (about "ana" "") directory) as [[H1 H2] (H3 & H4 & H5)]; [discriminate|].
  split_and!; [apply H2; constructor|exact H1|by apply H5|exact H3|exact H4|].
  intros (_ & _ & Hs). destruct H4 as [_ H4].
  match type of Hs with Forall _ (rows ?t) => change (rows t) with (rows (KeycloakDirectoryHandler.dy_sessions directory)) in Hs end.
  apply Forall_inv in Hs. by apply Hs.
Defined.
