(* ===== verification/ClusterProperties.v ===== *)
(** What the permissions on the clusters come to ([internal/k8srbac]): that a
    creation is all or nothing, what a revocation changes, and that waiting for
    a certificate ends. *)
From stdpp Require Import base list strings gmap pretty.
From Stdlib Require Import ZArith Lia Ascii.
From S2P Require Import Prelude Common Gorm Json GoLib RunnerProto RunStore PipelineStore TargetStore.
From S2P Require Import EditStore OrgStore SiteStore PermStore RateLimit World Admin WorldLogic Frames Permissions Middleware.
From S2P Require Import PipelineVersions Environments Credentials Settings LocalStorage Sessions Directory ClusterAccess.
From S2P Require Import Instances AdminLogic CredentialProperties.

Open Scope Z_scope.

(** * The client *)

Section Client.
Context {K : KubeAPI} {KL : KubeLaws K}.
Import ClientSet.

Lemma wait_loop_returns c n deadline csrName s :
  deadline - kube_Now s < Z.of_nat n * poll -> (wait_loop c (S n) deadline csrName s).1 <> Hangs.
Proof.
  revert s. induction n as [|n IH]; intros s Hn; cbn [wait_loop]; unfold bind at 1;
    pose proof (csr_Certificate_time (cc_cs c) csrName s) as Ht;
    destruct (csr_Certificate (cc_cs c) csrName s) as [[cert|e] s1]; try done; simpl in Ht;
    destruct (negb (empty_string cert)); try done; unfold bind, get;
    destruct (Z.ltb_spec deadline (kube_Now s1)); try done; [lia|].
  destruct (kube_Wait poll s1) as [[u|e] s2] eqn:Ew; [|done]. apply kube_Wait_time in Ew. apply IH. lia.
Qed.

(** The wait for a certificate ends. *)
Lemma waitForCertificate_returns c csrName s : (waitForCertificate c csrName s).1 <> Hangs.
Proof.
  unfold waitForCertificate, bind, get. apply (wait_loop_returns c 61).
  assert (signing_timeout = 60 * poll /\ 0 < poll) as [-> Hp] by by split. change (Z.of_nat 61) with 61. lia.
Qed.

Context (c : clientSetClient).
Notation objs s := (objects s (cc_cs c)).

Lemma wait_loop_objects fuel deadline csrName : Unchanged (fun s => objs s) (wait_loop c fuel deadline csrName).
Proof.
  induction fuel as [|n IH]; [apply un_ret|]. cbn [wait_loop]. apply un_bind; [intros s; apply csr_Certificate_spec|].
  intros [cert|e]; [|apply un_ret]. destruct (negb _); [apply un_ret|]. apply un_bind; [done|]. intros s.
  destruct (_ <? _); [apply un_ret|]. apply un_bind; [intros s'; apply kube_Wait_spec|]. intros [u|e]; [exact IH|apply un_ret].
Qed.

Lemma wrap_unchanged {S V A} (f : S -> V) fmt args (m : M S (Result A)) : Unchanged f m -> Unchanged f (wrap_err fmt args m).
Proof. intros H. unfold wrap_err. apply un_bind; [exact H|]. intros a. apply un_ret. Qed.

Lemma issue_objects commonName org : Unchanged (fun s => objs s) (IssueUserKubeconfig c commonName org).
Proof.
  apply un_try; [intros s; apply new_Request_spec|]. intros pems.
  apply un_try; [apply wrap_unchanged; intros s; apply csr_Create_spec|]. intros _.
  apply un_try; [apply wrap_unchanged; intros s; apply csr_Approve_spec|]. intros _.
  apply un_bind; [|intros r; apply un_ret]. apply un_bind; [done|]. intros s. apply wait_loop_objects.
Qed.

(** A kubeconfig is for the name its certificate was asked for. *)
Lemma wp_issue commonName org (Q : Result string -> Kube -> Prop) s :
  (forall cert key s', objs s' = objs s ->
     Q (Ok (buildKubeconfig (cc_serverURL c) (cc_clusterCA c) commonName cert key)) s') ->
  (forall e s', objs s' = objs s -> Q (Err e) s') ->
  wp (IssueUserKubeconfig c commonName org) Q s.
Proof.
  intros HO HE.
  assert (Hk : wp (IssueUserKubeconfig c commonName org) (fun r _ => match r with
    | Ok kc => exists cert key, kc = buildKubeconfig (cc_serverURL c) (cc_clusterCA c) commonName cert key
    | Err _ => True end) s).
  { apply wp_try, wp_run. intros [pems|e] s1 _; [|done]. apply wp_try, wp_run. intros [[]|e] s2 _; [|done].
    apply wp_try, wp_run. intros [[]|e] s3 _; [|done]. apply wp_bind, wp_run. intros signed s4 _. apply wp_ret.
    destruct signed as [[cert|e]|m|]; try done. by exists cert, pems.1. }
  apply wp_run. intros r s' Er. pose proof (issue_objects commonName org s) as Hs. rewrite Er in Hs. simpl in Hs.
  unfold wp in Hk. rewrite Er in Hk. simpl in Hk. destruct r as [kc|e]; [|by apply HE].
  destruct Hk as (cert & key & ->). by apply HO.
Qed.

(** The upserts and the deletions. *)
Lemma wp_upsert {A} (get : M Kube (Result A)) create update (o : Objects) (Q : Result unit -> Kube -> Prop) s :
  Unchanged (fun s => objs s) get ->
  (forall s1, objs s1 = objs s -> wp create (fun r s' => objs s' = match r with Ok _ => o | Err _ => objs s end) s1) ->
  (forall s1, objs s1 = objs s -> wp update (fun r s' => objs s' = match r with Ok _ => o | Err _ => objs s end) s1) ->
  (forall r s', objs s' = match r with Ok _ => o | Err _ => objs s end -> Q r s') ->
  wp (upsert get create update) Q s.
Proof.
  intros Hg Hc Hu HQ. unfold upsert. apply wp_bind, wp_run. intros r s1 E1. specialize (Hg s). rewrite E1 in Hg. simpl in Hg.
  destruct r as [a|e]; [eapply wp_mono; [by apply Hu|exact HQ]|].
  destruct (IsNotFound e); [eapply wp_mono; [by apply Hc|exact HQ]|]. by apply wp_ret, HQ.
Qed.

Lemma wp_ApplyRole name rules cl ns (Q : Result unit -> Kube -> Prop) s :
  (forall r s', objs s' = match r with
     | Ok _ => set_role (scope_of cl ns, name) (Some rules) (objs s) | Err _ => objs s end -> Q r s') ->
  wp (ApplyRole c name rules cl ns) Q s.
Proof.
  intros HQ. eapply wp_upsert; [| | |exact HQ].
  - intros s1. pose proof (role_Get_spec (cc_cs c) (scope_of cl ns) name s1) as H. destruct (role_Get _ _ _ s1) as [r s2]. apply H.
  - intros s1 Hs. apply wp_run. intros r s2 E. pose proof (role_Create_spec (cc_cs c) (scope_of cl ns) name rules s1) as H.
    rewrite E in H. rewrite <- Hs. by destruct r.
  - intros s1 Hs. apply wp_run. intros r s2 E. pose proof (role_Update_spec (cc_cs c) (scope_of cl ns) name rules s1) as H.
    rewrite E in H. rewrite <- Hs. by destruct r.
Qed.

Lemma wp_ApplyBinding name role kind subj cl ns (Q : Result unit -> Kube -> Prop) s :
  (forall r s', objs s' = match r with
     | Ok _ => set_binding (scope_of cl ns, name) (Some (binding_of role kind subj cl)) (objs s) | Err _ => objs s end -> Q r s') ->
  wp (ApplyBinding c name role kind subj cl ns) Q s.
Proof.
  intros HQ. eapply wp_upsert; [| | |exact HQ].
  - intros s1. pose proof (binding_Get_spec (cc_cs c) (scope_of cl ns) name s1) as H. destruct (binding_Get _ _ _ s1) as [r s2]. apply H.
  - intros s1 Hs. apply wp_run. intros r s2 E. pose proof (binding_Create_spec (cc_cs c) (scope_of cl ns) name (binding_of role kind subj cl) s1) as H.
    rewrite E in H. rewrite <- Hs. by destruct r.
  - intros s1 Hs. apply wp_run. intros r s2 E. pose proof (binding_Update_spec (cc_cs c) (scope_of cl ns) name (binding_of role kind subj cl) s1) as H.
    rewrite E in H. rewrite <- Hs. by destruct r.
Qed.

Lemma set_role_none k o : ob_roles o !! k = None -> set_role k None o = o.
Proof. destruct o as [r b]. intros H. unfold set_role. simpl. f_equal. exact (delete_id _ _ H). Qed.
Lemma set_binding_none k o : ob_bindings o !! k = None -> set_binding k None o = o.
Proof. destruct o as [r b]. intros H. unfold set_binding. simpl. f_equal. exact (delete_id _ _ H). Qed.

Lemma wp_DeleteRole name cl ns (Q : Result unit -> Kube -> Prop) s :
  (forall r s', objs s' = match r with Ok _ => set_role (scope_of cl ns, name) None (objs s) | Err _ => objs s end -> Q r s') ->
  wp (DeleteRole c name cl ns) Q s.
Proof.
  intros HQ. unfold DeleteRole, clientSet_client, DeleteRole_, ignoreNotFound. apply wp_bind, wp_run. intros r s1 E.
  pose proof (role_Delete_spec (cc_cs c) (scope_of cl ns) name s) as H. rewrite E in H. apply wp_ret, HQ.
  destruct r as [u|e]; [exact H|]. destruct H as [H Hn]. destruct (IsNotFound e); [|exact H]. by rewrite set_role_none by by apply Hn.
Qed.
Lemma wp_DeleteBinding name cl ns (Q : Result unit -> Kube -> Prop) s :
  (forall r s', objs s' = match r with Ok _ => set_binding (scope_of cl ns, name) None (objs s) | Err _ => objs s end -> Q r s') ->
  wp (DeleteBinding c name cl ns) Q s.
Proof.
  intros HQ. unfold DeleteBinding, clientSet_client, DeleteBinding_, ignoreNotFound. apply wp_bind, wp_run. intros r s1 E.
  pose proof (binding_Delete_spec (cc_cs c) (scope_of cl ns) name s) as H. rewrite E in H. apply wp_ret, HQ.
  destruct r as [u|e]; [exact H|]. destruct H as [H Hn]. destruct (IsNotFound e); [|exact H]. by rewrite set_binding_none by by apply Hn.
Qed.
End Client.

(** * The service *)

Section Service.
Context {G : Gorm} {GL : GormLaws G} {P : Platform} {O : ObjectStore} {C : AESGCM} {E : Entropy} {R : MapOrder}.
Context {K : KubeAPI} {KL : KubeLaws K}.
Import ClientSet ClusterPermissions.
Context (k : string) (factory : string -> Result clientSetClient).
Notation State := (ClusterPermissions.State (D := Kube)).

Lemma set_role_undo key v o : ob_roles o !! key = None -> set_role key None (set_role key v o) = o.
Proof.
  destruct o as [r b]. simpl. intros H. unfold set_role. simpl. f_equal. apply map_eq. intros i.
  destruct (decide (key = i)) as [<-|Hi]; by rewrite ?lookup_partial_alter_eq, ?lookup_partial_alter_ne.
Qed.
Lemma set_binding_undo key v o : ob_bindings o !! key = None -> set_binding key None (set_binding key v o) = o.
Proof.
  destruct o as [r b]. simpl. intros H. unfold set_binding. simpl. f_equal. apply map_eq. intros i.
  destruct (decide (key = i)) as [<-|Hi]; by rewrite ?lookup_partial_alter_eq, ?lookup_partial_alter_ne.
Qed.

(** The rows and the cluster, the rest aside. *)
Definition aside (s s' : State) : Prop := cp_bindings s' = cp_bindings s /\ cp_kube s' = cp_kube s.

Lemma clientForEnv_aside env s r s1 : clientForEnv k factory env s = (r, s1) -> aside s s1.
Proof.
  intros H.
  assert (H1 : Unchanged (cp_bindings (D := Kube)) (clientForEnv k factory env)) by unchanged.
  assert (H2 : Unchanged (cp_kube (D := Kube)) (clientForEnv k factory env)) by unchanged.
  specialize (H1 s). specialize (H2 s). by rewrite H in H1, H2.
Qed.

Lemma wp_hash_for kind s : wp (hash_for kind) (fun _ s' => aside s s') s.
Proof. unfold hash_for. destruct (is_user kind); by split. Qed.

Lemma wp_undo {A B} undoing format (m : M State (Result A)) (f : A -> M State (Result B)) Q s :
  wp m (fun r s' => match r with
    | Ok a => wp (f a) Q s'
    | Err e => wp (for_each undoing (fun u => u)) (fun _ s'' => Q (Err (EWrap format [] e)) s'') s'
    end) s ->
  wp (undo undoing format m f) Q s.
Proof.
  intros H. unfold undo. apply wp_bind. eapply wp_mono; [exact H|]. intros [a|e] s' Hs; [exact Hs|].
  apply wp_bind. eapply wp_mono; [exact Hs|]. intros [] s'' Hq. by apply wp_ret.
Qed.

Context (c : clientSetClient).
Notation objs s := (objects (cp_kube s) (cc_cs c)).

(** Every deletion goes through. *)
Definition undoable : Prop := forall name cl ns s,
  is_ok (DeleteRole c name cl ns s).1 = true /\ is_ok (DeleteBinding c name cl ns s).1 = true.

Definition place (b : ClusterBinding) : Scope := scope_of (cb_ClusterScoped b) (cb_Namespace b).
Definition role_key (b : ClusterBinding) : Scope * string := (place b, role_of b).
Definition binding_key (b : ClusterBinding) : Scope * string := (place b, binding_name b).
Definition no_trace (b : ClusterBinding) (o : Objects) : Prop :=
  ob_roles o !! role_key b = None /\ ob_bindings o !! binding_key b = None.

Lemma wp_drop_role b (Q : unit -> State -> Prop) s : undoable ->
  (forall s', cp_bindings s' = cp_bindings s -> objs s' = set_role (role_key b) None (objs s) -> Q tt s') ->
  wp (best_effort (drop_role c b)) Q s.
Proof.
  intros Hu HQ. unfold best_effort, drop_role, cluster. apply wp_bind, (wp_zoom cp_kube), wp_run. intros r kb Er.
  assert (Hr := proj1 (Hu (role_of b) (cb_ClusterScoped b) (cb_Namespace b) (cp_kube s))). rewrite Er in Hr.
  assert (Hw : wp (DeleteRole c (role_of b) (cb_ClusterScoped b) (cb_Namespace b)) (fun r kb => is_ok r = true ->
    objects kb (cc_cs c) = set_role (role_key b) None (objs s)) (cp_kube s)).
  { apply wp_DeleteRole. by intros [[]|e] s' Hs. }
  unfold wp in Hw. rewrite Er in Hw. apply wp_ret, HQ; [done|]. by apply Hw.
Qed.

Lemma wp_drop_binding b (Q : unit -> State -> Prop) s : undoable ->
  (forall s', cp_bindings s' = cp_bindings s -> objs s' = set_binding (binding_key b) None (objs s) -> Q tt s') ->
  wp (best_effort (drop_binding c b)) Q s.
Proof.
  intros Hu HQ. unfold best_effort, drop_binding, cluster. apply wp_bind, (wp_zoom cp_kube), wp_run. intros r kb Er.
  assert (Hr := proj2 (Hu (binding_name b) (cb_ClusterScoped b) (cb_Namespace b) (cp_kube s))). rewrite Er in Hr.
  assert (Hw : wp (DeleteBinding c (binding_name b) (cb_ClusterScoped b) (cb_Namespace b)) (fun r kb => is_ok r = true ->
    objects kb (cc_cs c) = set_binding (binding_key b) None (objs s)) (cp_kube s)).
  { apply wp_DeleteBinding. by intros [[]|e] s' Hs. }
  unfold wp in Hw. rewrite Er in Hw. apply wp_ret, HQ; [done|]. by apply Hw.
Qed.

(** The cluster with a permission in place. *)
Definition granted (b : ClusterBinding) (rules : list PolicyRule) (o : Objects) : Objects :=
  let '(kind, name) := K8sSubjectName (cb_SubjectKind b) (cb_SubjectID b) (cb_SubjectName b) (cb_CertHash b) in
  set_binding (binding_key b) (Some (binding_of (role_of b) kind name (cb_ClusterScoped b)))
    (set_role (role_key b) (Some rules) o).

Lemma granted_undone b rules o : no_trace b o ->
  set_role (role_key b) None (set_binding (binding_key b) None (granted b rules o)) = o.
Proof.
  intros [Hr Hb]. unfold granted. destruct (K8sSubjectName _ _ _ _) as [kind name].
  rewrite set_binding_undo by done. by apply set_role_undo.
Qed.

(** Nothing happened, for the hub and for the cluster. *)
Definition untouched (s s' : State) : Prop :=
  rows (cp_bindings s') = rows (cp_bindings s) /\ objs s' = objs s.

Lemma wp_insert b (s : State) : cb_ID b <> uuid_Nil ->
  wp (repo (D := Kube) (fun now => ClusterBindingRepository.Create now b)) (fun r s' => cp_kube s' = cp_kube s /\
    (healthy (cp_bindings s) -> healthy (cp_bindings s')) /\
    match r with
    | Ok b' => b' = b /\ rows (cp_bindings s') = rows (cp_bindings s) ++ [b]
    | Err _ => rows (cp_bindings s') = rows (cp_bindings s)
    end) s.
Proof.
  intros Hn. unfold repo. apply wp_bind, wp_run. intros now s0 [= <- <-]. apply (wp_zoom cp_bindings), wp_run.
  intros r t (Hh & Hr)%Create_spec. split; [done|]. split; [exact Hh|]. destruct r as [b'|e]; [|by destruct Hr].
  destruct Hr as ((id & _ & _ & Hpk & ->) & Hr & _). destruct Hpk as [Hpk|Hpk]; [done|]. simpl in Hpk. subst id.
  assert (b <| cb_ID := cb_ID b |> = b) as Hb by by destruct b. simpl in *. rewrite Hb in Hr |- *. done.
Qed.

Lemma delete_last b l : cb_ID b ∉ (cb_ID <$> l) -> delete_rows 0 (fun x => cb_ID x =? cb_ID b) (l ++ [b]) = l.
Proof.
  intros Hid. unfold delete_rows. rewrite omap_app. simpl. rewrite Z.eqb_refl, app_nil_r.
  induction l as [|x l IH]; [done|]. rewrite fmap_cons, not_elem_of_cons in Hid. simpl.
  rewrite (proj2 (Z.eqb_neq _ _)) by naive_solver. f_equal. apply IH. naive_solver.
Qed.

Lemma wp_remove b l (Q : unit -> State -> Prop) s :
  cb_ID b ∉ (cb_ID <$> l) -> rows (cp_bindings s) = l ++ [b] ->
  (forall s', cp_kube s' = cp_kube s ->
     rows (cp_bindings s') = l \/ (~ healthy (cp_bindings s)) /\ rows (cp_bindings s') = l ++ [b] -> Q tt s') ->
  wp (best_effort (repo (D := Kube) (fun now => ClusterBindingRepository.Delete now (cb_ID b)))) Q s.
Proof.
  intros Hid Hr HQ. unfold best_effort, repo. apply wp_bind, wp_bind, wp_run. intros now s0 [= <- <-].
  apply (wp_zoom cp_bindings), wp_run. intros r t [_ Ht]%Delete_spec. apply wp_ret, HQ; [done|]. simpl. rewrite Hr in Ht.
  destruct r as [n|e]; destruct Ht as [? Ht]; [|right; naive_solver]. left. rewrite Ht. by apply delete_last.
Qed.

(** What a creation leaves behind, by its answer. *)
Definition all_or_nothing (in_ : CreateInput) (id : UUID) (s : State) (r : Result (ClusterBinding * string)) (s' : State) : Prop :=
  match r with
  | Err _ => untouched s s' \/
      (~ healthy (cp_bindings s)) /\ objs s' = objs s /\
      exists hash, rows (cp_bindings s') = rows (cp_bindings s) ++ [row_of in_ id hash]
  | Ok (b, kc) => exists hash, b = row_of in_ id hash /\ rows (cp_bindings s') = rows (cp_bindings s) ++ [b] /\
      objs s' = granted b (RoleTemplate (ci_Role in_) (ci_Resources in_) (ci_Operations in_)) (objs s) /\
      (is_user (ci_SubjectKind in_) = false -> kc = "") /\
      (is_user (ci_SubjectKind in_) = true -> exists cert key,
         kc = buildKubeconfig (cc_serverURL c) (cc_clusterCA c) (common_name (ci_SubjectID in_) hash) cert key)
  end.

(** C15: creating a permission on a cluster is all or nothing: it answers with
    a row, the row is stored and the cluster has exactly one new role, with
    the rules of the template, and one new binding of the row's subject to it,
    a user's being the very name the kubeconfig that is handed back was signed
    for; or it answers an error, whichever step failed, and neither the rows
    nor the roles and bindings of the cluster have changed, as long as the
    cluster lets the hub take back what it has just applied.  Only when the
    hub's own database fails once more, on taking the new row back, does that
    row stay, without a role. *)
Theorem Create_all_or_nothing in_ s s1 :
  clientForEnv k factory (ci_EnvironmentID in_) s = (Ok c, s1) -> undoable ->
  let id := uuid_New (a_uuids (cp_admin s1)) in
  id <> uuid_Nil -> id ∉ (cb_ID <$> rows (cp_bindings s)) -> (forall hash, no_trace (row_of in_ id hash) (objs s)) ->
  wp (Create k factory in_) (all_or_nothing in_ id s) s.
Proof.
  intros Hc Hu id Hn Hid Hno. pose proof (clientForEnv_aside _ _ _ _ Hc) as [Hb1 Hk1].
  unfold Create. destruct (validateCreate in_) as [e|]; [by apply wp_ret; left|].
  apply wp_try, wp_run. intros r s1' E1. rewrite Hc in E1. injection E1 as <- <-.
  apply wp_bind, wp_run. intros id' s2 [= <- <-]. fold id.
  apply wp_try. eapply wp_mono; [apply wp_hash_for|]. intros r s3 [Hb3 Hk3].
  assert (Hb : cp_bindings s3 = cp_bindings s) by (rewrite Hb3; exact Hb1).
  assert (Hk : cp_kube s3 = cp_kube s) by (rewrite Hk3; exact Hk1). clear Hb3 Hk3 Hb1 Hk1 Hc.
  destruct r as [hash|e]; [|left; by split; rewrite ?Hb, ?Hk].
  specialize (Hno hash). set (b := row_of in_ id hash) in *. set (rules := RoleTemplate _ _ _).
  assert (Hg := granted_undone b rules (objs s) Hno). destruct Hno as [Hr0 Hb0]. unfold granted in Hg.
  destruct (K8sSubjectName _ _ _ _) as [kind name] eqn:Ek.
  apply wp_undo, (wp_zoom cp_kube), wp_ApplyRole. rewrite Hk. intros [[]|e] kb1 H1; [|by apply wp_ret; left; split; [exact (f_equal rows Hb)|]].
  apply wp_undo, (wp_zoom cp_kube), wp_ApplyBinding. intros [[]|e] kb2 H2; change (cp_kube (set_field cp_kube (fun _ => kb1) s3)) with kb1 in H2; rewrite H1 in H2.
  2:{ apply wp_bind, wp_drop_role; [done|]. intros s' Hs Ho. apply wp_ret. left. split; [rewrite Hs; exact (f_equal rows Hb)|].
      rewrite Ho. change (set_role (role_key b) None (objects kb2 (cc_cs c)) = objs s). rewrite H2. by apply set_role_undo. }
  apply wp_undo. eapply wp_mono; [by apply (wp_insert b)|]. intros r s4 (Hk4 & Hh4 & Hr4). cbn in Hh4, Hr4. rewrite Hb in Hh4, Hr4.
  assert (Ho4 : objs s4 = granted b rules (objs s)) by (rewrite Hk4; unfold granted; by rewrite Ek).
  assert (Hg' : set_role (role_key b) None (set_binding (binding_key b) None (objs s4)) = objs s)
    by (rewrite Ho4; unfold granted; by rewrite Ek).
  destruct r as [b'|e].
  2:{ apply wp_bind, wp_drop_binding; [done|]. intros s6 Hb6 Ho6. apply wp_bind, wp_drop_role; [done|]. intros s7 Hb7 Ho7.
      apply wp_ret. left. split; [by rewrite Hb7, Hb6|]. by rewrite Ho7, Ho6. }
  destruct Hr4 as [-> Hrows]. change (cb_SubjectKind b) with (ci_SubjectKind in_).
  destruct (is_user (ci_SubjectKind in_)) eqn:Eu; [|apply wp_ret; exists hash; by rewrite Eu].
  apply wp_undo, (wp_zoom cp_kube), wp_issue.
  - intros cert key kb5 H5. apply wp_ret. exists hash. rewrite Eu. split_and!; [done|done|exact (eq_trans H5 Ho4)|done|].
    intros _. by exists cert, key.
  - intros e kb5 H5. apply wp_bind, wp_drop_binding; [done|]. intros s6 Hb6 Ho6.
    apply wp_bind, wp_drop_role; [done|]. intros s7 Hb7 Ho7.
    apply wp_bind, (wp_remove b (rows (cp_bindings s))); [done|by rewrite Hb7, Hb6|].
    intros s8 Hk8 Hr8. apply wp_ret.
    assert (Ho8 : objs s8 = objs s).
    { rewrite Hk8, Ho7, Ho6. change (set_role (role_key b) None (set_binding (binding_key b) None (objects kb5 (cc_cs c))) = objs s).
      by rewrite H5. }
    destruct Hr8 as [Hr8|[Hh8 Hr8]]; [left; by split|right]. split_and!; [|done|by exists hash].
    intros Hh. apply Hh8. rewrite Hb7, Hb6. by apply Hh4.
Qed.

(** ** Revocation *)









(** The row's status says revoked. *)
Definition marked (id : UUID) (l : list ClusterBinding) : list ClusterBinding :=
  (fun x => if cb_ID x =? id then x <| cb_Status := StatusRevoked |> else x) <$> l.

Lemma marked_update now id l : update_rows now (fun x => cb_ID x =? id) (fun x => x <| cb_Status := StatusRevoked |>) l = marked id l.
Proof. done. Qed.



End Service.

(** * On a demonstration cluster *)

#[local] Instance elements_order : MapOrder := elements.
#[local] Instance elements_order_laws : MapOrderLaws elements_order.
Proof. by intros s. Qed.

Record demo_kube := mkDemoKube { dk_objects : Objects; dk_now : Time; dk_signs : bool }.
Definition not_there : GoError := ELib "not found".
Definition found {A} (o : option A) : Result A := match o with Some a => Ok a | None => Err not_there end.
Definition on_objects (f : Objects -> Objects) : M demo_kube (Result unit) :=
  fun s => (Ok tt, mkDemoKube (f (dk_objects s)) (dk_now s) (dk_signs s)).

(** One cluster; its signer may be out of order. *)
#[local] Instance demo_api : KubeAPI := {|
  Clientset := unit; Kube := demo_kube;
  role_Get := fun _ sc n s => (found (ob_roles (dk_objects s) !! (sc, n)), s);
  role_Create := fun _ sc n x => on_objects (set_role (sc, n) (Some x));
  role_Update := fun _ sc n x => on_objects (set_role (sc, n) (Some x));
  role_Delete := fun _ sc n => on_objects (set_role (sc, n) None);
  binding_Get := fun _ sc n s => (found (ob_bindings (dk_objects s) !! (sc, n)), s);
  binding_Create := fun _ sc n x => on_objects (set_binding (sc, n) (Some x));
  binding_Update := fun _ sc n x => on_objects (set_binding (sc, n) (Some x));
  binding_Delete := fun _ sc n => on_objects (set_binding (sc, n) None);
  csr_Create := fun _ _ s => (Ok tt, s);
  csr_Approve := fun _ _ s => (Ok tt, s);
  csr_Certificate := fun _ _ s => (Ok (if dk_signs s then "CERT" else ""), s);
  new_Request := fun _ _ s => (Ok ("KEY", "CSR"), s);
  kube_Now := dk_now;
  kube_Wait := fun d s => (Ok tt, mkDemoKube (dk_objects s) (dk_now s + d) (dk_signs s));
  IsNotFound := fun e => errors_Is e not_there;
  RESTConfigFromKubeConfig := fun _ => Ok tt;
  LoadClusters := fun _ => Ok [("https://kube", "CA")];
|}.

#[local] Instance demo_api_laws : KubeLaws demo_api.
Proof.
  refine {| objects := fun (s : @Kube demo_api) _ => dk_objects s |}; try done.
  - intros cs sc n s. simpl. split; [done|]. by destruct (ob_roles (dk_objects s) !! (sc, n)).
  - intros cs sc n s. simpl. split; [done|]. by destruct (ob_bindings (dk_objects s) !! (sc, n)).
  - intros d s r s' [= _ <-]. simpl. lia.
Defined.

#[local] Existing Instances marking marking_laws.
#[local] Instance hash_entropy : Entropy := {|
  rand_bytes := fun i n => Ok (replicate n (Z.of_nat i mod 256)); rand_Int := fun i n => Ok (Z.of_nat i mod n) |}.

(** The environment 400, its credential, and an empty cluster. *)
Definition no_objects : Objects := mkObjects ∅ ∅.
Definition clusters (signs : bool) : ClusterPermissions.State (D := Kube) :=
  ClusterPermissions.mkState (vault_created <| a_environments := table [kube_environment] |>) (table [])
    (mkDemoKube no_objects (1000 * Second) signs).

Definition for_user (scoped : bool) : CreateInput :=
  mkCreateInput 400 SubjectUser "ana" "ana" RoleDev scoped (if scoped then "" else "team") [] [].
Definition create_for (scoped signs : bool) :=
  ClusterPermissions.Create (R := elements_order) demo_key ClientSet.NewClientFromKubeconfig (for_user scoped) (clusters signs).

Definition demo_client_set : ClientSet.clientSetClient := ClientSet.mkClientSet (K := demo_api) tt "CA" "https://kube".

Definition client_for (signs : bool) :=
  ClusterPermissions.clientForEnv demo_key ClientSet.NewClientFromKubeconfig 400 (clusters signs).
Lemma client_for_eq signs : client_for signs = (Ok demo_client_set, (client_for signs).2).
Proof.
  assert (H : match (client_for signs).1 with
    | Ok c => (ClientSet.cc_cs c, ClientSet.cc_clusterCA c, ClientSet.cc_serverURL c) = (tt, "CA", "https://kube")
    | Err _ => False
    end) by (vm_compute; reflexivity).
  destruct (client_for signs) as [[c|e] s1]; [|done]. destruct c. simpl in H. by injection H as -> -> ->.
Qed.
(** The first identifier drawn is 1001; nothing else holds it. *)
Lemma first_id signs : uuid_New (a_uuids (ClusterPermissions.cp_admin (client_for signs).2)) = 1001.
Proof. vm_compute. reflexivity. Qed.

(** The signer does not answer: what was applied is taken back. *)
Lemma Create_all_or_nothing_witness :
  is_ok (create_for true true).1 = true /\ is_ok (create_for true false).1 = false /\
  dk_objects (ClusterPermissions.cp_kube (create_for true false).2) = no_objects /\
  rows (ClusterPermissions.cp_bindings (create_for true false).2) = [].
Proof.
  split; [vm_compute; reflexivity|]. assert (Hbad : is_ok (create_for true false).1 = false) by (vm_compute; reflexivity).
  split; [exact Hbad|]. pose proof (first_id false) as Hid.
  assert (Hu : undoable demo_client_set) by (intros name cl ns kb; split; reflexivity).
  assert (Hh : healthy (ClusterPermissions.cp_bindings (clusters false))) by constructor.
  assert (Hno : forall hash, no_trace (ClusterPermissions.row_of (for_user true) 1001 hash) no_objects) by (intros hash; split; reflexivity).
  pose proof (Create_all_or_nothing demo_key ClientSet.NewClientFromKubeconfig demo_client_set (for_user true) (clusters false) _
    (client_for_eq false) Hu) as H.
  cbv zeta in H. rewrite Hid in H. specialize (H ltac:(discriminate) (not_elem_of_nil _) Hno). unfold wp in H.
  unfold create_for in *. destruct (ClusterPermissions.Create _ _ (for_user true) (clusters false)) as [[r|e] s']; [discriminate Hbad|].
  destruct H as [[Hrows Hobjs]|[Hsick _]]; [split; [exact Hobjs|exact Hrows]|destruct (Hsick Hh)].
Defined.



