(* ===== verification/HandlerProperties.v ===== *)
(** What the HTTP handlers guarantee: the live log of a run, the identity of a
    decision, the secrets of webhooks, the page of a listing, and what an
    update of a target forgets. *)
From stdpp Require Import base list strings gmap sorting.
From Stdlib Require Import ZArith Lia Ascii.
From S2P Require Import Prelude Common Gorm Json GoLib RunnerProto RunStore PipelineStore TargetStore.
From S2P Require Import EditStore World WorldLogic Frames Middleware RunControl AgentOps Gateway GatewayTheory.
From S2P Require Import Instances ControlProperties RunHandlers ConsoleHandlers.

Open Scope Z_scope.

(** * The live log of a run *)

Section Log.
Context {G : Gorm} {GL : GormLaws G} {P : Platform} {D : Dispatcher} {X : TimeText} {V : MetaV1}.
Import LogStream.

Definition log_le : TaskRunLog -> TaskRunLog -> Prop := by_keys [log_CreatedAt; log_ID].
Definition of_run_log (rid : UUID) (l : TaskRunLog) : Prop := log_PipelineRunID l = rid.
Definition since (t : Time) (l : TaskRunLog) : Prop := t <= log_CreatedAt l.
Definition at_time (t : Time) (l : TaskRunLog) : Prop := log_CreatedAt l = t.
#[local] Instance of_run_log_dec rid l : Decision (of_run_log rid l) := Z.eq_dec _ _.
#[local] Instance since_dec t l : Decision (since t l) := Z.le_dec _ _.
#[local] Instance at_time_dec t l : Decision (at_time t l) := Z.eq_dec _ _.

(** The chunks of the run in the order they are shown. *)
Definition history (rid : UUID) (logs : list TaskRunLog) : list TaskRunLog :=
  merge_sort log_le (filter (of_run_log rid) logs).

Definition chunk_event (l : TaskRunLog) : Sse := mkSse "log" (enc_TaskRunLog l).

(** The stream after the first [n] chunks. *)
Definition shown (h : list TaskRunLog) (n : nat) (st : State) : Prop :=
  sent st = list_to_set (log_ID <$> take n h) /\ out st = chunk_event <$> take n h /\
  cursor st = default time_Zero (log_CreatedAt <$> last (take n h)).

Lemma log_le_time a b : log_le a b -> log_CreatedAt a <= log_CreatedAt b.
Proof. unfold log_le, by_keys. simpl. rewrite orb_true_iff, andb_true_iff, Z.ltb_lt, Z.eqb_eq. lia. Qed.

Lemma log_le_antisym a b : log_le a b -> log_le b a -> log_ID a = log_ID b.
Proof.
  unfold log_le, by_keys. simpl.
  rewrite !orb_true_iff, !andb_true_iff, !Z.ltb_lt, !Z.eqb_eq, !orb_true_iff, !andb_true_iff, !Z.ltb_lt, !Z.eqb_eq. lia.
Qed.

Lemma history_perm rid logs : history rid logs ≡ₚ filter (of_run_log rid) logs.
Proof. apply merge_sort_Permutation. Qed.

Lemma history_sorted rid logs : StronglySorted log_le (history rid logs).
Proof. apply Sorted_StronglySorted; [apply _|]. apply (Sorted_merge_sort log_le). Qed.

Lemma nodup_filter_ids (Q : TaskRunLog -> Prop) `{!forall l, Decision (Q l)} logs :
  NoDup (log_ID <$> logs) -> NoDup (log_ID <$> filter Q logs).
Proof. intros Hn. eapply sublist_NoDup; [exact Hn|]. apply fmap_sublist, sublist_filter. Qed.

Lemma history_ids rid logs : NoDup (log_ID <$> logs) -> NoDup (log_ID <$> history rid logs).
Proof. intros H. rewrite history_perm. by apply nodup_filter_ids. Qed.

Lemma sorted_filter (Q : TaskRunLog -> Prop) `{!forall l, Decision (Q l)} l :
  StronglySorted log_le l -> StronglySorted log_le (filter Q l).
Proof.
  induction 1 as [|x l _ IH Hx]; [constructor|]. rewrite filter_cons. destruct (decide (Q x)); [|done].
  constructor; [done|]. rewrite Forall_forall in Hx |- *. intros y [_ Hy]%list_elem_of_filter. by apply Hx.
Qed.

(** What a tail query answers: the history from the cursor on, a batch of it. *)
Lemma tail_of_history rid t logs res :
  NoDup (log_ID <$> logs) ->
  query_result (LimitQ batch (Order [log_CreatedAt; log_ID]
    (Where (fun l => (log_PipelineRunID l =? rid) && (t <=? log_CreatedAt l))))) logs res ->
  res = take 500 (filter (since t) (history rid logs)).
Proof.
  intros Hn (l' & Hp & Hs & ->). unfold limit_rows. unfold LimitQ, batch in *. cbn -[take drop Z.to_nat] in *.
  change (Z.to_nat 500) with 500%nat. rewrite drop_0. f_equal.
  assert (E : selected (fun l => (log_PipelineRunID l =? rid) && (t <=? log_CreatedAt l)) logs =
              filter (since t) (filter (of_run_log rid) logs)).
  { unfold selected. rewrite list_filter_filter. apply list_filter_iff. intros l.
    unfold since, of_run_log. simpl. rewrite andb_true_iff, Z.eqb_eq, Z.leb_le. tauto. }
  rewrite E in Hp. assert (Hp' : l' ≡ₚ filter (since t) (history rid logs)).
  { rewrite Hp. by rewrite history_perm. }
  apply (Sorted_unique_strong log_le); [|done| |done].
  - intros x1 x2 H1 H2 L1 L2. rewrite Hp' in H1.
    apply list_elem_of_filter in H1 as [_ H1], H2 as [_ H2].
    eapply (key_unique log_ID); [by apply history_ids|done|done|by apply log_le_antisym].
  - apply StronglySorted_Sorted. apply sorted_filter, history_sorted.
Qed.

Lemma filter_all (Q : TaskRunLog -> Prop) `{!forall l, Decision (Q l)} (l : list TaskRunLog) :
  (forall x, x ∈ l -> Q x) -> filter Q l = l.
Proof.
  induction l as [|x l IH]; intros HQ; [done|]. rewrite filter_cons_True by (apply HQ; left).
  f_equal. apply IH. intros y Hy. apply HQ. by right.
Qed.

Lemma filter_length_le (Q1 Q2 : TaskRunLog -> Prop) `{!forall l, Decision (Q1 l), !forall l, Decision (Q2 l)}
    (l : list TaskRunLog) :
  (forall x, x ∈ l -> Q1 x -> Q2 x) -> (length (filter Q1 l) <= length (filter Q2 l))%nat.
Proof.
  induction l as [|x l IH]; intros HQ; [done|]. rewrite !filter_cons.
  assert (IH' : (length (filter Q1 l) <= length (filter Q2 l))%nat) by (apply IH; intros y Hy; apply HQ; by right).
  destruct (decide (Q1 x)) as [H1|], (decide (Q2 x)) as [|H2]; simpl; try lia.
  destruct H2. apply HQ; [left|done].
Qed.

(** No instant carries as many chunks as a batch has room for. *)
Definition spread_out (h : list TaskRunLog) : Prop := forall t, (length (filter (at_time t) h) < 500)%nat.

(** The tail of a stream that has shown [n] chunks: some of them again, fewer
    than a batch, then all the others. *)
Lemma tail_split h n st :
  StronglySorted log_le h -> Forall (since time_Zero) h -> spread_out h -> shown h n st ->
  exists known : list TaskRunLog, (forall x, x ∈ known -> x ∈ take n h) /\ (length known < 500)%nat /\
    filter (since (cursor st)) h = known ++ drop n h.
Proof.
  intros Hs Hz Hc (_ & _ & Ec). exists (filter (since (cursor st)) (take n h)).
  assert (Hd : forall y, y ∈ drop n h -> since (cursor st) y).
  { intros y Hy. rewrite Ec. destruct (last (take n h)) as [x|] eqn:El; simpl.
    - apply log_le_time. rewrite <- (take_drop n h) in Hs. eapply StronglySorted_app_1_elem_of; [exact Hs| |done].
      by apply last_Some_elem_of.
    - rewrite Forall_forall in Hz. apply Hz. rewrite <- (take_drop n h). set_solver. }
  split_and!.
  - intros x Hx. by apply list_elem_of_filter in Hx as [_ Hx].
  - eapply Nat.le_lt_trans; [|apply (Hc (cursor st))]. rewrite <- (take_drop n h) at 2.
    rewrite filter_app, length_app. etransitivity; [|apply Nat.le_add_r].
    apply filter_length_le. intros y Hy Hge. apply Z.le_antisymm; [|exact Hge]. rewrite Ec.
    destruct (last (take n h)) as [x|] eqn:El; simpl.
    + apply last_Some in El as [l' El]. rewrite El in Hy. apply elem_of_app in Hy as [Hy|Hy%list_elem_of_singleton]; [|by subst].
      apply log_le_time. rewrite <- (take_drop n h), El in Hs. apply StronglySorted_app_1_l in Hs.
      eapply StronglySorted_app_1_elem_of; [exact Hs|done|set_solver].
    + apply last_None in El. rewrite El in Hy. set_solver.
  - rewrite <- (take_drop n h) at 1. rewrite filter_app. f_equal. by apply filter_all.
Qed.
(** ** Sending a batch *)

Context (writes : nat -> bool).

Lemma send_known l k st :
  (forall x, x ∈ l -> log_ID x ∈ sent st) -> send_chunks writes l k st = (Some k, st).
Proof.
  induction l as [|x l IH]; intros H; simpl; [done|]. rewrite decide_True by (apply H; left).
  apply IH. intros y Hy. apply H. by right.
Qed.

Lemma send_app l1 l2 k st k' st' :
  send_chunks writes l1 k st = (Some k', st') -> send_chunks writes (l1 ++ l2) k st = send_chunks writes l2 k' st'.
Proof.
  revert k st. induction l1 as [|x l1 IH]; simpl; intros k st E; [by simplify_eq|].
  destruct (decide (log_ID x ∈ sent st)); [by apply IH|].
  destruct (writeEvent writes _ _) as [[] s1]; [by apply IH|done].
Qed.

(** ** The replay always ends *)

Lemma filter_length_lt (Q1 Q2 : TaskRunLog -> Prop) `{!forall l, Decision (Q1 l), !forall l, Decision (Q2 l)}
    (l : list TaskRunLog) x :
  x ∈ l -> Q2 x -> ~ Q1 x -> (forall y, y ∈ l -> Q1 y -> Q2 y) -> (length (filter Q1 l) < length (filter Q2 l))%nat.
Proof.
  intros (l1 & l2 & ->)%list_elem_of_split H2 H1 HQ.
  rewrite !filter_app, !filter_cons, !length_app. rewrite decide_False, decide_True by done. simpl.
  pose proof (filter_length_le Q1 Q2 l1 ltac:(intros; apply HQ; [set_solver|done])).
  pose proof (filter_length_le Q1 Q2 l2 ltac:(intros; apply HQ; [set_solver|done])). lia.
Qed.

(** The chunks of the table that were not sent yet. *)
Definition unsent (st : State) (logs : list TaskRunLog) : nat := length (filter (fun l => log_ID l ∉ sent st) logs).

Lemma send_progress l k st :
  match send_chunks writes l k st with
  | (Some k', st') => sent st ⊆ sent st' /\ ((k < k')%nat -> exists x, x ∈ l /\ log_ID x ∉ sent st /\ log_ID x ∈ sent st')
  | (None, _) => True
  end.
Proof.
  revert k st. induction l as [|x l IH]; intros k st; simpl; [split; [done|lia]|].
  destruct (decide (log_ID x ∈ sent st)) as [Hx|Hx].
  - specialize (IH k st). destruct (send_chunks writes l k st) as [[k'|] st']; [|done].
    destruct IH as [Hs Hf]. split; [done|]. intros Hk. destruct (Hf Hk) as (y & ? & ?). exists y. split; [by right|done].
  - unfold writeEvent. destruct (writes _); simpl; [|done].
    set (st1 := st <| sent := _ |> <| cursor := _ |> <| out := _ |>). specialize (IH (S k) st1).
    destruct (send_chunks writes l (S k) st1) as [[k'|] st']; [|done]. destruct IH as [Hs _].
    assert (Hs1 : {[log_ID x]} ∪ sent st ⊆ sent st') by exact Hs.
    split; [set_solver|]. intros _. exists x. split; [left|]. split; [done|set_solver].
Qed.

Lemma wp_any_round rid st w :
  wp (round writes rid st) (fun r w' => same w w' /\
    (r.1 = More -> (unsent r.2 (rows (w_logs w)) < unsent st (rows (w_logs w)))%nat)) w.
Proof.
  unfold round. apply wp_quiet_and; [unfold StreamLogTail; quiet|]. apply wp_bind. unfold StreamLogTail.
  apply wp_try, (wp_zoom w_runs), wp_First; [|by intros; apply wp_ret].
  intros run t Ht _ _ _. apply (wp_zoom w_logs), wp_Find; [|by intros; apply wp_ret].
  intros l t' _ Hl. apply wp_ret. pose proof (send_progress l 0 st) as Hp.
  destruct (send_chunks writes l 0 st) as [[[|k']|] st']; simpl; try done. intros _.
  destruct Hp as [Hs Hf]. destruct Hf as (x & Hx & Hnew & Hin); [lia|].
  apply (filter_length_lt _ _ _ x); [|done|by intros ?|set_solver].
  by eapply query_result_elem in Hl as (_ & _ & ?).
Qed.

Lemma wp_any_replay rid fuel : forall st w,
  (unsent st (rows (w_logs w)) < fuel)%nat ->
  wp (replay writes fuel rid st) (fun r w' => same w w' /\ exists b st', r = Returns (b, st')) w.
Proof.
  induction fuel as [|fuel IH]; intros st w Hf; [lia|]. simpl. apply wp_bind.
  eapply wp_mono; [apply wp_any_round|]. intros [o st'] w' [Hs Hm]. simpl in Hm.
  destruct o; [|apply wp_ret; eauto|apply wp_ret; eauto].
  assert (El : rows (w_logs w') = rows (w_logs w)) by (by destruct (same_logs _ _ Hs)).
  eapply wp_mono; [apply IH; rewrite El; specialize (Hm eq_refl); lia|].
  intros r w2 [Hs2 H]. split; [by eapply same_trans|done].
Qed.

Context (Hwrites : forall n, writes n = true).

Lemma shown_step h n x rest st :
  drop n h = x :: rest -> shown h n st ->
  shown h (S n) (st <| sent := {[log_ID x]} ∪ sent st |> <| cursor := log_CreatedAt x |>
                    <| out := out st ++ [chunk_event x] |>).
Proof.
  intros Hd (Es & Eo & _).
  assert (Et : take (S n) h = take n h ++ [x]).
  { apply take_S_r. pose proof (lookup_drop h n 0) as Hl. rewrite Hd, Nat.add_0_r in Hl. by symmetry. }
  unfold shown. simpl. rewrite Et, fmap_app, last_snoc, Es, Eo. split_and!; try done.
  - rewrite list_to_set_app_L. simpl. set_solver.
  - by rewrite fmap_app.
Qed.

Lemma send_new h m : NoDup (log_ID <$> h) -> forall n k st,
  shown h n st -> exists st', shown h (n + m) st' /\
    send_chunks writes (take m (drop n h)) k st = (Some (k + length (take m (drop n h)))%nat, st').
Proof.
  intros Hn. induction m as [|m IH]; intros n k st Hs.
  - exists st. rewrite Nat.add_0_r. split; [done|]. simpl. by rewrite Nat.add_0_r.
  - destruct (drop n h) as [|x rest] eqn:Ed.
    + exists st. split; [|simpl; by rewrite Nat.add_0_r].
      assert (length h <= n)%nat by (apply (f_equal length) in Ed; rewrite length_drop in Ed; simpl in Ed; lia).
      unfold shown in *. rewrite !take_ge in * by lia. done.
    + assert (Hx : log_ID x ∉ sent st).
      { destruct Hs as (-> & _). rewrite elem_of_list_to_set. intros Hin.
        rewrite <- (take_drop n h), Ed, fmap_app in Hn. apply NoDup_app in Hn as (_ & Hn & _).
        apply (Hn _ Hin). rewrite fmap_cons. left. }
      simpl. rewrite decide_False by done. unfold writeEvent. rewrite Hwrites.
      assert (Er : rest = drop (S n) h) by (rewrite <- Nat.add_1_r, <- drop_drop, Ed; done).
      destruct (IH (S n) (S k) _ (shown_step h n x rest st Ed Hs)) as (st' & Hs' & E).
      exists st'. split; [by rewrite Nat.add_succ_r|]. rewrite <- Er in E. rewrite Nat.add_succ_r. exact E.
Qed.
(** ** Rounds *)

(** The run is there, its log answers, and every chunk has its own identifier. *)
Record log_ready (rid : UUID) (w : World) : Prop := mkLogReady {
  lr_runs : healthy (w_runs w); lr_logs : healthy (w_logs w);
  lr_run : exists run, run ∈ rows (w_runs w) /\ run_ID run = rid;
  lr_ids : NoDup (log_ID <$> rows (w_logs w));
  lr_times : Forall (since time_Zero) (rows (w_logs w));
  lr_spread : spread_out (history rid (rows (w_logs w))) }.

Lemma log_ready_same rid w w' : same w w' -> log_ready rid w -> log_ready rid w'.
Proof.
  intros Hs [Hr Hl Hrun Hi Ht Hc]. destruct (same_runs _ _ Hs) as [Er Hr'], (same_logs _ _ Hs) as [El Hl'].
  split; rewrite ?Er, ?El; auto.
Qed.

Lemma wp_tail rid st w (Q : Result (list TaskRunLog) -> World -> Prop) :
  log_ready rid w ->
  (forall w', same w w' ->
     Q (Ok (take 500 (filter (since (cursor st)) (history rid (rows (w_logs w)))))) w') ->
  wp (StreamLogTail rid (cursor st) batch) Q w.
Proof.
  intros [Hr Hl (run & Hrun & Hid) Hi _ _] HQ. unfold StreamLogTail.
  apply wp_try, (wp_zoom w_runs), wp_First.
  2: { intros e t _ He Hsel _. exfalso. apply (not_elem_of_nil run). rewrite <- (Hsel (He Hr)).
       apply elem_of_selected. split; [done|]. split; [by apply Z.eqb_eq|done]. }
  intros r t Ht _ _ _. apply (wp_zoom w_logs), wp_Find.
  - intros l t' Ht' Hres. rewrite (tail_of_history _ _ _ _ Hi Hres). apply HQ.
    eapply same_trans; [exact (field_same (proj := w_runs) w t Ht)|].
    exact (field_same (proj := w_logs) _ t' Ht').
  - intros e t' _ Hn. by destruct Hn.
Qed.
Lemma batch_sent rid n st w :
  log_ready rid w -> let h := history rid (rows (w_logs w)) in shown h n st ->
  exists m st', (0 < m <= 500)%nat /\ shown h (n + m) st' /\
    send_chunks writes (take 500 (filter (since (cursor st)) h)) 0 st = (Some (length (take m (drop n h))), st').
Proof.
  intros [_ _ _ Hi Ht Hc] h Hs.
  assert (Hz : Forall (since time_Zero) h).
  { rewrite Forall_forall in Ht |- *. intros x Hx. unfold h in Hx. rewrite history_perm in Hx.
    apply list_elem_of_filter in Hx as [_ Hx]. by apply Ht. }
  destruct (tail_split h n st (history_sorted _ _) Hz Hc Hs) as (known & Hk & Hlen & E).
  destruct (send_new h (500 - length known) (history_ids _ _ Hi) n 0 st Hs) as (st' & Hs' & Es).
  exists (500 - length known)%nat, st'. split; [lia|]. split; [done|].
  rewrite E, take_app, (take_ge known) by lia. erewrite send_app; [exact Es|].
  apply send_known. intros x Hx. destruct Hs as (-> & _). rewrite elem_of_list_to_set.
  by apply list_elem_of_fmap_2, Hk.
Qed.

Lemma wp_round rid n st w :
  log_ready rid w -> let h := history rid (rows (w_logs w)) in shown h n st -> (n <= length h)%nat ->
  wp (round writes rid st) (fun r w' => same w w' /\
    ((n = length h /\ r.1 = Done /\ shown h n r.2) \/
     exists n', (n < n' <= length h)%nat /\ r.1 = More /\ shown h n' r.2)) w.
Proof.
  intros Hw h Hs Hn. unfold round. apply wp_bind, wp_tail; [done|]. intros w' Hsame. apply wp_ret.
  split; [done|]. destruct (batch_sent rid n st w Hw Hs) as (m & st' & Hm & Hs' & E). rewrite E. fold h in Hs', E |- *.
  rewrite length_take, length_drop. destruct (decide (n = length h)) as [->|Hne].
  - left. rewrite Nat.sub_diag, Nat.min_0_r. simpl. split_and!; try done.
    unfold shown in *. rewrite (take_ge h (length h + m)) in Hs' by lia. by rewrite take_ge by lia.
  - right. exists (Nat.min (n + m) (length h)). split; [lia|].
    destruct (Nat.min m (length h - n)) eqn:Em; [lia|]. split; [done|]. simpl.
    destruct (Nat.min_spec (n + m) (length h)) as [[_ ->]|[? ->]]; [done|].
    unfold shown in *. rewrite (take_ge h (n + m)) in Hs' by lia. by rewrite take_ge by lia.
Qed.

Lemma wp_replay rid fuel : forall n st w,
  log_ready rid w -> let h := history rid (rows (w_logs w)) in shown h n st -> (n <= length h)%nat ->
  (length h - n < fuel)%nat ->
  wp (replay writes fuel rid st) (fun r w' => same w w' /\
    exists st', r = Returns (true, st') /\ shown h (length h) st') w.
Proof.
  induction fuel as [|fuel IH]; intros n st w Hw h Hs Hn Hf; [lia|]. simpl.
  apply wp_bind. eapply wp_mono; [by apply (wp_round rid n)|].
  intros [o st'] w' [Hsame [(-> & Ho & Hs')|(n' & Hn' & Ho & Hs')]]; simpl in Ho, Hs'; subst o.
  - apply wp_ret. split; [done|]. by exists st'.
  - assert (El : rows (w_logs w') = rows (w_logs w)) by (by destruct (same_logs _ _ Hsame)).
    specialize (IH n' st' w' (log_ready_same _ _ _ Hsame Hw)). rewrite El in IH.
    eapply wp_mono; [apply IH; [done|lia|unfold h in *; lia]|].
    intros r w2 [Hs2 H]. split; [by eapply same_trans|done].
Qed.
Lemma wp_finish rid run st w :
  log_ready rid w -> NoDup (run_ID <$> rows (w_runs w)) -> run ∈ rows (w_runs w) -> run_ID run = rid ->
  wp (finish writes rid st) (fun r w' => same w w' /\
    r.1 = negb (isTerminalRunPhase (run_Phase run)) /\
    out r.2 = out st ++ (if isTerminalRunPhase (run_Phase run) then [end_event] else [])) w.
Proof.
  intros [Hr _ _ _ _ _] Hnd Hrun Hid. unfold finish, RunControl.Get. apply wp_quiet_and; [quiet|].
  apply wp_bind, (wp_zoom w_runs), wp_First.
  2: { intros e t _ He Hsel _. exfalso. apply (not_elem_of_nil run). rewrite <- (Hsel (He Hr)).
       apply elem_of_selected. split; [done|]. split; [by apply Z.eqb_eq|done]. }
  intros r t _ _ Hq%Z.eqb_eq Hin. apply wp_ret.
  assert (r = run) as -> by (eapply (key_unique run_ID); [exact Hnd|done|done|simpl in Hq; congruence]).
  destruct (isTerminalRunPhase (run_Phase run)); simpl; [|by rewrite app_nil_r].
  unfold writeEvent. by rewrite Hwrites.
Qed.
End Log.

Section LogStreams.
Context {G : Gorm} {GL : GormLaws G} {P : Platform} {D : Dispatcher} {X : TimeText} {V : MetaV1}.
Import LogStream.

(** C12: the live log shows the whole history, each chunk once and in order.
    A request always gets past the history, whatever the database answers and
    whenever the client leaves.  While it reads, and as long as no instant has
    as many chunks as a batch, exactly the chunks of the run have been written,
    by time and then by identifier, followed by the end event when the run is
    over.  A tick adds what comes next, but at most a batch of five hundred:
    when the run is over the stream ends there, and what is left is never
    shown. *)
Theorem log_stream_shows_history rq w :
  (forall writes, wp (StreamLogs writes rq) (fun r w' => same w w' /\ exists a, r = Returns a) w) /\
  (forall writes rid run, parse_uuid (hq_Param rq "id") = Ok rid -> (forall n, writes n = true) ->
     log_ready rid w -> NoDup (run_ID <$> rows (w_runs w)) -> run ∈ rows (w_runs w) -> run_ID run = rid ->
     let h := history rid (rows (w_logs w)) in
     let over := isTerminalRunPhase (run_Phase run) in
     let ending := if over then [end_event] else [] in
     wp (StreamLogs writes rq) (fun r _ => exists st, r = Returns (Streams (negb over) st) /\
       out st = (chunk_event <$> h) ++ ending) w /\
     forall n st, shown h n st ->
       wp (poll writes rid st) (fun r _ => r.1 = negb over /\
         exists m, (0 < m <= 500)%nat /\ out r.2 = (chunk_event <$> take (n + m) h) ++ ending) w).
Proof.
  split.
  - intros writes. unfold StreamLogs, path_uuid. destruct (parse_uuid _) as [rid|e]; [|apply wp_ret; split; [reflexivity|by eexists]].
    apply wp_bind, wp_get, wp_bind. eapply wp_mono; [apply wp_any_replay|].
    { apply Nat.lt_succ_r, length_filter. }
    intros r w' [Hs (b & st & ->)]. destruct b; [|apply wp_ret; split; [done|by eexists]].
    apply wp_bind. eapply wp_mono; [apply (wp_quiet_and _ (fun _ _ => True)); [unfold finish, RunControl.Get; quiet|exact I]|].
    intros f w2 [Hs2 _]. apply wp_ret. split; [by etransitivity|by eexists].
  - intros writes rid run Hid Hwr Hw Hnd Hrun Hrid h over ending. split.
    + unfold StreamLogs, path_uuid. rewrite Hid. apply wp_bind, wp_get, wp_bind.
      eapply wp_mono; [apply (wp_replay writes Hwr rid _ 0); try done; try lia|].
      { rewrite Nat.sub_0_r. apply Nat.lt_succ_r. rewrite history_perm. apply length_filter. }
      intros r w' [Hs (st & -> & Hsh)]. apply wp_bind.
      destruct (same_runs _ _ Hs) as [Er _].
      eapply wp_mono; [apply (wp_finish writes Hwr rid run); rewrite ?Er; try done; by eapply log_ready_same|].
      intros [o st'] w2 (_ & Ho & Eo). apply wp_ret. simpl in Ho, Eo. subst o. exists st'. split; [done|].
      rewrite Eo. destruct Hsh as (_ & -> & _). by rewrite take_ge.
    + intros n st Hsh. unfold poll. apply wp_bind, wp_tail; [done|]. intros w' Hs.
      destruct (batch_sent writes Hwr rid n st w Hw Hsh) as (m & st' & Hm & Hsh' & E). rewrite E.
      destruct (same_runs _ _ Hs) as [Er _].
      eapply wp_mono; [apply (wp_finish writes Hwr rid run); rewrite ?Er; try done; by eapply log_ready_same|].
      intros r w2 (_ & Ho & Eo). split; [done|]. exists m. split; [done|]. rewrite Eo. by destruct Hsh' as (_ & -> & _).
Qed.
End LogStreams.

(** * The page of a listing *)

Section Pages.
Context {G : Gorm} {GL : GormLaws G} {P : Platform} {D : Dispatcher} {X : TimeText}.
Import AgentOpHandler.

Lemma Atoi_range s n : Atoi s = Some n -> - 2 ^ 63 <= n < 2 ^ 63.
Proof.
  unfold Atoi. destruct (match s with EmptyString => _ | _ => _ end) as [z|]; [|done].
  destruct (in_range 64 z) eqn:E; [|done]. intros [= <-]. unfold in_range in E.
  apply andb_true_iff in E as [?%Z.leb_le ?%Z.ltb_lt]. simpl in *. lia.
Qed.

Lemma page_of_bounds rq : 1 <= Page (page_of rq) < 2 ^ 63 /\ 1 <= PageSize (page_of rq) <= 100.
Proof.
  unfold page_of, ParsePagination.
  destruct (Atoi (Query_of rq "page")) as [n|] eqn:E1; [pose proof (Atoi_range _ _ E1)|];
    destruct (Atoi (Query_of rq "pageSize")) as [m|]; simpl; repeat case_match; lia.
Qed.

(** The slice of a page: what a page holds, or a panic. *)
Lemma page_slice {A} (p : Pagination) (l : list A) :
  1 <= PageSize p <= 100 -> Z.of_nat (length l) < 2 ^ 62 ->
  let '(start, stop) := page_bounds p (Z.of_nat (length l)) in
  go_slice l start stop =
    if Offset p <? 0 then Panics "slice bounds out of range"
    else Returns (take (Z.to_nat (PageSize p)) (drop (Z.to_nat (Offset p)) l)).
Proof.
  intros Hp Hl. unfold page_bounds. pose proof (wrap64_range ((Page p - 1) * PageSize p)) as Ho.
  fold (Offset p) in Ho. set (n := Z.of_nat (length l)) in *. assert (0 <= n) by lia.
  rewrite (wrap64_id (Z.min (Offset p) n + PageSize p)) by lia. unfold go_slice. fold n.
  destruct (Offset p <? 0) eqn:Eo.
  - apply Z.ltb_lt in Eo. rewrite Z.min_l by lia. rewrite (proj2 (Z.leb_gt 0 _)) by lia. done.
  - apply Z.ltb_ge in Eo. rewrite !(proj2 (Z.leb_le _ _)) by lia. simpl. f_equal.
    destruct (Z.le_gt_cases (Offset p) n) as [Hle|Hgt].
    + rewrite (Z.min_l (Offset p)) by lia. destruct (Z.le_gt_cases (Offset p + PageSize p) n) as [H1|H1].
      * rewrite Z.min_l by lia. do 2 f_equal. lia.
      * rewrite Z.min_r by lia. rewrite !take_ge; [done| |]; rewrite length_drop; unfold n in *; lia.
    + rewrite (Z.min_r (Offset p)) by lia. rewrite !drop_ge by (unfold n in *; lia). by rewrite !take_nil.
Qed.

(** C40: the ledger's listing is paged exactly.  It holds the operations with
    the status of the query, oldest first, and says how many there are; the
    page has the rows from (page - 1) * pageSize on, a hundred at most, and
    none past the end.  That product is computed in 64 bits: where it wraps to
    a negative number the handler panics, on a request anybody may send, and
    below 2^63 it is the product itself. *)
Theorem ops_page_exact rq w :
  Z.of_nat (length (rows (w_agent_ops w))) < 2 ^ 62 ->
  let p := page_of rq in
  (1 <= PageSize p <= 100 /\ ((Page p - 1) * PageSize p < 2 ^ 63 -> Offset p = (Page p - 1) * PageSize p)) /\
  wp (ListAll rq) (fun r w' => same w w' /\
    ((~ healthy (w_agent_ops w)) /\ (exists e, r = Returns (Fail StatusInternalServerError e)) \/
     exists l, l ≡ₚ selected (fun op => String.eqb (op_Status op) (Query_of rq "status")) (rows (w_agent_ops w)) /\
       Sorted (by_keys [op_CreatedAt]) l /\
       r = if Offset p <? 0 then Panics "slice bounds out of range"
           else Returns (OKPaged (enc_AgentOp <$> take (Z.to_nat (PageSize p)) (drop (Z.to_nat (Offset p)) l))
                           (Z.of_nat (length l)) p))) w.
Proof.
  intros Hl p. destruct (page_of_bounds rq) as [Hp Hs]. fold p in Hp, Hs. split; [split; [done|]|].
  - intros H. apply wrap64_id. nia.
  - unfold ListAll. fold p. apply wp_quiet_and; [unfold AgentOps.ListByStatus; quiet|].
    apply wp_bind. unfold AgentOps.ListByStatus. apply (wp_zoom w_agent_ops), wp_Find.
    + intros l t' _ Hq. apply query_result_nolimit in Hq as [Hperm Hsort]; [|done|done].
      assert (Hn : Z.of_nat (length l) < 2 ^ 62).
      { rewrite (Permutation_length Hperm). unfold selected. pose proof (length_filter
          (fun op => (alive op && String.eqb (op_Status op) (Query_of rq "status")) = true) (rows (w_agent_ops w))).
        simpl in *. lia. }
      pose proof (page_slice p l Hs Hn) as Hsl. destruct (page_bounds p _) as [start stop]. apply wp_ret.
      right. exists l. split_and!; [done|done|]. rewrite Hsl. by destruct (Offset p <? 0).
    + intros e t' _ Hn. apply wp_ret. left. split; [done|by eexists].
Qed.
End Pages.

(** * What an update of a target forgets *)

Section Update.
Context {G : Gorm} {GL : GormLaws G} {P : Platform} {D : Dispatcher} {X : TimeText}.

(** The secret a Runner of this target may dial with. *)
Definition holds (s : string) (t : Target) : Prop := tg_RunnerCredential t = Some s \/ tg_EnrollToken t = Some s.

Lemma fields_ap_eq {A B} (f : Fields (A -> B)) (x : Fields A) kvs :
  fields_ap f x kvs = ((f kvs).1 (x kvs).1, (f kvs).2 && (x kvs).2).
Proof. unfold fields_ap. by destruct (f kvs), (x kvs). Qed.

Lemma dec_target_secrets kvs t ok : @dec _ Codec_Target kvs = (t, ok) ->
  tg_RunnerCredential t = None /\ tg_EnrollToken t = None.
Proof.
  intros E. cbn [dec Codec_Target] in E. unfold dec_struct, dec_base in E.
  destruct kvs; try by injection E as <- _. rewrite !fields_ap_eq in E. by injection E as <- _.
Qed.

Lemma validateAccessMode_secrets t t' : TargetService.validateAccessMode t = Ok t' ->
  tg_ID t' = tg_ID t /\ tg_RunnerCredential t' = tg_RunnerCredential t /\ tg_EnrollToken t' = tg_EnrollToken t.
Proof.
  unfold TargetService.validateAccessMode. intros H. repeat case_match; simplify_eq; done.
Qed.

(** The row a PUT stores, beside the rows of the other targets. *)
Definition replaced_by (stored : Target) (l l' : list Target) : Prop :=
  forall t, t ∈ l' <-> t = stored \/ (t ∈ l /\ tg_ID t <> tg_ID stored).

Lemma wp_Save_target now tg (t : Table Target) :
  wp (TargetRepository.Update now tg) (fun r t' =>
    match r with
    | Ok stored => tg_RunnerCredential stored = tg_RunnerCredential tg /\ tg_EnrollToken stored = tg_EnrollToken tg /\
        replaced_by stored (rows t) (rows t') /\
        (forall x, x ∈ rows t -> tg_ID x = tg_ID tg -> tg_ID stored = tg_ID tg)
    | Err _ => rows t' = rows t
    end) t.
Proof.
  apply wp_run. intros r t' (_ & Hr)%Save_spec. destruct r as [stored|e]; [|by destruct Hr].
  destruct Hr as [(Hin & -> & Hr)|(Hnot & (id & _ & Hid & _ & ->) & Hr)]; simpl in *.
  - split_and!; [done|done| |done]. intros x. rewrite Hr. unfold save_rows. rewrite list_elem_of_fmap. simpl. split.
    + intros (y & -> & Hy). case_bool_decide; [by left|by right].
    + intros [->|[Hx Hne]].
      * apply list_elem_of_fmap in Hin as (y & Hy & Hin). exists y. by rewrite bool_decide_true.
      * exists x. by rewrite bool_decide_false.
  - split_and!; [done|done| |].
    + intros x. rewrite Hr, elem_of_app, list_elem_of_singleton. split; [|naive_solver].
      intros [Hx| ->]; [right|by left]. split; [done|]. intros Heq. apply Hid. simpl in Heq. rewrite <- Heq.
      by apply list_elem_of_fmap_2.
    + intros x Hx Heq. destruct Hnot. rewrite <- Heq. by apply list_elem_of_fmap_2.
Qed.

(** C34: updating a target locks its Runner out.  PUT stores the document it
    is given over the whole row, and the Runner's credential and enroll token
    are never part of a document: after an accepted update the row has
    neither, the other targets are as they were, and with a gateway token
    configured whoever dials with a secret that only this target had is
    refused with 401.  A refused update changes nothing. *)
Theorem target_update_locks_out rq id w :
  parse_uuid (hq_Param rq "id") = Ok id ->
  wp (TargetHandler.Put rq) (fun r w' =>
    (exists e, r = AbortWithError (Some e) /\ rows (w_targets w') = rows (w_targets w)) \/
    exists stored, r = OK_ (RawDoc (enc (Codec := Codec_Target) stored)) /\
      tg_RunnerCredential stored = None /\ tg_EnrollToken stored = None /\
      replaced_by stored (rows (w_targets w)) (rows (w_targets w')) /\
      forall secret, (forall t, t ∈ rows (w_targets w) -> holds secret t -> tg_ID t = id) ->
      forall now gw entropy d, gw <> "" -> gw <> secret -> extractBearer (dial_Authorization d) = secret ->
        exists msg, (authenticate now gw entropy d (w_targets w')).1 = Refused StatusUnauthorized msg) w.
Proof.
  intros Hid. unfold TargetHandler.Put, RegisterCRUD.Put, path_uuid, body_of. rewrite Hid.
  destruct (UnmarshalE _) as [body|e] eqn:Eb; [|apply wp_ret; left; by eexists].
  apply wp_bind. cbn [crud_Update target_crud]. apply (wp_stmt w_targets). unfold TargetService.Update.
  destruct (TargetService.validateAccessMode _) as [tg|e] eqn:Ev; [|apply wp_ret, wp_ret; left; by eexists].
  apply validateAccessMode_secrets in Ev as (Ei & Ec & Et). simpl in Ei, Ec, Et.
  eapply wp_mono; [apply wp_Save_target|]. intros [stored|e] t' Hs; apply wp_ret; [|left; by eexists].
  destruct Hs as (Hc & Ht & Hrows & Hsame). right. exists stored.
  assert (Hb : tg_RunnerCredential body = None /\ tg_EnrollToken body = None).
  { unfold UnmarshalE, Unmarshal in Eb. repeat case_match; simplify_eq; eauto using dec_target_secrets. }
  destruct Hb as [Hb1 Hb2]. split_and!; [done|congruence|congruence|done|].
  intros secret Honly now gw entropy d Hgw Hne Hsec.
  assert (Hnone : forall t, t ∈ rows t' -> ~ holds secret t).
  { intros t Hin Hh. apply Hrows in Hin as [->|[Hin Hdiff]]; [destruct Hh; congruence|].
    apply Hdiff. pose proof (Honly t Hin Hh) as Hti. rewrite Hti. symmetry. rewrite <- Ei.
    apply (Hsame t Hin). congruence. }
  destruct (authenticate now gw entropy d _) as [[status msg|tg' [cred|]] t2] eqn:Ea;
    apply authenticate_sound in Ea; try done; try congruence; simpl in Ea; rewrite ?Hsec in Ea.
  - destruct Ea as [-> _]. by exists msg.
  - destruct Ea as (old & Hold & _ & Hlive & _). exfalso. apply (Hnone old Hold). by right.
  - destruct Ea as (Hin & _ & _ & Hcred & _). exfalso. apply (Hnone tg' Hin). by left.
Qed.
End Update.

(** * The concrete hub *)

#[local] Instance z_times : TimeText := {| time_text := z_text; text_time := z_parse |}.

Definition demo_chunk (id : UUID) (text : string) (at_ : Time) : TaskRunLog :=
  mkTaskRunLog id 52 "compile" "stdout" text (at_ * Second).
(** Run 52 is over; its chunks were stored out of order, two at one instant. *)
Definition log_hub : World :=
  control_hub <| w_logs := table [demo_chunk 93 "done" 903; demo_chunk 91 "go" 901; demo_chunk 92 "build" 901;
                                  mkTaskRunLog 94 50 "gate" "stdout" "wait" (902 * Second)] |>.

Definition demo_http (params : list (string * string)) (body : RawJSON) : HttpRequest :=
  mkHttpRequest (fun n => default "" ((list_to_map params : gmap string string) !! n)) (fun _ => None) (fun _ => "") body.
Definition log_request : HttpRequest := demo_http [("id", uuid_text 52)] RawEmpty.

Lemma log_hub_ready : log_ready 52 log_hub.
Proof.
  split; try done.
  - vm_compute. constructor.
  - vm_compute. constructor.
  - exists (demo_run 52 PipelineRunSucceeded). split; [set_solver|done].
  - apply (bool_decide_unpack _). vm_compute. exact I.
  - repeat constructor; vm_compute; congruence.
  - intros t. eapply Nat.le_lt_trans; [apply length_filter|]. vm_compute. lia.
Qed.

Lemma log_stream_shows_history_witness :
  (forall writes, exists a, (LogStream.StreamLogs writes log_request log_hub).1 = Returns a) /\
  exists st, (LogStream.StreamLogs (fun _ => true) log_request log_hub).1 = Returns (LogStream.Streams false st) /\
    LogStream.out st = (chunk_event <$> [demo_chunk 91 "go" 901; demo_chunk 92 "build" 901; demo_chunk 93 "done" 903])
                         ++ [end_event].
Proof.
  destruct (log_stream_shows_history log_request log_hub) as [Hends Hall]. split.
  - intros writes. exact (proj2 (Hends writes)).
  - exact (proj1 (Hall (fun _ => true) 52 (demo_run 52 PipelineRunSucceeded) eq_refl (fun _ => eq_refl) log_hub_ready
      ltac:(apply (bool_decide_unpack _); vm_compute; exact I) ltac:(set_solver) eq_refl)).
Defined.

(** * Who decides *)

Section Decisions.
Context {G : Gorm} {GL : GormLaws G} {P : Platform} {D : Dispatcher} {DL : DispatcherLaws D} {X : TimeText} {V : MetaV1}.
Import PipelineRunHandler.

(** Every approval of the run was asked for by [u], and its gate has one. *)
Definition asked_by (rid : UUID) (name u : string) (w : World) : Prop :=
  (forall pa, pa ∈ rows (w_approvals w) -> appr_RunID pa = rid -> appr_RequestedBy pa = u) /\
  (forall tr, tr ∈ rows (w_tasks w) -> TaskRunRepository.of_node rid name tr = true ->
     exists pa, pa ∈ rows (w_approvals w) /\ appr_RunID pa = rid /\ appr_TaskRunID pa = Some (task_ID tr)).

Lemma relayed_delivers t m w w' : relayed t m w (Ok tt) w' -> delivered (w_link w') <> delivered (w_link w).
Proof.
  intros [_ H]. destruct (d_send t m (w_link w)).1; [by destruct H|]. destruct H as [_ ->].
  intros E%(f_equal length). rewrite length_app in E. simpl in E. lia.
Qed.

(** C11: the hub takes a decision from whom the body names.  A decision is
    recorded and sent to the Runner under that name, or the caller's where the
    body names nobody, and answered with 200 exactly when it was sent; the
    guard against approving one's own run compares that name.  So who leaves
    the name out cannot decide on a run he asked for, and nothing is recorded
    or sent; but a body that names somebody has the same effect and the same
    answer whoever sends it, the requester of the run included. *)
Theorem decision_identity svc rq c pid rid req w :
  parse_uuid (hq_Param rq "id") = Ok pid -> parse_uuid (hq_Param rq "runId") = Ok rid ->
  UnmarshalE (A := ApprovalDecisionRequest) (hq_Body rq) = Ok req ->
  let name := hq_Param rq "taskName" in
  let who := named_or_subject c (ad_Approver req) in
  wp (Approve svc rq c) (fun r w' =>
    (rs_Code r.1 = StatusOK <-> exists run tr, approvable pid rid name who w run tr /\
       recorded svc rid tr (ad_Approved req) who w w' /\
       relayed (run_TargetID run) (verdict run name who (ad_Approved req)) w (Ok tt) w') /\
    (ad_Approver req = "" -> approvalRepo svc = true -> healthy (w_approvals w) ->
     forall u, CurrentSubject c = Some u -> asked_by rid name u w ->
       rs_Code r.1 = StatusInternalServerError /\ rows (w_approvals w') = rows (w_approvals w) /\
       w_link w' = w_link w)) w /\
  (ad_Approver req <> "" -> forall c', (Approve svc rq c' w).1.1 = (Approve svc rq c w).1.1 /\
     (Approve svc rq c' w).2 = (Approve svc rq c w).2).
Proof.
  intros Hp Hr Hb name who.
  assert (E : forall c, Approve svc rq c =
    (let* r := RunControl.Approve svc pid rid name (ad_Approved req) (named_or_subject c (ad_Approver req)) in
     ret (fail_or StatusInternalServerError r (fun _ => OK_ (RawDoc (JObj
      [("message", JStr "approval decision dispatched"); ("taskName", JStr name);
       ("approved", JBool (ad_Approved req))]))), SetAuditReason c (ad_Reason req) (ad_Ticket req)))).
  { intros c0. unfold Approve, id_of, path_uuid, body_of. by rewrite Hp, Hr, Hb. }
  split.
  - rewrite E. fold who. apply wp_bind. eapply wp_mono; [apply Approve_outcome|].
    intros r w' [_ Hout]. apply wp_ret. cbn [fst].
    assert (Hcode : rs_Code (fail_or StatusInternalServerError r (fun _ => OK_ (RawDoc (JObj
      [("message", JStr "approval decision dispatched"); ("taskName", JStr name);
       ("approved", JBool (ad_Approved req))])))) = if is_ok r then StatusOK else StatusInternalServerError).
    { destruct r as [[]|e]; [done|]. simpl. by destruct e. }
    rewrite Hcode. clear Hcode. split; [split|].
    + destruct r as [[]|e]; [|done]. intros _. destruct Hout as [[? _]|(run & tr & ? & ? & ?)]; [done|]. by exists run, tr.
    + intros (run & tr & _ & _ & Hsent%relayed_delivers).
      destruct Hout as [(_ & _ & El)|(run' & tr' & _ & _ & [_ Hrel])]; [by rewrite El in Hsent|].
      destruct (d_send _ _ _).1; [by destruct Hrel|]. by destruct Hrel as [-> _].
    + intros Hnone Hrepo Hh u Hu [Hall Hsome].
      assert (Ewho : who = u) by (unfold who, named_or_subject, default_str; by rewrite Hnone, Hu).
      destruct Hout as [(Hok & Ea & El)|(run & tr & [_ [Htr Hn] _ _ _] & Hrec & _)]; [by rewrite Hok|].
      exfalso. destruct Hrec as [[_ Hno]|(pa & Hin & Hrun & _ & _ & Hne & _)].
      * destruct (Hsome tr Htr Hn) as (pa & Hin & Hrun & Htask). by apply (Hno Hrepo Hh pa Hin Hrun).
      * apply Hne. rewrite Ewho. by apply Hall.
  - intros Hne c'. rewrite !E. unfold bind, named_or_subject, default_str, empty_string.
    rewrite (proj2 (String.eqb_neq _ _) Hne).
    destruct (RunControl.Approve svc pid rid name (ad_Approved req) (ad_Approver req) w). done.
Qed.
End Decisions.

(** Ana asked for run 50. *)
Definition ana : Context_ := empty_context <| c_subject := Some "ana" |>.
Definition decision_request (approver : string) : HttpRequest :=
  demo_http [("id", uuid_text 10); ("runId", uuid_text 50); ("taskName", "gate")]
    (Marshal (mkApprovalDecisionRequest true approver "" "")).

Lemma ana_asked : asked_by 50 "gate" "ana" control_hub.
Proof.
  split.
  - intros pa Hpa _. simpl in Hpa. set_unfold. by destruct Hpa as [-> | [-> | []]].
  - intros tr Htr _. simpl in Htr. set_unfold. destruct Htr as [-> | []].
    exists (demo_approval 80 50 60 "Pending"). split; [set_solver|done].
Qed.

Lemma decision_identity_witness :
  rs_Code (PipelineRunHandler.Approve demo_service (decision_request "") ana control_hub).1.1 = 500 /\
  rs_Code (PipelineRunHandler.Approve demo_service (decision_request "bob") ana control_hub).1.1 = 200 /\
  (PipelineRunHandler.Approve demo_service (decision_request "bob") empty_context control_hub).1.1 =
  (PipelineRunHandler.Approve demo_service (decision_request "bob") ana control_hub).1.1.
Proof.
  split; [|split; [vm_compute; reflexivity|]].
  - refine (proj1 (proj2 (proj1 (decision_identity demo_service (decision_request "") ana 10 50
      (mkApprovalDecisionRequest true "" "" "") control_hub eq_refl eq_refl eq_refl)) eq_refl eq_refl _ "ana" eq_refl ana_asked)).
    vm_compute. constructor.
  - exact (proj1 (proj2 (decision_identity demo_service (decision_request "bob") ana 10 50
      (mkApprovalDecisionRequest true "bob" "" "") control_hub eq_refl eq_refl eq_refl) ltac:(discriminate) empty_context)).
Defined.

(** * Pages and updates on the concrete hub *)

Definition queued_op (id : UUID) : AgentOp := mkAgentOp id 30 None AgentOpUpgrade AgentOpQueued "v2" "" (500 + id) 5 None.
Definition ops_hub : World := demo <| w_agent_ops := table [queued_op 41; queued_op 40; queued_op 42] |>.
Definition ops_request (page size : string) : HttpRequest :=
  mkHttpRequest (fun _ => "") (fun n => (list_to_map [("status", AgentOpQueued); ("page", page); ("pageSize", size)]
    : gmap string string) !! n) (fun _ => "") RawEmpty.

Lemma ops_page_exact_witness :
  (AgentOpHandler.ListAll (ops_request "2" "2") ops_hub).1 =
    Returns (OKPaged [enc_AgentOp (queued_op 42)] 3 (mkPagination 2 2)) /\
  (AgentOpHandler.ListAll (ops_request "92233720368547760" "100") ops_hub).1 = Panics "slice bounds out of range".
Proof.
  split; [vm_compute; reflexivity|].
  destruct (ops_page_exact (ops_request "92233720368547760" "100") ops_hub ltac:(vm_compute; reflexivity)) as [_ [_ H]].
  destruct H as [[Hsick _]|(l & _ & _ & Hr)]; [destruct Hsick; vm_compute; constructor|]. exact Hr.
Defined.

Definition lab : Target := (demo_target 31 "lab" TargetStatusOnline) <| tg_RunnerCredential := Some "secret" |>.
Definition lab_hub : World := demo <| w_targets := table [demo_target 30 "edge" TargetStatusOnline; lab] |>.
Definition rename_lab : HttpRequest :=
  demo_http [("id", uuid_text 31)] (RawDoc (JObj [("name", JStr "lab"); ("vendor", JStr "acme"); ("region", JStr "us")])).
Definition lab_dial : Dial := mkDial "Bearer secret" "lab" "" "".

Lemma target_update_locks_out_witness :
  (authenticate 50 "hub-token" (Ok "cred") lab_dial (w_targets lab_hub)).1 = Accepted lab None /\
  exists msg, (authenticate 50 "hub-token" (Ok "cred") lab_dial (w_targets (TargetHandler.Put rename_lab lab_hub).2)).1
    = Refused StatusUnauthorized msg.
Proof.
  split; [vm_compute; reflexivity|].
  destruct (target_update_locks_out rename_lab 31 lab_hub eq_refl) as [(e & _ & Hsame)|(stored & _ & _ & _ & _ & H)].
  - exfalso. revert Hsame. vm_compute. discriminate.
  - apply (H "secret"); [|discriminate|discriminate|reflexivity].
    intros t Hin Hh. simpl in Hin. set_unfold. destruct Hin as [-> | [-> | []]]; [|reflexivity]. by destruct Hh.
Defined.
