(* ===== verification/UpkeepProperties.v ===== *)
(** What the retention job deletes and keeps, what a
    notification subscription can and cannot do, and what a search finds. *)
From stdpp Require Import base list strings gmap sorting.
From Stdlib Require Import ZArith Lia Ascii.
From S2P Require Import Prelude Common Gorm Json GoLib RunnerProto RunStore PipelineStore TargetStore.
From S2P Require Import EditStore OrgStore SiteStore PermStore RateLimit World Admin Middleware.
From S2P Require Import WorldLogic Frames AdminLogic Instances RunHandlers Upkeep.

Open Scope Z_scope.

(** * Retention *)

Section Retire.
Context {G : Gorm} {GL : GormLaws G} {P : Platform}.
Import Retention.

(** Rows that are really deleted. *)
Lemma hard_delete {R} `{Model R} now (p : R -> bool) (l : list R) :
  (forall r, alive r = true) -> (forall r, deleted now r = None) ->
  delete_rows now p l = filter (fun r => p r = false) l.
Proof.
  intros Ha Hd. unfold delete_rows. induction l as [|r l IH]; [done|]. rewrite filter_cons, <- IH. cbn. rewrite Ha, Hd.
  by destruct (p r).
Qed.

Lemma wp_hard_delete {R} `{Model R} now p (t : Table R) (Q : Result Z -> Table R -> Prop) :
  (forall r, alive r = true) -> (forall r, deleted now r = None) ->
  (forall r t', (healthy t -> healthy t' /\ is_ok r = true) ->
     rows t' = (if is_ok r then filter (fun x => p x = false) (rows t) else rows t) -> Q r t') ->
  wp (db_Delete now p) Q t.
Proof.
  intros Ha Hd HQ. apply wp_Delete.
  - intros t' Hh Hr. apply HQ; [by intros ?; split; [apply Hh|]|]. by rewrite Hr, hard_delete.
  - intros e t' [Hr Hh] Hn. apply HQ; [by intros ?|done].
Qed.

Definition named_by (ids : list UUID) (r : PipelineRun) : bool := bool_decide (run_ID r ∈ ids).

(** What one pass over the runs does. *)
Definition runs_retired (g : RetentionGC) (now : Time) (s s' : State) : Prop :=
  rt_artifacts s' = rt_artifacts s /\
  exists found : list PipelineRun,
    (forall r, r ∈ found -> r ∈ rows (rt_runs s) /\ 0 < RunLogDays g /\ retired (cutoff now (RunLogDays g)) r = true) /\
    (rows (rt_runs s') = rows (rt_runs s) \/
     rows (rt_runs s') = filter (fun r => run_ID r ∉ (run_ID <$> found)) (rows (rt_runs s))) /\
    (rows (rt_tasks s') = rows (rt_tasks s) \/
     rows (rt_tasks s') = filter (fun t => task_PipelineRunID t ∉ (run_ID <$> found)) (rows (rt_tasks s))).

Lemma filter_not_named {R} (key : R -> UUID) (ids : list UUID) (l : list R) :
  filter (fun r => bool_decide (key r ∈ ids) = false) l = filter (fun r => key r ∉ ids) l.
Proof. apply list_filter_iff. intros r. by rewrite bool_decide_eq_false. Qed.

Lemma wp_retire_runs g now s : wp (retire_runs g now) (fun _ s' => runs_retired g now s s') s.
Proof.
  assert (Hsame : forall s', rows (rt_runs s') = rows (rt_runs s) -> rows (rt_tasks s') = rows (rt_tasks s) ->
    rt_artifacts s' = rt_artifacts s -> runs_retired g now s s').
  { intros s' Hr Ht Ha. split; [done|]. exists []. split_and!; [set_solver|by left|by left]. }
  unfold retire_runs. destruct (Z.leb_spec (RunLogDays g) 0); [by apply wp_ret, Hsame|].
  apply wp_bind, (wp_zoom rt_runs), wp_Find; [|intros e t [Hr _] _; by apply wp_ret, Hsame].
  intros l t [Hr _] Hq. destruct l as [|x l]; [by apply wp_ret, Hsame|].
  set (found := x :: l) in *. unfold delete_runs. fold found.
  apply wp_bind, (wp_zoom rt_tasks), wp_hard_delete; [done..|]. intros r1 t1 _ Ht1.
  apply wp_bind, (wp_zoom rt_runs), wp_hard_delete; [done..|]. intros r2 t2 _ Ht2. apply wp_ret.
  simpl in *. rewrite filter_not_named in Ht1. rewrite filter_not_named in Ht2. rewrite Hr in Ht2. split; [done|].
  exists found. split_and!.
  - intros r Hin. eapply query_result_elem in Hq as (_ & Hw & ?); [|exact Hin]. unfold LimitQ in Hw. by destruct (0 <? Batch g).
  - simpl. rewrite Ht2. destruct (is_ok r2); auto.
  - simpl. rewrite Ht1. destruct (is_ok r1); auto.
Qed.

(** ** Artifacts *)

(** A later row of the same component, or one of the same instant. *)
Definition newer (a b : Artifact) : Prop :=
  art_ComponentID b = art_ComponentID a /\ art_CreatedAt a <= art_CreatedAt b /\ art_ID b <> art_ID a.
#[local] Instance newer_dec a b : Decision (newer a b).
Proof. unfold newer. apply _. Defined.

Lemma beyond_spec n id l : forall seen, id ∈ beyond n seen l -> exists l1 a l2, l = l1 ++ a :: l2 /\ art_ID a = id /\
  n <= Z.of_nat (length (filter (fun b => of_component_row a b = true) (seen ++ l1))).
Proof.
  induction l as [|a l IH]; intros seen Hid; simpl in Hid; [set_solver|].
  assert (Hrest : id ∈ beyond n (seen ++ [a]) l -> exists l1 a0 l2, a :: l = l1 ++ a0 :: l2 /\ art_ID a0 = id /\
    n <= Z.of_nat (length (filter (fun b => of_component_row a0 b = true) (seen ++ l1)))).
  { intros (l1 & a0 & l2 & -> & Ha & Hn)%IH. exists (a :: l1), a0, l2. split_and!; [done|done|].
    by rewrite <- app_assoc in Hn. }
  destruct (n <=? _) eqn:E; [|by apply Hrest]. apply elem_of_cons in Hid as [->|Hid]; [|by apply Hrest].
  exists [], a, l. rewrite app_nil_r. split_and!; [done|done|by apply Z.leb_le].
Qed.

Lemma length_filter_le {R} (Q1 Q2 : R -> Prop) `{!forall l, Decision (Q1 l), !forall l, Decision (Q2 l)} (l : list R) :
  (forall x, x ∈ l -> Q1 x -> Q2 x) -> (length (filter Q1 l) <= length (filter Q2 l))%nat.
Proof.
  induction l as [|x l IH]; intros HQ; [done|]. rewrite !filter_cons.
  assert (IH' := IH (fun y Hy => HQ y (list_elem_of_further y x l Hy))).
  destruct (decide (Q1 x)) as [H1|], (decide (Q2 x)) as [|H2]; simpl; try lia.
  destruct H2. apply HQ; [left|done].
Qed.

(** How many artifacts a component has. *)
Definition versions (c : UUID) (l : list Artifact) : Z :=
  Z.of_nat (length (filter (fun a => art_ComponentID a = c) l)).

(** No component has more artifacts than it may keep. *)
Definition trimmed (g : RetentionGC) (s : State) : Prop :=
  healthy (rt_artifacts s) /\ (0 < ArtifactVersions g -> forall c, versions c (rows (rt_artifacts s)) <= ArtifactVersions g).

Lemma versions_seen a seen :
  Z.of_nat (length (filter (fun b => of_component_row a b = true) seen)) = versions (art_ComponentID a) seen.
Proof. unfold versions. do 2 f_equal. apply list_filter_iff. intros b. unfold of_component_row. rewrite Z.eqb_eq. done. Qed.

Lemma versions_of_app c l1 l2 : versions c (l1 ++ l2) = versions c l1 + versions c l2.
Proof. unfold versions. rewrite filter_app, length_app. lia. Qed.

Lemma versions_one c a : versions c [a] = if decide (art_ComponentID a = c) then 1 else 0.
Proof. unfold versions. rewrite filter_cons. by destruct (decide _). Qed.

Lemma versions_mono c (Q1 Q2 : Artifact -> Prop) `{!forall a, Decision (Q1 a), !forall a, Decision (Q2 a)} l :
  (forall a, Q1 a -> Q2 a) -> versions c (filter Q1 l) <= versions c (filter Q2 l).
Proof.
  intros HQ. unfold versions. rewrite !list_filter_filter. apply inj_le, length_filter_le. intros a _ [? ?]. auto.
Qed.

Lemma beyond_kept n c l : forall seen,
  versions c (filter (fun a => art_ID a ∉ beyond n seen l) l) <= Z.max 0 (n - versions c seen).
Proof.
  induction l as [|a l IH]; intros seen; [unfold versions; simpl; lia|].
  specialize (IH (seen ++ [a])). rewrite versions_of_app, versions_one in IH. rewrite filter_cons.
  assert (Hl : versions c (filter (fun b => art_ID b ∉ beyond n seen (a :: l)) l) <=
               versions c (filter (fun b => art_ID b ∉ beyond n (seen ++ [a]) l) l)).
  { apply versions_mono. intros b Hb Hin. apply Hb. simpl. destruct (n <=? _); [by right|done]. }
  destruct (decide (art_ID a ∉ _)) as [Hno|]; [|destruct (decide (art_ComponentID a = c)); lia].
  rewrite <- (app_nil_l (filter _ l)), app_comm_cons, versions_of_app, versions_one.
  destruct (decide (art_ComponentID a = c)) as [<-|]; [|lia].
  simpl in Hno. rewrite versions_seen in Hno. destruct (Z.leb_spec n (versions (art_ComponentID a) seen)); [set_solver|lia].
Qed.

Definition artifacts_rolled (g : RetentionGC) (s s' : State) : Prop :=
  rt_runs s' = rt_runs s /\ rt_tasks s' = rt_tasks s /\
  exists gone : list UUID,
    (rows (rt_artifacts s') = rows (rt_artifacts s) \/
     rows (rt_artifacts s') = filter (fun a => art_ID a ∉ gone) (rows (rt_artifacts s))) /\
    (NoDup (art_ID <$> rows (rt_artifacts s)) -> forall a, a ∈ rows (rt_artifacts s) -> art_ID a ∈ gone ->
       0 < ArtifactVersions g /\ ArtifactVersions g <= Z.of_nat (length (filter (newer a) (rows (rt_artifacts s))))) /\
    (healthy (rt_artifacts s) -> trimmed g s').

Lemma beyond_newer n l all a :
  l ≡ₚ all -> Sorted (by_keys [fun a => - art_CreatedAt a]) l -> NoDup (art_ID <$> all) -> a ∈ all ->
  art_ID a ∈ beyond n [] l -> n <= Z.of_nat (length (filter (newer a) all)).
Proof.
  intros Hp Hs Hnd Ha (l1 & a0 & l2 & -> & Hid & Hn)%beyond_spec. simpl in Hn.
  assert (Ha0 : a0 ∈ all) by (rewrite <- Hp; set_solver).
  assert (a0 = a) as -> by (by apply (key_unique art_ID all)).
  assert (Hnd' : NoDup (art_ID <$> l1 ++ a :: l2)) by (by rewrite Hp).
  rewrite <- Hp, filter_app, length_app. apply Sorted_StronglySorted in Hs; [|apply _].
  etransitivity; [exact Hn|]. apply inj_le. etransitivity; [|apply Nat.le_add_r]. apply length_filter_le.
  intros b Hb Hc. unfold of_component_row in Hc. apply Z.eqb_eq in Hc. split; [done|]. split.
  - pose proof (StronglySorted_app_1_elem_of _ _ _ _ _ Hs Hb (list_elem_of_here a l2)) as Hle. unfold by_keys in Hle. simpl in Hle.
    apply orb_true_iff in Hle as [Hle%Z.ltb_lt|[Hle%Z.eqb_eq _]%andb_true_iff]; lia.
  - intros Heq. rewrite fmap_app, fmap_cons in Hnd'. apply NoDup_app in Hnd' as (_ & Hnd' & _).
    apply (Hnd' (art_ID b)); [by apply list_elem_of_fmap_2|]. rewrite Heq. left.
Qed.

Lemma all_artifacts (l : list Artifact) : selected (fun _ => true) l = l.
Proof. unfold selected. simpl. induction l as [|x l IH]; [done|]. rewrite filter_cons_True by done. by f_equal. Qed.

Lemma wp_roll_artifacts g now s : wp (roll_artifacts g now) (fun _ s' => artifacts_rolled g s s') s.
Proof.
  unfold roll_artifacts. destruct (Z.leb_spec (ArtifactVersions g) 0).
  { apply wp_ret. split_and!; [done|done|]. exists []. split_and!; [by left|set_solver|]. intros Hh. split; [done|lia]. }
  apply wp_bind, (wp_zoom rt_artifacts), wp_Find.
  - intros l t [Hr Hh] Hq. apply query_result_nolimit in Hq as [Hp Hs]; [|done|done]. rewrite all_artifacts in Hp.
    apply wp_bind, (wp_zoom rt_artifacts), wp_hard_delete; [done..|]. intros r t2 H2 Ht2. apply wp_ret.
    simpl in *. rewrite filter_not_named, Hr in Ht2. split_and!; [done|done|].
    exists (beyond (ArtifactVersions g) [] l). split_and!; [simpl; rewrite Ht2; destruct (is_ok r); auto| |].
    + intros Hnd a Ha Hgone. split; [done|]. by eapply beyond_newer.
    + intros Ha. destruct (H2 (Hh Ha)) as [Hh2 Hok]. split; [done|]. intros _ c. simpl. rewrite Ht2, Hok.
      pose proof (beyond_kept (ArtifactVersions g) c l []) as Hk. unfold versions in *. simpl in Hk. rewrite <- Hp. lia.
  - intros e t [Hr _] Hn. apply wp_ret. split_and!; [done|done|]. exists []. split_and!; [by left|set_solver|done].
Qed.

(** ** Passes *)

Fixpoint passes (g : RetentionGC) (nows : list Time) : M State unit :=
  match nows with [] => ret tt | now :: nows' => collectOnce g now ;;; passes g nows' end.

(** A run that was over long enough at one of the instants. *)
Definition retired_at (g : RetentionGC) (nows : list Time) (r : PipelineRun) : Prop :=
  0 < RunLogDays g /\ exists now, now ∈ nows /\ retired (cutoff now (RunLogDays g)) r = true.

Record safe (g : RetentionGC) (nows : list Time) (s s' : State) : Prop := mkSafe {
  safe_fewer : rows (rt_runs s') `sublist_of` rows (rt_runs s) /\ rows (rt_tasks s') `sublist_of` rows (rt_tasks s) /\
    rows (rt_artifacts s') `sublist_of` rows (rt_artifacts s);
  safe_runs : forall r, r ∈ rows (rt_runs s) -> r ∈ rows (rt_runs s') \/ retired_at g nows r;
  safe_tasks : forall t, t ∈ rows (rt_tasks s) -> t ∈ rows (rt_tasks s') \/
    exists r, r ∈ rows (rt_runs s) /\ run_ID r = task_PipelineRunID t /\ retired_at g nows r;
  safe_artifacts : forall a, a ∈ rows (rt_artifacts s) -> a ∈ rows (rt_artifacts s') \/
    0 < ArtifactVersions g /\ ArtifactVersions g <= Z.of_nat (length (filter (newer a) (rows (rt_artifacts s)))) }.

Lemma sublist_filter_mono {A} (Q : A -> Prop) `{!forall x, Decision (Q x)} (l1 l2 : list A) :
  l1 `sublist_of` l2 -> filter Q l1 `sublist_of` filter Q l2.
Proof.
  induction 1; [done| |]; rewrite !filter_cons; destruct (decide (Q x)); try done; by constructor.
Qed.

Lemma retired_at_app g n1 n2 r : retired_at g n1 r \/ retired_at g n2 r -> retired_at g (n1 ++ n2) r.
Proof. intros [[H (now & ? & ?)]|[H (now & ? & ?)]]; (split; [done|]; exists now; set_solver). Qed.

Lemma safe_trans g n1 n2 s s1 s2 : safe g n1 s s1 -> safe g n2 s1 s2 -> safe g (n1 ++ n2) s s2.
Proof.
  intros [(Fr & Ft & Fa) Hr Ht Ha] [(Fr' & Ft' & Fa') Hr' Ht' Ha']. split.
  - split_and!; by etransitivity.
  - intros r [Hin|?]%Hr; [|right; apply retired_at_app; auto].
    destruct (Hr' r Hin) as [|?]; [by left|right; apply retired_at_app; auto].
  - intros t [Hin|(r & ? & ? & ?)]%Ht; [|right; exists r; split_and!; [done|done|apply retired_at_app; auto]].
    destruct (Ht' t Hin) as [|(r & Hin' & ? & ?)]; [by left|right]. exists r.
    split_and!; [by eapply elem_of_sublist|done|apply retired_at_app; auto].
  - intros a [Hin|?]%Ha; [|by right]. destruct (Ha' a Hin) as [|[? Hn]]; [by left|right]. split; [done|].
    etransitivity; [exact Hn|]. apply inj_le, sublist_length, sublist_filter_mono, Fa.
Qed.

Lemma wp_collectOnce g now s :
  NoDup (run_ID <$> rows (rt_runs s)) -> NoDup (art_ID <$> rows (rt_artifacts s)) ->
  wp (collectOnce g now) (fun _ s' => safe g [now] s s' /\ (healthy (rt_artifacts s) -> trimmed g s')) s.
Proof.
  intros Hnr Hna. unfold collectOnce. apply wp_bind. eapply wp_mono; [apply wp_retire_runs|].
  intros _ s1 (Ea & found & Hf & Hr & Ht). eapply wp_mono; [apply wp_roll_artifacts|].
  intros _ s2 (Er2 & Et2 & gone & Ha & Hg & Htrim). rewrite Ea in Ha, Hg, Htrim. rewrite <- Er2 in Hr. rewrite <- Et2 in Ht.
  specialize (Hg Hna). split; [split|exact Htrim].
  - split_and!; [destruct Hr as [->| ->]|destruct Ht as [->| ->]|destruct Ha as [->| ->]]; try done; apply sublist_filter.
  - intros r Hin. destruct (decide (run_ID r ∈ (run_ID <$> found))) as [(r' & Heq & Hr')%list_elem_of_fmap|]; [right|left].
    + destruct (Hf r' Hr') as (Hin' & ? & ?). assert (r = r') as -> by (by apply (key_unique run_ID (rows (rt_runs s)))).
      split; [done|]. exists now. set_solver.
    + destruct Hr as [->| ->]; [done|]. by apply list_elem_of_filter.
  - intros t Hin. destruct (decide (task_PipelineRunID t ∈ (run_ID <$> found))) as [Hi|]; [right|left].
    + apply list_elem_of_fmap in Hi as (r & Heq & Hrf). destruct (Hf r Hrf) as (Hin' & ? & ?).
      exists r. split_and!; [done|done|]. split; [done|]. exists now. set_solver.
    + destruct Ht as [->| ->]; [done|]. by apply list_elem_of_filter.
  - intros a Hin. destruct (decide (art_ID a ∈ gone)); [right; by apply Hg|left].
    destruct Ha as [->| ->]; [done|]. by apply list_elem_of_filter.
Qed.

Lemma nodup_sublist {R} (key : R -> UUID) (l l' : list R) : l' `sublist_of` l -> NoDup (key <$> l) -> NoDup (key <$> l').
Proof. intros Hs Hn. eapply sublist_NoDup; [exact Hn|]. by apply fmap_sublist. Qed.

Lemma wp_passes g nows : forall s,
  NoDup (run_ID <$> rows (rt_runs s)) -> NoDup (art_ID <$> rows (rt_artifacts s)) ->
  wp (passes g nows) (fun _ s' => safe g nows s s' /\
    (healthy (rt_artifacts s) -> nows <> [] \/ trimmed g s -> trimmed g s')) s.
Proof.
  induction nows as [|now nows IH]; intros s Hnr Hna.
  - apply wp_ret. split; [split; [done| | |]; intros; by left|]. by intros _ [?|?].
  - apply wp_bind. eapply wp_mono; [by apply wp_collectOnce|]. intros _ s1 [H1 Ht1].
    destruct (safe_fewer _ _ _ _ H1) as (Fr & _ & Fa).
    eapply wp_mono; [apply IH; by eapply nodup_sublist|]. intros _ s2 [H2 Ht2]. split.
    + exact (safe_trans g [now] nows _ _ _ H1 H2).
    + intros Hh _. specialize (Ht1 Hh). apply Ht2; [apply Ht1|by right].
Qed.

(** Over any number of passes the retention job only deletes runs that
    ended, in a phase it knows, before its cut-off, the tasks of such runs, and
    artifacts with as many newer rows in their component as it is told to
    keep; a cancelled run is never deleted, since the job spells its phase in
    another way.  After a pass whose artifact statements go through no
    component has more artifacts than that. *)
Theorem retention_exact g nows s :
  NoDup (run_ID <$> rows (rt_runs s)) -> NoDup (art_ID <$> rows (rt_artifacts s)) ->
  wp (passes g nows) (fun _ s' => safe g nows s s' /\
    (forall r, r ∈ rows (rt_runs s) -> run_Phase r = PipelineRunCancelled -> r ∈ rows (rt_runs s')) /\
    (healthy (rt_artifacts s) -> nows <> [] -> 0 < ArtifactVersions g ->
     forall c, versions c (rows (rt_artifacts s')) <= ArtifactVersions g)) s.
Proof.
  intros Hnr Hna. eapply wp_mono; [by apply wp_passes|]. intros _ s' [Hs Ht]. split_and!; [done| |].
  - intros r Hr Hc. destruct (safe_runs _ _ _ _ Hs r Hr) as [|(_ & now & _ & Hret)]; [done|].
    unfold retired in Hret. rewrite Hc in Hret. by apply andb_true_iff in Hret as [?%bool_decide_eq_true_1 _]; vm_compute in H; set_solver.
  - intros Hh Hne. apply Ht; auto.
Qed.
End Retire.

(** One component has three artifacts, and one of two old runs was cancelled. *)
Definition old_run (id : UUID) (phase : PipelineRunPhase) : PipelineRun :=
  (demo_run id phase) <| run_CompletionTime := Some (900 * Second) |>.
Definition dated (id : UUID) (at_ : Time) : Artifact := (demo_artifact id 7 None) <| art_CreatedAt := at_ |>.
Definition upkeep_state : Retention.State := Retention.mkState
  (table [old_run 100 PipelineRunSucceeded; old_run 101 PipelineRunCancelled; demo_run 102 PipelineRunRunning])
  (table [demo_task 110 100 "compile" "build" TaskTypeBuild TaskRunSucceeded;
          demo_task 111 102 "compile" "build" TaskTypeBuild TaskRunRunning])
  (table [dated 300 5; dated 301 7; dated 302 6]).
Definition month_later : Time := 40 * (86400 * Second).

Lemma retention_exact_witness :
  let g := NewRetentionGC 0 30 2 0 in
  let s' := (passes g [month_later] upkeep_state).2 in
  (run_ID <$> rows (Retention.rt_runs s')) = [101; 102] /\
  (task_ID <$> rows (Retention.rt_tasks s')) = [111] /\
  (art_ID <$> rows (Retention.rt_artifacts s')) = [301; 302] /\
  old_run 101 PipelineRunCancelled ∈ rows (Retention.rt_runs s') /\
  versions 7 (rows (Retention.rt_artifacts s')) <= 2.
Proof.
  split; [vm_compute; reflexivity|]. split; [vm_compute; reflexivity|]. split; [vm_compute; reflexivity|].
  destruct (retention_exact (NewRetentionGC 0 30 2 0) [month_later] upkeep_state) as (_ & Hkept & Htrim).
  - apply (bool_decide_unpack _). vm_compute. exact I.
  - apply (bool_decide_unpack _). vm_compute. exact I.
  - split.
    + apply Hkept; [right; left|reflexivity].
    + apply Htrim; [vm_compute; constructor|discriminate|reflexivity].
Defined.

(** * Subscriptions *)

Section Subscribers.
Context {G : Gorm} {P : Platform} {D : Dispatcher} {T : SubjectTables} {TL : SubjectTablesLaws T} {X : TimeText}.
Context (cfg : Notifications.Config).
Import Notifications.

(** A row as the handler leaves it: its owner's, always on, with an address or
    none, and events that exist. *)
Definition subscriber (k : string) (row : Subscription) : Prop :=
  sb_Subject row = k /\ sb_Enabled row = true /\ (sb_Email row = "" \/ has_at (sb_Email row) = true) /\
  validateEvents (sb_Events row) = None.
Definition sub_rows (s : State) : gmap string Subscription := st_rows (n_subs s).
Definition read_rows (s : State) : gmap string NotificationRead := st_rows (n_reads s).
Definition subscribed (s : State) : Prop := map_Forall subscriber (sub_rows s).

(** What is done to the notification centre: requests and platform events. *)
Inductive Act :=
| APut (rq : HttpRequest) (c : Context_) | AGet (c : Context_) | AMark (rq : HttpRequest) (c : Context_)
| AList (c : Context_) | ADispatch (evt subject title body : string).
Definition act (a : Act) : M State unit :=
  match a with
  | APut rq c => PutSubscription cfg rq c ;;; ret tt
  | AGet c => GetSubscription cfg c ;;; ret tt
  | AMark rq c => ReadMark cfg rq c ;;; ret tt
  | AList c => ListHandler cfg c ;;; ret tt
  | ADispatch evt subject title body => Dispatch cfg evt subject title body
  end.
Fixpoint acts (l : list Act) : M State unit := match l with [] => ret tt | a :: l' => act a ;;; acts l' end.

Definition put_by (a : Act) : option string := match a with APut _ c => CurrentSubject c | _ => None end.

Record history (l : list Act) (s s' : State) : Prop := mkHistory {
  h_rows : subscribed s -> subscribed s';
  h_own : forall k, (forall a, a ∈ l -> put_by a <> Some k) -> sub_rows s' !! k = sub_rows s !! k;
  h_reads : forall k row, read_rows s !! k = Some row ->
    exists row', read_rows s' !! k = Some row' /\ nr_LastReadAt row <= nr_LastReadAt row';
  h_mail : subscribed s -> exists sent, n_outbox s' = n_outbox s ++ sent /\
    forall m, m ∈ sent -> has_at (ml_to m) = true /\
      exists evt subject, ADispatch evt subject (ml_subject m) (ml_body m) ∈ l }.

Lemma history_trans l1 l2 s s1 s2 : history l1 s s1 -> history l2 s1 s2 -> history (l1 ++ l2) s s2.
Proof.
  intros [Hr Ho Hm Hx] [Hr' Ho' Hm' Hx']. split.
  - auto.
  - intros k Hk. rewrite Ho', Ho; [done|..]; intros a Ha; apply Hk; set_solver.
  - intros k row (row1 & H1 & ?)%Hm. destruct (Hm' k row1 H1) as (row2 & ? & ?). exists row2. split; [done|lia].
  - intros Hs. destruct (Hx Hs) as (sent & E & H1), (Hx' (Hr Hs)) as (sent' & E' & H2). exists (sent ++ sent').
    rewrite E', E, <- app_assoc. split; [done|]. intros m [Hin|Hin]%elem_of_app;
      [destruct (H1 m Hin) as (? & evt & sub & ?)|destruct (H2 m Hin) as (? & evt & sub & ?)];
      (split; [done|]); exists evt, sub; set_solver.
Qed.

(** What leaves the subscriptions, the marks and the outbox alone. *)
Definition still (s s' : State) : Prop :=
  sub_rows s' = sub_rows s /\ read_rows s' = read_rows s /\ n_outbox s' = n_outbox s.
#[local] Instance still_preorder : PreOrder still.
Proof. split; [by intros s|]. intros s1 s2 s3 (? & ? & ?) (? & ? & ?). split_and!; congruence. Qed.
Definition Still {A} (m : M State A) : Prop := forall s, still s (m s).2.

Lemma still_history l s s' : still s s' -> history l s s'.
Proof.
  intros (H1 & H2 & H3). split.
  - unfold subscribed. by rewrite H1.
  - intros k _. by rewrite H1.
  - intros k row Hk. rewrite H2. by exists row.
  - intros _. exists []. rewrite app_nil_r. split; [done|set_solver].
Qed.

Lemma still_ret {A} (a : A) : Still (ret a).
Proof. intros s. reflexivity. Qed.
Lemma still_now : Still now_at.
Proof. intros s. reflexivity. Qed.
Lemma still_bind {A B} (m : M State A) (k : A -> M State B) : Still m -> (forall a, Still (k a)) -> Still (bind m k).
Proof. intros Hm Hk s. unfold bind. specialize (Hm s). destruct (m s) as [a s1]. etransitivity; [exact Hm|apply Hk]. Qed.
Lemma still_try {E A B} (m : M State (Res E A)) (k : A -> M State (Res E B)) :
  Still m -> (forall a, Still (k a)) -> Still (try_bind m k).
Proof. intros Hm Hk. apply still_bind; [done|]. intros [a|e]; [apply Hk|apply still_ret]. Qed.
Lemma still_world {A} (m : M World A) : Still (zoom n_world m).
Proof. intros s. unfold zoom. by destruct (m _). Qed.

Lemma st_First_rows {R} k (t : ST R) : st_rows (st_First k t).2 = st_rows t.
Proof. destruct (st_First k t) as [r t'] eqn:E. by apply st_First_spec in E as [? _]. Qed.

Lemma still_LastReadAt k : Still (zoom n_reads (ReadStore.LastReadAt k)).
Proof.
  intros s. unfold zoom, ReadStore.LastReadAt, bind. pose proof (st_First_rows k (n_reads s)) as H.
  destruct (st_First k (n_reads s)) as [r t]. split_and!; [done|exact H|done].
Qed.
Lemma still_Get k : Still (zoom n_subs (SubscriptionStore.Get k)).
Proof.
  intros s. unfold zoom, SubscriptionStore.Get, bind. pose proof (st_First_rows k (n_subs s)) as H.
  destruct (st_First k (n_subs s)) as [r t]. split_and!; [exact H|done|done].
Qed.

Lemma still_SubscriptionOf k : Still (SubscriptionOf cfg k).
Proof. unfold SubscriptionOf. destruct (negb _); [apply still_ret|apply still_Get]. Qed.

Lemma still_notices since l : Still (notices since l).
Proof.
  induction l as [|a l IH]; [apply still_ret|]. apply still_bind; [apply still_world|]. intros pid.
  apply still_bind; [exact IH|]. intros rest. apply still_ret.
Qed.

Lemma still_List k n : Still (List cfg k n).
Proof.
  apply still_try; [apply still_world|]. intros pending. apply still_bind.
  - destruct (_ && _); [|apply still_ret]. apply still_bind; [apply still_LastReadAt|]. intros r. apply still_ret.
  - intros since. apply still_bind; [apply still_notices|]. intros out. apply still_ret.
Qed.

Lemma code_Fail status e : rs_Code (Fail status e) = status.
Proof. unfold Fail. by destruct e. Qed.
Lemma code_fail_or {A} (r : Result A) reply :
  rs_Code (fail_or StatusInternalServerError r reply) = StatusOK -> is_ok r = true.
Proof. destruct r; [done|]. unfold fail_or. by rewrite code_Fail. Qed.

Lemma valid_events events : validateEvents events = None -> validateEvents (default_str "approval_required" events) = None.
Proof. unfold default_str. by destruct (empty_string events). Qed.

Lemma wp_still {A} (m : M State A) (Q : A -> State -> Prop) s :
  Still m -> (forall a s', still s s' -> Q a s') -> wp m Q s.
Proof. intros Hm HQ. specialize (Hm s). unfold wp. destruct (m s) as [a s']. by apply HQ. Qed.

(** Only its owner's row changes, and it is a good one. *)
Definition put_spec (rq : HttpRequest) (c : Context_) (s : State) (r : Response) (s' : State) : Prop :=
  history [APut rq c] s s' /\ (rs_Code r <> StatusOK -> still s s') /\
  (forall in_ subject, CurrentSubject c = Some subject ->
     UnmarshalE (A := Subscription) (C := Codec_Subscription) (hq_Body rq) = Ok in_ -> rs_Code r = StatusOK ->
     exists row, sub_rows s' !! subject = Some row /\ sb_Email row = sb_Email in_ /\
       sb_Events row = default_str "approval_required" (sb_Events in_) /\ sb_Enabled row = true).

Lemma wp_Upsert sub (Q : Result Subscription -> State -> Prop) s :
  (forall e s', still s s' -> Q (Err e) s') ->
  (forall row row' s', sb_Subject row' = sb_Subject sub -> sb_Email row' = sb_Email sub ->
     sb_Events row' = default_str "approval_required" (sb_Events sub) -> sb_Enabled row' = true ->
     sub_rows s' = <[sb_Subject sub := row']> (sub_rows s) -> read_rows s' = read_rows s -> n_outbox s' = n_outbox s ->
     Q (Ok row) s') ->
  subscribed s -> wp (UpsertSubscription cfg sub) Q s.
Proof.
  intros He Hok Hs. unfold UpsertSubscription. destruct (negb _); [by apply wp_ret, He|].
  unfold wp, bind, now_at, zoom, SubscriptionStore.Upsert. destruct (st_Upsert _ _ _ _) as [r t] eqn:E.
  apply st_Upsert_spec in E. destruct r as [row|e]; [|by apply He]. destruct E as [-> E].
  eapply Hok; [| | | |exact E|done|done]; simpl; unfold sub_rows, subscribed in *;
    (destruct (st_rows (n_subs s) !! sb_Subject sub) as [old|] eqn:Eo; [|done]); try done.
  by destruct (Hs _ _ Eo).
Qed.

Lemma wp_put rq c s : subscribed s -> wp (PutSubscription cfg rq c) (put_spec rq c s) s.
Proof.
  intros Hs. assert (Hstill : forall r s', still s s' -> rs_Code r <> StatusOK -> put_spec rq c s r s').
  { intros r s' H Hc. split; [by apply still_history|]. split; [done|]. by intros. }
  unfold PutSubscription. destruct (CurrentSubject c) as [k|] eqn:Ek; simpl; [|by apply wp_ret, Hstill].
  destruct (empty_string k) eqn:Ee; [by apply wp_ret, Hstill|]. unfold body_of.
  destruct (UnmarshalE _) as [v|e] eqn:Ev; [|apply wp_ret, Hstill; [done|by rewrite code_Fail]].
  destruct (negb (empty_string (sb_Email v)) && negb (has_at (sb_Email v))) eqn:Em; [by apply wp_ret, Hstill|].
  destruct (validateEvents (sb_Events v)) eqn:Eev; [apply wp_ret, Hstill; [done|by rewrite code_Fail]|].
  apply wp_bind, wp_Upsert; [| |done].
  - intros e s' H. apply wp_ret, Hstill; [done|]. by simpl; rewrite code_Fail.
  - intros row row' s' Hk Hem Hevs Hon Hr Hm Ho. simpl in Hk, Hem, Hevs, Hr. apply wp_ret. split.
    + split.
      * intros _. unfold subscribed. rewrite Hr. apply map_Forall_insert_2; [|done]. split_and!; [done|done| |].
        -- rewrite Hem. destruct (empty_string (sb_Email v)) eqn:E; [left; by apply String.eqb_eq|right].
           simpl in Em. by destruct (has_at _).
        -- rewrite Hevs. by apply valid_events.
      * intros k' Hk'. rewrite Hr. apply lookup_insert_ne. intros <-. by eapply (Hk' (APut rq c)); [left|].
      * intros k' old. rewrite Hm. intros Hold. by exists old.
      * intros _. exists []. rewrite app_nil_r. split; [done|set_solver].
    + split; [by intros []|]. intros in_ subject Hsub Hin _. rewrite Ek in Hsub. injection Hsub as <-. assert (in_ = v) as -> by congruence.
      exists row'. rewrite Hr. by rewrite lookup_insert_eq.
Qed.

(** A mark only moves forward. *)
Lemma MarkRead_history l k at_ s : history l s (MarkRead cfg k at_ s).2.
Proof.
  unfold MarkRead. destruct (negb _); [by apply still_history|].
  unfold bind, now_at, zoom, ReadStore.AdvanceTo, bind. generalize (if at_ =? time_Zero then w_now (n_world s) else at_).
  intros t0. match goal with |- context [st_Upsert ?a ?b ?c ?d] => destruct (st_Upsert a b c d) as [r t] eqn:E end.
  apply st_Upsert_spec in E. simpl. split; [done|done| |].
  - intros j row Hj. unfold read_rows in *. simpl. destruct r as [row'|e]; [|rewrite E; by exists row]. destruct E as [_ ->].
    simpl. destruct (decide (k = j)) as [->|Hne].
    + rewrite lookup_insert_eq, Hj. eexists. split; [done|]. simpl. lia.
    + rewrite lookup_insert_ne by done. by exists row.
  - intros _. exists []. simpl. rewrite app_nil_r. split; [done|set_solver].
Qed.

Lemma mark_history l rq c s : history l s (ReadMark cfg rq c s).2.
Proof.
  unfold ReadMark. destruct (empty_string _); [by apply still_history|]. unfold bind at 1, now_at. unfold bind, ret.
  match goal with |- context [MarkRead cfg ?k ?t s] => pose proof (MarkRead_history l k t s) as H;
    by destruct (MarkRead cfg k t s) as [r s'] end.
Qed.

(** A message goes out when the stored row has an address and wants the event. *)
Lemma Dispatch_sends evt k title body row s :
  subs cfg = true -> mailer cfg = true -> subscribed s -> (st_First k (n_subs s)).1 = Ok row ->
  n_outbox (Dispatch cfg evt k title body s).2 = n_outbox s ++
    (if negb (empty_string (sb_Email row)) && Wants row evt then [mkMail (sb_Email row) title body] else []).
Proof.
  intros Hc Hm Hs Hf. unfold Dispatch. rewrite Hc, Hm. simpl. unfold bind, zoom, SubscriptionStore.Get, bind.
  destruct (st_First k (n_subs s)) as [r t] eqn:E. simpl in Hf. subst r. apply st_First_spec in E as [_ E].
  destruct (Hs _ _ E) as (_ & Hon & _). simpl. rewrite Hon. simpl.
  destruct (empty_string _), (Wants _ _); simpl; by rewrite ?app_nil_r.
Qed.

Lemma dispatch_history evt k title body s : subscribed s ->
  history [ADispatch evt k title body] s (Dispatch cfg evt k title body s).2.
Proof.
  intros Hs. unfold Dispatch. destruct (_ || _); [by apply still_history|]. unfold bind at 1.
  pose proof (still_Get k s) as Hst. unfold zoom, SubscriptionStore.Get, bind in *.
  destruct (st_First k (n_subs s)) as [r t] eqn:E. apply st_First_spec in E as [_ E]. simpl in *.
  assert (Hrow : forall sub, match r with Ok s0 => Ok s0 | Err e => if errors_Is e ErrRecordNotFound
      then Ok (SubscriptionStore.unsubscribed k) else Err e end = Ok sub -> sb_Email sub = "" \/ has_at (sb_Email sub) = true).
  { intros sub Hsub. destruct r as [row|e]; [injection Hsub as <-; by destruct (Hs _ _ E) as (_ & _ & ? & _)|].
    destruct (errors_Is _ _); [|done]. injection Hsub as <-. by left. }
  destruct (match r with Ok _ => _ | Err _ => _ end) as [sub|e]; [|by apply still_history].
  destruct (_ || _) eqn:Ec; [by apply still_history|]. destruct Hst as (H1 & H2 & H3). split.
  - unfold subscribed, sub_rows in *. simpl in *. by rewrite H1.
  - intros j _. unfold sub_rows in *. simpl in *. by rewrite H1.
  - intros j row Hj. by exists row.
  - intros _. exists [mkMail (sb_Email sub) title body]. split; [done|]. intros m ->%list_elem_of_singleton. simpl. split.
    + destruct (Hrow sub eq_refl) as [He|]; [|done]. rewrite He in Ec. by rewrite orb_true_r in Ec.
    + exists evt, k. left.
Qed.

Lemma act_history a s : subscribed s -> history [a] s (act a s).2.
Proof.
  intros Hs. destruct a as [rq c|c|rq c|c|evt k title body]; simpl.
  - unfold bind. pose proof (wp_put rq c s Hs) as H. unfold wp in H. destruct (PutSubscription _ _ _ _) as [r s']. apply H.
  - apply still_history. apply still_bind; [|intros ?; apply still_ret]. unfold GetSubscription.
    destruct (empty_string _); [apply still_ret|]. apply still_bind; [apply still_SubscriptionOf|intros ?; apply still_ret].
  - pose proof (mark_history [AMark rq c] rq c s) as H. unfold bind. by destruct (ReadMark _ _ _ _) as [r s'].
  - apply still_history. apply still_bind; [|intros ?; apply still_ret].
    apply still_bind; [apply still_List|intros ?; apply still_ret].
  - by apply dispatch_history.
Qed.

Lemma acts_history l : forall s, subscribed s -> history l s (acts l s).2.
Proof.
  induction l as [|a l IH]; intros s Hs; [by apply still_history|]. simpl. unfold bind.
  pose proof (act_history a s Hs) as H. destruct (act a s) as [u s1]. simpl in H.
  change (a :: l) with ([a] ++ l). eapply history_trans; [exact H|]. by apply IH, (h_rows _ _ _ H).
Qed.

(** C14: whatever users do with their subscriptions and marks and whatever is
    dispatched: a subscription is only changed by its owner, a mark never moves
    back, and mail goes out only for an event dispatched, to an address with an
    at sign.  A refused request changes nothing; an accepted subscription stores
    its owner's address and events, and stays on whatever its switch said: while
    its row is read, an event it wants is mailed. *)
Theorem subscriptions_exact l s : subscribed s ->
  wp (acts l) (fun _ s' => history l s s' /\
    (forall rq c, wp (PutSubscription cfg rq c) (put_spec rq c s') s') /\
    (forall evt k title body row, subs cfg = true -> mailer cfg = true -> (st_First k (n_subs s')).1 = Ok row ->
       n_outbox (Dispatch cfg evt k title body s').2 = n_outbox s' ++
         (if negb (empty_string (sb_Email row)) && Wants row evt then [mkMail (sb_Email row) title body] else []))) s.
Proof.
  intros Hs. pose proof (acts_history l s Hs) as H. unfold wp. destruct (acts l s) as [u s']. simpl in H.
  pose proof (h_rows _ _ _ H Hs) as Hs'. split_and!; [done| |].
  - intros rq c. by apply wp_put.
  - intros evt k title body row Hc Hm Hf. by apply Dispatch_sends.
Qed.
End Subscribers.

(** Subject tables as maps, with an answer that always comes. *)
Definition map_tables : SubjectTables := {|
  ST := fun R => gmap string R;
  st_rows := fun R t => t;
  st_First := fun R k t => (match t !! k with Some row => Ok row | None => Err ErrRecordNotFound end, t);
  st_Upsert := fun R _ now merge row t =>
    (Ok (row_created now row),
     <[row_subject row := match t !! row_subject row with
                          | Some old => merge old (row_created now row) | None => row_created now row end]> t);
|}.
#[local] Instance map_tables_laws : SubjectTablesLaws map_tables.
Proof.
  split; simpl.
  - intros R k t r t' [= <- <-]. split; [done|]. by destruct (t !! k) eqn:E.
  - intros R HR now merge row t r t' [= <- <-]. done.
Qed.
Definition plain_times : TimeText := {| time_text := z_text; text_time := z_parse |}.

(** Ana asks for mail about runs that failed and sets the switch off. *)
Definition ana_context : Context_ := empty_context <| c_subject := Some "ana" |>.
Definition ana_asks : HttpRequest := mkHttpRequest (fun _ => "") (fun _ => None) (fun _ => "")
  (RawDoc (JObj [("email", JStr "ana@acme.io"); ("events", JStr "run_failed"); ("enabled", JBool false)])).
Definition quiet_centre : Notifications.State (T := map_tables) :=
  Notifications.mkState (T := map_tables) demo (∅ : gmap string _) (∅ : gmap string _) [].
Definition all_wired : Notifications.Config := Notifications.mkConfig true true true.

Lemma subscriptions_exact_witness :
  let s' := (acts (T := map_tables) (X := plain_times) all_wired [APut ana_asks ana_context] quiet_centre).2 in
  sb_Enabled <$> (sub_rows (T := map_tables) s' !! "ana") = Some true /\
  Notifications.n_outbox (Notifications.Dispatch all_wired "run_failed" "ana" "release" "failed" s').2 =
    [Notifications.mkMail "ana@acme.io" "release" "failed"].
Proof.
  split; [vm_compute; reflexivity|].
  destruct (subscriptions_exact (T := map_tables) (X := plain_times) all_wired [APut ana_asks ana_context] quiet_centre)
    as (_ & _ & Hmail); [apply map_Forall_empty|].
  refine (eq_trans (Hmail "run_failed" "ana" "release" "failed"
    (mkSubscription "ana" "ana@acme.io" "run_failed" true (1000 * Second) (1000 * Second)) eq_refl eq_refl _) _);
    vm_compute; reflexivity.
Defined.


(** * Search *)

(** lower() leaves the characters LIKE gives a meaning alone and makes no other
    character one of them. *)
Class SqlTextLaws (Q : SqlText) : Prop := {
  lower_pattern : forall q, sql_lower (likePattern q) = likePattern (sql_lower q);
  lower_prefix : forall q, sql_lower (prefixPattern q) = prefixPattern (sql_lower q);
}.

(** [a] occurs in [b], in any letter case. *)
Definition occurs {Q : SqlText} (a b : string) : Prop :=
  exists l r, bytes (sql_lower b) = l ++ bytes (sql_lower a) ++ r.

Section Like.
Lemma bytes_app a b : bytes (a +:+ b) = bytes a ++ bytes b.
Proof. unfold bytes. induction a as [|c a IH]; [done|]. simpl. by rewrite IH. Qed.

Lemma like_tokens_escaped q p :
  like_tokens (bytes (escapeLike q) ++ p) = (fun t => (LChar <$> bytes q) ++ t) <$> like_tokens p.
Proof.
  induction q as [|c q IH]; [change (bytes (escapeLike "") ++ p) with p; by destruct (like_tokens p)|]. cbn [escapeLike]. rewrite bytes_app, <- app_assoc.
  unfold escape_char. destruct (Ascii.eqb c backslash) eqn:E1; [|destruct (Ascii.eqb c percent) eqn:E2;
    [|destruct (Ascii.eqb c underscore) eqn:E3]]; cbn [orb bytes String.list_ascii_of_string app like_tokens];
    rewrite ?E1, ?E2, ?E3, ?Ascii.eqb_refl, IH; by destruct (like_tokens p).
Qed.

Lemma like_match_chars a t s :
  like_match ((LChar <$> a) ++ t) s = true <-> exists r, s = a ++ r /\ like_match t r = true.
Proof.
  revert s. induction a as [|c a IH]; intros s; simpl; [naive_solver|]. destruct s as [|x s]; [naive_solver|].
  rewrite andb_true_iff, IH, Ascii.eqb_eq. naive_solver.
Qed.

Lemma like_match_many t s : like_match (LMany :: t) s = true <-> exists l r, s = l ++ r /\ like_match t r = true.
Proof.
  induction s as [|x s IH]; cbn -[like_match].
  - change (like_match (LMany :: t) []) with (like_match t [] || false). rewrite orb_false_r. split.
    + intros H. by exists [], [].
    + intros (l & r & E & H). symmetry in E. apply app_nil in E as [-> ->]. done.
  - change (like_match (LMany :: t) (x :: s)) with (like_match t (x :: s) || like_match (LMany :: t) s).
    rewrite orb_true_iff, IH. split.
    + intros [H|(l & r & -> & H)]; [by exists [], (x :: s)|by exists (x :: l), r].
    + intros ([|y l] & r & E & H); simpl in E; [left; by subst|right]. injection E as <- ->. by exists l, r.
Qed.

Context {Q : SqlText} {QL : SqlTextLaws Q}.

(** The escaped pattern finds exactly the texts the query occurs in. *)
Lemma ilike_pattern q s : ilike s (likePattern q) = true <-> occurs q s.
Proof.
  unfold ilike. rewrite lower_pattern. unfold likePattern. rewrite !bytes_app.
  change (bytes "%" ++ bytes (escapeLike (sql_lower q)) ++ bytes "%")
    with (percent :: bytes (escapeLike (sql_lower q)) ++ [percent]).
  change (like_tokens (percent :: bytes (escapeLike (sql_lower q)) ++ [percent]))
    with (cons LMany <$> like_tokens (bytes (escapeLike (sql_lower q)) ++ [percent])).
  rewrite like_tokens_escaped. simpl (like_tokens [percent]). cbn [fmap option_fmap option_map].
  rewrite like_match_many. unfold occurs. split.
  - intros (l & r & E & (r' & -> & _)%like_match_chars). by exists l, r'.
  - intros (l & r & E). exists l, (bytes (sql_lower q) ++ r). split; [done|]. apply like_match_chars. exists r.
    split; [done|]. apply like_match_many. exists r, []. by rewrite app_nil_r.
Qed.

(** The other pattern finds the texts that begin with it. *)
Definition begins {Q : SqlText} (q s : string) : Prop := exists r, bytes (sql_lower s) = bytes (sql_lower q) ++ r.
Lemma ilike_prefix q s : ilike s (prefixPattern q) = true <-> begins q s.
Proof.
  unfold ilike. rewrite lower_prefix. unfold prefixPattern. rewrite bytes_app.
  change (bytes (escapeLike (sql_lower q)) ++ bytes "%") with (bytes (escapeLike (sql_lower q)) ++ [percent]).
  rewrite like_tokens_escaped. simpl (like_tokens [percent]). cbn [fmap option_fmap option_map].
  rewrite like_match_chars. unfold begins. split; [intros (r & E & _); by exists r|].
  intros (r & E). exists r. split; [done|]. apply like_match_many. exists r, []. by rewrite app_nil_r.
Qed.

(** The order of the hits of a kind: the name that is the text itself, then the
    names that begin with it, then the others; among equals by name. *)
Definition precedes {Q : SqlText} (q a b : string) : Prop :=
  (sql_lower b = sql_lower q -> sql_lower a = sql_lower q) /\ (begins q b -> begins q a) /\
  ((sql_lower a = sql_lower q -> sql_lower b = sql_lower q) -> (begins q a -> begins q b) -> text_rank a <= text_rank b).

Lemma precedes_relevance {R} (name : R -> string) q x y :
  by_keys (SearchRepository.by_relevance name q) x y -> precedes q (name x) (name y).
Proof.
  unfold by_keys, SearchRepository.by_relevance. cbn [fmap list_fmap keys_le].
  assert (Hr : forall n, let t := SearchRepository.relevance q n in
    0 <= t <= 2 /\ (t <= 0 <-> sql_lower n = sql_lower q) /\ (t <= 1 <-> begins q n)).
  { intros n. unfold SearchRepository.relevance. destruct (String.eqb_spec (sql_lower n) (sql_lower q)) as [E|E].
    - assert (begins q n) by (exists []; by rewrite E, app_nil_r). intuition lia.
    - destruct (ilike n (prefixPattern q)) eqn:Ei; [apply ilike_prefix in Ei; intuition lia|].
      assert (~ begins q n) by (intros H%ilike_prefix; congruence). intuition lia. }
  pose proof (Hr (name x)) as (X0 & X1 & X2). pose proof (Hr (name y)) as (Y0 & Y1 & Y2). cbv zeta in *.
  set (tx := SearchRepository.relevance q (name x)) in *. set (ty := SearchRepository.relevance q (name y)) in *.
  rewrite orb_true_iff, andb_true_iff, orb_true_iff, andb_true_iff, !Z.ltb_lt, !Z.eqb_eq. intros H. unfold precedes.
  rewrite <- X1, <- X2, <- Y1, <- Y2. lia.
Qed.

Lemma named_iff q texts : SearchRepository.named q texts = true <-> exists t, t ∈ texts /\ occurs q t.
Proof.
  unfold SearchRepository.named. rewrite existsb_exists.
  split; intros (t & H1 & H2); exists t; by rewrite list_elem_of_In, ilike_pattern in *.
Qed.
End Like.

Section Search.
Context {G : Gorm} {GL : GormLaws G} {P : Platform} {O : ObjectStore} {Q : SqlText} {QL : SqlTextLaws Q}.
Import SearchRepository SearchService.

(** The keys of the tables the paths are read from are keys. *)
Definition keyed (s : Admin) : Prop :=
  NoDup (org_ID <$> rows (a_orgs s)) /\ NoDup (tree_ID <$> rows (a_trees s)) /\
  NoDup (svc_ID <$> rows (a_services s)) /\ NoDup (cmp_ID <$> rows (a_components s)).

(** The names of the live rows above one, from the organization down. *)
Definition above_service (s : Admin) (x : Service) (names : list string) : Prop :=
  exists st o, st ∈ rows (a_trees s) /\ tree_ID st = svc_ServiceTreeID x /\
    o ∈ rows (a_orgs s) /\ org_ID o = tree_OrgID st /\ org_DeletedAt o = None /\ names = [org_Name o].
Definition above_component (s : Admin) (x : Component) (names : list string) : Prop :=
  exists svc up, svc ∈ rows (a_services s) /\ svc_ID svc = cmp_ServiceID x /\ svc_DeletedAt svc = None /\
    above_service s svc up /\ names = up ++ [svc_Name svc].
Definition above_pipeline (s : Admin) (x : Pipeline) (names : list string) : Prop :=
  exists c up, c ∈ rows (a_components s) /\ cmp_ID c = pl_ComponentID x /\ cmp_DeletedAt c = None /\
    above_component s c up /\ names = up ++ [cmp_Name c].

Lemma row_by_spec {R} (key : R -> UUID) id l r : NoDup (key <$> l) -> row_by key id l = Some r <-> r ∈ l /\ key r = id.
Proof.
  intros Hnd. unfold row_by. split.
  - intros ((i & y) & E & [= <-])%bind_Some. apply list_find_Some in E as (Hi & Hk & _).
    split; [by apply list_elem_of_lookup_2 in Hi|done].
  - intros (Hin & Hk). destruct (list_find (fun y => key y = id) l) as [[i y]|] eqn:E.
    + simpl. f_equal. apply list_find_Some in E as (Hi & Hy & _). apply list_elem_of_lookup_2 in Hi.
      apply (key_unique key l); [done..|congruence].
    + apply list_find_None in E. rewrite Forall_forall in E. by destruct (E r Hin).
Qed.

Lemma live_iff (d : option Time) : live d = true <-> d = None.
Proof. by destruct d. Qed.

Lemma path_service s x names : keyed s -> service_path s x = Some names <-> above_service s x names.
Proof.
  intros (Ho & Ht & _ & _). unfold service_path, org_of, above_service. split.
  - intros (o & (st & Est & (o' & Eo & Hl)%bind_Some)%bind_Some & [= <-])%bind_Some.
    apply row_by_spec in Est as [? ?], Eo as [? ?]; [|done..]. destruct (live (org_DeletedAt o')) eqn:El; [|done].
    injection Hl as <-. apply live_iff in El. by exists st, o'.
  - intros (st & o & H1 & H2 & H3 & H4 & H5 & ->). apply bind_Some. exists o. split; [|done].
    apply bind_Some. exists st. split; [by apply row_by_spec|]. apply bind_Some. exists o.
    split; [by apply row_by_spec|]. by rewrite H5.
Qed.
Lemma path_component s x names : keyed s -> component_path s x = Some names <-> above_component s x names.
Proof.
  intros Hk. pose proof Hk as (_ & _ & Hs & _). unfold component_path, above_component. split.
  - intros (svc & E & H)%bind_Some. apply row_by_spec in E as [? ?]; [|done]. destruct (live (svc_DeletedAt svc)) eqn:El; [|done].
    apply bind_Some in H as (up & Hup & [= <-]). apply live_iff in El. apply path_service in Hup; [|done]. by exists svc, up.
  - intros (svc & up & H1 & H2 & H3 & H4 & ->). apply bind_Some. exists svc. split; [by apply row_by_spec|].
    rewrite H3. simpl. apply bind_Some. exists up. split; [by apply path_service|done].
Qed.
Lemma path_pipeline s x names : keyed s -> pipeline_path s x = Some names <-> above_pipeline s x names.
Proof.
  intros Hk. pose proof Hk as (_ & _ & _ & Hc). unfold pipeline_path, above_pipeline. split.
  - intros (c & E & H)%bind_Some. apply row_by_spec in E as [? ?]; [|done]. destruct (live (cmp_DeletedAt c)) eqn:El; [|done].
    apply bind_Some in H as (up & Hup & [= <-]). apply live_iff in El. apply path_component in Hup; [|done]. by exists c, up.
  - intros (c & up & H1 & H2 & H3 & H4 & ->). apply bind_Some. exists c. split; [by apply row_by_spec|].
    rewrite H3. simpl. apply bind_Some. exists up. split; [by apply path_component|done].
Qed.

(** A kind of row: the names above it, the texts it is found by, its name, and
    the hit it becomes with its path. *)
Record kind {R : Type} (table : Admin -> Table R) := mkKind {
  k_above : Admin -> R -> list string -> Prop; k_texts : R -> list string;
  k_name : R -> string; k_hit : R -> string -> Hit }.
Arguments kind {R} table. Arguments mkKind {R table}. Arguments k_above {R table}. Arguments k_texts {R table}. Arguments k_name {R table}. Arguments k_hit {R table}.
Definition services : kind a_services :=
  mkKind above_service (fun x => [svc_Name x; svc_Key x]) svc_Name
    (fun x path => mkHit "service" (svc_ID x) (svc_Name x) path (svc_Key x)).
Definition components : kind a_components :=
  mkKind above_component (fun x => [cmp_Name x; cmp_Key x]) cmp_Name
    (fun x path => mkHit "component" (cmp_ID x) (cmp_Name x) path (cmp_Key x)).
Definition pipelines : kind a_pipelines :=
  mkKind above_pipeline (fun x => [pl_Name x]) pl_Name
    (fun x path => mkHit "pipeline" (pl_ID x) (pl_Name x) path (pl_Kind x)).

(** A live row below live ones that the text occurs in, and what is shown of it. *)
Definition to_find {R} {Mod : Model R} {table} (k : kind table) (q : string) (s : Admin) (x : R) : Prop :=
  x ∈ rows (table s) /\ alive x = true /\ (exists names, k_above k s x names) /\ exists t, t ∈ k_texts k x /\ occurs q t.
Definition shown {R} {table : Admin -> Table R} (k : kind table) (s : Admin) (x : R) (h : Hit) : Prop :=
  exists names, k_above k s x names /\ h = k_hit k x (String.concat " / " (filter (fun n => n <> "") names)).

(** The hits of a kind: the first of all rows to find, the most relevant first. *)
Definition batch_of {R} {Mod : Model R} {table} (k : kind table) (q : string) (limit : Z) (s : Admin) (hits : list Hit) : Prop :=
  exists all, all ⊆+ rows (table s) /\ (forall x, x ∈ all <-> to_find k q s x) /\
    Sorted (fun x y => precedes q (k_name k x) (k_name k y)) all /\
    Forall2 (shown k s) (take (Z.to_nat limit) all) hits.
Definition batch_for (t q : string) (limit : Z) (s : Admin) (hits : list Hit) : Prop :=
  if String.eqb t TypeService then batch_of services q limit s hits
  else if String.eqb t TypeComponent then batch_of components q limit s hits
  else batch_of pipelines q limit s hits.

Definition searchable (s : Admin) : Prop :=
  healthy (a_services s) /\ healthy (a_components s) /\ healthy (a_pipelines s).
Lemma searchable_same s s' : asame s s' -> searchable s -> searchable s'.
Proof. intros H (? & ? & ?). split_and!; destruct H; by (apply asame_services || apply asame_components || apply asame_pipelines). Qed.

Lemma keyed_same s s' : asame s s' -> keyed s -> keyed s'.
Proof. intros H. unfold keyed. by destruct H as [? [-> _] [-> _] [-> _] [-> _]]. Qed.

Lemma found_iff {A} (o : option A) : found o = true <-> is_Some o.
Proof. destruct o; simpl; split; try done; by intros []. Qed.

Lemma Sorted_weaken {R} (le le' : R -> R -> Prop) (l : list R) : (forall x y, le x y -> le' x y) -> Sorted le l -> Sorted le' l.
Proof. intros H. induction 1 as [|x l Hl IH Hx]; constructor; [done|]. destruct Hx; constructor; auto. Qed.

(** The two filters keep the same names. *)
Lemma joinPath_eq names : joinPath names = String.concat " / " (filter (fun n => n <> "") names).
Proof.
  unfold joinPath. f_equal. apply list_filter_iff. intros n. unfold empty_string.
  destruct (String.eqb_spec n ""); split; congruence.
Qed.

Definition answers {R} {Mod : Model R} {table} (k : kind table) (q : string) (limit : Z) (s : Admin)
    (r : Result (list Hit)) (s' : Admin) : Prop :=
  asame s s' /\ match r with Ok hits => batch_of k q limit s hits | Err _ => ~ healthy (table s) end.

Lemma wp_select {R} {Mod : Model R} {table} (k : kind table) `{!Setter table, !AField table} path hit q limit s :
  0 < limit -> (forall x names, path s x = Some names <-> k_above k s x names) ->
  (forall x, hit s x = k_hit k x (joinPath (default [] (path s x)))) ->
  wp (select table (fun s x => found (path s x) && named q (k_texts k x)) (k_name k) hit q limit) (answers k q limit s) s.
Proof.
  intros Hl Hpath Hhit. apply wp_reads_and.
  { unfold select. apply reads_bind; [intros ?; reflexivity|]. intros a.
    apply reads_try; [apply (reads_zoom table); apply read_Find|intros ?; apply reads_ret]. }
  unfold select. apply wp_bind, wp_get, wp_try, (wp_zoom table), wp_Find; [|by intros e t' _ ?].
  intros l t' _ (all & Hperm & Hsort & ->). apply wp_ret. unfold limit_rows, LimitQ.
  rewrite (proj2 (Z.ltb_lt 0 limit)) by done. cbn -[take drop Z.to_nat]. rewrite drop_0.
  assert (Hto : forall x, x ∈ all <-> to_find k q s x).
  { intros x. rewrite Hperm, elem_of_selected. unfold to_find, LimitQ. rewrite (proj2 (Z.ltb_lt 0 limit)) by done.
    cbn. rewrite andb_true_iff, found_iff, named_iff. unfold is_Some. setoid_rewrite Hpath. tauto. }
  exists all. split_and!; [|done| |].
  - rewrite Hperm. apply sublist_submseteq. apply sublist_filter.
  - eapply Sorted_weaken; [|exact Hsort]. intros x y H. apply precedes_relevance. revert H. unfold LimitQ.
    by rewrite (proj2 (Z.ltb_lt 0 limit)).
  - apply Forall2_fmap_r, Forall_Forall2_diag, Forall_forall. intros x Hx. assert (Hx' : x ∈ all).
    { rewrite <- (take_drop (Z.to_nat limit) all). apply elem_of_app. by left. }
    apply Hto in Hx' as (_ & _ & (names & Hn) & _). exists names. split; [done|].
    by rewrite Hhit, (proj2 (Hpath x names) Hn), joinPath_eq.
Qed.

Lemma batch_for_same t q limit s s' b : asame s s' -> batch_for t q limit s' b -> batch_for t q limit s b.
Proof.
  intros H. pose proof (asame_services _ _ H) as [Hsv _]. pose proof (asame_components _ _ H) as [Hc _].
  pose proof (asame_pipelines _ _ H) as [Hp _]. destruct H as [_ [Ho _] [Ht _] _ _].
  unfold batch_for, batch_of, to_find, shown, services, components, pipelines, above_pipeline, above_component, above_service.
  cbn. by rewrite Hsv, Hc, Hp, Ho, Ht.
Qed.

Lemma wp_SearchServices q limit s : keyed s -> 0 < limit -> wp (SearchServices q limit) (answers services q limit s) s.
Proof. intros Hk Hl. apply (wp_select services service_path service_hit); [done| |done]. intros x names. by apply path_service. Qed.
Lemma wp_SearchComponents q limit s : keyed s -> 0 < limit -> wp (SearchComponents q limit) (answers components q limit s) s.
Proof. intros Hk Hl. apply (wp_select components component_path component_hit); [done| |done]. intros x names. by apply path_component. Qed.
Lemma wp_SearchPipelines q limit s : keyed s -> 0 < limit -> wp (SearchPipelines q limit) (answers pipelines q limit s) s.
Proof. intros Hk Hl. apply (wp_select pipelines pipeline_path pipeline_hit); [done| |done]. intros x names. by apply path_pipeline. Qed.

Lemma wp_search_type t q limit s : t ∈ AllTypes -> keyed s -> 0 < limit ->
  wp (search_type t q limit) (fun r s' => asame s s' /\
    match r with Ok hits => batch_for t q limit s hits | Err _ => ~ searchable s end) s.
Proof.
  intros Ht Hk Hl. unfold search_type, batch_for, searchable.
  destruct (String.eqb t TypeService) eqn:E1; [|destruct (String.eqb t TypeComponent) eqn:E2; [|destruct (String.eqb t TypePipeline) eqn:E3]].
  - eapply wp_mono; [exact (wp_SearchServices q limit s Hk Hl)|]. intros [hits|e] s' [H1 H2]; (split; [exact H1|]); [exact H2|tauto].
  - eapply wp_mono; [exact (wp_SearchComponents q limit s Hk Hl)|]. intros [hits|e] s' [H1 H2]; (split; [exact H1|]); [exact H2|tauto].
  - eapply wp_mono; [exact (wp_SearchPipelines q limit s Hk Hl)|]. intros [hits|e] s' [H1 H2]; (split; [exact H1|]); [exact H2|tauto].
  - exfalso. apply String.eqb_neq in E1, E2, E3. unfold AllTypes in Ht. set_solver.
Qed.

Lemma wp_search_types types q limit : forall s, Forall (fun t => t ∈ AllTypes) types -> keyed s -> 0 < limit ->
  wp (search_types types q limit) (fun r s' => asame s s' /\ match r with
    | Ok hits => exists batches, hits = concat batches /\ Forall2 (fun t b => batch_for t q limit s b) types batches
    | Err _ => ~ searchable s
    end) s.
Proof.
  induction types as [|t types IH]; intros s Hv Hk Hl; [apply wp_ret; split; [reflexivity|by exists []]|].
  apply Forall_cons in Hv as [Ht Hv]. simpl. apply wp_try. eapply wp_mono; [by apply wp_search_type|].
  intros [b|e] s1 [H1 Hb]; [|done]. apply wp_try. eapply wp_mono; [apply IH; [done|by apply (keyed_same s)|done]|].
  intros [rest|e] s2 [H2 Hrest]; [apply wp_ret|].
  - split; [by etransitivity|]. destruct Hrest as (bs & -> & Hbs). exists (b :: bs). split; [done|].
    constructor; [done|]. eapply Forall2_impl; [exact Hbs|]. intros t' b'. by apply batch_for_same.
  - split; [by etransitivity|]. intros H. apply Hrest. by eapply searchable_same.
Qed.

(** ** The kinds a query names *)

Definition asked (raw : string) : list string :=
  filter (fun t => t <> "") ((fun part => ToLower (TrimSpace part)) <$> Split ","%char raw).
(** The first of each. *)
Definition first_of (l : list string) : list string := reverse (remove_dups (reverse l)).

Lemma first_of_snoc l t : first_of (l ++ [t]) = if decide (t ∈ first_of l) then first_of l else first_of l ++ [t].
Proof.
  assert (Hin : t ∈ first_of l <-> t ∈ reverse l) by (unfold first_of; by rewrite elem_of_reverse, elem_of_remove_dups).
  unfold first_of. rewrite reverse_snoc. cbn [remove_dups]. fold (first_of l).
  unfold list_elem_of_dec. repeat case_decide; try tauto. by rewrite reverse_cons.
Qed.

Lemma parse_parts_first parts : forall seen,
  let names := filter (fun t => t <> "") ((fun part => ToLower (TrimSpace part)) <$> parts) in
  match parse_parts parts (first_of seen) with
  | Ok ts => Forall (fun t => t ∈ AllTypes) names /\ ts = first_of (seen ++ names)
  | Err _ => exists t, t ∈ names /\ t ∉ AllTypes
  end.
Proof.
  induction parts as [|p parts IH]; intros seen names.
  { simpl. split; [constructor|]. unfold names. simpl. by rewrite app_nil_r. }
  unfold names. rewrite fmap_cons, filter_cons. cbn [parse_parts]. unfold empty_string.
  destruct (String.eqb_spec (ToLower (TrimSpace p)) "") as [->|Hne]; [rewrite decide_False by tauto; apply IH|].
  rewrite decide_True by done. unfold IsValidType. case_bool_decide as Hv; cbn [negb].
  - assert (E : (if bool_decide (ToLower (TrimSpace p) ∈ first_of seen) then first_of seen
        else first_of seen ++ [ToLower (TrimSpace p)]) = first_of (seen ++ [ToLower (TrimSpace p)])).
    { rewrite first_of_snoc. case_bool_decide; case_decide; tauto. }
    rewrite E. specialize (IH (seen ++ [ToLower (TrimSpace p)])). cbv zeta in IH. rewrite <- app_assoc in IH.
    destruct (parse_parts _ _); [destruct IH; split; [by constructor|done]|].
    destruct IH as (t & ? & ?). exists t. split; [by right|done].
  - exists (ToLower (TrimSpace p)). split; [left|done].
Qed.

Lemma ParseTypes_asked raw : match ParseTypes raw with
  | Ok ts => Forall (fun t => t ∈ AllTypes) (asked raw) /\ ts = match asked raw with [] => AllTypes | l => first_of l end
  | Err _ => exists t, t ∈ asked raw /\ t ∉ AllTypes
  end.
Proof.
  unfold ParseTypes. pose proof (parse_parts_first (Split ","%char raw) []) as H. cbv zeta in H.
  change (first_of []) with (@nil string) in H. fold (asked raw) in H. simpl app in H.
  destruct (parse_parts _ _) as [ts|e]; [|exact H]. destruct H as [Hv ->].
  destruct (asked raw) as [|t l] eqn:E; [by split|]. destruct (first_of (t :: l)) as [|t' l'] eqn:E'; [|by split].
  exfalso. assert (Hin : t ∈ first_of (t :: l)); [|rewrite E' in Hin; set_solver].
  unfold first_of. rewrite elem_of_reverse, elem_of_remove_dups, elem_of_reverse. left.
Qed.

(** C13: a search answers what it is asked for.  The kinds a query names are
    searched in its order, each once, and all three when it names none; an
    unknown kind is refused.  A blank text finds nothing.  Otherwise the answer
    holds, kind by kind, the live rows below live ones whose name or key has
    the text in it, in any letter case and whatever characters the text has,
    LIKE's own included, each shown with the names above it; the name that is
    the text comes first, then those that begin with it, then the others, by
    name; and of those as many as asked for, twenty where nothing is asked and
    fifty at most.  A failure of any query fails the whole search, and nothing
    is written. *)
Theorem search_exact raw text limit s :
  keyed s ->
  match ParseTypes raw with
  | Err _ => exists t, t ∈ asked raw /\ t ∉ ["service"; "component"; "pipeline"]
  | Ok types =>
      Forall (fun t => t ∈ ["service"; "component"; "pipeline"]) (asked raw) /\
      types = match asked raw with [] => ["service"; "component"; "pipeline"] | l => first_of l end /\
      let n := Z.min (if limit <=? 0 then 20 else limit) 50 in
      let q := TrimSpace text in
      (q = "" -> Search text types limit s = (Ok [], s)) /\
      (q <> "" -> wp (Search text types limit) (fun r s' => asame s s' /\ match r with
        | Ok hits => exists batches, hits = concat batches /\ Forall2 (fun t b => batch_for t q n s b) types batches
        | Err _ => ~ searchable s
        end) s)
  end.
Proof.
  intros Hk. pose proof (ParseTypes_asked raw) as Hp. destruct (ParseTypes raw) as [types|e]; [|exact Hp].
  destruct Hp as [Hv Ht]. split; [exact Hv|]. split; [exact Ht|]. intros n q.
  assert (Htv : types <> [] /\ Forall (fun t => t ∈ AllTypes) types).
  { rewrite Ht. destruct (asked raw) as [|t l]; [split; [done|]; by apply (bool_decide_unpack _); vm_compute|].
    assert (Hin : forall u, u ∈ first_of (t :: l) <-> u ∈ t :: l)
      by (intros u; unfold first_of; by rewrite elem_of_reverse, elem_of_remove_dups, elem_of_reverse).
    split; [intros E; assert (t ∈ first_of (t :: l)) as H by (apply Hin; left); rewrite E in H; set_solver|].
    rewrite Forall_forall in *. intros u Hu%Hin. by apply Hv. }
  destruct Htv as [Hne Hall]. split.
  - intros Hq. unfold Search. fold q. by rewrite Hq.
  - intros Hq. unfold Search. fold q. unfold empty_string. rewrite (proj2 (String.eqb_neq q "")) by done.
    destruct types as [|t types]; [done|]. apply wp_search_types; [done|done|].
    unfold DefaultLimit, MaxLimit. destruct (limit <=? 0) eqn:E; lia.
Qed.
End Search.

(** A database in the C collation. *)
Definition lower_ascii (c : ascii) : ascii :=
  let n := nat_of_ascii c in if (65 <=? n)%nat && (n <=? 90)%nat then ascii_of_nat (n + 32) else c.
Fixpoint lower_text (s : string) : string :=
  match s with "" => "" | String c s' => String (lower_ascii c) (lower_text s') end.
Fixpoint byte_rank (n : nat) (s : string) : Z :=
  match n with
  | O => 0
  | S n' => match s with
            | "" => 0
            | String c s' => (1 + Z.of_nat (nat_of_ascii c)) * 257 ^ Z.of_nat n' + byte_rank n' s'
            end
  end.
Definition c_collation : SqlText := {| sql_lower := lower_text; text_rank := byte_rank 256 |}.

Lemma lower_text_app a b : lower_text (a +:+ b) = lower_text a +:+ lower_text b.
Proof. induction a as [|c a IH]; [done|]. 
  change (String (lower_ascii c) (lower_text (a +:+ b)) = String (lower_ascii c) (lower_text a +:+ lower_text b)).
  by rewrite IH. Qed.
Lemma lower_escape_char c : lower_text (escape_char c) = escape_char (lower_ascii c).
Proof. by destruct c as [[] [] [] [] [] [] [] []]. Qed.
Lemma lower_escaped q : lower_text (escapeLike q) = escapeLike (lower_text q).
Proof. induction q as [|c q IH]; [done|]. cbn [escapeLike lower_text]. by rewrite lower_text_app, lower_escape_char, IH. Qed.
#[local] Instance c_collation_laws : SqlTextLaws c_collation.
Proof.
  split; intros q; unfold likePattern, prefixPattern; cbn [sql_lower c_collation]; by rewrite !lower_text_app, lower_escaped.
Qed.

Definition search_hub : Admin := demo_admin
  <| a_trees := table [mkServiceTree 2 5 5 1 "root"] |>
  <| a_services := table [mkService 3 5 5 None 2 "shop" "Shop" "" ""] |>.
Definition found_component : Hit :=
  mkHit TypeComponent 7 "component" "Acme / Shop" "c00000007-0000-4000-8000-000000000000".

Lemma search_exact_witness :
  (SearchService.ParseTypes " Component ,component" = Ok [TypeComponent]) /\
  (SearchService.Search (I := repository_search (Q := c_collation)) " C00000007 " [TypeComponent] 0 search_hub).1
    = Ok [found_component] /\
  exists batches, [found_component] = concat batches /\
    Forall2 (fun t b => batch_for (Q := c_collation) t "C00000007" 20 search_hub b) [TypeComponent] batches.
Proof.
  split; [vm_compute; reflexivity|]. split; [vm_compute; reflexivity|].
  assert (Hk : keyed search_hub) by (split_and!; apply (bool_decide_unpack _); vm_compute; exact I).
  pose proof (search_exact (Q := c_collation) " Component ,component" " C00000007 " 0 search_hub Hk) as H.
  change (SearchService.ParseTypes " Component ,component") with (Ok (E := GoError) [TypeComponent]) in H.
  destruct H as (_ & _ & _ & H). specialize (H ltac:(vm_compute; discriminate)). unfold wp in H.
  assert (E : SearchService.Search (I := repository_search (Q := c_collation)) " C00000007 " [TypeComponent] 0 search_hub
              = (Ok [found_component], search_hub)) by (vm_compute; reflexivity).
  rewrite E in H. exact (proj2 H).
Defined.
